(* ===== verification/_CoqProject ===== *)
-Q . S2P
Prelude.v
KList.v
KHeap.v
Ranges.v
Arch.v
Bfvm.v
Binparse.v
Hash.v
Java.v
Csr.v
Btree.v
Sections.v
StateM.v
Io.v
IoPlugins.v
Rio.v
RioSpec.v
Seeks.v
Trace.v
Utils.v
Vm.v
VmSpec.v
Flags.v
FlagsSpec.v
Data.v
Vars.v
DataSpec.v
Config.v
Bp.v
BpSpec.v
Cmd.v
CmdSpec.v
Base64.v
Bytediff.v
Math.v
Dislen.v
X86.v
Hack.v
Aops.v
Rasm.v
RasmSpec.v
Cond.v
Wp.v
Macros.v
Rdb.v
Analyze.v
Elf.v
Pe.v
Xrefs.v
Lsbstego.v
Dietline.v
DietlineSpec.v
Remote.v
RemoteSpec.v
Write.v
WriteSpec.v
Cmds.v
CmdsSpec.v
Digest.v
Sha1.v
Sha2.v
Rahash.v
Search.v
Rdbdiff.v
