(* ===== verification/Prelude.v ===== *)
(** * A verification library for radare

    radare is a hexadecimal editor, analyser and debugger: one interpreter of short commands over an I/O
    layer that makes files, processes and remote targets look like one sequence of bytes.  This library
    models the parts of [src/] that hold the program's own logic, in C as they are written, and proves what
    they promise.

    ** How the program is put together

    A line of input goes to [radare_cmd] ([radare.c]), which cuts it up and gives each command to a table
    ([cmds.c]).  Commands read and write at the current seek ([rio.c]) through a table of plugins ([io.c],
    [plug/io/]); addresses pass through sections ([section.c]).  What is known of addresses is kept in
    lists ([list.h]): flags ([flags.c]), metadata, comments and references ([data.c]), variables
    ([vars.c]), ranges ([ranges.c]), traces ([trace.c]).  Settings are the variables of [config.c].
    Writes and seeks can be undone ([undo.c]).  Searches feed bytes to a token matcher ([binparse.c]);
    checksums are in [rahash/].  Architectures describe opcodes to the core ([code.h], [arch/]); [vm.c]
    evaluates such descriptions on a register file and the I/O layer.  The debugger sets breakpoints in a
    process ([dbg/]); the brainfuck debugger ([plug/io/bfdbg.c]) is one of its own.

    ** Files

    Shared ground:
    - [Prelude]: machine integers, C strings, [printf] and [atoi], generic lemmas and automation;
    - [StateM]: the state monad with failure the stateful parts are written in, with its laws, and
      [agree_on], two computations that agree on a set of states (hint database [agree]);
    - [KList], [KHeap]: [list.h], as a sequence of nodes and as pointers on a store, with the refinement of the
      one by the other; the nested loops that [ranges_sort] and [trace_sort] share;
    - [Utils]: strings and buffers of [utils.c];
    - [Arch]: [struct aop_t] of [code.h].

    Data of the core:
    - [Ranges] ([ranges.c]), [Sections] ([section.c]), [Trace] ([trace.c]), [Btree] ([btree.c]);
    - [Flags], [FlagsSpec] ([flags.c]); [Data], [Vars], [DataSpec] ([data.c], [vars.c]);
    - [Config] ([config.c]).

    Input and output:
    - [Io] ([io.c]) with the class [Disk], what a plugin promises of a file; [IoPlugins] ([plug/io/malloc.c],
      [plug/io/posix.c]) with its instances;
    - [Rio], [RioSpec] ([rio.c], the write history of [undo.c]), proved against [Disk];
    - [Write], [WriteSpec] (the write commands of [rio.c], over [Rio]);
    - [Remote], [RemoteSpec] ([plug/io/remote.c]): both ends of the protocol, over [Rio];
    - [Seeks] (the history of seeks of [undo.c]).

    Commands:
    - [Cmd], [CmdSpec] ([radare.c], [commands_parse]) over the class [Session], with the instance of [Rio]; the class
      [Program] is the rest of the program as the interpreter calls it;
    - [Cmds], [CmdsSpec] (handlers of [cmds.c] on the seek, the blocks, the sections and the file, with [radare_move],
      [radare_resize] and [radare_seek_search] of [radare.c]), over [Rio], [Seeks], [Sections], [Flags] and [Write];
    - [Macros] ([macros.c]); [Math] ([get_math] and [get_offset] of [utils.c]);
    - [Dietline], [DietlineSpec] ([dietline.c]): the line editor, and the idealised one it refines.

    Machines and the debugger:
    - [Vm], [VmSpec] ([vm.c]) over the class [Memory], with the instance of [Rio];
    - [Bp], [BpSpec] ([dbg/bp.c], [dbg/arch/i386-bp.c], [debug_stepo]) over the class [Target], the memory of a process;
    - [Cond] ([dbg/parser.c]), [Wp] ([dbg/wp.c] and the loop that continues until a watchpoint holds);
    - [Bfvm] ([plug/io/bfdbg.c], [arch/bf/code.c]).

    Code and architectures:
    - [Dislen], [X86], [Hack] ([arch/x86/dislen.c], [arch/x86/code.c], [dbg/arch/i386-hack.c]); [Aops], the [code.c] of
      PowerPC, ARM, MIPS, SPARC and Z80; [Java] ([rabin/javasm.c], [arch/java/code.c]); [Csr] ([arch/csr/]);
    - [Rasm], [RasmSpec] ([rasm/]): the assemblers, checked against the analysis of [X86] and [Aops];
    - [Analyze] ([analyze.c]) over an analyser that is an argument; [Rdb] ([rdb.c]), the programs it fills.

    Files and searches:
    - [Elf] ([rabin/dietelf.c]), [Pe] ([rabin/dietpe.c]);
    - [Binparse] ([binparse.c]), [Search] ([search.c], [aes-find.c]), [Xrefs] ([xrefs.c]);
    - [Bytediff] ([radiff/bytediff.c]), [Rdbdiff] ([radiff/rdbdiff.c], over the programs of [Rdb]);
    - [Hash] (the checksums of [rahash/]), [Base64] ([b64.c]), [Lsbstego] ([lsbstego.c]);
    - [Digest], [Sha1], [Sha2] ([rahash/md5c.c], [md4.c], [sha1.c], [sha2.c]) with the class [Digest], what a digest
      promises of a message that is taken in pieces; [Rahash] ([rahash/rahash.c]) over the instances of it.

    ** How the code is modelled

    A C integer is a [Z]; where an operation can wrap, [u8] to [u64] and [s8] to [s64] are written out.  A
    buffer is the list of its bytes, a C string a [string], an intrusive list the list of its nodes.  A
    function of globals is a computation of [StateM.M] over a record of those globals, in the order of the
    statements; a pure function is a function.  [None] is undefined behaviour: an access outside a buffer
    or behind a terminator, a null pointer, a division by zero.  Error returns are values.  Code outside
    [src/] and the operating system are arguments of the definitions or fields of a class, whose laws are
    discharged by an instance.  Output is a value where it matters (listings are strings) and left out where
    it only informs.

    ** What the theorems show

    What holds only under conditions the program does not check says so, here and at the theorem; where the code fails
    outside of them an example shows it.

    - Invariants: ranges stay well formed and cover exactly what was added ([ranges_add_covers]); flags stay well
      formed in sessions of all operations, with the names and copies the code allows ([flags_well_formed]); the slots
      of the breakpoints and their counter agree, but for the removals of address 0, which only count
      ([bp_slots_invariant]); cutting a block keeps the code of the program but for a block that begins at the cut
      ([split_keeps_code]).
    - Refinement and equivalence: the line editor implements an idealised one ([editor_refines]); a file that is opened
      over the network answers reads and seeks as the local one as long as the sizes and places come over in the two
      byte orders ([remote_refines_local]); the brainfuck debugger simulates the language between the loops it does not
      skip and with brackets that match where it looks for them ([bfvm_step_simulates]); the pointers of [list.h]
      implement sequences ([list_ops_refine]); the table driven and the generic CRC-32 agree ([crc32_is_crca]); SHA-2 on
      sixteen words in a circle, taken in pieces, is SHA-2 of the padded text with a schedule ([sha2_in_pieces]);
      ampersands are sequence ([cmd_sequence]).
    - Round trips: writes are undone ([undo_restores]) and read back ([write_then_read]), and so are operations on the
      block when it is read in between ([op_then_inverse]); seeks are undone and redone once the history knows the place
      ([seek_and_back]); an ELF file that is written opens with its headers ([written_file_opens]); addresses of a PE
      file lead to the file and back ([rva_roundtrip]); assembled branches are analysed as branches to the place their
      encoding can reach ([branch_roundtrip]); patches patch ([radiff_script_patches]); conditions that can be read back
      and the blocks of base64 come back ([cond_roundtrip], [base64_block_roundtrip]).
    - Safety and transparency: the successors of every block that is found are blocks that are found
      ([analysis_closed]); breakpoints an instruction apart leave the memory as it was ([bp_transparent]); a command at
      an offset leaves the seek where the command itself left the place to go back to ([temporary_seek_restores]); scans
      and searches report only what is there ([tokenize_sound], [xrefs_exact], [seek_search_sound]).
    - Termination and liveness: taking a range away ends, with what the nodes met leave, and sorting with the sorted
      list ([ranges_sub_removes], [ranges_sort_sorts]); adding data ends, with the new record ([data_add_get]);
      continuing stops at the first state where a watchpoint holds ([contwp_reaches]).
    - Bounds and errors: buffers are never overrun by the decoders and the readers ([csr_decode_safe],
      [dislen_bounds], [symbols_fit]); a remote write is carried out and no answer is sent for it
      ([write_never_answered]).
    - Functional behaviour: expressions ([get_math_chain]), macros of plain lines ([macro_define_call]), copying inside
      of the file ([move_copies]), the digests of the blocks of a file ([rahash_digests]), what a comparison of two
      programs reports and leaves ([rdb_diff_exact]).
    - Further theorems of the files state single operations, as the text that assembles what it disassembles
      ([java_roundtrip]), settings that read as they were set ([config_set_get]), the keywords of a search
      ([keywords_meant]), pushed registers that come back ([push_pop_roundtrip]), MD5, MD4 and SHA-1 in pieces
      ([md5_in_pieces], [mdfour_is_md4], [sha1_in_pieces]), and what goes wrong: overlapping breakpoints
      ([bp_overlap_leaves_int3]), stepping over a call onto a breakpoint ([stepo_breakpoints]), nested temporary
      seeks ([nested_seek_lost]), levels that are not counted back ([unmatched_accent_leaks_level]), the guard of
      expressions ([math_guard_leaks]), the write cache of the virtual machine ([cache_keeps_first_push]), keys of the
      line editor ([erased_inside_loses_typed], [short_word_erased]), the test for keys of AES ([aes_key_found]).

    ** Bounds and fuel

    Numbers are printed with at most 64 digits, more than 64 bits need.  Loops over lists run on the list
    or on its length.  [vm_eval] runs on the depth of aliases, of which two suffice.  [trace_show] runs on
    two more than the number of traces.  [cmd_loop] runs on the length of the line, of which every turn takes some away
    ([cmd_loop_fuel]); [radare_cmd_raw] and [inline_pipes] run on the depth of commands that run commands, which
    the code does not bound: [None] is then also a session that never ends.  The loops of [Bp] run on the
    128 slots.  The line editor runs on the length of its input, of which every turn reads a character.  The
    analysis of a function runs on its depth, as the program does ([analysis_returns]).

    ** What is not modelled

    Terminal input and output, the visual mode, graphs, projects, sockets and plugins of other programs,
    which are calls of the operating system or of libraries; the disassemblers and assemblers of other
    projects under [arch/], which are most of the lines of the repository; the entropy of [rahash/], which is
    computed in floating point; the reader of Mach-O files and the programs around the readers; the parts of the
    debugger that only call [ptrace] or the Windows and Mach interfaces; the handlers of the table that only
    dispatch to the parts above, print, or run other programs.
    In the parts that are modelled: Control-C, the sizes of buffers on the stack of the interpreter, and messages. *)

From Stdlib Require Export ZArith Lia Ascii String Sorted.
From stdpp Require Export prelude.
#[export] Set Default Goal Selector "!".
Open Scope Z_scope.

Declare Scope radare_scope.
Delimit Scope radare_scope with radare.
Infix "+:+" := String.append (at level 60, right associativity) : radare_scope.
Open Scope radare_scope.

(** ** Machine integers

    C integers are values of [Z]; the width is written at every operation that can wrap. *)
Definition u8 (z : Z) : Z := z mod 2^8.
Definition u16 (z : Z) : Z := z mod 2^16.
Definition u32 (z : Z) : Z := z mod 2^32.
Definition u64 (z : Z) : Z := z mod 2^64.
Definition s8 (z : Z) : Z := (z + 2^7) mod 2^8 - 2^7.
Definition s16 (z : Z) : Z := (z + 2^15) mod 2^16 - 2^15.
Definition s32 (z : Z) : Z := (z + 2^31) mod 2^32 - 2^31.
Definition s64 (z : Z) : Z := (z + 2^63) mod 2^64 - 2^63.

Definition is_u8 (z : Z) : Prop := 0 <= z < 2^8.
Definition is_u16 (z : Z) : Prop := 0 <= z < 2^16.
Definition is_u32 (z : Z) : Prop := 0 <= z < 2^32.
Definition is_u64 (z : Z) : Prop := 0 <= z < 2^64.

(** Values that fit do not wrap. *)
Lemma u8_id z : is_u8 z -> u8 z = z.
Proof. intros. by apply Z.mod_small. Qed.
Lemma u32_id z : is_u32 z -> u32 z = z.
Proof. intros. by apply Z.mod_small. Qed.
Lemma u64_id z : is_u64 z -> u64 z = z.
Proof. intros. by apply Z.mod_small. Qed.
Lemma u64_range z : is_u64 (u64 z).
Proof. apply Z.mod_pos_bound. lia. Qed.
Lemma s32_id z : - 2^31 <= z < 2^31 -> s32 z = z.
Proof. intros. unfold s32. rewrite Z.mod_small; lia. Qed.

(** C's truth value of an [int]. *)
Definition truth (z : Z) : bool := negb (z =? 0).

(** ** Output of [printf]

    [%x] and [%d] as the C library prints them, and zero padding as in [%08llx]. *)
Definition chr (z : Z) : ascii := ascii_of_nat (Z.to_nat z).
Definition ord (c : ascii) : Z := Z.of_nat (nat_of_ascii c).

Definition digit (d : Z) : ascii := chr (if d <? 10 then 48 + d else 87 + d).

Fixpoint digits (base : Z) (fuel : nat) (z : Z) (acc : string) : string :=
  match fuel with
  | O => acc
  | S fuel' =>
    let acc := String (digit (z mod base)) acc in
    if z <? base then acc else digits base fuel' (z / base) acc
  end.

Fixpoint pad (c : ascii) (n : nat) (s : string) : string :=
  match n with O => s | S n' => String c (pad c n' s) end.

(** At most 64 digits are ever printed: the values are below [2^64]. *)
Definition fmt_x (z : Z) : string := digits 16 64 z "".
Definition fmt_d (z : Z) : string :=
  if z <? 0 then String "-" (digits 10 64 (- z) "") else digits 10 64 z "".
Definition fmt_x0 (w : nat) (z : Z) : string :=
  let s := fmt_x z in pad "0" (w - String.length s) s.
Definition nl : string := String (chr 10) "".

(** ** Numbers in memory

    The bytes of a number, the lowest first. *)
Fixpoint le_bytes (n : nat) (v : Z) : list Z := match n with O => [] | S n' => v mod 256 :: le_bytes n' (v / 256) end.
Fixpoint le_value (l : list Z) : Z := match l with [] => 0 | b :: l' => b + 256 * le_value l' end.

(** A write replaces the bytes from the offset on; what lies behind the end extends the list. *)
Definition patch (off : nat) (data bs : list Z) : list Z :=
  take off bs ++ data ++ drop (off + length data) bs.

Lemma patch_length off data bs : (off + length data <= length bs)%nat -> length (patch off data bs) = length bs.
Proof. intros. unfold patch. rewrite !length_app, length_take, length_drop. lia. Qed.

Lemma patch_lookup off data bs i :
  (off + length data <= length bs)%nat ->
  patch off data bs !! i = if decide (off <= i < off + length data)%nat then data !! (i - off)%nat else bs !! i.
Proof.
  intros H. unfold patch. assert (Hl : length (take off bs) = off) by (rewrite length_take; lia).
  case_decide as Hi.
  - rewrite lookup_app_r, lookup_app_l by lia. by rewrite Hl.
  - destruct (decide (i < off)%nat).
    + by rewrite lookup_app_l, lookup_take_lt by lia.
    + rewrite !lookup_app_r by lia. rewrite lookup_drop. f_equal. lia.
Qed.

Lemma le_bytes_length n v : length (le_bytes n v) = n.
Proof. revert v. induction n as [|n IH]; intros v; cbn; by rewrite ?IH. Qed.

Lemma le_value_bytes n v : 0 <= v < 2 ^ (8 * Z.of_nat n) -> le_value (le_bytes n v) = v.
Proof.
  revert v. induction n as [|n IH]; intros v Hv; cbn [le_bytes le_value].
  { change (2 ^ (8 * Z.of_nat 0)) with 1 in Hv. lia. }
  rewrite Nat2Z.inj_succ, Z.mul_succ_r, Z.pow_add_r in Hv by lia. change (2 ^ 8) with 256 in Hv.
  rewrite IH by (split; [apply Z.div_pos; lia|apply Z.div_lt_upper_bound; lia]). pose proof (Z.div_mod v 256). lia.
Qed.

(** ** Automation *)

(** Case analysis on every integer comparison of the goal or of the hypotheses. *)
Ltac zcase :=
  repeat match goal with
  | |- context [?a <? ?b] => destruct (Z.ltb_spec a b)
  | |- context [?a <=? ?b] => destruct (Z.leb_spec a b)
  | |- context [?a =? ?b] => destruct (Z.eqb_spec a b)
  | H : context [?a <? ?b] |- _ => destruct (Z.ltb_spec a b)
  | H : context [?a <=? ?b] |- _ => destruct (Z.leb_spec a b)
  | H : context [?a =? ?b] |- _ => destruct (Z.eqb_spec a b)
  end.

(** ** C strings *)

#[export] Instance ascii_eq_dec : EqDecision ascii := ascii_dec.
#[export] Instance string_eq_dec : EqDecision string := string_dec.

(** [memcmp(s, p, strlen(p)) == 0]. *)
Fixpoint starts_with (p s : string) : bool :=
  match p, s with
  | EmptyString, _ => true
  | String a p', String b s' => Ascii.eqb a b && starts_with p' s'
  | _, EmptyString => false
  end.

(** [strchr]: the suffix that starts at the first [c]. *)
Fixpoint strchr (s : string) (c : ascii) : option string :=
  match s with
  | EmptyString => None
  | String a s' => if Ascii.eqb a c then Some s else strchr s' c
  end.

(** [strstr(s, p) != NULL]. *)
Fixpoint contains (p s : string) : bool :=
  starts_with p s || match s with EmptyString => false | String _ s' => contains p s' end.

(** The string behind its first [n] characters; a C pointer addition within the string. *)
Fixpoint str_drop (n : nat) (s : string) : string :=
  match n, s with
  | O, _ => s
  | S n', String _ s' => str_drop n' s'
  | S _, EmptyString => EmptyString
  end.

Definition isspace (c : ascii) : bool := (ord c =? 32) || ((9 <=? ord c) && (ord c <=? 13)).
Definition isdigit (c : ascii) : bool := (48 <=? ord c) && (ord c <=? 57).

(** [atoi]: blanks, a sign, digits; [int] overflow wraps. *)
Fixpoint atoi_digits (acc : Z) (s : string) : Z :=
  match s with
  | String c s' => if isdigit c then atoi_digits (10 * acc + (ord c - 48)) s' else acc
  | EmptyString => acc
  end.
Fixpoint skip_spaces (s : string) : string :=
  match s with String c s' => if isspace c then skip_spaces s' else s | EmptyString => s end.
Definition atoi (s : string) : Z :=
  match skip_spaces s with
  | String c s' as s0 =>
    if Ascii.eqb c "-" then s32 (- atoi_digits 0 s')
    else if Ascii.eqb c "+" then s32 (atoi_digits 0 s') else s32 (atoi_digits 0 s0)
  | EmptyString => 0
  end.

Definition is_printable (c : Z) : bool := negb ((c <? 32) || (126 <? c)).

(** A property of all characters of a text. *)
Fixpoint all_chars (p : ascii -> bool) (s : string) : bool :=
  match s with EmptyString => true | String c s' => p c && all_chars p s' end.

Lemma all_chars_app f s t : all_chars f (s +:+ t) = all_chars f s && all_chars f t.
Proof. induction s as [|c s IH]; [done|]. cbn. by rewrite IH, andb_assoc. Qed.

Lemma all_chars_impl (f g : ascii -> bool) s : (forall c, f c = true -> g c = true) ->
  all_chars f s = true -> all_chars g s = true.
Proof. intros H. induction s as [|c s IH]; [done|]. cbn. intros [Hc Hs]%andb_prop. by rewrite H, IH. Qed.

Lemma append_empty s : s +:+ "" = s.
Proof. induction s as [|c s IH]; cbn; [done|by rewrite IH]. Qed.

Lemma append_assoc (a b c : string) : (a +:+ b) +:+ c = a +:+ (b +:+ c).
Proof. induction a as [|x a IH]; cbn; [done|by rewrite IH]. Qed.
Lemma str_length_app s t : String.length (s +:+ t) = (String.length s + String.length t)%nat.
Proof. induction s; cbn; auto. Qed.

Lemma digits_chars (p : ascii -> bool) base fuel z acc :
  0 < base -> (forall d, 0 <= d < base -> p (digit d) = true) -> all_chars p acc = true ->
  all_chars p (digits base fuel z acc) = true.
Proof.
  intros Hb Hp. revert z acc. induction fuel as [|fuel IH]; intros z acc Ha; [done|]. cbn [digits].
  assert (Hd : all_chars p (String (digit (z mod base)) acc) = true).
  { cbn [all_chars]. by rewrite Hp, Ha by (apply Z.mod_pos_bound; lia). }
  destruct (z <? base); [done|]. by apply IH.
Qed.

Lemma digits_cons base fuel z acc : exists c s, digits base (S fuel) z acc = String c s.
Proof.
  revert z acc. induction fuel as [|fuel IH]; intros z acc; cbn [digits].
  - destruct (z <? base); by do 2 eexists.
  - destruct (z <? base); [by do 2 eexists|]. apply IH.
Qed.

Lemma length_digits base fuel z acc : (String.length (digits base fuel z acc) <= fuel + String.length acc)%nat.
Proof.
  revert z acc. induction fuel as [|fuel IH]; intros z acc; cbn [digits]; [lia|].
  destruct (z <? base); [cbn [String.length]; lia|]. etransitivity; [apply IH|]. cbn [String.length]. lia.
Qed.

Lemma str_drop_app s t : str_drop (String.length s) (s +:+ t) = t.
Proof. induction s; [by destruct t|done]. Qed.

(** ** Finite case analysis

    A boolean property of the integers below a bound, by evaluation. *)
Lemma forallb_below (f : Z -> bool) (n : Z) :
  forallb f (seqZ 0 n) = true -> forall z, 0 <= z < n -> f z = true.
Proof.
  intros H z Hz. rewrite forallb_forall in H. apply H. apply list_elem_of_In, elem_of_seqZ. lia.
Qed.

(** ** Bits *)

(** Disjoint fields are added. *)
Lemma lor_add (n a b : Z) : 0 <= n -> 0 <= b < 2^n -> Z.lor (a * 2^n) b = a * 2^n + b.
Proof.
  intros Hn Hb. assert (Hl : Z.land (a * 2^n) b = 0).
  { apply Z.bits_inj'. intros k Hk. rewrite Z.land_spec, Z.bits_0.
    destruct (Z.lt_ge_cases k n).
    - by rewrite Z.mul_pow2_bits_low.
    - rewrite <-(Z.mod_small b (2^n)), Z.mod_pow2_bits_high by lia. apply andb_false_r. }
  rewrite <-Z.lxor_lor, <-Z.add_nocarry_lxor; done.
Qed.

Lemma land_mask (n a : Z) : 0 <= n -> Z.land a (2^n - 1) = a mod 2^n.
Proof. intros. rewrite Z.sub_1_r, <-Z.ones_equiv. by apply Z.land_ones. Qed.
