(* ===== verification/KList.v ===== *)
(** * The intrusive list of [src/list.h] and the sort the tables share

    A doubly linked [list_head] is the sequence of its nodes in [next] order; a node is its
    address, here a [nat].  [list_add], [list_add_tail], [list_del] and [list_move] are the
    header's operations on that sequence.  [list_sort] is the pair of nested
    [list_for_each_safe] loops that [ranges_sort] and [trace_sort] share word for word: it walks
    the [next] pointers of the list it is rearranging. *)
From S2P Require Import Prelude.

(** [list_add new head]: the new node becomes the first one. *)
Definition list_add (x : nat) (L : list nat) : list nat := x :: L.

(** [list_add_tail new head]. *)
Definition list_add_tail (x : nat) (L : list nat) : list nat := L ++ [x].

(** [list_del entry]. *)
Definition list_del (x : nat) (L : list nat) : list nat := filter (fun y => y <> x) L.

(** [__list_add new p p->next]: insert [x] behind the node [p]. *)
Fixpoint list_add_after (x p : nat) (L : list nat) : list nat :=
  match L with
  | [] => []
  | y :: L' => if decide (y = p) then y :: x :: L' else y :: list_add_after x p L'
  end.

(** [list_move list head]: unlink [x] and link it again behind [p]. *)
Definition list_move (x p : nat) (L : list nat) : list nat :=
  list_add_after x p (list_del x L).

(** [x->next]; [None] stands for the list head. *)
Fixpoint next_of (L : list nat) (x : nat) : option nat :=
  match L with
  | [] => None
  | y :: L' => if decide (y = x) then head L' else next_of L' x
  end.

Lemma next_of_mid W p S' : p ∉ W -> next_of (W ++ p :: S') p = head S'.
Proof.
  induction W as [|w W IH]; simpl; intros Hp; [by rewrite decide_True|].
  apply not_elem_of_cons in Hp as [? ?]. rewrite decide_False by done. auto.
Qed.

Lemma list_del_not_in x L : x ∉ L -> list_del x L = L.
Proof.
  induction L as [|y L IH]; intros Hx; [done|]. apply not_elem_of_cons in Hx as [? ?].
  unfold list_del. rewrite filter_cons_True by done. f_equal. by apply IH.
Qed.

Lemma list_del_app x L1 L2 : list_del x (L1 ++ L2) = list_del x L1 ++ list_del x L2.
Proof. apply filter_app. Qed.

Lemma list_del_here x L : list_del x (x :: L) = list_del x L.
Proof. unfold list_del. rewrite filter_cons_False; naive_solver. Qed.

Lemma list_del_cons x y L : y <> x -> list_del x (y :: L) = y :: list_del x L.
Proof. intros. unfold list_del. rewrite filter_cons_True; done. Qed.

Lemma list_add_after_mid x p W S' : p ∉ W -> list_add_after x p (W ++ p :: S') = W ++ p :: x :: S'.
Proof.
  induction W as [|w W IH]; simpl; intros Hp; [by rewrite decide_True|].
  apply not_elem_of_cons in Hp as [? ?]. rewrite decide_False by done. by rewrite IH.
Qed.

Lemma elem_of_list_del x y L : y ∈ list_del x L <-> y ∈ L /\ y <> x.
Proof. unfold list_del. rewrite list_elem_of_filter. naive_solver. Qed.

(** Moving [x] behind [p], when [p] splits the list. *)
Lemma list_move_mid x p W S' :
  x <> p -> NoDup (W ++ p :: S') ->
  list_move x p (W ++ p :: S') = list_del x W ++ p :: x :: list_del x S'.
Proof.
  intros Hne Hnd. unfold list_move.
  rewrite list_del_app, list_del_cons by done. apply list_add_after_mid.
  rewrite elem_of_list_del. intros [Hp _]. apply NoDup_app in Hnd as (_ & Hd & _).
  apply (Hd p Hp). left.
Qed.

(** ** The sort loops *)
Section klist.
Context (key : nat -> Z).

(** The inner [list_for_each_safe(pos2, n2, head)]: [pos2] is the current node, [n2] the
    successor saved before the body ran. *)
Fixpoint sort_inner (fuel : nat) (pos : nat) (pos2 n2 : option nat) (L : list nat) (ch : bool)
    : option (list nat * bool) :=
  match pos2 with
  | None => Some (L, ch)
  | Some p2 =>
    match fuel with
    | O => None
    | S fuel' =>
      let '(L', ch') :=
        if bool_decide (pos <> p2) && (key p2 <? key pos)
        then (list_move pos p2 L, true) else (L, ch) in
      sort_inner fuel' pos n2 (n2 ≫= next_of L') L' ch'
    end
  end.

(** The outer [list_for_each_safe(pos, n, head)]. *)
Fixpoint sort_outer (fuel : nat) (pos n : option nat) (L : list nat) (ch : bool)
    : option (list nat * bool) :=
  match pos with
  | None => Some (L, ch)
  | Some p =>
    match fuel with
    | O => None
    | S fuel' =>
      match sort_inner (S (length L)) p (head L) (head L ≫= next_of L) L ch with
      | None => None
      | Some (L', ch') => sort_outer fuel' n (n ≫= next_of L') L' ch'
      end
    end
  end.

(** Enough turns for the outer loop: see [list_sort_total]. *)
Definition sort_fuel (L : list nat) : nat := S (length L * S (length L) + length L).

Definition list_sort (L : list nat) : option (list nat * bool) :=
  sort_outer (sort_fuel L) (head L) (head L ≫= next_of L) L false.

(** ** What the loops compute *)

(** [x] behind the last node of [l] whose key is smaller, if there is one. *)
Fixpoint ins_after_last (x : nat) (l : list nat) : option (list nat) :=
  match l with
  | [] => None
  | y :: l' =>
    match ins_after_last x l' with
    | Some r => Some (y :: r)
    | None => if key y <? key x then Some (y :: x :: l') else None
    end
  end.

Definition smaller_in (x : nat) (l : list nat) : Prop := exists y, y ∈ l /\ key y < key x.

Lemma ins_after_last_None x l :
  ins_after_last x l = None -> Forall (fun y => key x <= key y) l.
Proof.
  induction l as [|y l IH]; simpl; intros H; [constructor|].
  destruct (ins_after_last x l); [discriminate|].
  destruct (Z.ltb_spec (key y) (key x)); [discriminate|]. constructor; auto with lia.
Qed.

Lemma ins_after_last_Some x l r :
  ins_after_last x l = Some r ->
  exists l1 z l2, l = l1 ++ z :: l2 /\ r = l1 ++ z :: x :: l2 /\
    key z < key x /\ Forall (fun y => key x <= key y) l2.
Proof.
  revert r; induction l as [|y l IH]; simpl; intros r H; [discriminate|].
  destruct (ins_after_last x l) as [r'|] eqn:E.
  - injection H as <-. destruct (IH _ eq_refl) as (l1 & z & l2 & -> & -> & ? & ?).
    by exists (y :: l1), z, l2.
  - destruct (Z.ltb_spec (key y) (key x)); [|discriminate]. injection H as <-.
    exists [], y, l. split_and!; auto. by apply ins_after_last_None.
Qed.

Lemma ins_after_last_app x l1 l2 :
  ins_after_last x (l1 ++ l2) =
  match ins_after_last x l2 with
  | Some r => Some (l1 ++ r)
  | None => (fun r => r ++ l2) <$> ins_after_last x l1
  end.
Proof.
  induction l1 as [|y l1 IH]; simpl.
  - destruct (ins_after_last x l2); done.
  - rewrite IH. destruct (ins_after_last x l2); [done|].
    destruct (ins_after_last x l1); simpl; [done|]. by destruct (key y <? key x).
Qed.

(** The nodes in front of the loop, one step further. *)
Lemma list_del_snoc x y W r : x <> y -> list_del x (W ++ [y]) ++ r = list_del x W ++ y :: r.
Proof.
  intros. rewrite list_del_app, list_del_cons by done. unfold list_del. by rewrite filter_nil, <-app_assoc.
Qed.

Lemma list_del_snoc_same x W r : x ∉ W -> list_del x (W ++ [x]) ++ r = W ++ r.
Proof.
  intros. rewrite list_del_app, list_del_here, (list_del_not_in x W) by done.
  unfold list_del. by rewrite filter_nil, app_nil_r.
Qed.

(** A node moved behind [y]. *)
Lemma list_move_nodup x y (W S0 : list nat) : x <> y -> NoDup (W ++ y :: S0) -> NoDup ((list_del x W ++ [y; x]) ++ list_del x S0).
Proof.
  intros Hxy Hnd. rewrite <-app_assoc. cbn. apply NoDup_app in Hnd as (HnW & Hd & HnS).
  apply NoDup_cons in HnS as [Hy HnS]. apply NoDup_app. split_and!.
  - by apply NoDup_filter.
  - intros z Hz. apply elem_of_list_del in Hz as [Hz Hzx].
    rewrite !not_elem_of_cons, elem_of_list_del. specialize (Hd _ Hz). set_solver.
  - apply NoDup_cons. rewrite not_elem_of_cons, elem_of_list_del. split; [naive_solver|].
    apply NoDup_cons. rewrite elem_of_list_del. split; [naive_solver|]. by apply NoDup_filter.
Qed.

Lemma list_move_front x y (W r : list nat) : x <> y ->
  list_del x (list_del x W ++ [y; x]) ++ r = list_del x W ++ y :: r.
Proof.
  intros. rewrite list_del_app, list_del_cons, list_del_here by done.
  rewrite (list_del_not_in x (list_del x W)) by (rewrite elem_of_list_del; naive_solver).
  unfold list_del. by rewrite filter_nil, <-app_assoc.
Qed.

(** The inner loop moves [pos] behind the last smaller node it has still to meet. *)
Lemma sort_inner_spec fuel pos W S0 ch :
  (length S0 <= fuel)%nat -> NoDup (W ++ S0) -> pos ∈ W ++ S0 ->
  exists ch', sort_inner fuel pos (head S0) (head S0 ≫= next_of (W ++ S0)) (W ++ S0) ch =
    Some (match ins_after_last pos (list_del pos S0) with
          | Some r => list_del pos W ++ r
          | None => W ++ S0
          end, ch').
Proof.
  revert W S0 ch. induction fuel as [|fuel IH]; intros W S0 ch Hlen Hnd Hin.
  { destruct S0; [|simpl in Hlen; lia]. by exists ch. }
  destruct S0 as [|p2 S']; [by exists ch|]. cbn [head sort_inner]. simpl in Hlen.
  assert (Hp2 : p2 ∉ W /\ p2 ∉ S') by (rewrite NoDup_app, NoDup_cons in Hnd; set_solver).
  destruct Hp2 as [HpW HpS]. cbn [mbind option_bind]. rewrite next_of_mid by done.
  destruct (decide (pos = p2)) as [<-|Hne].
  - rewrite bool_decide_eq_false_2 by naive_solver. simpl.
    rewrite list_del_here, (list_del_not_in pos S') by done.
    rewrite (list_del_not_in pos W) by done.
    destruct (IH (W ++ [pos]) S' ch) as [ch' IH']; [lia|by rewrite <-app_assoc|set_solver|].
    rewrite <-app_assoc in IH'. simpl in IH'. exists ch'. rewrite IH', (list_del_not_in pos S') by done.
    destruct (ins_after_last pos S'); [|done]. by rewrite list_del_snoc_same.
  - rewrite bool_decide_eq_true_2 by done. simpl. rewrite list_del_cons by done. simpl.
    destruct (Z.ltb_spec (key p2) (key pos)) as [Hlt|Hge].
    2:{ destruct (IH (W ++ [p2]) S' ch) as [ch' IH']; [lia|by rewrite <-app_assoc|set_solver|].
      rewrite <-app_assoc in IH'. simpl in IH'. exists ch'. rewrite IH'.
      destruct (ins_after_last pos (list_del pos S')); [|done]. by rewrite list_del_snoc. }
    rewrite list_move_mid by done. destruct (decide (head S' = Some pos)) as [Hh|Hh].
    + destruct S' as [|q B]; [done|]. injection Hh as ->. cbn [head].
      assert (HW : pos ∉ W /\ pos ∉ B) by (rewrite NoDup_app, !NoDup_cons in Hnd; set_solver). destruct HW.
      rewrite list_del_here, !(list_del_not_in pos) by done.
      destruct (IH (W ++ [p2]) (pos :: B) true) as [ch' IH']; [simpl in *; lia|by rewrite <-app_assoc|set_solver|].
      rewrite <-app_assoc in IH'. simpl in IH'. exists ch'. cbn [mbind option_bind].
      rewrite IH', list_del_here, (list_del_not_in pos B) by done.
      destruct (ins_after_last pos B); [|done]. by rewrite list_del_snoc, (list_del_not_in pos W).
    + assert (Hhd : head (list_del pos S') = head S').
      { destruct S' as [|q B]; [done|]. rewrite list_del_cons; [done|]. intros ->. by apply Hh. }
      set (W' := list_del pos W ++ [p2; pos]).
      assert (HL : list_del pos W ++ p2 :: pos :: list_del pos S' = W' ++ list_del pos S')
        by (unfold W'; by rewrite <-app_assoc).
      rewrite HL, <-Hhd. destruct (IH W' (list_del pos S') true) as [ch' IH'].
      { unfold list_del. pose proof (length_filter (fun y => y <> pos) S'). lia. }
      { by apply list_move_nodup. }
      { unfold W'. set_solver. }
      exists ch'. rewrite IH', (list_del_not_in pos (list_del pos S')) by (rewrite elem_of_list_del; naive_solver).
      destruct (ins_after_last pos (list_del pos S')); [|by rewrite <-HL]. unfold W'. by rewrite (list_move_front pos p2 W).
Qed.

Lemma sort_inner_full pos L ch :
  NoDup L -> pos ∈ L ->
  exists ch', sort_inner (S (length L)) pos (head L) (head L ≫= next_of L) L ch =
    Some (default L (ins_after_last pos (list_del pos L)), ch').
Proof.
  intros Hnd Hin.
  destruct (sort_inner_spec (S (length L)) pos [] L ch) as [ch' IH]; [lia|done|done|].
  exists ch'. rewrite !app_nil_l in IH. rewrite IH.
  by destruct (ins_after_last pos (list_del pos L)).
Qed.

Lemma ins_after_last_perm x l r : ins_after_last x l = Some r -> r ≡ₚ x :: l.
Proof.
  intros (l1 & z & l2 & -> & -> & _)%ins_after_last_Some. solve_Permutation.
Qed.

(** Nodes with a smaller one behind them: what the outer loop still has to move. *)
Fixpoint bads (l : list nat) : nat :=
  match l with
  | [] => 0
  | y :: l' => (if bool_decide (Exists (fun z => key z < key y) l') then 1 else 0) + bads l'
  end.

Lemma bads_length l : (bads l <= length l)%nat.
Proof. induction l; simpl; [lia|]. case_bool_decide; lia. Qed.

Lemma ins_after_last_bads x l r : ins_after_last x l = Some r -> (bads r <= bads l)%nat.
Proof.
  revert r. induction l as [|y l IH]; simpl; intros r H; [done|].
  destruct (ins_after_last x l) as [r'|] eqn:E.
  - injection H as <-. simpl. specialize (IH _ eq_refl).
    case_bool_decide as H1; case_bool_decide as H2; [lia| |lia|lia]. exfalso. apply H2.
    rewrite (ins_after_last_perm _ _ _ E), Exists_cons in H1. destruct H1 as [H1|]; [|done].
    apply ins_after_last_Some in E as (l1 & z & l2 & -> & _ & ? & _).
    apply Exists_exists. exists z. split; [set_solver|lia].
  - destruct (Z.ltb_spec (key y) (key x)); [|discriminate]. injection H as <-. simpl.
    apply ins_after_last_None in E. rewrite Forall_forall in E.
    rewrite (bool_decide_eq_false_2 (Exists _ l)); [|rewrite Exists_exists; intros (z & Hz & ?);
      specialize (E _ Hz); lia].
    case_bool_decide as H1; case_bool_decide as H2; [lia| |lia|lia]. exfalso. apply H2.
    apply Exists_cons in H1 as [?|]; [lia|done].
Qed.

Definition key_le (x y : nat) : Prop := key x <= key y.

Lemma ins_after_last_sorted x l r :
  ins_after_last x l = Some r -> StronglySorted key_le l -> Forall (fun y => key y <= key x) l ->
  StronglySorted key_le r.
Proof.
  revert r. induction l as [|y l IH]; simpl; intros r H Hs Hx; [done|].
  apply StronglySorted_inv in Hs as [Hs Hy]. apply Forall_cons in Hx as [Hyx Hx].
  destruct (ins_after_last x l) as [r'|] eqn:E.
  - injection H as <-. constructor; [by apply IH|].
    rewrite (ins_after_last_perm _ _ _ E). by constructor.
  - destruct (Z.ltb_spec (key y) (key x)); [|discriminate]. injection H as <-.
    apply ins_after_last_None in E. repeat constructor; auto.
Qed.

Lemma sorted_snoc W x :
  StronglySorted key_le W -> Forall (fun y => key y <= key x) W ->
  StronglySorted key_le (W ++ [x]).
Proof.
  induction 1 as [|y W HW IH Hy]; simpl; intros HF; [repeat constructor|].
  apply Forall_cons in HF as [? ?]. constructor; [auto|]. apply Forall_app; auto.
Qed.

Lemma sort_outer_spec fuel W S0 ch :
  (bads S0 * S (length (W ++ S0)) + length S0 <= fuel)%nat -> NoDup (W ++ S0) ->
  StronglySorted key_le W -> (forall w s, w ∈ W -> s ∈ S0 -> key w <= key s) ->
  exists L' ch', sort_outer fuel (head S0) (head S0 ≫= next_of (W ++ S0)) (W ++ S0) ch
    = Some (L', ch') /\ L' ≡ₚ W ++ S0 /\ StronglySorted key_le L'.
Proof.
  revert W S0 ch. induction fuel as [|fuel IH]; intros W S0 ch Hf Hnd HW HWS.
  { destruct S0; [|simpl in Hf; lia]. exists W, ch. by rewrite app_nil_r. }
  destruct S0 as [|x S']; [exists W, ch; by rewrite app_nil_r|].
  assert (Hx : x ∉ W /\ x ∉ S') by (rewrite NoDup_app, NoDup_cons in Hnd; set_solver).
  destruct Hx as [HxW HxS]. cbn [head sort_outer mbind option_bind].
  rewrite next_of_mid by done.
  destruct (sort_inner_full x (W ++ x :: S') ch) as [ch1 ->]; [done|set_solver|].
  rewrite list_del_app, list_del_here, !(list_del_not_in x) by done.
  rewrite ins_after_last_app.
  assert (HWx : Forall (fun y => key y <= key x) W) by (apply Forall_forall; set_solver).
  destruct (ins_after_last x S') as [X|] eqn:EX.
  - pose proof (ins_after_last_perm _ _ _ EX) as HpX.
    assert (HpL : W ++ X ≡ₚ W ++ x :: S') by (by rewrite HpX).
    assert (Hhd : head X = head S').
    { apply ins_after_last_Some in EX as ([|? ?] & ? & ? & -> & -> & _); done. }
    cbn [default from_option id]. rewrite <-Hhd. destruct (IH W X ch1) as (L' & ch' & -> & Hp & Hs); [| |done| |].
    + pose proof (ins_after_last_bads _ _ _ EX). rewrite HpL.
      assert (length X = S (length S')) as -> by (by rewrite HpX).
      simpl in Hf. rewrite bool_decide_eq_true_2 in Hf; [nia|].
      apply ins_after_last_Some in EX as (l1 & z & l2 & -> & _ & ? & _).
      apply Exists_exists. exists z. split; [set_solver|lia].
    + by rewrite HpL.
    + intros w s Hw Hs. rewrite HpX in Hs. auto.
    + exists L', ch'. split_and!; [done|by rewrite Hp|done].
  - assert (HxS' : Forall (fun y => key x <= key y) S') by (by apply ins_after_last_None).
    assert (exists W', W' ≡ₚ W ++ [x] /\ StronglySorted key_le W' /\
      default (W ++ x :: S') ((fun r => r ++ S') <$> ins_after_last x W) = W' ++ S') as (W' & HpW & HsW & Heq).
    { destruct (ins_after_last x W) as [r|] eqn:Er; simpl.
      - exists r. split_and!; [|by eapply ins_after_last_sorted|done].
        rewrite (ins_after_last_perm _ _ _ Er). solve_Permutation.
      - exists (W ++ [x]). split_and!; [done|by apply sorted_snoc|by rewrite <-app_assoc]. }
    assert (HpL : W' ++ S' ≡ₚ W ++ x :: S') by (rewrite HpW; solve_Permutation).
    rewrite Heq.
    destruct (IH W' S' ch1) as (L' & ch' & -> & Hp & Hs); [| |done| |].
    + rewrite HpL. simpl in Hf. case_bool_decide; nia.
    + by rewrite HpL.
    + intros w s Hw Hs. rewrite HpW in Hw. rewrite Forall_forall in HxS'. set_solver.
    + exists L', ch'. split_and!; [done|by rewrite Hp|done].
Qed.

(** The sort returns, with the same nodes in ascending key order. *)
Lemma list_sort_sorts L :
  NoDup L ->
  exists L' ch, list_sort L = Some (L', ch) /\ L' ≡ₚ L /\ StronglySorted key_le L'.
Proof.
  intros HL. apply (sort_outer_spec _ [] L); [|done|constructor|set_solver].
  unfold sort_fuel. simpl. pose proof (bads_length L). nia.
Qed.

End klist.

(** ** Sorting the records behind the nodes

    The callers compare a field [f] of the record a node stands for; node [i] is entry [i] of [l]. *)
Section records.
Context {A : Type} {HA : Inhabited A} (f : A -> Z) (l : list A).

Lemma lookup_total_seq : (fun i => l !!! i) <$> seq 0 (length l) = l.
Proof.
  apply list_eq. intros i. rewrite list_lookup_fmap.
  destruct (decide (i < length l)%nat) as [Hi|Hi].
  - rewrite lookup_seq_lt by done. simpl.
    destruct (lookup_lt_is_Some_2 l i Hi) as [x Hx]. by rewrite (list_lookup_total_correct l i x).
  - rewrite lookup_seq_ge by lia. symmetry. apply lookup_ge_None. lia.
Qed.

Definition by_key (x y : A) : Prop := f x <= f y.

Lemma StronglySorted_key order :
  StronglySorted (key_le (fun i => f (l !!! i))) order -> StronglySorted by_key ((fun i => l !!! i) <$> order).
Proof.
  induction 1 as [|i order _ IH Hi]; csimpl; constructor; [done|].
  apply Forall_fmap. by apply (Forall_impl _ _ _ Hi).
Qed.

Lemma list_sort_records :
  exists order ch, list_sort (fun i => f (l !!! i)) (seq 0 (length l)) = Some (order, ch) /\
    ((fun i => l !!! i) <$> order) ≡ₚ l /\ StronglySorted by_key ((fun i => l !!! i) <$> order).
Proof.
  destruct (list_sort_sorts (fun i => f (l !!! i)) (seq 0 (length l))) as (order & ch & E & Hp & Hs); [apply NoDup_seq|].
  exists order, ch. split; [done|]. split; [|by apply StronglySorted_key]. rewrite Hp. by rewrite lookup_total_seq.
Qed.
End records.
