(* ===== verification/KHeap.v ===== *)
(** * The pointer level of [src/list.h]

    The other files treat an intrusive list as the sequence of its nodes.  Here the header's
    inline functions are written out on a store of [next] and [prev] fields, with the order of
    their assignments and the aliasing of neighbours, and related to the sequence operations
    of [KList]. *)
From S2P Require Import Prelude KList.

(** The fields of every [struct list_head], by address; address 0 is [NULL]. *)
Record heap := Heap { nxt : nat -> nat; prv : nat -> nat }.

Definition upd (f : nat -> nat) (a v : nat) : nat -> nat :=
  fun x => if decide (x = a) then v else f x.

Definition set_nxt (h : heap) (a v : nat) : heap := Heap (upd (nxt h) a v) (prv h).
Definition set_prv (h : heap) (a v : nat) : heap := Heap (nxt h) (upd (prv h) a v).

Definition INIT_LIST_HEAD (ptr : nat) (h : heap) : heap :=
  set_prv (set_nxt h ptr ptr) ptr ptr.

Definition __list_add (new prev next : nat) (h : heap) : heap :=
  let h := set_prv h next new in
  let h := set_nxt h new next in
  let h := set_prv h new prev in
  set_nxt h prev new.

Definition h_list_add (new hd : nat) (h : heap) : heap := __list_add new hd (nxt h hd) h.
Definition h_list_add_tail (new hd : nat) (h : heap) : heap := __list_add new (prv h hd) hd h.

Definition __list_del (prev next : nat) (h : heap) : heap :=
  set_nxt (set_prv h next prev) prev next.

Definition h_list_del (entry : nat) (h : heap) : heap :=
  let h := __list_del (prv h entry) (nxt h entry) h in
  set_prv (set_nxt h entry 0%nat) entry 0%nat.

Definition h_list_move (l hd : nat) (h : heap) : heap :=
  let h := __list_del (prv h l) (nxt h l) h in
  h_list_add l hd h.

(** ** The chain of nodes [xs] between [a] and [b] *)
Fixpoint seg (h : heap) (a : nat) (xs : list nat) (b : nat) : Prop :=
  match xs with
  | [] => nxt h a = b /\ prv h b = a
  | x :: xs' => nxt h a = x /\ prv h x = a /\ seg h x xs' b
  end.

(** [hd] is the head of a circular list whose nodes are [L]. *)
Definition dll (h : heap) (hd : nat) (L : list nat) : Prop :=
  NoDup (hd :: L) /\ seg h hd L hd.

Lemma seg_app h a xs y ys b : seg h a (xs ++ y :: ys) b <-> seg h a xs y /\ seg h y ys b.
Proof. revert a; induction xs as [|x xs IH]; simpl; intros a; [|rewrite IH]; tauto. Qed.

Lemma seg_set_nxt h a xs b p v : p ∉ a :: xs -> seg (set_nxt h p v) a xs b <-> seg h a xs b.
Proof.
  revert a; induction xs as [|x xs IH]; intros a Hp; apply not_elem_of_cons in Hp as [Ha Hp];
    simpl; unfold upd; rewrite decide_False by done; [done|]. by rewrite IH.
Qed.

Lemma seg_set_prv h a xs b p v : p ∉ xs -> p <> b -> seg (set_prv h p v) a xs b <-> seg h a xs b.
Proof.
  revert a; induction xs as [|x xs IH]; intros a Hp Hb; simpl; unfold upd.
  - by rewrite decide_False.
  - apply not_elem_of_cons in Hp as [Hx Hp]. rewrite decide_False by done. by rewrite IH.
Qed.

#[local] Ltac upd_solve :=
  unfold upd; simpl; repeat (case_decide; simplify_eq); first [done | set_solver].

(** The node before [b], and the node after [a]. *)
Lemma seg_prv h a xs b : seg h a xs b -> prv h b = default a (last xs).
Proof.
  revert a; induction xs as [|x xs IH]; simpl; intros a H; [tauto|].
  destruct H as (_ & _ & H). rewrite (IH _ H), last_cons. by destruct (last xs).
Qed.

Lemma seg_nxt h a xs b : seg h a xs b -> nxt h a = default b (head xs).
Proof. destruct xs; simpl; tauto. Qed.

(** Linking a fresh [x] between [p] and its successor. *)
Lemma seg_insert h p B b x :
  seg h p B b -> NoDup (p :: B) -> b ∉ B -> x ∉ p :: B -> x <> b ->
  seg (__list_add x p (nxt h p) h) p (x :: B) b.
Proof.
  intros Hs Hnd Hb Hx Hxb. rewrite (seg_nxt _ _ _ _ Hs). unfold __list_add.
  apply NoDup_cons in Hnd as [HpB HndB]. apply not_elem_of_cons in Hx as [Hxp HxB].
  destruct B as [|y ys]; simpl in *.
  - split_and!; upd_solve.
  - apply not_elem_of_cons in Hb as [? ?]. apply not_elem_of_cons in HxB as [? ?].
    apply NoDup_cons in HndB as [? ?]. destruct Hs as (_ & _ & Hs).
    split_and!; [upd_solve..|].
    rewrite seg_set_nxt by set_solver. rewrite seg_set_prv by done.
    rewrite seg_set_nxt by set_solver. by rewrite seg_set_prv.
Qed.

Lemma seg_frame h hd A p q x :
  seg h hd A p -> p ∉ hd :: A -> x ∉ hd :: A -> x <> p -> q ∉ A -> q <> p ->
  seg (__list_add x p q h) hd A p.
Proof.
  intros Hs Hp Hx Hxp Hq Hqp. unfold __list_add.
  rewrite seg_set_nxt by done. rewrite seg_set_prv by set_solver.
  rewrite seg_set_nxt by done. by rewrite seg_set_prv.
Qed.

Lemma list_add_dll h hd L x :
  dll h hd L -> x ∉ hd :: L -> dll (h_list_add x hd h) hd (list_add x L).
Proof.
  intros [Hnd Hs] Hx. split.
  - apply NoDup_cons in Hnd as [? ?]. rewrite !NoDup_cons. set_solver.
  - apply NoDup_cons in Hnd as [? ?]. apply seg_insert; [done|by apply NoDup_cons|set_solver..].
Qed.

Lemma list_add_after_dll h hd L x p :
  dll h hd L -> x ∉ hd :: L -> p ∈ L ->
  dll (h_list_add x p h) hd (list_add_after x p L).
Proof.
  intros [Hnd Hs] Hx Hp. apply list_elem_of_split in Hp as (A & B & ->).
  assert (HpA : p ∉ A).
  { apply NoDup_cons in Hnd as [_ Hnd]. apply NoDup_app in Hnd as (_ & H & _).
    intros HA. apply (H _ HA). left. }
  rewrite list_add_after_mid by done. split.
  - assert (hd :: A ++ p :: x :: B ≡ₚ x :: hd :: A ++ p :: B) as -> by solve_Permutation.
    by apply NoDup_cons.
  - rewrite seg_app in Hs. destruct Hs as [HsA HsB]. rewrite seg_app.
    apply NoDup_cons in Hnd as [Hhd Hnd]. apply NoDup_app in Hnd as (HndA & Hd & HndB).
    pose proof HndB as [HpB _]%NoDup_cons.
    split.
    + apply seg_frame; [done|set_solver..| |].
      * rewrite (seg_nxt _ _ _ _ HsB). destruct B; simpl; [set_solver|].
        intros ?. eapply Hd; [done|set_solver].
      * rewrite (seg_nxt _ _ _ _ HsB). destruct B; simpl; set_solver.
    + apply seg_insert; [done|done|set_solver..].
Qed.

Lemma list_add_tail_dll h hd L x :
  dll h hd L -> x ∉ hd :: L -> dll (h_list_add_tail x hd h) hd (list_add_tail x L).
Proof.
  intros Hd Hx. unfold h_list_add_tail, list_add_tail. pose proof Hd as [Hnd Hs].
  rewrite (seg_prv _ _ _ _ Hs). destruct L as [|y L _] using rev_ind.
  - destruct Hs as [Hn _]. simpl.
    replace (__list_add x hd hd h) with (h_list_add x hd h) by (unfold h_list_add; by rewrite Hn).
    by apply (list_add_dll h hd []).
  - rewrite last_snoc. simpl. rewrite seg_app in Hs. destruct Hs as [_ [Hn _]].
    assert (y ∉ L) as HyL.
    { apply NoDup_cons in Hnd as [_ Hnd]. apply NoDup_app in Hnd as (_ & H & _). set_solver. }
    assert ((L ++ [y]) ++ [x] = list_add_after x y (L ++ [y])) as ->
      by (rewrite list_add_after_mid by done; by rewrite <-app_assoc).
    replace (__list_add x y hd h) with (h_list_add x y h) by (unfold h_list_add; by rewrite Hn).
    apply list_add_after_dll; [done|done|set_solver].
Qed.

(** Unlinking [x]: the neighbours are joined and the node's own fields are cleared. *)
Lemma list_unlink_dll h hd L x :
  dll h hd L -> x ∈ L -> dll (__list_del (prv h x) (nxt h x) h) hd (list_del x L).
Proof.
  intros [Hnd Hs] Hx. apply list_elem_of_split in Hx as (A & B & ->).
  rewrite seg_app in Hs. destruct Hs as [HsA HsB].
  apply NoDup_cons in Hnd as [Hhd Hnd]. apply NoDup_app in Hnd as (HndA & Hd & HndB).
  apply NoDup_cons in HndB as [HxB HndB].
  assert (HxA : x ∉ A) by set_solver.
  rewrite list_del_app, list_del_here, (list_del_not_in x A) by done.
  rewrite (list_del_not_in x B) by done.
  split.
  { apply NoDup_cons. rewrite NoDup_app. set_solver. }
  rewrite (seg_prv _ _ _ _ HsA), (seg_nxt _ _ _ _ HsB). unfold __list_del.
  destruct A as [|z A _] using rev_ind; simpl.
  - destruct B as [|y B]; simpl in *; [split; upd_solve|].
    apply NoDup_cons in HndB as [? ?]. destruct HsB as (_ & _ & HsB).
    split_and!; [upd_solve..|]. rewrite seg_set_nxt by set_solver.
    rewrite seg_set_prv by set_solver. done.
  - rewrite last_snoc. simpl. rewrite seg_app in HsA. destruct HsA as [HsA _].
    rewrite <-app_assoc. simpl. rewrite seg_app.
    apply NoDup_app in HndA as (HndA & HzA & _).
    destruct B as [|y B]; simpl in *.
    + split; [|split; upd_solve]. rewrite seg_set_nxt, seg_set_prv by set_solver. done.
    + apply NoDup_cons in HndB as [? ?]. destruct HsB as (_ & _ & HsB).
      split_and!; [|upd_solve..|].
      * rewrite seg_set_nxt, seg_set_prv by set_solver. done.
      * rewrite seg_set_nxt, seg_set_prv by set_solver. done.
Qed.

Lemma dll_clear h hd L x :
  dll h hd L -> x ∉ hd :: L -> dll (set_prv (set_nxt h x 0%nat) x 0%nat) hd L.
Proof.
  intros [Hnd Hs] Hx. split; [done|].
  rewrite seg_set_prv, seg_set_nxt by set_solver. done.
Qed.

Lemma list_del_dll h hd L x : dll h hd L -> x ∈ L -> dll (h_list_del x h) hd (list_del x L).
Proof.
  intros Hd Hx. apply dll_clear; [by apply list_unlink_dll|].
  destruct Hd as [[? _]%NoDup_cons _]. rewrite not_elem_of_cons, elem_of_list_del. set_solver.
Qed.

(** [list_move] relinks [x] behind another node of the list. *)
Lemma list_move_dll h hd L x p :
  dll h hd L -> x ∈ L -> p ∈ L -> x <> p -> dll (h_list_move x p h) hd (list_move x p L).
Proof.
  intros Hd Hx Hp Hne. apply list_add_after_dll; [by apply list_unlink_dll| |].
  - destruct Hd as [[? _]%NoDup_cons _]. rewrite not_elem_of_cons, elem_of_list_del. set_solver.
  - by apply elem_of_list_del.
Qed.

Lemma INIT_LIST_HEAD_dll hd h : dll (INIT_LIST_HEAD hd h) hd [].
Proof. split; [apply NoDup_singleton|]. unfold upd; simpl. split; unfold upd; by rewrite decide_True. Qed.

(** C40: the pointer assignments of the header implement the sequence operations: on a circular
    list, linking a new node at either end, unlinking a node and moving a node behind another
    one leave a circular list with the nodes the operation on sequences gives. *)
Theorem list_ops_refine h hd L x p :
  dll h hd L ->
  (x ∉ hd :: L -> dll (h_list_add x hd h) hd (list_add x L) /\
                  dll (h_list_add_tail x hd h) hd (list_add_tail x L)) /\
  (x ∈ L -> dll (h_list_del x h) hd (list_del x L)) /\
  (x ∈ L -> p ∈ L -> x <> p -> dll (h_list_move x p h) hd (list_move x p L)).
Proof.
  intros Hd. split_and!; intros.
  - split; [by apply list_add_dll|by apply list_add_tail_dll].
  - by apply list_del_dll.
  - by apply list_move_dll.
Qed.

Lemma list_ops_refine_witness :
  dll (h_list_add 5 1 (INIT_LIST_HEAD 1 (Heap (fun _ => 0) (fun _ => 0))))%nat 1%nat [5%nat].
Proof.
  refine (proj1 (proj1 (list_ops_refine _ 1 [] 5 5 _) _))%nat.
  - apply INIT_LIST_HEAD_dll.
  - set_solver.
Defined.
