(* ===== verification/Ranges.v ===== *)
(** * Address ranges: [src/ranges.c]

    A [struct list_head] of [range_t] nodes is the list of its nodes in [next] order.  The
    operations are the functions of the file; a returned node is its position in the list, and
    [None] where the C variable was never assigned. *)
From S2P Require Import Prelude KList.

Record range_t := Range { from : Z; to : Z }.

#[export] Instance range_t_inhabited : Inhabited range_t := populate (Range 0 0).
#[export] Instance range_t_eq_dec : EqDecision range_t.
Proof. solve_decision. Defined.

(** The file's statics: the default list and the [ranges_changed] mark. *)
Record ranges_st := RangesSt { ranges : list range_t; ranges_changed : bool }.

Definition ranges_init : ranges_st := RangesSt [] false.

(** [ranges_free]: the nodes are freed and the list is empty; [ranges_changed] stays. *)
Definition ranges_free (st : ranges_st) : ranges_st := RangesSt [] (ranges_changed st).

Definition ranges_abs (f t : Z) : Z * Z := if t <? f then (t, f) else (f, t).

Fixpoint ranges_get (rang : list range_t) (addr : Z) : option range_t :=
  match rang with
  | [] => None
  | r :: l => if (from r <=? addr) && (addr <? to r) then Some r else ranges_get l addr
  end.

Fixpoint ranges_size_loop (sum : Z) (rang : list range_t) : Z :=
  match rang with
  | [] => sum
  | r :: l => ranges_size_loop (u64 (sum + (to r - from r))) l
  end.
Definition ranges_size (rang : list range_t) : Z := ranges_size_loop 0 rang.

(** *** [ranges_add] *)

(** One turn of the loop on the node [r]: the node's new contents, whether [add] is cleared and
    whether [ret] is assigned. *)
Definition ranges_add_turn (f t : Z) (r : range_t) : range_t * bool * bool :=
  if (from r =? f) && (to r =? t) then (r, true, false)
  else if (from r <=? f) && (from r <=? t) && (f <=? to r) && (to r <=? t) then
    (Range (from r) t, true, true)
  else if (f <=? from r) && (from r <=? t) && (f <=? to r) && (t <=? to r) then
    (Range f (to r), true, true)
  else if (from r <=? f) && (from r <=? t) && (f <=? to r) && (t <=? to r) then
    (r, true, false)
  else if (f <=? from r) && (from r <=? t) && (f <=? to r) && (to r <=? t) then
    (Range f t, true, true)
  else (r, false, false).

(** The loop from the node at position [i] on. *)
Fixpoint ranges_add_loop (f t : Z) (i : nat) (ret : option nat) (add : bool) (l : list range_t)
    : list range_t * option nat * bool :=
  match l with
  | [] => ([], ret, add)
  | r :: l' =>
    let '(r', hit, set) := ranges_add_turn f t r in
    let '(l'', ret', add') :=
      ranges_add_loop f t (S i) (if set then Some i else ret) (add && negb hit) l' in
    (r' :: l'', ret', add')
  end.

(** The new list, the returned node and the new [ranges_changed]. *)
Definition ranges_add (rang : list range_t) (f0 t0 : Z) (rw : bool) (changed : bool)
    : list range_t * option nat * bool :=
  let '(f, t) := ranges_abs f0 t0 in
  let '(l, ret, add) := ranges_add_loop f t 0 None true rang in
  if rw && add then (l ++ [Range f t], Some (length l), true) else (l, ret, changed).

(** *** [ranges_sub] *)

Definition sub_update (f t : Z) (r : range_t) : range_t :=
  if (from r <? f) && (from r <? t) && (f <? to r) && (to r <? t) then Range (from r) f
  else if (f <? from r) && (from r <? t) && (f <? to r) && (t <? to r) then Range t (to r)
  else r.

Definition sub_delete (f t : Z) (r : range_t) : bool :=
  (f <? from r) && (from r <? t) && (f <? to r) && (to r <? t).

Definition sub_split (f t : Z) (r : range_t) : bool :=
  (from r <? f) && (from r <? t) && (f <? to r) && (t <? to r).

(** One walk over the list; [seen] holds the nodes already visited.  The result says whether
    the walk ended with [goto __reloop]. *)
Fixpoint ranges_sub_walk (f t : Z) (seen l : list range_t) (changed : bool)
    : list range_t * bool * bool :=
  match l with
  | [] => (seen, changed, false)
  | r0 :: l' =>
    let r := sub_update f t r0 in
    if sub_delete f t r then (seen ++ l', true, true)
    else if sub_split f t r then
      let r := Range (from r) f in
      let '(l2, _, changed) := ranges_add (seen ++ r :: l') t (to r) true changed in
      (l2, changed, true)
    else ranges_sub_walk f t (seen ++ [r]) l' changed
  end.

Fixpoint ranges_sub_loop (fuel : nat) (f t : Z) (l : list range_t) (changed : bool)
    : option (list range_t * bool) :=
  match fuel with
  | O => None
  | S fuel' =>
    let '(l', changed', reloop) := ranges_sub_walk f t [] l changed in
    if reloop then ranges_sub_loop fuel' f t l' changed' else Some (l', changed')
  end.

(** One more walk than nodes is enough: [ranges_sub_returns]. *)
Definition ranges_sub (rang : list range_t) (f0 t0 : Z) (changed : bool)
    : option (list range_t * bool) :=
  let '(f, t) := ranges_abs f0 t0 in ranges_sub_loop (S (length rang)) f t rang changed.

(** *** [ranges_merge], [ranges_is_used], [ranges_sort] *)

(** [ranges_merge(NULL)], the only call: the loop adds the node at position [i], as it is by
    then, to the list it walks; with [rw] off no node is linked. *)
Fixpoint ranges_merge_loop (n i : nat) (l : list range_t) (changed : bool)
    : list range_t * bool :=
  match n with
  | O => (l, changed)
  | S n' =>
    match l !! i with
    | None => (l, changed)
    | Some r =>
      let '(l', _, changed') := ranges_add l (from r) (to r) false changed in
      ranges_merge_loop n' (S i) l' changed'
    end
  end.
Definition ranges_merge (st : ranges_st) : ranges_st :=
  let '(l, ch) := ranges_merge_loop (length (ranges st)) 0 (ranges st) (ranges_changed st) in
  RangesSt l ch.

Fixpoint ranges_is_used (l : list range_t) (addr : Z) : bool :=
  match l with
  | [] => false
  | r :: l' => if (from r <=? addr) && (addr <=? to r) then true else ranges_is_used l' addr
  end.

(** The nodes are named by their position; [list_sort] is the double loop. *)
Definition range_key (l : list range_t) (i : nat) : Z := from (l !!! i).

Definition ranges_sort (st : ranges_st) : option (ranges_st * bool) :=
  if negb (ranges_changed st) then Some (st, false)
  else
    let l := ranges st in
    match list_sort (range_key l) (seq 0 (length l)) with
    | None => None
    | Some (order, ch) => Some (RangesSt ((fun i => l !!! i) <$> order) ch, ch)
    end.

(** *** Reports *)

Fixpoint percent_bounds (f t : Z) (l : list range_t) : Z * Z :=
  match l with
  | [] => (f, t)
  | r :: l' =>
    if f =? u64 (-1) then percent_bounds (from r) (to r) l'
    else percent_bounds (if from r <? f then from r else f) (if t <? to r then to r else t) l'
  end.

Fixpoint percent_bar (n : nat) (seek step : Z) (l : list range_t) : string :=
  match n with
  | O => ""
  | S n' =>
    String (if ranges_is_used l seek then "#" else ".") (percent_bar n' (u64 (seek + step)) step l)
  end.

Definition ranges_percent (st : ranges_st) : string :=
  let '(f, t) := percent_bounds (u64 (-1)) (u64 (-1)) (ranges st) in
  let w := 65 in
  let '(f, t, step) :=
    if f =? u64 (-1) then (0, 0, 0)
    else let dif := u64 (t - f) in (f, t, if dif <? w then 1 else dif / w) in
  ("0x" ++ fmt_x0 8 f ++ " [" ++ percent_bar 65 0 step (ranges st) ++ "] 0x" ++ fmt_x0 8 t ++ nl)%string.

Definition range_line (rad : bool) (r : range_t) : string :=
  if rad then ("ar+ 0x" ++ fmt_x0 8 (from r) ++ " 0x" ++ fmt_x0 8 (to r) ++ nl)%string
  else ("0x" ++ fmt_x0 8 (from r) ++ " 0x" ++ fmt_x0 8 (to r) ++ " ; " ++
        fmt_d (s64 (to r - from r)) ++ nl)%string.

(** The console lines and the total printed at the end. *)
Definition ranges_list (st : ranges_st) (rad : bool) : option (ranges_st * list string * Z) :=
  match ranges_sort st with
  | None => None
  | Some (st', _) =>
    Some (st', range_line rad <$> ranges st', s64 (ranges_size (ranges st')))
  end.

Fixpoint get_n_loop (count n : Z) (l : list range_t) : option (Z * Z) :=
  match l with
  | [] => None
  | r :: l' => if count =? n then Some (from r, to r) else get_n_loop (count + 1) n l'
  end.
Definition ranges_get_n (st : ranges_st) (n : Z) : option (ranges_st * option (Z * Z)) :=
  match ranges_sort st with
  | None => None
  | Some (st', _) => Some (st', get_n_loop 0 n (ranges st'))
  end.

(** The gaps printed by [ranges_boolean], in order, and the total of their sizes. *)
Fixpoint boolean_loop (f t total : Z) (l : list range_t) : list (Z * Z) * Z :=
  match l with
  | [] => if f <? t then ([(f, t)], u64 (total + (t - f))) else ([], total)
  | r :: l' =>
    if (f <? from r) && (from r <? t) then
      let '(gs, tot) := boolean_loop (to r) t (u64 (total + (from r - f))) l' in
      ((f, from r) :: gs, tot)
    else boolean_loop f t total l'
  end.
Definition ranges_boolean (st : ranges_st) (f t : Z)
    : option (ranges_st * list (Z * Z) * Z) :=
  match ranges_sort st with
  | None => None
  | Some (st', _) => let '(gs, tot) := boolean_loop f t 0 (ranges st') in Some (st', gs, tot)
  end.

(** *** [ranges_new]: a list from its textual form

    The buffer is a list of characters, overwritten with NUL bytes as in the source; [p] and
    [p2] are positions in it. *)
Definition c_string_at (str : list ascii) (p : nat) : string :=
  String.string_of_list_ascii
    ((fix go l := match l with
      | [] => [] | c :: l' => if Ascii.eqb c zero then [] else c :: go l' end) (drop p str)).

Section parse.
Context (get_offset : string -> Z).

Record new_st := NewSt { n_str : list ascii; n_p : nat; n_p2 : option nat;
                         n_rgs : list range_t; n_calls : list (option nat); n_changed : bool }.

(** What the [','] arm and the end of the string do with the token at [p]; [n_calls] holds the
    arguments given to [ranges_new_callback]. *)
Definition ranges_new_flush (s : new_st) : new_st :=
  let '(a, b) :=
    match n_p2 s with
    | Some p2 => (get_offset (c_string_at (n_str s) (n_p s)), get_offset (c_string_at (n_str s) p2))
    | None =>
      let addr := get_offset (c_string_at (n_str s) (n_p s)) in (addr, u64 (addr + 1))
    end in
  let '(rgs, r, changed) := ranges_add (n_rgs s) a b true (n_changed s) in
  NewSt (n_str s) (n_p s) None rgs (n_calls s ++ [r]) changed.

Definition ranges_new_turn (i : nat) (s : new_st) : new_st :=
  match n_str s !! i with
  | Some "-"%char =>
    NewSt (<[i := zero]> (n_str s)) (S i) (Some (n_p s)) (n_rgs s) (n_calls s) (n_changed s)
  | Some ","%char =>
    let s := ranges_new_flush (NewSt (<[i := zero]> (n_str s)) (n_p s) (n_p2 s) (n_rgs s) (n_calls s) (n_changed s)) in
    NewSt (<[i := ","%char]> (n_str s)) (S i) None (n_rgs s) (n_calls s) (n_changed s)
  | _ => s
  end.

(** The new list, the calls and the mark [ranges_changed]. *)
Definition ranges_new (changed : bool) (s : string) : list range_t * list (option nat) * bool :=
  let str := String.list_ascii_of_string s ++ [zero] in
  let st := foldl (fun st i => ranges_new_turn i st) (NewSt str 0 None [] [] changed) (seq 0 (length str)) in
  let st := ranges_new_flush st in
  (n_rgs st, n_calls st, n_changed st).
End parse.

(** *** [ranges_cmd]: the [ar] command *)
Definition RANGE_TRACES : Z := 1.
Definition RANGE_FUNCTIONS : Z := 4.
Definition RANGE_GRAPHS : Z := 2.

(** [config_get] of the three options is non-NULL. *)
Definition ranges_get_flags (traces graphs functions : bool) : Z :=
  let flags := 0 in
  let flags := Z.lor flags (if traces then RANGE_TRACES else 0) in
  let flags := Z.lor flags (if graphs then RANGE_GRAPHS else 0) in
  Z.lor flags (if functions then RANGE_FUNCTIONS else 0).

(** What the command leaves besides the new state. *)
Inductive ranges_out :=
| OutNone
| OutUsage
| OutCommands (cmds : list string)
| OutText (s : string)
| OutList (ls : list string) (total : Z)
| OutGaps (gs : list (Z * Z)) (total : Z).

(** Everything before and after the first space. *)
Fixpoint split_space (s : string) : option (string * string) :=
  match s with
  | EmptyString => None
  | String c s' =>
    if Ascii.eqb c " " then Some (EmptyString, s')
    else match split_space s' with
         | Some (a, b) => Some (String c a, b)
         | None => None
         end
  end.

Definition skip_space (a : string) : string :=
  match a with String " " a' => a' | _ => a end.

Definition ranges_cmd_import (flags : Z) : list string :=
  (if truth (Z.land flags RANGE_TRACES) then [".atr*"%string] else []) ++
  (if truth (Z.land flags RANGE_GRAPHS) then [".gr*"%string] else []) ++
  (if truth (Z.land flags RANGE_FUNCTIONS) then [".CF*"%string] else []).

(** [arg] is the text behind [ar]; an empty one makes the source copy from behind its end,
    which has no result here.  The commands of [ari] are handed to the interpreter. *)
Definition ranges_cmd (get_math : string -> Z) (flags cfg_from cfg_to : Z) (arg : string)
    (st : ranges_st) : option (ranges_st * ranges_out) :=
  match arg with
  | EmptyString => None
  | String c a =>
    if Ascii.eqb c "?" then Some (st, OutUsage)
    else if Ascii.eqb c "i" then Some (st, OutCommands (ranges_cmd_import flags))
    else if Ascii.eqb c "m" then Some (ranges_merge st, OutNone)
    else if Ascii.eqb c "+" then
      match split_space (skip_space a) with
      | Some (x, y) =>
        let '(l, _, ch) := ranges_add (ranges st) (get_math x) (get_math y) true (ranges_changed st) in
        Some (RangesSt l ch, OutNone)
      | None => Some (st, OutUsage)
      end
    else if Ascii.eqb c "%" then Some (st, OutText (ranges_percent st))
    else if Ascii.eqb c "-" then
      match a with
      | String "*" _ => Some (ranges_free st, OutNone)
      | _ =>
        match split_space (skip_space a) with
        | Some (x, y) =>
          match ranges_sub (ranges st) (get_math x) (get_math y) (ranges_changed st) with
          | Some (l, ch) => Some (RangesSt l ch, OutNone)
          | None => None
          end
        | None => Some (st, OutUsage)
        end
      end
    else if Ascii.eqb c "b" then
      let '(f, t) :=
        match split_space a with
        | Some (x, y) => (get_math x, get_math y)
        | None => (cfg_from, cfg_to)
        end in
      match ranges_boolean st f t with
      | Some (st', gs, tot) => Some (st', OutGaps gs tot)
      | None => None
      end
    else
      match ranges_list st (Ascii.eqb c "*") with
      | Some (st', ls, tot) => Some (st', OutList ls tot)
      | None => None
      end
  end.

(** ** The set of addresses a list covers *)
Definition in_range (r : range_t) (x : Z) : Prop := from r <= x < to r.
Definition covers (l : list range_t) (x : Z) : Prop := Exists (fun r => in_range r x) l.

(** [from] does not exceed [to]; [ranges_add] only makes such nodes. *)
Definition range_wf (r : range_t) : Prop := from r <= to r.
Definition ranges_wf (l : list range_t) : Prop := Forall range_wf l.

Lemma covers_cons r l x : covers (r :: l) x <-> in_range r x \/ covers l x.
Proof. apply Exists_cons. Qed.

Lemma covers_app l1 l2 x : covers (l1 ++ l2) x <-> covers l1 x \/ covers l2 x.
Proof. apply Exists_app. Qed.

Lemma covers_nil x : covers [] x <-> False.
Proof. apply Exists_nil. Qed.

#[export] Instance covers_perm : Proper ((≡ₚ) ==> (=) ==> iff) covers.
Proof. intros l1 l2 Hl x ? <-. unfold covers. by rewrite Hl. Qed.

Lemma ranges_abs_spec a b : ranges_abs a b = (a `min` b, a `max` b).
Proof. unfold ranges_abs. zcase; f_equal; lia. Qed.

(** Whether [r] touches [[f,t]]: then [ranges_add] extends it instead of linking a new node. *)
Definition touches (f t : Z) (r : range_t) : bool := (from r <=? t) && (f <=? to r).

Lemma ranges_add_turn_spec f t r :
  f <= t -> range_wf r ->
  let r' := (ranges_add_turn f t r).1.1 in
  (ranges_add_turn f t r).1.2 = touches f t r /\
  r' = (if touches f t r then Range (from r `min` f) (to r `max` t) else r).
Proof.
  unfold range_wf, ranges_add_turn, touches. intros. destruct r as [a b]. simpl in *.
  zcase; simpl; split; try done; f_equal; lia.
Qed.

Definition ranges_add_map (f t : Z) (r : range_t) : range_t :=
  if touches f t r then Range (from r `min` f) (to r `max` t) else r.

Lemma ranges_add_loop_spec f t i ret add l :
  f <= t -> ranges_wf l ->
  exists ret', ranges_add_loop f t i ret add l =
    (ranges_add_map f t <$> l, ret', add && negb (existsb (touches f t) l)).
Proof.
  intros Hft. revert i ret add. induction l as [|r l IH]; intros i ret add Hwf; simpl.
  { exists ret. by rewrite andb_true_r. }
  apply Forall_cons in Hwf as [Hr Hl].
  destruct (ranges_add_turn_spec f t r) as [Hh Hr']; [done..|].
  destruct (ranges_add_turn f t r) as [[r' hit] set] eqn:E. simpl in *. subst.
  destruct (IH (S i) (if set then Some i else ret) (add && negb (touches f t r)) Hl) as [ret' ->].
  exists ret'. f_equal. rewrite negb_orb. by rewrite andb_assoc.
Qed.

(** The functional form of [ranges_add]. *)
Lemma ranges_add_spec l f t rw ch :
  f <= t -> ranges_wf l ->
  exists ret ch', ranges_add l f t rw ch =
    ((ranges_add_map f t <$> l) ++
     (if rw && negb (existsb (touches f t) l) then [Range f t] else []), ret, ch').
Proof.
  intros Hft Hwf. unfold ranges_add. rewrite ranges_abs_spec, Z.min_l, Z.max_r by done.
  destruct (ranges_add_loop_spec f t 0 None true l) as [ret ->]; [done..|]. simpl.
  destruct (rw && negb (existsb (touches f t) l)); eauto. exists ret, ch. by rewrite app_nil_r.
Qed.

Lemma ranges_add_min_max l f t rw ch :
  ranges_add l f t rw ch = ranges_add l (f `min` t) (f `max` t) rw ch.
Proof.
  unfold ranges_add. rewrite !ranges_abs_spec.
  by replace (_ `min` (_ `max` _)) with (f `min` t) by lia;
    replace (_ `max` (_ `max` _)) with (f `max` t) by lia.
Qed.

Lemma ranges_add_map_covers f t l x :
  f <= t -> ranges_wf l ->
  covers (ranges_add_map f t <$> l) x <->
    covers l x \/ (existsb (touches f t) l = true /\ f <= x < t).
Proof.
  intros Hft. induction l as [|r l IH]; intros Hwf; simpl.
  { rewrite !covers_nil. naive_solver. }
  apply Forall_cons in Hwf as [Hr Hl]. rewrite !covers_cons, IH by done.
  unfold ranges_add_map, in_range, range_wf in *. rewrite orb_true_iff.
  destruct (touches f t r) eqn:E; simpl; [|naive_solver].
  unfold touches in E. rewrite andb_true_iff, !Z.leb_le in E. split.
  - intros [?|?]; [|naive_solver]. destruct (decide (f <= x < t)); [naive_solver lia|].
    left. left. lia.
  - intros [[?|?]|[_ ?]]; [left; lia|by right; left|left; lia].
Qed.

Lemma ranges_add_wf l f t rw ch : ranges_wf l -> ranges_wf (ranges_add l f t rw ch).1.1.
Proof.
  intros Hwf. rewrite ranges_add_min_max.
  destruct (ranges_add_spec l (f `min` t) (f `max` t) rw ch) as (ret & ch' & ->); [lia|done|].
  simpl. apply Forall_app. split.
  - apply Forall_fmap, (Forall_impl _ _ _ Hwf). unfold ranges_add_map, range_wf. simpl.
    intros r ?. destruct (touches _ _ r); simpl; lia.
  - destruct (rw && _); [|constructor]. constructor; [|constructor]. unfold range_wf. simpl. lia.
Qed.

(** With [rw] set the new list covers the old addresses and the new ones; without it the list
    keeps its nodes and grows only where a node touches the range. *)
Lemma ranges_add_covers_gen l f t rw ch x :
  ranges_wf l ->
  covers (ranges_add l f t rw ch).1.1 x <->
    covers l x \/ ((rw || existsb (touches (f `min` t) (f `max` t)) l) = true /\
                   f `min` t <= x < f `max` t).
Proof.
  intros Hwf. rewrite ranges_add_min_max.
  destruct (ranges_add_spec l (f `min` t) (f `max` t) rw ch) as (ret & ch' & ->); [lia|done|].
  simpl. rewrite covers_app, ranges_add_map_covers by (lia || done).
  destruct rw, (existsb _ l); simpl; rewrite ?covers_cons, ?covers_nil; unfold in_range; simpl;
    naive_solver.
Qed.

(** ** [ranges_sub] *)

(** The nodes that send the walk back to its start. *)
Definition active (f t : Z) (r : range_t) : bool := sub_delete f t r || sub_split f t r.

Fixpoint actives (f t : Z) (l : list range_t) : nat :=
  match l with [] => 0 | r :: l' => (if active f t r then 1 else 0) + actives f t l' end.

Lemma actives_app f t l1 l2 : actives f t (l1 ++ l2) = (actives f t l1 + actives f t l2)%nat.
Proof. induction l1 as [|r l1 IH]; simpl; [done|]. rewrite IH. lia. Qed.

Lemma actives_length f t l : (actives f t l <= length l)%nat.
Proof. induction l as [|r l IH]; simpl; [lia|]. destruct (active f t r); lia. Qed.


Lemma touches_spec f t r : touches f t r = true <-> from r <= t /\ f <= to r.
Proof. unfold touches. by rewrite andb_true_iff, !Z.leb_le. Qed.

Lemma sub_delete_spec f t r : sub_delete f t r = true <-> (f < from r < t /\ f < to r < t).
Proof. unfold sub_delete. rewrite !andb_true_iff, !Z.ltb_lt. tauto. Qed.

Lemma sub_split_spec f t r : sub_split f t r = true <-> (from r < f < to r /\ from r < t < to r).
Proof. unfold sub_split. rewrite !andb_true_iff, !Z.ltb_lt. tauto. Qed.

Lemma active_spec f t r :
  active f t r = true <->
    (f < from r < t /\ f < to r < t) \/ (from r < f < to r /\ from r < t < to r).
Proof. unfold active. by rewrite orb_true_iff, sub_delete_spec, sub_split_spec. Qed.

(** The node is cut on the right, cut on the left or kept. *)
Lemma sub_update_cases f t r :
  (from r < f < to r /\ from r < t /\ to r < t /\ sub_update f t r = Range (from r) f) \/
  (f < from r < t /\ f < to r /\ t < to r /\ sub_update f t r = Range t (to r)) \/
  (~ (from r < f < to r /\ from r < t /\ to r < t) /\ ~ (f < from r < t /\ f < to r /\ t < to r) /\
   sub_update f t r = r).
Proof.
  unfold sub_update. destruct (_ && _ && _ && _) eqn:E1.
  { rewrite !andb_true_iff, !Z.ltb_lt in E1. left. tauto. }
  rewrite <-not_true_iff_false, !andb_true_iff, !Z.ltb_lt in E1.
  destruct (_ && _ && _ && _) eqn:E2.
  { rewrite !andb_true_iff, !Z.ltb_lt in E2. right; left. tauto. }
  rewrite <-not_true_iff_false, !andb_true_iff, !Z.ltb_lt in E2. right; right. tauto.
Qed.

Lemma sub_update_wf f t r : range_wf r -> range_wf (sub_update f t r).
Proof.
  unfold range_wf. destruct (sub_update_cases f t r) as [(?&?&?&->)|[(?&?&?&->)|(?&?&->)]]; simpl; lia.
Qed.

Lemma sub_update_active f t r : active f t (sub_update f t r) = active f t r.
Proof.
  apply eq_true_iff_eq. rewrite !active_spec.
  destruct (sub_update_cases f t r) as [(?&?&?&->)|[(?&?&?&->)|(?&?&->)]]; simpl; lia.
Qed.

Lemma sub_update_in f t r x : f <= t -> in_range (sub_update f t r) x -> in_range r x.
Proof.
  unfold in_range. destruct (sub_update_cases f t r) as [(?&?&?&->)|[(?&?&?&->)|(?&?&->)]]; simpl; lia.
Qed.

Lemma add_map_active f t r :
  f <= t -> range_wf r -> active f t r = false -> active f t (ranges_add_map f t r) = false.
Proof.
  unfold ranges_add_map, range_wf. intros Hft Hr Ha. destruct (touches f t r); [|done].
  revert Ha. rewrite <-!not_true_iff_false, !active_spec. simpl. lia.
Qed.

Lemma add_map_actives f t l :
  f <= t -> ranges_wf l -> (actives f t (ranges_add_map f t <$> l) <= actives f t l)%nat.
Proof.
  intros Hft. induction 1 as [|r l Hr Hl IH]; csimpl; [done|].
  destruct (active f t r) eqn:E; [destruct (active _ _ (ranges_add_map _ _ _)); lia|].
  rewrite add_map_active by done. lia.
Qed.

(** The split: the node is cut at [f] and [[f,t]] is added again, which grows it back to [t].
    Nothing is linked, the address set does not grow and the node is no longer active. *)
Lemma split_readd f t seen r l ch :
  f <= t -> ranges_wf (seen ++ l) -> range_wf r -> sub_split f t r = true ->
  exists l' ret ch', ranges_add (seen ++ Range (from r) f :: l) t f true ch = (l', ret, ch') /\
    ranges_wf l' /\ length l' = S (length (seen ++ l)) /\
    (actives f t l' <= actives f t (seen ++ l))%nat /\
    forall x, covers l' x -> covers (seen ++ r :: l) x.
Proof.
  intros Hft Hwf Hr Hs. rewrite ranges_add_min_max, Z.min_r, Z.max_l by done.
  set (r' := Range (from r) f).
  apply sub_split_spec in Hs.
  assert (Hr' : range_wf r') by (unfold r', range_wf; simpl; lia).
  assert (Hwf' : ranges_wf (seen ++ r' :: l)).
  { apply Forall_app in Hwf as [? ?]. apply Forall_app; split; [done|by constructor]. }
  assert (Ht : touches f t r' = true) by (apply touches_spec; unfold r'; simpl; lia).
  assert (He : existsb (touches f t) (seen ++ r' :: l) = true).
  { rewrite existsb_app. simpl. rewrite Ht. apply orb_true_r. }
  assert (Ha : active f t (ranges_add_map f t r') = false).
  { unfold ranges_add_map. rewrite Ht, <-not_true_iff_false, active_spec. unfold r'. simpl. lia. }
  destruct (ranges_add_spec (seen ++ r' :: l) f t true ch) as (ret & ch' & E); [done..|].
  rewrite He in E. simpl in E. rewrite app_nil_r in E. eexists; exists ret, ch'. split; [exact E|].
  pose proof (ranges_add_wf _ f t true ch Hwf') as Hw. rewrite E in Hw.
  split_and!; [done| | |].
  - rewrite length_fmap, !length_app. simpl. lia.
  - apply Forall_app in Hwf as [? ?]. rewrite fmap_app, fmap_cons, !actives_app. simpl.
    rewrite Ha. pose proof (add_map_actives f t seen). pose proof (add_map_actives f t l).
    unfold ranges_wf in *. intuition lia.
  - intros x. rewrite ranges_add_map_covers, !covers_app, !covers_cons by done.
    unfold in_range, r'. simpl. intros [[?|[?|?]]|[_ ?]];
      [by left|right; left; lia|by right; right|right; left; lia].
Qed.

(** One walk: the list stays well formed, covers nothing new, and when it ends in a
    [goto __reloop] one active node less is left. *)
Lemma ranges_sub_walk_spec f t seen l ch :
  f <= t -> ranges_wf (seen ++ l) -> actives f t seen = 0%nat ->
  exists l' ch' re, ranges_sub_walk f t seen l ch = (l', ch', re) /\ ranges_wf l' /\
    (forall x, covers l' x -> covers (seen ++ l) x) /\
    (length l' <= length (seen ++ l))%nat /\
    (re = true -> (actives f t l' < actives f t (seen ++ l))%nat).
Proof.
  intros Hft. revert seen ch. induction l as [|r0 l IH]; intros seen ch Hwf Hs; simpl.
  { rewrite app_nil_r in *. by exists seen, ch, false. }
  pose proof Hwf as [Hws [Hr0 Hwl]%Forall_cons]%Forall_app.
  pose proof (sub_update_wf f t r0 Hr0) as Hr. pose proof (sub_update_active f t r0) as Ha.
  pose proof (sub_update_in f t r0) as Hin. set (r := sub_update f t r0) in *.
  destruct (sub_delete f t r) eqn:Ed.
  - exists (seen ++ l), true, true. split_and!; [done|by apply Forall_app| | |].
    + intros x. rewrite !covers_app, covers_cons. tauto.
    + rewrite !length_app. simpl. lia.
    + intros _. rewrite !actives_app. simpl. rewrite <-Ha. unfold active. rewrite Ed. simpl. lia.
  - destruct (sub_split f t r) eqn:Es.
    + destruct (split_readd f t seen r l ch) as (l' & ret & ch' & E & Hw & Hlen & Hac & Hc);
        [done|by apply Forall_app|done..|].
      cbn [from to] in *. rewrite E. exists l', ch', true. split_and!; [done|done| | |].
      * intros x Hx. specialize (Hc x Hx). rewrite !covers_app, !covers_cons in *. naive_solver.
      * rewrite Hlen, !length_app. simpl. lia.
      * intros _. rewrite !actives_app in *. simpl. rewrite <-Ha. unfold active. rewrite Es, orb_true_r.
        lia.
    + destruct (IH (seen ++ [r]) ch) as (l' & ch' & re & E & Hw & Hc & Hlen & Hre).
      * rewrite <-app_assoc. apply Forall_app; split; [done|by constructor].
      * rewrite actives_app, Hs. simpl. unfold active. by rewrite Ed, Es.
      * rewrite E. exists l', ch', re. rewrite <-app_assoc in *. split_and!; [done|done| | |].
        -- intros x Hx. specialize (Hc x Hx). simpl in Hc.
           rewrite !covers_app, !covers_cons in *. naive_solver.
        -- rewrite !length_app in *. simpl in *. lia.
        -- intros Hre'. specialize (Hre Hre'). rewrite !actives_app in *. simpl in *.
           rewrite <-Ha. lia.
Qed.

Lemma ranges_sub_loop_spec fuel f t l ch :
  f <= t -> ranges_wf l -> (actives f t l < fuel)%nat ->
  exists l' ch', ranges_sub_loop fuel f t l ch = Some (l', ch') /\ ranges_wf l' /\
    (forall x, covers l' x -> covers l x) /\ (length l' <= length l)%nat.
Proof.
  intros Hft. revert l ch. induction fuel as [|fuel IH]; intros l ch Hwf Hf; [lia|]. simpl.
  destruct (ranges_sub_walk_spec f t [] l ch) as (l1 & ch1 & re & -> & Hw & Hc & Hlen & Hre);
    [done..|]. simpl in *.
  destruct re; [|by exists l1, ch1].
  destruct (IH l1 ch1) as (l' & ch' & -> & ? & ? & ?); [done|specialize (Hre eq_refl); lia|].
  exists l', ch'. split_and!; auto. lia.
Qed.

Lemma ranges_sub_min_max l f t ch : ranges_sub l f t ch = ranges_sub l (f `min` t) (f `max` t) ch.
Proof.
  unfold ranges_sub. rewrite !ranges_abs_spec.
  by replace (_ `min` (_ `max` _)) with (f `min` t) by lia;
    replace (_ `max` (_ `max` _)) with (f `max` t) by lia.
Qed.

(** *** What is left

    Nodes inside [[f,t]] are taken out and nodes that overlap one end are cut, except those that share an end point with
    [[f,t]].  A node that reaches past both ends loses what is behind [t] and keeps [[f,t]], over which every node it
    touches is extended. *)
Section left_over.
Context (f t : Z) (Hft : f <= t).

Definition straddles (r : range_t) : Prop := from r < f /\ t < to r.

(** The node [r] of [l] leaves the address [x] covered. *)
Definition leaves (l : list range_t) (x : Z) (r : range_t) : Prop :=
  in_range r x /\ (f <= x < t -> Exists straddles l \/ from r = f \/ to r = t) /\ (t <= x -> ~ straddles r).

(** What the walks do to the list, one node at a time. *)
Inductive sub_step : list range_t -> list range_t -> Prop :=
| step_update a r b : sub_step (a ++ r :: b) (a ++ sub_update f t r :: b)
| step_delete a r b : sub_delete f t r = true -> sub_step (a ++ r :: b) (a ++ b)
| step_split a r b : straddles r ->
    sub_step (a ++ r :: b) ((ranges_add_map f t <$> a) ++ Range (from r) t :: (ranges_add_map f t <$> b)).

(** A node that a walk passes by. *)
Definition settled (r : range_t) : Prop := sub_update f t r = r /\ sub_delete f t r = false /\ sub_split f t r = false.

Lemma update_settled r :
  sub_delete f t (sub_update f t r) = false -> sub_split f t (sub_update f t r) = false -> settled (sub_update f t r).
Proof.
  intros Hd Hs. split; [|done]. clear Hd Hs.
  destruct (sub_update_cases f t r) as [(?&?&?&->)|[(?&?&?&->)|(?&?&E)]]; [| |by rewrite E];
    unfold sub_update; cbn [from to]; by zcase; lia || done.
Qed.

Lemma ranges_sub_walk_steps seen l ch l' ch' re :
  ranges_wf (seen ++ l) -> Forall settled seen -> ranges_sub_walk f t seen l ch = (l', ch', re) ->
  rtc sub_step (seen ++ l) l' /\ (re = false -> Forall settled l').
Proof.
  revert seen ch. induction l as [|r0 l IH]; intros seen ch Hwf Hs; cbn [ranges_sub_walk].
  { intros [= <- <- <-]. by rewrite app_nil_r. }
  pose proof Hwf as [Hws [Hr0 Hwl]%Forall_cons]%Forall_app. pose proof (sub_update_wf f t r0 Hr0) as Hr.
  assert (rtc sub_step (seen ++ r0 :: l) (seen ++ sub_update f t r0 :: l)) as Hu by apply rtc_once, step_update.
  destruct (sub_delete f t (sub_update f t r0)) eqn:Ed.
  - intros [= <- <- <-]. split; [|done]. eapply rtc_r; [exact Hu|by apply step_delete].
  - destruct (sub_split f t (sub_update f t r0)) eqn:Es.
    + cbn [from to]. set (r := sub_update f t r0) in *. apply sub_split_spec in Es.
      rewrite ranges_add_min_max, Z.min_r, Z.max_l by done.
      destruct (ranges_add_spec (seen ++ Range (from r) f :: l) f t true ch) as (ret & c & ->);
        [done|apply Forall_app; split; [done|constructor; [unfold range_wf; cbn; lia|done]]|].
      assert (touches f t (Range (from r) f) = true) as Ht by (apply touches_spec; cbn; lia).
      rewrite existsb_app. cbn [existsb]. rewrite Ht, orb_true_r. cbn [andb negb]. rewrite app_nil_r, fmap_app, fmap_cons.
      intros [= <- <- <-]. split; [|done]. eapply rtc_r; [exact Hu|].
      unfold ranges_add_map at 2. rewrite Ht. cbn [from to]. rewrite Z.min_l, Z.max_r by lia. apply step_split. unfold straddles. lia.
    + intros E. apply IH in E as [H1 H2].
      * rewrite <-app_assoc in H1. split; [by etrans|done].
      * rewrite <-app_assoc. apply Forall_app. by split; [|constructor].
      * apply Forall_app. split; [done|]. constructor; [by apply update_settled|constructor].
Qed.

Lemma ranges_sub_loop_steps fuel l ch l' ch' :
  ranges_wf l -> ranges_sub_loop fuel f t l ch = Some (l', ch') -> rtc sub_step l l' /\ Forall settled l'.
Proof.
  revert l ch. induction fuel as [|fuel IH]; intros l ch Hwf; cbn [ranges_sub_loop]; [done|].
  destruct (ranges_sub_walk f t [] l ch) as [[l1 ch1] re] eqn:E.
  destruct (ranges_sub_walk_steps [] l ch l1 ch1 re) as [H1 H2]; [done..|].
  assert (ranges_wf l1) as Hw by (destruct (ranges_sub_walk_spec f t [] l ch) as (? & ? & ? & E' & ? & _); [done..|]; congruence).
  destruct re; intros H; [|injection H as <- <-; by split; [|apply H2]].
  apply IH in H as [H3 H4]; [|done]. split; [by etrans|done].
Qed.

(** A predicate of nodes that the steps keep, of one node and of all of them. *)
Lemma sub_steps_exists (P : range_t -> Prop) l l' :
  (forall r, P r -> P (sub_update f t r)) -> (forall r, sub_delete f t r = true -> ~ P r) ->
  (forall r, straddles r -> P r -> P (Range (from r) t)) -> (forall r, P r -> P (ranges_add_map f t r)) ->
  rtc sub_step l l' -> Exists P l -> Exists P l'.
Proof.
  intros Hu Hd Hs Hm. induction 1 as [|l l1 l' Hst _ IH]; [done|]. intros H. apply IH. clear IH. revert H.
  destruct Hst as [a r b|a r b Hr|a r b Hr]; rewrite !Exists_app, ?Exists_cons.
  - intros [H|[H|H]]; auto.
  - intros [H|[H|H]]; [by left|by destruct (Hd r Hr)|by right].
  - rewrite !Exists_fmap. intros [H|[H|H]]; [left|right; left; auto|right; right]; by eapply Exists_impl.
Qed.

Lemma sub_steps_forall (P : range_t -> Prop) l l' :
  (forall r, P r -> P (sub_update f t r)) ->
  (forall s, straddles s -> P s -> P (Range (from s) t) /\ forall r, P r -> P (ranges_add_map f t r)) ->
  rtc sub_step l l' -> Forall P l -> Forall P l'.
Proof.
  intros Hu Hs. induction 1 as [|l l1 l' Hst _ IH]; [done|]. intros H. apply IH. clear IH. revert H.
  destruct Hst as [a r b|a r b Hr|a r b Hr]; rewrite !Forall_app, ?Forall_cons.
  - intros (H1 & H2 & H3); auto.
  - intros (H1 & H2 & H3); auto.
  - rewrite !Forall_fmap. intros (H1 & H2 & H3). destruct (Hs r Hr H2) as [H4 Hm].
    split_and!; [by eapply Forall_impl|done|by eapply Forall_impl].
Qed.

Lemma sub_steps_iff (P : range_t -> Prop) `{forall r, Decision (P r)} l l' :
  (forall r, P (sub_update f t r) <-> P r) -> (forall r, sub_delete f t r = true -> ~ P r) ->
  (forall s, straddles s -> P (Range (from s) t) <-> P s) -> (forall r, P (ranges_add_map f t r) <-> P r) ->
  rtc sub_step l l' -> Exists P l' <-> Exists P l.
Proof.
  intros Hu Hd Hs Hm Hst. split; [|apply sub_steps_exists; [intros r; apply Hu|done|intros r Hr; by apply Hs|intros r; apply Hm|done]].
  intros H1. destruct (decide (Exists P l)) as [|H2]; [done|]. exfalso.
  apply not_Exists_Forall in H2; [|done]. apply Exists_exists in H1 as (r0 & Hr0 & Hp).
  assert (Forall (not ∘ P) l') as Hl; [|rewrite Forall_forall in Hl; by apply (Hl r0)].
  apply (sub_steps_forall _ l); [intros r|intros s Hs' Hn; split; [|intros r]|done|done]; cbn in *; rewrite ?Hu, ?Hs, ?Hm by done; done.
Qed.

Lemma settled_spec r :
  settled r <-> ~ straddles r /\ ~ (from r < f < to r /\ to r < t) /\ ~ (f < from r < t /\ t < to r) /\
                ~ (f < from r < t /\ f < to r < t).
Proof.
  unfold settled, straddles. rewrite <-!not_true_iff_false, sub_delete_spec, sub_split_spec.
  destruct (sub_update_cases f t r) as [(?&?&?&->)|[(?&?&?&->)|(?&?&->)]]; destruct r as [a b]; cbn in *;
    (split; [intros ([=] & ? & ?) || intros (_ & ? & ?); split_and!; lia|intros (? & ? & ? & ?); split; [|lia]; (done || lia)]).
Qed.

Ltac node_cases :=
  let r := fresh "r" in intros r;
  first [destruct (sub_update_cases f t r) as [(?&?&?&->)|[(?&?&?&->)|(?&?&->)]]|idtac];
  unfold ranges_add_map; try destruct (touches f t r) eqn:?; try rewrite touches_spec in *; try rewrite sub_delete_spec;
  unfold in_range, straddles in *; cbn [from to]; lia.

Lemma Exists_iff_ext {A} (P Q : A -> Prop) (l : list A) : (forall a, P a <-> Q a) -> Exists P l <-> Exists Q l.
Proof. intros H. split; intros Hl; (eapply Exists_impl; [exact Hl|]; intros a; apply H). Qed.

Lemma steps_leave l l' x :
  rtc sub_step l l' -> Forall settled l' -> covers l' x <-> Exists (leaves l x) l.
Proof.
  intros Hst Hs. assert (forall P, Exists P l' <-> Exists (fun r => P r /\ settled r) l') as Hl'.
  { intros P. rewrite !Exists_exists. rewrite Forall_forall in Hs. naive_solver. }
  unfold covers, leaves. destruct (decide (f <= x < t)) as [Hx|Hx].
  - destruct (decide (Exists straddles l)) as [Hf|Hf].
    + assert (Exists (fun r => from r < f /\ t <= to r) l') as Hfat.
      { apply (sub_steps_exists _ l); [node_cases..|done|]. eapply Exists_impl; [exact Hf|]. unfold straddles. lia. }
      apply Exists_exists in Hfat as (r & Hr & ?). apply Exists_exists in Hf as (s & Hs' & Hf).
      split; intros _; apply Exists_exists; [exists s|exists r]; unfold in_range, straddles in *; (split; [done|]); [|lia].
      split; [lia|split; [|lia]]. intros _. left. apply Exists_exists. by exists s.
    + assert (Exists (fun r => in_range r x /\ (from r = f \/ to r = t)) l' <-> Exists (fun r => in_range r x /\ (from r = f \/ to r = t)) l) as Hg.
      { split; [|apply sub_steps_exists; [node_cases..|done]]. intros H.
        destruct (decide (Exists (fun r => in_range r x /\ (from r = f \/ to r = t)) l)) as [|Hn]; [done|].
        apply not_Exists_Forall in Hn; [|intros r; apply _]. apply not_Exists_Forall in Hf; [|intros r; apply _].
        assert (Forall (fun r => ~ straddles r /\ ~ (in_range r x /\ (from r = f \/ to r = t))) l') as Hl.
        { apply (sub_steps_forall _ l); [node_cases|naive_solver|done|]. apply Forall_and. by split. }
        apply Exists_exists in H as (r & Hr & H). rewrite Forall_forall in Hl. by destruct (Hl r Hr). }
      rewrite Hl'. rewrite (Exists_iff_ext _ (fun r => (in_range r x /\ (from r = f \/ to r = t)) /\ settled r)), <-Hl', Hg.
      * apply Exists_iff_ext. intros r. naive_solver lia.
      * intros r. rewrite settled_spec. unfold in_range, straddles in *. split; intros [? ?]; split; try done; lia.
  - rewrite Hl'. rewrite (Exists_iff_ext _ (fun r => (in_range r x /\ (t <= x -> ~ straddles r)) /\ settled r)), <-Hl'.
    + rewrite (sub_steps_iff (fun r => in_range r x /\ (t <= x -> ~ straddles r)) l l'); [|node_cases..|done].
      apply Exists_iff_ext. intros r. naive_solver lia.
    + intros r. rewrite settled_spec. naive_solver.
Qed.

End left_over.

(** ** Sorting *)
Definition from_le (r1 r2 : range_t) : Prop := from r1 <= from r2.

Lemma ranges_sort_spec st :
  exists st' ch, ranges_sort st = Some (st', ch) /\ ranges st' ≡ₚ ranges st /\
    (if ranges_changed st then StronglySorted from_le (ranges st') else st' = st).
Proof.
  unfold ranges_sort. destruct (ranges_changed st) eqn:E; simpl; [|by exists st, false].
  unfold range_key. destruct (list_sort_records from (ranges st)) as (order & ch & -> & Hp & Hs). by eexists _, ch.
Qed.

Lemma get_n_loop_lookup k n l : get_n_loop k (k + Z.of_nat n) l = (fun r => (from r, to r)) <$> l !! n.
Proof.
  revert k n. induction l as [|r l IH]; intros k n; simpl; [by destruct n|].
  destruct n as [|n].
  - by replace (k =? k + Z.of_nat 0) with true by (symmetry; apply Z.eqb_eq; lia).
  - replace (k =? k + Z.of_nat (S n)) with false by (symmetry; apply Z.eqb_neq; lia). simpl.
    replace (k + Z.of_nat (S n)) with ((k + 1) + Z.of_nat n) by lia. apply IH.
Qed.

(** ** Gaps *)

(** Disjoint nodes in ascending order with at least one address between them, none at or
    before [f]. *)
Fixpoint spaced (f : Z) (l : list range_t) : Prop :=
  match l with
  | [] => True
  | r :: l' => f < from r /\ range_wf r /\ spaced (to r) l'
  end.

Lemma spaced_lower f l x : spaced f l -> covers l x -> f < x.
Proof.
  revert f. induction l as [|r l IH]; intros f; [by intros _ ?%covers_nil|].
  intros (H1 & H2 & H3) [Hx|Hx]%covers_cons; [unfold in_range in Hx; lia|].
  specialize (IH _ H3 Hx). unfold range_wf in *. lia.
Qed.

Lemma spaced_skip f t l x : spaced f l -> t <= f -> covers l x -> t < x.
Proof. intros ? ? ?. assert (f < x) by (by eapply spaced_lower). lia. Qed.

Lemma boolean_loop_gaps f t tot l x :
  spaced f l ->
  Exists (fun g => g.1 <= x < g.2) (boolean_loop f t tot l).1 <-> f <= x < t /\ ~ covers l x.
Proof.
  revert f tot. induction l as [|r l IH]; intros f tot Hs; cbn [boolean_loop].
  { rewrite covers_nil. zcase; simpl; rewrite ?Exists_cons, Exists_nil; simpl; [tauto|lia]. }
  destruct Hs as (Hf & Hr & Hs). unfold range_wf in *.
  rewrite covers_cons. pose proof (spaced_lower _ _ x Hs) as Hlow. unfold in_range.
  destruct (Z.ltb_spec f (from r)); [|lia]. simpl.
  destruct (Z.ltb_spec (from r) t).
  - specialize (IH (to r) (u64 (tot + (from r - f))) Hs).
    destruct (boolean_loop (to r) t _ l) as [gs tot']. simpl in *.
    rewrite Exists_cons, IH. simpl. split.
    + intros [Hx|[Hx Hn]]; split; try lia; intros [?|Hc]; try lia; [|done].
      specialize (Hlow Hc). lia.
    + intros [Hx Hn]. destruct (decide (x < from r)); [left; lia|right]. split; [|tauto].
      destruct (decide (x < to r)); [|lia]. exfalso. apply Hn. left. lia.
  - assert (Hl : spaced f l) by (destruct l; simpl in *; [done|]; destruct Hs; split; [lia|done]).
    rewrite (IH f tot Hl). split.
    + intros [Hx Hn]. split; [done|]. intros [?|?]; [lia|tauto].
    + intros [Hx Hn]. split; [done|tauto].
Qed.

(** ** Properties *)

(** C1: [ranges_add] with [rw] set keeps every node well formed and makes the list cover exactly
    the addresses it covered and those between the two bounds, in whichever order they are
    given; without [rw] the list grows by that set only if one of its nodes touches it. *)
Theorem ranges_add_covers (l : list range_t) (f t : Z) (rw ch : bool) :
  ranges_wf l ->
  let l' := (ranges_add l f t rw ch).1.1 in
  ranges_wf l' /\
  forall x, covers l' x <->
    covers l x \/ ((rw || existsb (touches (f `min` t) (f `max` t)) l) = true /\
                   f `min` t <= x < f `max` t).
Proof.
  intros Hwf. split; [by apply ranges_add_wf|]. intros x. by apply ranges_add_covers_gen.
Qed.

Lemma ranges_add_covers_witness :
  let l' := (ranges_add [Range 10 20] 30 15 true false).1.1 in
  ranges_wf l' /\ forall x, covers l' x <-> covers [Range 10 20] x \/ (true = true /\ 15 <= x < 30).
Proof. apply (ranges_add_covers [Range 10 20] 30 15 true false). repeat constructor. done. Defined.

(** C2: [ranges_sub] returns after at most one walk more than there are nodes, keeps the nodes well formed and links no node,
    and this is what is left of a list, bounds in either order: below the range every covered address; inside it the
    addresses of the nodes that begin at its lower or end at its upper bound, and all of it as soon as one node reaches past
    both bounds; from the upper bound on every address covered by a node that does not reach past both.  So the range itself
    is gone exactly where no node shares an end point that way and none reaches past both ends. *)
Theorem ranges_sub_removes (l : list range_t) (f t : Z) (ch : bool) :
  ranges_wf l ->
  exists l' ch', ranges_sub l f t ch = Some (l', ch') /\ ranges_wf l' /\ (length l' <= length l)%nat /\
    forall x, covers l' x <-> Exists (leaves (f `min` t) (f `max` t) l x) l.
Proof.
  intros Hwf. rewrite ranges_sub_min_max. unfold ranges_sub. rewrite ranges_abs_spec.
  rewrite Z.min_l, Z.max_r by lia. pose proof (actives_length (f `min` t) (f `max` t) l).
  destruct (ranges_sub_loop_spec (S (length l)) (f `min` t) (f `max` t) l ch)
    as (l' & ch' & E & Hw & _ & Hlen); [lia|done|lia|].
  exists l', ch'. split_and!; [done..|]. intros x.
  destruct (ranges_sub_loop_steps (f `min` t) (f `max` t) ltac:(lia) _ _ _ _ _ Hwf E) as [H1 H2].
  apply steps_leave; [lia|done..].
Qed.

(** One node inside, one over the lower end, one that ends at the upper bound. *)
Lemma ranges_sub_removes_witness :
  exists l' ch', ranges_sub [Range 10 20; Range 22 24; Range 28 30] 30 15 false = Some (l', ch') /\
    (covers l' 12 /\ covers l' 29 /\ ~ covers l' 17 /\ ~ covers l' 23).
Proof.
  destruct (ranges_sub_removes [Range 10 20; Range 22 24; Range 28 30] 30 15 false)
    as (l' & ch' & E & _ & _ & H); [repeat constructor; done|].
  exists l', ch'. split; [exact E|]. rewrite !H. unfold leaves, straddles, in_range.
  change (30 `min` 15) with 15. change (30 `max` 15) with 30.
  split_and!; do 2 (rewrite ?Exists_cons, ?Exists_nil; cbn).
  all: lia.
Defined.

(** A range that no node reaches past on both sides and shares no end point with loses exactly its addresses. *)
Corollary ranges_sub_exact (l : list range_t) (f t : Z) (ch : bool) :
  ranges_wf l -> f <= t -> Forall (fun r => ~ straddles f t r /\ from r <> f /\ to r <> t) l ->
  exists l' ch', ranges_sub l f t ch = Some (l', ch') /\ forall x, covers l' x <-> covers l x /\ ~ f <= x < t.
Proof.
  intros Hwf Hft Hl. rewrite Forall_forall in Hl. rewrite ranges_sub_min_max. unfold ranges_sub. rewrite ranges_abs_spec.
  rewrite !Z.min_l, !Z.max_r by lia. pose proof (actives_length f t l).
  destruct (ranges_sub_loop_spec (S (length l)) f t l ch) as (l' & ch' & E & Hw & _ & Hlen); [lia|done|lia|].
  exists l', ch'. split; [done|]. intros x.
  destruct (ranges_sub_loop_steps f t Hft _ _ _ _ _ Hwf E) as [H1 H2].
  rewrite (steps_leave f t Hft l l' x H1 H2). unfold covers, leaves. rewrite !Exists_exists. split.
  - intros (r & Hr & Hx & Hm & _). split; [apply Exists_exists; by exists r|]. intros Hin. destruct (Hm Hin) as [(s & Hs & Hst)%Exists_exists|Hend].
    + by destruct (Hl s Hs).
    + destruct (Hl r Hr) as (_ & ? & ?). tauto.
  - intros [(r & Hr & Hx)%Exists_exists Hn]. exists r. split; [done|]. split_and!; [done|tauto|]. intros _. by apply (Hl r Hr).
Qed.

(** Cutting a range out of the middle of a node: the node is shortened at the lower bound,
    then [ranges_add(rang, to, r->to, 1)] reads the shortened [to], so the hole is added back and
    the part of the node above the hole is lost. *)
Theorem ranges_sub_middle (a b f t : Z) (ch : bool) :
  a < f -> f <= t -> t < b ->
  exists ch', ranges_sub [Range a b] f t ch = Some ([Range a t], ch').
Proof.
  intros Haf Hft Htb. unfold ranges_sub. rewrite ranges_abs_spec, Z.min_l, Z.max_r by done.
  assert (Hu : sub_update f t (Range a b) = Range a b /\ sub_delete f t (Range a b) = false /\
               sub_split f t (Range a b) = true)
    by (unfold sub_update, sub_delete, sub_split; simpl; zcase; simpl; (done || lia)).
  destruct Hu as (Hu & Hd & Hs). cbn [ranges_sub_loop ranges_sub_walk length app].
  rewrite Hu, Hd, Hs, ranges_add_min_max, Z.min_r, Z.max_l by done. simpl.
  destruct (ranges_add_spec [Range a f] f t true ch) as (ret & ch' & ->);
    [done|repeat constructor; unfold range_wf; simpl; lia|].
  assert (Ht : touches f t (Range a f) = true) by (unfold touches; simpl; zcase; simpl; (done || lia)).
  csimpl. unfold ranges_add_map. rewrite Ht. simpl. rewrite Z.min_l, Z.max_r by lia.
  assert (Hv : sub_update f t (Range a t) = Range a t /\ sub_delete f t (Range a t) = false /\
               sub_split f t (Range a t) = false)
    by (unfold sub_update, sub_delete, sub_split; simpl; zcase; simpl; (done || lia)).
  destruct Hv as (Hu' & Hd' & Hs'). rewrite Hu', Hd', Hs'. by exists ch'.
Qed.

Lemma ranges_sub_middle_witness : exists ch', ranges_sub [Range 0 100] 40 60 false = Some ([Range 0 60], ch').
Proof. apply (ranges_sub_middle 0 100 40 60 false); lia. Defined.

(** C7: [ranges_sort] terminates; it permutes the nodes, and when the list was marked as changed
    leaves them in ascending order of [from]; [ranges_get_n] then returns the node of that rank. *)
Theorem ranges_sort_sorts (st : ranges_st) :
  exists st' ch, ranges_sort st = Some (st', ch) /\ ranges st' ≡ₚ ranges st /\
    (if ranges_changed st then StronglySorted from_le (ranges st') else st' = st) /\
    forall n, ranges_get_n st (Z.of_nat n) = Some (st', (fun r => (from r, to r)) <$> ranges st' !! n).
Proof.
  destruct (ranges_sort_spec st) as (st' & ch & E & Hp & Hs). exists st', ch.
  split_and!; [done..|]. intros n. unfold ranges_get_n. rewrite E. f_equal. f_equal.
  apply (get_n_loop_lookup 0 n).
Qed.

(** On sorted ranges with an address between neighbours, none of them at the lower bound,
    [ranges_boolean] prints exactly the addresses of the interval that no range covers. *)
Theorem ranges_boolean_complement (st : ranges_st) (f t : Z) :
  ranges_changed st = false -> spaced f (ranges st) ->
  exists gs tot, ranges_boolean st f t = Some (st, gs, tot) /\
    forall x, Exists (fun g => g.1 <= x < g.2) gs <-> f <= x < t /\ ~ covers (ranges st) x.
Proof.
  intros Hch Hs. unfold ranges_boolean, ranges_sort. rewrite Hch. simpl.
  destruct (boolean_loop f t 0 (ranges st)) as [gs tot] eqn:E. exists gs, tot. split; [done|].
  intros x. replace gs with (boolean_loop f t 0 (ranges st)).1 by (by rewrite E).
  by apply boolean_loop_gaps.
Qed.

Lemma ranges_boolean_complement_witness :
  exists gs tot, ranges_boolean (RangesSt [Range 10 20; Range 30 40] false) 5 50 =
      Some (RangesSt [Range 10 20; Range 30 40] false, gs, tot) /\
    forall x, Exists (fun g => g.1 <= x < g.2) gs <->
      5 <= x < 50 /\ ~ covers [Range 10 20; Range 30 40] x.
Proof.
  apply (ranges_boolean_complement (RangesSt [Range 10 20; Range 30 40] false) 5 50);
    [done|repeat split; done].
Defined.
