(* ===== verification/Arch.v ===== *)
(** * What an architecture tells the core: [src/code.h]

    The analysis functions [arch_*_aop] fill a [struct aop_t]; the enumerations are inductive
    types and the record has the structure's fields. *)
From S2P Require Import Prelude.

Inductive aop_type :=
| AOP_TYPE_JMP | AOP_TYPE_UJMP | AOP_TYPE_CJMP | AOP_TYPE_CALL | AOP_TYPE_RCALL | AOP_TYPE_REP
| AOP_TYPE_RET | AOP_TYPE_ILL | AOP_TYPE_UNK | AOP_TYPE_NOP | AOP_TYPE_MOV | AOP_TYPE_TRAP
| AOP_TYPE_SWI | AOP_TYPE_UPUSH | AOP_TYPE_PUSH | AOP_TYPE_POP | AOP_TYPE_CMP | AOP_TYPE_ADD
| AOP_TYPE_SUB | AOP_TYPE_MUL | AOP_TYPE_DIV | AOP_TYPE_SHR | AOP_TYPE_SHL | AOP_TYPE_OR
| AOP_TYPE_AND | AOP_TYPE_XOR | AOP_TYPE_NOT | AOP_TYPE_STORE | AOP_TYPE_LOAD.

#[export] Instance aop_type_eq_dec : EqDecision aop_type.
Proof. solve_decision. Defined.

Inductive aop_stack :=
| AOP_STACK_NOP | AOP_STACK_INCSTACK | AOP_STACK_LOCAL_GET | AOP_STACK_LOCAL_SET
| AOP_STACK_ARG_GET | AOP_STACK_ARG_SET.

#[export] Instance aop_stack_eq_dec : EqDecision aop_stack.
Proof. solve_decision. Defined.

Record aop_t := Aop {
  a_type : aop_type; a_stackop : aop_stack; a_length : Z; a_eob : bool;
  a_jump : Z; a_fail : Z; a_ref : Z; a_value : Z;
  a_r_dst : Z; a_r_src1 : Z; a_r_src2 : Z; a_i_dst : Z; a_i_src1 : Z; a_i_src2 : Z }.

(** [memset(aop, 0, sizeof(struct aop_t))]: the enumerations start at their first constructor. *)
Definition aop_zero : aop_t :=
  Aop AOP_TYPE_JMP AOP_STACK_NOP 0 false 0 0 0 0 0 0 0 0 0 0.

Definition set_type (v : aop_type) (a : aop_t) : aop_t :=
  Aop v (a_stackop a) (a_length a) (a_eob a) (a_jump a) (a_fail a) (a_ref a) (a_value a)
    (a_r_dst a) (a_r_src1 a) (a_r_src2 a) (a_i_dst a) (a_i_src1 a) (a_i_src2 a).
Definition set_stackop (v : aop_stack) (a : aop_t) : aop_t :=
  Aop (a_type a) v (a_length a) (a_eob a) (a_jump a) (a_fail a) (a_ref a) (a_value a)
    (a_r_dst a) (a_r_src1 a) (a_r_src2 a) (a_i_dst a) (a_i_src1 a) (a_i_src2 a).
Definition set_length (v : Z) (a : aop_t) : aop_t :=
  Aop (a_type a) (a_stackop a) v (a_eob a) (a_jump a) (a_fail a) (a_ref a) (a_value a)
    (a_r_dst a) (a_r_src1 a) (a_r_src2 a) (a_i_dst a) (a_i_src1 a) (a_i_src2 a).
Definition set_eob (v : bool) (a : aop_t) : aop_t :=
  Aop (a_type a) (a_stackop a) (a_length a) v (a_jump a) (a_fail a) (a_ref a) (a_value a)
    (a_r_dst a) (a_r_src1 a) (a_r_src2 a) (a_i_dst a) (a_i_src1 a) (a_i_src2 a).
Definition set_jump (v : Z) (a : aop_t) : aop_t :=
  Aop (a_type a) (a_stackop a) (a_length a) (a_eob a) v (a_fail a) (a_ref a) (a_value a)
    (a_r_dst a) (a_r_src1 a) (a_r_src2 a) (a_i_dst a) (a_i_src1 a) (a_i_src2 a).
Definition set_fail (v : Z) (a : aop_t) : aop_t :=
  Aop (a_type a) (a_stackop a) (a_length a) (a_eob a) (a_jump a) v (a_ref a) (a_value a)
    (a_r_dst a) (a_r_src1 a) (a_r_src2 a) (a_i_dst a) (a_i_src1 a) (a_i_src2 a).
Definition set_ref (v : Z) (a : aop_t) : aop_t :=
  Aop (a_type a) (a_stackop a) (a_length a) (a_eob a) (a_jump a) (a_fail a) v (a_value a)
    (a_r_dst a) (a_r_src1 a) (a_r_src2 a) (a_i_dst a) (a_i_src1 a) (a_i_src2 a).
Definition set_value (v : Z) (a : aop_t) : aop_t :=
  Aop (a_type a) (a_stackop a) (a_length a) (a_eob a) (a_jump a) (a_fail a) (a_ref a) v
    (a_r_dst a) (a_r_src1 a) (a_r_src2 a) (a_i_dst a) (a_i_src1 a) (a_i_src2 a).

Declare Scope aop_scope.
Delimit Scope aop_scope with aop.
(** [a |> f]: the assignments of the source in their order. *)
Notation "a |> f" := (f a) (at level 61, left associativity, only parsing) : aop_scope.
