(* ===== verification/Bfvm.v ===== *)
(** * The brainfuck debugger: [src/plug/io/bfdbg.c], [src/arch/bf/code.c]

    The virtual machine is a record with the fields of [struct bfvm_cpu_t].  The code is read
    through [radare_read_at], an argument here: [None] is a failed read.  A pointer into
    [mem], [input_buf] or [screen_buf] is an index; an access outside the buffer has no result. *)
From S2P Require Import Prelude Arch.

Record bfvm_cpu_t := Bfvm {
  eip : Z; esp : Z; ptr : Z; trace : bool; base : Z; mem : list Z; size : Z;
  screen : Z; screen_idx : Z; screen_size : Z; screen_buf : list Z;
  input : Z; input_idx : Z; input_size : Z; input_buf : list Z; circular : bool }.

Definition set_eip (v : Z) (c : bfvm_cpu_t) : bfvm_cpu_t :=
  Bfvm v (esp c) (ptr c) (trace c) (base c) (mem c) (size c) (screen c) (screen_idx c)
    (screen_size c) (screen_buf c) (input c) (input_idx c) (input_size c) (input_buf c) (circular c).
Definition set_esp (v : Z) (c : bfvm_cpu_t) : bfvm_cpu_t :=
  Bfvm (eip c) v (ptr c) (trace c) (base c) (mem c) (size c) (screen c) (screen_idx c)
    (screen_size c) (screen_buf c) (input c) (input_idx c) (input_size c) (input_buf c) (circular c).
Definition set_ptr (v : Z) (c : bfvm_cpu_t) : bfvm_cpu_t :=
  Bfvm (eip c) (esp c) v (trace c) (base c) (mem c) (size c) (screen c) (screen_idx c)
    (screen_size c) (screen_buf c) (input c) (input_idx c) (input_size c) (input_buf c) (circular c).
Definition set_trace (v : bool) (c : bfvm_cpu_t) : bfvm_cpu_t :=
  Bfvm (eip c) (esp c) (ptr c) v (base c) (mem c) (size c) (screen c) (screen_idx c)
    (screen_size c) (screen_buf c) (input c) (input_idx c) (input_size c) (input_buf c) (circular c).
Definition set_mem (v : list Z) (c : bfvm_cpu_t) : bfvm_cpu_t :=
  Bfvm (eip c) (esp c) (ptr c) (trace c) (base c) v (size c) (screen c) (screen_idx c)
    (screen_size c) (screen_buf c) (input c) (input_idx c) (input_size c) (input_buf c) (circular c).
Definition set_screen (idx : Z) (buf : list Z) (c : bfvm_cpu_t) : bfvm_cpu_t :=
  Bfvm (eip c) (esp c) (ptr c) (trace c) (base c) (mem c) (size c) (screen c) idx
    (screen_size c) buf (input c) (input_idx c) (input_size c) (input_buf c) (circular c).
Definition set_input (idx : Z) (buf : list Z) (c : bfvm_cpu_t) : bfvm_cpu_t :=
  Bfvm (eip c) (esp c) (ptr c) (trace c) (base c) (mem c) (size c) (screen c) (screen_idx c)
    (screen_size c) (screen_buf c) (input c) idx (input_size c) buf (circular c).

Definition bfvm_init (sz : Z) (circ : bool) : bfvm_cpu_t :=
  let b := if 65536 <? sz then 0xd0000000 else 0xd0000 in
  Bfvm 0 b 0 false b (replicate (Z.to_nat sz) 0) sz
    0x50000 0 4096 (replicate (Z.to_nat 4096) 0) 0x10000 0 4096 (replicate (Z.to_nat 4096) 0) circ.

(** ** The data cells *)

(** The index of the cell; [at0] is unsigned, so the two tests [at<0] are as they stand. *)
Definition bfvm_get_ptr_at (c : bfvm_cpu_t) (at0 : Z) : Z :=
  let a := u64 at0 in
  let a := if base c <=? a then a - base c else a in
  let a :=
    if a <? 0 then (if circular c then size c - 2 else 0)
    else if size c <=? a then (if circular c then 0 else size c - 1)
    else a in
  if a <? 0 then 0 else a.

Definition bfvm_get_ptr (c : bfvm_cpu_t) : Z := bfvm_get_ptr_at c (ptr c).

(** [buf[i]] for an [int] index. *)
Definition at_idx (buf : list Z) (i : Z) : option Z := if i <? 0 then None else buf !! Z.to_nat i.
Definition put_idx (buf : list Z) (i v : Z) : option (list Z) :=
  if i <? 0 then None
  else if Z.of_nat (List.length buf) <=? i then None else Some (<[Z.to_nat i := v]> buf).

Definition bfvm_get (c : bfvm_cpu_t) : option Z := at_idx (mem c) (bfvm_get_ptr c).

Definition bfvm_put (c : bfvm_cpu_t) (v : Z) : option bfvm_cpu_t :=
  m ← put_idx (mem c) (bfvm_get_ptr c) v; Some (set_mem m c).

Definition bfvm_inc (c : bfvm_cpu_t) : option bfvm_cpu_t := v ← bfvm_get c; bfvm_put c (u8 (v + 1)).
Definition bfvm_dec (c : bfvm_cpu_t) : option bfvm_cpu_t := v ← bfvm_get c; bfvm_put c (u8 (v - 1)).

Definition bfvm_peek (c : bfvm_cpu_t) : option bfvm_cpu_t :=
  let idx := if input_size c <=? input_idx c then 0 else input_idx c in
  v ← at_idx (input_buf c) idx;
  c ← bfvm_put c v;
  Some (set_input (s32 (idx + 1)) (input_buf c) c).

Definition bfvm_poke (c : bfvm_cpu_t) : option bfvm_cpu_t :=
  let idx := screen_idx c in
  v ← bfvm_get c;
  buf ← put_idx (screen_buf c) idx v;
  Some (set_screen (s32 (idx + 1)) buf c).

(** [bfvm_reg_set]: [get_math] is an argument; the result tells if a value was given. *)
Definition bfvm_reg_set (get_math : string -> Z) (str : string) (c : bfvm_cpu_t)
    : bfvm_cpu_t * bool :=
  match strchr str " " with
  | None => (c, false)
  | Some p =>
    let v := get_math (str_drop 1 p) in
    if contains "eip" str then (set_eip v c, true)
    else if contains "esp" str then (set_esp v c, true)
    else if contains "ptr" str then (set_ptr (s32 v) c, true)
    else (c, true)
  end.

(** ** Execution *)
Section machine.
Context (read_at : Z -> nat -> option (list Z)).

Definition bfvm_op_at (a : Z) : Z :=
  match read_at a 4 with
  | Some (b :: _) => b
  | _ => 0xff
  end.
Definition bfvm_op (c : bfvm_cpu_t) : Z := bfvm_op_at (eip c).

Definition bfvm_in_trap (c : bfvm_cpu_t) : bool := (bfvm_op c =? 0) || (bfvm_op c =? 0xff).

(** What [bfvm_trace_op] prints; the cell is read for the brackets only. *)
Definition bfvm_trace_op (op : Z) (c : bfvm_cpu_t) : option string :=
  let ch := String (chr op) "" in
  if op =? 0 then Some (" ; trap (" ++ fmt_x0 2 op ++ ")" ++ nl ++ ch)%string
  else if existsb (Z.eqb op) [46; 44; 43; 45; 62; 60] then Some ch
  else if existsb (Z.eqb op) [91; 93] then
    g ← bfvm_get c;
    Some (ch ++ "  ; [ptr] = " ++ fmt_d g ++ nl ++ (if (g =? 0)%Z then "" else "["))%string
  else Some ""%string.

(** The search of the [']'] arm; [eip] is unsigned, so its test for underflow is as it stands. *)
Fixpoint back_to_open (fuel : nat) (e : Z) : option Z :=
  match fuel with
  | O => None
  | S fuel' =>
    let e := u64 (e - 1) in
    if e <? 0 then Some 0
    else if bfvm_op_at e =? 91 then Some e else back_to_open fuel' e
  end.

(** The [switch] of [bfvm_step] for an [op] other than the trap. *)
Definition bfvm_exec (fuel : nat) (op : Z) (c : bfvm_cpu_t) : option bfvm_cpu_t :=
  if op =? 46 then bfvm_poke c
  else if op =? 44 then bfvm_peek c
  else if op =? 43 then bfvm_inc c
  else if op =? 45 then bfvm_dec c
  else if op =? 62 then Some (set_ptr (s32 (ptr c + 1)) c)
  else if op =? 60 then Some (set_ptr (s32 (ptr c - 1)) c)
  else if op =? 91 then Some c
  else if op =? 93 then
    g ← bfvm_get c;
    if truth g then e ← back_to_open fuel (eip c); Some (set_eip e c) else Some c
  else Some c.

(** The [do ... while (over && op == op2)]; [op] is read once, before the loop. *)
Fixpoint bfvm_step_loop (fuel : nat) (over : bool) (op : Z) (out : string) (c : bfvm_cpu_t)
    : option (Z * string * bfvm_cpu_t) :=
  match fuel with
  | O => None
  | S fuel' =>
    t ← (if trace c then bfvm_trace_op op c else Some ""%string);
    let out := (out ++ t)%string in
    if op =? 0 then Some (1, out, c)
    else
      c ← bfvm_exec fuel op c;
      let c := set_eip (u64 (eip c + 1)) c in
      if over && (op =? bfvm_op c) then bfvm_step_loop fuel' over op out c
      else Some (0, out, c)
  end.
Definition bfvm_step (fuel : nat) (over : bool) (c : bfvm_cpu_t)
    : option (Z * string * bfvm_cpu_t) := bfvm_step_loop fuel over (bfvm_op c) "" c.

(** [bfvm_contsc] and [bfvm_cont]: [intr n] is the state of [config.interrupted] before the
    turn with [n] turns left. *)
Fixpoint bfvm_contsc (intr : nat -> bool) (fuel : nat) (out : string) (c : bfvm_cpu_t)
    : option (string * bfvm_cpu_t) :=
  match fuel with
  | O => None
  | S fuel' =>
    if intr fuel then Some (out, c)
    else
      r ← bfvm_step fuel false c;
      let '(_, t, c) := r in
      let out := (out ++ t)%string in
      if bfvm_in_trap c then
        Some ((out ++ "Trap instruction at 0x" ++ fmt_x0 8 (eip c) ++ nl)%string, c)
      else if bfvm_op c =? 44 then Some ((out ++ "contsc: read from input trap" ++ nl)%string, c)
      else if bfvm_op c =? 46 then Some ((out ++ "contsc: print to screen trap" ++ nl)%string, c)
      else bfvm_contsc intr fuel' out c
  end.

Fixpoint bfvm_cont (intr : nat -> bool) (fuel : nat) (until : Z) (out : string) (c : bfvm_cpu_t)
    : option (string * bfvm_cpu_t) :=
  match fuel with
  | O => None
  | S fuel' =>
    if intr fuel || (eip c =? until) then Some (out, c)
    else
      r ← bfvm_step fuel false c;
      let '(_, t, c) := r in
      let out := (out ++ t)%string in
      if bfvm_in_trap c then
        Some ((out ++ "Trap instruction at 0x" ++ fmt_x0 8 (eip c) ++ nl)%string, c)
      else bfvm_cont intr fuel' until out c
  end.

Definition bfvm_trace (intr : nat -> bool) (fuel : nat) (until : Z) (c : bfvm_cpu_t)
    : option (string * bfvm_cpu_t) :=
  r ← bfvm_cont intr fuel until "" (set_trace true c);
  Some (r.1, set_trace false r.2).
End machine.

(** *** Reports *)

Definition bfvm_show_regs (rad : bool) (c : bfvm_cpu_t) : option (list string) :=
  if rad then
    Some ["fs regs" ++ nl; "f eip @ 0x" ++ fmt_x0 8 (eip c) ++ nl;
          "f esp @ 0x" ++ fmt_x0 8 (esp c) ++ nl;
          "f ptr @ 0x" ++ fmt_x0 8 (u64 (u64 (ptr c) + base c)) ++ nl; "fs *" ++ nl]%string
  else
    ch ← bfvm_get c;
    Some ["  eip  0x" ++ fmt_x0 8 (eip c) ++ "     esp  0x" ++ fmt_x0 8 (esp c) ++ nl;
          "  ptr  0x" ++ fmt_x0 8 (u32 (ptr c)) ++ "     [ptr]  " ++ fmt_d ch ++ " = 0x" ++
          fmt_x0 2 ch ++ " '" ++ String (if is_printable ch then chr ch else " "%char) "'" ++ nl]%string.

(** [config.size] is the size of the code. *)
Definition bfvm_maps (rad : bool) (config_size : Z) (c : bfvm_cpu_t) : list string :=
  let flag n v := ("f " ++ n ++ " @ 0x" ++ fmt_x0 8 (u64 v) ++ nl)%string in
  let row a b n r :=
    ("0x" ++ fmt_x0 8 (u64 a) ++ " - 0x" ++ fmt_x0 8 (u64 b) ++ " " ++ r ++ " 0x" ++ fmt_x0 8 (u64 (b - a)) ++
     " ." ++ n ++ nl)%string in
  if rad then
    ["fs sections" ++ nl; "e cmd.vprompt=px@screen" ++ nl;
     flag "section_code" 0; flag "section_code_end" config_size;
     flag "section_data" (base c); flag "section_data_end" (base c + size c);
     flag "screen" (screen c); flag "section_screen" (screen c);
     flag "section_screen_end" (screen c + screen_size c);
     flag "input" (input c); flag "section_input" (input c);
     flag "section_input_end" (input c + input_size c); "fs *" ++ nl]%string
  else
    [row 0 config_size "code" "rwxu"; row (base c) (base c + size c) "data" "rw--";
     row (screen c) (screen c + screen_size c) "screen" "rw--";
     row (input c) (input c + input_size c) "input" "rw--"]%string.

(** ** The io plugin

    [cur_seek] is the plugin's own position; the file's [read] and [write] are arguments. *)

(** [memcpy] into a buffer of the machine at index [i]. *)
Fixpoint copy_in (buf : list Z) (i : Z) (bytes : list Z) : option (list Z) :=
  match bytes with
  | [] => Some buf
  | b :: bs => buf ← put_idx buf i b; copy_in buf (i + 1) bs
  end.

(** [memcpy] of [count] bytes from the start of a buffer. *)
Definition copy_out (buf : list Z) (count : nat) : option (list Z) :=
  if bool_decide (count <= List.length buf)%nat then Some (take count buf) else None.

Definition in_screen (seek : Z) (c : bfvm_cpu_t) : bool :=
  (screen c <=? seek) && (seek <=? screen c + screen_size c).
Definition in_input (seek : Z) (c : bfvm_cpu_t) : bool :=
  (input c <=? seek) && (seek <=? input c + input_size c).

Inductive plug_result (A : Type) := PlugDone (a : A) | PlugFile | PlugFault.
Arguments PlugDone {A} a.
Arguments PlugFile {A}.
Arguments PlugFault {A}.

Definition or_fault {A} (o : option A) : plug_result A :=
  match o with Some a => PlugDone a | None => PlugFault end.

Definition bfdbg_write (seek : Z) (bytes : list Z) (c : bfvm_cpu_t) : plug_result bfvm_cpu_t :=
  if in_screen seek c then
    or_fault ((fun b => set_screen (screen_idx c) b c) <$> copy_in (screen_buf c) (seek - screen c) bytes)
  else if in_input seek c then
    or_fault ((fun b => set_input (input_idx c) b c) <$> copy_in (input_buf c) (seek - input c) bytes)
  else if base c <=? seek then
    or_fault ((fun m => set_mem m c) <$> copy_in (mem c) (seek - base c) bytes)
  else PlugFile.

Definition bfdbg_read (seek : Z) (count : nat) (c : bfvm_cpu_t) : plug_result (list Z) :=
  if in_screen seek c then or_fault (copy_out (screen_buf c) count)
  else if in_input seek c then or_fault (copy_out (input_buf c) count)
  else if base c <=? seek then or_fault (copy_out (mem c) count)
  else PlugFile.

(** The seek and what is returned; [lseek64] of the file is an argument. *)
Definition bfdbg_lseek (lseek64 : Z -> Z -> Z) (config_seek cur_seek offset whence : Z) : Z * Z :=
  if whence =? 0 then (offset, lseek64 offset whence)
  else if whence =? 1 then (u64 (config_seek + offset), lseek64 offset whence)
  else if whence =? 2 then (0xffffffff, 0xffffffff)
  else (cur_seek, lseek64 offset whence).

Definition bfdbg_handle_open (file : string) : bool := starts_with "bfdbg://" file.

(** [bfdbg_open]: [open] gives the descriptor of the file behind the prefix, -1 on failure. *)
Definition bfdbg_open (open : string -> Z) (pathname : string) (cpu : bfvm_cpu_t) (bfdbg_fd : Z)
    : Z * bfvm_cpu_t * Z :=
  if bfdbg_handle_open pathname then
    let fd := open (str_drop 8 pathname) in
    if fd =? -1 then (fd, cpu, bfdbg_fd) else (fd, bfvm_init 0xFFFF true, fd)
  else (-1, cpu, bfdbg_fd).

Definition bfdbg_help : list string := (fun s => s ++ nl)%string <$>
  ["Brainfuck debugger help:";
   "20!step       ; perform 20 steps";
   "!step         ; perform a step";
   "!stepo        ; step over rep instructions";
   "!maps         ; show registers";
   "!reg          ; show registers";
   "!cont [addr]  ; continue until address or ^C";
   "!trace [addr] ; trace code execution";
   "!contsc       ; continue until write or read syscall";
   "!reg eip 3    ; force program counter";
   ".!reg*        ; adquire register information into core"]%string.

(** [bfdbg_system]: the debugger commands.  What is printed, and the new machine. *)
Definition bfdbg_system (read_at : Z -> nat -> option (list Z)) (get_math : string -> Z)
    (intr : nat -> bool) (fuel : nat) (config_size : Z) (cmd : string) (c : bfvm_cpu_t)
    : option (list string * bfvm_cpu_t) :=
  let step over :=
    r ← bfvm_step read_at fuel over c; let '(_, out, c) := r in Some ([out], c) in
  let run r := x ← r; Some ([x.1], x.2) in
  let regs rad := l ← bfvm_show_regs rad c; Some (l, c) in
  let star s := match s with String "*" _ => true | _ => false end in
  if starts_with "info" cmd then step false
  else if starts_with "help" cmd then Some (bfdbg_help, c)
  else if starts_with "contsc" cmd then run (bfvm_contsc read_at intr fuel "" c)
  else if starts_with "cont" cmd then
    run (bfvm_cont read_at intr fuel (get_math (str_drop 4 cmd)) "" c)
  else if starts_with "trace" cmd then
    run (bfvm_trace read_at intr fuel (get_math (str_drop 5 cmd)) c)
  else if starts_with "stepo" cmd then step true
  else if starts_with "maps" cmd then Some (bfvm_maps (star (str_drop 4 cmd)) config_size c, c)
  else if starts_with "step" cmd then step false
  else if starts_with "reg" cmd then
    match strchr (str_drop 4 cmd) " " with
    | Some _ => Some ([], (bfvm_reg_set get_math (str_drop 4 cmd) c).1)
    | None =>
      match str_drop 3 cmd with
      | String "s" r => regs (star r)
      | r => regs (star r)
      end
    end
  else Some (["Invalid debugger command. Try !help" ++ nl]%string, c).

(** ** Code analysis: [src/arch/bf/code.c] *)

(** The loop [for(i=0; buf[0]==buf[1] && i<len; buf++, i++)]; the second byte is read before
    [i] is compared. *)
Fixpoint bf_run (n : nat) (i : Z) (buf : list Z) : option Z :=
  match buf with
  | b0 :: (b1 :: _) as buf' =>
    if b0 =? b1 then match n with O => Some i | S n' => bf_run n' (i + 1) (tail buf) end
    else Some i
  | _ => None
  end.

(** [last_loop] is the file's global; [None]: the buffer ends inside the run. *)
Definition arch_bf_aop (addr : Z) (buf : list Z) (last_loop : Z) : option (aop_t * Z) :=
  let aop := set_type AOP_TYPE_UNK aop_zero in
  b0 ← head buf;
  let '(aop, last_loop) :=
    if b0 =? 91 then (set_type AOP_TYPE_TRAP aop, addr)
    else if b0 =? 93 then
      (set_eob true (set_fail (u64 (addr + 1)) (set_jump last_loop (set_type AOP_TYPE_CJMP aop))), last_loop)
    else if existsb (Z.eqb b0) [62; 60; 43; 45] then (aop, last_loop)
    else if existsb (Z.eqb b0) [46; 44; 0] then (set_type AOP_TYPE_TRAP aop, last_loop)
    else (set_type AOP_TYPE_NOP aop, last_loop) in
  i ← bf_run 256 0 buf;
  let i := if i <? 1 then 1 else i + 1 in
  Some (set_length i aop, last_loop).

Definition bf_mnemonic (b0 i : Z) : string :=
  if b0 =? 91 then "[ loop {"
  else if b0 =? 93 then "] }"
  else if b0 =? 62 then if 1 <? i then "> add [ptr]" else "> inc [ptr]"
  else if b0 =? 60 then if 1 <? i then "< sub [ptr]" else "< dec [ptr]"
  else if b0 =? 43 then if 1 <? i then "+ add [ptr]" else "+ inc [ptr]"
  else if b0 =? 45 then if 1 <? i then "- sub [ptr]" else "- dec [ptr]"
  else if b0 =? 44 then ", [ptr] = getch()"
  else if b0 =? 46 then ". print( [ptr] )"
  else if b0 =? 0 then "  trap"
  else "  nop".

Definition arch_bf_dis (buf : list Z) (len : nat) : option (string * Z) :=
  b0 ← head buf;
  i ← bf_run len 0 buf;
  Some ((bf_mnemonic b0 i ++ (if (0 <? i)%Z then ", " ++ fmt_d (i + 1) else ""))%string,
        if i <? 1 then 1 else i + 1).

(** ** Buffers *)
Lemma at_idx_lookup buf i : 0 <= i -> at_idx buf i = buf !! Z.to_nat i.
Proof. intros. unfold at_idx. zcase; [lia|done]. Qed.

Lemma at_idx_Some buf i : 0 <= i < Z.of_nat (List.length buf) -> exists v, at_idx buf i = Some v.
Proof.
  intros Hi. rewrite at_idx_lookup by lia.
  destruct (lookup_lt_is_Some_2 buf (Z.to_nat i)) as [v Hv]; [lia|eauto].
Qed.

Lemma put_idx_Some buf i v :
  0 <= i < Z.of_nat (List.length buf) -> put_idx buf i v = Some (<[Z.to_nat i := v]> buf).
Proof. intros. unfold put_idx. zcase; (lia || done). Qed.

Lemma bfvm_get_ptr_at_bounds c a :
  0 < size c -> 0 <= base c -> 0 <= bfvm_get_ptr_at c a < size c.
Proof.
  intros Hs Hb. unfold bfvm_get_ptr_at. pose proof (Z.mod_pos_bound a (2^64) ltac:(lia)).
  fold (u64 a) in *. set (b := if base c <=? u64 a then _ else _).
  assert (0 <= b) by (unfold b; zcase; lia). zcase; destruct (circular c); lia.
Qed.

(** The invariant of the machine: buffers of their sizes, indices where the code keeps them. *)
Record bfvm_wf (c : bfvm_cpu_t) : Prop := {
  wf_size : 0 < size c < 2^31;
  wf_base : 0 <= base c < 2^64;
  wf_mem : Z.of_nat (List.length (mem c)) = size c;
  wf_screen : Z.of_nat (List.length (screen_buf c)) = screen_size c;
  wf_screen_size : 0 <= screen_size c < 2^31;
  wf_screen_idx : 0 <= screen_idx c <= screen_size c;
  wf_input : Z.of_nat (List.length (input_buf c)) = input_size c;
  wf_input_size : 0 < input_size c < 2^31 - 1;
  wf_input_idx : 0 <= input_idx c <= input_size c;
  wf_eip : is_u64 (eip c) }.

#[local] Hint Constructors bfvm_wf : core.

Lemma bfvm_init_wf sz circ : 0 < sz < 2^31 -> bfvm_wf (bfvm_init sz circ).
Proof.
  intros Hs. unfold bfvm_init.
  constructor; cbn [size base mem screen_buf screen_size screen_idx input_buf input_size input_idx eip];
    rewrite ?length_replicate; unfold is_u64; try lia.
  destruct (65536 <? sz); lia.
Qed.

Lemma bfvm_get_ptr_bounds c : bfvm_wf c -> 0 <= bfvm_get_ptr c < size c.
Proof. intros []. apply bfvm_get_ptr_at_bounds; lia. Qed.

Lemma bfvm_get_Some c : bfvm_wf c -> exists v, bfvm_get c = Some v.
Proof. intros Hc. pose proof (bfvm_get_ptr_bounds c Hc). destruct Hc. apply at_idx_Some. lia. Qed.

Lemma bfvm_put_Some c v :
  bfvm_wf c -> bfvm_put c v = Some (set_mem (<[Z.to_nat (bfvm_get_ptr c) := v]> (mem c)) c).
Proof.
  intros Hc. pose proof (bfvm_get_ptr_bounds c Hc). destruct Hc. unfold bfvm_put.
  rewrite put_idx_Some by lia. done.
Qed.

Lemma set_mem_wf c m :
  bfvm_wf c -> List.length m = List.length (mem c) -> bfvm_wf (set_mem m c).
Proof. intros [] Hm. constructor; simpl; try done. by rewrite Hm. Qed.

Lemma set_eip_wf c v : bfvm_wf c -> is_u64 v -> bfvm_wf (set_eip v c).
Proof. by intros [] Hv. Qed.

Lemma set_ptr_wf c v : bfvm_wf c -> bfvm_wf (set_ptr v c).
Proof. by intros []. Qed.

Lemma set_eip_ptr c v : bfvm_get_ptr (set_eip v c) = bfvm_get_ptr c.
Proof. done. Qed.

(** ** Execution *)
Section steps.
Context (read_at : Z -> nat -> option (list Z)).
Notation op_at := (bfvm_op_at read_at).

(** The search finds the nearest ['['] below, when there is one. *)
Lemma back_to_open_finds fuel q e :
  0 <= q -> q < e -> e < 2^64 -> op_at q = 91 -> (forall k, q < k < e -> op_at k <> 91) ->
  e - q <= Z.of_nat fuel -> back_to_open read_at fuel e = Some q.
Proof.
  intros Hq. revert e. induction fuel as [|fuel IH]; intros e Hqe He Hop Hno Hf; [lia|].
  cbn [back_to_open]. rewrite u64_id by (unfold is_u64; lia).
  destruct (Z.ltb_spec (e - 1) 0); [lia|].
  destruct (decide (e - 1 = q)) as [->|Hne]; [by rewrite Hop|].
  destruct (Z.eqb_spec (op_at (e - 1)) 91) as [Heq|]; [by destruct (Hno (e - 1)); [lia|]|].
  apply IH; try lia. intros k Hk. apply Hno. lia.
Qed.

Lemma bfvm_trace_op_Some op c : bfvm_wf c -> exists t, bfvm_trace_op op c = Some t.
Proof.
  intros Hc. destruct (bfvm_get_Some c Hc) as [v Hv]. unfold bfvm_trace_op. rewrite Hv.
  repeat case_match; simpl; eauto.
Qed.

(** A step that does not repeat: the instruction, then the next address. *)
Lemma bfvm_step_once fuel c c' :
  bfvm_wf c -> bfvm_op read_at c <> 0 ->
  bfvm_exec read_at (S fuel) (bfvm_op read_at c) c = Some c' ->
  exists out, bfvm_step read_at (S fuel) false c = Some (0, out, set_eip (u64 (eip c' + 1)) c').
Proof.
  intros Hc Hop He. unfold bfvm_step. cbn [bfvm_step_loop].
  assert (exists t, (if trace c then bfvm_trace_op (bfvm_op read_at c) c else Some ""%string) = Some t)
    as [t ->] by (destruct (trace c); [by apply bfvm_trace_op_Some|eauto]).
  destruct (Z.eqb_spec (bfvm_op read_at c) 0); [done|]. cbn [mbind option_bind].
  rewrite He. cbn. by eexists.
Qed.

(** *** The language

    Brainfuck: a head on a tape of bytes, a program counter on the code.  [balanced a b]: from [a] up to [b] every bracket
    has its partner. *)
Record bf := Bf { b_pc : Z; b_head : Z; b_tape : Z -> Z; b_out : list Z; b_in : nat }.

Definition upd (f : Z -> Z) (a v : Z) : Z -> Z := fun x => if x =? a then v else f x.
Definition goto (p : Z) (s : bf) : bf := Bf p (b_head s) (b_tape s) (b_out s) (b_in s).

Inductive balanced : Z -> Z -> Prop :=
| bal_nil a : balanced a a
| bal_other a b : op_at a <> 91 -> op_at a <> 93 -> balanced (a + 1) b -> balanced a b
| bal_loop a m b : op_at a = 91 -> balanced (a + 1) m -> op_at m = 93 -> balanced (m + 1) b -> balanced a b.

(** The loop from ['['] at [q] to [']'] at [p]. *)
Definition matched (q p : Z) : Prop := op_at q = 91 /\ op_at p = 93 /\ balanced (q + 1) p.

(** What the two brackets do to the program counter is a parameter; the rest is the same for the language and the
    debugger. *)
Section bf_step.
Context (inp : nat -> Z) (bracket : bf -> Z -> Prop).
Inductive bf_step_with : bf -> bf -> Prop :=
| bf_right p h t o n : op_at p = 62 -> bf_step_with (Bf p h t o n) (Bf (p + 1) (h + 1) t o n)
| bf_left p h t o n : op_at p = 60 -> bf_step_with (Bf p h t o n) (Bf (p + 1) (h - 1) t o n)
| bf_inc p h t o n : op_at p = 43 ->
    bf_step_with (Bf p h t o n) (Bf (p + 1) h (upd t h (u8 (t h + 1))) o n)
| bf_dec p h t o n : op_at p = 45 ->
    bf_step_with (Bf p h t o n) (Bf (p + 1) h (upd t h (u8 (t h - 1))) o n)
| bf_put p h t o n : op_at p = 46 -> bf_step_with (Bf p h t o n) (Bf (p + 1) h t (o ++ [t h]) n)
| bf_get p h t o n : op_at p = 44 ->
    bf_step_with (Bf p h t o n) (Bf (p + 1) h (upd t h (inp n)) o (S n))
| bf_other p h t o n : op_at p <> 0 -> op_at p ∉ [62; 60; 43; 45; 46; 44; 91; 93] ->
    bf_step_with (Bf p h t o n) (Bf (p + 1) h t o n)
| bf_bracket s q : bracket s q -> bf_step_with s (goto (q + 1) s).
End bf_step.

(** ['['] enters the loop or, when the cell is zero, passes it; [']'] leaves it or, when the cell is not zero, begins it
    again. *)
Inductive bracket : bf -> Z -> Prop :=
| bracket_enter s : op_at (b_pc s) = 91 -> b_tape s (b_head s) <> 0 -> bracket s (b_pc s)
| bracket_pass s q : op_at (b_pc s) = 91 -> b_tape s (b_head s) = 0 -> matched (b_pc s) q -> bracket s q
| bracket_leave s : op_at (b_pc s) = 93 -> b_tape s (b_head s) = 0 -> bracket s (b_pc s)
| bracket_again s q : op_at (b_pc s) = 93 -> b_tape s (b_head s) <> 0 -> 0 <= q -> matched q (b_pc s) -> bracket s q.
Definition bf_step (inp : nat -> Z) : bf -> bf -> Prop := bf_step_with inp bracket.

(** What the debugger makes of the brackets: ['['] does nothing, [']'] goes back, when the cell is not zero, to the
    nearest ['['] below. *)
Definition nearest (q p : Z) : Prop := 0 <= q < p /\ op_at q = 91 /\ forall k, q < k < p -> op_at k <> 91.
Inductive dbg_bracket : bf -> Z -> Prop :=
| dbg_open s : op_at (b_pc s) = 91 -> dbg_bracket s (b_pc s)
| dbg_exit s : op_at (b_pc s) = 93 -> b_tape s (b_head s) = 0 -> dbg_bracket s (b_pc s)
| dbg_again s q : op_at (b_pc s) = 93 -> b_tape s (b_head s) <> 0 -> nearest q (b_pc s) -> dbg_bracket s q.
Definition dbg_step (inp : nat -> Z) : bf -> bf -> Prop := bf_step_with inp dbg_bracket.

Lemma balanced_le a b : balanced a b -> a <= b.
Proof. induction 1; lia. Qed.

(** Below a place with a ['['] there is a nearest one. *)
Lemma nearest_exists n q p e :
  op_at q = 91 -> 0 <= q < e -> e <= p -> e - q <= Z.of_nat n -> (forall k, e <= k < p -> op_at k <> 91) ->
  exists i, q <= i /\ nearest i p.
Proof.
  intros Hq. revert e. induction n as [|n IH]; intros e Hqe Hep Hn Hno; [lia|].
  destruct (decide (op_at (e - 1) = 91)) as [He|He].
  - exists (e - 1). unfold nearest. split_and!; try lia. intros k Hk. apply Hno. lia.
  - assert (q <> e - 1) as Hne by congruence. apply (IH (e - 1)); try lia.
    intros k Hk. destruct (decide (k = e - 1)) as [->|]; [done|]. apply Hno. lia.
Qed.

(** The loops the debugger mistakes: one that should be passed, and the end of one with another ['['] in it, where it goes
    behind that one. *)
Definition strays (s s1 : bf) : Prop :=
  (op_at (b_pc s) = 91 /\ b_tape s (b_head s) = 0 /\ s1 = goto (b_pc s + 1) s) \/
  (op_at (b_pc s) = 93 /\ b_tape s (b_head s) <> 0 /\
   exists q i, matched q (b_pc s) /\ q < i /\ nearest i (b_pc s) /\ s1 = goto (i + 1) s).

Lemma bf_step_debugged inp s s' : 0 <= b_pc s -> bf_step inp s s' -> exists s1, dbg_step inp s s1 /\ (s1 = s' \/ strays s s1).
Proof.
  intros Hp H. destruct H as [p h t o n|p h t o n|p h t o n|p h t o n|p h t o n|p h t o n|p h t o n|s q Hb];
    try solve [eexists; split; [by econstructor|by left]].
  destruct Hb as [s Ho Ht|s q Ho Ht Hm|s Ho Ht|s q Ho Ht Hq Hm].
  - exists (goto (b_pc s + 1) s). split; [by apply bf_bracket, dbg_open|by left].
  - exists (goto (b_pc s + 1) s). split; [by apply bf_bracket, dbg_open|right; by left].
  - exists (goto (b_pc s + 1) s). split; [by apply bf_bracket, dbg_exit|by left].
  - pose proof Hm as (Hq' & _ & Hbal%balanced_le).
    destruct (nearest_exists (Z.to_nat (b_pc s - q)) q (b_pc s) (b_pc s)) as (i & Hi & Hn); [done|lia..|].
    exists (goto (i + 1) s). split; [by apply bf_bracket, dbg_again|].
    destruct (decide (i = q)) as [->|Hne]; [by left|]. right. right. split_and!; [done..|].
    exists q, i. split_and!; [done|lia|done|done].
Qed.

(** The machine [c] represents the state [s]; the input buffer is read as a ring. *)
Record rep (inp : nat -> Z) (c : bfvm_cpu_t) (s : bf) : Prop := {
  rep_pc : eip c = b_pc s;
  rep_head : ptr c = b_head s;
  rep_tape x : 0 <= x < size c -> at_idx (mem c) x = Some (b_tape s x);
  rep_out : take (Z.to_nat (screen_idx c)) (screen_buf c) = b_out s;
  rep_in n : at_idx (input_buf c) (Z.of_nat n mod input_size c) = Some (inp n);
  rep_idx : input_idx c mod input_size c = Z.of_nat (b_in s) mod input_size c }.

(** The head is on a cell, the screen has room and the program counter does not wrap. *)
Definition in_bounds (c : bfvm_cpu_t) (s : bf) : Prop :=
  0 <= b_head s < size c /\ b_head s < base c /\
  screen_idx c < screen_size c /\ 0 <= b_pc s < 2^64 - 1.

Lemma rep_get_ptr inp c s :
  bfvm_wf c -> rep inp c s -> in_bounds c s -> bfvm_get_ptr c = b_head s.
Proof.
  intros [] Hr Hb. unfold bfvm_get_ptr, bfvm_get_ptr_at, in_bounds in *. rewrite (rep_head _ _ _ Hr).
  rewrite u64_id by (unfold is_u64; lia). zcase; lia.
Qed.

Lemma rep_get inp c s :
  bfvm_wf c -> rep inp c s -> in_bounds c s -> bfvm_get c = Some (b_tape s (b_head s)).
Proof.
  intros Hc Hr Hb. unfold bfvm_get. rewrite (rep_get_ptr inp c s) by done.
  apply (rep_tape _ _ _ Hr). unfold in_bounds in Hb. lia.
Qed.

Lemma at_idx_insert buf i j v :
  0 <= i < Z.of_nat (List.length buf) -> 0 <= j ->
  at_idx (<[Z.to_nat i := v]> buf) j = if j =? i then Some v else at_idx buf j.
Proof.
  intros Hi Hj. rewrite !at_idx_lookup by done. destruct (Z.eqb_spec j i) as [->|Hne].
  - apply list_lookup_insert_eq. lia.
  - apply list_lookup_insert_ne. lia.
Qed.

(** Writing the cell under the head. *)
Lemma rep_put inp c p h t o n v :
  bfvm_wf c -> rep inp c (Bf p h t o n) -> in_bounds c (Bf p h t o n) ->
  exists c', bfvm_put c v = Some c' /\ bfvm_wf c' /\ rep inp c' (Bf p h (upd t h v) o n) /\
    in_bounds c' (Bf p h (upd t h v) o n) /\ input_buf c' = input_buf c /\
    input_size c' = input_size c /\ input_idx c' = input_idx c.
Proof.
  intros Hc Hr Hb. rewrite bfvm_put_Some by done. rewrite (rep_get_ptr inp c _ Hc Hr Hb). simpl.
  eexists. split; [done|]. split; [apply set_mem_wf; [done|apply length_insert]|].
  split; [|done]. destruct Hr, Hc, Hb as (Hh & _). simpl in *. constructor; simpl; try done.
  intros x Hx. rewrite at_idx_insert by lia. unfold upd. destruct (x =? h); [done|]. by apply rep_tape0.
Qed.

Lemma rep_next inp c p h t o n :
  bfvm_wf c -> rep inp c (Bf p h t o n) -> 0 <= p < 2^64 - 1 ->
  bfvm_wf (set_eip (u64 (eip c + 1)) c) /\
  rep inp (set_eip (u64 (eip c + 1)) c) (Bf (p + 1) h t o n).
Proof.
  intros Hc Hr Hp. split; [apply set_eip_wf; [done|apply u64_range]|].
  destruct Hr. constructor; simpl in *; try done. rewrite rep_pc0. apply u64_id. unfold is_u64. lia.
Qed.

(** What is left of a step once the instruction is known to succeed. *)
Lemma step_to inp fuel c c' p h t o n :
  bfvm_wf c -> bfvm_op read_at c <> 0 ->
  bfvm_exec read_at (S fuel) (bfvm_op read_at c) c = Some c' ->
  bfvm_wf c' -> rep inp c' (Bf p h t o n) -> 0 <= p < 2^64 - 1 ->
  exists out c2, bfvm_step read_at (S fuel) false c = Some (0, out, c2) /\
    bfvm_wf c2 /\ rep inp c2 (Bf (p + 1) h t o n).
Proof.
  intros Hc Hop He Hc' Hr Hp. destruct (bfvm_step_once fuel c c' Hc Hop He) as [out ->].
  destruct (rep_next inp c' p h t o n) as [? ?]; [done..|]. eauto.
Qed.

Lemma exec_poke inp c p h t o n :
  bfvm_wf c -> rep inp c (Bf p h t o n) -> in_bounds c (Bf p h t o n) ->
  exists c', bfvm_poke c = Some c' /\ bfvm_wf c' /\ rep inp c' (Bf p h t (o ++ [t h]) n).
Proof.
  intros Hc Hr Hb. unfold bfvm_poke. rewrite (rep_get inp c _ Hc Hr Hb). cbn [mbind option_bind].
  destruct Hb as (_ & _ & Hs & _). destruct Hc. rewrite put_idx_Some by lia. cbn [mbind option_bind].
  rewrite s32_id by lia. eexists. split; [done|]. split.
  - constructor; simpl; rewrite ?length_insert; try done. lia.
  - destruct Hr. constructor; simpl in *; try done.
    rewrite Z2Nat.inj_add by lia. replace (Z.to_nat (screen_idx c) + Z.to_nat 1)%nat
      with (S (Z.to_nat (screen_idx c))) by lia.
    erewrite take_S_r; [|apply list_lookup_insert_eq; lia].
    rewrite take_insert_ge by lia. by rewrite rep_out0.
Qed.

Lemma exec_peek inp c p h t o n :
  bfvm_wf c -> rep inp c (Bf p h t o n) -> in_bounds c (Bf p h t o n) ->
  exists c', bfvm_peek c = Some c' /\ bfvm_wf c' /\ rep inp c' (Bf p h (upd t h (inp n)) o (S n)).
Proof.
  intros Hc Hr Hb. unfold bfvm_peek.
  set (idx := if input_size c <=? input_idx c then 0 else input_idx c).
  assert (Hi : 0 <= idx < input_size c /\ idx = Z.of_nat n mod input_size c).
  { rewrite <-(rep_idx _ _ _ Hr : _ = Z.of_nat n mod _). destruct Hc. unfold idx. zcase; [|].
    - replace (input_idx c) with (input_size c) by lia. rewrite Z_mod_same_full. lia.
    - rewrite Z.mod_small; lia. }
  destruct Hi as [Hi Hidx]. rewrite Hidx, (rep_in _ _ _ Hr n), <-Hidx. cbn [mbind option_bind].
  destruct (rep_put inp c p h t o n (inp n) Hc Hr Hb) as (c' & -> & Hc' & Hr' & _ & Eb & Es & Ei).
  cbn [mbind option_bind]. eexists. split; [done|]. destruct Hc as [? ? ? ? ? ? ? Hsz ? ?].
  rewrite s32_id by lia. split.
  - destruct Hc'. constructor; simpl; rewrite ?Es in *; try done. lia.
  - destruct Hr'. constructor; simpl in *; try done. rewrite Es, Hidx.
    rewrite Zplus_mod_idemp_l. f_equal. lia.
Qed.

Lemma exec_jump inp fuel c p q h t o n :
  bfvm_wf c -> rep inp c (Bf p h t o n) -> in_bounds c (Bf p h t o n) ->
  op_at p = 93 -> t h <> 0 -> 0 <= q < p -> op_at q = 91 ->
  (forall k, q < k < p -> op_at k <> 91) -> p <= Z.of_nat fuel ->
  bfvm_exec read_at fuel 93 c = Some (set_eip q c).
Proof.
  intros Hc Hr Hb Hop Ht Hq Hopen Hno Hf. cbn -[back_to_open].
  rewrite (rep_get inp c _ Hc Hr Hb). cbn -[back_to_open]. unfold truth.
  destruct (Z.eqb_spec (t h) 0); [done|]. cbn -[back_to_open]. rewrite (rep_pc _ _ _ Hr). simpl.
  destruct Hb as (_ & _ & _ & Hp). simpl in Hp.
  rewrite (back_to_open_finds fuel q p); [done|lia..|done|done|lia].
Qed.

Lemma rep_set_eip inp c p q h t o n :
  rep inp c (Bf p h t o n) -> rep inp (set_eip q c) (Bf q h t o n).
Proof. by intros []. Qed.

Lemma rep_set_ptr inp c p h h' t o n :
  rep inp c (Bf p h t o n) -> rep inp (set_ptr h' c) (Bf p h' t o n).
Proof. by intros []. Qed.

Lemma bfvm_exec_simulates inp fuel c p h t o n s' :
  bfvm_wf c -> rep inp c (Bf p h t o n) -> in_bounds c (Bf p h t o n) ->
  dbg_step inp (Bf p h t o n) s' -> p <= Z.of_nat fuel ->
  op_at p <> 0 /\
  exists c' q, bfvm_exec read_at fuel (op_at p) c = Some c' /\ bfvm_wf c' /\
    rep inp c' (Bf q (b_head s') (b_tape s') (b_out s') (b_in s')) /\
    0 <= q < 2^64 - 1 /\ b_pc s' = q + 1.
Proof.
  intros Hc Hr Hb Hs Hf. pose proof Hb as (Hh & _ & _ & Hp). simpl in Hh, Hp.
  pose proof (wf_size _ Hc) as Hsz. 
  pose proof (rep_get inp c _ Hc Hr Hb) as Hg. simpl in Hg.
  inversion Hs as [????? Hop|????? Hop|????? Hop|????? Hop|????? Hop|????? Hop|????? Hop0 Hop|s0 q Hbr]; subst;
    [..|inversion Hbr as [? Hop|? Hop Hz|? ? Hop Hz (Hq & Hopen & Hno)]; subst]; unfold goto; cbn [b_pc b_head b_tape b_out b_in] in *;
    pose proof (rep_head _ _ _ Hr : ptr c = h) as Hptr; try (rewrite Hop; split; [done|]).
  - exists (set_ptr (s32 (ptr c + 1)) c), p. split_and!; [done|by apply set_ptr_wf| |lia..].
    rewrite Hptr, s32_id by lia. by eapply rep_set_ptr.
  - exists (set_ptr (s32 (ptr c - 1)) c), p. split_and!; [done|by apply set_ptr_wf| |lia..].
    rewrite Hptr, s32_id by lia. by eapply rep_set_ptr.
  - destruct (rep_put inp c p h t o n (u8 (t h + 1)) Hc Hr Hb) as (c' & E & ? & ? & _).
    exists c', p. split_and!; [|done|done|lia..]. cbn. unfold bfvm_inc. by rewrite Hg.
  - destruct (rep_put inp c p h t o n (u8 (t h - 1)) Hc Hr Hb) as (c' & E & ? & ? & _).
    exists c', p. split_and!; [|done|done|lia..]. cbn. unfold bfvm_dec. by rewrite Hg.
  - destruct (exec_poke inp c p h t o n Hc Hr Hb) as (c' & ? & ? & ?). by exists c', p.
  - destruct (exec_peek inp c p h t o n Hc Hr Hb) as (c' & ? & ? & ?). by exists c', p.
  - split; [done|]. exists c, p. split_and!; [|done|done|lia..].
    rewrite !not_elem_of_cons in Hop. unfold bfvm_exec.
    repeat match goal with |- context [?a =? ?b] => destruct (Z.eqb_spec a b); [intuition lia|] end.
    done.
  - by exists c, p.
  - exists c, p. split_and!; [|done|done|lia..]. cbn. rewrite Hg. cbn. by rewrite Hz.
  - exists (set_eip q c), q. split_and!; [by eapply exec_jump| |by eapply rep_set_eip|lia..].
    apply set_eip_wf; [done|unfold is_u64; lia].
Qed.

(** *** Repeated instructions *)

Lemma bf_run_spec n i buf j b0 l :
  buf = b0 :: l -> bf_run n i buf = Some j ->
  0 <= j - i <= Z.of_nat n /\
  (forall k, 0 <= k <= j - i -> buf !! Z.to_nat k = Some b0) /\
  (j - i < Z.of_nat n -> exists b, buf !! Z.to_nat (j - i + 1) = Some b /\ b <> b0).
Proof.
  revert i buf b0 l. induction n as [|n IH]; intros i buf b0 l -> H.
  - destruct l as [|b1 l]; simpl in H; [done|]. destruct (b0 =? b1); injection H as <-.
    all: split; [lia|]; split; [intros k Hk; by replace k with 0 by lia|lia].
  - destruct l as [|b1 l]; cbn [bf_run] in H; [done|]. destruct (Z.eqb_spec b0 b1) as [<-|Hne].
    + cbn [tail] in H. destruct (IH (i + 1) (b0 :: l) b0 l eq_refl H) as (Hj & Hk & Hend).
      split; [lia|]. split.
      * intros k Hkk. destruct (decide (k = 0)) as [->|]; [done|].
        replace (Z.to_nat k) with (S (Z.to_nat (k - 1))) by lia. apply Hk. lia.
      * intros Hlt. destruct Hend as (b & Hb & ?); [lia|]. exists b. split; [|done].
        replace (Z.to_nat (j - i + 1)) with (S (Z.to_nat (j - (i + 1) + 1))) by lia. done.
    + injection H as <-. split; [lia|]. split; [intros k Hk; by replace k with 0 by lia|].
      intros _. exists b1. by replace (i - i + 1) with 1 by lia.
Qed.

(** One turn of the loop of [bfvm_step] on a ['+']. *)
Lemma bfvm_inc_turn fuel c v out :
  bfvm_wf c -> trace c = false -> bfvm_get c = Some v -> eip c + 1 < 2^64 ->
  exists out' c', bfvm_step_loop read_at (S fuel) true 43 out c =
      (if 43 =? bfvm_op read_at c' then bfvm_step_loop read_at fuel true 43 out' c'
       else Some (0, out', c')) /\
    bfvm_wf c' /\ trace c' = false /\ bfvm_get c' = Some (u8 (v + 1)) /\ eip c' = eip c + 1.
Proof.
  intros Hc Ht Hg He. pose proof (bfvm_get_ptr_bounds c Hc) as Hpb. pose proof (wf_mem _ Hc) as Hm.
  pose proof (wf_eip _ Hc) as [He0 _].
  set (c1 := set_mem (<[Z.to_nat (bfvm_get_ptr c) := u8 (v + 1)]> (mem c)) c).
  eexists _, (set_eip (u64 (eip c + 1)) c1). split.
  - cbn [bfvm_step_loop]. rewrite Ht. cbn -[bfvm_op u64 bfvm_inc u8 bfvm_step_loop].
    unfold bfvm_inc. rewrite Hg. cbn -[bfvm_op u64 bfvm_put u8 bfvm_step_loop].
    rewrite bfvm_put_Some by done. cbn -[bfvm_op u64 u8 bfvm_step_loop]. done.
  - split_and!.
    + apply set_eip_wf; [apply set_mem_wf; [done|apply length_insert]|apply u64_range].
    + done.
    + unfold bfvm_get. rewrite set_eip_ptr. change (bfvm_get_ptr c1) with (bfvm_get_ptr c). simpl.
      rewrite at_idx_insert, Z.eqb_refl by lia. done.
    + simpl. apply u64_id. unfold is_u64. lia.
Qed.

(** [n+1] increments under [stepo], the trace being off. *)
Lemma bfvm_stepo_inc n fuel c v out :
  bfvm_wf c -> trace c = false -> bfvm_get c = Some v -> eip c + Z.of_nat n + 1 < 2^64 ->
  (forall k, 0 <= k <= Z.of_nat n -> op_at (eip c + k) = 43) ->
  op_at (eip c + Z.of_nat n + 1) <> 43 -> (n < fuel)%nat ->
  exists out' c', bfvm_step_loop read_at fuel true 43 out c = Some (0, out', c') /\
    eip c' = eip c + Z.of_nat n + 1 /\ bfvm_get c' = Some (u8 (v + Z.of_nat n + 1)).
Proof.
  revert fuel c v out. induction n as [|n IH]; intros fuel c v out Hc Ht Hg Hmax Hrun Hend Hf;
    (destruct fuel as [|fuel]; [lia|]);
    destruct (bfvm_inc_turn fuel c v out Hc Ht Hg) as (out1 & c1 & -> & Hc1 & Ht1 & Hg1 & He1); try lia;
    unfold bfvm_op; rewrite He1.
  - replace (eip c + Z.of_nat 0 + 1) with (eip c + 1) in * by lia.
    destruct (Z.eqb_spec 43 (op_at (eip c + 1))) as [Heq|]; [by rewrite <-Heq in Hend|].
    exists out1, c1. split_and!; [done|lia|]. rewrite Hg1. do 2 f_equal. lia.
  - rewrite Hrun, Z.eqb_refl by lia.
    destruct (IH fuel c1 (u8 (v + 1)) out1) as (out2 & c2 & -> & He2 & Hg2); [done..|lia| | |lia|].
    + intros k Hk. rewrite He1. replace (eip c + 1 + k) with (eip c + (k + 1)) by lia. apply Hrun. lia.
    + rewrite He1. by replace (eip c + 1 + Z.of_nat n + 1) with (eip c + Z.of_nat (S n) + 1) by lia.
    + exists out2, c2. split_and!; [done|lia|]. rewrite Hg2. f_equal. unfold u8.
      rewrite <-!Z.add_assoc, Zplus_mod_idemp_l. f_equal. lia.
Qed.

(** *** Properties *)

(** C13: where a brainfuck program makes a step, the debugger's step makes the same one, except at a ['['] on a zero cell,
    whose loop it does not pass but enters, and at the [']'] of a loop with another ['['] in it on a cell that is not zero,
    from where it goes behind the nearest ['['] below instead of the matching one.  The head is on a cell of the memory, the
    screen buffer has room and the search for a ['['] has as many turns as there are bytes below it. *)
Theorem bfvm_step_simulates inp fuel c s s' :
  bfvm_wf c -> rep inp c s -> in_bounds c s -> bf_step inp s s' -> b_pc s < Z.of_nat fuel ->
  exists out c' s1, bfvm_step read_at fuel false c = Some (0, out, c') /\ bfvm_wf c' /\ rep inp c' s1 /\
    (s1 = s' \/ strays s s1).
Proof.
  intros Hc Hr Hb Hs0 Hf. destruct (bf_step_debugged inp s s') as (s1 & Hs & Hs1); [by apply Hb|done|]. clear Hs0.
  destruct s as [p h t o n], fuel as [|fuel].
  { destruct Hb as (_ & _ & _ & ?). simpl in *. lia. }
  destruct (bfvm_exec_simulates inp (S fuel) c p h t o n s1 Hc Hr Hb Hs)
    as (Hop & c' & q & He & Hc' & Hr' & Hq & Hpc); [simpl in *; lia|].
  pose proof (rep_pc _ _ _ Hr : eip c = p) as Hpc0. rewrite <-Hpc0 in Hop, He.
  destruct (step_to inp fuel c c' q _ _ _ _ Hc Hop He Hc' Hr' Hq) as (out & c2 & -> & ? & Hr2).
  exists out, c2, s1. split_and!; [done..| |done]. destruct s1; simpl in *. by subst.
Qed.

(** The length [arch_bf_aop] gives a run of ['+'] is what [stepo] executes: [eip] advances
    by that length and the cell grows by it, modulo 256; runs of more than 257 are cut. *)
Theorem bf_stepo_runs_aop fuel c v buf last_loop a ll :
  bfvm_wf c -> trace c = false -> bfvm_get c = Some v -> head buf = Some 43 ->
  (forall k b, buf !! Z.to_nat k = Some b -> 0 <= k -> op_at (eip c + k) = b) ->
  arch_bf_aop (eip c) buf last_loop = Some (a, ll) -> a_length a < 257 ->
  eip c + a_length a < 2^64 -> a_length a <= Z.of_nat fuel ->
  exists out c', bfvm_step read_at fuel true c = Some (0, out, c') /\
    eip c' = eip c + a_length a /\ bfvm_get c' = Some (u8 (v + a_length a)).
Proof.
  intros Hc Ht Hg Hhd Hcode Haop Hlen Hmax Hf. destruct buf as [|b0 l]; [done|].
  injection Hhd as ->. unfold arch_bf_aop in Haop. cbn -[bf_run] in Haop.
  destruct (bf_run 256 0 (43 :: l)) as [j|] eqn:E; [|done]. cbn -[bf_run] in Haop.
  injection Haop as <- <-. simpl in Hlen, Hmax, Hf |- *.
  destruct (bf_run_spec 256 0 _ j 43 l eq_refl E) as (Hj & Hrun & Hend).
  assert (Hl : (if j <? 1 then 1 else j + 1) = j + 1) by (zcase; lia). rewrite Hl in *.
  unfold bfvm_step. replace (bfvm_op read_at c) with 43.
  2:{ unfold bfvm_op. rewrite <-(Hcode 0 43); [f_equal; lia|done|lia]. }
  destruct Hend as (b & Hb & Hne); [lia|]. rewrite !Z.sub_0_r in *.
  destruct (bfvm_stepo_inc (Z.to_nat j) fuel c v "" Hc Ht Hg) as (out & c' & -> & He & Hv); [lia| | |lia|].
  - intros k Hk. apply Hcode; [apply Hrun; lia|lia].
  - rewrite Z2Nat.id by lia. rewrite <-Z.add_assoc, (Hcode (j + 1) b); [done|done|lia].
  - exists out, c'. split_and!; [done|lia|]. rewrite Hv. do 2 f_equal. lia.
Qed.
End steps.

(** The machine after [bfvm_init] represents the empty tape. *)
Lemma bfvm_init_rep sz circ :
  0 < sz < 2^31 -> rep (fun _ => 0) (bfvm_init sz circ) (Bf 0 0 (fun _ => 0) [] 0%nat).
Proof.
  intros Hs. unfold bfvm_init.
  constructor; cbn [eip ptr mem size screen_idx screen_buf input_buf input_size input_idx b_pc b_head
    b_tape b_out b_in]; try done.
  - intros x Hx. rewrite at_idx_lookup by lia. apply lookup_replicate_2. lia.
  - intros n. pose proof (Z.mod_pos_bound (Z.of_nat n) 4096 ltac:(lia)).
    rewrite at_idx_lookup by lia. apply lookup_replicate_2. lia.
Qed.

(** A program as the bytes of a file. *)
Definition bytes_read_at (code : list Z) (a : Z) (n : nat) : option (list Z) :=
  Some (take n (drop (Z.to_nat a) code)).

Lemma bfvm_step_simulates_witness :
  exists out c', bfvm_step (bytes_read_at [43; 43; 46]) 8 false (bfvm_init 16 true) = Some (0, out, c') /\
    bfvm_wf c' /\ rep (fun _ => 0) c' (Bf 1 0 (upd (fun _ => 0) 0 1) [] 0%nat).
Proof.
  destruct (bfvm_step_simulates (bytes_read_at [43; 43; 46]) (fun _ => 0) 8 (bfvm_init 16 true)
    (Bf 0 0 (fun _ => 0) [] 0%nat) (Bf 1 0 (upd (fun _ => 0) 0 1) [] 0%nat)) as (out & c' & s1 & E & Hw & Hr & [->|Hst]);
    [by apply bfvm_init_wf|by apply bfvm_init_rep|repeat split; cbn; lia
    |apply (bf_inc (bytes_read_at [43; 43; 46]) (fun _ => 0) _ 0 0 (fun _ => 0) [] 0%nat); done|done| |].
  - by exists out, c'.
  - destruct Hst as [(? & _)|(? & _)]; discriminate.
Defined.

(** On a zero cell the loop is entered, and the program [[+]] goes on with the [+]. *)
Example loop_is_not_passed : let rd := bytes_read_at [91; 43; 93] in
  bf_step rd (fun _ => 0) (Bf 0 0 (fun _ => 0) [] 0%nat) (Bf 3 0 (fun _ => 0) [] 0%nat) /\
  exists out c', bfvm_step rd 8 false (bfvm_init 16 true) = Some (0, out, c') /\ eip c' = 1.
Proof.
  split.
  - apply (bf_bracket _ _ _ (Bf 0 0 (fun _ => 0) [] 0%nat) 2). apply bracket_pass; [reflexivity|reflexivity|].
    split; [reflexivity|]. split; [reflexivity|]. by apply bal_other; [..|apply bal_nil].
  - do 2 eexists. split; [vm_compute; reflexivity|reflexivity].
Qed.

Lemma bf_stepo_runs_aop_witness :
  exists out c', bfvm_step (bytes_read_at [43; 43; 46]) 8 true (bfvm_init 16 true) = Some (0, out, c') /\
    eip c' = 2 /\ bfvm_get c' = Some 2.
Proof.
  apply (bf_stepo_runs_aop (bytes_read_at [43; 43; 46]) 8 (bfvm_init 16 true) 0 [43; 43; 46] 0
    (set_length 2 (set_type AOP_TYPE_UNK aop_zero)) 0); try done.
  intros k b Hk Hp. unfold bfvm_op_at, bytes_read_at. cbn [eip bfvm_init]. rewrite Z.add_0_l.
  destruct (Z.to_nat k) as [|[|[|n]]]; simpl in *; simplify_eq; done.
Defined.
