(* ===== verification/Binparse.v ===== *)
(** * The token searcher: [src/binparse.c], [src/binparse.h]

    A keyword is parsed into tokens (a byte with a mask, or a range of bytes); the searcher is
    fed one byte at a time and keeps, per keyword, the number of tokens already matched.
    Characters are bytes in [Z]; an access outside an array and a value the C library leaves
    unassigned have no result. *)
From S2P Require Import Prelude.

Record token := Token { mintok : Z; range : Z; mask : Z }.

Record tokenlist := Tokenlist {
  tl : list token; numtok : Z; name : string; actp : list Z; estat : Z }.

Definition tokenizer := list tokenlist.

(** ** Keywords *)

Definition hex_val (c : Z) : option Z :=
  if (48 <=? c) && (c <=? 57) then Some (c - 48)
  else if (97 <=? c) && (c <=? 102) then Some (c - 87)
  else if (65 <=? c) && (c <=? 70) then Some (c - 55)
  else None.

Fixpoint hex_digits_val (acc : Z) (s : list Z) : Z :=
  match s with
  | c :: s' => match hex_val c with Some v => hex_digits_val (acc * 16 + v) s' | None => acc end
  | [] => acc
  end.

(** The number of [sscanf(s, "%x", &v)] behind blanks and sign; [None]: nothing is assigned. *)
Definition scan_hex (s : list Z) : option Z :=
  match s with
  | 48 :: x :: s' =>
    if (x =? 120) || (x =? 88) then
      match s' with
      | c :: _ => match hex_val c with Some _ => Some (hex_digits_val 0 s') | None => None end
      | [] => None
      end
    else Some (hex_digits_val 0 s)
  | c :: _ => match hex_val c with Some _ => Some (hex_digits_val 0 s) | None => None end
  | [] => None
  end.

Definition is_space (c : Z) : bool := (c =? 32) || ((9 <=? c) && (c <=? 13)).

Fixpoint skip_blanks (s : list Z) : list Z :=
  match s with c :: s' => if is_space c then skip_blanks s' else s | [] => [] end.

Definition sscanf_x (s : list Z) : option Z :=
  match skip_blanks s with
  | 43 :: s' => scan_hex s'
  | 45 :: s' => v ← scan_hex s'; Some (- v)
  | s' => scan_hex s'
  end.

(** [tolower] in the C locale. *)
Definition tolower (c : Z) : Z := if (65 <=? c) && (c <=? 90) then c + 32 else c.

Section parse.
(** [search_nocase], and the bytes that happen to follow the [len] bytes of [strp], which the
    source allocates but does not terminate. *)
Context (search_nocase : bool) (heap : list Z).

Definition get_num (str : list Z) (len : Z) : option Z :=
  if len <? 1 then Some 0
  else
    match take (Z.to_nat len) str with
    | 92 :: s => v ← sscanf_x (48 :: s ++ heap); Some (Z.land v 0xFF)
    | c :: _ => Some (Z.land c 0xFF)
    | [] => None
    end.

(** The index of the first ['-'], or [len]. *)
Fixpoint find_dash (len : nat) (str : list Z) : Z :=
  match len, str with
  | S len', c :: s => if c =? 45 then 0 else 1 + find_dash len' s
  | _, _ => 0
  end.

Definition get_range (str : list Z) (len : Z) : option (Z * Z) :=
  let g := find_dash (Z.to_nat len) str in
  mn ← get_num str g;
  mx ← get_num (drop (Z.to_nat (g + 1)) str) (len - g - 1);
  Some (mx - mn, mn).

(** The variables of [tok_parse]; [toks] holds the tokens written so far, [mask] unset. *)
Record parse_st := ParseSt { p_estat : Z; p_toks : list token; p_aux : Z; p_rangemin : Z }.

Definition tok_case (c : Z) : Z := if search_nocase then tolower c else c.

(** The first [switch]: the next state and [rangemin]. *)
Definition tok_switch (i c e rangemin : Z) : Z * Z :=
  if c =? 92 then
    (if negb (e =? 1) && ((e <? 10) || (22 <? e)) then (1, rangemin) else (e + 1, rangemin))
  else if c =? 91 then
    (if negb (e =? 1) && negb (e =? 10) then (10, i + 1) else (e + 1, rangemin))
  else (if negb (e =? 0) then (e + 1, rangemin) else (e, rangemin)).

(** One turn of the loop at position [i] of [str]. *)
Definition tok_turn (str : list Z) (i c : Z) (s : parse_st) : option parse_st :=
  let '(e, rangemin) := tok_switch i c (p_estat s) (p_rangemin s) in
  let push b r e := Some (ParseSt e (p_toks s ++ [Token b r 0]) (p_aux s) rangemin) in
  if e =? 0 then push (tok_case c) 0 0
  else if e =? 2 then
    if c =? 120 then Some (ParseSt e (p_toks s) (p_aux s) rangemin) else push (tok_case c) 0 0
  else if e =? 3 then Some (ParseSt e (p_toks s) c rangemin)
  else if e =? 4 then v ← sscanf_x [48; 120; p_aux s; c]; push (u8 v) 0 0
  else if (11 <=? e) && (e <=? 22) then
    if c =? 93 then
      let rangemax := i - 1 in
      r ← get_range (drop (Z.to_nat rangemin) str) (rangemax - rangemin + 1);
      push r.2 (u8 r.1) 0
    else Some (ParseSt e (p_toks s) (p_aux s) rangemin)
  else Some (ParseSt e (p_toks s) (p_aux s) rangemin).

Fixpoint tok_loop (str : list Z) (i : Z) (rest : list Z) (s : parse_st) : option parse_st :=
  match rest with
  | [] => Some s
  | c :: rest' => s ← tok_turn str i c s; tok_loop str (i + 1) rest' s
  end.

Definition tok_parse (str : list Z) : option (list token) :=
  s ← tok_loop str 0 str (ParseSt 0 [] 0 0); Some (p_toks s).
End parse.

(** *** Masks *)

(** [maskout] has room for 300 bytes. *)
Fixpoint mask_loop (num : list Z) (maskout : list Z) (s : list Z) : option (list Z) :=
  match s with
  | [] => Some maskout
  | c :: s' =>
    let num := if c =? 32 then num else num ++ [c] in
    match num with
    | [a; b] =>
      if bool_decide (300 <= length maskout)%nat then None
      else v ← sscanf_x [a; b]; mask_loop [] (maskout ++ [u8 v]) s'
    | _ => mask_loop num maskout s'
    end
  end.
Definition binparse_get_mask_list (m : list Z) : option (list Z) := mask_loop [] [] m.

Definition set_mask (m : Z) (t : token) : token := Token (mintok t) (range t) m.

Fixpoint apply_mask_loop (maskout : list Z) (i : nat) (ts : list token) : list token :=
  match ts with
  | [] => []
  | t :: ts' =>
    set_mask (default 0 (maskout !! (i mod length maskout)%nat)) t :: apply_mask_loop maskout (S i) ts'
  end.
Definition binparse_apply_mask (maskout : list Z) (ts : list token) : list token :=
  if bool_decide (0 < length maskout)%nat then apply_mask_loop maskout 0 ts else ts.

Definition bytes_of (s : string) : list Z := (fun c => ord c) <$> String.list_ascii_of_string s.

Definition binparse_token_mask (nocase : bool) (heap : list Z) (nm : string) (tok : list Z)
    (m : option (list Z)) : option tokenlist :=
  ts ← tok_parse nocase heap tok;
  mo ← binparse_get_mask_list (default (bytes_of "ff") m);
  Some (Tokenlist (binparse_apply_mask mo ts) (Z.of_nat (length ts)) nm (replicate 300 0) 0).

(** The number of the new keyword, and the table with it. *)
Definition binparse_add (nocase : bool) (heap : list Z) (t : tokenizer) (str m : option (list Z))
    : option (Z * tokenizer) :=
  let n := Z.of_nat (length t) in
  match str with
  | None => Some (n, t)
  | Some s =>
    l ← binparse_token_mask nocase heap ("SEARCH[" ++ fmt_d n ++ "]")%string s m;
    Some (n, t ++ [l])
  end.

Definition set_name (nm : string) (l : tokenlist) : tokenlist :=
  Tokenlist (tl l) (numtok l) nm (actp l) (estat l).

(** [strncpy(t->tls[ret]->name, name, 200)]: the first 200 characters. *)
Definition binparse_add_name (nocase : bool) (heap : list Z) (t : tokenizer) (nm : string)
    (str m : option (list Z)) : option (Z * tokenizer) :=
  r ← binparse_add nocase heap t str m;
  let '(ret, t) := r in
  l ← t !! Z.to_nat ret;
  Some (ret, <[Z.to_nat ret := set_name (String.substring 0 200 nm) l]> t).

(** The keyword [binparse_new_from_simple_file] makes of the hexadecimal text behind the first
    space of a line: ["\x"] before every pair of characters.  With an odd number of them the
    source writes behind the [2 * len + 1] bytes it allocates. *)
Fixpoint simple_escape (s : list Z) : option (list Z) :=
  match s with
  | a :: b :: s' => r ← simple_escape s'; Some (92 :: 120 :: a :: b :: r)
  | [_] => None
  | [] => Some []
  end.

Definition simple_line (nocase : bool) (heap : list Z) (t : tokenizer) (line : string) : option tokenizer :=
  match strchr line " " with
  | None => Some t
  | Some p =>
    let nm := String.substring 0 (String.length line - String.length p) line in
    foo ← simple_escape (bytes_of (str_drop 1 p));
    r ← binparse_add_name nocase heap t nm (Some foo) None;
    Some r.2
  end.

(** ** The scan *)

Definition set_scan (a : list Z) (e : Z) (l : tokenlist) : tokenlist :=
  Tokenlist (tl l) (numtok l) (name l) a e.

Definition at_z {A} (l : list A) (i : Z) : option A := if i <? 0 then None else l !! Z.to_nat i.
Definition put_z (l : list Z) (i v : Z) : option (list Z) :=
  if (i <? 0) || (Z.of_nat (length l) <=? i) then None else Some (<[Z.to_nat i := v]> l).

(** The byte meets the token that the state points at, or the keyword starts over. *)
Definition update_one (inchar : Z) (l : tokenlist) : option tokenlist :=
  t0 ← at_z (tl l) (estat l);
  let cmin := mintok t0 in
  let j := estat l in
  let e := if numtok l <? j then 0 else j in
  tj ← at_z (tl l) j;
  te ← at_z (tl l) e;
  let hit :=
    if 0 <? range tj then
      let cmax := u8 (cmin + range te) in (cmin <=? inchar) && (inchar <=? cmax)
    else Z.land inchar (mask te) =? Z.land cmin (mask te) in
  if hit then a ← put_z (actp l) e inchar; Some (set_scan a (e + 1) l)
  else Some (set_scan (actp l) 0 l).

(** The two writes of a hit. *)
Definition close_actp (l : tokenlist) : option (list Z) :=
  a ← put_z (actp l) (estat l + 1) 0; put_z a 0 0.

(** [callback] answers for the keyword's number and the address of the hit. *)
Section scan.
Context (search_nocase : bool) (callback : option (nat -> Z -> bool)).

(** The loop over the keywords from number [i] on: the keywords, the hits reported and whether
    the function returned from inside the loop. *)
Fixpoint update_loop (inchar wh : Z) (i : nat) (t : tokenizer)
    : option (tokenizer * list (nat * Z) * bool) :=
  match t with
  | [] => Some ([], [], false)
  | l :: t' =>
    l ← update_one inchar l;
    if estat l =? numtok l then
      a ← close_actp l;
      let w := u64 (wh - (numtok l - 1)) in
      match callback with
      | Some f =>
        if f i w then
          r ← update_loop inchar wh (S i) t';
          let '(t', hs, re) := r in Some (set_scan a 0 l :: t', (i, w) :: hs, re)
        else Some (set_scan a (estat l) l :: t', [(i, w)], true)
      | None =>
        r ← update_loop inchar wh (S i) t';
        let '(t', hs, re) := r in Some (set_scan a 0 l :: t', hs, re)
      end
    else
      r ← update_loop inchar wh (S i) t';
      let '(t', hs, re) := r in Some (l :: t', hs, re)
  end.

Definition update_tlist (t : tokenizer) (inchar wh : Z) : option (tokenizer * list (nat * Z) * Z) :=
  match t with
  | [] => Some ([], [], -1)
  | _ =>
    r ← update_loop (if search_nocase then tolower inchar else inchar) wh 0 t;
    let '(t, hs, re) := r in Some (t, hs, if re : bool then 1 else 0)
  end.

(** The loop of [tokenize] on the bytes that [read] delivers; the position is an [int]. *)
Fixpoint tokenize_loop (t : tokenizer) (bytes : list Z) (wh : Z) : option (tokenizer * list (nat * Z)) :=
  match bytes with
  | [] => Some (t, [])
  | ch :: bytes' =>
    r ← update_tlist t ch (u64 wh);
    let '(t, hs, ret) := r in
    if ret =? -1 then Some (t, hs)
    else r ← tokenize_loop t bytes' (s32 (wh + 1)); Some (r.1, hs ++ r.2)
  end.

(** [pos]: where [lseek] says the file is. *)
Definition tokenize (t : tokenizer) (bytes : list Z) (pos : Z) : option (tokenizer * list (nat * Z)) :=
  tokenize_loop t bytes (s32 pos).
End scan.

(** ** What a keyword matches *)
Definition tok_ok (t : token) (b : Z) : bool :=
  if 0 <? range t then (mintok t <=? b) && (b <=? u8 (mintok t + range t))
  else Z.land b (mask t) =? Z.land (mintok t) (mask t).

Definition matches (ts : list token) (bs : list Z) : Prop :=
  Forall2 (fun t b => tok_ok t b = true) ts bs.

(** A keyword that fits the fixed buffer [actp], in a state the scan leaves it in. *)
Record list_wf (l : tokenlist) : Prop := {
  wf_numtok : numtok l = Z.of_nat (length (tl l));
  wf_size : 0 < numtok l < 299;
  wf_actp : length (actp l) = 300%nat;
  wf_estat : 0 <= estat l < numtok l }.

Lemma at_z_Some {A} (l : list A) i :
  0 <= i < Z.of_nat (length l) -> exists x, at_z l i = Some x /\ l !! Z.to_nat i = Some x.
Proof.
  intros Hi. unfold at_z. destruct (Z.ltb_spec i 0); [lia|].
  destruct (lookup_lt_is_Some_2 l (Z.to_nat i)) as [x Hx]; [lia|eauto].
Qed.

Lemma put_z_Some l i v :
  0 <= i < Z.of_nat (length l) -> put_z l i v = Some (<[Z.to_nat i := v]> l).
Proof.
  intros. unfold put_z. destruct (Z.ltb_spec i 0); [lia|].
  destruct (Z.leb_spec (Z.of_nat (length l)) i); [lia|done].
Qed.

(** One byte, one keyword: the state moves to the next token or back to the first. *)
Lemma update_one_spec l b :
  list_wf l ->
  exists t a, tl l !! Z.to_nat (estat l) = Some t /\ length a = 300%nat /\
    update_one b l = Some (set_scan a (if tok_ok t b then estat l + 1 else 0) l).
Proof.
  intros [Hn Hs Ha He]. destruct (at_z_Some (tl l) (estat l)) as (t & Ht & Ht'); [lia|].
  unfold update_one. rewrite Ht. cbn [mbind option_bind].
  destruct (Z.ltb_spec (numtok l) (estat l)); [lia|]. rewrite Ht. cbn [mbind option_bind].
  fold (tok_ok t b). rewrite put_z_Some by lia. exists t.
  destruct (tok_ok t b); simpl.
  - exists (<[Z.to_nat (estat l) := b]> (actp l)). by rewrite length_insert.
  - by exists (actp l).
Qed.

Lemma close_actp_Some l :
  length (actp l) = 300%nat -> -1 <= estat l < 299 ->
  exists a, close_actp l = Some a /\ length a = 300%nat.
Proof.
  intros Ha He. unfold close_actp. rewrite put_z_Some by lia. cbn [mbind option_bind].
  rewrite put_z_Some by (rewrite length_insert; lia). eexists. split; [done|].
  by rewrite !length_insert.
Qed.

(** *** Soundness *)

(** The bytes fed last are the ones the keyword has matched. *)
Definition matched (past : list Z) (l : tokenlist) : Prop :=
  exists pre suf, past = pre ++ suf /\ matches (take (Z.to_nat (estat l)) (tl l)) suf.

Definition scan_inv (past : list Z) (l : tokenlist) : Prop := list_wf l /\ matched past l.

(** [w] is the address of a match of [l] that ends with the last byte of [past]. *)
Definition hit_ok (wh : Z) (past : list Z) (l : tokenlist) (w : Z) : Prop :=
  exists pre suf, past = pre ++ suf /\ matches (tl l) suf /\ w = u64 (wh - (Z.of_nat (length suf) - 1)).

Lemma matched_step past l b t a :
  list_wf l -> matched past l -> tl l !! Z.to_nat (estat l) = Some t -> tok_ok t b = true ->
  matched (past ++ [b]) (set_scan a (estat l + 1) l).
Proof.
  intros Hw (pre & suf & -> & Hm) Ht Hb. exists pre, (suf ++ [b]). split; [by rewrite app_assoc|].
  simpl. destruct (wf_estat _ Hw). replace (Z.to_nat (estat l + 1)) with (S (Z.to_nat (estat l))) by lia.
  rewrite (take_S_r _ _ _ Ht). apply Forall2_app; [done|]. by repeat constructor.
Qed.

Lemma matched_idle past l a : matched past (set_scan a 0 l).
Proof. exists past, []. rewrite app_nil_r. split; [done|constructor]. Qed.

(** What one keyword is after a byte, and the hit it may report. *)
Lemma update_one_inv past l b wh :
  scan_inv past l ->
  exists l1, update_one b l = Some l1 /\ tl l1 = tl l /\ numtok l1 = numtok l /\
    if estat l1 =? numtok l1 then
      exists a, close_actp l1 = Some a /\ scan_inv (past ++ [b]) (set_scan a 0 l1) /\
        hit_ok wh (past ++ [b]) l (u64 (wh - (numtok l1 - 1)))
    else scan_inv (past ++ [b]) l1.
Proof.
  intros [Hw Hm]. destruct (update_one_spec l b Hw) as (t & a & Ht & Ha & ->).
  eexists. split; [done|]. split; [done|]. split; [done|]. simpl. pose proof Hw as [Hn Hs _ He].
  destruct (tok_ok t b) eqn:Hb.
  - destruct (Z.eqb_spec (estat l + 1) (numtok l)) as [Heq|].
    + destruct (close_actp_Some (set_scan a (estat l + 1) l)) as (a' & -> & Ha'); [done|simpl; lia|].
      exists a'. split; [done|]. split; [split; [by constructor; simpl; try lia|apply matched_idle]|].
      destruct (matched_step past l b t a Hw Hm Ht Hb) as (pre & suf & E & H). simpl in H.
      rewrite take_ge in H by lia. exists pre, suf. split_and!; [done..|].
      rewrite Hn. apply Forall2_length in H. by rewrite H.
    + split; [constructor; simpl; try done; lia|]. by apply (matched_step past l b t).
  - destruct (Z.eqb_spec 0 (numtok l)); [lia|].
    split; [constructor; simpl; try done; lia|apply matched_idle].
Qed.

(** The loop returns from inside at the first hit the callback does not ask to go on after; otherwise all keywords keep
    their invariant. *)
Lemma update_loop_sound f past b wh i t :
  Forall (scan_inv past) t ->
  exists t' hs re, update_loop (Some f) b wh i t = Some (t', hs, re) /\
    (if re : bool then exists k w, last hs = Some (k, w) /\ f k w = false
     else Forall (scan_inv (past ++ [b])) t' /\ length t' = length t /\
       forall k l', t' !! k = Some l' -> exists l, t !! k = Some l /\ tl l' = tl l) /\
    forall k w, (k, w) ∈ hs -> exists l, (i <= k)%nat /\ t !! (k - i)%nat = Some l /\ hit_ok wh (past ++ [b]) l w.
Proof.
  revert i. induction t as [|l t IH]; intros i Ht.
  { exists [], [], false. split_and!; try done. intros k w Hk. by apply elem_of_nil in Hk. }
  apply Forall_cons in Ht as [Hl Ht]. destruct (IH (S i) Ht) as (t' & hs & re & E & Hre & Hhs).
  destruct (update_one_inv past l b wh Hl) as (l1 & E1 & Htl1 & Hn1 & H1).
  assert (Hrest : forall k w, (k, w) ∈ hs ->
    exists l0, (i <= k)%nat /\ (l :: t) !! (k - i)%nat = Some l0 /\ hit_ok wh (past ++ [b]) l0 w).
  { intros k w Hk. destruct (Hhs k w Hk) as (l0 & Hik & Hl0 & ?). exists l0.
    split; [lia|]. split; [|done]. by replace (k - i)%nat with (S (k - S i)) by lia. }
  assert (Hmore : forall l', scan_inv (past ++ [b]) l' -> tl l' = tl l -> re = false ->
    Forall (scan_inv (past ++ [b])) (l' :: t') /\ length (l' :: t') = length (l :: t) /\
    forall k l0, (l' :: t') !! k = Some l0 -> exists l1, (l :: t) !! k = Some l1 /\ tl l0 = tl l1).
  { intros l' Hl' Htl' ->. destruct Hre as (Hinv & Hlen & Htl). split; [by constructor|]. split; [simpl; lia|].
    intros [|k] l0 Hk; simpl in *; [|eauto]. injection Hk as <-. eauto. }
  cbn [update_loop]. rewrite E1. cbn [mbind option_bind].
  destruct (estat l1 =? numtok l1).
  - destruct H1 as (a & -> & Hinv1 & Hhit). cbn [mbind option_bind]. set (w0 := u64 (wh - (numtok l1 - 1))) in *.
    assert (Hhits : forall k w, (k, w) ∈ (i, w0) :: hs ->
      exists l0, (i <= k)%nat /\ (l :: t) !! (k - i)%nat = Some l0 /\ hit_ok wh (past ++ [b]) l0 w).
    { intros k w [[= -> ->]|Hk]%elem_of_cons; [|auto]. exists l. rewrite Nat.sub_diag. eauto. }
    destruct (f i w0) eqn:Ef.
    + rewrite E. cbn [mbind option_bind]. eexists _, _, re. split; [done|]. split; [|done].
      destruct re; [|by apply Hmore]. destruct Hre as (k & w & Hla & Hfw). exists k, w. split; [|done].
      destruct hs; [done|exact Hla].
    + eexists _, _, true. split; [done|]. split; [by exists i, w0|]. intros k w ->%list_elem_of_singleton || intros k w Hk.
      apply Hhits. apply elem_of_cons in Hk as [->|[]%not_elem_of_nil]. by left.
  - rewrite E. cbn [mbind option_bind]. eexists _, _, re. split; [done|]. split; [|done].
    destruct re; [done|by apply Hmore].
Qed.

(** [w] is the address at which [l] occurs in [bytes], the first byte being at [wh]: the position of its last byte is
    counted in an [int]. *)
Definition occurs (wh : Z) (bytes : list Z) (l : tokenlist) (w : Z) : Prop :=
  exists pre suf post, bytes = pre ++ suf ++ post /\ matches (tl l) suf /\
    w = u64 (s32 (wh + Z.of_nat (length pre + length suf - 1)) - (Z.of_nat (length suf) - 1)).

Definition fold_case (nocase : bool) (b : Z) : Z := if nocase then tolower b else b.

Lemma hit_ok_occurs wh past b rest l l' w :
  list_wf l -> tl l' = tl l -> hit_ok (u64 (s32 (wh + Z.of_nat (length past)))) (past ++ [b]) l w ->
  occurs wh (past ++ b :: rest) l' w.
Proof.
  intros Hw Htl (pre & suf & E & Hm & ->). exists pre, suf, rest.
  assert (Hlen : (length past + 1 = length pre + length suf)%nat)
    by (rewrite <-length_app, <-E, length_app; done).
  split_and!; [|by rewrite Htl|].
  - rewrite app_assoc, <-E, <-app_assoc. done.
  - replace (length pre + length suf - 1)%nat with (length past) by lia. unfold u64. by rewrite Zminus_mod_idemp_l.
Qed.

Lemma s32_next wh n : s32 (s32 (wh + Z.of_nat n) + 1) = s32 (wh + Z.of_nat (n + 1)).
Proof.
  unfold s32. rewrite Nat2Z.inj_add. change (Z.of_nat 1) with 1. f_equal. set (m := wh + Z.of_nat n + 2 ^ 31).
  replace (m mod 2 ^ 32 - 2 ^ 31 + 1 + 2 ^ 31) with (m mod 2 ^ 32 + 1) by lia.
  rewrite Zplus_mod_idemp_l. f_equal. unfold m. lia.
Qed.

Lemma tokenize_sound_gen nocase f wh past bytes (t t0 : tokenizer) :
  t <> [] -> Forall (scan_inv past) t ->
  (forall k l, t !! k = Some l -> exists l0, t0 !! k = Some l0 /\ tl l = tl l0) ->
  exists n t' hs, (n <= length bytes)%nat /\
    tokenize_loop nocase (Some f) t (take n bytes) (s32 (wh + Z.of_nat (length past))) = Some (t', hs) /\
    (n = length bytes \/ exists k w, last hs = Some (k, w) /\ f k w = false) /\
    forall k w, (k, w) ∈ hs -> exists l, t0 !! k = Some l /\
      occurs wh (past ++ (fold_case nocase <$> bytes)) l w.
Proof.
  revert past t. induction bytes as [|b bytes IH]; intros past t Hne Hinv Ht0.
  { exists 0%nat, t, []. split_and!; [done|done|by left|]. by intros k w Hk%elem_of_nil. }
  set (at_ := s32 (wh + Z.of_nat (length past))).
  destruct (update_loop_sound f past (fold_case nocase b) (u64 at_) 0 t Hinv)
    as (t1 & hs1 & re & E1 & Hre & Hhs1).
  assert (Hhits : forall k w, (k, w) ∈ hs1 -> exists l, t0 !! k = Some l /\ occurs wh (past ++ (fold_case nocase <$> b :: bytes)) l w).
  { intros k w Hk. destruct (Hhs1 k w Hk) as (l & _ & Hl & Hhit). rewrite Nat.sub_0_r in Hl.
    destruct (Ht0 k l Hl) as (l' & Hl' & Htl). exists l'. split; [done|].
    csimpl. apply (hit_ok_occurs _ _ _ _ l); [|done|done]. rewrite Forall_forall in Hinv. apply Hinv. by eapply list_elem_of_lookup_2. }
  assert (Hturn : forall bs, tokenize_loop nocase (Some f) t (b :: bs) at_ =
    r ← tokenize_loop nocase (Some f) t1 bs (s32 (at_ + 1)); Some (r.1, hs1 ++ r.2)).
  { intros bs. cbn [tokenize_loop]. unfold update_tlist. destruct t as [|l0 t]; [done|]. fold (fold_case nocase b). rewrite E1.
    cbn [mbind option_bind]. by destruct re. }
  destruct re.
  - exists 1%nat, t1, hs1. split; [simpl; lia|]. cbn [take]. rewrite take_0, Hturn. cbn [tokenize_loop mbind option_bind fst snd].
    rewrite app_nil_r. split_and!; [done|by right|done].
  - destruct Hre as (Hinv1 & Hlen1 & Htl1). assert (Hne1 : t1 <> []) by (intros ->; by destruct t).
    destruct (IH (past ++ [fold_case nocase b]) t1 Hne1 Hinv1) as (n & t' & hs & Hn & E & Hend & Hhs).
    { intros k l Hk. destruct (Htl1 k l Hk) as (l1 & Hl1 & ->). by apply Ht0. }
    exists (S n), t', (hs1 ++ hs). split; [simpl; lia|]. cbn [take]. rewrite Hturn. unfold at_. rewrite s32_next.
    rewrite length_app in E. cbn [length] in E. rewrite E. cbn [mbind option_bind fst snd]. split; [done|]. split.
    + destruct Hend as [->|(k & w & Hla & Hfw)]; [by left|]. right. exists k, w. split; [|done]. by rewrite last_app, Hla.
    + intros k w [Hk|Hk]%elem_of_app; [by apply Hhits|]. destruct (Hhs k w Hk) as (l & Hl & Ho). exists l. split; [done|].
      by rewrite <-app_assoc in Ho.
Qed.

(** *** Completeness from the idle state *)

Lemma update_loop_one f b wh l t :
  list_wf l -> tl l !! Z.to_nat (estat l) = Some t -> tok_ok t b = true ->
  estat l + 1 < numtok l ->
  exists a, update_loop (Some f) b wh 0 [l] = Some ([set_scan a (estat l + 1) l], [], false) /\ length a = 300%nat.
Proof.
  intros Hw Ht Hb Hlt. destruct (update_one_spec l b Hw) as (t' & a' & Ht' & Ha & E).
  assert (t' = t) as -> by congruence. rewrite Hb in E. exists a'. split; [|done].
  cbn [update_loop]. rewrite E. cbn [mbind option_bind]. simpl.
  by destruct (Z.eqb_spec (estat l + 1) (numtok l)); [lia|].
Qed.

Lemma update_loop_last f b wh l t :
  (forall n w, f n w = true) ->
  list_wf l -> tl l !! Z.to_nat (estat l) = Some t -> tok_ok t b = true -> estat l + 1 = numtok l ->
  exists a, update_loop (Some f) b wh 0 [l] =
    Some ([set_scan a 0 l], [(0%nat, u64 (wh - (numtok l - 1)))], false) /\ length a = 300%nat.
Proof.
  intros Hf Hw Ht Hb Heq. destruct (update_one_spec l b Hw) as (t' & a' & Ht' & Ha & E).
  assert (t' = t) as -> by congruence. rewrite Hb in E. pose proof Hw as [Hn Hs _ He].
  destruct (close_actp_Some (set_scan a' (estat l + 1) l)) as (a2 & E2 & Ha2); [done|simpl; lia|].
  exists a2. split; [|done]. cbn [update_loop]. rewrite E. cbn [mbind option_bind]. simpl.
  destruct (Z.eqb_spec (estat l + 1) (numtok l)); [|done].
  rewrite E2. cbn [mbind option_bind]. by rewrite Hf.
Qed.

(** A turn that does not complete the keyword. *)
Lemma tokenize_turn f rest wh l t b :
  list_wf l -> tl l !! Z.to_nat (estat l) = Some t -> (tok_ok t b = true -> estat l + 1 < numtok l) ->
  exists a, length a = 300%nat /\ tokenize_loop false (Some f) [l] (b :: rest) wh =
    tokenize_loop false (Some f) [set_scan a (if tok_ok t b then estat l + 1 else 0) l] rest (s32 (wh + 1)).
Proof.
  intros Hw Ht Hlt. destruct (update_one_spec l b Hw) as (t' & a' & Ht' & Ha & E).
  assert (t' = t) as -> by congruence. exists a'. split; [done|]. pose proof Hw as [_ Hs _ _].
  cbn [tokenize_loop]. unfold update_tlist. cbn [update_loop]. rewrite E. cbn [mbind option_bind].
  simpl. assert ((if tok_ok t b then estat l + 1 else 0) =? numtok l = false) as ->
    by (destruct (tok_ok t b); [specialize (Hlt eq_refl)|]; lia).
  cbn -[tokenize_loop]. by destruct (tokenize_loop _ _ _ rest _) as [[? ?]|].
Qed.

(** From state [k], when the next bytes match the remaining tokens. *)
Lemma tokenize_match f l bs rest wh :
  (forall n w, f n w = true) -> list_wf l -> 0 <= wh -> wh + Z.of_nat (length bs) < 2 ^ 31 ->
  matches (drop (Z.to_nat (estat l)) (tl l)) bs ->
  exists a, tokenize_loop false (Some f) [l] (bs ++ rest) wh =
    (r ← tokenize_loop false (Some f) [set_scan a 0 l] rest (wh + Z.of_nat (length bs));
     Some (r.1, (0%nat, u64 (wh - estat l)) :: r.2)) /\ length a = 300%nat.
Proof.
  intros Hf. revert l wh. induction bs as [|b bs IH]; intros l wh Hw H0 Hwh Hm.
  { apply Forall2_length in Hm. rewrite length_drop in Hm. destruct Hw. simpl in Hm. lia. }
  pose proof Hw as [Hn Hs Ha He]. cbn [length] in Hwh.
  assert (s32 (wh + 1) = wh + 1) as E32 by (apply s32_id; lia). assert (u64 wh = wh) as E64 by (apply u64_id; unfold is_u64; lia).
  destruct (at_z_Some (tl l) (estat l)) as (t & _ & Ht); [lia|].
  rewrite (drop_S _ _ _ Ht) in Hm. apply Forall2_cons in Hm as [Hb Hm].
  cbn [app tokenize_loop]. unfold update_tlist. rewrite E32, E64.
  destruct (decide (estat l + 1 = numtok l)) as [Heq|Hne].
  - destruct (update_loop_last f b wh l t Hf Hw Ht Hb Heq) as (a & -> & Hla).
    rewrite drop_ge in Hm by lia. apply Forall2_nil_inv_l in Hm as ->. exists a. split; [|done].
    cbn [mbind option_bind length app]. cbn -[tokenize_loop]. rewrite Z.add_1_r.
    by replace (numtok l - 1) with (estat l) by lia.
  - destruct (update_loop_one f b wh l t Hw Ht Hb) as (a & -> & Hla); [lia|].
    set (l1 := set_scan a (estat l + 1) l).
    destruct (IH l1 (wh + 1)) as (a2 & E2 & Ha2); [|lia|lia| |].
    { constructor; simpl; try done. lia. }
    { simpl. by replace (Z.to_nat (estat l + 1)) with (S (Z.to_nat (estat l))) by lia. }
    exists a2. split; [|done]. cbn [mbind option_bind]. cbn -[tokenize_loop]. rewrite E2.
    replace (wh + 1 + Z.of_nat (length bs)) with (wh + Z.of_nat (S (length bs))) by lia.
    change (set_scan a2 0 l1) with (set_scan a2 0 l).
    change (estat l1) with (estat l + 1).
    replace (wh + 1 - (estat l + 1)) with (wh - estat l) by lia.
    by destruct (tokenize_loop false (Some f) [set_scan a2 0 l] rest (wh + Z.of_nat (S (length bs)))) as [[? ?]|].
Qed.

(** ** Keywords from bytes *)

Definition hex_digit (d : Z) : Z := if d <? 10 then 48 + d else 87 + d.

(** The keyword text of a byte, as the callers build it. *)
Definition escape_byte (b : Z) : list Z := [92; 120; hex_digit (b / 16); hex_digit (b mod 16)].
Definition escape (bs : list Z) : list Z := concat (escape_byte <$> bs).

Lemma hex_digit_range d : 0 <= d < 16 -> 48 <= hex_digit d <= 102 /\ hex_digit d <> 91 /\
  hex_digit d <> 92 /\ hex_digit d <> 120.
Proof. intros. unfold hex_digit. zcase; lia. Qed.

Lemma scan_byte b :
  is_u8 b -> sscanf_x [48; 120; hex_digit (b / 16); hex_digit (b mod 16)] = Some b.
Proof.
  intros Hb. assert (H : (fun b => bool_decide
    (sscanf_x [48; 120; hex_digit (b / 16); hex_digit (b mod 16)] = Some b)) b = true).
  { revert b Hb. apply (forallb_below _ 256). vm_compute. reflexivity. }
  by apply bool_decide_eq_true in H.
Qed.

Lemma byte_digits b : is_u8 b -> 0 <= b / 16 < 16 /\ 0 <= b mod 16 < 16.
Proof.
  unfold is_u8. intros. split; [|apply Z.mod_pos_bound; lia].
  split; [apply Z.div_pos; lia|apply Z.div_lt_upper_bound; lia].
Qed.

(** A character that is neither ["\"] nor ["["], inside an escape. *)
Lemma tok_switch_plain i c e r :
  c <> 91 -> c <> 92 -> e <> 0 -> tok_switch i c e r = (e + 1, r).
Proof.
  intros. unfold tok_switch. destruct (Z.eqb_spec c 92), (Z.eqb_spec c 91), (Z.eqb_spec e 0); done.
Qed.

Lemma tok_loop_byte nocase heap str i rest toks aux rm b :
  is_u8 b ->
  exists aux', tok_loop nocase heap str i (escape_byte b ++ rest) (ParseSt 0 toks aux rm) =
    tok_loop nocase heap str (i + 4) rest (ParseSt 0 (toks ++ [Token b 0 0]) aux' rm).
Proof.
  intros Hb. destruct (byte_digits b Hb) as [H1 H2].
  pose proof (hex_digit_range _ H1) as (_ & H1a & H1b & _).
  pose proof (hex_digit_range _ H2) as (_ & H2a & H2b & _).
  pose proof (scan_byte b Hb) as Hs. unfold escape_byte. cbn [app].
  set (h1 := hex_digit (b / 16)) in *. set (h2 := hex_digit (b mod 16)) in *.
  exists h1. cbn [tok_loop].
  assert (E1 : tok_turn nocase heap str i 92 (ParseSt 0 toks aux rm) = Some (ParseSt 1 toks aux rm)) by done.
  assert (E2 : tok_turn nocase heap str (i + 1) 120 (ParseSt 1 toks aux rm) = Some (ParseSt 2 toks aux rm)) by done.
  assert (E3 : tok_turn nocase heap str (i + 1 + 1) h1 (ParseSt 2 toks aux rm) = Some (ParseSt 3 toks h1 rm))
    by (unfold tok_turn; rewrite tok_switch_plain by done; done).
  assert (E4 : tok_turn nocase heap str (i + 1 + 1 + 1) h2 (ParseSt 3 toks h1 rm) =
               Some (ParseSt 0 (toks ++ [Token b 0 0]) h1 rm)).
  { unfold tok_turn. rewrite tok_switch_plain by done. cbn -[sscanf_x u8]. rewrite Hs. cbn -[u8].
    by rewrite u8_id. }
  rewrite E1. cbn [mbind option_bind]. rewrite E2. cbn [mbind option_bind]. rewrite E3.
  cbn [mbind option_bind]. rewrite E4. cbn [mbind option_bind]. f_equal. lia.
Qed.

Lemma tok_parse_escape nocase heap bs :
  Forall is_u8 bs -> tok_parse nocase heap (escape bs) = Some ((fun b => Token b 0 0) <$> bs).
Proof.
  intros Hbs. unfold tok_parse. generalize (escape bs) at 1 as str. intros str.
  assert (forall i toks aux rm, exists aux', tok_loop nocase heap str i (escape bs) (ParseSt 0 toks aux rm) =
    Some (ParseSt 0 (toks ++ ((fun b => Token b 0 0) <$> bs)) aux' rm)) as H.
  { induction Hbs as [|b bs Hb Hbs IH]; intros i toks aux rm.
    - exists aux. simpl. by rewrite app_nil_r.
    - destruct (tok_loop_byte nocase heap str i (escape bs) toks aux rm b Hb) as [aux1 E1].
      destruct (IH (i + 4) (toks ++ [Token b 0 0]) aux1 rm) as [aux2 E2]. exists aux2.
      change (escape (b :: bs)) with (escape_byte b ++ escape bs). rewrite E1, E2.
      by rewrite <-app_assoc. }
  destruct (H 0 [] 0 0) as [aux ->]. done.
Qed.

Lemma apply_mask_ff i ts : apply_mask_loop [255] i ts = set_mask 255 <$> ts.
Proof.
  revert i. induction ts as [|t ts IH]; intros i; [done|]. cbn [apply_mask_loop].
  rewrite IH. change (length [255]) with 1%nat. by rewrite Nat.mod_1_r.
Qed.

Lemma land_255 b : is_u8 b -> Z.land b 255 = b.
Proof. intros. change 255 with (Z.ones 8). rewrite Z.land_ones by lia. by apply Z.mod_small. Qed.

Lemma matches_exact bs bs' :
  Forall is_u8 bs -> Forall is_u8 bs' ->
  matches (set_mask 255 <$> ((fun b => Token b 0 0) <$> bs)) bs' <-> bs' = bs.
Proof.
  intros Hbs Hbs'. unfold matches. rewrite <-list_fmap_compose. split.
  - revert bs' Hbs'. induction Hbs as [|b bs Hb Hbs IH]; intros bs' Hbs' H.
    + by apply Forall2_nil_inv_l in H.
    + csimpl in H. apply Forall2_cons_inv_l in H as (b' & bs2 & Ht & H & ->).
      apply Forall_cons in Hbs' as [Hb' Hbs']. f_equal; [|by apply IH].
      unfold tok_ok, set_mask in Ht. simpl in Ht. rewrite !land_255 in Ht by done. by apply Z.eqb_eq.
  - intros ->. induction Hbs as [|b bs Hb Hbs IH]; csimpl; constructor; [|apply IH; by apply Forall_cons in Hbs'].
    unfold tok_ok. simpl. apply Z.eqb_refl.
Qed.

(** ** Properties *)

(** A keyword added from the escaped text of [bs]. *)
Definition keyword (nm : string) (bs : list Z) : tokenlist :=
  Tokenlist (set_mask 255 <$> ((fun b => Token b 0 0) <$> bs)) (Z.of_nat (length bs)) nm
    (replicate 300 0) 0.

Lemma keyword_added nocase heap t bs :
  Forall is_u8 bs ->
  binparse_add nocase heap t (Some (escape bs)) None =
    Some (Z.of_nat (length t), t ++ [keyword ("SEARCH[" ++ fmt_d (Z.of_nat (length t)) ++ "]")%string bs]).
Proof.
  intros Hbs. unfold binparse_add, binparse_token_mask. rewrite tok_parse_escape by done.
  assert (Hff : binparse_get_mask_list (bytes_of "ff") = Some [255]) by (vm_compute; reflexivity).
  cbn [mbind option_bind default]. rewrite Hff. cbn [mbind option_bind].
  unfold binparse_apply_mask, keyword. rewrite length_fmap.
  rewrite bool_decide_eq_true_2 by (simpl; lia). by rewrite apply_mask_ff.
Qed.

Lemma keyword_wf nm bs : (0 < length bs < 299)%nat -> list_wf (keyword nm bs).
Proof. intros Hl. constructor; simpl; rewrite ?length_fmap, ?length_replicate; (done || lia). Qed.

(** A keyword written with one ["\xHH"] escape per byte is parsed into one token per byte;
    the new keyword is the last of the table, in its idle state, and matches those bytes only. *)
Theorem binparse_add_escaped nocase heap t bs :
  Forall is_u8 bs -> (0 < length bs < 299)%nat ->
  exists l, binparse_add nocase heap t (Some (escape bs)) None = Some (Z.of_nat (length t), t ++ [l]) /\
    list_wf l /\ estat l = 0 /\
    forall bs', Forall is_u8 bs' -> matches (tl l) bs' <-> bs' = bs.
Proof.
  intros Hbs Hl. eexists. split; [by apply keyword_added|]. split; [by apply keyword_wf|].
  split; [done|]. intros bs' Hbs'. by apply matches_exact.
Qed.

Lemma binparse_add_escaped_witness :
  exists l, binparse_add false [0] [] (Some (escape [0x7f; 0x45])) None = Some (0, [l]) /\
    list_wf l /\ estat l = 0 /\
    forall bs', Forall is_u8 bs' -> matches (tl l) bs' <-> bs' = [0x7f; 0x45].
Proof. apply (binparse_add_escaped false [0] [] [0x7f; 0x45]); [repeat constructor; done|simpl; lia]. Defined.

(** C20: scanning any input with well-formed idle keywords goes on, without running outside an array, to the end of the
    input or to the first hit that the callback does not ask to go on after -- behind which the keyword's state points
    behind its last token -- and every hit reported is an occurrence of its keyword (case folded when the search ignores
    case) at the address reported, where the position of its last byte is counted in an [int].  A callback that always asks
    to go on sees the whole input. *)
Theorem tokenize_sound nocase f pos bytes (t : tokenizer) :
  t <> [] -> Forall list_wf t -> Forall (fun l => estat l = 0) t ->
  exists n t' hs, (n <= length bytes)%nat /\ tokenize nocase (Some f) t (take n bytes) pos = Some (t', hs) /\
    (n = length bytes \/ exists k w, last hs = Some (k, w) /\ f k w = false) /\
    forall k w, (k, w) ∈ hs -> exists l, t !! k = Some l /\ occurs (s32 pos) (fold_case nocase <$> bytes) l w.
Proof.
  intros Hne Hw He. unfold tokenize.
  destruct (tokenize_sound_gen nocase f (s32 pos) [] bytes t t Hne) as (n & t' & hs & Hn & E & H).
  - apply Forall_forall. intros l Hl. rewrite Forall_forall in Hw, He. split; [by apply Hw|].
    exists [], []. rewrite (He l Hl). split; [done|constructor].
  - eauto.
  - simpl in E. rewrite Z.add_0_r, (s32_id (s32 pos)) in E by (unfold s32; pose proof (Z.mod_pos_bound (pos + 2 ^ 31) (2 ^ 32)); lia).
    by exists n, t', hs.
Qed.

Lemma tokenize_sound_witness :
  exists n t' hs, (n <= 5)%nat /\ tokenize false (Some (fun _ w => w <? 0x1003)) [keyword "ab" [97; 98]] (take n [120; 97; 98; 97; 98]) 0x1000
      = Some (t', hs) /\
    forall k w, (k, w) ∈ hs ->
      exists l, [keyword "ab" [97; 98]] !! k = Some l /\
        occurs 0x1000 (fold_case false <$> [120; 97; 98; 97; 98]) l w.
Proof.
  destruct (tokenize_sound false (fun _ w => w <? 0x1003) 0x1000 [120; 97; 98; 97; 98] [keyword "ab" [97; 98]])
    as (n & t' & hs & Hn & E & _ & H); [done| |repeat constructor|exists n, t', hs; split; [exact Hn|split; [exact E|exact H]]].
  constructor; [|constructor]. apply keyword_wf. simpl. lia.
Defined.

(** An occurrence that starts when the keyword is idle is reported, at its first address,
    and the scan goes on behind it with the keyword idle again. *)
Theorem tokenize_complete f l bs rest wh :
  (forall n w, f n w = true) -> list_wf l -> estat l = 0 -> 0 <= wh -> wh + Z.of_nat (length bs) < 2 ^ 31 -> matches (tl l) bs ->
  exists a, tokenize false (Some f) [l] (bs ++ rest) wh =
    (r ← tokenize false (Some f) [set_scan a 0 l] rest (wh + Z.of_nat (length bs));
     Some (r.1, (0%nat, wh) :: r.2)) /\ list_wf (set_scan a 0 l).
Proof.
  intros Hf Hw He H0 Hwh Hm. destruct (tokenize_match f l bs rest wh Hf Hw H0 Hwh) as (a & E & Ha).
  { by rewrite He. }
  exists a. unfold tokenize. rewrite !s32_id by lia. rewrite E, He, Z.sub_0_r, u64_id by (unfold is_u64; lia).
  split; [done|]. destruct Hw. by constructor; simpl; try lia.
Qed.

Lemma tokenize_complete_witness :
  exists a, tokenize false (Some (fun _ _ => true)) [keyword "ab" [97; 98]] ([97; 98] ++ [0]) 5 =
    (r ← tokenize false (Some (fun _ _ => true)) [set_scan a 0 (keyword "ab" [97; 98])] [0] (5 + 2);
     Some (r.1, (0%nat, 5) :: r.2)) /\ list_wf (set_scan a 0 (keyword "ab" [97; 98])).
Proof.
  apply (tokenize_complete (fun _ _ => true) (keyword "ab" [97; 98]) [97; 98] [0] 5); [done| |done|done|done|].
  - apply keyword_wf. simpl. lia.
  - repeat constructor.
Defined.

(** A byte that ends a partial match is not tried as the start of a new one: of [a; a; b]
    the keyword [a; b] is not found, for any two different bytes. *)
Theorem tokenize_misses (f : nat -> Z -> bool) (a b wh : Z) :
  is_u8 a -> is_u8 b -> a <> b ->
  exists t', tokenize false (Some f) [keyword "" [a; b]] [a; a; b] wh = Some (t', []).
Proof.
  intros Ha Hb Hne. unfold tokenize. generalize (s32 wh). clear wh. intros wh.
  set (l := keyword "" [a; b]).
  assert (Hw : list_wf l) by (apply keyword_wf; simpl; lia).
  assert (Hok : forall x y, is_u8 x -> is_u8 y -> tok_ok (set_mask 255 (Token x 0 0)) y = (y =? x))
    by (intros; unfold tok_ok; simpl; by rewrite !land_255).
  destruct (tokenize_turn f [a; b] wh l _ a Hw eq_refl) as (a1 & Ha1 & ->); [done..|].
  rewrite Hok, Z.eqb_refl by done. change (estat l + 1) with 1.
  destruct (tokenize_turn f [b] (s32 (wh + 1)) (set_scan a1 1 l) (set_mask 255 (Token b 0 0)) a)
    as (a2 & Ha2 & ->); [by constructor; simpl; try lia|done| |].
  { rewrite Hok by done. intros ?%Z.eqb_eq. done. }
  rewrite Hok by done. destruct (Z.eqb_spec a b); [done|].
  change (set_scan a2 0 (set_scan a1 1 l)) with (set_scan a2 0 l).
  destruct (tokenize_turn f [] (s32 (s32 (wh + 1) + 1)) (set_scan a2 0 l) (set_mask 255 (Token a 0 0)) b)
    as (a3 & Ha3 & ->); [by constructor; simpl; try lia|done..|].
  rewrite Hok by done. destruct (Z.eqb_spec b a); [congruence|]. by eexists.
Qed.

Lemma tokenize_misses_witness :
  exists t', tokenize false (Some (fun _ _ => true)) [keyword "" [97; 98]] [97; 97; 98] 0 = Some (t', []).
Proof. apply (tokenize_misses (fun _ _ => true) 97 98 0); done. Defined.
