(* ===== verification/Hash.v ===== *)
(** * Checksums: [src/rahash/crc16.c], [crc32.c], [crca.c], [hash.c], [hamdist.c]

    A buffer is the list of its bytes.  Registers are integers kept at their width. *)
From S2P Require Import Prelude.

(** ** [crc16.c] *)

Definition crc16_table : list Z :=
  [
    0x0000; 0xC0C1; 0xC181; 0x0140; 0xC301; 0x03C0; 0x0280; 0xC241;
    0xC601; 0x06C0; 0x0780; 0xC741; 0x0500; 0xC5C1; 0xC481; 0x0440;
    0xCC01; 0x0CC0; 0x0D80; 0xCD41; 0x0F00; 0xCFC1; 0xCE81; 0x0E40;
    0x0A00; 0xCAC1; 0xCB81; 0x0B40; 0xC901; 0x09C0; 0x0880; 0xC841;
    0xD801; 0x18C0; 0x1980; 0xD941; 0x1B00; 0xDBC1; 0xDA81; 0x1A40;
    0x1E00; 0xDEC1; 0xDF81; 0x1F40; 0xDD01; 0x1DC0; 0x1C80; 0xDC41;
    0x1400; 0xD4C1; 0xD581; 0x1540; 0xD701; 0x17C0; 0x1680; 0xD641;
    0xD201; 0x12C0; 0x1380; 0xD341; 0x1100; 0xD1C1; 0xD081; 0x1040;
    0xF001; 0x30C0; 0x3180; 0xF141; 0x3300; 0xF3C1; 0xF281; 0x3240;
    0x3600; 0xF6C1; 0xF781; 0x3740; 0xF501; 0x35C0; 0x3480; 0xF441;
    0x3C00; 0xFCC1; 0xFD81; 0x3D40; 0xFF01; 0x3FC0; 0x3E80; 0xFE41;
    0xFA01; 0x3AC0; 0x3B80; 0xFB41; 0x3900; 0xF9C1; 0xF881; 0x3840;
    0x2800; 0xE8C1; 0xE981; 0x2940; 0xEB01; 0x2BC0; 0x2A80; 0xEA41;
    0xEE01; 0x2EC0; 0x2F80; 0xEF41; 0x2D00; 0xEDC1; 0xEC81; 0x2C40;
    0xE401; 0x24C0; 0x2580; 0xE541; 0x2700; 0xE7C1; 0xE681; 0x2640;
    0x2200; 0xE2C1; 0xE381; 0x2340; 0xE101; 0x21C0; 0x2080; 0xE041;
    0xA001; 0x60C0; 0x6180; 0xA141; 0x6300; 0xA3C1; 0xA281; 0x6240;
    0x6600; 0xA6C1; 0xA781; 0x6740; 0xA501; 0x65C0; 0x6480; 0xA441;
    0x6C00; 0xACC1; 0xAD81; 0x6D40; 0xAF01; 0x6FC0; 0x6E80; 0xAE41;
    0xAA01; 0x6AC0; 0x6B80; 0xAB41; 0x6900; 0xA9C1; 0xA881; 0x6840;
    0x7800; 0xB8C1; 0xB981; 0x7940; 0xBB01; 0x7BC0; 0x7A80; 0xBA41;
    0xBE01; 0x7EC0; 0x7F80; 0xBF41; 0x7D00; 0xBDC1; 0xBC81; 0x7C40;
    0xB401; 0x74C0; 0x7580; 0xB541; 0x7700; 0xB7C1; 0xB681; 0x7640;
    0x7200; 0xB2C1; 0xB381; 0x7340; 0xB101; 0x71C0; 0x7080; 0xB041;
    0x5000; 0x90C1; 0x9181; 0x5140; 0x9301; 0x53C0; 0x5280; 0x9241;
    0x9601; 0x56C0; 0x5780; 0x9741; 0x5500; 0x95C1; 0x9481; 0x5440;
    0x9C01; 0x5CC0; 0x5D80; 0x9D41; 0x5F00; 0x9FC1; 0x9E81; 0x5E40;
    0x5A00; 0x9AC1; 0x9B81; 0x5B40; 0x9901; 0x59C0; 0x5880; 0x9841;
    0x8801; 0x48C0; 0x4980; 0x8941; 0x4B00; 0x8BC1; 0x8A81; 0x4A40;
    0x4E00; 0x8EC1; 0x8F81; 0x4F40; 0x8D01; 0x4DC0; 0x4C80; 0x8C41;
    0x4400; 0x84C1; 0x8581; 0x4540; 0x8701; 0x47C0; 0x4680; 0x8641;
    0x8201; 0x42C0; 0x4380; 0x8341; 0x4100; 0x81C1; 0x8081; 0x4040
  ].

Definition crc16_byte (crc data : Z) : Z :=
  Z.lxor (Z.shiftr crc 8) (crc16_table !!! Z.to_nat (Z.land (Z.lxor crc data) 0xff)).

Fixpoint crc16 (crc : Z) (buffer : list Z) : Z :=
  match buffer with
  | [] => crc
  | b :: buffer' => crc16 (crc16_byte crc b) buffer'
  end.

(** ** [crc32.c] *)

(** The inner loop [for (j = 0; j < 256; j += 2*i)], with [n] turns left. *)
Fixpoint table_inner (n : nat) (i j h : Z) (t : list Z) : list Z :=
  match n with
  | O => t
  | S n' =>
    if j <? 256 then
      table_inner n' i (j + 2 * i) h (<[Z.to_nat (i + j) := Z.lxor (t !!! Z.to_nat j) h]> t)
    else t
  end.

(** The outer loop [for (i = 128; i; i >>= 1)]. *)
Fixpoint table_outer (n : nat) (i h : Z) (t : list Z) : list Z :=
  match n with
  | O => t
  | S n' =>
    if truth i then
      let h := Z.lxor (Z.shiftr h 1) (if truth (Z.land h 1) then 0xedb88320 else 0) in
      table_outer n' (Z.shiftr i 1) h (table_inner 256 i 0 h t)
    else t
  end.

Definition crc_table : list Z := table_outer 9 128 1 (replicate 256 0).

Definition crc32_byte (crc b : Z) : Z :=
  Z.lxor (Z.shiftr crc 8) (crc_table !!! Z.to_nat (Z.land (Z.lxor crc b) 0xff)).

Definition crc32 (buf : list Z) : Z :=
  Z.lxor (foldl crc32_byte (Z.lxor 0 0xffffffff) buf) 0xffffffff.

(** ** [crca.c] *)

Record t_crc_ctx := Crc { crc : Z; size : Z; reflect : bool; poly : Z; xout : Z }.

Definition crc_init (c sz : Z) (r : bool) (p x : Z) : t_crc_ctx := Crc c sz r p x.

Definition set_crc (v : Z) (ctx : t_crc_ctx) : t_crc_ctx :=
  Crc v (size ctx) (reflect ctx) (poly ctx) (xout ctx).

(** One turn of a loop that exchanges the bits [i] and [k] of [v]. *)
Definition swap_turn (v i k : Z) : Z :=
  if truth (Z.land (Z.lxor (Z.shiftr v i) (Z.shiftr v k)) 1)
  then Z.lxor v (Z.lxor (Z.shiftl 1 i) (Z.shiftl 1 k)) else v.

(** [for(i=0; i<n; i++)] over [swap_turn v i (top-i)]. *)
Definition swap_loop (n : nat) (top v : Z) : Z :=
  foldl (fun v i => swap_turn v (Z.of_nat i) (top - Z.of_nat i)) v (seq 0 n).

Definition crc_bit (ctx : t_crc_ctx) (c : Z) : Z :=
  u32 (Z.lxor (if truth (Z.land (Z.shiftr c (size ctx - 1)) 1) then poly ctx else 0) (Z.shiftl c 1)).

Definition crc_byte (ctx : t_crc_ctx) (c b : Z) : Z :=
  let d := if reflect ctx then swap_loop 4 7 b else b in
  let c := Z.lxor c (u32 (Z.shiftl d (size ctx - 8))) in
  Nat.iter 8 (crc_bit ctx) c.

Definition crc_update (ctx : t_crc_ctx) (data : list Z) : t_crc_ctx :=
  set_crc (foldl (crc_byte ctx) (crc ctx) data) ctx.

Definition crc_final (ctx : t_crc_ctx) : Z :=
  let c := crc ctx in
  let c := Z.land c (Z.lor (u32 (Z.shiftl (Z.shiftl 1 (size ctx - 1) - 1) 1)) 1) in
  let c := if reflect ctx then swap_loop (Z.to_nat (Z.shiftr (size ctx) 1)) (size ctx - 1) c else c in
  Z.lxor c (xout ctx).

Inductive CRC_PRESETS :=
| CRC_32 | CRC_16 | CRC_32_ECMA_267 | CRC_32C | CRC_24 | CRC_16_CITT | CRC_16_USB | CRC_16_HDLC
| CRC_15_CAN | CRC_8_SMBUS.

Definition crc_presets (p : CRC_PRESETS) : t_crc_ctx :=
  match p with
  | CRC_32 => Crc 0xFFFFFFFF 32 true 0x04C11DB7 0xFFFFFFFF
  | CRC_16 => Crc 0x0000 16 true 0x8005 0x0000
  | CRC_32_ECMA_267 => Crc 0x00000000 32 false 0x80000011 0x00000000
  | CRC_32C => Crc 0xFFFFFFFF 32 true 0x1EDC6F41 0xFFFFFFFF
  | CRC_24 => Crc 0xB704CE 24 false 0x864CFB 0x000000
  | CRC_16_CITT => Crc 0xFFFF 16 false 0x1021 0x0000
  | CRC_16_USB => Crc 0xFFFF 16 true 0x8005 0xFFFF
  | CRC_16_HDLC => Crc 0xFFFF 16 true 0x1021 0xFFFF
  | CRC_15_CAN => Crc 0x0000 15 false 0x4599 0x0000
  | CRC_8_SMBUS => Crc 0x00 8 false 0x07 0x00
  end.

Definition crc_init_preset (p : CRC_PRESETS) : t_crc_ctx := crc_presets p.

(** The checksum of a whole buffer, as [main] computes it. *)
Definition crc_run (p : CRC_PRESETS) (data : list Z) : Z :=
  crc_final (crc_update (crc_init_preset p) data).

(** ** [hash.c] *)

Definition is_pr (c : Z) : bool := negb ((c <? 32) || (126 <? c)).

(** No result for an empty buffer: the source divides by its length. *)
Definition hash_pcprint (buffer : list Z) : option Z :=
  let n := foldl (fun n b => if is_pr b then n + 1 else n) 0 buffer in
  match buffer with
  | [] => None
  | _ => Some ((100 * n) / Z.of_nat (length buffer))
  end.

Definition ones_of (x : Z) : Z :=
  let bit m := if truth (Z.land x m) then 1 else 0 in
  bit 128 + bit 64 + bit 32 + bit 16 + bit 8 + bit 4 + bit 2 + bit 1.

Definition hash_par (buffer : list Z) : Z :=
  foldl (fun ones x => u32 (ones + ones_of x)) 0 buffer mod 2.

(** [b[0]] of an [unsigned short] pointer on a little-endian machine. *)
Fixpoint xorpair_loop (n : nat) (result : Z) (a : list Z) : Z :=
  match n, a with
  | S n', lo :: hi :: a' => xorpair_loop n' (Z.lxor result (lo + 256 * hi)) a'
  | _, _ => result
  end.
Definition hash_xorpair (a : list Z) : Z := xorpair_loop (Nat.div2 (length a)) 0 a.

Definition hash_xor (b : list Z) : Z := foldl Z.lxor 0 b.

Definition hash_mod255 (b : list Z) : Z := Z.rem (foldl (fun c x => s32 (c + x)) 0 b) 255.

(** ** [hamdist.c] *)

(** The loop on a 32-bit [val]; 33 turns are enough: [hamdist_returns]. *)
Fixpoint hamdist_loop (fuel : nat) (dist val : Z) : option Z :=
  match fuel with
  | O => None
  | S fuel' =>
    if truth val then hamdist_loop fuel' (dist + 1) (Z.land val (u32 (val - 1))) else Some dist
  end.
Definition hamdist (x y : Z) : option Z := hamdist_loop 33 0 (u32 (Z.lxor x y)).

(** The bytes of the buffer are of type [char]: sign extended into [y]. *)
Definition hash_hamdist (buf : list Z) : option Z :=
  u8 <$> foldl (fun x b => x ← x; hamdist x (s8 b)) (Some 0) buf.

(** ** Functions linear over exclusive or *)

Definition linear (f : Z -> Z) : Prop := forall x y, f (Z.lxor x y) = Z.lxor (f x) (f y).

Lemma linear_0 f : linear f -> f 0 = 0.
Proof. intros H. by rewrite <-(Z.lxor_nilpotent 0), H, Z.lxor_nilpotent. Qed.

Lemma linear_id : linear (fun x => x).
Proof. by intros x y. Qed.

Lemma linear_comp f g : linear f -> linear g -> linear (fun x => f (g x)).
Proof. intros Hf Hg x y. by rewrite Hg, Hf. Qed.

Lemma lxor_swap a b c d : Z.lxor (Z.lxor a b) (Z.lxor c d) = Z.lxor (Z.lxor a c) (Z.lxor b d).
Proof. rewrite !Z.lxor_assoc. f_equal. rewrite <-!Z.lxor_assoc. f_equal. apply Z.lxor_comm. Qed.

Lemma linear_lxor f g : linear f -> linear g -> linear (fun x => Z.lxor (f x) (g x)).
Proof. intros Hf Hg x y. rewrite Hf, Hg. apply lxor_swap. Qed.

Lemma linear_shiftr n : linear (fun x => Z.shiftr x n).
Proof. intros x y. apply Z.shiftr_lxor. Qed.

Lemma linear_shiftl n : linear (fun x => Z.shiftl x n).
Proof. intros x y. apply Z.shiftl_lxor. Qed.

Lemma linear_land m : linear (fun x => Z.land x m).
Proof.
  intros x y. apply Z.bits_inj'. intros n Hn. rewrite !Z.land_spec, !Z.lxor_spec, !Z.land_spec.
  by destruct (Z.testbit x n), (Z.testbit y n), (Z.testbit m n).
Qed.

Lemma linear_u32 : linear u32.
Proof. intros x y. unfold u32. rewrite <-!Z.land_ones by lia. apply linear_land. Qed.

(** A constant chosen by the low bit of a linear function. *)
Lemma linear_choose f p : linear f -> linear (fun x => if truth (Z.land (f x) 1) then p else 0).
Proof.
  intros Hf x y. rewrite Hf. assert (Hb : forall z, truth (Z.land z 1) = Z.testbit z 0).
  { intros z. change 1 with (Z.ones 1). rewrite Z.land_ones by lia. change (2^1) with 2.
    rewrite <-Z.bit0_mod. by destruct (Z.testbit z 0). }
  rewrite !Hb, Z.lxor_spec. destruct (Z.testbit (f x) 0), (Z.testbit (f y) 0); simpl;
    by rewrite ?Z.lxor_nilpotent, ?Z.lxor_0_r, ?Z.lxor_0_l.
Qed.

Lemma linear_iter n f : linear f -> linear (Nat.iter n f).
Proof. intros Hf. induction n as [|n IH]; [apply linear_id|]. intros x y. simpl. by rewrite IH, Hf. Qed.

Create HintDb linear discriminated.
#[export] Hint Resolve linear_id linear_comp linear_lxor linear_shiftr linear_shiftl linear_land
  linear_u32 linear_choose linear_iter : linear.

Lemma swap_turn_eq v i k :
  swap_turn v i k = Z.lxor v (if truth (Z.land (Z.lxor (Z.shiftr v i) (Z.shiftr v k)) 1)
                              then Z.lxor (Z.shiftl 1 i) (Z.shiftl 1 k) else 0).
Proof. unfold swap_turn. destruct (truth _); [done|by rewrite Z.lxor_0_r]. Qed.

Lemma linear_swap_turn i k : linear (fun v => swap_turn v i k).
Proof.
  intros x y. rewrite !swap_turn_eq.
  apply (linear_lxor (fun v => v) (fun v => if truth (Z.land (Z.lxor (Z.shiftr v i) (Z.shiftr v k)) 1)
    then Z.lxor (Z.shiftl 1 i) (Z.shiftl 1 k) else 0)); [apply linear_id|].
  apply (linear_choose (fun v => Z.lxor (Z.shiftr v i) (Z.shiftr v k))). auto with linear.
Qed.

Lemma linear_swap_loop n top : linear (swap_loop n top).
Proof.
  unfold swap_loop. generalize (seq 0 n). intros l. induction l as [|i l IH]; [apply linear_id|].
  intros x y. simpl. rewrite linear_swap_turn. apply IH.
Qed.

#[export] Hint Resolve linear_swap_turn linear_swap_loop : linear.

(** A linear function is known by its values on the powers of two. *)
Lemma split_bit n x :
  0 <= x < 2^(Z.of_nat n + 1) ->
  x = Z.lxor (x mod 2^Z.of_nat n) (if Z.testbit x (Z.of_nat n) then 2^Z.of_nat n else 0).
Proof.
  intros Hx. apply Z.bits_inj'. intros k Hk. rewrite Z.lxor_spec.
  destruct (Z.lt_trichotomy k (Z.of_nat n)) as [H|[->|H]].
  - rewrite Z.mod_pow2_bits_low by done.
    destruct (Z.testbit x (Z.of_nat n)); rewrite ?Z.pow2_bits_false, ?Z.testbit_0_l by lia; by rewrite xorb_false_r.
  - rewrite Z.mod_pow2_bits_high by lia.
    destruct (Z.testbit x (Z.of_nat n)) eqn:E; rewrite ?Z.pow2_bits_true, ?Z.testbit_0_l by lia; done.
  - rewrite Z.mod_pow2_bits_high by lia.
    assert (Z.testbit x k = false) as ->.
    { rewrite <-(Z.mod_small x (2^(Z.of_nat n + 1))) by lia. apply Z.mod_pow2_bits_high. lia. }
    destruct (Z.testbit x (Z.of_nat n)); rewrite ?Z.pow2_bits_false, ?Z.testbit_0_l by lia; done.
Qed.

Lemma linear_basis n f g :
  linear f -> linear g -> forallb (fun i => f (2^Z.of_nat i) =? g (2^Z.of_nat i)) (seq 0 n) = true ->
  forall x, 0 <= x < 2^Z.of_nat n -> f x = g x.
Proof.
  intros Hf Hg. induction n as [|n IH]; intros Hb x Hx.
  { assert (x = 0) as -> by (simpl in Hx; lia). by rewrite !linear_0. }
  rewrite seq_S, forallb_app, andb_true_iff in Hb. destruct Hb as [Hb Hn]. simpl in Hn.
  rewrite andb_true_r in Hn. apply Z.eqb_eq in Hn.
  rewrite Nat2Z.inj_succ, <-Z.add_1_r in Hx. rewrite (split_bit n x Hx), Hf, Hg.
  rewrite (IH Hb) by (apply Z.mod_pos_bound; lia). f_equal.
  destruct (Z.testbit x (Z.of_nat n)); [done|by rewrite !linear_0].
Qed.

(** ** The bitwise reference: one bit at a time, low bit first *)
Definition lsb_bit (p x : Z) : Z := Z.lxor (Z.shiftr x 1) (if truth (Z.land x 1) then p else 0).
Definition lsb_byte (p c b : Z) : Z := Nat.iter 8 (lsb_bit p) (Z.lxor c b).

Lemma linear_lsb_bit p : linear (lsb_bit p).
Proof.
  unfold lsb_bit. apply (linear_lxor (fun x => Z.shiftr x 1)); [apply linear_shiftr|].
  apply (linear_choose (fun x => x)), linear_id.
Qed.

#[export] Hint Resolve linear_lsb_bit : linear.

Lemma lxor_bound n x y : 0 <= n -> 0 <= x < 2^n -> 0 <= y < 2^n -> 0 <= Z.lxor x y < 2^n.
Proof.
  intros Hn Hx Hy. assert (E : Z.lxor x y = Z.lxor x y mod 2^n).
  { rewrite <-Z.land_ones, linear_land, !Z.land_ones, !Z.mod_small by lia. done. }
  rewrite E. apply Z.mod_pos_bound. lia.
Qed.

(** *** The tables *)
Section tables.
Context (p : Z) (n : nat) (t : list Z).
Hypothesis Hn : (8 <= n)%nat.
Hypothesis Ht : forallb (fun z => t !!! Z.to_nat z =? Nat.iter 8 (lsb_bit p) z) (seqZ 0 256) = true.
Hypothesis Hb : forallb (fun i => Z.lxor (Z.shiftr (2^Z.of_nat i) 8)
  (Nat.iter 8 (lsb_bit p) (Z.land (2^Z.of_nat i) 255)) =? Nat.iter 8 (lsb_bit p) (2^Z.of_nat i)) (seq 0 n) = true.

Lemma table_byte c b :
  0 <= c < 2^Z.of_nat n -> is_u8 b ->
  Z.lxor (Z.shiftr c 8) (t !!! Z.to_nat (Z.land (Z.lxor c b) 255)) = lsb_byte p c b.
Proof.
  intros Hc Hb8. assert (Hx : 0 <= Z.lxor c b < 2^Z.of_nat n).
  { apply lxor_bound; [lia|done|]. unfold is_u8 in Hb8.
    pose proof (Z.pow_le_mono_r 2 8 (Z.of_nat n)). lia. }
  assert (Hi : 0 <= Z.land (Z.lxor c b) 255 < 256).
  { change 255 with (Z.ones 8). rewrite Z.land_ones by lia. apply Z.mod_pos_bound. lia. }
  pose proof (forallb_below _ 256 Ht _ Hi) as Hti. apply Z.eqb_eq in Hti. rewrite Hti.
  assert (Hs : Z.shiftr c 8 = Z.shiftr (Z.lxor c b) 8).
  { rewrite Z.shiftr_lxor. assert (Z.shiftr b 8 = 0) as ->; [|by rewrite Z.lxor_0_r].
    rewrite Z.shiftr_div_pow2 by lia. apply Z.div_small. apply Hb8. }
  rewrite Hs. unfold lsb_byte. generalize dependent (Z.lxor c b). intros x Hx _ _ _. revert x Hx.
  apply linear_basis; [|by auto with linear|exact Hb].
  apply (linear_lxor (fun x => Z.shiftr x 8)); [apply linear_shiftr|].
  apply (linear_comp (Nat.iter 8 (lsb_bit p))); auto with linear.
Qed.
End tables.

(** *** [crca.c] with the [reflect] field set *)

(** The register as [crc_final] presents it, before the final exclusive or. *)
Definition reg_of (ctx : t_crc_ctx) (c : Z) : Z :=
  swap_loop (Z.to_nat (Z.shiftr (size ctx) 1)) (size ctx - 1)
    (Z.land c (Z.lor (u32 (Z.shiftl (Z.shiftl 1 (size ctx - 1) - 1) 1)) 1)).

Definition crc_in (ctx : t_crc_ctx) (b : Z) : Z :=
  u32 (Z.shiftl (swap_loop 4 7 b) (size ctx - 8)).

Lemma linear_reg_of ctx : linear (reg_of ctx).
Proof. apply (linear_comp (swap_loop _ _) (fun c => Z.land c _)); auto with linear. Qed.

Lemma linear_crc_in ctx : linear (crc_in ctx).
Proof.
  apply (linear_comp u32 (fun b => Z.shiftl (swap_loop 4 7 b) _)); [auto with linear|].
  apply (linear_comp (fun x => Z.shiftl x _) (swap_loop 4 7)); auto with linear.
Qed.

Lemma linear_crc_bit ctx : linear (crc_bit ctx).
Proof.
  apply (linear_comp u32); [auto with linear|].
  apply (linear_lxor (fun c => if truth (Z.land (Z.shiftr c (size ctx - 1)) 1) then poly ctx else 0)
    (fun c => Z.shiftl c 1)); [|auto with linear].
  apply (linear_choose (fun c => Z.shiftr c (size ctx - 1))), linear_shiftr.
Qed.

#[export] Hint Resolve linear_reg_of linear_crc_in linear_crc_bit : linear.

Section crca.
Context (ctx : t_crc_ctx) (p : Z).
Hypothesis Hreflect : reflect ctx = true.
Hypothesis Hreg : forallb (fun i => reg_of ctx (Nat.iter 8 (crc_bit ctx) (2^Z.of_nat i)) =?
  Nat.iter 8 (lsb_bit p) (reg_of ctx (2^Z.of_nat i))) (seq 0 32) = true.
Hypothesis Hin : forallb (fun i => reg_of ctx (Nat.iter 8 (crc_bit ctx) (crc_in ctx (2^Z.of_nat i))) =?
  Nat.iter 8 (lsb_bit p) (2^Z.of_nat i)) (seq 0 8) = true.

Lemma crca_byte c b :
  is_u32 c -> is_u8 b -> reg_of ctx (crc_byte ctx c b) = lsb_byte p (reg_of ctx c) b.
Proof.
  intros Hc Hb. unfold crc_byte. rewrite Hreflect. fold (crc_in ctx b). unfold lsb_byte.
  rewrite !(linear_iter 8) by auto with linear. rewrite linear_reg_of. f_equal.
  - revert c Hc. refine (linear_basis 32 (fun c => reg_of ctx (Nat.iter 8 (crc_bit ctx) c))
      (fun c => Nat.iter 8 (lsb_bit p) (reg_of ctx c)) _ _ Hreg).
    + apply linear_comp; auto with linear.
    + apply (linear_comp (Nat.iter 8 (lsb_bit p))); auto with linear.
  - revert b Hb. refine (linear_basis 8 (fun b => reg_of ctx (Nat.iter 8 (crc_bit ctx) (crc_in ctx b)))
      (Nat.iter 8 (lsb_bit p)) _ _ Hin); [|auto with linear].
    apply (linear_comp (reg_of ctx) (fun b => Nat.iter 8 (crc_bit ctx) (crc_in ctx b))); [auto with linear|].
    apply (linear_comp (Nat.iter 8 (crc_bit ctx))); auto with linear.
Qed.

Lemma crc_byte_u32 c b : is_u32 (crc_byte ctx c b).
Proof. unfold crc_byte. simpl. unfold crc_bit at 1. apply Z.mod_pos_bound. lia. Qed.

Lemma crca_update c data :
  is_u32 c -> Forall is_u8 data ->
  reg_of ctx (foldl (crc_byte ctx) c data) = foldl (lsb_byte p) (reg_of ctx c) data.
Proof.
  intros Hc Hd. revert c Hc. induction Hd as [|b data Hb Hd IH]; intros c Hc; simpl; [done|].
  rewrite IH by apply crc_byte_u32. by rewrite crca_byte.
Qed.
End crca.

Lemma crc_run_reflect pr p data :
  reflect (crc_presets pr) = true ->
  forallb (fun i => reg_of (crc_presets pr) (Nat.iter 8 (crc_bit (crc_presets pr)) (2^Z.of_nat i)) =?
    Nat.iter 8 (lsb_bit p) (reg_of (crc_presets pr) (2^Z.of_nat i))) (seq 0 32) = true ->
  forallb (fun i => reg_of (crc_presets pr)
      (Nat.iter 8 (crc_bit (crc_presets pr)) (crc_in (crc_presets pr) (2^Z.of_nat i))) =?
    Nat.iter 8 (lsb_bit p) (2^Z.of_nat i)) (seq 0 8) = true ->
  Forall is_u8 data ->
  crc_run pr data = Z.lxor (foldl (lsb_byte p) (reg_of (crc_presets pr) (crc (crc_presets pr))) data)
                      (xout (crc_presets pr)).
Proof.
  intros Hr H1 H2 Hd. assert (Hc : is_u32 (crc (crc_presets pr))) by (unfold is_u32; destruct pr; simpl; lia).
  rewrite <-(crca_update (crc_presets pr) p Hr H1 H2 _ _ Hc Hd). clear H1 H2.
  unfold crc_run, crc_final, crc_update, set_crc, crc_init_preset. cbn [crc reflect size xout].
  rewrite Hr. reflexivity.
Qed.

(** *** The two table-driven routines *)
Lemma lsb_byte_bound n p c b :
  (8 <= n)%nat -> 0 <= p < 2^Z.of_nat n -> 0 <= c < 2^Z.of_nat n -> is_u8 b ->
  0 <= lsb_byte p c b < 2^Z.of_nat n.
Proof.
  intros Hn Hp Hc Hb. pose proof (Z.pow_le_mono_r 2 8 (Z.of_nat n) ltac:(lia) ltac:(lia)) as Hpow.
  unfold lsb_byte, is_u8 in *.
  assert (H : forall k x, 0 <= x < 2^Z.of_nat n -> 0 <= Nat.iter k (lsb_bit p) x < 2^Z.of_nat n).
  { induction k as [|k IH]; intros x Hx; [done|]. simpl. specialize (IH x Hx).
    apply lxor_bound; [lia| |].
    - rewrite Z.shiftr_div_pow2 by lia. split; [apply Z.div_pos; lia|apply Z.div_lt_upper_bound; lia].
    - destruct (truth _); lia. }
  apply H, lxor_bound; lia.
Qed.

Lemma crc32_byte_lsb c b : is_u32 c -> is_u8 b -> crc32_byte c b = lsb_byte 0xedb88320 c b.
Proof. apply (table_byte _ 32); [lia|vm_compute; reflexivity..]. Qed.

Lemma crc16_byte_lsb c b : is_u16 c -> is_u8 b -> crc16_byte c b = lsb_byte 0xA001 c b.
Proof. apply (table_byte _ 16); [lia|vm_compute; reflexivity..]. Qed.

Lemma crc16_foldl c data : crc16 c data = foldl crc16_byte c data.
Proof. revert c. induction data as [|b data IH]; intros c; simpl; [done|]. apply IH. Qed.

Lemma foldl_lsb n p f c data :
  (8 <= n)%nat -> 0 <= p < 2^Z.of_nat n -> 0 <= c < 2^Z.of_nat n ->
  (forall c b, 0 <= c < 2^Z.of_nat n -> is_u8 b -> f c b = lsb_byte p c b) ->
  Forall is_u8 data -> foldl f c data = foldl (lsb_byte p) c data.
Proof.
  intros Hn Hp Hc Hf Hd. revert c Hc. induction Hd as [|b data Hb Hd IH]; intros c Hc; simpl; [done|].
  rewrite Hf by done. apply IH. by apply lsb_byte_bound.
Qed.

(** ** Properties *)

(** C24: the two implementations of CRC-32 in the tool agree on every buffer: the one driven by
    the table that [crc32] builds, and the bitwise one of [crca.c] with its [CRC_32] preset. *)
Theorem crc32_is_crca data : Forall is_u8 data -> crc32 data = crc_run CRC_32 data.
Proof.
  intros Hd. rewrite (crc_run_reflect CRC_32 0xedb88320) by first [assumption | vm_compute; reflexivity].
  unfold crc32. f_equal.
  replace (reg_of _ _) with 0xffffffff by (vm_compute; reflexivity).
  apply (foldl_lsb 32); [lia|lia|vm_compute; split; congruence|apply crc32_byte_lsb|done].
Qed.

Lemma crc32_is_crca_witness :
  crc32 [49; 50; 51; 52; 53; 54; 55; 56; 57] = crc_run CRC_32 [49; 50; 51; 52; 53; 54; 55; 56; 57].
Proof. apply crc32_is_crca. repeat constructor; done. Defined.

(** [crc16] over a buffer equals the [CRC_16] preset of [crca.c], and can be computed piece
    by piece, the checksum of the first part being the start value of the second. *)
Theorem crc16_is_crca a b :
  Forall is_u8 a -> Forall is_u8 b ->
  crc16 0 (a ++ b) = crc_run CRC_16 (a ++ b) /\ crc16 0 (a ++ b) = crc16 (crc16 0 a) b.
Proof.
  intros Ha Hb. assert (Hd : Forall is_u8 (a ++ b)) by (by apply Forall_app). split.
  - rewrite (crc_run_reflect CRC_16 0xA001) by first [assumption | vm_compute; reflexivity].
    replace (reg_of _ _) with 0 by (vm_compute; reflexivity). simpl (xout _). rewrite Z.lxor_0_r, crc16_foldl.
    apply (foldl_lsb 16); [lia|lia|lia|apply crc16_byte_lsb|done].
  - rewrite !crc16_foldl. apply foldl_app.
Qed.

Lemma crc16_is_crca_witness :
  crc16 0 ([49; 50] ++ [51]) = crc_run CRC_16 ([49; 50] ++ [51]) /\
  crc16 0 ([49; 50] ++ [51]) = crc16 (crc16 0 [49; 50]) [51].
Proof. apply crc16_is_crca; repeat constructor; done. Defined.

(** ** Hamming distance *)

(** The number of set bits. *)
Fixpoint pos_ones (p : positive) : Z :=
  match p with xH => 1 | xO p' => pos_ones p' | xI p' => 1 + pos_ones p' end.
Definition ones (z : Z) : Z := match z with Zpos p => pos_ones p | _ => 0 end.

Lemma ones_double z : 0 <= z -> ones (2 * z) = ones z.
Proof. by destruct z. Qed.

Lemma land_pred p : ones (Z.land (Zpos p) (Zpos p - 1)) = pos_ones p - 1.
Proof.
  induction p as [p IH|p IH|]; [| |done].
  - assert (E : Z.land (Zpos p~1) (Zpos p~1 - 1) = Zpos p~0).
    { replace (Zpos p~1 - 1) with (2 * Zpos p) by lia. change (Zpos p~1) with (2 * Zpos p + 1).
      change (Zpos p~0) with (2 * Zpos p). apply Z.bits_inj'. intros n Hn.
      destruct (Z.eq_dec n 0) as [->|].
      - by rewrite Z.land_spec, Z.testbit_even_0, andb_false_r.
      - replace n with (Z.succ (n - 1)) by lia.
        rewrite Z.land_spec, Z.testbit_even_succ, Z.testbit_odd_succ by lia. apply andb_diag. }
    rewrite E. simpl. lia.
  - assert (E : Z.land (Zpos p~0) (Zpos p~0 - 1) = 2 * Z.land (Zpos p) (Zpos p - 1)).
    { replace (Zpos p~0 - 1) with (2 * (Zpos p - 1) + 1) by lia. change (Zpos p~0) with (2 * Zpos p).
      apply Z.bits_inj'. intros n Hn. destruct (Z.eq_dec n 0) as [->|].
      - rewrite Z.land_spec, !Z.testbit_even_0. done.
      - replace n with (Z.succ (n - 1)) by lia.
        rewrite Z.land_spec, !Z.testbit_even_succ, Z.testbit_odd_succ, Z.land_spec by lia. done. }
    rewrite E, ones_double by (apply Z.land_nonneg; lia). simpl. exact IH.
Qed.

Lemma ones_nonneg z : 0 <= ones z.
Proof.
  destruct z as [|p|p]; [done| |done]. simpl.
  induction p as [p IH|p IH|]; cbn [pos_ones]; lia.
Qed.

Lemma pos_ones_pos p : 1 <= pos_ones p.
Proof.
  induction p as [p IH|p IH|]; cbn [pos_ones]; lia.
Qed.

Lemma land_bound n x y : 0 <= n -> 0 <= x < 2^n -> 0 <= Z.land x y < 2^n.
Proof.
  intros Hn Hx. assert (E : Z.land x y = Z.land x y mod 2^n).
  { rewrite <-Z.land_ones by done. rewrite (Z.land_comm x), <-Z.land_assoc, Z.land_ones by done.
    by rewrite (Z.mod_small x). }
  rewrite E. apply Z.mod_pos_bound. lia.
Qed.

Lemma hamdist_loop_ones fuel dist val :
  is_u32 val -> ones val < Z.of_nat fuel -> hamdist_loop fuel dist val = Some (dist + ones val).
Proof.
  revert dist val. induction fuel as [|fuel IH]; intros dist val Hv Hf.
  { pose proof (ones_nonneg val). lia. }
  cbn [hamdist_loop]. destruct val as [|p|p]; [simpl; f_equal; lia| |destruct Hv; lia].
  assert (Hu : u32 (Zpos p - 1) = Zpos p - 1) by (unfold is_u32 in Hv; apply Z.mod_small; lia).
  change (truth (Zpos p)) with true. cbn iota. rewrite Hu.
  pose proof (land_pred p) as Hl. rewrite IH.
  - f_equal. rewrite Hl. simpl. lia.
  - by apply land_bound.
  - simpl in Hf. lia.
Qed.

Lemma pos_ones_bound n p : Zpos p < 2^Z.of_nat n -> pos_ones p <= Z.of_nat n.
Proof.
  revert p. induction n as [|n IH]; intros p Hp; [simpl in Hp; lia|].
  rewrite Nat2Z.inj_succ, Z.pow_succ_r in Hp by lia.
  destruct p as [p|p|]; cbn [pos_ones]; [specialize (IH p)|specialize (IH p)|]; lia.
Qed.

(** The loop of [hamdist] ends for all arguments, within the turns it is given, and counts
    the bits in which they differ, at most 32. *)
Theorem hamdist_counts x y :
  hamdist x y = Some (ones (u32 (Z.lxor x y))) /\ 0 <= ones (u32 (Z.lxor x y)) <= 32.
Proof.
  unfold hamdist. set (v := u32 (Z.lxor x y)).
  assert (Hv : is_u32 v) by (apply Z.mod_pos_bound; lia).
  assert (Hb : ones v <= 32).
  { destruct v as [|p|p]; simpl; try lia. apply (pos_ones_bound 32). apply Hv. }
  split; [rewrite hamdist_loop_ones by (done || lia); done|]. split; [apply ones_nonneg|done].
Qed.

(** ** Parity, xor and xorpair *)

Lemma bit_lxor x y k :
  0 <= k ->
  exists c, (if truth (Z.land (Z.lxor x y) (2^k)) then 1 else 0) =
    (if truth (Z.land x (2^k)) then 1 else 0) + (if truth (Z.land y (2^k)) then 1 else 0) - 2 * c.
Proof.
  intros Hk. assert (H : forall z, truth (Z.land z (2^k)) = Z.testbit z k).
  { intros z. unfold truth. destruct (Z.testbit z k) eqn:E.
    - destruct (Z.eqb_spec (Z.land z (2^k)) 0) as [H0|]; [|done].
      assert (Z.testbit (Z.land z (2^k)) k = false) as Hf by (rewrite H0; apply Z.testbit_0_l).
      by rewrite Z.land_spec, Z.pow2_bits_true, E in Hf.
    - assert (Z.land z (2^k) = 0) as ->; [|done]. apply Z.bits_inj'. intros n Hn.
      rewrite Z.land_spec, Z.pow2_bits_eqb, Z.testbit_0_l by done.
      destruct (Z.eqb_spec k n) as [<-|]; [by rewrite E|apply andb_false_r]. }
  rewrite !H, Z.lxor_spec.
  destruct (Z.testbit x k), (Z.testbit y k); [exists 1|exists 0|exists 0|exists 0]; done.
Qed.

Lemma ones_of_lxor x y : ones_of (Z.lxor x y) mod 2 = (ones_of x + ones_of y) mod 2.
Proof.
  unfold ones_of. destruct (bit_lxor x y 0) as [c0 H0], (bit_lxor x y 1) as [c1 H1],
    (bit_lxor x y 2) as [c2 H2], (bit_lxor x y 3) as [c3 H3], (bit_lxor x y 4) as [c4 H4],
    (bit_lxor x y 5) as [c5 H5], (bit_lxor x y 6) as [c6 H6], (bit_lxor x y 7) as [c7 H7]; [lia..|].
  change (2^0) with 1 in H0. change (2^1) with 2 in H1. change (2^2) with 4 in H2.
  change (2^3) with 8 in H3. change (2^4) with 16 in H4. change (2^5) with 32 in H5.
  change (2^6) with 64 in H6. change (2^7) with 128 in H7.
  rewrite H0, H1, H2, H3, H4, H5, H6, H7.
  rewrite <-(Z_mod_plus_full _ (c0 + c1 + c2 + c3 + c4 + c5 + c6 + c7) 2). f_equal. lia.
Qed.

Lemma hash_par_gen buf n x :
  Forall is_u8 buf -> is_u8 x -> n mod 2 = ones_of x mod 2 ->
  foldl (fun ones x => u32 (ones + ones_of x)) n buf mod 2 = ones_of (foldl Z.lxor x buf) mod 2.
Proof.
  intros Hb. revert n x. induction Hb as [|b buf Hb Hbuf IH]; intros n x Hx Hn; [done|]. simpl.
  apply IH; [by apply (lxor_bound 8)|]. rewrite ones_of_lxor.
  unfold u32. rewrite <-Znumtheory.Zmod_div_mod by (lia || exists (2^31); lia).
  by rewrite Zplus_mod, Hn, <-Zplus_mod.
Qed.

Lemma lxor_pair lo hi r :
  is_u8 lo -> is_u8 hi -> is_u16 r ->
  let v := Z.lxor r (lo + 256 * hi) in
  is_u16 v /\ Z.lxor (v mod 256) (v / 256) = Z.lxor (Z.lxor (Z.lxor (r mod 256) (r / 256)) lo) hi.
Proof.
  intros Hlo Hhi Hr v. unfold is_u8, is_u16 in Hlo, Hhi, Hr. split; [apply (lxor_bound 16); lia|].
  assert (Hm : (lo + 256 * hi) mod 256 = lo).
  { rewrite Z.mul_comm, Z_mod_plus_full. apply Z.mod_small. lia. }
  assert (Hd : (lo + 256 * hi) / 256 = hi).
  { rewrite Z.mul_comm, Z.div_add, Z.div_small by lia. lia. }
  assert (Ev : v mod 256 = Z.lxor (r mod 256) lo).
  { unfold v. change 256 with (2^8) in *. rewrite <-!Z.land_ones by lia. rewrite linear_land.
    rewrite (Z.land_ones (lo + _)) by lia. by rewrite Hm. }
  assert (Ed : v / 256 = Z.lxor (r / 256) hi).
  { unfold v. change 256 with (2^8) in *. rewrite <-!Z.shiftr_div_pow2, Z.shiftr_lxor by lia.
    rewrite (Z.shiftr_div_pow2 (lo + _)) by lia. by rewrite Hd. }
  rewrite Ev, Ed, lxor_swap, <-Z.lxor_assoc. done.
Qed.

Lemma xorpair_gen n a r :
  length a = (2 * n)%nat -> Forall is_u8 a -> is_u16 r ->
  is_u16 (xorpair_loop n r a) /\
  Z.lxor (xorpair_loop n r a mod 256) (xorpair_loop n r a / 256) =
    foldl Z.lxor (Z.lxor (r mod 256) (r / 256)) a.
Proof.
  revert a r. induction n as [|n IH]; intros a r Hl Ha Hr.
  { apply nil_length_inv in Hl as ->. done. }
  destruct a as [|lo [|hi a]]; simpl in Hl; [lia..|].
  apply Forall_cons in Ha as [Hlo Ha]. apply Forall_cons in Ha as [Hhi Ha].
  destruct (lxor_pair lo hi r Hlo Hhi Hr) as [H1 H2]. cbn [xorpair_loop foldl].
  rewrite <-H2. apply IH; [lia|done|done].
Qed.

(** On a buffer the three exclusive-or checksums agree with each other: the parity is that
    of the xor byte, and with an even number of bytes the xor byte is the xor of the two halves
    of the pair checksum. *)
Theorem hash_xor_consistent (buf : list Z) :
  Forall is_u8 buf ->
  hash_par buf = ones_of (hash_xor buf) mod 2 /\
  (Nat.Even (length buf) ->
   hash_xor buf = Z.lxor (hash_xorpair buf mod 256) (hash_xorpair buf / 256)).
Proof.
  intros Hb. split; [by apply hash_par_gen|]. intros [n Hn].
  unfold hash_xorpair, hash_xor. rewrite Hn, Nat.div2_double.
  destruct (xorpair_gen n buf 0 Hn Hb) as [_ ->]; [done|]. done.
Qed.

Lemma hash_xor_consistent_witness :
  hash_par [0x12; 0x34; 0x56; 0x78] = ones_of (hash_xor [0x12; 0x34; 0x56; 0x78]) mod 2 /\
  (Nat.Even 4 -> hash_xor [0x12; 0x34; 0x56; 0x78] =
    Z.lxor (hash_xorpair [0x12; 0x34; 0x56; 0x78] mod 256) (hash_xorpair [0x12; 0x34; 0x56; 0x78] / 256)).
Proof. apply (hash_xor_consistent [0x12; 0x34; 0x56; 0x78]). repeat constructor; done. Defined.
