(* ===== verification/Java.v ===== *)
(** * Java bytecode: [src/rabin/javasm.c] (the assembler and disassembler) and [src/arch/java/code.c]

    One table of opcodes serves the disassembler, the assembler and the code analysis.  The
    constant pool of a loaded class is a list of its items. *)
From S2P Require Import Prelude Arch.
#[local] Open Scope string_scope.
#[local] Open Scope Z_scope.

Record java_op := JavaOp { o_name : string; o_byte : Z; o_size : Z }.

(** The table, in its two halves. *)
Definition java_ops_a : list java_op := (
  [JavaOp "aconst_null" 0x01 1; JavaOp "aload" 0x19 2; JavaOp "aload_0" 0x2a 1;
    JavaOp "aload_1" 0x2b 1; JavaOp "aload_2" 0x2c 1; JavaOp "aload_3" 0x2d 1;
    JavaOp "areturn" 0xb0 1; JavaOp "arraylength" 0xbe 1; JavaOp "astore" 0x3a 2;
    JavaOp "astore_0" 0x4b 1; JavaOp "astore_1" 0x4c 1; JavaOp "astore_2" 0x4d 1;
    JavaOp "astore_3" 0x4e 1; JavaOp "athrow" 0xbf 1; JavaOp "baload" 0x33 1;
    JavaOp "bastore" 0x54 1; JavaOp "bipush" 0x10 2; JavaOp "caload" 0x34 1;
    JavaOp "castore" 0x55 1; JavaOp "checkcast" 0xc0 3; JavaOp "d2f" 0x90 1; JavaOp "d2i" 0x8e 1;
    JavaOp "d2l" 0x8f 1; JavaOp "dadd" 0x63 1; JavaOp "daload" 0x31 1; JavaOp "dastore" 0x52 1;
    JavaOp "dcmpg" 0x98 1; JavaOp "dcmpl" 0x97 1; JavaOp "dconst_0" 0x0e 1;
    JavaOp "dconst_1" 0x0f 1; JavaOp "ddiv" 0x6f 1; JavaOp "dload" 0x18 2; JavaOp "dload_0" 0x26 1;
    JavaOp "dload_1" 0x27 1; JavaOp "dload_2" 0x28 1; JavaOp "dload_3" 0x29 1; JavaOp "dmul" 0x6b 1;
    JavaOp "dneg" 0x77 1; JavaOp "drem" 0x73 1; JavaOp "dreturn" 0xaf 1; JavaOp "dstore" 0x39 2;
    JavaOp "dstore_0" 0x47 1; JavaOp "dstore_1" 0x48 1; JavaOp "dstore_2" 0x49 1;
    JavaOp "dstore_3" 0x4a 1; JavaOp "dsub" 0x67 1; JavaOp "dup" 0x59 1; JavaOp "dup_x1" 0x5a 1;
    JavaOp "dup_x2" 0x5b 1; JavaOp "dup2" 0x5c 1; JavaOp "dup2_x1" 0x5d 1; JavaOp "dup2_x2" 0x5e 1;
    JavaOp "f2d" 0x8d 1; JavaOp "f2i" 0x8b 1; JavaOp "f2l" 0x8c 1; JavaOp "fadd" 0x62 1;
    JavaOp "faload" 0x30 1; JavaOp "fastore" 0x51 1; JavaOp "fcmpg" 0x96 1; JavaOp "fcmpl" 0x95 1;
    JavaOp "fconst_0" 0x0b 1; JavaOp "fconst_1" 0x0c 1; JavaOp "fconst_2" 0x0d 1;
    JavaOp "fdiv" 0x6e 1; JavaOp "fload" 0x17 2; JavaOp "fload_0" 0x22 1; JavaOp "fload_1" 0x23 1;
    JavaOp "fload_2" 0x24 1; JavaOp "fload_3" 0x25 1; JavaOp "fmul" 0x6a 1; JavaOp "fneg" 0x76 1;
    JavaOp "frem" 0x72 1; JavaOp "freturn" 0xae 1; JavaOp "fstore" 0x38 2; JavaOp "fstore_0" 0x43 1;
    JavaOp "fstore_1" 0x44 1; JavaOp "fstore_2" 0x45 1; JavaOp "fstore_3" 0x46 1;
    JavaOp "fsub" 0x66 1; JavaOp "getfield" 0xb4 3; JavaOp "getstatic" 0xb2 3; JavaOp "goto" 0xa7 3;
    JavaOp "goto_w" 0xc8 5; JavaOp "i2b" 0x91 1; JavaOp "i2c" 0x92 1; JavaOp "i2d" 0x87 1;
    JavaOp "i2f" 0x86 1; JavaOp "i2l" 0x85 1; JavaOp "i2s" 0x93 1; JavaOp "iadd" 0x60 1;
    JavaOp "iaload" 0x2e 1; JavaOp "iand" 0x7e 1; JavaOp "iastore" 0x4f 1;
    JavaOp "iconst_m1" 0x02 1; JavaOp "iconst_0" 0x03 1; JavaOp "iconst_1" 0x04 1;
    JavaOp "iconst_2" 0x05 1; JavaOp "iconst_3" 0x06 1; JavaOp "iconst_4" 0x07 1;
    JavaOp "iconst_5" 0x08 1; JavaOp "idiv" 0x6c 1; JavaOp "if_acmpeq" 0xa5 3]).

Definition java_ops_b : list java_op := (
  [JavaOp "if_acmpne" 0xa6 3; JavaOp "if_icmpeq" 0x9f 3; JavaOp "if_icmpne" 0xa0 3;
    JavaOp "if_icmplt" 0xa1 3; JavaOp "if_icmpge" 0xa2 3; JavaOp "if_icmpgt" 0xa3 3;
    JavaOp "if_icmple" 0xa4 3; JavaOp "ifeq" 0x99 3; JavaOp "ifne" 0x9a 3; JavaOp "iflt" 0x9b 3;
    JavaOp "ifge" 0x9c 3; JavaOp "ifgt" 0x9d 3; JavaOp "ifle" 0x9e 3; JavaOp "ifnonnull" 0xc7 3;
    JavaOp "ifnull" 0xc6 3; JavaOp "iinc" 0x84 3; JavaOp "iload" 0x15 2; JavaOp "iload_0" 0x1a 1;
    JavaOp "iload_1" 0x1b 1; JavaOp "iload_2" 0x1c 1; JavaOp "iload_3" 0x1d 1; JavaOp "imul" 0x68 1;
    JavaOp "ineg" 0x74 1; JavaOp "instanceof" 0xc1 3; JavaOp "invokevirtual" 0xb6 3;
    JavaOp "invokespecial" 0xb7 3; JavaOp "invokestatic" 0xb8 3; JavaOp "invokeinterface" 0xb9 5;
    JavaOp "ior" 0x80 1; JavaOp "irem" 0x70 1; JavaOp "ireturn" 0xac 1; JavaOp "ishl" 0x78 1;
    JavaOp "ishr" 0x7a 1; JavaOp "istore" 0x36 2; JavaOp "istore_0" 0x3b 1;
    JavaOp "istore_1" 0x3c 1; JavaOp "istore_2" 0x3d 1; JavaOp "istore_3" 0x3e 1;
    JavaOp "isub" 0x64 1; JavaOp "iushr" 0x7c 1; JavaOp "ixor" 0x82 1; JavaOp "lxor" 0x83 1;
    JavaOp "jsr" 0xa8 3; JavaOp "jsr_w" 0xc9 5; JavaOp "l2d" 0x8a 1; JavaOp "l2f" 0x89 1;
    JavaOp "l2i" 0x88 1; JavaOp "ladd" 0x61 1; JavaOp "laload" 0x2f 1; JavaOp "land" 0x7f 1;
    JavaOp "lastore" 0x50 1; JavaOp "lcmp" 0x94 1; JavaOp "lconst_0" 0x09 1;
    JavaOp "lconst_1" 0x0a 1; JavaOp "ldc" 0x12 2; JavaOp "ldc_w" 0x13 3; JavaOp "ldc2_w" 0x14 3;
    JavaOp "ldiv" 0x6d 1; JavaOp "lload" 0x16 2; JavaOp "lload_0" 0x1e 1; JavaOp "lload_1" 0x1f 1;
    JavaOp "lload_2" 0x20 1; JavaOp "lload_3" 0x21 1; JavaOp "lmul" 0x69 1; JavaOp "lneg" 0x75 1;
    JavaOp "lookupswitch" 0xab 3; JavaOp "lor" 0x81 1; JavaOp "lrem" 0x71 1;
    JavaOp "lreturn" 0xad 1; JavaOp "lshl" 0x79 1; JavaOp "lshr" 0x7b 1; JavaOp "lstore" 0x37 2;
    JavaOp "lstore_0" 0x3f 1; JavaOp "lstore_1" 0x40 1; JavaOp "lstore_2" 0x41 1;
    JavaOp "lstore_3" 0x42 1; JavaOp "lsub" 0x65 1; JavaOp "lushr" 0x7d 1; JavaOp "lxor" 0x83 1;
    JavaOp "monitorenter" 0xc2 1; JavaOp "monitorexit" 0xc3 1; JavaOp "multinewarray" 0xc5 3;
    JavaOp "new" 0xbb 3; JavaOp "newarray" 0xbc 2; JavaOp "nop" 0x00 1; JavaOp "pop" 0x57 1;
    JavaOp "pop2" 0x58 1; JavaOp "putfield" 0xb5 3; JavaOp "putstatic" 0xb3 3; JavaOp "ret" 0xa9 2;
    JavaOp "return" 0xb1 1; JavaOp "saload" 0x35 1; JavaOp "sastore" 0x36 1; JavaOp "sipush" 0x11 3;
    JavaOp "swap" 0x5f 1; JavaOp "tableswitch" 0xaa 3; JavaOp "wide" 0xc4 1;
    JavaOp "breakpoint" 0xca 1; JavaOp "impdep1" 0xfe 1; JavaOp "impdep2" 0xff 1;
    JavaOp "unused" 0xba 1]).

Definition java_ops : list java_op := java_ops_a ++ java_ops_b.

(** ** The constant pool *)

(** [value] is [NULL] or a string; [bytes] is an array of five. *)
Record cp_item := CpItem { c_name : string; c_value : option string; c_bytes : list Z }.

Definition cp_null_item : cp_item := CpItem "(null)" (Some "(null)"%string) [].

(** The pool has [cf.cp_count + 1] items. *)
Definition cp_count (cps : list cp_item) : Z := Z.of_nat (length cps) - 1.

Definition get_cp (cps : list cp_item) (i : Z) : cp_item :=
  if (i <? 0) || (cp_count cps <? i) then cp_null_item
  else default cp_null_item (cps !! Z.to_nat i).

(** [bytes[i]]; the callers pass buffers that hold the opcode's bytes, and a theorem that depends
    on a byte has it in the list. *)
Definition byte_at (bytes : list Z) (i : nat) : Z := default 0 (bytes !! i).
Definition USHORT (x : list Z) (y : nat) : Z :=
  Z.land (Z.lor (byte_at x (y + 1)) (Z.shiftl (byte_at x y) 8)) 0xffff.

(** What [%s] prints. *)
Definition cstr (v : option string) : string := default "(null)"%string v.

(** The text left in [str]: empty when the index is out of range. *)
Definition java_resolve (cps : list cp_item) (idx : Z) : string :=
  if (idx <? 0) || (cp_count cps <? idx) then ""
  else
    let it := get_cp cps idx in
    if String.eqb (c_name it) "MethodRef" || String.eqb (c_name it) "FieldRef" then
      let class := USHORT (c_bytes it) 0 in
      let class_str := c_value (get_cp cps (USHORT (c_bytes (get_cp cps class)) 0 - 1)) in
      let namet_str := c_value (get_cp cps (USHORT (c_bytes (get_cp cps class)) 2 - 1)) in
      (cstr class_str ++ " " ++ cstr namet_str)%string
    else if String.eqb (c_name it) "String" then
      (String (chr 34) (cstr (c_value (get_cp cps (USHORT (c_bytes it) 0 - 1)))) ++ String (chr 34) "")%string
    else if String.eqb (c_name it) "Utf8" then
      (String (chr 34) (cstr (c_value it)) ++ String (chr 34) "")%string
    else ("0x" ++ fmt_x0 4 (USHORT (c_bytes it) 0))%string.

(** ** The disassembler *)

(** The size of the opcode and its text; [bytes] is the code from the opcode on. *)
Definition java_print_opcode (cps : list cp_item) (op : java_op) (bytes : list Z) : Z * string :=
  if existsb (Z.eqb (o_byte op)) [0x12; 0x13; 0x14] then
    (o_size op, (o_name op ++ " " ++ java_resolve cps (byte_at bytes 1 - 1))%string)
  else if existsb (Z.eqb (o_byte op)) [0xb2; 0xb6; 0xb7; 0xb8; 0xb9] then
    (o_size op, (o_name op ++ " " ++ java_resolve cps (USHORT bytes 1 - 1))%string)
  else
    let output :=
      if o_size op =? 1 then o_name op
      else if o_size op =? 2 then (o_name op ++ " " ++ fmt_d (byte_at bytes 0))%string
      else if o_size op =? 3 then
        (o_name op ++ " 0x" ++ fmt_x (byte_at bytes 0) ++ " 0x" ++ fmt_x (byte_at bytes 1))%string
      else if o_size op =? 5 then (o_name op ++ " " ++ fmt_d (byte_at bytes 0))%string
      else ""%string in
    (o_size op, output).

Fixpoint find_byte (b : Z) (ops : list java_op) : option java_op :=
  match ops with
  | [] => None
  | op :: ops' => if b =? o_byte op then Some op else find_byte b ops'
  end.

(** -1 and no text for a byte that is not in the table. *)
Definition java_disasm (cps : list cp_item) (bytes : list Z) : Z * string :=
  match find_byte (byte_at bytes 0) java_ops with
  | Some op => java_print_opcode cps op bytes
  | None => (-1, ""%string)
  end.

(** ** The assembler *)

Definition is_space (c : ascii) : bool :=
  let z := ord c in (z =? 32) || ((9 <=? z) && (z <=? 13)).

Fixpoint skip_blanks (s : string) : string :=
  match s with String c s' => if is_space c then skip_blanks s' else s | EmptyString => s end.

(** [%s]: the characters up to the next blank. *)
Fixpoint scan_word (s : string) : string * string :=
  match s with
  | String c s' =>
    if is_space c then (EmptyString, s) else let '(w, r) := scan_word s' in (String c w, r)
  | EmptyString => (EmptyString, EmptyString)
  end.

Definition is_digit (c : ascii) : bool := (48 <=? ord c) && (ord c <=? 57).

Fixpoint scan_digits (acc : Z) (s : string) : Z * string :=
  match s with
  | String c s' => if is_digit c then scan_digits (acc * 10 + (ord c - 48)) s' else (acc, s)
  | EmptyString => (acc, EmptyString)
  end.

Definition scan_nat (s : string) : option (Z * string) :=
  match s with
  | String c _ => if is_digit c then Some (scan_digits 0 s) else None
  | EmptyString => None
  end.

(** [%d] *)
Definition scan_int (s : string) : option (Z * string) :=
  match skip_blanks s with
  | String "-" s' => r ← scan_nat s'; Some (- r.1, r.2)
  | String "+" s' => scan_nat s'
  | s' => scan_nat s'
  end.

(** Up to [n] numbers; the scan stops at the first that is missing. *)
Fixpoint scan_ints (n : nat) (s : string) : list Z :=
  match n with
  | O => []
  | S n' => match scan_int s with Some (v, s') => v :: scan_ints n' s' | None => [] end
  end.

Fixpoint find_name (nm : string) (ops : list java_op) : option java_op :=
  match ops with
  | [] => None
  | op :: ops' => if String.eqb nm (o_name op) then Some op else find_name nm ops'
  end.

(** The size of the opcode and the bytes written: [None] when a number the opcode needs is
    missing (the source then stores an uninitialised variable) or when there is no word for
    [name]; size 0 and no bytes for an unknown name. *)
Definition java_assemble (s : string) : option (Z * list Z) :=
  let '(nm, rest) := scan_word (skip_blanks s) in
  let args := scan_ints 4 rest in
  match nm with
  | EmptyString => None
  | _ =>
    match find_name nm java_ops with
    | None => Some (0, [])
    | Some op =>
      let needed := if o_size op =? 2 then 1 else if o_size op =? 3 then 2 else if o_size op =? 5 then 4 else 0 in
      if bool_decide (Z.of_nat (length args) < needed) then None
      else Some (o_size op, o_byte op :: (u8 <$> take (Z.to_nat needed) args))
    end
  end.

(** ** Code analysis *)

(** The loop of [arch_java_aop] has no [break]: the last entry of the table counts. *)
Definition java_size (b : Z) : Z :=
  foldl (fun sz op => if b =? o_byte op then o_size op else sz) 1 java_ops.

Definition java_type (b : Z) : option aop_type :=
  let any := existsb (Z.eqb b) in
  if any [0xa9; 0xb1; 0xb0; 0xaf; 0xae; 0xac; 0xad] then Some AOP_TYPE_RET
  else if any [0xa7; 0xc8] then Some AOP_TYPE_JMP
  else if any [0xa5; 0xa6; 0x9f; 0xa0; 0xa1; 0xa2; 0xa3; 0xa4; 0x99; 0x9a; 0x9b; 0x9c; 0x9d; 0x9e;
              0xc7; 0xc6] then Some AOP_TYPE_CJMP
  else if any [0xa8; 0xc9] then Some AOP_TYPE_CALL
  else if any [0xb9; 0xb7; 0xb8; 0xb6; 0xbb; 0xbc; 0xc5] then Some AOP_TYPE_SWI
  else if any [0xca; 0xbf] then Some AOP_TYPE_TRAP
  else if any [0x00] then Some AOP_TYPE_NOP
  else if any [0xba] then Some AOP_TYPE_ILL
  else if any [0x57; 0x58] then Some AOP_TYPE_POP
  else if any [0x10; 0x11; 0x59; 0x5a; 0x5b; 0x5c; 0x5d; 0x5e] then Some AOP_TYPE_PUSH
  else if any [0x60; 0x61; 0x62; 0x63] then Some AOP_TYPE_ADD
  else if any [0x64; 0x65; 0x66; 0x67] then Some AOP_TYPE_SUB
  else if any [0x76] then Some AOP_TYPE_NOT
  else if any [0x78; 0x79] then Some AOP_TYPE_SHL
  else if any [0x7a; 0x7b] then Some AOP_TYPE_SHR
  else if any [0x80; 0x81] then Some AOP_TYPE_OR
  else if any [0x82; 0x83] then Some AOP_TYPE_XOR
  else if any [0x7e; 0x7f] then Some AOP_TYPE_AND
  else if any [0x68; 0x69; 0x6a; 0x6b] then Some AOP_TYPE_MUL
  else if any [0x6c; 0x6d; 0x6e; 0x6f] then Some AOP_TYPE_DIV
  else None.

Definition arch_java_aop (addr : Z) (bytes : list Z) : Z * aop_t :=
  let b := byte_at bytes 0 in
  let sz := java_size b in
  let aop := set_length sz (set_type AOP_TYPE_UNK aop_zero) in
  let aop :=
    match java_type b with
    | Some AOP_TYPE_RET => set_eob true (set_type AOP_TYPE_RET aop)
    | Some AOP_TYPE_JMP => set_eob true (set_jump 0 (set_type AOP_TYPE_JMP aop))
    | Some (AOP_TYPE_CJMP as t) | Some (AOP_TYPE_CALL as t) =>
      set_eob true (set_fail (u64 (addr + sz)) (set_jump 0 (set_type t aop)))
    | Some t => set_type t aop
    | None => aop
    end in
  (sz, aop).

(** ** Texts that the scanner reads back *)

(** A word of the table: not empty, no blanks. *)
Fixpoint no_blanks (s : string) : bool :=
  match s with String c s' => negb (is_space c) && no_blanks s' | EmptyString => true end.

Lemma scan_word_spec w c rest :
  no_blanks w = true -> is_space c = true -> scan_word (w ++ String c rest) = (w, String c rest).
Proof.
  intros Hw Hc. induction w as [|a w IH]; cbn [String.append scan_word]; [by rewrite Hc|].
  cbn [no_blanks] in Hw. apply andb_true_iff in Hw as [Ha Hw].
  destruct (is_space a); [done|]. by rewrite IH.
Qed.

Fixpoint all_digits (s : string) : bool :=
  match s with String c s' => is_digit c && all_digits s' | EmptyString => true end.

(** What follows a number. *)
Definition no_digit (s : string) : bool :=
  match s with String c _ => negb (is_digit c) | EmptyString => true end.

Lemma scan_digits_app acc d rest :
  all_digits d = true -> no_digit rest = true ->
  scan_digits acc (d ++ rest) = ((scan_digits acc d).1, rest).
Proof.
  revert acc. induction d as [|c d IH]; intros acc Hd Hr; cbn [String.append scan_digits].
  - destruct rest as [|c rest]; [done|]. simpl in *. by destruct (is_digit c).
  - cbn [all_digits] in Hd. apply andb_true_iff in Hd as [-> Hd]. by apply IH.
Qed.

(** The decimal text of a byte. *)
Definition byte_text_ok (v : Z) : bool :=
  match fmt_d v with
  | String c d => is_digit c && all_digits d && negb (is_space c) &&
                  ((scan_digits 0 (String c d)).1 =? v) && negb (Ascii.eqb c "-") && negb (Ascii.eqb c "+")
  | EmptyString => false
  end.

Lemma byte_text v : is_u8 v -> byte_text_ok v = true.
Proof. apply (forallb_below byte_text_ok 256). vm_compute. reflexivity. Qed.

Lemma scan_int_blank s : scan_int (String " " s) = scan_int s.
Proof. done. Qed.

Lemma scan_int_byte v rest :
  is_u8 v -> no_digit rest = true -> scan_int (String " " (fmt_d v ++ rest)) = Some (v, rest).
Proof.
  intros Hv Hr. pose proof (byte_text v Hv) as Hb. unfold byte_text_ok in Hb.
  destruct (fmt_d v) as [|c d] eqn:E; [done|]. rewrite !andb_true_iff, !negb_true_iff in Hb.
  destruct Hb as [[[[[Hc Hd] Hs] Hval] Hm] Hp]. rewrite scan_int_blank. unfold scan_int.
  cbn [String.append skip_blanks]. rewrite Hs.
  assert (Hn : scan_nat (String c (d ++ rest)) = Some (v, rest)).
  { unfold scan_nat. rewrite Hc. f_equal. change (String c (d ++ rest)) with (String c d ++ rest)%string.
    rewrite scan_digits_app; [|by simpl; rewrite Hc|done]. apply Z.eqb_eq in Hval. by rewrite Hval. }
  apply Ascii.eqb_neq in Hm, Hp. clear Hc Hs Hval.
  destruct c as [[|] [|] [|] [|] [|] [|] [|] [|]]; first [exact Hn | done].
Qed.

(** The operands as [java_assemble] expects them behind the mnemonic. *)
Fixpoint args_text (args : list Z) : string :=
  match args with
  | [] => ""
  | v :: args' => String " " (fmt_d v ++ args_text args')
  end.

Lemma args_text_no_digit args : no_digit (args_text args) = true.
Proof. by destruct args. Qed.

Lemma scan_ints_args n args :
  Forall is_u8 args -> scan_ints n (args_text args) = take n args.
Proof.
  intros Ha. revert n. induction Ha as [|v args Hv Ha IH]; intros [|n]; [done..|].
  cbn [args_text scan_ints]. rewrite scan_int_byte by (done || apply args_text_no_digit). simpl. by rewrite IH.
Qed.

(** *** The table *)

Definition needed (op : java_op) : nat :=
  if o_size op =? 2 then 1 else if o_size op =? 3 then 2 else if o_size op =? 5 then 4 else 0.

(** Facts about all entries, by evaluation: mnemonics are words that the search by name finds,
    sizes are those the assembler knows, and the search by opcode finds the same mnemonic for
    every entry but [sastore]. *)
Definition entry_ok (op : java_op) : bool :=
  no_blanks (o_name op) && negb (String.eqb (o_name op) "") &&
  match find_name (o_name op) java_ops with
  | Some op' => (o_byte op' =? o_byte op) && (o_size op' =? o_size op)
  | None => false
  end &&
  existsb (Z.eqb (o_size op)) [1; 2; 3; 5] && (0 <=? o_byte op) && (o_byte op <? 256).

Definition decode_ok (op : java_op) : bool :=
  String.eqb (o_name op) "sastore" ||
  match find_byte (o_byte op) java_ops with
  | Some op' => String.eqb (o_name op') (o_name op) && (o_byte op' =? o_byte op) && (o_size op' =? o_size op)
  | None => false
  end.

Lemma java_ops_entry op : op ∈ java_ops -> entry_ok op = true.
Proof.
  intros Hop. assert (H : forallb entry_ok java_ops = true) by (vm_compute; reflexivity).
  rewrite forallb_forall in H. by apply H, list_elem_of_In.
Qed.

Lemma java_ops_decode op : op ∈ java_ops -> decode_ok op = true.
Proof.
  intros Hop. assert (H : forallb decode_ok java_ops = true) by (vm_compute; reflexivity).
  rewrite forallb_forall in H. by apply H, list_elem_of_In.
Qed.

Lemma is_space_blank : is_space " " = true.
Proof. done. Qed.

Lemma skip_blanks_word w rest :
  no_blanks w = true -> w <> ""%string -> skip_blanks (w ++ rest) = (w ++ rest)%string.
Proof.
  destruct w as [|c w]; [done|]. cbn [no_blanks String.append skip_blanks]. intros Hw _.
  apply andb_true_iff in Hw as [Hc _]. by destruct (is_space c).
Qed.

Lemma scan_name w args :
  no_blanks w = true -> w <> ""%string -> scan_word (skip_blanks (w ++ args_text args)) = (w, args_text args).
Proof.
  intros Hw Hne. rewrite skip_blanks_word by done. destruct args as [|v args].
  - simpl. clear Hne. induction w as [|c w IH]; [done|]. cbn [no_blanks] in Hw.
    apply andb_true_iff in Hw as [Hc Hw]. cbn [String.append scan_word]. rewrite (IH Hw).
    by destruct (is_space c).
  - by apply scan_word_spec.
Qed.

Lemma java_assemble_entry op args :
  op ∈ java_ops -> Forall is_u8 args -> (length args = 4)%nat ->
  java_assemble (o_name op ++ args_text args) = Some (o_size op, o_byte op :: take (needed op) args).
Proof.
  intros Hop Ha Hl. pose proof (java_ops_entry op Hop) as He. unfold entry_ok in He.
  rewrite !andb_true_iff in He. destruct He as [[[[[Hw Hne] Hf] Hsz] _] _].
  apply negb_true_iff, String.eqb_neq in Hne.
  unfold java_assemble. rewrite scan_name by done.
  destruct (o_name op) as [|c w] eqn:En; [done|].
  destruct (find_name (String c w) java_ops) as [op'|] eqn:Ef; [|done].
  apply andb_true_iff in Hf as [Hb%Z.eqb_eq Hs%Z.eqb_eq]. rewrite Hb, Hs.
  rewrite scan_ints_args by done. rewrite (take_ge args 4) by lia.
  set (nd := if o_size op =? 2 then 1 else _).
  assert (Hnd : nd = Z.of_nat (needed op)) by (unfold nd, needed; repeat case_match; done).
  rewrite bool_decide_eq_false_2.
  - rewrite Hnd, Nat2Z.id. do 3 f_equal.
    assert (Ht : Forall is_u8 (take (needed op) args)) by (by apply Forall_take).
    induction Ht as [|v l Hv Hl' IH]; [done|]. csimpl. rewrite IH. f_equal. apply Z.mod_small, Hv.
  - rewrite Hnd, Hl. unfold needed. repeat case_match; lia.
Qed.

(** ** Properties *)

(** Assembling the mnemonic of any table entry with its operands and disassembling the bytes
    gives the entry's size and a text that starts with the same mnemonic; the one exception is
    [sastore], whose opcode byte in the table is that of [istore]. *)
Theorem java_roundtrip cps op args rest :
  op ∈ java_ops -> o_name op <> "sastore"%string -> Forall is_u8 args -> length args = 4%nat ->
  exists bytes txt,
    java_assemble (o_name op ++ args_text args) = Some (o_size op, bytes) /\
    Z.of_nat (length bytes) = o_size op /\
    java_disasm cps (bytes ++ rest) = (o_size op, (o_name op ++ txt)%string).
Proof.
  intros Hop Hne Ha Hl. pose proof (java_ops_decode op Hop) as Hd. unfold decode_ok in Hd.
  pose proof (java_ops_entry op Hop) as He. unfold entry_ok in He. rewrite !andb_true_iff in He.
  destruct He as [[[_ Hsz] _] _].
  destruct (String.eqb_spec (o_name op) "sastore"); [done|]. cbn [orb] in Hd.
  destruct (find_byte (o_byte op) java_ops) as [op'|] eqn:Ef; [|done].
  rewrite !andb_true_iff in Hd. destruct Hd as [[Hn%String.eqb_eq Hb%Z.eqb_eq] Hs%Z.eqb_eq].
  assert (Hcase : o_size op = 1 \/ o_size op = 2 \/ o_size op = 3 \/ o_size op = 5).
  { simpl in Hsz. rewrite !orb_true_iff, !Z.eqb_eq in Hsz. intuition lia. }
  exists (o_byte op :: take (needed op) args).
  assert (Htxt : exists txt, java_print_opcode cps op' (o_byte op :: take (needed op) args ++ rest) =
    (o_size op, (o_name op ++ txt)%string)).
  { clear Hsz. unfold java_print_opcode. rewrite Hs, Hn.
    destruct (existsb _ [_; _; _]); [eexists; reflexivity|].
    destruct (existsb _ [_; _; _; _; _]); [eexists; reflexivity|].
    destruct Hcase as [-> | [-> | [-> | ->]]]; simpl; try (eexists; reflexivity).
    exists ""%string. f_equal. clear. induction (o_name op) as [|c w IH]; [done|]. simpl. by rewrite <-IH. }
  destruct Htxt as [txt Htxt]. exists txt. split_and!.
  - by apply java_assemble_entry.
  - simpl. rewrite length_take, Hl. unfold needed.
    destruct Hcase as [-> | [-> | [-> | ->]]]; done.
  - unfold java_disasm. change (byte_at _ 0) with (o_byte op). rewrite Ef. exact Htxt.
Qed.

Lemma java_roundtrip_witness :
  exists bytes txt,
    java_assemble "goto 1 44 0 0" = Some (3, bytes) /\ Z.of_nat (length bytes) = 3 /\
    java_disasm [] (bytes ++ []) = (3, ("goto" ++ txt)%string).
Proof.
  apply (java_roundtrip [] (JavaOp "goto" 0xa7 3) [1; 44; 0; 0] []); [|done|repeat constructor; done|done].
  apply (list_elem_of_lookup_2 _ 81). vm_compute. reflexivity.
Defined.

(** The analysis and the disassembler agree on the size of every opcode of the table but
    [0x36], which the table lists twice: the disassembler stops at [istore] with two bytes, the
    analysis goes on to [sastore] with one.  A byte that is not in the table has size 1 in the
    analysis and none in the disassembler. *)
Theorem java_sizes_agree cps addr b rest :
  is_u8 b ->
  let '(sz, aop) := arch_java_aop addr (b :: rest) in
  let dsz := (java_disasm cps (b :: rest)).1 in
  a_length aop = sz /\
  (if b =? 0x36 then sz = 1 /\ dsz = 2 else dsz = sz \/ (sz = 1 /\ dsz = -1)).
Proof.
  intros Hb.
  assert (Hd : (java_disasm cps (b :: rest)).1 =
    match find_byte b java_ops with Some op => o_size op | None => -1 end).
  { unfold java_disasm. change (byte_at (b :: rest) 0) with b. destruct (find_byte b java_ops) as [op|]; [|done].
    unfold java_print_opcode. by repeat case_match. }
  assert (Hs : (fun b => if b =? 0x36 then (java_size b =? 1) &&
      (match find_byte b java_ops with Some op => o_size op | None => -1 end =? 2)
    else (match find_byte b java_ops with Some op => o_size op | None => -1 end =? java_size b) ||
      ((java_size b =? 1) && (match find_byte b java_ops with Some op => o_size op | None => -1 end =? -1))) b = true).
  { revert b Hb Hd. intros b Hb _. revert b Hb. apply (forallb_below _ 256). vm_compute. reflexivity. }
  cbn beta in Hs. unfold arch_java_aop. change (byte_at (b :: rest) 0) with b.
  rewrite Hd. clear Hd. split.
  - by destruct (java_type b) as [[]|].
  - destruct (b =? 0x36).
    + by apply andb_true_iff in Hs as [?%Z.eqb_eq ?%Z.eqb_eq].
    + apply orb_true_iff in Hs as [?%Z.eqb_eq|[?%Z.eqb_eq ?%Z.eqb_eq]%andb_true_iff]; auto.
Qed.

Lemma java_sizes_agree_witness :
  let '(sz, aop) := arch_java_aop 0 [0xa7; 0; 5] in
  a_length aop = sz /\ ((java_disasm [] [0xa7; 0; 5]).1 = sz \/ (sz = 1 /\ (java_disasm [] [0xa7; 0; 5]).1 = -1)).
Proof. apply (java_sizes_agree [] 0 0xa7 [0; 5]). done. Defined.
