(* ===== verification/Csr.v ===== *)
(** * The CSR (XAP) disassembler: [src/arch/csr/dis.c], [dis.h], [code.c]

    An instruction is a 16-bit word, [struct instruction] its bit fields from the low end.  The
    decoder keeps the prefixes seen so far in [struct state]; [d_asm] is a buffer of 128
    characters, here a string whose length is bounded in [csr_decode_safe]. *)
From S2P Require Import Prelude Arch.

(** ** Words *)
Definition in_mode (w : Z) : Z := Z.land w 3.
Definition in_reg (w : Z) : Z := Z.land (Z.shiftr w 2) 3.
Definition in_opcode (w : Z) : Z := Z.land (Z.shiftr w 4) 15.
Definition in_operand (w : Z) : Z := Z.land (Z.shiftr w 8) 255.

Definition INST_NOP : Z := 0x0000.
Definition INST_BRK : Z := 0x0004.
Definition INST_SLEEP : Z := 0x0008.
Definition INST_U : Z := 0x0009.
Definition INST_SIF : Z := 0x000C.
Definition INST_RTS : Z := 0x00E2.
Definition INST_BRXL : Z := 0xfe09.
Definition INST_BC : Z := 0xff09.

Definition DATA_MODE_IMMEDIATE : Z := 0.
Definition DATA_MODE_INDEXED_X : Z := 2.
Definition ADDR_MODE_RELATIVE : Z := 0.
Definition ADDR_MODE_X_RELATIVE : Z := 2.

(** The fields of [struct state] that the decoder uses. *)
Record state := State { s_prefix : Z; s_prefix_val : Z; s_u : bool; s_nop : Z; s_off : Z }.

Definition state_zero : state := State 0 0 false 0 0.

Record directive := Directive { d_inst : Z; d_operand : Z; d_prefix : Z; d_off : Z; d_asm : string }.

Definition set_asm (t : string) (d : directive) : directive :=
  Directive (d_inst d) (d_operand d) (d_prefix d) (d_off d) t.

(** ** Text *)

Definition digit_X (d : Z) : ascii := chr (if d <? 10 then 48 + d else 55 + d).

Fixpoint digits_X (fuel : nat) (z : Z) (acc : string) : string :=
  match fuel with
  | O => acc
  | S fuel' =>
    let acc := String (digit_X (z mod 16)) acc in
    if z <? 16 then acc else digits_X fuel' (z / 16) acc
  end.

(** [%.wX] of an [int]. *)
Definition fmt_X (w : nat) (z : Z) : string :=
  let s := digits_X 8 (u32 z) "" in pad "0" (w - String.length s) s.

(** [%4x] *)
Definition fmt_4x (z : Z) : string :=
  let s := fmt_x z in pad " " (4 - String.length s) s.

Definition decode_unknown (d : directive) : directive :=
  set_asm ("DC" ++ String (chr 9) ("0x" ++ fmt_4x (d_inst d)))%string d.

(** ** [decode_fixed] *)
Definition decode_fixed (s : state) (d : directive) : state * directive * bool :=
  let i := d_inst d in
  if i =? INST_NOP then
    if truth (s_prefix s) then (s, d, false)
    else (State (s_prefix s) (s_prefix_val s) (s_u s) (s_nop s + 1) (s_off s), set_asm "nop" d, true)
  else if i =? INST_BRK then (s, set_asm "brk" d, true)
  else if i =? INST_SLEEP then (s, set_asm "sleep" d, true)
  else if i =? INST_SIF then (s, set_asm "sif" d, true)
  else if i =? INST_BC then (s, set_asm "bc" d, true)
  else if i =? INST_BRXL then (s, set_asm "brxl" d, true)
  else if i =? INST_U then
    (State (s_prefix s) (s_prefix_val s) true (s_nop s) (s_off s), set_asm "" d, true)
  else if i =? INST_RTS then (s, set_asm "rts" d, true)
  else (s, d, false).

Definition regname (reg : Z) : option string :=
  if reg =? 0 then Some "AH"%string
  else if reg =? 1 then Some "AL"%string
  else if reg =? 2 then Some "X"%string
  else if reg =? 3 then Some "Y"%string
  else None.

(** The byte of [num] at [shift], sign extended. *)
Definition get_num (num shift : Z) : Z :=
  let x := s8 (Z.land (Z.shiftr num shift) 0xff) in Z.shiftl x shift.

Definition get_operand (s : state) (d : directive) : Z :=
  let total := get_num (in_operand (d_inst d)) 0 in
  let total := if truth (s_prefix s) then total + get_num (s_prefix_val s) 8 else total in
  if s_prefix s =? 2 then total + get_num (s_prefix_val s) 16 else total.

(** ** [decode_known] *)

(** The variables the first [switch] assigns. *)
Record opinfo := Op { op : string; regn : option string; reg : bool; ptr : bool; idx : bool;
                      imm : bool; rel : bool; branch : bool; rti : bool }.

(** [ptr] and [idx] start as 1, the others as 0. *)
Definition mk (o : string) (reg imm : bool) : option opinfo :=
  Some (Op o None reg true true imm false false false).
Definition mk_reg (o r : string) (rti : bool) : option opinfo :=
  Some (Op o (Some r) false true true false false false rti).
Definition mk_branch (o : string) (rel : bool) : option opinfo :=
  Some (Op o None false true true false rel true false).

Definition known_misc (w : Z) : option opinfo :=
  let n := Z.land w 0xf in
  if n =? 1 then mk_reg "st" "FLAGS" false
  else if n =? 2 then mk_reg "st" "UX" false
  else if n =? 3 then mk_reg "st" "UY" false
  else if n =? 5 then mk_reg "ld" "FLAGS" false
  else if n =? 6 then mk_reg "ld" "UX" false
  else if n =? 7 then mk_reg "ld" "UY" false
  else if n =? 0xa then mk_reg "st" "XH" false
  else if n =? 0xd then mk_reg "rti" "" true
  else if n =? 0xe then mk_reg "ld" "XH" false
  else None.

Definition known_9 (u : bool) (w : Z) : option opinfo :=
  if in_reg w =? 0 then mk (if u then "umult" else "smult") false true
  else if in_reg w =? 1 then mk (if u then "udiv" else "sdiv") false true
  else if in_reg w =? 2 then mk "tst" false true
  else mk_branch "bsr" (in_mode w =? ADDR_MODE_RELATIVE).

Definition known_a (u : bool) (w : Z) : option opinfo :=
  if in_reg w =? 0 then mk "asl" false true
  else if in_reg w =? 1 then mk (if u then "lsr" else "asr") false true
  else if in_reg w =? 2 then mk "rol" false true
  else mk "ror" false true.

(** The branches of one opcode, by register field. *)
Definition known_branch (w : Z) (a b c e : string) : option opinfo :=
  let rl := in_mode w =? ADDR_MODE_RELATIVE in
  if in_reg w =? 0 then mk_branch a rl else if in_reg w =? 1 then mk_branch b rl
  else if in_reg w =? 2 then mk_branch c rl else mk_branch e rl.

(** The [switch] on the opcode, apart from the prefix. *)
Definition known_op (u : bool) (w : Z) : option opinfo :=
  let o := in_opcode w in
  if o =? 0 then known_misc w
  else if o =? 1 then mk "ld" true true
  else if o =? 2 then
    if in_mode w =? DATA_MODE_IMMEDIATE then mk "print" true true else mk "st" true false
  else if o =? 3 then mk "add" true true
  else if o =? 4 then mk "addc" true true
  else if o =? 5 then mk "sub" true true
  else if o =? 6 then mk "subc" true true
  else if o =? 7 then mk "nadd" true true
  else if o =? 8 then mk "cmp" true true
  else if o =? 9 then known_9 u w
  else if o =? 0xa then known_a u w
  else if o =? 0xb then mk "or" true true
  else if o =? 0xc then mk "and" true true
  else if o =? 0xd then mk "xor" true true
  else if o =? 0xe then known_branch w "bra" "blt" "bpl" "bmi"
  else known_branch w "bne" "beq" "bcc" "bcs".

(** Whether the [switch] clears [s_u]: multiplication, division and the right shift do. *)
Definition clears_u (w : Z) : bool :=
  ((in_opcode w =? 9) && ((in_reg w =? 0) || (in_reg w =? 1))) ||
  ((in_opcode w =? 0xa) && (in_reg w =? 1)).

(** The corrections between the [switch] and the printing. *)
Definition adjust (w : Z) (o : opinfo) : opinfo :=
  let p := if ptr o && (in_mode w =? DATA_MODE_IMMEDIATE) then false else ptr o in
  let p := if branch o && (in_mode w =? ADDR_MODE_X_RELATIVE) then false else p in
  let i := if idx o && negb (truth (Z.land (in_mode w) 2)) then false else idx o in
  match regn o with
  | Some _ => Op (op o) (regn o) true true true (imm o) (rel o) (branch o) (rti o)
  | None => Op (op o) None (reg o) p i (imm o) (rel o) (branch o) (rti o)
  end.

Definition known_head (w : Z) (o : opinfo) : string :=
  let r := match regn o with Some r => r | None => default ""%string (regname (in_reg w)) end in
  (op o ++ " " ++ (if reg o && negb (rti o) then r ++ ", " else "") ++
   (if ptr o then "@" else if imm o then "#" else "") ++
   (if idx o && ptr o then "(" else ""))%string.

(** The operand and its sign. *)
Definition known_operand (s : state) (d : directive) (o : opinfo) : Z * string :=
  let rl := if ptr o then false else rel o in
  if (branch o && idx o) || rti o then
    let v := get_operand s d in if v <? 0 then (v * -1, "-"%string) else (v, ""%string)
  else
    let v := s32 (Z.lor (s_prefix_val s) (in_operand (d_inst d))) in
    let v :=
      if truth (Z.land v 0x80) then
        if truth (s_prefix s) then (if rl then v else v - 0x100) else Z.lor v 0xff00
      else v in
    (v, ""%string).

Definition known_tail (w : Z) (o : opinfo) : string :=
  if idx o then
    let r := match regn o with
             | Some _ => "Y"%string
             | None => if in_mode w =? DATA_MODE_INDEXED_X then "X"%string else "Y"%string
             end in
    (", " ++ r ++ (if ptr o then ")" else ""))%string
  else ""%string.

Definition is_prefix (w : Z) : bool :=
  (in_opcode w =? 0) && (in_reg w =? 0) && (in_mode w =? 0).

(** One more prefix: its byte goes above the low one, the earlier one moves up. *)
Definition add_prefix (w : Z) (s : state) : state :=
  let v := if s_prefix s =? 0 then 0 else s_prefix_val s in
  let p := s_prefix s + 1 in
  let v := if p =? 2 then u32 (Z.shiftl v 8) else v in
  let v := Z.lor v (Z.shiftl (in_operand w) 8) in
  State p v (s_u s) (s_nop s) (s_off s).

Definition decode_known (s : state) (d : directive) : state * directive * bool :=
  let w := d_inst d in
  if is_prefix w then (add_prefix w s, set_asm "" d, true)
  else
    let s1 := if clears_u w then State (s_prefix s) (s_prefix_val s) false (s_nop s) (s_off s) else s in
    match known_op (s_u s) w with
    | None => (s1, d, false)
    | Some o0 =>
      let o := adjust w o0 in
      let '(v, sign) := known_operand s1 d o in
      let fmtsz := if truth (Z.land v 0xff0000) then 6%nat else 4%nat in
      let t := (known_head w o ++ sign ++ "0x" ++ fmt_X fmtsz v ++ known_tail w o)%string in
      (s1, Directive w v (s_prefix s) (d_off d) t, true)
    end.

(** ** [csr_decode] *)
Definition csr_out (prefix : Z) (s : state) : state :=
  if s_prefix s =? prefix then State 0 0 (s_u s) (s_nop s) (s_off s) else s.

Definition csr_decode (s : state) (d : directive) : state * directive :=
  let prefix := s_prefix s in
  let '(s1, d1, ok) := decode_fixed s d in
  if ok then (csr_out prefix s1, d1)
  else
    let '(s2, d2, ok) := decode_known s1 d1 in
    if ok then (csr_out prefix s2, d2) else (csr_out prefix s2, decode_unknown d2).

(** The word at the start of the buffer, little endian. *)
Definition word_at (buf : list Z) : option Z :=
  match buf with lo :: hi :: _ => Some (lo + 256 * hi) | _ => None end.

(** [next_inst]: [s_off] counts instructions. *)
Definition next_inst (s : state) (buf : list Z) : option (state * directive) :=
  w ← word_at buf;
  Some (State (s_prefix s) (s_prefix_val s) (s_u s) (s_nop s) (u32 (s_off s + 1)),
        Directive w 0 0 (s_off s) "").

Definition arch_csr_disasm (buf : list Z) (seek : Z) : option string :=
  r ← next_inst (State 0 0 false 0 (u32 seek)) buf;
  let '(s, d) := r in Some (d_asm (csr_decode s d).2).

(** ** Code analysis *)

Definition label_off (d : directive) : Z :=
  let off := d_operand d in
  let lame := truth (Z.land off 0x80) in
  let off :=
    if negb (truth (d_prefix d)) then s8 (Z.land off 0xff)
    else if d_prefix d =? 1 then
      let off := s16 (Z.land off 0xffff) in if lame then off - 0x100 else off
    else
      let off := Z.land off 0xffffff in
      let off := if truth (Z.land off 0x800000) then s32 (Z.lor off 0xff000000) else off in
      let off := if truth (Z.land off 0x8000) then off - 0x10000 else off in
      if lame then off - 0x100 else off in
  s32 (u32 (d_off d + off)).

(** [aop->jump = l; if (aop->jump&1) aop->jump += 3] *)
Definition jump_fix (l : Z) : Z :=
  let j := u64 l in if truth (Z.land j 1) then u64 (j + 3) else j.

Definition csr_type_misc (w : Z) : option aop_type :=
  let n := Z.land w 0xf in
  if existsb (Z.eqb n) [1; 2; 3; 0xa] then Some AOP_TYPE_PUSH
  else if existsb (Z.eqb n) [4; 5; 6; 7; 0xe] then Some AOP_TYPE_POP
  else None.

(** The [default] arm; the inner [switch] of opcode 0 has no [break] behind it. *)
Definition csr_aop_op (addr w : Z) (d : directive) (a : aop_t) : aop_t :=
  let o := in_opcode w in
  let cjmp a := set_jump (jump_fix (label_off d)) (set_type AOP_TYPE_CJMP a) in
  if o =? 0 then
    let a := match csr_type_misc w with Some t => set_type t a | None => a end in
    set_type AOP_TYPE_POP a
  else if o =? 1 then set_type AOP_TYPE_POP a
  else if o =? 2 then set_type AOP_TYPE_PUSH a
  else if existsb (Z.eqb o) [3; 4; 7] then set_type AOP_TYPE_ADD a
  else if existsb (Z.eqb o) [5; 6] then set_type AOP_TYPE_SUB a
  else if o =? 8 then set_type AOP_TYPE_CMP a
  else if o =? 9 then
    if in_reg w =? 0 then set_type AOP_TYPE_MUL a
    else if in_reg w =? 1 then set_type AOP_TYPE_DIV a
    else if in_reg w =? 2 then set_type AOP_TYPE_CMP a
    else set_eob true (set_fail (u64 (addr + 2)) (set_jump (jump_fix (label_off d)) (set_type AOP_TYPE_CALL a)))
  else if o =? 0xb then set_type AOP_TYPE_OR a
  else if o =? 0xc then set_type AOP_TYPE_AND a
  else if o =? 0xd then set_type AOP_TYPE_XOR a
  else if o =? 0xe then
    if in_reg w =? 0 then set_eob true (set_jump (jump_fix (s32 (label_off d + 4))) (set_type AOP_TYPE_JMP a))
    else set_eob true (set_fail (u64 (addr + 2)) (cjmp a))
  else if o =? 0xf then set_fail (u64 (addr + 2)) (cjmp a)
  else a.

(** The state is the global [_state], left by earlier calls. *)
Definition arch_csr_aop (s : state) (addr : Z) (bytes : list Z) : option (state * aop_t) :=
  w ← word_at bytes;
  let off := u32 (u32 addr + 2) in
  let s := State (s_prefix s) (s_prefix_val s) (s_u s) (s_nop s) off in
  let '(s, d) := csr_decode s (Directive w 0 0 off "") in
  let d := Directive (d_inst d) (get_operand s d) (d_prefix d) (d_off d) (d_asm d) in
  let a := set_length 2 (set_type AOP_TYPE_UNK aop_zero) in
  let a :=
    if w =? INST_NOP then set_type AOP_TYPE_NOP a
    else if (w =? INST_BRK) || (w =? INST_BC) || (w =? INST_BRXL) then set_type AOP_TYPE_TRAP a
    else csr_aop_op addr w d a in
  Some (s, a).

(** ** Length of the text *)

Lemma append_length a b : String.length (a ++ b)%string = (String.length a + String.length b)%nat.
Proof. induction a as [|c a IH]; simpl; [done|]. by rewrite IH. Qed.

Lemma pad_length c n s : String.length (pad c n s) = (n + String.length s)%nat.
Proof. induction n; simpl; lia. Qed.

Lemma digits_X_length f z acc : (String.length (digits_X f z acc) <= f + String.length acc)%nat.
Proof.
  revert z acc. induction f as [|f IH]; intros z acc; cbn [digits_X]; [lia|].
  destruct (z <? 16); [simpl; lia|]. specialize (IH (z / 16) (String (digit_X (z mod 16)) acc)). simpl in *. lia.
Qed.

Lemma fmt_X_length w z : (w <= 8)%nat -> (String.length (fmt_X w z) <= 8)%nat.
Proof.
  intros Hw. unfold fmt_X. rewrite pad_length. pose proof (digits_X_length 8 (u32 z) "") as H.
  change (String.length "") with 0%nat in H. lia.
Qed.

(** What depends on the low byte of the word is checked for all bytes. *)
Lemma in_reg_low w : in_reg (Z.land w 255) = in_reg w.
Proof.
  unfold in_reg. apply Z.bits_inj'. intros n Hn. rewrite !Z.land_spec, !Z.shiftr_spec, Z.land_spec by lia.
  change 255 with (Z.ones 8). change 3 with (Z.ones 2). rewrite !Z.testbit_ones by lia.
  destruct (Z.ltb_spec n 2), (Z.ltb_spec (n + 2) 8), (Z.leb_spec 0 n), (Z.leb_spec 0 (n + 2)); simpl;
    rewrite ?andb_true_r, ?andb_false_r; (done || lia).
Qed.

Lemma in_mode_low w : in_mode (Z.land w 255) = in_mode w.
Proof. unfold in_mode. by rewrite <-Z.land_assoc. Qed.

Lemma in_opcode_low w : in_opcode (Z.land w 255) = in_opcode w.
Proof.
  unfold in_opcode. apply Z.bits_inj'. intros n Hn. rewrite !Z.land_spec, !Z.shiftr_spec, Z.land_spec by lia.
  change 255 with (Z.ones 8). change 15 with (Z.ones 4). rewrite !Z.testbit_ones by lia.
  destruct (Z.ltb_spec n 4), (Z.ltb_spec (n + 4) 8), (Z.leb_spec 0 n), (Z.leb_spec 0 (n + 4)); simpl;
    rewrite ?andb_true_r, ?andb_false_r; (done || lia).
Qed.

Lemma known_op_low u w : known_op u (Z.land w 255) = known_op u w.
Proof.
  unfold known_op, known_9, known_a, known_branch, known_misc. rewrite in_opcode_low, in_mode_low, in_reg_low.
  by rewrite <-Z.land_assoc.
Qed.

Lemma adjust_low w o : adjust (Z.land w 255) o = adjust w o.
Proof. unfold adjust. by rewrite in_mode_low. Qed.

Lemma known_head_low w o : known_head (Z.land w 255) o = known_head w o.
Proof. unfold known_head. by rewrite in_reg_low. Qed.

Lemma known_tail_low w o : known_tail (Z.land w 255) o = known_tail w o.
Proof. unfold known_tail. by rewrite in_mode_low. Qed.

Definition texts_short (u : bool) (w : Z) : bool :=
  match known_op u w with
  | Some o => Nat.leb (String.length (known_head w (adjust w o))) 16 &&
              Nat.leb (String.length (known_tail w (adjust w o))) 4
  | None => true
  end.

Lemma known_texts_length u w o :
  known_op u w = Some o ->
  (String.length (known_head w (adjust w o)) <= 16)%nat /\ (String.length (known_tail w (adjust w o)) <= 4)%nat.
Proof.
  intros Ho. assert (Hb : 0 <= Z.land w 255 < 256).
  { change 255 with (Z.ones 8). rewrite Z.land_ones by lia. apply Z.mod_pos_bound. lia. }
  assert (H : texts_short u (Z.land w 255) = true).
  { revert Hb. generalize (Z.land w 255). apply forallb_below. destruct u; vm_compute; reflexivity. }
  unfold texts_short in H. rewrite known_op_low, Ho, adjust_low, known_head_low, known_tail_low in H.
  apply andb_true_iff in H as [?%Nat.leb_le ?%Nat.leb_le]. done.
Qed.

Lemma fmt_4x_length w : is_u16 w -> (String.length (fmt_4x w) <= 68)%nat.
Proof.
  intros _. unfold fmt_4x. rewrite pad_length. unfold fmt_x.
  assert (H : forall f z acc, (String.length (digits 16 f z acc) <= f + String.length acc)%nat).
  { induction f as [|f IH]; intros z acc; cbn [digits]; [lia|].
    destruct (z <? 16); [simpl; lia|]. specialize (IH (z / 16) (String (digit (z mod 16)) acc)). simpl in *. lia. }
  specialize (H 64%nat w ""%string). change (String.length "") with 0%nat in H. lia.
Qed.

Lemma decode_fixed_length s d s' d' :
  decode_fixed s d = (s', d', true) -> (String.length (d_asm d') <= 5)%nat.
Proof.
  unfold decode_fixed. intros H. repeat case_match; simplify_eq; simpl; lia.
Qed.

Lemma decode_known_length s d s' d' :
  decode_known s d = (s', d', true) -> (String.length (d_asm d') <= 32)%nat.
Proof.
  unfold decode_known. destruct (is_prefix _); [intros [= <- <-]; simpl; lia|].
  destruct (known_op _ _) as [o|] eqn:Eo; [|done].
  destruct (known_operand _ d _) as [v sign] eqn:Ev. intros [= <- <-]. simpl d_asm.
  destruct (known_texts_length _ _ _ Eo) as [H1 H2].
  assert (Hs : (String.length sign <= 1)%nat)
    by (unfold known_operand in Ev; repeat case_match; simplify_eq; simpl; lia).
  rewrite !append_length.
  assert (H3 : (String.length (fmt_X (if truth (Z.land v 0xff0000) then 6 else 4) v) <= 8)%nat)
    by (apply fmt_X_length; destruct (truth (Z.land v 0xff0000)); lia).
  simpl String.length. rewrite append_length. lia.
Qed.

Lemma csr_decode_length s d :
  is_u16 (d_inst d) -> (String.length (d_asm (csr_decode s d).2) < 128)%nat.
Proof.
  intros Hw. unfold csr_decode. destruct (decode_fixed s d) as [[s1 d1] [|]] eqn:E1.
  { apply decode_fixed_length in E1. simpl. lia. }
  assert (s1 = s /\ d1 = d) as [-> ->]
    by (unfold decode_fixed in E1; repeat case_match; simplify_eq; done).
  destruct (decode_known s d) as [[s2 d2] [|]] eqn:E2.
  { apply decode_known_length in E2. simpl. lia. }
  assert (d2 = d) as -> by (unfold decode_known in E2; repeat case_match; simplify_eq; done).
  simpl. pose proof (fmt_4x_length (d_inst d) Hw). lia.
Qed.

(** ** The prefix state *)

(** The words that [decode_known] counts as a prefix. *)
Definition counts (s : state) (w : Z) : bool := is_prefix w && negb ((w =? INST_NOP) && (s_prefix s =? 0)).

Lemma decode_known_prefix s d :
  is_prefix (d_inst d) = false -> s_prefix (decode_known s d).1.1 = s_prefix s.
Proof.
  intros Hp. unfold decode_known. rewrite Hp.
  destruct (known_op _ _); [destruct (known_operand _ _ _)|]; destruct (clears_u _); done.
Qed.

Lemma csr_decode_prefix s d :
  0 <= s_prefix s ->
  if counts s (d_inst d) then s_prefix (csr_decode s d).1 = s_prefix s + 1
  else s_prefix (csr_decode s d).1 = 0 /\ s_prefix_val (csr_decode s d).1 = 0.
Proof.
  intros Hs. unfold csr_decode, counts.
  destruct (decode_fixed s d) as [[s1 d1] ok] eqn:E1.
  assert (Hfix : ok = true -> s_prefix s1 = s_prefix s /\
    is_prefix (d_inst d) && negb ((d_inst d =? INST_NOP) && (s_prefix s =? 0)) = false).
  { intros ->. unfold decode_fixed in E1. destruct (Z.eqb_spec (d_inst d) INST_NOP) as [HN|HN].
    { unfold truth in E1. destruct (s_prefix s =? 0); simpl in E1; simplify_eq.
      split; [done|]. apply andb_false_r. }
    repeat match type of E1 with (if _ =? ?c then _ else _) = _ =>
      destruct (Z.eqb_spec (d_inst d) c) as [HX|]; [simplify_eq; rewrite HX; done|] end.
    simplify_eq. }
  destruct ok.
  - destruct (Hfix eq_refl) as [Hp ->]. unfold csr_out. simpl. by rewrite Hp, Z.eqb_refl.
  - assert (s1 = s /\ d1 = d /\ ((d_inst d =? INST_NOP) && (s_prefix s =? 0)) = false) as (-> & -> & Hn).
    { unfold decode_fixed in E1. unfold truth in E1. destruct (d_inst d =? INST_NOP);
        [destruct (s_prefix s =? 0); simpl in E1; simplify_eq; done|]. repeat case_match; simplify_eq; done. }
    rewrite Hn. simpl. destruct (is_prefix (d_inst d)) eqn:Hp; simpl.
    + unfold decode_known. rewrite Hp. unfold csr_out. simpl.
      by destruct (Z.eqb_spec (s_prefix s + 1) (s_prefix s)); [lia|].
    + pose proof (decode_known_prefix s d Hp) as Hk.
      destruct (decode_known s d) as [[s2 d2] ok2]. simpl in Hk. unfold csr_out. rewrite Hk, Z.eqb_refl.
      by destruct ok2.
Qed.

(** ** Operands *)

Lemma land_128 x : truth (Z.land x 0x80) = (128 <=? x mod 256).
Proof.
  assert (E : Z.land x 0x80 = Z.land (x mod 256) 0x80).
  { change 256 with (2^8). rewrite <-Z.land_ones, <-Z.land_assoc by lia. done. }
  rewrite E. pose proof (Z.mod_pos_bound x 256 ltac:(lia)) as H. revert H. generalize (x mod 256).
  intros y Hy. apply eqb_prop. revert y Hy. apply forallb_below. vm_compute. reflexivity.
Qed.

(** A word with the fields given. *)
Definition word (operand opcode r mode : Z) : Z := operand * 256 + (opcode * 16 + (r * 4 + mode)).

Section fields.
Context (n o r m : Z).
Hypothesis (Hn : is_u8 n) (Ho : 0 <= o < 16) (Hr : 0 <= r < 4) (Hm : 0 <= m < 4).

Lemma word_mode : in_mode (word n o r m) = m.
Proof using Hm Hn Ho Hr.
  unfold in_mode, word. change 3 with (2^2 - 1). rewrite land_mask by lia. change (2^2) with 4.
  symmetry. apply (Z.mod_unique_pos _ _ (n * 64 + o * 4 + r)); lia.
Qed.

Lemma word_reg : in_reg (word n o r m) = r.
Proof using Hm Hn Ho Hr.
  unfold in_reg, word. rewrite Z.shiftr_div_pow2 by lia. change 3 with (2^2 - 1). rewrite land_mask by lia.
  change (2^2) with 4. replace ((n * 256 + (o * 16 + (r * 4 + m))) / 4) with (n * 64 + o * 4 + r)
    by (apply (Z.div_unique_pos _ _ _ m); lia).
  symmetry. apply (Z.mod_unique_pos _ _ (n * 16 + o)); lia.
Qed.

Lemma word_opcode : in_opcode (word n o r m) = o.
Proof using Hm Hn Ho Hr.
  unfold in_opcode, word. rewrite Z.shiftr_div_pow2 by lia. change 15 with (2^4 - 1). rewrite land_mask by lia.
  change (2^4) with 16. replace ((n * 256 + (o * 16 + (r * 4 + m))) / 16) with (n * 16 + o)
    by (apply (Z.div_unique_pos _ _ _ (r * 4 + m)); lia).
  symmetry. apply (Z.mod_unique_pos _ _ n); lia.
Qed.

Lemma word_operand : in_operand (word n o r m) = n.
Proof using Hm Hn Ho Hr.
  unfold in_operand, word. rewrite Z.shiftr_div_pow2 by lia. change 255 with (2^8 - 1). rewrite land_mask by lia.
  change (2^8) with 256. replace ((n * 256 + (o * 16 + (r * 4 + m))) / 256) with n
    by (apply (Z.div_unique_pos _ _ _ (o * 16 + (r * 4 + m))); lia).
  apply Z.mod_small, Hn.
Qed.
End fields.

(** An immediate load is not one of the fixed words. *)
Lemma ld_not_fixed s n r d :
  is_u8 n -> 0 <= r < 4 -> d_inst d = word n 1 r 0 -> decode_fixed s d = (s, d, false).
Proof.
  intros Hn Hr Hd. unfold decode_fixed. rewrite Hd. unfold word, is_u8 in *.
  repeat match goal with |- context [?a =? ?c] => destruct (Z.eqb_spec a c) as [E|];
    [exfalso; revert E; cbv delta [INST_NOP INST_BRK INST_SLEEP INST_SIF INST_BC INST_BRXL INST_U INST_RTS]; lia|] end.
  done.
Qed.

(** What [decode_known] leaves in [d_operand] for an immediate load. *)
Definition ld_value (s : state) (n : Z) : Z :=
  let v := s32 (Z.lor (s_prefix_val s) n) in
  if truth (Z.land v 0x80) then if truth (s_prefix s) then v - 0x100 else Z.lor v 0xff00 else v.

Lemma ld_operand s n r d :
  is_u8 n -> 0 <= r < 4 -> d_inst d = word n 1 r 0 -> d_operand (csr_decode s d).2 = ld_value s n.
Proof.
  intros Hn Hr Hd. unfold csr_decode. rewrite (ld_not_fixed s n r d Hn Hr Hd).
  unfold decode_known, is_prefix, clears_u, known_op. rewrite Hd, word_opcode by (assumption || lia). cbn [Z.eqb andb orb Pos.eqb].
  unfold mk, adjust. cbn [ptr idx branch regn op reg imm rel rti]. rewrite word_mode by (assumption || lia).
  unfold known_operand. cbn [ptr idx branch regn op reg imm rel rti andb orb negb].
  rewrite Hd, word_operand by (assumption || lia). unfold ld_value. cbn.
  destruct (truth (Z.land _ 128)), (truth (s_prefix s)); done.
Qed.

(** The prefix word for the high byte of [v], as the code is written for the machine: its byte
    is added to the sign-extended low byte. *)
Definition prefix_of (v : Z) : Z := (v + 0x80) / 256 mod 256.

Lemma prefix_decode p off :
  is_u8 p ->
  (csr_decode state_zero (Directive (word p 0 0 0) 0 0 off "")).1 =
    if p =? 0 then State 0 0 false 1 0 else State 1 (p * 256) false 0 0.
Proof.
  intros Hp. destruct (Z.eqb_spec p 0) as [->|Hne]; [done|].
  assert (Hfix : decode_fixed state_zero (Directive (word p 0 0 0) 0 0 off "") =
    (state_zero, Directive (word p 0 0 0) 0 0 off "", false)).
  { unfold decode_fixed. cbn [d_inst]. unfold word, is_u8 in *.
    repeat match goal with |- context [?a =? ?c] => destruct (Z.eqb_spec a c) as [E|];
      [exfalso; revert E; cbv delta [INST_NOP INST_BRK INST_SLEEP INST_SIF INST_BC INST_BRXL INST_U INST_RTS]; lia|] end.
    done. }
  unfold csr_decode. rewrite Hfix. unfold decode_known, add_prefix, is_prefix. cbn [d_inst].
  rewrite word_opcode, word_reg, word_mode, word_operand by (assumption || lia). cbn -[Z.shiftl].
  unfold csr_out. cbn [s_prefix]. change (0 + 1 =? 0) with false. change (0 + 1 =? 2) with false. cbn iota.
  by rewrite Z.lor_0_l, Z.shiftl_mul_pow2 by lia.
Qed.

Lemma ld_value_prefixed v s :
  is_u16 v -> s = (if prefix_of v =? 0 then State 0 0 false 1 0 else State 1 (prefix_of v * 256) false 0 0) ->
  ld_value s (v mod 256) = v.
Proof.
  unfold is_u16, prefix_of. intros Hv ->. pose proof (Z.div_mod v 256 ltac:(lia)) as Hdm.
  pose proof (Z.mod_pos_bound v 256 ltac:(lia)) as Hlow. set (h := v / 256) in *. set (l := v mod 256) in *.
  assert (Hh : 0 <= h < 256) by lia.
  assert (Hq : (v + 0x80) / 256 = if 128 <=? l then h + 1 else h).
  { destruct (Z.leb_spec 128 l).
    - symmetry. apply (Z.div_unique_pos _ _ _ (l - 128)); lia.
    - symmetry. apply (Z.div_unique_pos _ _ _ (l + 128)); lia. }
  assert (Hlm : l mod 256 = l) by (apply Z.mod_small; lia).
  unfold ld_value. rewrite Hq. destruct (Z.eqb_spec ((if 128 <=? l then h + 1 else h) mod 256) 0) as [E|E].
  - cbn [s_prefix_val s_prefix]. rewrite Z.lor_0_l, s32_id, land_128, Hlm by lia.
    change (truth 0) with false. cbn iota. destruct (Z.leb_spec 128 l).
    + assert (h = 255) by (pose proof (Z.div_mod (h + 1) 256); lia).
      rewrite Z.lor_comm. change 0xff00 with (255 * 2^8). rewrite lor_add; lia.
    + rewrite Z.mod_small in E by lia. lia.
  - cbn [s_prefix_val s_prefix].
    assert (Hlor : forall a, Z.lor (a * 256) l = a * 256 + l)
      by (intros a; change 256 with (2^8); apply lor_add; lia).
    rewrite !Hlor. set (p := (if 128 <=? l then h + 1 else h) mod 256) in *.
    assert (Hp : p = if 128 <=? l then h + 1 else h).
    { unfold p. destruct (Z.leb_spec 128 l); [|apply Z.mod_small; lia].
      destruct (decide (h = 255)) as [->|]; [by unfold p in E; destruct (Z.leb_spec 128 l); [|lia]|].
      apply Z.mod_small. lia. }
    assert (0 <= p < 256) by (apply Z.mod_pos_bound; lia).
    rewrite !s32_id, land_128 by lia.
    assert (Hpm : (p * 256 + l) mod 256 = l) by (rewrite Z.add_comm, Z_mod_plus_full; done).
    rewrite Hpm. change (truth 1) with true. cbn iota. revert Hp. destruct (Z.leb_spec 128 l); lia.
Qed.

(** ** The analysis and the pending prefix *)

(** The state with another prefix value. *)
Definition with_val (v : Z) (s : state) : state := State (s_prefix s) v (s_u s) (s_nop s) (s_off s).

Lemma decode_fixed_val v s d :
  decode_fixed (with_val v s) d =
  (let '(s', d', ok) := decode_fixed s d in (with_val v s', d', ok)).
Proof. unfold decode_fixed. simpl s_prefix. repeat case_match; simplify_eq; done. Qed.

Lemma csr_decode_val v s d :
  0 <= s_prefix s -> counts s (d_inst d) = false ->
  d_prefix (csr_decode (with_val v s) d).2 = d_prefix (csr_decode s d).2.
Proof.
  intros Hs Hc. unfold csr_decode. rewrite decode_fixed_val.
  destruct (decode_fixed s d) as [[s1 d1] ok] eqn:E1. destruct ok; [done|].
  assert (s1 = s /\ d1 = d) as [-> ->]
    by (unfold decode_fixed in E1; repeat case_match; simplify_eq; done).
  assert (Hp : is_prefix (d_inst d) = false).
  { unfold counts in Hc. apply andb_false_iff in Hc as [?|Hc]; [done|].
    unfold decode_fixed, truth in E1. destruct (d_inst d =? INST_NOP); [|done].
    destruct (s_prefix s =? 0); simpl in E1; [simplify_eq|done]. }
  unfold decode_known. rewrite Hp. change (s_u (with_val v s)) with (s_u s).
  destruct (known_op (s_u s) (d_inst d)) as [o|]; [|by destruct (clears_u _)].
  destruct (known_operand _ d _) as [a1 b1]. destruct (known_operand _ d _) as [a2 b2]. done.
Qed.

Lemma csr_decode_inst s d : d_inst (csr_decode s d).2 = d_inst d.
Proof.
  unfold csr_decode. destruct (decode_fixed s d) as [[s1 d1] ok] eqn:E1.
  assert (d_inst d1 = d_inst d) as Hd1
    by (unfold decode_fixed in E1; repeat case_match; simplify_eq; done).
  destruct ok; [done|]. destruct (decode_known s1 d1) as [[s2 d2] ok2] eqn:E2.
  assert (d_inst d2 = d_inst d) as Hd2; [|by destruct ok2].
  unfold decode_known in E2. destruct (is_prefix _); [by simplify_eq|].
  destruct (known_op _ _); [destruct (known_operand _ _ _)|]; by simplify_eq.
Qed.

Lemma csr_decode_off s d : d_off (csr_decode s d).2 = d_off d.
Proof.
  unfold csr_decode. destruct (decode_fixed s d) as [[s1 d1] ok] eqn:E1.
  assert (d_off d1 = d_off d) as Hd1
    by (unfold decode_fixed in E1; repeat case_match; simplify_eq; done).
  destruct ok; [done|]. destruct (decode_known s1 d1) as [[s2 d2] ok2] eqn:E2.
  assert (d_off d2 = d_off d) as Hd2; [|by destruct ok2].
  unfold decode_known in E2. destruct (is_prefix _); [by simplify_eq|].
  destruct (known_op _ _); [destruct (known_operand _ _ _)|]; by simplify_eq.
Qed.

(** Only the branches look at the directive. *)
Lemma csr_aop_op_prefix addr w d d' a : is_prefix w = true -> csr_aop_op addr w d a = csr_aop_op addr w d' a.
Proof. unfold is_prefix, csr_aop_op. intros [[H _]%andb_true_iff _]%andb_true_iff. by rewrite H. Qed.

Lemma label_off_eq d d' :
  d_operand d = d_operand d' -> d_prefix d = d_prefix d' -> d_off d = d_off d' -> label_off d = label_off d'.
Proof. unfold label_off. by intros -> -> ->. Qed.

(** ** Properties *)

(** C32: whatever the word and the state, the text fits the 128 characters of [d_asm]; after a
    word that is not a prefix no prefix is pending and its value is cleared, and a prefix word
    raises the count by one. *)
Theorem csr_decode_safe s d :
  0 <= s_prefix s -> is_u16 (d_inst d) ->
  (String.length (d_asm (csr_decode s d).2) < 128)%nat /\
  if counts s (d_inst d) then s_prefix (csr_decode s d).1 = s_prefix s + 1
  else s_prefix (csr_decode s d).1 = 0 /\ s_prefix_val (csr_decode s d).1 = 0.
Proof. intros Hs Hw. split; [by apply csr_decode_length|by apply csr_decode_prefix]. Qed.

Lemma csr_decode_safe_witness :
  (String.length (d_asm (csr_decode state_zero (Directive 0x1214 0 0 0 "")).2) < 128)%nat /\
  s_prefix (csr_decode state_zero (Directive 0x1214 0 0 0 "")).1 = 0 /\
  s_prefix_val (csr_decode state_zero (Directive 0x1214 0 0 0 "")).1 = 0.
Proof. apply (csr_decode_safe state_zero (Directive 0x1214 0 0 0 "")); [simpl; lia|done]. Defined.

(** The prefix carries the high byte: for every 16-bit value, decoding the prefix word made
    of its rounded high byte and then the immediate load of its low byte shows that value, for
    all four registers. *)
Theorem csr_prefix_value v r :
  is_u16 v -> 0 <= r < 4 ->
  let s := (csr_decode state_zero (Directive (word (prefix_of v) 0 0 0) 0 0 0 "")).1 in
  d_operand (csr_decode s (Directive (word (v mod 256) 1 r 0) 0 0 0 "")).2 = v.
Proof.
  intros Hv Hr s.
  assert (Hp : is_u8 (prefix_of v)) by (apply Z.mod_pos_bound; lia).
  assert (Hl : is_u8 (v mod 256)) by (apply Z.mod_pos_bound; lia).
  rewrite (ld_operand s (v mod 256) r) by done.
  apply ld_value_prefixed; [done|]. unfold s. by apply prefix_decode.
Qed.

Lemma csr_prefix_value_witness :
  let s := (csr_decode state_zero (Directive (word (prefix_of 0x1280) 0 0 0) 0 0 0 "")).1 in
  d_operand (csr_decode s (Directive (word (0x1280 mod 256) 1 1 0) 0 0 0 "")).2 = 0x1280.
Proof. apply (csr_prefix_value 0x1280 1); [done|lia]. Defined.

(** The analysis never uses the value of a pending prefix: [csr_decode] has cleared it
    before [get_operand] is called, so two states that differ only in it give the same
    [struct aop_t], branch target included. *)
Theorem csr_aop_ignores_prefix s v addr bytes :
  0 <= s_prefix s ->
  snd <$> arch_csr_aop (with_val v s) addr bytes = snd <$> arch_csr_aop s addr bytes.
Proof.
  intros Hs. unfold arch_csr_aop. destruct (word_at bytes) as [w|]; [|done]. cbn [mbind option_bind].
  set (off := u32 (u32 addr + 2)). set (s0 := State (s_prefix s) (s_prefix_val s) (s_u s) (s_nop s) off).
  change (State (s_prefix (with_val v s)) _ _ _ _) with (with_val v s0).
  set (d0 := Directive w 0 0 off "").
  destruct (csr_decode (with_val v s0) d0) as [s1 d1] eqn:E1, (csr_decode s0 d0) as [s2 d2] eqn:E2.
  simpl. f_equal. destruct (_ =? INST_NOP); [done|]. destruct (_ || _); [done|].
  pose proof (csr_decode_prefix s0 d0 Hs) as P2. pose proof (csr_decode_prefix (with_val v s0) d0 Hs) as P1.
  change (counts (with_val v s0) (d_inst d0)) with (counts s0 (d_inst d0)) in P1.
  destruct (counts s0 (d_inst d0)) eqn:Hc.
  - apply csr_aop_op_prefix. unfold counts in Hc. by apply andb_true_iff in Hc as [? _].
  - pose proof (csr_decode_val v s0 d0 Hs Hc) as Hdp.
    pose proof (csr_decode_inst (with_val v s0) d0) as I1. pose proof (csr_decode_inst s0 d0) as I2.
    pose proof (csr_decode_off (with_val v s0) d0) as O1. pose proof (csr_decode_off s0 d0) as O2.
    rewrite E1 in *. rewrite E2 in *. simpl in *. destruct P1 as [P1 _], P2 as [P2 _].
    unfold csr_aop_op. erewrite label_off_eq; [done|simpl..]; [|done|congruence].
    unfold get_operand. rewrite P1, P2. simpl. by rewrite I1, I2.
Qed.

Lemma csr_aop_ignores_prefix_witness :
  snd <$> arch_csr_aop (with_val 0x1200 (State 1 0 false 0 0)) 0x100 [0xe0; 0x10] =
  snd <$> arch_csr_aop (State 1 0 false 0 0) 0x100 [0xe0; 0x10].
Proof. apply csr_aop_ignores_prefix. simpl. lia. Defined.
