(* ===== verification/Btree.v ===== *)
(** * The search tree: [src/btree.c]

    A node pointer is a tree: [Leaf] is [NULL].  [cmp] is the comparison the callers pass,
    assumed to be a total order on the data. *)
From S2P Require Import Prelude.

Section btree.
Context {A : Type} (cmp : A -> A -> Z).

Inductive btree_node := Leaf | Node (data : A) (hits : Z) (left right : btree_node).

Definition btree_init : btree_node := Leaf.

(** The [while(rp->left!=NULL)] walk from the node [d h (l) r]: the data and hits of the node it
    stops at and the tree with that node replaced by its right child. *)
Fixpoint take_min (d : A) (h : Z) (l r : btree_node) : A * Z * btree_node :=
  match l with
  | Leaf => (d, h, r)
  | Node dl hl ll lr => let '(d', h', l') := take_min dl hl ll lr in (d', h', Node d h l' r)
  end.

(** The node is freed; the tree that takes its place. *)
Definition btree_remove (p : btree_node) : btree_node :=
  match p with
  | Leaf => Leaf
  | Node _ _ l r =>
    match r with
    | Leaf => l
    | Node dr hr lr rr =>
      match l with
      | Leaf => r
      | Node _ _ _ _ => let '(d, h, r') := take_min dr hr lr rr in Node d h l r'
      end
    end
  end.

(** With [parent] set every call on the way returns its own root. *)
Fixpoint btree_search (root : btree_node) (x : A) (parent : bool) : btree_node :=
  let p :=
    match root with
    | Leaf => Leaf
    | Node d _ l r =>
      if cmp x d <? 0 then btree_search l x parent
      else if 0 <? cmp x d then btree_search r x parent
      else root
    end in
  match p with
  | Leaf => Leaf
  | Node _ _ _ _ => if parent then root else p
  end.

(** The data found, and the tree with the hit counted. *)
Fixpoint btree_get (root : btree_node) (x : A) : btree_node * option A :=
  match root with
  | Leaf => (Leaf, None)
  | Node d h l r =>
    if cmp x d <? 0 then let '(l', o) := btree_get l x in (Node d h l' r, o)
    else if 0 <? cmp x d then let '(r', o) := btree_get r x in (Node d h l r', o)
    else (Node d (s32 (h + 1)) l r, Some d)
  end.

(** The freed data in the order of the calls of [del]. *)
Fixpoint btree_cleartree (root : btree_node) : list A :=
  match root with
  | Leaf => []
  | Node d _ l r => btree_cleartree l ++ btree_cleartree r ++ [d]
  end.

(** [T] is not empty; a node equal to one of the tree is not linked. *)
Fixpoint btree_insert (T : btree_node) (p : A) : btree_node :=
  match T with
  | Leaf => Leaf
  | Node d h l r =>
    let ret := cmp p d in
    if ret <? 0 then
      match l with Leaf => Node d h (Node p 0 Leaf Leaf) r | _ => Node d h (btree_insert l p) r end
    else if 0 <? ret then
      match r with Leaf => Node d h l (Node p 0 Leaf Leaf) | _ => Node d h l (btree_insert r p) end
    else T
  end.

Definition btree_add (T : btree_node) (e : A) : btree_node :=
  match T with Leaf => Node e 0 Leaf Leaf | _ => btree_insert T e end.

Definition btree_empty (T : btree_node) : bool :=
  match T with Node _ _ Leaf Leaf | Leaf => true | _ => false end.

Definition hits_of (p : btree_node) : Z := match p with Leaf => 0 | Node _ h _ _ => h end.

(** The node with the most hits; the first in the order root, left, right among equals. *)
Fixpoint btree_hittest (root : btree_node) : btree_node :=
  match root with
  | Leaf => Leaf
  | Node _ _ l r =>
    let ml := btree_hittest l in
    let mr := btree_hittest r in
    let p := match ml with Leaf => root | _ => if hits_of root <? hits_of ml then ml else root end in
    match mr with Leaf => p | _ => if hits_of p <? hits_of mr then mr else p end
  end.

(** ** The data of a tree in order *)
Fixpoint inorder (t : btree_node) : list A :=
  match t with Leaf => [] | Node d _ l r => inorder l ++ d :: inorder r end.

Definition lt (x y : A) : Prop := cmp x y < 0.

Definition bst (t : btree_node) : Prop := StronglySorted lt (inorder t).

(** What the callers' comparison functions promise. *)
Class CmpOrder : Prop := {
  cmp_refl x : cmp x x = 0;
  cmp_flip x y : cmp x y < 0 <-> 0 < cmp y x;
  cmp_trans x y z : cmp x y < 0 -> cmp y z < 0 -> cmp x z < 0;
  cmp_eq_l x y z : cmp x y = 0 -> cmp x z < 0 <-> cmp y z < 0;
  cmp_eq_r x y z : cmp x y = 0 -> cmp z x < 0 <-> cmp z y < 0 }.

Lemma sorted_app_inv l d r :
  StronglySorted lt (l ++ d :: r) <->
  StronglySorted lt l /\ StronglySorted lt r /\ Forall (fun y => lt y d) l /\ Forall (lt d) r /\
  (forall x y, x ∈ l -> y ∈ r -> lt x y).
Proof.
  induction l as [|a l IH]; simpl.
  - split.
    + intros H. apply StronglySorted_inv in H as [? ?]. split_and!; try done; [constructor|]. set_solver.
    + intros (_ & ? & _ & ? & _). by constructor.
  - split.
    + intros H. apply StronglySorted_inv in H as [H Ha]. apply IH in H as (Hl & Hr & Hld & Hdr & Hx).
      apply Forall_app in Ha as [Ha1 Ha2]. apply Forall_cons in Ha2 as [Had Har].
      split_and!; try done; [by constructor|by constructor|].
      intros x y [->|Hxl]%elem_of_cons Hy; [|by apply Hx]. rewrite Forall_forall in Har. by apply Har.
    + intros (Hl & Hr & Hld & Hdr & Hx). apply StronglySorted_inv in Hl as [Hl Hal].
      apply Forall_cons in Hld as [Had Hld]. constructor.
      * apply IH. split_and!; try done. set_solver.
      * apply Forall_app. split; [done|]. constructor; [done|]. apply Forall_forall. set_solver.
Qed.

Lemma bst_node d h l r : bst (Node d h l r) -> bst l /\ bst r /\ Forall (fun y => lt y d) (inorder l) /\ Forall (lt d) (inorder r).
Proof. unfold bst. simpl. rewrite sorted_app_inv. tauto. Qed.

Lemma sorted_app_l l r : StronglySorted lt (l ++ r) -> StronglySorted lt l.
Proof.
  induction l as [|a l IH]; simpl; [constructor|]. intros [H Ha]%StronglySorted_inv.
  constructor; [by apply IH|]. by apply Forall_app in Ha as [? _].
Qed.

Lemma sorted_app_r l r : StronglySorted lt (l ++ r) -> StronglySorted lt r.
Proof. induction l as [|a l IH]; simpl; [done|]. by intros [H _]%StronglySorted_inv; apply IH. Qed.

(** *** [btree_remove] *)
Lemma take_min_inorder d h l r d' h' t :
  take_min d h l r = (d', h', t) -> inorder l ++ d :: inorder r = d' :: inorder t.
Proof.
  revert d h r d' h' t. induction l as [|dl hl ll IHl lr _]; intros d h r d' h' t; cbn [take_min inorder].
  - by intros [= <- <- <-].
  - destruct (take_min dl hl ll lr) as [[d1 h1] t1] eqn:E. intros [= <- <- <-].
    apply IHl in E. cbn [inorder]. rewrite E. done.
Qed.

Lemma btree_remove_inorder d h l r : inorder (btree_remove (Node d h l r)) = inorder l ++ inorder r.
Proof.
  unfold btree_remove. destruct r as [|dr hr lr rr]; [by rewrite app_nil_r|].
  destruct l as [|dl hl ll lr0]; [done|].
  destruct (take_min dr hr lr rr) as [[d1 h1] t1] eqn:E. apply take_min_inorder in E.
  cbn [inorder]. by rewrite E.
Qed.

Lemma sorted_drop_mid l d r : StronglySorted lt (l ++ d :: r) -> StronglySorted lt (l ++ r).
Proof.
  rewrite sorted_app_inv. intros (Hl & Hr & _ & _ & Hx). induction l as [|a l IH]; [done|].
  apply StronglySorted_inv in Hl as [Hl Ha]. simpl. constructor; [apply IH; set_solver|].
  apply Forall_app. split; [done|]. apply Forall_forall. set_solver.
Qed.

(** *** [btree_add] and [btree_search] *)
Context `{CmpOrder}.

Lemma btree_insert_node T p :
  T <> Leaf ->
  exists pre post, inorder T = pre ++ post /\ (bst T -> Forall (fun y => lt y p) pre) /\
    ((inorder (btree_insert T p) = pre ++ p :: post /\ (bst T -> Forall (lt p) post)) \/
     (inorder (btree_insert T p) = inorder T /\ exists d, d ∈ inorder T /\ cmp p d = 0)).
Proof.
  induction T as [|d h l IHl r IHr]; intros Hne; [done|]. cbn [btree_insert inorder].
  destruct (Z.ltb_spec (cmp p d) 0) as [Hlt|Hge]; [|destruct (Z.ltb_spec 0 (cmp p d)) as [Hgt|Hle]].
  - assert (Hpost : bst (Node d h l r) -> Forall (lt p) (d :: inorder r)).
    { intros (_ & _ & _ & Hr)%bst_node. constructor; [done|].
      apply (Forall_impl _ _ _ Hr). unfold lt in *. intros y Hy. by apply (cmp_trans p d y). }
    destruct l as [|dl hl ll lr] eqn:El.
    + exists [], (d :: inorder r). cbn [inorder app]. split_and!; [done|by constructor|by left].
    + rewrite <-El in *. destruct IHl as (pre & post & E & H1 & H3); [by subst|].
      exists pre, (post ++ d :: inorder r). rewrite E, <-app_assoc. cbn [inorder]. split_and!; [done| |].
      * intros Hb. apply H1. by apply bst_node in Hb as (? & _).
      * destruct H3 as [[-> H2]|[-> [x [Hx Hc]]]]; [left|right].
        { split; [by rewrite <-app_assoc|]. intros Hb. apply Forall_app. split; [|by apply Hpost].
          apply H2. by apply bst_node in Hb as (? & _). }
        rewrite E, <-app_assoc. split; [done|]. exists x. split; [|done].
        rewrite app_assoc, <-E. set_solver.
  - assert (Hpre : bst (Node d h l r) -> Forall (fun y => lt y p) (inorder l ++ [d])).
    { intros (_ & _ & Hl & _)%bst_node. assert (lt d p) by (by apply cmp_flip). apply Forall_app.
      split; [|by repeat constructor]. apply (Forall_impl _ _ _ Hl). unfold lt in *. intros y Hy.
      by apply (cmp_trans y d p). }
    destruct r as [|dr hr lr rr] eqn:Er.
    + exists (inorder l ++ [d]), []. cbn [inorder app]. rewrite app_nil_r. split_and!; [done|done|].
      left. split; [by rewrite <-app_assoc|by constructor].
    + rewrite <-Er in *. destruct IHr as (pre & post & E & H1 & H3); [by subst|].
      exists (inorder l ++ d :: pre), post. rewrite E, <-app_assoc. cbn [inorder app]. split_and!; [done| |].
      * intros Hb. specialize (Hpre Hb). apply Forall_app in Hpre as [? Hd]. apply Forall_cons in Hd as [? _].
        apply Forall_app. split; [done|]. constructor; [done|]. apply H1. by apply bst_node in Hb as (_ & ? & _).
      * destruct H3 as [[-> H2]|[-> [x [Hx Hc]]]]; [left|right].
        { split; [by rewrite <-app_assoc|]. intros Hb. apply H2. by apply bst_node in Hb as (_ & ? & _). }
        rewrite E. split; [done|]. exists x. split; [|done]. rewrite <-E. set_solver.
  - assert (Hc : cmp p d = 0) by lia.
    exists (inorder l), (d :: inorder r). split_and!; [done| |].
    + intros (_ & _ & Hl & _)%bst_node. apply (Forall_impl _ _ _ Hl). unfold lt. intros y Hy.
      by apply (cmp_eq_r p d y Hc).
    + right. split; [done|]. exists d. set_solver.
Qed.

Lemma btree_add_insert T e : T <> Leaf -> btree_add T e = btree_insert T e.
Proof. by destruct T. Qed.

Lemma btree_search_data root x :
  match btree_search root x false with
  | Node d _ _ _ => d ∈ inorder root /\ cmp x d = 0
  | Leaf => bst root -> forall d, d ∈ inorder root -> cmp x d <> 0
  end.
Proof.
  induction root as [|d h l IHl r IHr]; cbn [btree_search inorder]; [by intros _ d Hd%elem_of_nil|].
  destruct (Z.ltb_spec (cmp x d) 0) as [Hlt|]; [|destruct (Z.ltb_spec 0 (cmp x d)) as [Hgt|]].
  - destruct (btree_search l x false) as [|d' h' l' r']; [|destruct IHl; set_solver].
    intros (Hl & _ & _ & Hr)%bst_node y Hy. rewrite elem_of_app, elem_of_cons in Hy.
    destruct Hy as [Hy|[->|Hy]]; [by apply IHl|lia|]. rewrite Forall_forall in Hr.
    pose proof (cmp_trans x d y Hlt (Hr y Hy)). lia.
  - destruct (btree_search r x false) as [|d' h' l' r']; [|destruct IHr; set_solver].
    intros (_ & Hr & Hl & _)%bst_node y Hy. rewrite elem_of_app, elem_of_cons in Hy.
    destruct Hy as [Hy|[->|Hy]]; [|lia|by apply IHr]. rewrite Forall_forall in Hl.
    apply cmp_flip in Hgt. pose proof (cmp_trans y d x (Hl y Hy) Hgt) as Hyx. apply cmp_flip in Hyx. lia.
  - split; [set_solver|lia].
Qed.

Lemma btree_get_search root x :
  (btree_get root x).2 = match btree_search root x false with Leaf => None | Node d _ _ _ => Some d end /\
  inorder (btree_get root x).1 = inorder root.
Proof.
  induction root as [|d h l IHl r IHr]; cbn [btree_get btree_search inorder]; [done|].
  destruct (cmp x d <? 0); [|destruct (0 <? cmp x d)]; [| |done].
  - destruct (btree_get l x) as [l' o]. simpl in *. destruct IHl as [-> ->]. by destruct (btree_search l x false).
  - destruct (btree_get r x) as [r' o]. simpl in *. destruct IHr as [-> ->]. by destruct (btree_search r x false).
Qed.

Lemma btree_search_parent root x :
  btree_search root x true = match btree_search root x false with Leaf => Leaf | Node _ _ _ _ => root end.
Proof.
  induction root as [|d h l IHl r IHr]; cbn [btree_search]; [done|]. rewrite IHl, IHr.
  destruct (cmp x d <? 0); [|destruct (0 <? cmp x d)]; [| |done].
  - destruct l as [|d' h' l' r']; [done|]. by destruct (btree_search (Node d' h' l' r') x false).
  - destruct r as [|d' h' l' r']; [done|]. by destruct (btree_search (Node d' h' l' r') x false).
Qed.

(** ** Properties *)

(** Adding keeps the tree ordered; the new element is in it unless an equal one was there
    already, and nothing else changes. *)
Theorem btree_add_bst T e :
  bst T ->
  bst (btree_add T e) /\
  ((inorder (btree_add T e) ≡ₚ e :: inorder T /\ forall d, d ∈ inorder T -> cmp e d <> 0) \/
   (inorder (btree_add T e) = inorder T /\ exists d, d ∈ inorder T /\ cmp e d = 0)).
Proof.
  intros Hb. destruct T as [|d0 h0 l0 r0] eqn:ET.
  { split; [unfold bst; simpl; repeat constructor|left; split; [done|]]. intros d Hd. by apply elem_of_nil in Hd. }
  rewrite <-ET in *. assert (Hne : T <> Leaf) by (by subst). rewrite (btree_add_insert T e Hne).
  destruct (btree_insert_node T e Hne) as (pre & post & E & H1 & H3). specialize (H1 Hb).
  destruct H3 as [[E2 H2]|[E2 Hd]]; [|split; [|by right]; unfold bst; by rewrite E2].
  specialize (H2 Hb). unfold bst in *. rewrite E in Hb. split.
  - rewrite E2. apply sorted_app_inv. split_and!; [..|].
    + apply sorted_app_l in Hb. done.
    + apply sorted_app_r in Hb. done.
    + done.
    + done.
    + rewrite Forall_forall in H1. rewrite Forall_forall in H2. intros x y Hx Hy.
      apply (cmp_trans x e y); [by apply H1|by apply H2].
  - left. rewrite E2, E. split; [solve_Permutation|]. rewrite !Forall_forall in *.
    intros d [Hd|Hd]%elem_of_app.
    + specialize (H1 d Hd). unfold lt in H1. apply cmp_flip in H1. lia.
    + specialize (H2 d Hd). unfold lt in H2. lia.
Qed.

(** On an ordered tree [btree_get] returns an element equal to the key exactly when there is
    one and leaves the data of the tree as they are; what it finds is what [btree_search] finds. *)
Theorem btree_get_finds T x :
  bst T ->
  inorder (btree_get T x).1 = inorder T /\
  (btree_get T x).2 = match btree_search T x false with Leaf => None | Node d _ _ _ => Some d end /\
  (forall d, (btree_get T x).2 = Some d -> d ∈ inorder T /\ cmp x d = 0) /\
  ((btree_get T x).2 = None -> forall d, d ∈ inorder T -> cmp x d <> 0).
Proof.
  intros Hb. destruct (btree_get_search T x) as [E1 E2]. pose proof (btree_search_data T x) as Hs.
  rewrite E1. split_and!; [done|done|..]; destruct (btree_search T x false); try done.
  - by intros d' [= <-].
  - intros _. by apply Hs.
Qed.

(** [btree_remove] takes out the root of the tree it is given, and only it; the tree stays
    ordered.  [btree_search] with [parent] set returns the root of the whole tree, not the parent
    of the node, so [btree_del] never passes it the node that was found. *)
Theorem btree_remove_root d h l r x :
  bst (Node d h l r) ->
  bst (btree_remove (Node d h l r)) /\
  inorder (btree_remove (Node d h l r)) = inorder l ++ inorder r /\
  btree_search (Node d h l r) x true =
    match btree_search (Node d h l r) x false with Leaf => Leaf | Node _ _ _ _ => Node d h l r end.
Proof.
  intros Hb. rewrite btree_remove_inorder. split_and!; [|done|apply btree_search_parent].
  unfold bst. rewrite btree_remove_inorder. by apply (sorted_drop_mid _ d).
Qed.
End btree.

(** The comparison of offsets that [src/flags.c] passes: [flag_get_by_addr] looks a flag up with it.
    The subtraction it avoids would not be an order on 64-bit values. *)
Definition cmp (fa fb : Z) : Z := if fb <? fa then 1 else if fa <? fb then -1 else 0.

#[export] Instance cmp_order : CmpOrder cmp.
Proof. constructor; unfold cmp; intros; repeat zcase; lia. Qed.

Lemma btree_add_bst_witness :
  let T := btree_add cmp (btree_add cmp Leaf 10) 20 in
  bst cmp (btree_add cmp T 15) /\
  ((inorder (btree_add cmp T 15) ≡ₚ 15 :: inorder T /\ forall d, d ∈ inorder T -> cmp 15 d <> 0) \/
   (inorder (btree_add cmp T 15) = inorder T /\ exists d, d ∈ inorder T /\ cmp 15 d = 0)).
Proof. apply (btree_add_bst cmp). repeat constructor. Defined.

Lemma btree_get_finds_witness :
  let T := btree_add cmp (btree_add cmp Leaf 10) 20 in
  (btree_get cmp T 20).2 = Some 20 /\
  (forall d, (btree_get cmp T 20).2 = Some d -> d ∈ inorder T /\ cmp 20 d = 0).
Proof.
  split; [done|].
  apply (btree_get_finds cmp (btree_add cmp (btree_add cmp Leaf 10) 20) 20). repeat constructor.
Defined.

Lemma btree_remove_root_witness :
  inorder (btree_remove (Node 15 0 (Node 10 0 Leaf Leaf) (Node 20 0 (Node 18 0 Leaf Leaf) Leaf))) = [10; 18; 20].
Proof.
  apply (btree_remove_root cmp 15 0 (Node 10 0 Leaf Leaf) (Node 20 0 (Node 18 0 Leaf Leaf) Leaf) 0).
  repeat constructor.
Defined.
