(* ===== verification/Sections.v ===== *)
(** * Sections: [src/section.c]

    The list is the list of its nodes in [next] order; [section_add] links at the head, and the
    loops that number the sections walk it backwards, from the oldest node on.  [last_align] is
    the file's cached result. *)
From S2P Require Import Prelude.

Record section_t := Section_t {
  comment : string; from : Z; to : Z; vaddr : Z; paddr : Z; rwx : Z }.

Definition SECTION_W : Z := 2.

Record sections_st := SectionsSt { sections : list section_t; last_align : Z }.

(** [strncpy(s->comment, comment, 254)]. *)
Definition comment_copy (s : string) : string := String.substring 0 254 s.

(** The literal [-1] converted to [ut64]. *)
Definition minus1 : Z := 2^64 - 1.

Definition section_set_turn (f t v p r : Z) (c : option string) (s : section_t) : section_t :=
  if from s =? f then
    {| comment := match c with Some c => comment_copy c | None => comment s end;
       from := from s;
       to := if negb (t =? minus1) then t else to s;
       vaddr := if negb (v =? minus1) then v else vaddr s;
       paddr := if negb (p =? minus1) then p else paddr s;
       rwx := if negb (r =? -1) then r else rwx s |}
  else s.

Definition section_set (f t v p r : Z) (c : option string) (st : sections_st) : sections_st :=
  SectionsSt (section_set_turn f t v p r c <$> sections st) (last_align st).

Definition section_new (f t v p r : Z) (c : option string) : section_t :=
  {| comment := match c with Some c => comment_copy c | None => "" end;
     from := u64 (f + v); to := u64 (t + v); vaddr := v; paddr := p; rwx := r |}.

Definition section_add (f t v p r : Z) (c : option string) (st : sections_st) : sections_st :=
  SectionsSt (section_new f t v p r c :: sections st) (last_align st).

Fixpoint get_i_loop (i idx : Z) (l : list section_t) : option section_t :=
  match l with
  | [] => None
  | s :: l' => if i =? idx then Some s else get_i_loop (i + 1) idx l'
  end.
Definition section_get_i (idx : Z) (st : sections_st) : option section_t :=
  get_i_loop 0 idx (reverse (sections st)).

(** [list_del] of the node [section_get_i] returns. *)
Fixpoint rm_loop (i idx : Z) (l : list section_t) : list section_t :=
  match l with
  | [] => []
  | s :: l' => if i =? idx then l' else s :: rm_loop (i + 1) idx l'
  end.
Definition section_rm (idx : Z) (st : sections_st) : sections_st * Z :=
  match section_get_i idx st with
  | Some _ => (SectionsSt (reverse (rm_loop 0 idx (reverse (sections st)))) (last_align st), 1)
  | None => (st, 0)
  end.

Definition in_section (addr : Z) (s : section_t) : bool := (from s <=? addr) && (addr <=? to s).

Definition section_get (addr : Z) (st : sections_st) : option section_t :=
  list_find (fun s => in_section addr s = true) (sections st) ≫= fun p => Some p.2.

Definition section_get_paddr (addr : Z) (st : sections_st) : Z :=
  match section_get addr st with Some s => paddr s | None => minus1 end.
Definition section_get_vaddr (addr : Z) (st : sections_st) : Z :=
  match section_get addr st with Some s => vaddr s | None => minus1 end.

(** [s] is the node at position [k] of the backward walk. *)
Fixpoint overlaps_loop (s : section_t) (k i : nat) (l : list section_t) : Z :=
  match l with
  | [] => -1
  | s2 :: l' =>
    if negb (k =? i)%nat &&
       (if from s2 <=? from s then to s2 <? from s else to s <? from s2)
    then Z.of_nat i
    else overlaps_loop s k (S i) l'
  end.
Definition section_overlaps (k : nat) (st : sections_st) : option Z :=
  (fun s => overlaps_loop s k 0 (reverse (sections st))) <$> reverse (sections st) !! k.

Definition section_align (addr v p : Z) (st : sections_st) : sections_st * Z :=
  if addr =? last_align st then (st, last_align st)
  else
    match list_find (fun s => in_section addr s = true) (reverse (sections st)) with
    | Some (_, s) => (st, u64 (paddr s + addr - from s))
    | None => let a := u64 (addr - v + p) in (SectionsSt (sections st) a, a)
    end.

Definition section_init (st : sections_st) : sections_st := SectionsSt [] (last_align st).

(** ** Reports *)

Definition fmt_02d (z : Z) : string :=
  let s := fmt_d z in pad "0" (2 - String.length s) s.

Definition long_line (addr i : Z) (s : section_t) : string :=
  fmt_02d i +:+ " " +:+ (if in_section addr s then "*" else ".") +:+ " 0x" +:+ fmt_x0 8 (from s) +:+
  " - 0x" +:+ fmt_x0 8 (to s) +:+ " bs=0x" +:+ fmt_x0 8 (vaddr s) +:+ " sz=0x" +:+
  fmt_x0 8 (u64 (to s - from s)) +:+ " phy=0x" +:+ fmt_x0 8 (paddr s) +:+ " " +:+ comment s.

(** [flag_at] is the name [string_flag_offset] finds at an address, if any. *)
Definition list_line (flag_at : Z -> option string) (addr rad i : Z) (s : section_t) : string :=
  if rad =? 2 then (if in_section addr s then long_line addr i s +:+ nl else "")
  else if rad =? 1 then
    "S 0x" +:+ fmt_x0 8 (u64 (to s - from s)) +:+ " 0x" +:+ fmt_x0 8 (vaddr s) +:+ " " +:+ comment s +:+
    " @ 0x" +:+ fmt_x0 8 (from s) +:+ nl +:+
    "Sd 0x" +:+ fmt_x0 8 (paddr s) +:+ " @ 0x" +:+ fmt_x0 8 (from s) +:+ nl
  else if rad =? 0 then
    long_line addr i s +:+ (match flag_at (from s) with Some b => " ; " +:+ b | None => "" end) +:+ nl
  else "".

Definition section_list (flag_at : Z -> option string) (addr rad : Z) (st : sections_st) : list string :=
  imap (fun i s => list_line flag_at addr rad (Z.of_nat i) s) (reverse (sections st)).

(** The lowest and the highest address; [minus1] stands for none yet. *)
Definition visual_bounds (l : list section_t) : Z * Z :=
  foldl (fun '(mn, mx) s =>
    ((if (mn =? minus1) || (from s <? mn) then from s else mn),
     (if (mx =? minus1) || (mx <? to s) then to s else mx))) (minus1, minus1) l.

(** The marks of one row: the samples [min + j * mul] inside [[lo, hi]]. *)
Definition visual_row (mn mul lo hi : Z) (width : Z) : list bool :=
  (fun j => (lo <=? u64 (u64 (j * mul) + mn)) && (u64 (u64 (j * mul) + mn) <=? hi)) <$> seqZ 0 width.

(** The rows: number, lower end, marks, upper end; the last one is the current seek.  [None] is
    the division by a zero width. *)
Definition section_list_visual (seek len cfg_vaddr cfg_width : Z) (st : sections_st)
    : option (list (Z * Z * list bool * Z)) :=
  let width := s32 (cfg_width - 50) in
  let '(mn, mx) := visual_bounds (sections st) in
  if width =? 0 then None
  else
    let mul := u64 (mx - mn) / u64 width in
    if negb (mn =? minus1) && negb (mul =? 0) then
      let rows := imap (fun i s => (Z.of_nat i, from s, visual_row mn mul (from s) (to s) width, to s))
                       (reverse (sections st)) in
      let here := u64 (seek + cfg_vaddr) in
      Some (rows ++ (if truth len then
        [(-1, here, visual_row mn mul here (u64 (here + len)) width, u64 (here + len))] else []))
    else Some [].

(** ** Lemmas *)

Lemma get_i_loop_lookup k n l : get_i_loop k (k + Z.of_nat n) l = l !! n.
Proof.
  revert k n. induction l as [|s l IH]; intros k n; simpl; [done|].
  destruct n as [|n]; [by rewrite Z.add_0_r, Z.eqb_refl|].
  rewrite (proj2 (Z.eqb_neq _ _)) by lia. simpl. rewrite <-(IH (k + 1) n). f_equal. lia.
Qed.

Lemma rm_loop_delete k n l : rm_loop k (k + Z.of_nat n) l = delete n l.
Proof.
  revert k n. induction l as [|s l IH]; intros k n; simpl; [done|].
  destruct n as [|n]; [by rewrite Z.add_0_r, Z.eqb_refl|].
  rewrite (proj2 (Z.eqb_neq _ _)) by lia. simpl. f_equal. rewrite <-(IH (k + 1) n). f_equal. lia.
Qed.

Lemma section_get_i_lookup n st : section_get_i (Z.of_nat n) st = reverse (sections st) !! n.
Proof. apply (get_i_loop_lookup 0). Qed.

Lemma section_get_cons s l a addr :
  section_get addr (SectionsSt (s :: l) a) =
    if in_section addr s then Some s else section_get addr (SectionsSt l a).
Proof.
  unfold section_get. cbn [list_find sections]. destruct (in_section addr s) eqn:E.
  - by rewrite decide_True.
  - rewrite decide_False by done. by destruct (list_find _ l) as [[? ?]|].
Qed.

(** Two closed intervals share no address. *)
Definition disjoint_sections (s s2 : section_t) : Prop := to s2 < from s \/ to s < from s2.

Lemma overlaps_loop_spec s k i l :
  from s <= to s -> Forall (fun s2 => from s2 <= to s2) l ->
  (exists j s2, l !! j = Some s2 /\ (i + j)%nat <> k /\ disjoint_sections s s2 /\
     overlaps_loop s k i l = Z.of_nat (i + j)) \/
  (overlaps_loop s k i l = -1 /\
     forall j s2, l !! j = Some s2 -> (i + j)%nat <> k -> ~ disjoint_sections s s2).
Proof.
  intros Hs Hw. revert i. induction Hw as [|s2 l Hs2 Hw IH]; intros i; cbn [overlaps_loop]; [by right|].
  case_match eqn:E.
  - left. exists 0%nat, s2. apply andb_true_iff in E as [E1 E2].
    apply negb_true_iff, Nat.eqb_neq in E1. rewrite Nat.add_0_r.
    split_and!; try done. unfold disjoint_sections. zcase; (lia || done).
  - destruct (IH (S i)) as [(j & s3 & Hl & Hk & Hd & ->)|[-> Hn]].
    + left. exists (S j), s3. rewrite <-Nat.add_succ_comm. done.
    + right. split; [done|]. intros [|j] s3; simpl.
      * intros [= <-] Hk. rewrite Nat.add_0_r in Hk. apply andb_false_iff in E as [E|E].
        { apply negb_false_iff, Nat.eqb_eq in E. by subst. }
        unfold disjoint_sections. zcase; (lia || done).
      * intros Hl Hk. apply (Hn j s3 Hl). lia.
Qed.

(** ** Properties *)

(** A new section answers for the addresses it covers, both ends included, and leaves every
    other address to the sections before it. *)
Theorem section_add_get f t v p r c st addr :
  section_get addr (section_add f t v p r c st) =
    if (u64 (f + v) <=? addr) && (addr <=? u64 (t + v)) then Some (section_new f t v p r c)
    else section_get addr st.
Proof. destruct st as [l a]. unfold section_add. cbn [sections last_align]. by rewrite section_get_cons. Qed.

(** [section_rm] removes the section with the number [section_list] prints for it and moves
    the later ones down by one; an unknown number changes nothing. *)
Theorem section_rm_get_i n st :
  let '(st', r) := section_rm (Z.of_nat n) st in
  if decide (n < length (sections st))%nat then
    r = 1 /\ forall m : nat, section_get_i (Z.of_nat m) st' =
      section_get_i (Z.of_nat (if decide (m < n)%nat then m else S m)) st
  else r = 0 /\ st' = st.
Proof.
  unfold section_rm. rewrite section_get_i_lookup. destruct (reverse (sections st) !! n) as [s|] eqn:E.
  - rewrite decide_True by (apply lookup_lt_Some in E; by rewrite length_reverse in E).
    split; [done|]. intros m. rewrite !section_get_i_lookup. cbn [sections]. rewrite reverse_involutive.
    change (rm_loop 0 (Z.of_nat n)) with (rm_loop 0 (0 + Z.of_nat n)). rewrite rm_loop_delete.
    case_decide; [by rewrite list_lookup_delete_lt|by rewrite list_lookup_delete_ge by lia].
  - apply lookup_ge_None in E. rewrite length_reverse in E. by rewrite decide_False by lia.
Qed.

(** When every section is a proper interval, [section_overlaps] returns the number of a
    section that shares no address with the given one, or -1 when it meets all of them. *)
Theorem section_overlaps_disjoint k st s :
  reverse (sections st) !! k = Some s ->
  Forall (fun s2 => from s2 <= to s2) (sections st) ->
  exists z, section_overlaps k st = Some z /\
  ((exists j s2, z = Z.of_nat j /\ j <> k /\ reverse (sections st) !! j = Some s2 /\ disjoint_sections s s2) \/
   (z = -1 /\ forall j s2, j <> k -> reverse (sections st) !! j = Some s2 -> ~ disjoint_sections s s2)).
Proof.
  intros Hk Hw. unfold section_overlaps. rewrite Hk. eexists. split; [reflexivity|].
  apply Forall_reverse in Hw.
  assert (from s <= to s) by (rewrite Forall_lookup in Hw; by apply (Hw k)).
  destruct (overlaps_loop_spec s k 0 _ H Hw) as [(j & s2 & Hj & Hjk & Hd & ->)|[-> Hn]]; [left|right].
  - by exists j, s2.
  - split; [done|]. intros j s2 Hj Hl. by apply (Hn j).
Qed.

Lemma section_overlaps_disjoint_witness :
  let st := section_add 30 40 0 0 7 None (section_add 10 20 0 0 7 None (SectionsSt [] 0)) in
  section_overlaps 0 st = Some 1 /\
  exists z, section_overlaps 0 st = Some z /\
  ((exists j s2, z = Z.of_nat j /\ j <> 0%nat /\ reverse (sections st) !! j = Some s2 /\
  disjoint_sections (section_new 10 20 0 0 7 None) s2) \/
   (z = -1 /\ forall j s2, j <> 0%nat -> reverse (sections st) !! j = Some s2 ->
      ~ disjoint_sections (section_new 10 20 0 0 7 None) s2)).
Proof.
  split; [vm_compute; reflexivity|]. apply section_overlaps_disjoint; [vm_compute; reflexivity|].
  repeat constructor; vm_compute; discriminate.
Defined.

(** An address of a section is moved by the section's physical address, any other one by the
    base, unless it equals the result of the last unsectioned call: that one comes back as it
    is.  Only the unsectioned case moves the cache. *)
Theorem section_align_cases addr v p st :
  let '(st', a) := section_align addr v p st in
  sections st' = sections st /\
  (addr = last_align st -> a = addr /\ st' = st) /\
  (addr <> last_align st ->
    (forall s, s ∈ sections st -> in_section addr s = false) ->
    a = u64 (addr - v + p) /\ last_align st' = a) /\
  (addr <> last_align st -> forall s, s ∈ sections st -> in_section addr s = true ->
    (forall s2, s2 ∈ sections st -> in_section addr s2 = true -> s2 = s) ->
    a = u64 (paddr s + addr - from s) /\ st' = st).
Proof.
  unfold section_align. destruct (Z.eqb_spec addr (last_align st)) as [E|E]; [done|].
  destruct (list_find _ _) as [[i s]|] eqn:F.
  - apply list_find_Some in F as (Hi & Hs & _). apply list_elem_of_lookup_2 in Hi. rewrite elem_of_reverse in Hi.
    split_and!; [done|done|..].
    + intros _ Hn. specialize (Hn s Hi). congruence.
    + intros _ s' Hs' Hin Hu. by rewrite <-(Hu s).
  - apply list_find_None in F. rewrite Forall_forall in F. split_and!; [done|done|done|].
    intros _ s Hs Hin. exfalso. apply (F s); [by apply elem_of_reverse|done].
Qed.
