(* ===== verification/StateM.v ===== *)
(** * A state passing monad with failure

    The operations of the I/O layer and of the virtual machine are functions on the globals of the
    program; [None] is undefined behaviour of the C code: a division by zero, a null pointer, an
    access outside a buffer. *)
From S2P Require Import Prelude.

Definition M (S A : Type) : Type := S -> option (A * S).

Section ops.
Context {S : Type}.
Definition ret {A} (a : A) : M S A := fun st => Some (a, st).
Definition bind {A B} (m : M S A) (f : A -> M S B) : M S B := fun st =>
  match m st with Some (a, st') => f a st' | None => None end.
Definition get {A} (f : S -> A) : M S A := fun st => Some (f st, st).
Definition modify (f : S -> S) : M S unit := fun st => Some (tt, f st).
Definition crash {A} : M S A := fun _ => None.
Definition lift {A} (o : option A) : M S A := fun st => (fun a => (a, st)) <$> o.
End ops.

Notation "'do' x <- m ;; f" := (bind m (fun x => f))
  (at level 200, x binder, m at level 99, f at level 200) : radare_scope.

Section laws.
Context {S : Type}.

Lemma bind_Some {A B} (m : M S A) (f : A -> M S B) st a st' : m st = Some (a, st') -> bind m f st = f a st'.
Proof. intros H. unfold bind. by rewrite H. Qed.

Lemma bind_get {A B} (g : S -> A) (f : A -> M S B) st : bind (get g) f st = f (g st) st.
Proof. done. Qed.

Lemma bind_ret {A B} (a : A) (f : A -> M S B) st : bind (ret a) f st = f a st.
Proof. done. Qed.

Lemma bind_bind {A B C} (m : M S A) (f : A -> M S B) (g : B -> M S C) st :
  bind (bind m f) g st = bind m (fun x => bind (f x) g) st.
Proof. unfold bind. by destruct (m st) as [[? ?]|]. Qed.

Lemma bind_ext {A B} (m : M S A) (f g : A -> M S B) st : (forall a st', f a st' = g a st') -> bind m f st = bind m g st.
Proof. intros H. unfold bind. destruct (m st) as [[? ?]|]; [apply H|done]. Qed.

(** *** Two computations that agree on a set of states and stay in it *)
Definition agree_on {A} (P : S -> Prop) (m1 m2 : M S A) : Prop :=
  forall st, P st -> m1 st = m2 st /\ forall a st', m1 st = Some (a, st') -> P st'.

Lemma agree_ret {A} P (a : A) : agree_on P (ret a) (ret a).
Proof. intros st H. split; [done|]. by intros ? ? [= <- <-]. Qed.
Lemma agree_crash {A} P : agree_on (A:=A) P crash crash.
Proof. done. Qed.
Lemma agree_lift {A} P (o : option A) : agree_on P (lift o) (lift o).
Proof. intros st H. split; [done|]. unfold lift. by destruct o; cbn; intros ? ? [= <- <-]. Qed.
Lemma agree_get {A} P (f : S -> A) : agree_on P (get f) (get f).
Proof. intros st H. split; [done|]. by intros ? ? [= <- <-]. Qed.
Lemma agree_modify P (f : S -> S) : (forall st, P st -> P (f st)) -> agree_on P (modify f) (modify f).
Proof. intros Hf st H. split; [done|]. intros ? ? [= <- <-]. by apply Hf. Qed.

Lemma agree_bind {A B} P (m1 m2 : M S A) (f1 f2 : A -> M S B) :
  agree_on P m1 m2 -> (forall a, agree_on P (f1 a) (f2 a)) -> agree_on P (bind m1 f1) (bind m2 f2).
Proof.
  intros Hm Hf st H. destruct (Hm st H) as [E Hp]. unfold bind. rewrite <-E.
  destruct (m1 st) as [[a st']|]; [|done]. by apply (Hf a), (Hp a).
Qed.
End laws.

Create HintDb agree discriminated.
#[export] Hint Resolve agree_ret agree_crash agree_lift agree_get agree_bind : agree.
