(* ===== verification/Io.v ===== *)
(** * The I/O layer: [src/io.c], [src/plug/io/malloc.c], [src/plug/io/posix.c]

    Every access to the opened file goes through the table of plugins: the first one that handles
    the descriptor does the work.  [W] is the state behind the plugins.  A function that would
    read or write outside a buffer yields [None]. *)
From S2P Require Import Prelude.

(** The fields of [struct config_t] this layer and its callers read. *)
Record config_t := Config {
  fd : Z; seek : Z; size : Z; vaddr : Z; paddr : Z; block_size : Z; block : list Z }.

Definition set_seek (s : Z) (c : config_t) : config_t :=
  Config (fd c) s (size c) (vaddr c) (paddr c) (block_size c) (block c).
Definition set_block (b : list Z) (c : config_t) : config_t :=
  Config (fd c) (seek c) (size c) (vaddr c) (paddr c) (block_size c) b.

Definition SEEK_SET : Z := 0.
Definition SEEK_CUR : Z := 1.
Definition SEEK_END : Z := 2.

(** What a read or a write returns: a number, or the address the plugin made out of [memcpy]. *)
Inductive ssize_t := Num (n : Z) | Addr.

(** A read fills the front of its buffer. *)
Definition fill (data buf : list Z) : list Z := data ++ drop (length data) buf.

(** ** Plugins *)
Record plugin_t (W : Type) := Plugin {
  name : string;
  handle_open : string -> bool;
  handle_fd : Z -> W -> bool;
  p_open : option (string -> Z -> Z -> W -> option (W * Z));
  p_read : option (config_t -> Z -> Z -> W -> option (W * list Z * ssize_t));
  p_lseek : option (config_t -> Z -> Z -> Z -> W -> option (W * Z));
  p_write : option (config_t -> Z -> list Z -> W -> option (W * ssize_t));
  p_close : option (Z -> W -> option (W * Z)) }.
Arguments name {W}. Arguments handle_open {W}. Arguments handle_fd {W}.
Arguments p_open {W}. Arguments p_read {W}. Arguments p_lseek {W}.
Arguments p_write {W}. Arguments p_close {W}.

Section dispatch.
Context {W : Type} (plugins : list (plugin_t W)).

(** [FIND_FD]; the table ends at the first plugin without a name. *)
Definition find_fd (x : Z) (w : W) : option (plugin_t W) :=
  if x =? -1 then None
  else snd <$> list_find (fun p => handle_fd p x w = true) plugins.
Definition find_open (y : string) : option (plugin_t W) :=
  snd <$> list_find (fun p => handle_open p y = true) plugins.

Definition io_open (pathname : string) (flags mode : Z) (w : W) : option (W * Z) :=
  match find_open pathname ≫= p_open with
  | Some open => open pathname flags mode w
  | None => Some (w, -1)
  end.

Definition io_lseek (c : config_t) (x offset whence : Z) (w : W) : option (W * Z) :=
  match find_fd x w ≫= p_lseek with
  | Some lseek => lseek c x offset whence w
  | None => Some (w, 2^64 - 1)
  end.

Definition io_close (x : Z) (w : W) : option (W * Z) :=
  match find_fd x w ≫= p_close with
  | Some close => close x w
  | None => Some (w, -1)
  end.

(** [file_write] is the variable [file.write]; the first result is [io_write_last]. *)
Definition io_write (file_write : bool) (last : Z) (c : config_t) (x : Z) (data : list Z) (w : W)
    : option (Z * W * ssize_t) :=
  if negb file_write then Some (last, w, Num (-1))
  else
    let last := s32 (Z.of_nat (length data)) in
    match find_fd x w ≫= p_write with
    | Some write => '(w', r) ← write c x data w; Some (last, w', r)
    | None => Some (last, w, Num (-1))
    end.

(** ** Mapped files *)
Record io_maps_t := IoMap { m_fd : Z; m_file : string; m_delta : Z; m_from : Z; m_to : Z }.

(** The operating system: [os_open] gives a descriptor or -1, [os_size] the end of a file and
    [os_pread fd off len] what [lseek] and [read] give there; [None] is an error. *)
Context (os_open : string -> Z) (os_size : Z -> Z) (os_pread : Z -> Z -> Z -> option (list Z)).

Definition io_map (file : string) (offset delta sz : Z) (maps : list io_maps_t) : list io_maps_t * Z :=
  let d := os_open file in
  if d =? -1 then (maps, -1)
  else
    let t := if truth sz then u64 (offset + sz) else u64 (offset + os_size d) in
    (IoMap d (String.substring 0 127 file) delta offset t :: maps, d).

(** Only a message is printed, whether the file is mapped or not. *)
Definition io_map_rm (file : string) (maps : list io_maps_t) : list io_maps_t * Z := (maps, 0).

Definition map_line (m : io_maps_t) : string :=
  "0x" +:+ fmt_x0 8 (m_from m) +:+ " 0x" +:+ fmt_x0 8 (m_to m) +:+ " start: 0x" +:+ fmt_x (m_delta m) +:+
  " size: 0x" +:+ fmt_x (u64 (m_to m - m_from m)) +:+ " " +:+ m_file m +:+ nl.
Definition io_map_list (maps : list io_maps_t) : list string * Z :=
  let l := List.filter (fun m => negb (String.eqb (m_file m) "")) maps in (map_line <$> l, Z.of_nat (length l)).

Definition map_covers (off : Z) (m : io_maps_t) : bool :=
  negb (String.eqb (m_file m) "") && (m_from m <=? off) && (off <? m_to m).

Fixpoint io_map_read_at (off : Z) (buf : list Z) (len : Z) (maps : list io_maps_t) : Z * list Z :=
  match maps with
  | [] => (0, buf)
  | m :: maps' =>
    if map_covers off m then
      let len := if m_to m <? u64 (off + len) then u64 (m_to m - off) else len in
      match os_pread (m_fd m) (u64 (off - m_from m + m_delta m)) len with
      | Some data => (s32 (Z.of_nat (length data)), fill data buf)
      | None => (-1, buf)
      end
    else io_map_read_at off buf len maps'
  end.

Definition io_read (c : config_t) (maps : list io_maps_t) (x : Z) (buf : list Z) (count : Z) (w : W)
    : option (W * list Z * ssize_t) :=
  let '(r, buf) := io_map_read_at (seek c) buf count maps in
  if truth r then Some (w, buf, Num count)
  else
    match find_fd x w ≫= p_read with
    | Some read => '(w', data, r) ← read c x count w; Some (w', fill data buf, r)
    | None => Some (w, buf, Num (-1))
    end.
End dispatch.

(** ** What the layer promises its callers

    In the states [disk_ok], [disk_bytes] is the contents behind the descriptor [x] and
    [disk_at c w off] says that the next access under the configuration [c] happens at [off].
    Seeking and reading leave the contents alone; accesses within the file transfer exactly the
    bytes asked for. *)
Class Disk {W : Type} (plugins : list (plugin_t W)) (x : Z) := {
  disk_ok : W -> Prop;
  disk_bytes : W -> list Z;
  disk_at : config_t -> W -> Z -> Prop;
  disk_lseek c w off : disk_ok w -> exists w' r, io_lseek plugins c x off SEEK_SET w = Some (w', r) /\
    disk_ok w' /\ disk_bytes w' = disk_bytes w /\
    (0 <= off <= Z.of_nat (length (disk_bytes w)) -> off < 2^63 ->
     forall c', seek c' = off -> disk_at c' w' off);
  disk_read c w buf count off : disk_ok w -> disk_at c w off -> size c = Z.of_nat (length (disk_bytes w)) ->
    0 <= off -> 0 <= count -> off + count <= size c -> size c < 2^63 ->
    exists w' r, io_read plugins (fun _ _ _ => None) c [] x buf count w =
      Some (w', fill (take (Z.to_nat count) (drop (Z.to_nat off) (disk_bytes w))) buf, r) /\
    disk_ok w' /\ disk_bytes w' = disk_bytes w;
  disk_write last c w data off : disk_ok w -> disk_at c w off ->
    0 <= off -> off + Z.of_nat (length data) <= Z.of_nat (length (disk_bytes w)) ->
    exists last' w' r, io_write plugins true last c x data w = Some (last', w', r) /\
    disk_ok w' /\ disk_bytes w' = patch (Z.to_nat off) data (disk_bytes w) }.

(** ** Lemmas *)

Lemma fill_length data buf : (length data <= length buf)%nat -> length (fill data buf) = length buf.
Proof. intros. unfold fill. rewrite length_app, length_drop. lia. Qed.

Lemma fill_all data buf : length data = length buf -> fill data buf = data.
Proof. intros H. unfold fill. rewrite drop_ge by lia. apply app_nil_r. Qed.

(** Bytes [off .. off + n) of the contents. *)
Definition slice (off n : Z) (bs : list Z) : list Z := take (Z.to_nat n) (drop (Z.to_nat off) bs).

Lemma slice_length off n bs :
  0 <= off -> 0 <= n -> off + n <= Z.of_nat (length bs) -> length (slice off n bs) = Z.to_nat n.
Proof. intros. unfold slice. rewrite length_take, length_drop. lia. Qed.

Lemma slice_lookup off n bs i :
  slice off n bs !! i = if decide (i < Z.to_nat n)%nat then bs !! (Z.to_nat off + i)%nat else None.
Proof.
  unfold slice. case_decide.
  - by rewrite lookup_take_lt, lookup_drop.
  - by rewrite lookup_take_ge by lia.
Qed.

(** Reading back what was written. *)
Lemma slice_patch off data bs :
  0 <= off -> off + Z.of_nat (length data) <= Z.of_nat (length bs) ->
  slice off (Z.of_nat (length data)) (patch (Z.to_nat off) data bs) = data.
Proof.
  intros. apply list_eq. intros i. rewrite slice_lookup, patch_lookup by lia. rewrite Nat2Z.id.
  repeat case_decide; [f_equal; lia|lia|]. by rewrite lookup_ge_None_2 by lia.
Qed.

(** A write of what is there changes nothing. *)
Lemma patch_slice off n bs :
  0 <= off -> 0 <= n -> off + n <= Z.of_nat (length bs) -> patch (Z.to_nat off) (slice off n bs) bs = bs.
Proof.
  intros. assert (length (slice off n bs) = Z.to_nat n) as Hl by (by apply slice_length).
  apply list_eq. intros i. rewrite patch_lookup by lia. case_decide as Hi; [|done].
  rewrite slice_lookup, decide_True by lia. f_equal. lia.
Qed.

(** Mapped files that do not cover the seek are not asked. *)
Lemma io_read_unmapped {W} (plugins : list (plugin_t W)) os_pread c maps x buf count w :
  Forall (fun m => map_covers (seek c) m = false) maps ->
  io_read plugins os_pread c maps x buf count w = io_read plugins (fun _ _ _ => None) c [] x buf count w.
Proof.
  intros H. unfold io_read. assert (io_map_read_at os_pread (seek c) buf count maps = (0, buf)) as ->; [|done].
  induction H as [|m maps Hm _ IH]; [done|]. cbn [io_map_read_at]. by rewrite Hm.
Qed.

(** The first plugin of the table that handles the descriptor gets every operation; with none,
    or with the descriptor -1, nothing is done. *)
Theorem find_fd_first {W} (plugins : list (plugin_t W)) x w :
  match find_fd plugins x w with
  | Some p => x <> -1 /\ exists i, plugins !! i = Some p /\ handle_fd p x w = true /\
      forall j q, (j < i)%nat -> plugins !! j = Some q -> handle_fd q x w = false
  | None => (x = -1 \/ Forall (fun p => handle_fd p x w = false) plugins) /\
      forall c off wh data last, io_lseek plugins c x off wh w = Some (w, 2^64 - 1) /\
        io_close plugins x w = Some (w, -1) /\
        io_write plugins true last c x data w = Some (s32 (Z.of_nat (length data)), w, Num (-1))
  end.
Proof.
  unfold io_lseek, io_close, io_write. destruct (find_fd plugins x w) as [p|] eqn:E; unfold find_fd in E.
  - destruct (Z.eqb_spec x (-1)); [done|]. destruct (list_find _ plugins) as [[i q]|] eqn:F; [|done].
    injection E as <-. apply list_find_Some in F as (Hi & Hh & Hj). split; [done|]. exists i.
    split_and!; [done|done|]. intros j q' Hjl Hq. specialize (Hj j q' Hq Hjl).
    by destruct (handle_fd q' x w).
  - split; [|done]. destruct (Z.eqb_spec x (-1)); [by left|right].
    destruct (list_find _ plugins) eqn:F; [done|]. apply list_find_None in F.
    apply (Forall_impl _ _ _ F). intros p Hp. by destruct (handle_fd p x w).
Qed.
