(* ===== verification/IoPlugins.v ===== *)
(** * Two plugins of the I/O layer: [src/plug/io/malloc.c] and [src/plug/io/posix.c]

    The functions of each plugin and the table entry made of them, with the instances that show
    what they promise: a plugin that handles its descriptor behaves as a [Disk]. *)
From S2P Require Import Prelude Io.

(** ** [malloc://size] *)
Record malloc_st := MallocSt { malloc_fd : Z; malloc_buf : option (list Z); malloc_bufsz : Z }.

Definition MALLOC_FD : Z := 98479.
Definition malloc_st0 : malloc_st := MallocSt (-1) None 0.

(** Nothing checks that the bytes fit; [None] when they do not. *)
Definition malloc_write (c : config_t) (_ : Z) (buf : list Z) (w : malloc_st) : option (malloc_st * ssize_t) :=
  match malloc_buf w with
  | None => Some (w, Num 0)
  | Some b =>
    if seek c + Z.of_nat (length buf) <=? Z.of_nat (length b) then
      Some (MallocSt (malloc_fd w) (Some (patch (Z.to_nat (seek c)) buf b)) (malloc_bufsz w), Addr)
    else None
  end.

(** The bound is [config.size], not the size of the buffer. *)
Definition malloc_read (c : config_t) (_ count : Z) (w : malloc_st) : option (malloc_st * list Z * ssize_t) :=
  match malloc_buf w with
  | None => Some (w, [], Num 0)
  | Some b =>
    if size c <? u64 (seek c + count) then Some (w, [], Num 0)
    else if seek c + count <=? Z.of_nat (length b) then Some (w, slice (seek c) count b, Addr)
    else None
  end.

Definition malloc_lseek (c : config_t) (_ offset whence : Z) (w : malloc_st) : option (malloc_st * Z) :=
  Some (w, if whence =? SEEK_SET then offset
           else if whence =? SEEK_CUR then u64 (seek c + offset)
           else if whence =? SEEK_END then malloc_bufsz w
           else offset).

Definition malloc_handle_fd (x : Z) (w : malloc_st) : bool := x =? malloc_fd w.
Definition malloc_handle_open (pathname : string) : bool := starts_with "malloc://" pathname.

Section malloc.
(** [can_alloc] decides whether the C library's [malloc] succeeds, [fresh] is what its memory
    holds. *)
Context (can_alloc : Z -> bool) (fresh : Z -> list Z).

Definition malloc_close (_ : Z) (w : malloc_st) : option (malloc_st * Z) :=
  match malloc_buf w with
  | None => Some (w, -1)
  | Some _ =>
    let b := if can_alloc (malloc_bufsz w) then Some (fresh (malloc_bufsz w)) else None in
    Some (MallocSt (malloc_fd w) b (malloc_bufsz w), 0)
  end.

Definition malloc_open (pathname : string) (_ _ : Z) (w : malloc_st) : option (malloc_st * Z) :=
  let w' :=
    if starts_with "malloc://" pathname then
      let sz := u32 (atoi (str_drop 9 pathname)) in
      if can_alloc sz then MallocSt MALLOC_FD (Some (replicate (Z.to_nat sz) 0)) sz
      else MallocSt (-1) None 0
    else w in
  Some (w', malloc_fd w').

Definition malloc_plugin : plugin_t malloc_st :=
  Plugin malloc_st "malloc" malloc_handle_open malloc_handle_fd (Some malloc_open) (Some malloc_read)
    (Some malloc_lseek) (Some malloc_write) (Some malloc_close).

Definition malloc_ok (x : Z) (w : malloc_st) : Prop :=
  x <> -1 /\ malloc_fd w = x /\ exists b, malloc_buf w = Some b.

(** The position is [config.seek] itself: [malloc_lseek] keeps none. *)
#[export] Instance malloc_disk (x : Z) : Disk [malloc_plugin] x.
Proof.
  refine {| disk_ok := malloc_ok x; disk_bytes := fun w => default [] (malloc_buf w);
            disk_at := fun c _ off => seek c = off |}.
  - intros c w off (Hx & <- & b & Hb). eexists w, _. unfold io_lseek, find_fd. cbn [list_find].
    rewrite (proj2 (Z.eqb_neq _ _)) by done. cbn. unfold malloc_handle_fd.
    rewrite decide_True by apply Z.eqb_refl. split; [reflexivity|]. unfold malloc_ok. naive_solver.
  - intros c w buf count off (Hx & <- & b & Hb) Hs Hsz H1 H2 H3 H4. rewrite Hb in *. cbn [default from_option id] in *.
    unfold io_read, find_fd. cbn [list_find io_map_read_at]. rewrite (proj2 (Z.eqb_neq _ _)) by done. cbn.
    unfold malloc_handle_fd. rewrite decide_True by apply Z.eqb_refl. cbn. unfold malloc_read. rewrite Hb, Hs.
    assert (u64 (off + count) = off + count) as -> by (apply Z.mod_small; lia).
    rewrite (proj2 (Z.ltb_ge _ _)) by lia. rewrite (proj2 (Z.leb_le _ _)) by lia. cbn.
    eexists w, _. split; [reflexivity|]. rewrite Hb. unfold malloc_ok. naive_solver.
  - intros last c w data off (Hx & <- & b & Hb) Hs H1 H2. rewrite Hb in *. cbn [default from_option id] in *.
    unfold io_write, find_fd. cbn [list_find negb]. rewrite (proj2 (Z.eqb_neq _ _)) by done. cbn.
    unfold malloc_handle_fd. rewrite decide_True by apply Z.eqb_refl. cbn. unfold malloc_write. rewrite Hb, Hs.
    rewrite (proj2 (Z.leb_le _ _)) by lia. cbn. eexists _, _, _. split; [reflexivity|].
    cbn. unfold malloc_ok. naive_solver.
Defined.
End malloc.

(** ** Plain files

    The calls of the operating system on its state [O]; [None] is a failed [read]. *)
Section posix.
Context {O : Type} (os_open : string -> Z -> Z -> O -> O * Z) (os_close : Z -> O -> O * Z)
  (os_lseek : Z -> Z -> Z -> O -> O * Z) (os_read : Z -> Z -> O -> O * option (list Z))
  (os_write : Z -> list Z -> O -> O * Z).

Definition posix_write (_ : config_t) (x : Z) (buf : list Z) (w : O) : option (O * ssize_t) :=
  let '(w', r) := os_write x buf w in Some (w', Num r).
Definition posix_read (_ : config_t) (x count : Z) (w : O) : option (O * list Z * ssize_t) :=
  let '(w', d) := os_read x count w in
  Some (w', default [] d, Num (match d with Some d => Z.of_nat (length d) | None => -1 end)).
Definition posix_open (pathname : string) (flags mode : Z) (w : O) : option (O * Z) :=
  Some (os_open pathname flags mode w).
Definition posix_close (x : Z) (w : O) : option (O * Z) := Some (os_close x w).
Definition posix_lseek (_ : config_t) (x offset whence : Z) (w : O) : option (O * Z) :=
  let '(w', r) := os_lseek x (s64 offset) whence w in Some (w', u64 r).
Definition posix_handle_fd (_ : Z) (_ : O) : bool := true.
Definition posix_handle_open (_ : string) : bool := true.

Definition posix_plugin : plugin_t O :=
  Plugin O "posix" posix_handle_open posix_handle_fd (Some posix_open) (Some posix_read)
    (Some posix_lseek) (Some posix_write) (Some posix_close).

(** What POSIX says of an open regular file [x]: a byte sequence and a file offset. *)
Class RegularFile (x : Z) := {
  file_bytes : O -> list Z;
  file_pos : O -> Z;
  file_lseek w off : file_bytes (os_lseek x off SEEK_SET w).1 = file_bytes w /\
    (0 <= off -> file_pos (os_lseek x off SEEK_SET w).1 = off);
  file_read w n : 0 <= n -> file_pos w + n <= Z.of_nat (length (file_bytes w)) ->
    (os_read x n w).2 = Some (slice (file_pos w) n (file_bytes w)) /\
    file_bytes (os_read x n w).1 = file_bytes w;
  file_write w data : file_pos w + Z.of_nat (length data) <= Z.of_nat (length (file_bytes w)) ->
    file_bytes (os_write x data w).1 = patch (Z.to_nat (file_pos w)) data (file_bytes w) }.

#[export] Instance posix_disk (x : Z) `{RegularFile x} (Hx : x <> -1) : Disk [posix_plugin] x.
Proof.
  refine {| disk_ok := fun _ => True; disk_bytes := file_bytes; disk_at := fun _ w off => file_pos w = off |}.
  - intros c w off _. unfold io_lseek, find_fd. cbn [list_find].
    rewrite (proj2 (Z.eqb_neq _ _)) by done. rewrite decide_True by done. cbn. unfold posix_lseek.
    pose proof (file_lseek w (s64 off)) as [Hb Hp]. destruct (os_lseek x (s64 off) SEEK_SET w) as [w' r].
    eexists w', _. split; [reflexivity|]. split; [done|]. split; [done|]. intros Ho Ho2 _ _.
    assert (s64 off = off) as E by (unfold s64; rewrite Z.mod_small by lia; lia). rewrite E in Hp. apply Hp. lia.
  - intros c w buf count off _ <- Hsz H1 H2 H3 H4.
    unfold io_read, find_fd. cbn [list_find io_map_read_at]. rewrite (proj2 (Z.eqb_neq _ _)) by done. rewrite decide_True by done. cbn. unfold posix_read.
    destruct (file_read w count H2) as [Hr Hb]; [lia|]. destruct (os_read x count w) as [w' d].
    cbn in Hr, Hb. subst d. eexists w', _. split; [reflexivity|]. done.
  - intros last c w data off _ <- H1 H2. unfold io_write, find_fd. cbn [list_find negb].
    rewrite (proj2 (Z.eqb_neq _ _)) by done. rewrite decide_True by done. cbn. unfold posix_write.
    pose proof (file_write w data H2) as Hb. destruct (os_write x data w) as [w' r].
    eexists _, w', _. split; [reflexivity|]. done.
Defined.
End posix.
