(* ===== verification/Rio.v ===== *)
(** * Reading, writing and undoing: [src/rio.c] and the write history of [src/undo.c]

    The state is the program's globals these functions touch; a function is a state passing one
    that yields [None] where the C code divides by zero or leaves a buffer. *)
From S2P Require Import Prelude StateM Sections Io.

Record undow_t := Undow { u_set : Z; u_off : Z; u_o : list Z; u_n : list Z; u_len : Z }.
Definition UNDO_WRITE_UNSET : Z := 0.
Definition UNDO_WRITE_SET : Z := 1.

Record radare_st (W : Type) := RadareSt {
  conf : config_t;
  file_write : bool;      (* eval file.write *)
  file_undowrite : bool;  (* eval file.undowrite *)
  sects : sections_st;
  maps : list io_maps_t;
  write_last : Z;
  dev : W;
  undo_w_list : list undow_t;
  undo_w_init : bool;
  undo_w_lock : bool;
  write_mask : option (list Z) }.
Arguments RadareSt {W}. Arguments conf {W}. Arguments file_write {W}. Arguments file_undowrite {W}.
Arguments sects {W}. Arguments maps {W}. Arguments write_last {W}. Arguments dev {W}.
Arguments undo_w_list {W}. Arguments undo_w_init {W}. Arguments undo_w_lock {W}. Arguments write_mask {W}.

Section rio.
Context {W : Type} (plugins : list (plugin_t W)).
(** What the operating system reads from mapped files, and what new memory holds. *)
Context (os_pread : Z -> Z -> Z -> option (list Z)) (fresh : nat -> list Z).

Notation st_t := (radare_st W).

Notation M := (StateM.M st_t).

Definition with_conf (c : config_t) (s : st_t) : st_t :=
  RadareSt c (file_write s) (file_undowrite s) (sects s) (maps s) (write_last s) (dev s)
    (undo_w_list s) (undo_w_init s) (undo_w_lock s) (write_mask s).
Definition with_sects (x : sections_st) (s : st_t) : st_t :=
  RadareSt (conf s) (file_write s) (file_undowrite s) x (maps s) (write_last s) (dev s)
    (undo_w_list s) (undo_w_init s) (undo_w_lock s) (write_mask s).
Definition with_dev (l : Z) (d : W) (s : st_t) : st_t :=
  RadareSt (conf s) (file_write s) (file_undowrite s) (sects s) (maps s) l d
    (undo_w_list s) (undo_w_init s) (undo_w_lock s) (write_mask s).
Definition with_undo (l : list undow_t) (i k : bool) (s : st_t) : st_t :=
  RadareSt (conf s) (file_write s) (file_undowrite s) (sects s) (maps s) (write_last s) (dev s)
    l i k (write_mask s).
Definition with_mask (m : option (list Z)) (s : st_t) : st_t :=
  RadareSt (conf s) (file_write s) (file_undowrite s) (sects s) (maps s) (write_last s) (dev s)
    (undo_w_list s) (undo_w_init s) (undo_w_lock s) m.

(** ** Seeking and reading *)

(** The offset is unsigned: the tests for negative ones never succeed. *)
Definition radare_seek (offset whence : Z) : M Z := fun st =>
  if offset =? minus1 then Some (minus1, st)
  else if (whence =? SEEK_END) && (size (conf st) =? minus1) then Some (minus1, st)
  else
    let c := if whence =? SEEK_END then set_seek (size (conf st)) (conf st) else conf st in
    let bip := truth (vaddr c) in
    let offset1 := if bip && (offset <? vaddr c) then u64 (offset + vaddr c) else offset in
    let '(x, aligned) :=
      if bip then section_align offset1 (vaddr c) (paddr c) (sects st) else (sects st, offset1) in
    let preoffset := u64 (offset1 - vaddr c) in
    let sk := if whence =? SEEK_SET then aligned else u64 (seek c + aligned) in
    match io_lseek plugins c (fd c) sk SEEK_SET (dev st) with
    | None => None
    | Some (d, _) =>
      let sk' :=
        if bip then (if whence =? SEEK_SET then preoffset else u64 (seek c - aligned + preoffset))
        else sk in
      Some (sk', with_conf (set_seek sk' c) (with_sects x (with_dev (write_last st) d st)))
    end.

Definition io_read_m (buf : list Z) (count : Z) : M (ssize_t * list Z) := fun st =>
  match io_read plugins os_pread (conf st) (maps st) (fd (conf st)) buf count (dev st) with
  | Some (d, buf', r) => Some ((r, buf'), with_dev (write_last st) d st)
  | None => None
  end.

Definition io_write_m (data : list Z) : M ssize_t := fun st =>
  match io_write plugins (file_write st) (write_last st) (conf st) (fd (conf st)) data (dev st) with
  | Some (l, d, r) => Some (r, with_dev l d st)
  | None => None
  end.

(** The buffer is [buf]; [len] is its length. *)
Definition radare_read_at (offset : Z) (buf : list Z) : M (ssize_t * list Z) :=
  do cur <- get (fun s => seek (conf s)) ;;
  do _ <- radare_seek offset SEEK_SET ;;
  do r <- io_read_m buf (Z.of_nat (length buf)) ;;
  do _ <- radare_seek cur SEEK_SET ;;
  ret r.

Definition radare_read (next : bool) : M ssize_t := fun st =>
  let c := conf st in
  if fd c =? -1 then Some (Num 0, st)
  else if seek c =? minus1 then Some (Num (block_size c), with_conf (set_seek 0 c) st)
  else
    (do _ <- radare_seek (if next then u64 (seek c + block_size c) else seek c) SEEK_SET ;;
     do r <- io_read_m (replicate (Z.to_nat (block_size c)) 255) (u64 (block_size c)) ;;
     do _ <- modify (fun s => with_conf (set_block r.2 (conf s)) s) ;;
     ret r.1) st.

(** ** Writing *)

Definition radare_write_mask (mask : option (list Z)) : M Z :=
  do _ <- modify (with_mask mask) ;;
  ret (match mask with None => 0 | Some _ => 1 end).

(** [data[i] & write_mask[i % write_mask_len]]. *)
Definition apply_mask (mask data : list Z) : option (list Z) :=
  match mask, data with
  | [], _ :: _ => None
  | _, _ => Some (imap (fun i b => Z.land b (nth (i mod length mask) mask 0)) data)
  end.

Definition same_write (off : Z) (data : list Z) (u : undow_t) : bool :=
  (off =? u_off u) && (Z.of_nat (length data) =? u_len u) && bool_decide (data = u_n u).

Definition undo_write_new (off : Z) (data : list Z) : M unit := fun st =>
  if negb (file_undowrite st) then Some (tt, st)
  else if undo_w_lock st then Some (tt, st)
  else
    let st := if undo_w_init st then st else with_undo [] true (undo_w_lock st) st in
    if existsb (same_write off data) (undo_w_list st) then Some (tt, st)
    else
      (do r <- radare_read_at off (fresh (length data)) ;;
       modify (fun s =>
         let u := Undow UNDO_WRITE_SET off r.2 data (Z.of_nat (length data)) in
         with_undo (undo_w_list s ++ [u]) (undo_w_init s) (undo_w_lock s) s)) st.

Definition section_refuses (offset : Z) (st : st_t) : bool :=
  match section_get offset (sects st) with
  | Some s => truth (Z.land (rwx s) SECTION_W)
  | None => false
  end.

Definition radare_write_at (offset : Z) (data : list Z) : M ssize_t :=
  do cur <- get (fun s => seek (conf s)) ;;
  do _ <- radare_seek offset SEEK_SET ;;
  do refused <- get (section_refuses offset) ;;
  if refused : bool then ret (Num (-1))
  else
    do undo <- get file_undowrite ;;
    do _ <- (if undo : bool then undo_write_new offset data else ret tt) ;;
    do mask <- get write_mask ;;
    do data <- (match mask with
                | None => ret data
                | Some m =>
                  do _ <- radare_read_at offset (fresh (length data)) ;;
                  lift (apply_mask m data)
                end) ;;
    do len <- io_write_m data ;;
    do _ <- radare_seek cur SEEK_SET ;;
    ret len.

(** ** The history of writes *)

Definition undo_write_clear : M unit := modify (fun s => with_undo [] (undo_w_init s) (undo_w_lock s) s).

Definition undo_write_size (st : st_t) : Z :=
  if undo_w_init st then Z.of_nat (length (undo_w_list st)) else 0.

Definition set_node (k : nat) (v : Z) (l : list undow_t) : list undow_t :=
  alter (fun u => Undow v (u_off u) (u_o u) (u_n u) (u_len u)) k l.

(** The node at position [k] of the list. *)
Definition undo_write_set_t (k : nat) (set : bool) : M unit :=
  do u <- get (fun s => undo_w_list s !! k) ;;
  match u with
  | None => ret tt
  | Some u =>
    do _ <- modify (fun s => with_undo (undo_w_list s) (undo_w_init s) true s) ;;
    do _ <- radare_write_at (u_off u) (if set then u_n u else u_o u) ;;
    modify (fun s => with_undo (set_node k (if set then UNDO_WRITE_SET else UNDO_WRITE_UNSET) (undo_w_list s))
                       (undo_w_init s) false s)
  end.

(** From the newest write to the oldest, for [set] and for unset alike. *)
Fixpoint set_all_loop (k : nat) (set : bool) : M unit :=
  match k with
  | O => ret tt
  | S k' => do _ <- undo_write_set_t k' set ;; set_all_loop k' set
  end.
Definition undo_write_set_all (set : bool) : M unit := fun st =>
  if undo_w_init st then set_all_loop (length (undo_w_list st)) set st else Some (tt, st).

(** Number [n] counts from the newest write. *)
Definition undo_write_set (n : Z) (set : bool) : M unit := fun st =>
  if undo_w_init st && (0 <=? n) && (n <? Z.of_nat (length (undo_w_list st))) then
    undo_write_set_t (length (undo_w_list st) - 1 - Z.to_nat n) set st
  else Some (tt, st).

(** A sequence of writes. *)
Fixpoint write_all (ws : list (Z * list Z)) : M unit :=
  match ws with
  | [] => ret tt
  | (off, data) :: ws' => do _ <- radare_write_at off data ;; write_all ws'
  end.
End rio.

#[local] Open Scope string_scope.
#[local] Open Scope Z_scope.

Definition hex2 (b : Z) : string := fmt_x0 2 b +:+ " ".
Definition hexes (l : list Z) : string := String.concat "" (hex2 <$> l).

(** One entry of [undo_write_list], in radare form or as a table line. *)
Definition undo_line (rad : bool) (i : nat) (u : undow_t) : string :=
  if rad then "wx " +:+ hexes (take (Z.to_nat (u_len u)) (u_n u)) +:+ "@ 0x" +:+ fmt_x0 8 (u_off u) +:+ nl
  else
    let len := if 8 <? u_len u then 8 else u_len u in
    let dots := if len =? 8 then ".. " else "" in
    fmt_02d (Z.of_nat i) +:+ " " +:+ (if truth (u_set u) then "+" else "-") +:+ " " +:+ fmt_d (u_len u) +:+ " " +:+
    fmt_x0 8 (u_off u) +:+ ": " +:+ hexes (take (Z.to_nat len) (u_o u)) +:+ dots +:+ "=> " +:+
    hexes (take (Z.to_nat len) (u_n u)) +:+ dots +:+ nl.
Definition undo_write_list {W} (rad : bool) (st : radare_st W) : list string :=
  if undo_w_init st then imap (undo_line rad) (undo_w_list st) else [].
