(* ===== verification/RioSpec.v ===== *)
(** * What reading, writing and undoing promise

    Theorems about [Rio] over any plugin table that keeps the promise [Disk]: the opened file is
    a sequence of bytes, [radare_read_at] and [radare_write_at] are reading and patching of that
    sequence that leave the seek where it was, and undoing every write restores it. *)
From S2P Require Import Prelude StateM Sections Io IoPlugins Rio.

Section spec.
Context {W : Type} (plugins : list (plugin_t W)) (os_pread : Z -> Z -> Z -> option (list Z))
  (fresh : nat -> list Z) (x : Z) {HD : Disk plugins x}.
Hypothesis fresh_length : forall n, length (fresh n) = n.

Notation st_t := (radare_st W).
Notation seek_ := (radare_seek plugins).
Notation read_at := (radare_read_at plugins os_pread).
Notation write_at := (radare_write_at plugins os_pread fresh).

Definition contents (st : st_t) : list Z := disk_bytes (dev st).

(** A file opened for writing at no base address, with nothing mapped over it, no write mask and
    no section that refuses writes. *)
Record plain (st : st_t) : Prop := {
  plain_fd : fd (conf st) = x;
  plain_ok : disk_ok (dev st);
  plain_vaddr : vaddr (conf st) = 0;
  plain_size : size (conf st) = Z.of_nat (length (contents st));
  plain_small : size (conf st) < 2^63;
  plain_seek : 0 <= seek (conf st) < minus1;
  plain_maps : maps st = [];
  plain_sects : Forall (fun s => Z.land (rwx s) SECTION_W = 0) (sections (sects st));
  plain_mask : write_mask st = None;
  plain_write : file_write st = true }.

Lemma set_seek_back s c : set_seek (seek c) (set_seek s c) = c.
Proof. by destruct c. Qed.


Lemma plain_with_dev l d st :
  plain st -> disk_ok d -> length (disk_bytes d) = length (contents st) -> plain (with_dev l d st).
Proof. intros [] Hd Hl. constructor; try done. cbn. unfold contents. cbn. by rewrite Hl. Qed.

Lemma plain_with_undo u i k st : plain st -> plain (with_undo u i k st).
Proof. by intros []. Qed.

(** The device stands at [off]. *)
Definition positioned (off : Z) (d : W) : Prop := forall c', seek c' = off -> disk_at c' d off.

(** *** Seeking *)
Lemma seek_set st off :
  disk_ok (dev st) -> fd (conf st) = x -> vaddr (conf st) = 0 -> 0 <= off < minus1 ->
  exists d, seek_ off SEEK_SET st = Some (off, with_conf (set_seek off (conf st)) (with_dev (write_last st) d st)) /\
    disk_ok d /\ disk_bytes d = contents st /\
    (off <= Z.of_nat (length (contents st)) -> off < 2^63 -> positioned off d).
Proof.
  intros Hok Hfd Hv Hoff. unfold radare_seek. rewrite (proj2 (Z.eqb_neq _ _)) by lia.
  change (SEEK_SET =? SEEK_END) with false. cbn [andb]. rewrite Hv. change (truth 0) with false. cbn [andb].
  change (SEEK_SET =? SEEK_SET) with true. cbv iota. rewrite Hfd.
  destruct (disk_lseek (conf st) (dev st) off Hok) as (d & r & -> & Hd & Hb & Hat).
  exists d. split; [reflexivity|]. split; [done|]. split; [done|]. intros H1 H2 c1 Hc1. apply Hat; [unfold contents in H1; lia|done|done].
Qed.

(** *** Reading *)
Lemma read_at_plain st off buf :
  plain st -> 0 <= off -> off + Z.of_nat (length buf) <= size (conf st) ->
  exists d r, read_at off buf st = Some ((r, slice off (Z.of_nat (length buf)) (contents st)), with_dev (write_last st) d st) /\
    disk_ok d /\ disk_bytes d = contents st /\ (seek (conf st) <= size (conf st) -> positioned (seek (conf st)) d).
Proof.
  intros [] Hoff Hlen. unfold radare_read_at, bind, get.
  destruct (seek_set st off) as (d1 & -> & Hok1 & Hb1 & Hat1); [done|done|done|unfold minus1; lia|].
  unfold io_read_m. cbn [conf with_conf with_dev maps fd set_seek dev write_last].
  rewrite plain_fd0, plain_maps0.
  rewrite (io_read_unmapped plugins os_pread) by constructor.
  rewrite <-Hb1 in *.
  destruct (disk_read (set_seek off (conf st)) d1 buf (Z.of_nat (length buf)) off) as (d2 & r & -> & Hok2 & Hb2);
    try done; try lia.
  { apply Hat1; try done; unfold contents in *; try lia. }
  set (st2 := with_dev _ d2 _).
  destruct (seek_set st2 (seek (conf st))) as (d3 & -> & Hok3 & Hb3 & Hat3); [done|done|done|done|].
  exists d3, r. unfold ret. split; [|split; [done|split]].
  - f_equal. f_equal; [f_equal|].
    + apply fill_all. fold (slice off (Z.of_nat (length buf)) (disk_bytes d1)).
      rewrite slice_length by (unfold contents in *; lia). lia.
    + unfold st2, with_conf, with_dev. cbn. by rewrite set_seek_back.
  - rewrite Hb3. unfold st2, contents. cbn. by rewrite Hb2.
  - intros Hs. apply Hat3; unfold st2, contents in *; cbn in *; rewrite ?Hb2; lia.
Qed.

(** A block at the seek. *)
Lemma read_block_plain (Hfd : x <> -1) st :
  plain st -> 0 <= block_size (conf st) -> seek (conf st) + block_size (conf st) <= size (conf st) ->
  exists d r, radare_read plugins os_pread false st =
      Some (r, with_conf (set_block (slice (seek (conf st)) (block_size (conf st)) (contents st)) (conf st)) (with_dev (write_last st) d st)) /\
    disk_ok d /\ disk_bytes d = contents st.
Proof.
  intros Hp Hb Hs. pose proof Hp as []. unfold radare_read. rewrite (plain_fd _ Hp), (proj2 (Z.eqb_neq _ _)) by done.
  rewrite (proj2 (Z.eqb_neq (seek (conf st)) minus1)) by lia. unfold bind.
  destruct (seek_set st (seek (conf st))) as (d1 & -> & Hok1 & Hb1 & Hat1); [apply Hp|apply Hp|apply Hp|lia|].
  unfold io_read_m. cbn [conf with_conf with_dev maps fd set_seek dev write_last].
  rewrite (plain_fd _ Hp), (plain_maps _ Hp). rewrite (io_read_unmapped plugins os_pread) by constructor.
  assert (u64 (block_size (conf st)) = block_size (conf st)) as -> by (apply u64_id; unfold is_u64; lia).
  destruct (disk_read (set_seek (seek (conf st)) (conf st)) d1 (replicate (Z.to_nat (block_size (conf st))) 255) (block_size (conf st)) (seek (conf st)))
    as (d2 & r & -> & Hok2 & Hb2); try done; try lia.
  - apply Hat1; try done; lia.
  - cbn. rewrite Hb1. done.
  - exists d2, r. split; [|split; [done|by rewrite Hb2]]. unfold modify, ret, with_conf, with_dev, set_block, set_seek.
    cbn [conf fd seek size vaddr paddr block_size block file_write file_undowrite sects maps write_last dev undo_w_list undo_w_init undo_w_lock write_mask snd fst].
    rewrite fill_all; [by rewrite Hb1|]. rewrite length_replicate. fold (slice (seek (conf st)) (block_size (conf st)) (disk_bytes d1)).
    rewrite slice_length; rewrite ?Hb1; lia.
Qed.

(** *** The history, as a transformation of the bytes

    The loops go from the newest record to the oldest, so the oldest one covering a byte decides
    it, whichever of the two buffers [sel] is restored. *)
Definition applied (sel : undow_t -> list Z) (l : list undow_t) (bs : list Z) : list Z :=
  foldr (fun u bs => patch (Z.to_nat (u_off u)) (sel u) bs) bs l.

Definition covers (u : undow_t) (i : nat) : Prop := u_off u <= Z.of_nat i < u_off u + u_len u.

#[export] Instance covers_dec u i : Decision (covers u i).
Proof. unfold covers. apply _. Defined.

(** The record lies inside a file of [n] bytes. *)
Record fits (n : nat) (u : undow_t) : Prop := {
  fits_off : 0 <= u_off u;
  fits_end : u_off u + u_len u <= Z.of_nat n;
  fits_o : Z.of_nat (length (u_o u)) = u_len u;
  fits_n : Z.of_nat (length (u_n u)) = u_len u }.

Definition sel_ok (sel : undow_t -> list Z) : Prop := sel = u_o \/ sel = u_n.

Lemma fits_sel n u sel : sel_ok sel -> fits n u -> Z.of_nat (length (sel u)) = u_len u.
Proof. by intros [->| ->] []. Qed.

Lemma patch_fits_lookup sel n u bs i : sel_ok sel -> fits n u -> length bs = n ->
  length (patch (Z.to_nat (u_off u)) (sel u) bs) = n /\
  patch (Z.to_nat (u_off u)) (sel u) bs !! i =
    if decide (covers u i) then sel u !! (i - Z.to_nat (u_off u))%nat else bs !! i.
Proof.
  intros Hs Hu Hn. pose proof (fits_sel n u sel Hs Hu). destruct Hu.
  split; [rewrite patch_length; lia|]. rewrite patch_lookup by lia.
  unfold covers. repeat case_decide; done || lia.
Qed.

Lemma applied_cons sel u l bs : applied sel (u :: l) bs = patch (Z.to_nat (u_off u)) (sel u) (applied sel l bs).
Proof. done. Qed.

Lemma applied_length sel l bs : sel_ok sel -> Forall (fits (length bs)) l -> length (applied sel l bs) = length bs.
Proof.
  intros Hs H. induction l as [|u l IH]; [done|]. apply Forall_cons in H as [Hu Hl]. cbn.
  by apply (patch_fits_lookup sel (length bs) u _ 0 Hs Hu), IH.
Qed.

(** Only the uncovered bytes of the old contents show. *)
Lemma applied_ext sel l bs bs' i : sel_ok sel -> length bs = length bs' -> Forall (fits (length bs)) l ->
  (Forall (fun u => ~ covers u i) l -> bs !! i = bs' !! i) -> applied sel l bs !! i = applied sel l bs' !! i.
Proof.
  intros Hs Hlen Hl. induction l as [|u l IH]; intros He; [by apply He|]. rewrite !applied_cons.
  apply Forall_cons in Hl as [Hu Hl].
  pose proof (applied_length sel l bs Hs Hl). pose proof (applied_length sel l bs' Hs ltac:(by rewrite <-Hlen)).
  destruct (patch_fits_lookup sel (length bs) u (applied sel l bs) i Hs Hu) as [_ ->]; [done|].
  destruct (patch_fits_lookup sel (length bs) u (applied sel l bs') i Hs Hu) as [_ ->]; [congruence|].
  case_decide; [done|]. apply (IH Hl). intros Hf. apply He. by constructor.
Qed.

Lemma applied_snoc sel l u bs :
  applied sel (l ++ [u]) bs = applied sel l (patch (Z.to_nat (u_off u)) (sel u) bs).
Proof. unfold applied. by rewrite foldr_app. Qed.

(** The oldest record that covers a byte decides it. *)
Lemma applied_oldest sel l1 u l2 bs i : sel_ok sel -> Forall (fits (length bs)) (l1 ++ u :: l2) ->
  Forall (fun v => ~ covers v i) l1 -> covers u i ->
  applied sel (l1 ++ u :: l2) bs !! i = sel u !! (i - Z.to_nat (u_off u))%nat.
Proof.
  intros Hs Hl Hn Hc. induction l1 as [|v l1 IH]; cbn [app] in *; rewrite applied_cons.
  - apply Forall_cons in Hl as [Hu Hl].
    destruct (patch_fits_lookup sel (length bs) u (applied sel l2 bs) i Hs Hu) as [_ ->];
      [by apply applied_length|]. by rewrite decide_True.
  - apply Forall_cons in Hl as [Hv Hl]. apply Forall_cons in Hn as [Hnv Hn].
    destruct (patch_fits_lookup sel (length bs) v (applied sel (l1 ++ u :: l2) bs) i Hs Hv) as [_ ->];
      [by apply applied_length|]. rewrite decide_False by done. by apply IH.
Qed.

Definition record_write (bs : list Z) (off : Z) (data : list Z) (l : list undow_t) : list undow_t :=
  if existsb (same_write off data) l then l
  else l ++ [Undow UNDO_WRITE_SET off (slice off (Z.of_nat (length data)) bs) data (Z.of_nat (length data))].

Lemma record_write_fits bs off data l :
  0 <= off -> off + Z.of_nat (length data) <= Z.of_nat (length bs) ->
  Forall (fits (length bs)) l -> Forall (fits (length bs)) (record_write bs off data l).
Proof.
  intros H1 H2 Hl. unfold record_write. case_match; [done|]. apply Forall_app. split; [done|].
  repeat constructor; cbn; try lia. rewrite slice_length by lia. lia.
Qed.

(** A recorded write, or one whose bytes an equal record already covers, is undone. *)
Lemma applied_record bs off data l :
  0 <= off -> off + Z.of_nat (length data) <= Z.of_nat (length bs) -> Forall (fits (length bs)) l ->
  applied u_o (record_write bs off data l) (patch (Z.to_nat off) data bs) = applied u_o l bs.
Proof.
  intros H1 H2 Hl. assert (sel_ok u_o) as Hs by (by left).
  assert (length (patch (Z.to_nat off) data bs) = length bs) as Hp by (apply patch_length; lia).
  unfold record_write. destruct (existsb _ l) eqn:E.
  - apply existsb_exists in E as (u & Hu%list_elem_of_In & Hsame). unfold same_write in Hsame.
    rewrite !andb_true_iff in Hsame. destruct Hsame as [[Ho%Z.eqb_eq Hln%Z.eqb_eq] _].
    apply list_eq. intros i. apply applied_ext; [done|done|by rewrite Hp|].
    intros Hf. rewrite Forall_forall in Hf. specialize (Hf u Hu). rewrite patch_lookup by lia.
    rewrite decide_False; [done|]. unfold covers in Hf. lia.
  - rewrite applied_snoc. cbn. f_equal. apply list_eq. intros i.
    assert (length (slice off (Z.of_nat (length data)) bs) = length data) as Hsl by (rewrite slice_length by lia; lia).
    rewrite !patch_lookup by lia. rewrite Hsl. case_decide as Hi; [|done].
    rewrite slice_lookup, decide_True by lia. f_equal. lia.
Qed.

(** *** Writing *)
Definition records (st : st_t) : bool := file_undowrite st && negb (undo_w_lock st).
Definition history (st : st_t) : list undow_t := if undo_w_init st then undo_w_list st else [].

(** The history after a write of [data] at [off]. *)
Definition new_history (off : Z) (data : list Z) (st : st_t) : list undow_t :=
  if records st then record_write (contents st) off data (history st) else undo_w_list st.

Lemma undo_write_new_plain st off data :
  plain st -> 0 <= off -> off + Z.of_nat (length data) <= size (conf st) ->
  seek (conf st) <= size (conf st) -> positioned (seek (conf st)) (dev st) ->
  exists d, undo_write_new plugins os_pread fresh off data st =
      Some (tt, with_undo (new_history off data st) (undo_w_init st || records st) (undo_w_lock st) (with_dev (write_last st) d st)) /\
    disk_ok d /\ disk_bytes d = contents st /\ positioned (seek (conf st)) d.
Proof.
  intros Hp Hoff Hlen Hs Hpos. unfold undo_write_new, new_history, records, history.
  destruct (file_undowrite st) eqn:Eu; cbn [negb andb].
  2:{ exists (dev st). rewrite orb_false_r. split; [by destruct st|]. split; [apply Hp|done]. }
  destruct (undo_w_lock st) eqn:Ek; cbn [negb andb].
  { exists (dev st). rewrite orb_false_r. split; [by destruct st; cbn in *; subst|]. split; [apply Hp|done]. }
  rewrite orb_true_r. cbv zeta.
  set (st1 := if undo_w_init st then st else with_undo [] true false st).
  assert (Hp1 : plain st1) by (unfold st1; destruct (undo_w_init st); [done|by apply plain_with_undo]).
  assert (E1 : st1 = with_undo (history st) true false st)
    by (unfold st1, history; destruct st; cbn in *; subst; by destruct undo_w_init).
  change (if undo_w_init st then undo_w_list st else []) with (history st).
  assert (Hh : undo_w_list st1 = history st) by by rewrite E1. rewrite Hh.
  unfold record_write. destruct (existsb _ (history st)) eqn:E.
  - exists (dev st). split; [rewrite E1; by destruct st|]. split; [apply Hp|done].
  - destruct (read_at_plain st1 off (fresh (length data)) Hp1 Hoff) as (d & r & Er & Hd & Hb & Hat).
    { rewrite fresh_length, E1. done. }
    rewrite (bind_Some _ _ _ _ _ Er). exists d. rewrite fresh_length, Hb. split; [|split; [done|split; [by rewrite E1|]]].
    + unfold modify. cbn. rewrite Hh. by rewrite E1.
    + rewrite E1 in Hat. by apply Hat.
Qed.

Lemma section_get_In addr ss s : section_get addr ss = Some s -> s ∈ sections ss.
Proof.
  unfold section_get. destruct (list_find _ _) as [[i s']|] eqn:E; [|done]. intros [= <-].
  apply list_find_Some in E as (Hi & _). by apply list_elem_of_lookup_2 in Hi.
Qed.

Lemma plain_no_refusal st off : plain st -> section_refuses off st = false.
Proof.
  intros Hp. unfold section_refuses. destruct (section_get off (sects st)) as [s|] eqn:E; [|done].
  apply section_get_In in E. pose proof (plain_sects _ Hp) as Hs. rewrite Forall_forall in Hs. by rewrite Hs.
Qed.

Lemma write_at_plain st off data :
  plain st -> 0 <= off -> off + Z.of_nat (length data) <= size (conf st) ->
  exists l d r, write_at off data st =
      Some (r, with_undo (new_history off data st) (undo_w_init st || records st) (undo_w_lock st) (with_dev l d st)) /\
    disk_ok d /\ disk_bytes d = patch (Z.to_nat off) data (contents st).
Proof.
  intros Hp Hoff Hlen. unfold radare_write_at. rewrite bind_get.
  pose proof (plain_seek _ Hp). pose proof (plain_small _ Hp). pose proof (plain_size _ Hp) as Hsz.
  destruct (seek_set st off) as (d1 & E1 & Hok1 & Hb1 & Hat1);
    [apply Hp|apply Hp|apply Hp|unfold minus1; lia|].
  rewrite (bind_Some _ _ _ _ _ E1). set (st1 := with_conf _ (with_dev _ d1 st)).
  assert (Hp1 : plain st1).
  { destruct Hp. constructor; try done; cbn; unfold contents in *; cbn; try congruence.
    unfold minus1. lia. }
  rewrite !bind_get. rewrite (plain_no_refusal st1 off Hp1). rewrite !bind_get.
  destruct (undo_write_new_plain st1 off data Hp1 Hoff Hlen) as (d2 & E2 & Hok2 & Hb2 & Hat2); [cbn; lia|apply Hat1; lia|].
  assert (new_history off data st1 = new_history off data st) as En
    by (unfold new_history, contents; cbn; by rewrite Hb1).
  rewrite En in E2. clear En.
  assert ((if file_undowrite st1 then undo_write_new plugins os_pread fresh off data else ret tt) st1 =
      Some (tt, with_undo (new_history off data st) (undo_w_init st || records st) (undo_w_lock st)
                  (with_dev (write_last st) d2 st1))) as E3.
  { destruct (file_undowrite st1) eqn:Eu; [exact E2|]. unfold undo_write_new in E2. rewrite Eu in E2. exact E2. }
  rewrite (bind_Some _ _ _ _ _ E3), bind_get. cbn [write_mask with_undo with_dev st1 with_conf].
  rewrite (plain_mask _ Hp). rewrite (bind_Some _ _ _ _ _ eq_refl).
  set (st3 := with_undo _ _ _ _).
  destruct (disk_write (write_last st) (conf st3) d2 data off) as (l & d4 & r & E4 & Hok4 & Hb4);
    [done|by apply Hat2|done|rewrite Hb2; unfold contents in *; cbn; rewrite Hb1; lia|].
  assert (io_write_m plugins data st3 = Some (r, with_dev l d4 st3)) as E5.
  { unfold io_write_m. change (dev st3) with d2. change (write_last st3) with (write_last st).
    change (file_write st3) with (file_write st). change (fd (conf st3)) with (fd (conf st)). rewrite (plain_write _ Hp), (plain_fd _ Hp). by rewrite E4. }
  rewrite (bind_Some _ _ _ _ _ E5).
  destruct (seek_set (with_dev l d4 st3) (seek (conf st))) as (d5 & E6 & Hok6 & Hb6 & _);
    [done|apply Hp|apply Hp|done|].
  rewrite (bind_Some _ _ _ _ _ E6). exists l, d5, r. split; [|split; [done|]].
  - unfold ret, st3, with_conf, with_dev, with_undo. cbn. by rewrite set_seek_back.
  - rewrite Hb6. unfold contents at 1. cbn. rewrite Hb4, Hb2. unfold contents. cbn. by rewrite Hb1.
Qed.

(** *** A recorded history *)

(** Writes are being recorded, and undoing the records gives [bs0]. *)
Record recorded (bs0 : list Z) (st : st_t) : Prop := {
  rec_plain : plain st;
  rec_on : records st = true;
  rec_fits : Forall (fits (length (contents st))) (history st);
  rec_undone : applied u_o (history st) (contents st) = bs0 }.

Lemma write_recorded bs0 st off data :
  recorded bs0 st -> 0 <= off -> off + Z.of_nat (length data) <= size (conf st) ->
  exists r st', write_at off data st = Some (r, st') /\ recorded bs0 st' /\ conf st' = conf st /\
    contents st' = patch (Z.to_nat off) data (contents st) /\ undo_w_init st' = true.
Proof.
  intros [Hp Hr Hf Hu] Hoff Hlen. pose proof (plain_size _ Hp) as Hsz.
  destruct (write_at_plain st off data Hp Hoff Hlen) as (l & d & r & E & Hok & Hb).
  rewrite Hr, orb_true_r in E. unfold new_history in E. rewrite Hr in E.
  assert (length (disk_bytes d) = length (contents st)) as Hl by (rewrite Hb; apply patch_length; lia).
  eexists r, _. split; [exact E|]. split; [|by cbn].
  constructor.
  - by apply plain_with_undo, plain_with_dev.
  - done.
  - unfold contents, history. cbn. rewrite Hl. apply record_write_fits; [done|unfold contents in *; lia|done].
  - unfold contents, history. cbn. rewrite Hb. rewrite <-Hu. apply applied_record; [done|unfold contents in *; lia|done].
Qed.

Definition in_file (n : Z) (w : Z * list Z) : Prop := 0 <= w.1 /\ w.1 + Z.of_nat (length w.2) <= n.

Lemma write_all_recorded bs0 st ws :
  recorded bs0 st -> Forall (in_file (size (conf st))) ws ->
  exists st', write_all plugins os_pread fresh ws st = Some (tt, st') /\ recorded bs0 st' /\ conf st' = conf st /\
    contents st' = foldl (fun bs w => patch (Z.to_nat w.1) w.2 bs) (contents st) ws.
Proof.
  revert st. induction ws as [|[off data] ws IH]; intros st Hr Hw; [by eexists|].
  apply Forall_cons in Hw as [[H1 H2] Hw]. cbn [write_all].
  destruct (write_recorded bs0 st off data Hr H1 H2) as (r & st1 & E & Hr1 & Hc & Hb & _).
  rewrite (bind_Some _ _ _ _ _ E). destruct (IH st1 Hr1) as (st2 & E2 & Hr2 & Hc2 & Hb2); [by rewrite Hc|].
  exists st2. split; [exact E2|]. split; [done|]. split; [congruence|]. by rewrite Hb2, Hb.
Qed.

Definition sel_of (set : bool) : undow_t -> list Z := if set then u_n else u_o.

Lemma sel_of_ok set : sel_ok (sel_of set).
Proof. destruct set; [by right|by left]. Qed.

Lemma set_t_plain st k u set :
  plain st -> undo_w_init st = true -> undo_w_list st !! k = Some u -> fits (length (contents st)) u ->
  exists st', undo_write_set_t plugins os_pread fresh k set st = Some (tt, st') /\ plain st' /\ conf st' = conf st /\
    undo_w_list st' = set_node k (if set then UNDO_WRITE_SET else UNDO_WRITE_UNSET) (undo_w_list st) /\
    undo_w_init st' = true /\ contents st' = patch (Z.to_nat (u_off u)) (sel_of set u) (contents st).
Proof.
  intros Hp Hi Hk Hf. unfold undo_write_set_t. rewrite bind_get, Hk.
  rewrite (bind_Some _ _ _ _ _ eq_refl). set (st1 := with_undo _ _ true st).
  assert (Hp1 : plain st1) by by apply plain_with_undo.
  pose proof (fits_sel _ _ (sel_of set) (sel_of_ok set) Hf) as Hl. pose proof (plain_size _ Hp) as Hsz.
  assert ((if set then u_n u else u_o u) = sel_of set u) as -> by (by destruct set).
  destruct (write_at_plain st1 (u_off u) (sel_of set u) Hp1) as (l & d & r & E & Hok & Hb);
    [apply Hf|destruct Hf; cbn; lia|].
  rewrite (bind_Some _ _ _ _ _ E). eexists. split; [reflexivity|].
  assert (records st1 = false) as Hr by (unfold records, st1; cbn; apply andb_false_r).
  unfold new_history. rewrite Hr, orb_false_r. unfold st1 in *. cbn in *. rewrite Hi.
  split; [|done]. do 2 apply plain_with_undo. apply plain_with_dev; [by apply plain_with_undo|done|].
  rewrite Hb. apply patch_length. destruct Hf. cbn. unfold contents in *. cbn. lia.
Qed.

Lemma set_all_loop_plain st k set :
  plain st -> undo_w_init st = true -> Forall (fits (length (contents st))) (undo_w_list st) ->
  (k <= length (undo_w_list st))%nat ->
  exists st', set_all_loop plugins os_pread fresh k set st = Some (tt, st') /\ plain st' /\ conf st' = conf st /\
    contents st' = applied (sel_of set) (take k (undo_w_list st)) (contents st).
Proof.
  revert st. induction k as [|k IH]; intros st Hp Hi Hf Hk; [by exists st|].
  destruct (lookup_lt_is_Some_2 (undo_w_list st) k) as [u Hu]; [lia|].
  pose proof Hf as Hfu. rewrite Forall_lookup in Hfu. specialize (Hfu k u Hu).
  cbn [set_all_loop]. destruct (set_t_plain st k u set Hp Hi Hu Hfu) as (st1 & E & Hp1 & Hc1 & Hl1 & Hi1 & Hb1).
  rewrite (bind_Some _ _ _ _ _ E).
  assert (length (contents st1) = length (contents st)) as Hlen.
  { rewrite Hb1. exact (proj1 (patch_fits_lookup _ _ _ (contents st) 0 (sel_of_ok set) Hfu eq_refl)). }
  destruct (IH st1) as (st2 & E2 & Hp2 & Hc2 & Hb2); [done|done| |rewrite Hl1; unfold set_node; rewrite length_alter; lia|].
  { rewrite Hlen, Hl1. unfold set_node. apply Forall_alter; [done|]. intros v _ []. by constructor. }
  exists st2. split; [exact E2|]. split; [done|]. split; [congruence|].
  rewrite Hb2, Hl1. unfold set_node. rewrite take_alter, decide_False by lia.
  rewrite (take_S_r _ _ _ Hu), applied_snoc. by rewrite <-Hb1.
Qed.

Lemma set_all_plain st set :
  plain st -> undo_w_init st = true -> Forall (fits (length (contents st))) (undo_w_list st) ->
  exists st', undo_write_set_all plugins os_pread fresh set st = Some (tt, st') /\ plain st' /\ conf st' = conf st /\
    contents st' = applied (sel_of set) (undo_w_list st) (contents st).
Proof.
  intros Hp Hi Hf. unfold undo_write_set_all. rewrite Hi.
  destruct (set_all_loop_plain st (length (undo_w_list st)) set Hp Hi Hf) as (st' & E & H1 & H2 & H3); [lia|].
  exists st'. by rewrite firstn_all in H3.
Qed.

Lemma write_read_plain st off data buf :
  plain st -> 0 <= off -> off + Z.of_nat (length data) <= size (conf st) -> length buf = length data ->
  exists r st1 r2 st2,
    write_at off data st = Some (r, st1) /\ read_at off buf st1 = Some ((r2, data), st2) /\
    contents st2 = patch (Z.to_nat off) data (contents st) /\ conf st2 = conf st.
Proof.
  intros Hp Hoff Hlen Hbuf. pose proof (plain_size _ Hp) as Hsz.
  destruct (write_at_plain st off data Hp Hoff Hlen) as (l & d & r & E & Hok & Hb).
  eexists r, _. set (st1 := with_undo _ _ _ (with_dev l d st)) in *.
  assert (Hp1 : plain st1).
  { apply plain_with_undo, plain_with_dev; [done|done|]. rewrite Hb. apply patch_length. unfold contents in *. lia. }
  destruct (read_at_plain st1 off buf Hp1 Hoff) as (d2 & r2 & E2 & Hok2 & Hb2 & _); [cbn; lia|].
  assert (contents st1 = patch (Z.to_nat off) data (contents st)) as Hc by done.
  rewrite Hc, Hbuf, slice_patch in E2 by lia.
  eexists r2, _. split; [exact E|]. split; [exact E2|]. split; [|done]. unfold contents at 1. cbn. by rewrite Hb2, Hc.
Qed.

(** ** Properties *)

(** C14: however often and wherever the file is written while writes are recorded, overlapping or
    repeated, undoing all of them restores the file, and the seek is where it was. *)
Theorem undo_restores st ws :
  plain st -> records st = true -> history st = [] -> Forall (in_file (size (conf st))) ws ->
  exists st1 st2,
    write_all plugins os_pread fresh ws st = Some (tt, st1) /\
    contents st1 = foldl (fun bs w => patch (Z.to_nat w.1) w.2 bs) (contents st) ws /\
    undo_write_set_all plugins os_pread fresh false st1 = Some (tt, st2) /\
    contents st2 = contents st /\ conf st2 = conf st.
Proof.
  intros Hp Hr Hh Hw.
  destruct (write_all_recorded (contents st) st ws) as (st1 & E1 & Hr1 & Hc1 & Hb1); [|done|].
  { constructor; [done|done|by rewrite Hh; constructor|by rewrite Hh]. }
  exists st1. destruct Hr1 as [Hp1 Hon1 Hf1 Hu1]. unfold history in Hf1, Hu1.
  destruct (undo_w_init st1) eqn:Hi.
  - destruct (set_all_plain st1 false Hp1 Hi Hf1) as (st2 & E2 & _ & Hc2 & Hb2). exists st2.
    split_and!; [done|done|done|by rewrite Hb2|congruence].
  - exists st1. split_and!; [done|done| |exact Hu1|done]. unfold undo_write_set_all. by rewrite Hi.
Qed.

(** C21: what is written is read back, the bytes around it and the seek stay as they were. *)
Theorem write_then_read st off data buf :
  plain st -> 0 <= off -> off + Z.of_nat (length data) <= size (conf st) -> length buf = length data ->
  exists r st1 r2 st2,
    write_at off data st = Some (r, st1) /\ read_at off buf st1 = Some ((r2, data), st2) /\
    contents st2 = patch (Z.to_nat off) data (contents st) /\ conf st2 = conf st.
Proof. apply write_read_plain. Qed.

(** Redoing also goes from the newest record to the oldest: a byte written several times gets
    the first value back, not the last. *)
Theorem redo_oldest_wins st l1 u l2 i :
  plain st -> undo_w_init st = true -> Forall (fits (length (contents st))) (undo_w_list st) ->
  undo_w_list st = l1 ++ u :: l2 -> Forall (fun v => ~ covers v i) l1 -> covers u i ->
  exists st', undo_write_set_all plugins os_pread fresh true st = Some (tt, st') /\
    contents st' !! i = u_n u !! (i - Z.to_nat (u_off u))%nat.
Proof.
  intros Hp Hi Hf El Hn Hc. destruct (set_all_plain st true Hp Hi Hf) as (st' & E & _ & _ & Hb).
  exists st'. split; [done|]. rewrite Hb, El. rewrite El in Hf. apply applied_oldest; [by right|done|done|done].
Qed.

(** A write is refused exactly in a section whose write bit is set; nothing is written, and the
    seek is left at the offset of the refused write. *)
Theorem write_refused st off data s :
  disk_ok (dev st) -> fd (conf st) = x -> vaddr (conf st) = 0 -> 0 <= off < minus1 ->
  section_get off (sects st) = Some s -> Z.land (rwx s) SECTION_W <> 0 ->
  exists st', write_at off data st = Some (Num (-1), st') /\
    contents st' = contents st /\ seek (conf st') = off.
Proof.
  intros Hok Hfd Hv Hoff Hs Hw. unfold radare_write_at. rewrite bind_get.
  destruct (seek_set st off Hok Hfd Hv Hoff) as (d & E & _ & Hb & _).
  rewrite (bind_Some _ _ _ _ _ E), bind_get. unfold section_refuses. cbn. rewrite Hs.
  unfold truth. rewrite (proj2 (Z.eqb_neq _ _) Hw). cbn. by eexists.
Qed.

(** With a base address, seeking to where the seek is moves it down by the base unless it is
    below it; a read or a write restores the seek this way. *)
Theorem seek_drifts st :
  disk_ok (dev st) -> fd (conf st) = x -> 0 < vaddr (conf st) < 2^64 -> 0 <= seek (conf st) < minus1 ->
  exists st', seek_ (seek (conf st)) SEEK_SET st = Some (seek (conf st'), st') /\
    seek (conf st') =
      (if seek (conf st) <? vaddr (conf st) then seek (conf st) else seek (conf st) - vaddr (conf st)) /\
    contents st' = contents st.
Proof.
  intros Hok Hfd Hv Hs. unfold radare_seek. rewrite (proj2 (Z.eqb_neq _ _)) by lia.
  change (SEEK_SET =? SEEK_END) with false. cbn [andb].
  assert (truth (vaddr (conf st)) = true) as -> by (unfold truth; rewrite (proj2 (Z.eqb_neq _ _)); [done|lia]).
  cbn [andb]. set (o1 := if _ <? _ then _ else _).
  destruct (section_align o1 _ _ _) as [ss aligned]. change (SEEK_SET =? SEEK_SET) with true. cbv iota.
  rewrite Hfd. destruct (disk_lseek (conf st) (dev st) aligned Hok) as (d & r & -> & _ & Hb & _).
  exists (with_conf (set_seek (u64 (o1 - vaddr (conf st))) (conf st)) (with_sects ss (with_dev (write_last st) d st))).
  split; [reflexivity|]. split; [|exact Hb]. cbn. unfold o1, minus1 in *.
  destruct (Z.ltb_spec (seek (conf st)) (vaddr (conf st))); unfold u64.
  - rewrite Zminus_mod_idemp_l. rewrite Z.add_simpl_r. apply Z.mod_small. lia.
  - apply Z.mod_small. lia.
Qed.
End spec.

(** ** Witnesses on the plugin [malloc://4] *)
Definition demo_alloc (_ : Z) : bool := true.
Definition demo_mem (n : Z) : list Z := replicate (Z.to_nat n) 170.
Definition demo_table : list (plugin_t malloc_st) := [malloc_plugin demo_alloc demo_mem].
Definition demo_os (_ _ _ : Z) : option (list Z) := None.
Definition demo_fresh (n : nat) : list Z := replicate n 170.
#[local] Instance demo_disk : Disk demo_table MALLOC_FD := malloc_disk demo_alloc demo_mem MALLOC_FD.

Definition demo (c : config_t) (ss : sections_st) (l : list undow_t) : radare_st malloc_st :=
  RadareSt c true true ss [] 0 (MallocSt MALLOC_FD (Some [1; 2; 3; 4]) 4) l true false None.
Definition demo_conf : config_t := Config MALLOC_FD 3 4 0 0 512 [].

Lemma fresh_len n : length (demo_fresh n) = n.
Proof. apply length_replicate. Qed.

Lemma demo_ok : malloc_ok MALLOC_FD (dev (demo demo_conf (SectionsSt [] 0) [])).
Proof. unfold malloc_ok. split; [discriminate|]. split; [reflexivity|]. eexists. reflexivity. Qed.

Lemma demo_plain l : plain demo_table MALLOC_FD (demo demo_conf (SectionsSt [] 0) l).
Proof. constructor; try reflexivity; try apply demo_ok; try (cbn; unfold minus1; lia). constructor. Qed.

Lemma undo_restores_witness :
  exists st1 st2,
    write_all demo_table demo_os demo_fresh [(0, [9; 8]); (1, [7; 7])] (demo demo_conf (SectionsSt [] 0) []) = Some (tt, st1) /\
    malloc_buf (dev st1) = Some [9; 7; 7; 4] /\
    undo_write_set_all demo_table demo_os demo_fresh false st1 = Some (tt, st2) /\
    contents demo_table MALLOC_FD st2 = [1; 2; 3; 4].
Proof.
  destruct (undo_restores demo_table demo_os demo_fresh MALLOC_FD fresh_len
    (demo demo_conf (SectionsSt [] 0) []) [(0, [9; 8]); (1, [7; 7])]) as (st1 & st2 & E1 & _ & E2 & E3 & _);
    [apply demo_plain|reflexivity|reflexivity|repeat constructor; vm_compute; discriminate|].
  exists st1, st2. split; [exact E1|]. split; [vm_compute in E1; injection E1 as <-; reflexivity|].
  split; [exact E2|]. rewrite E3. vm_compute. reflexivity.
Defined.

Lemma write_then_read_witness :
  exists r st1 r2 st2,
    radare_write_at demo_table demo_os demo_fresh 1 [7; 8] (demo demo_conf (SectionsSt [] 0) []) = Some (r, st1) /\
    radare_read_at demo_table demo_os 1 [0; 0] st1 = Some ((r2, [7; 8]), st2) /\
    contents demo_table MALLOC_FD st2 = [1; 7; 8; 4] /\ conf st2 = demo_conf.
Proof.
  destruct (write_then_read demo_table demo_os demo_fresh MALLOC_FD fresh_len
    (demo demo_conf (SectionsSt [] 0) []) 1 [7; 8] [0; 0]) as (r & st1 & r2 & st2 & H1 & H2 & H3 & H4);
    [apply demo_plain|lia|vm_compute; discriminate|reflexivity|].
  exists r, st1, r2, st2. rewrite H3. split_and!; [exact H1|exact H2|vm_compute; reflexivity|exact H4].
Defined.

(** The byte at 0 was 1, then 5, then 6; redone it is 5. *)
Lemma redo_oldest_wins_witness :
  exists st', undo_write_set_all demo_table demo_os demo_fresh true
      (demo demo_conf (SectionsSt [] 0) [Undow 0 0 [1] [5] 1; Undow 0 0 [5] [6] 1]) = Some (tt, st') /\
    contents demo_table MALLOC_FD st' !! 0%nat = Some 5.
Proof.
  apply (redo_oldest_wins demo_table demo_os demo_fresh MALLOC_FD fresh_len _
    [] (Undow 0 0 [1] [5] 1) [Undow 0 0 [5] [6] 1] 0);
    [apply demo_plain|reflexivity| |reflexivity|constructor|vm_compute; split; [discriminate|reflexivity]].
  repeat constructor; cbn; lia.
Defined.

Lemma write_refused_witness :
  exists st', radare_write_at demo_table demo_os demo_fresh 1 [7] (demo demo_conf (section_add 0 10 0 0 7 None (SectionsSt [] 0)) []) =
      Some (Num (-1), st') /\
    contents demo_table MALLOC_FD st' = [1; 2; 3; 4] /\ seek (conf st') = 1.
Proof.
  destruct (write_refused demo_table demo_os demo_fresh MALLOC_FD
    (demo demo_conf (section_add 0 10 0 0 7 None (SectionsSt [] 0)) []) 1 [7]
    (section_new 0 10 0 0 7 None)) as (st' & H1 & H2 & H3);
    [apply demo_ok|reflexivity|reflexivity|unfold minus1; lia|reflexivity|discriminate|].
  exists st'. rewrite H2. split_and!; [exact H1|vm_compute; reflexivity|exact H3].
Defined.

Lemma seek_drifts_witness :
  exists st', radare_seek demo_table 0x3000 SEEK_SET (demo (Config MALLOC_FD 0x3000 4 0x1000 0 512 []) (SectionsSt [] 0) []) =
      Some (seek (conf st'), st') /\ seek (conf st') = 0x2000 /\
    contents demo_table MALLOC_FD st' = [1; 2; 3; 4].
Proof.
  destruct (seek_drifts demo_table MALLOC_FD
    (demo (Config MALLOC_FD 0x3000 4 0x1000 0 512 []) (SectionsSt [] 0) [])) as (st' & H1 & H2 & H3);
    [apply demo_ok|reflexivity|vm_compute; split; reflexivity|vm_compute; split; [discriminate|reflexivity]|].
  exists st'. rewrite H2, H3. split_and!; [rewrite <-H2; exact H1|reflexivity|vm_compute; reflexivity].
Defined.
