(* ===== verification/Seeks.v ===== *)
(** * The history of seeks: the array of [src/undo.c]

    [undos] has 64 entries; [before] is the word in front of the array, which the code reads when
    the index is too low.  The current seek is part of the state. *)
From S2P Require Import Prelude.

Definition UNDOS : Z := 64.

Record seeks_st := SeeksSt { undos : list Z; undos_idx : Z; undos_lim : Z; cur : Z }.

Section seeks.
Context (before : Z).

(** [undos[i]]. *)
Definition undo_at (l : list Z) (i : Z) : Z :=
  if i <? 0 then before else nth (Z.to_nat i) l 0.

Definition undo_get_last_seek (st : seeks_st) : Z :=
  if undos_idx st =? 0 then cur st else undo_at (undos st) (undos_idx st - 2).

Definition undo_seek (st : seeks_st) : seeks_st :=
  let i := undos_idx st - 1 in
  if i <? 0 then SeeksSt (undos st) 0 (undos_lim st) (cur st)
  else SeeksSt (undos st) i (undos_lim st) (undo_at (undos st) (i - 1)).

Definition undo_redo (st : seeks_st) : seeks_st :=
  if undos_idx st <? undos_lim st then
    undo_seek (SeeksSt (undos st) (undos_idx st + 2) (undos_lim st) (cur st))
  else st.

(** [for(i=1;i<UNDOS;i++) undos[i-1] = undos[i];] *)
Definition shift_down (l : list Z) : list Z := tail l ++ [List.last l 0].

Definition undo_push (st : seeks_st) : seeks_st :=
  if undo_at (undos st) (undos_idx st - 1) =? cur st then st
  else
    let l := <[Z.to_nat (undos_idx st) := cur st]> (undos st) in
    let '(l, i) := if undos_idx st =? UNDOS - 1 then (shift_down l, undos_idx st) else (l, undos_idx st + 1) in
    SeeksSt l i (if undos_lim st <? i then i else undos_lim st) (cur st).

Definition undo_reset (st : seeks_st) : seeks_st := SeeksSt (undos st) 0 (undos_lim st) (cur st).

(** The lines of [undo_list]: the number and the seek of each. *)
Definition undo_list (st : seeks_st) : option (list (Z * Z)) :=
  if undos_idx st <? 1 then None
  else Some ((fun k => (Z.of_nat k, undo_at (undos st) (undos_idx st - 2 - Z.of_nat k)))
               <$> seq 0 (Z.to_nat (undos_idx st - 1))).
End seeks.

(** ** Invariant and trail *)
Record inv (st : seeks_st) : Prop := {
  inv_length : length (undos st) = 64%nat;
  inv_idx : 0 <= undos_idx st <= undos_lim st;
  inv_lim : undos_lim st <= 63 }.

(** The seeks below the index, oldest first; the last one is the current place. *)
Definition trail (st : seeks_st) : list Z := take (Z.to_nat (undos_idx st)) (undos st).

Lemma undo_at_total b l i : 0 <= i < Z.of_nat (length l) -> undo_at b l i = l !!! Z.to_nat i.
Proof.
  intros H. unfold undo_at. rewrite (proj2 (Z.ltb_ge _ _)) by lia. rewrite nth_lookup.
  destruct (lookup_lt_is_Some_2 l (Z.to_nat i)) as [v Hv]; [lia|]. rewrite Hv. symmetry.
  by apply list_lookup_total_correct.
Qed.

Lemma shift_down_lookup (l : list Z) i : (S i < length l)%nat -> shift_down l !!! i = l !!! S i.
Proof.
  intros H. unfold shift_down. destruct l as [|a l]; [cbn in H; lia|]. cbn [tail].
  rewrite lookup_total_app_l by (cbn in H; lia). done.
Qed.

Lemma shift_down_length (l : list Z) : (0 < length l)%nat -> length (shift_down l) = length l.
Proof. destruct l as [|a l]; cbn [length]; [lia|]. intros _. unfold shift_down. rewrite length_app. cbn. lia. Qed.

Lemma take_shift_down (l : list Z) n : (n < length l)%nat -> take n (shift_down l) = tail (take (S n) l).
Proof.
  intros H. destruct l as [|a l]; [cbn in H; lia|]. unfold shift_down. cbn [tail].
  rewrite take_app_le by (cbn in H; lia). done.
Qed.

Lemma take_insert_S (l : list Z) n x : (n < length l)%nat -> take (S n) (<[n := x]> l) = take n l ++ [x].
Proof.
  intros H. rewrite (take_S_r _ _ x) by (by apply list_lookup_insert_eq). by rewrite take_insert_ge by lia.
Qed.

(** ** Properties *)

(** A push keeps the state well formed and appends the current seek to the trail unless it is
    its last entry; a full trail of 63 entries loses its oldest one. *)
Theorem undo_push_trail b st :
  inv st -> inv (undo_push b st) /\ cur (undo_push b st) = cur st /\
  trail (undo_push b st) =
    if undo_at b (undos st) (undos_idx st - 1) =? cur st then trail st
    else if undos_idx st =? 63 then tail (trail st ++ [cur st]) else trail st ++ [cur st].
Proof.
  intros [Hlen Hi Hl]. unfold undo_push. destruct (_ =? cur st); [done|].
  change (UNDOS - 1) with 63. destruct (Z.eqb_spec (undos_idx st) 63) as [E|E].
  - split; [constructor; cbn|split; [done|unfold trail; cbn]].
    + rewrite shift_down_length; rewrite length_insert; [done|lia].
    + rewrite E. zcase; lia.
    + zcase; lia.
    + rewrite E. change (Z.to_nat 63) with 63%nat. rewrite take_shift_down by (rewrite length_insert; lia).
      rewrite take_insert_S by lia. done.
  - split; [constructor; cbn|split; [done|unfold trail; cbn]].
    + by rewrite length_insert.
    + zcase; lia.
    + zcase; lia.
    + rewrite Z.add_1_r, Z2Nat.inj_succ by lia. by rewrite take_insert_S by lia.
Qed.

Lemma undo_push_trail_witness :
  let st := SeeksSt (replicate 64 0) 0 0 7 in
  inv (undo_push 5 st) /\ cur (undo_push 5 st) = 7 /\ trail (undo_push 5 st) = [7].
Proof. apply (undo_push_trail 5 (SeeksSt (replicate 64 0) 0 0 7)). constructor; cbn; lia. Defined.

(** The last entry of the history; the word in front of the array when it has none. *)
Definition last_entry (b : Z) (st : seeks_st) : Z := undo_at b (undos st) (undos_idx st - 1).

(** After a seek to another place than the last entry is pushed it is the last entry; undo goes to the former last entry
    and redo to the new one, also when the array is full. *)
Theorem push_undo_redo b st s :
  inv st -> s <> last_entry b st ->
  let st1 := undo_push b (SeeksSt (undos st) (undos_idx st) (undos_lim st) s) in
  (1 <= undos_idx st1 /\ last_entry b st1 = s) /\
  cur (undo_seek b st1) = last_entry b st /\ undo_redo b (undo_seek b st1) = st1.
Proof.
  intros [Hlen Hi Hl] Hs. unfold undo_push. cbn [undos undos_idx undos_lim cur]. fold (last_entry b st).
  rewrite (proj2 (Z.eqb_neq _ _)) by done. unfold last_entry in *.
  change (UNDOS - 1) with 63. set (n := Z.to_nat (undos_idx st)).
  destruct (Z.eqb_spec (undos_idx st) 63) as [E|E]; cbv zeta;
    unfold undo_redo, undo_seek; cbn [undos undos_idx undos_lim cur].
  - rewrite E. assert (undos_lim st = 63) as -> by lia.
    change (63 <? 63) with false. change (63 - 1 <? 0) with false. cbv iota.
    cbn [undos undos_idx undos_lim cur]. change (63 - 1 <? 63) with true. cbv iota.
    change (63 - 1 + 2 - 1 <? 0) with false. cbv iota.
    assert (n = 63%nat) as En by lia. rewrite En in *.
    assert (length (shift_down (<[63%nat:=s]> (undos st))) = 64%nat) as Hsd
      by (rewrite shift_down_length; rewrite length_insert; lia).
    assert (undo_at b (shift_down (<[63%nat:=s]> (undos st))) 62 = s) as Htop.
    { rewrite undo_at_total by lia. rewrite shift_down_lookup by (rewrite length_insert; lia). by rewrite list_lookup_total_insert_eq by lia. }
    split; [split; [lia|exact Htop]|split; [|f_equal; exact Htop]].
    change (undo_at b (shift_down (<[63%nat:=s]> (undos st))) 61 = undo_at b (undos st) 62). rewrite !undo_at_total by lia.
    rewrite shift_down_lookup by (rewrite length_insert; lia). by rewrite list_lookup_total_insert_ne by lia.
  - assert (length (<[n:=s]> (undos st)) = 64%nat) as Hin by (by rewrite length_insert).
    assert (undo_at b (<[n:=s]> (undos st)) (undos_idx st) = s) as Htop.
    { rewrite undo_at_total by lia. by rewrite list_lookup_total_insert_eq by lia. }
    rewrite (proj2 (Z.ltb_ge _ _)) by lia. cbn [undos undos_idx undos_lim cur].
    replace (undos_idx st + 1 - 1) with (undos_idx st) by lia.
    split; [split; [lia|exact Htop]|split].
    + unfold undo_at. destruct (Z.ltb_spec (undos_idx st - 1) 0); [done|].
      rewrite !nth_lookup, list_lookup_insert_ne by lia. done.
    + rewrite (proj2 (Z.ltb_lt (undos_idx st) _)) by (zcase; lia).
      rewrite (proj2 (Z.ltb_ge (undos_idx st + 2 - 1) _)) by lia.
      f_equal; [lia|]. replace (undos_idx st + 2 - 1 - 1) with (undos_idx st) by lia. done.
Qed.

Lemma push_undo_redo_witness :
  let st := undo_push 5 (SeeksSt (replicate 64 0) 0 0 7) in
  let st1 := undo_push 5 (SeeksSt (undos st) (undos_idx st) (undos_lim st) 9) in
  cur st1 = 9 /\ cur (undo_seek 5 st1) = 7 /\ undo_redo 5 (undo_seek 5 st1) = st1.
Proof.
  split; [reflexivity|].
  apply (push_undo_redo 5 (undo_push 5 (SeeksSt (replicate 64 0) 0 0 7)) 9);
    [constructor; [reflexivity|vm_compute; split; discriminate|vm_compute; discriminate]|discriminate].
Defined.

(** The place before the first push is never recorded: undoing it moves the seek to the word
    in front of the array. *)
Theorem first_undo_reads_before b st :
  undos_idx st = 0 -> cur st <> b -> cur (undo_seek b (undo_push b st)) = b /\ undos_idx (undo_seek b (undo_push b st)) = 0.
Proof.
  intros Hi Hb. unfold undo_push. rewrite Hi. change (undo_at b (undos st) (0 - 1)) with b.
  rewrite (proj2 (Z.eqb_neq _ _)) by done. done.
Qed.

Lemma first_undo_reads_before_witness :
  let st := SeeksSt (replicate 64 0) 0 0 7 in
  cur (undo_seek 5 (undo_push 5 st)) = 5 /\ undos_idx (undo_seek 5 (undo_push 5 st)) = 0.
Proof. apply (first_undo_reads_before 5 (SeeksSt (replicate 64 0) 0 0 7)); [reflexivity|discriminate]. Defined.
