(* ===== verification/Trace.v ===== *)
(** * Execution traces: [src/trace.c]

    The list is the list of its nodes in [next] order.  [trace_range] and the loop of
    [trace_show] follow the traces from one address to the next; they run on fuel. *)
From S2P Require Import Prelude KList.

Record trace_t := Trace { addr : Z; tags : Z; opsize : Z; times : Z; count : Z; tm : Z }.

#[export] Instance trace_t_inhabited : Inhabited trace_t := populate (Trace 0 0 0 0 0 0).

Record traces_st := TracesSt { traces : list trace_t; n_traces : Z; trace_changed : bool; trace_tag : Z }.

Definition trace_init (st : traces_st) : traces_st := TracesSt [] (n_traces st) (trace_changed st) (trace_tag st).
Definition trace_reset (st : traces_st) : traces_st := TracesSt [] (n_traces st) (trace_changed st) (trace_tag st).

Definition trace_tag_get (st : traces_st) : Z := trace_tag st.
Definition trace_tag_set (id : Z) (st : traces_st) : traces_st * Z :=
  if (-1 <=? id) && (id <? 64) then (TracesSt (traces st) (n_traces st) (trace_changed st) id, 1) else (st, 0).

(** [1<<tag] as a mask of [ut64 tags]: an [int], shifted by the count modulo 32. *)
Definition tag_bit (tag : Z) : Z := u64 (s32 (Z.shiftl 1 (tag mod 32))).
(** [tag != -1 && !(h->tags & (1<<tag))]: the node is skipped. *)
Definition tag_skips (tag : Z) (h : trace_t) : bool :=
  negb (tag =? -1) && negb (truth (Z.land (tags h) (tag_bit tag))).

Definition trace_key (l : list trace_t) (i : nat) : Z := addr (l !!! i).
Definition trace_sort (st : traces_st) : option (traces_st * bool) :=
  if negb (trace_changed st) then Some (st, false)
  else
    let l := traces st in
    match list_sort (trace_key l) (seq 0 (length l)) with
    | None => None
    | Some (order, ch) =>
      Some (TracesSt ((fun i => l !!! i) <$> order) (n_traces st) ch (trace_tag st), ch)
    end.

Fixpoint trace_get (l : list trace_t) (a tag : Z) : option trace_t :=
  match l with
  | [] => None
  | h :: l' => if negb (tag_skips tag h) && (addr h =? a) then Some h else trace_get l' a tag
  end.

Definition trace_times (a : Z) (st : traces_st) : Z :=
  match trace_get (traces st) a (trace_tag st) with Some t => times t | None => 0 end.
Definition trace_count (a : Z) (st : traces_st) : Z :=
  match trace_get (traces st) a (trace_tag st) with Some t => count t | None => 0 end.

Fixpoint trace_index_loop (idx a : Z) (l : list trace_t) : Z :=
  match l with
  | [] => idx
  | h :: l' => if addr h =? a then idx + 1 else trace_index_loop (idx + 1) a l'
  end.
Definition trace_index (a : Z) (st : traces_st) : Z := trace_index_loop (-1) a (traces st).

Definition set_times (n : Z) (h : trace_t) : trace_t := Trace (addr h) (tags h) (opsize h) n (count h) (tm h).

Fixpoint set_times_loop (a n : Z) (l : list trace_t) : list trace_t * Z :=
  match l with
  | [] => ([], 0)
  | h :: l' =>
    if addr h =? a then (set_times n h :: l', 1)
    else let '(l'', r) := set_times_loop a n l' in (h :: l'', r)
  end.

Definition trace_get_between (f t : Z) (st : traces_st) : Z :=
  s32 (Z.of_nat (length (List.filter (fun h =>
    negb (tag_skips (trace_tag st) h) && (f <=? addr h) && (addr h <=? t)) (traces st)))).

(** [arch_aop], when an architecture is selected, and the 16 bytes [radare_read_at] reads. *)
Section add.
Context (arch_aop : option (Z -> list Z -> Z)) (bytes_at : Z -> list Z).

Definition with_traces (l : list trace_t) (n : Z) (ch : bool) (st : traces_st) : traces_st :=
  TracesSt l n ch (trace_tag st).

Definition trace_set_times (a n : Z) (st : traces_st) : traces_st * Z :=
  match arch_aop with
  | None => (st, -1)
  | Some _ =>
    let '(l, r) := set_times_loop a n (traces st) in (with_traces l (n_traces st) (trace_changed st) st, r)
  end.

(** [if (trace_tag != -1) t->tags |= trace_tag;] with [int] converted to [ut64]. *)
Definition add_tag (tag : Z) (h : trace_t) : trace_t :=
  if tag =? -1 then h
  else Trace (addr h) (Z.lor (tags h) (u64 tag)) (opsize h) (times h) (count h) (tm h).

Definition bump_dup (a tag : Z) (h : trace_t) : trace_t :=
  if addr h =? a then let h := add_tag tag h in set_times (s32 (times h + 1)) h else h.

(** The node that is found is updated and its new [times] returned. *)
Fixpoint bump_first (a tag c now : Z) (l : list trace_t) : option (list trace_t * Z) :=
  match l with
  | [] => None
  | h :: l' =>
    if addr h =? a then
      let h' := add_tag tag (Trace (addr h) (tags h) (opsize h) (times h) (s32 c) now) in
      let h' := set_times (s32 (times h' + 1)) h' in
      Some (h' :: l', times h')
    else match bump_first a tag c now l' with Some (l'', r) => Some (h :: l'', r) | None => None end
  end.

(** [dup] is the variable [trace.dup], [now] the time. *)
Definition trace_add (dup : bool) (now a : Z) (st : traces_st) : traces_st * Z :=
  match arch_aop with
  | None => (st, -1)
  | Some aop =>
    let c := u32 (n_traces st + 1) in
    let append l :=
      let t := add_tag (trace_tag st) (Trace a 0 (aop a (bytes_at a)) 1 (s32 c) now) in
      (with_traces (l ++ [t]) c true st, times t) in
    if dup then append (bump_dup a (trace_tag st) <$> traces st)
    else
      match bump_first a (trace_tag st) c now (traces st) with
      | Some (l, r) => (with_traces l c (trace_changed st) st, r)
      | None => append (traces st)
      end
  end.
End add.

(** [last] and [last2] on entry to a turn. *)
Fixpoint trace_range_loop (fuel : nat) (l : list trace_t) (tag last last2 : Z) : option Z :=
  if last =? last2 then Some last
  else
    match fuel with
    | O => None
    | S fuel' =>
      match trace_get l last tag with
      | Some h => trace_range_loop fuel' l tag (u64 (last + opsize h)) last
      | None => trace_range_loop fuel' l tag last last
      end
    end.
Definition trace_range (fuel : nat) (l : list trace_t) (from tag : Z) : option Z :=
  trace_range_loop fuel l tag from 0.

Fixpoint trace_next_loop (next from tag : Z) (l : list trace_t) : Z :=
  match l with
  | [] => next
  | h :: l' =>
    if tag_skips tag h then trace_next_loop next from tag l'
    else trace_next_loop (if (from <? addr h) && (addr h <? next) then addr h else next) from tag l'
  end.
Definition trace_next (l : list trace_t) (from tag : Z) : Z :=
  let next := trace_next_loop (2^64 - 1) from tag l in if next =? 2^64 - 1 then 0 else next.

(** *** [trace_show] *)

Definition lowest_turn (from : Z) (h : trace_t) : Z :=
  let from := if from =? 0 then addr h else from in if addr h <? from then addr h else from.
Definition lowest (l : list trace_t) : Z := foldl lowest_turn 0 l.

Definition fmt_03d (z : Z) : string := let s := fmt_d z in pad "0" (3 - String.length s) s.

(** What one node prints in the mode [plain], and the command it runs. *)
Definition show_node (plain tag : Z) (h : trace_t) : option (string * option string) :=
  if tag_skips tag h then None
  else if plain =? 1 then
    Some ("0x" +:+ fmt_x0 8 (addr h) +:+ " " +:+ fmt_d (times h) +:+ " " +:+ fmt_d (count h) +:+
          " tags=" +:+ fmt_x0 8 (tags h) +:+ nl, None)
  else if plain =? 2 then
    Some (fmt_03d (times h) +:+ " " +:+ fmt_03d (count h) +:+ "  ", Some ("pd 1 @ 0x" +:+ fmt_x0 8 (addr h)))
  else None.

(** The ranges printed, in order. *)
Fixpoint show_ranges (fuel : nat) (l : list trace_t) (tag from : Z) : option (list (Z * Z)) :=
  match fuel with
  | O => None
  | S fuel' =>
    if from =? 0 then Some []
    else
      match trace_range (S (S (length l))) l from tag with
      | None => None
      | Some last =>
        if last =? from then Some []
        else cons (from, last) <$> show_ranges fuel' l tag (trace_next l last tag)
      end
  end.

Definition show_range_line (plain : Z) (r : Z * Z) : string :=
  if plain =? 0 then "0x" +:+ fmt_x0 8 r.1 +:+ " - 0x" +:+ fmt_x0 8 r.2 +:+ nl
  else "ar+ 0x" +:+ fmt_x0 8 r.1 +:+ " 0x" +:+ fmt_x0 8 r.2 +:+ nl.

Definition trace_show (plain tag : Z) (st : traces_st)
    : option (traces_st * list (string * option string) * list string) :=
  match trace_sort st with
  | None => None
  | Some (st', _) =>
    let l := traces st' in
    let nodes := omap (show_node plain tag) l in
    if 0 <? plain then Some (st', nodes, [])
    else
      match show_ranges (S (S (length l))) l tag (lowest l) with
      | None => None
      | Some rs => Some (st', nodes, show_range_line plain <$> rs)
      end
  end.

(** ** Lemmas *)

Lemma trace_get_all h l a : trace_get (h :: l) a (-1) = if addr h =? a then Some h else trace_get l a (-1).
Proof. done. Qed.

Lemma trace_get_In l a tag h : trace_get l a tag = Some h -> h ∈ l /\ addr h = a /\ tag_skips tag h = false.
Proof.
  induction l as [|t l IH]; cbn [trace_get]; [done|].
  destruct (tag_skips tag t) eqn:Et; cbn [negb andb]; [|destruct (Z.eqb_spec (addr t) a)];
    try (intros [= <-]; split; [by left|done]); intros H; destruct (IH H); split; [by right|done|by right|done].
Qed.

Lemma trace_get_none l a : trace_get l a (-1) = None <-> a ∉ (addr <$> l).
Proof.
  induction l as [|t l IH]; [split; [intros _; by apply not_elem_of_nil|done]|].
  rewrite trace_get_all, fmap_cons, not_elem_of_cons.
  destruct (Z.eqb_spec (addr t) a); [naive_solver|]. rewrite IH. naive_solver.
Qed.

Lemma trace_get_app l a tag t :
  trace_get (l ++ [t]) a tag = match trace_get l a tag with Some h => Some h | None => trace_get [t] a tag end.
Proof. induction l as [|h l IH]; [done|]. cbn [trace_get app]. by destruct (_ && _). Qed.

Lemma add_tag_addr tag h : addr (add_tag tag h) = addr h.
Proof. unfold add_tag. by case_match. Qed.
Lemma add_tag_times tag h : times (add_tag tag h) = times h.
Proof. unfold add_tag. by case_match. Qed.

(** How often an address was recorded. *)
Definition times_of (a : Z) (l : list trace_t) : Z :=
  match trace_get l a (-1) with Some h => times h | None => 0 end.

Lemma bump_first_spec a tag c now l :
  match bump_first a tag c now l with
  | Some (l', r) => a ∈ (addr <$> l) /\ addr <$> l' = addr <$> l /\ r = s32 (times_of a l + 1) /\
      forall b, times_of b l' = if b =? a then r else times_of b l
  | None => a ∉ (addr <$> l)
  end.
Proof.
  unfold times_of. induction l as [|h l IH]; cbn [bump_first]; [apply not_elem_of_nil|].
  destruct (Z.eqb_spec (addr h) a) as [E|E].
  - set (h' := set_times _ _). assert (addr h' = a) as E' by (unfold h'; cbn; by rewrite add_tag_addr).
    rewrite fmap_cons, E. rewrite trace_get_all, E, Z.eqb_refl, !fmap_cons, E', ?E.
    split; [by left|]. split; [done|]. split; [unfold h'; cbn; by rewrite add_tag_times|].
    intros b. rewrite !trace_get_all, E, E', (Z.eqb_sym a b). by destruct (Z.eqb_spec b a).
  - destruct (bump_first a tag c now l) as [[l' r]|].
    + destruct IH as (H1 & H2 & H3 & H4). rewrite !fmap_cons, trace_get_all, (proj2 (Z.eqb_neq _ _)) by done. split; [by right|]. split; [by rewrite H2|]. split; [done|].
      intros b. specialize (H4 b). rewrite !trace_get_all. destruct (Z.eqb_spec (addr h) b); [|done].
      rewrite (proj2 (Z.eqb_neq b a)) by congruence. done.
    + csimpl. apply not_elem_of_cons. naive_solver.
Qed.

(** *** Following traces *)

(** A trace that starts at a positive address and does not reach the end of the address space. *)
Definition sane (h : trace_t) : Prop := 0 < addr h /\ 0 < opsize h /\ addr h + opsize h < 2^64.

(** How many traces lie at or above an address: what [trace_range] has left to follow. *)
Definition above (a : Z) (l : list trace_t) : nat := length (List.filter (fun h => a <=? addr h) l).

Lemma above_length a l : (above a l <= length l)%nat.
Proof. unfold above. induction l as [|h l IH]; cbn; [lia|]. destruct (a <=? addr h); cbn; lia. Qed.

Lemma above_mono a b l : a <= b -> (above b l <= above a l)%nat.
Proof.
  intros H. unfold above. induction l as [|h l IH]; cbn; [lia|].
  destruct (Z.leb_spec a (addr h)), (Z.leb_spec b (addr h)); cbn; lia.
Qed.

Lemma above_lt a b l h : h ∈ l -> addr h = a -> a < b -> (above b l < above a l)%nat.
Proof.
  intros Hh Ha Hab. unfold above. induction l as [|t l IH]; [by apply elem_of_nil in Hh|].
  pose proof (above_mono a b l) as Hm. unfold above in Hm. apply elem_of_cons in Hh as [->|Hh]; cbn.
  - destruct (Z.leb_spec a (addr t)), (Z.leb_spec b (addr t)); cbn; lia.
  - specialize (IH Hh). destruct (Z.leb_spec a (addr t)), (Z.leb_spec b (addr t)); cbn; lia.
Qed.

Lemma trace_range_loop_spec fuel l from last2 :
  Forall sane l -> 0 < from < 2^64 -> from <> last2 -> (above from l < fuel)%nat ->
  exists last, trace_range_loop fuel l (-1) from last2 = Some last /\ from <= last < 2^64 /\
    trace_get l last (-1) = None /\ (trace_get l from (-1) <> None -> from < last).
Proof.
  intros Hs. revert from last2. induction fuel as [|fuel IH]; intros from last2 Hf Hne Hfu; [lia|].
  cbn [trace_range_loop]. rewrite (proj2 (Z.eqb_neq _ _)) by done.
  destruct (trace_get l from (-1)) as [h|] eqn:E.
  - apply trace_get_In in E as (Hh & Ha & _). rewrite Forall_forall in Hs. destruct (Hs h Hh) as (H1 & H2 & H3).
    assert (u64 (from + opsize h) = from + opsize h) as -> by (apply Z.mod_small; lia).
    destruct (IH (from + opsize h) from) as (last & E & Hl & Hn & _); [lia|lia| |].
    { pose proof (above_lt from (from + opsize h) l h Hh Ha). lia. }
    exists last. split; [done|]. split; [lia|]. split; [done|lia].
  - exists from. destruct fuel; cbn [trace_range_loop]; rewrite Z.eqb_refl; split; [done| |done|];
      split; [lia|done|lia|done].
Qed.

Lemma trace_next_loop_spec next from l :
  let r := trace_next_loop next from (-1) l in
  r <= next /\ (r = next \/ exists h, h ∈ l /\ addr h = r /\ from < r) /\
  forall h, h ∈ l -> from < addr h -> r <= addr h.
Proof.
  revert next. induction l as [|t l IH]; intros next; cbn [trace_next_loop].
  - split; [lia|]. split; [by left|]. intros h Hh. by apply elem_of_nil in Hh.
  - change (tag_skips (-1) t) with false. cbv iota.
    set (nx := if (from <? addr t) && (addr t <? next) then addr t else next).
    destruct (IH nx) as (H1 & H2 & H3).
    assert (nx <= next /\ (from < addr t -> nx <= addr t) /\ (nx = next \/ nx = addr t /\ from < addr t)) as (H4 & H5 & H6).
    { unfold nx. zcase; cbn; lia. }
    split; [lia|]. split.
    + destruct H2 as [->|(h & Hh & ? & ?)]; [|right; exists h; split; [by right|done]].
      destruct H6 as [->|[-> ?]]; [by left|right; exists t; split; [by left|done]].
    + intros h [->|Hh]%elem_of_cons Hlt; [specialize (H5 Hlt); lia|by apply H3].
Qed.

(** [trace_next] is the lowest recorded address above [from], 0 when there is none. *)
Lemma trace_next_spec from l : Forall sane l ->
  (trace_next l from (-1) = 0 /\ forall h, h ∈ l -> addr h <= from) \/
  (exists h, h ∈ l /\ addr h = trace_next l from (-1) /\ from < addr h /\
     forall h', h' ∈ l -> from < addr h' -> addr h <= addr h').
Proof.
  intros Hs. unfold trace_next. destruct (trace_next_loop_spec (2^64 - 1) from l) as (H1 & H2 & H3).
  set (r := trace_next_loop _ _ _ _) in *. rewrite Forall_forall in Hs.
  destruct (Z.eqb_spec r (2^64 - 1)) as [E|E].
  - left. split; [done|]. intros h Hh. destruct (Hs h Hh). destruct (Z.le_gt_cases (addr h) from); [done|].
    specialize (H3 h Hh). lia.
  - right. destruct H2 as [->|(h & Hh & Ha & Hl)]; [done|]. exists h. rewrite Ha. done.
Qed.

Lemma lowest_loop_spec a l : 0 < a -> Forall (fun h => 0 < addr h) l ->
  let r := foldl lowest_turn a l in
  0 < r <= a /\ (r = a \/ exists h, h ∈ l /\ addr h = r) /\ forall h, h ∈ l -> r <= addr h.
Proof.
  revert a. induction l as [|t l IH]; intros a Ha Hl; cbn [foldl].
  - split; [lia|]. split; [by left|]. intros h Hh. by apply elem_of_nil in Hh.
  - apply Forall_cons in Hl as [Ht Hl]. set (b := lowest_turn a t).
    assert (0 < b <= a /\ b <= addr t /\ (b = a \/ b = addr t)) as (H1 & H2 & H3).
    { unfold b, lowest_turn. rewrite (proj2 (Z.eqb_neq a 0)) by lia. zcase; lia. }
    destruct (IH b) as (H4 & H5 & H6); [lia|done|]. split; [lia|]. split.
    + destruct H5 as [->|(h & ? & ?)]; [|right; exists h; split; [by right|done]].
      destruct H3 as [->| ->]; [by left|right; exists t; split; [by left|done]].
    + intros h [->|Hh]%elem_of_cons; [lia|by apply H6].
Qed.

Lemma lowest_spec l : Forall sane l -> l <> [] ->
  (exists h, h ∈ l /\ addr h = lowest l) /\ forall h, h ∈ l -> lowest l <= addr h.
Proof.
  intros Hs. destruct l as [|t l]; [done|]. intros _. unfold lowest. cbn [foldl].
  assert (lowest_turn 0 t = addr t) as -> by (unfold lowest_turn; cbn; by rewrite Z.ltb_irrefl).
  apply Forall_cons in Hs as [[Ht _] Hl].
  destruct (lowest_loop_spec (addr t) l Ht) as (H1 & H2 & H3).
  { apply (Forall_impl _ _ _ Hl). by intros h []. }
  split.
  - destruct H2 as [->|(h & ? & ?)]; [exists t; split; [by left|done]|exists h; split; [by right|done]].
  - intros h [->|Hh]%elem_of_cons; [lia|by apply H3].
Qed.

(** The printed ranges from a recorded address on. *)
Lemma show_ranges_spec fuel l from :
  Forall sane l -> trace_get l from (-1) <> None -> (above from l < fuel)%nat ->
  exists rs, show_ranges fuel l (-1) from = Some rs /\
    (forall h, h ∈ l -> from <= addr h -> exists r, r ∈ rs /\ r.1 <= addr h < r.2) /\
    StronglySorted (fun r r' => r.2 < r'.1) rs /\ Forall (fun r => from <= r.1 < r.2) rs.
Proof.
  intros Hs. revert from. induction fuel as [|fuel IH]; intros from Hf Hfu; [lia|].
  destruct (trace_get l from (-1)) as [h0|] eqn:E; [|done]. pose proof E as E'.
  apply trace_get_In in E as (Hh0 & Ha0 & _). pose proof Hs as Hs'. rewrite Forall_forall in Hs'.
  destruct (Hs' h0 Hh0) as (H1 & H2 & H3). cbn [show_ranges]. rewrite (proj2 (Z.eqb_neq from 0)) by lia.
  destruct (trace_range_loop_spec (S (S (length l))) l from 0) as (last & Er & Hl & Hn & Hlt);
    [done|lia|lia|pose proof (above_length from l); lia|].
  unfold trace_range. rewrite Er. specialize (Hlt ltac:(by rewrite E')).
  rewrite (proj2 (Z.eqb_neq last from)) by lia. rewrite trace_get_none in Hn.
  destruct (trace_next_spec last l Hs) as [[-> Hmax]|(h & Hh & Ha & Hgt & Hmin)].
  - exists [(from, last)]. split; [destruct fuel; [pose proof (above_lt from last l h0 Hh0 Ha0); lia|done]|].
    split; [|split; [repeat constructor|repeat constructor; cbn; lia]].
    intros t Ht Hft. exists (from, last). split; [by left|]. cbn. specialize (Hmax t Ht).
    assert (addr t <> last) by (intros <-; apply Hn; by apply list_elem_of_fmap_2). lia.
  - rewrite <-Ha. destruct (IH (addr h)) as (rs & -> & Hc & Hso & Hb).
    { rewrite trace_get_none. intros Hni. apply Hni. by apply list_elem_of_fmap_2. }
    { pose proof (above_lt from last l h0 Hh0 Ha0 Hlt). pose proof (above_mono last (addr h) l). lia. }
    exists ((from, last) :: rs). split; [done|]. split; [|split].
    + intros t Ht Hft. destruct (Z.lt_ge_cases (addr t) last); [exists (from, last); split; [by left|done]|].
      assert (addr t <> last) by (intros <-; apply Hn; by apply list_elem_of_fmap_2).
      destruct (Hc t Ht) as (r & Hr & Hrt); [apply (Hmin t Ht); lia|]. exists r. split; [by right|done].
    + constructor; [done|]. apply (Forall_impl _ _ _ Hb). intros r Hr. cbn. lia.
    + constructor; [cbn; lia|]. apply (Forall_impl _ _ _ Hb). intros r Hr. lia.
Qed.

Lemma trace_sort_spec st :
  exists st' ch, trace_sort st = Some (st', ch) /\ traces st' ≡ₚ traces st /\
    (if trace_changed st then StronglySorted (by_key addr) (traces st') else st' = st).
Proof.
  unfold trace_sort. destruct (trace_changed st) eqn:E; cbn [negb]; [|by exists st, false].
  destruct (list_sort_records addr (traces st)) as (order & ch & Es & Hp & Hs).
  unfold trace_key. rewrite Es. by eexists _, ch.
Qed.

(** ** Properties *)

(** Without [trace.dup] a trace is kept once per address: an address met again counts one more
    time, a new one starts at 1, every other count stays, and the result is the new count. *)
Theorem trace_add_counts aop bytes_at now a st :
  NoDup (addr <$> traces st) -> times_of a (traces st) + 1 < 2^31 -> 0 <= times_of a (traces st) ->
  let '(st', r) := trace_add (Some aop) bytes_at false now a st in
  NoDup (addr <$> traces st') /\ r = times_of a (traces st) + 1 /\
  forall b, times_of b (traces st') = times_of b (traces st) + (if b =? a then 1 else 0).
Proof.
  intros Hnd Hmax Hmin. unfold trace_add. pose proof (bump_first_spec a (trace_tag st) (u32 (n_traces st + 1)) now (traces st)) as Hb.
  destruct (bump_first _ _ _ _ _) as [[l r]|]; cbn [traces with_traces].
  - destruct Hb as (Hin & Ha & -> & Ht). rewrite Ha. split; [done|].
    assert (s32 (times_of a (traces st) + 1) = times_of a (traces st) + 1) as E
      by (unfold s32; rewrite Z.mod_small; lia).
    split; [done|]. intros b. rewrite Ht, E. destruct (Z.eqb_spec b a); [by subst|lia].
  - set (t := add_tag _ _). assert (addr t = a) as Ea by apply add_tag_addr.
    assert (times t = 1) as Et by apply add_tag_times.
    pose proof (proj2 (trace_get_none _ _) Hb) as Hn.
    assert (times_of a (traces st) = 0) as E0 by (unfold times_of; by rewrite Hn).
    rewrite E0, Et. split; [|split; [done|]].
    + rewrite fmap_app. apply NoDup_app. split; [done|]. split; [|apply NoDup_singleton].
      intros b Hb1 Hb2. csimpl in Hb2. apply list_elem_of_singleton in Hb2. rewrite Ea in Hb2. rewrite Hb2 in Hb1. done.
    + intros b. unfold times_of. rewrite trace_get_app. destruct (Z.eqb_spec b a) as [->|Hne].
      * rewrite Hn, trace_get_all, Ea, Z.eqb_refl. lia.
      * destruct (trace_get (traces st) b (-1)); [lia|].
        rewrite trace_get_all, Ea, (proj2 (Z.eqb_neq a b)) by done. done.
Qed.

Lemma trace_add_counts_witness :
  let st := TracesSt [Trace 16 0 4 1 1 0; Trace 32 0 2 3 2 0] 2 true (-1) in
  let '(st', r) := trace_add (Some (fun _ _ => 4)) (fun _ => []) false 9 32 st in
  NoDup (addr <$> traces st') /\ r = 4 /\
  forall b, times_of b (traces st') = times_of b (traces st) + (if b =? 32 then 1 else 0).
Proof.
  apply (trace_add_counts (fun _ _ => 4) (fun _ => []) 9 32 (TracesSt [Trace 16 0 4 1 1 0; Trace 32 0 2 3 2 0] 2 true (-1)));
    [apply (bool_decide_unpack _); vm_compute; exact I|vm_compute; reflexivity|vm_compute; discriminate].
Defined.

(** A trace recorded for a new address under a tag below 32 is never found under that tag: the
    number of the tag is stored where its bit is looked for. *)
Theorem trace_tag_lost aop bytes_at now a t st :
  0 <= t < 32 -> a ∉ (addr <$> traces st) ->
  let st' := (trace_add (Some aop) bytes_at false now a (trace_tag_set t st).1).1 in
  trace_get (traces st') a t = None /\ trace_times a st' = 0 /\ times_of a (traces st') = 1.
Proof.
  intros Ht Ha. unfold trace_tag_set. rewrite (proj2 (Z.leb_le _ _)) by lia. rewrite (proj2 (Z.ltb_lt t 64)) by lia.
  cbn [andb fst]. unfold trace_add. cbn [n_traces traces trace_tag].
  pose proof (bump_first_spec a t (u32 (n_traces st + 1)) now (traces st)) as Hb.
  destruct (bump_first _ _ _ _ _) as [[l r]|]; [by destruct Hb|]. clear Hb.
  set (h := add_tag _ _). cbn [fst traces with_traces trace_tag trace_times].
  assert (addr h = a) as Ea by apply add_tag_addr. assert (times h = 1) as Et by apply add_tag_times.
  assert (tag_skips t h = true) as Hs.
  { assert (tags h = t) as Eh.
    { unfold h, add_tag. rewrite (proj2 (Z.eqb_neq t (-1))) by lia. cbn. apply Z.mod_small. lia. }
    unfold tag_skips. rewrite Eh.
    apply (forallb_below (fun t => negb (t =? -1) && negb (truth (Z.land t (tag_bit t)))) 32); [vm_compute; reflexivity|done]. }
  assert (trace_get (traces st ++ [h]) a t = None) as E.
  { rewrite trace_get_app. destruct (trace_get (traces st) a t) as [g|] eqn:G.
    - apply trace_get_In in G as (Hg & <- & _). exfalso. apply Ha. by apply list_elem_of_fmap_2.
    - cbn [trace_get]. by rewrite Hs. }
  rewrite E. split; [done|]. split; [unfold trace_times; cbn [traces with_traces trace_tag]; by rewrite E|].
  unfold times_of. rewrite trace_get_app.
  rewrite (proj2 (trace_get_none _ _) Ha), trace_get_all, Ea, Z.eqb_refl. exact Et.
Qed.

Lemma trace_tag_lost_witness :
  let st' := (trace_add (Some (fun _ _ => 4)) (fun _ => []) false 9 32 (trace_tag_set 3 (TracesSt [] 0 false (-1))).1).1 in
  trace_get (traces st') 32 3 = None /\ trace_times 32 st' = 0 /\ times_of 32 (traces st') = 1.
Proof.
  apply (trace_tag_lost (fun _ _ => 4) (fun _ => []) 9 32 3 (TracesSt [] 0 false (-1)));
    [vm_compute; split; [discriminate|reflexivity]|apply not_elem_of_nil].
Defined.

(** When the traces do not wrap around, [trace_show] terminates; the ranges it prints are in
    order, apart from one another, and every recorded address is in one of them. *)
Theorem trace_show_covers st :
  Forall sane (traces st) ->
  exists st' nodes rs, trace_show 0 (-1) st = Some (st', nodes, show_range_line 0 <$> rs) /\
    traces st' ≡ₚ traces st /\
    StronglySorted (fun r r' => r.2 < r'.1) rs /\ Forall (fun r => r.1 < r.2) rs /\
    forall h, h ∈ traces st -> exists r, r ∈ rs /\ r.1 <= addr h < r.2.
Proof.
  intros Hs. destruct (trace_sort_spec st) as (st' & ch & E & Hp & _). unfold trace_show. rewrite E.
  change (0 <? 0) with false. cbv iota. assert (Forall sane (traces st')) as Hs' by by rewrite Hp.
  destruct (decide (traces st' = [])) as [Hnil|Hne].
  - rewrite Hnil. exists st', [], []. split; [done|]. split; [done|]. rewrite Hnil in Hp.
    split; [constructor|]. split; [constructor|]. intros h Hh. rewrite <-Hp in Hh. by apply elem_of_nil in Hh.
  - destruct (lowest_spec _ Hs' Hne) as [(h0 & Hh0 & Ea) Hlow].
    destruct (show_ranges_spec (S (S (length (traces st')))) (traces st') (lowest (traces st'))) as (rs & -> & Hc & Hso & Hb); [done| |  |].
    { rewrite trace_get_none, <-Ea. intros Hn. apply Hn. by apply list_elem_of_fmap_2. }
    { pose proof (above_length (lowest (traces st')) (traces st')). lia. }
    eexists st', _, rs. split; [reflexivity|]. split; [done|]. split; [done|].
    split; [apply (Forall_impl _ _ _ Hb); intros r Hr; lia|].
    intros h Hh. rewrite <-Hp in Hh. by apply Hc, Hlow.
Qed.

Lemma trace_show_covers_witness :
  exists st' nodes rs,
    trace_show 0 (-1) (TracesSt [Trace 20 0 2 1 1 0; Trace 16 0 4 1 2 0; Trace 64 0 1 1 3 0] 3 true (-1)) =
      Some (st', nodes, show_range_line 0 <$> rs) /\
    traces st' ≡ₚ [Trace 20 0 2 1 1 0; Trace 16 0 4 1 2 0; Trace 64 0 1 1 3 0] /\
    StronglySorted (fun r r' => r.2 < r'.1) rs /\ Forall (fun r => r.1 < r.2) rs /\
    forall h, h ∈ [Trace 20 0 2 1 1 0; Trace 16 0 4 1 2 0; Trace 64 0 1 1 3 0] -> exists r, r ∈ rs /\ r.1 <= addr h < r.2.
Proof.
  apply (trace_show_covers (TracesSt [Trace 20 0 2 1 1 0; Trace 16 0 4 1 2 0; Trace 64 0 1 1 3 0] 3 true (-1))).
  repeat constructor.
Defined.

(** The start of the listing is taken over all the traces, so under a tag that the lowest one
    does not have no range is printed, whatever the others have. *)
Theorem trace_show_hides tag st st' ch :
  trace_sort st = Some (st', ch) -> lowest (traces st') <> 0 ->
  trace_get (traces st') (lowest (traces st')) tag = None ->
  exists nodes, trace_show 0 tag st = Some (st', nodes, []).
Proof.
  intros E H0 Hn. unfold trace_show. rewrite E. change (0 <? 0) with false. cbv iota.
  set (n := length (traces st')). cbn [show_ranges].
  rewrite (proj2 (Z.eqb_neq _ _)) by done. unfold trace_range. fold n. cbn [trace_range_loop].
  rewrite (proj2 (Z.eqb_neq _ _)) by done. rewrite Hn, !Z.eqb_refl. by eexists.
Qed.

Lemma trace_show_hides_witness :
  exists nodes, trace_show 0 1 (TracesSt [Trace 16 1 4 1 2 0; Trace 64 2 1 1 3 0] 2 false (-1)) =
    Some (TracesSt [Trace 16 1 4 1 2 0; Trace 64 2 1 1 3 0] 2 false (-1), nodes, []).
Proof.
  apply (trace_show_hides 1 _ (TracesSt [Trace 16 1 4 1 2 0; Trace 64 2 1 1 3 0] 2 false (-1)) false);
    [reflexivity|vm_compute; discriminate|vm_compute; reflexivity].
Defined.
