(* ===== verification/Utils.v ===== *)
(** * String and buffer utilities: [src/utils.c]

    A C string is a [string]; a buffer is the list of its bytes.  A function that reads behind the
    terminator of its argument yields [None]. *)
From S2P Require Import Prelude.

(** ** Hexadecimal text *)

(** The new value, and whether the character is no digit. *)
Definition hex2int (val : Z) (c : ascii) : Z * bool :=
  let c := ord c in
  if (48 <=? c) && (c <=? 57) then (u8 (val * 16 + (c - 48)), false)
  else if (65 <=? c) && (c <=? 70) then (u8 (val * 16 + (c - 65 + 10)), false)
  else if (97 <=? c) && (c <=? 102) then (u8 (val * 16 + (c - 97 + 10)), false)
  else (val, true).

(** [j] digits read into [c]. *)
Fixpoint hexpair_loop (s : string) (j : nat) (c : Z) : Z :=
  match s with
  | EmptyString => c
  | String a s' =>
    if Ascii.eqb a " " || (j =? 2)%nat then c
    else
      let '(c', err) := hex2int c a in
      if err then -1
      else
        let c' := Z.lor c' c in
        hexpair_loop s' (S j) (if (j =? 0)%nat then u8 (Z.shiftl c' 4) else c')
  end.
Definition hexpair2bin (arg : string) : Z :=
  match arg with String _ (String _ _) => hexpair_loop arg 0 0 | _ => -1 end.

(** The ignored characters. *)
Definition hex_blank (a : ascii) : bool :=
  Ascii.eqb a ":" || (ord a =? 10) || (ord a =? 9) || (ord a =? 13) || Ascii.eqb a " ".

Definition is_0x (s : string) : bool :=
  match s with String a (String b _) => Ascii.eqb a "0" && Ascii.eqb b "x" | _ => false end.

(** [while(ptr[0]&&ptr[0]!=' '&&ptr[0]!='\t')]. *)
Fixpoint skip_word (s : string) : string :=
  match s with
  | String a s' => if Ascii.eqb a " " || (ord a =? 9) then s else skip_word s'
  | EmptyString => EmptyString
  end.

Definition tail_string (s : string) : option string :=
  match s with String _ s' => Some s' | EmptyString => None end.

Section hexstr.
Context (get_math : string -> Z).

(** The pending byte with [j] digits in [c]; [out] holds the bytes written.  After a number in the
    [0x] form the pointer is moved once more, which steps over the terminator when the number
    ends the text.  The recursion is on a bound of the length of the text. *)
Fixpoint hexstr_loop (fuel : nat) (s : string) (j : nat) (c : Z) (out : list Z) : option (list Z * Z) :=
  match fuel with
  | O => None
  | S fuel' =>
    match s with
    | String a s' =>
      if hex_blank a then hexstr_loop fuel' s' j c out
      else
        let '(out, c, j) := if (j =? 2)%nat then (out ++ [c], 0, 0%nat) else (out, c, j) in
        if is_0x s then
          let addr := u32 (get_math s) in
          let out := out ++ [addr mod 256; addr / 2^8 mod 256; addr / 2^16 mod 256; addr / 2^24 mod 256] in
          match tail_string (skip_word s) with
          | Some s'' => hexstr_loop fuel' s'' 0 c out
          | None => None
          end
        else
          let '(c', err) := hex2int c a in
          if err then Some (out, 0)
          else
            let c' := Z.lor c' c in
            hexstr_loop fuel' s' (S j) (if (j =? 0)%nat then u8 (Z.shiftl c' 4) else c') out
    | EmptyString =>
      let out := if (j =? 2)%nat then out ++ [c] else out in
      Some (out, Z.of_nat (length out))
    end
  end.

(** The bytes written and the result. *)
Definition hexstr2binstr (s : string) : option (list Z * Z) :=
  hexstr_loop (S (String.length s)) s 0 0 [].
End hexstr.

(** ** Escapes

    The text is rewritten in place: the bytes it ends up with, and whether an escape was wrong; the
    result of the C function is the number of bytes, or 0. *)
Fixpoint escape_loop (s : string) : list Z * bool :=
  match s with
  | EmptyString => ([], false)
  | String a s' =>
    if Ascii.eqb a "\" then
      match s' with
      | String b s2 =>
        if Ascii.eqb b "e" then let '(l, e) := escape_loop s2 in (0x1b :: l, e)
        else if Ascii.eqb b "r" then let '(l, e) := escape_loop s2 in (0x0d :: l, e)
        else if Ascii.eqb b "n" then let '(l, e) := escape_loop s2 in (0x0a :: l, e)
        else if Ascii.eqb b "x" then
          match s2 with
          | String h1 (String h2 s4) =>
            let '(ch, e1) := hex2int 0 h1 in
            let '(ch2, e2) := hex2int 0 h2 in
            if e1 || e2 then (ord <$> list_ascii_of_string s, true)
            else let '(l, e) := escape_loop s4 in (u8 (Z.shiftl ch 4 + ch2) :: l, e)
          | _ => (ord <$> list_ascii_of_string s, true)
          end
        else (ord <$> list_ascii_of_string s, true)
      | EmptyString => (ord <$> list_ascii_of_string s, true)
      end
    else let '(l, e) := escape_loop s' in (ord a :: l, e)
  end.
Definition escape_buffer (s : string) : list Z * Z :=
  let '(l, e) := escape_loop s in (l, if e then 0 else Z.of_nat (length l)).

(** ** Words *)

Definition iswhitespace (c : ascii) : bool := Ascii.eqb c " " || (ord c =? 9).
Definition iswhitechar (c : ascii) : bool := Ascii.eqb c " " || (ord c =? 9) || (ord c =? 10) || (ord c =? 13).

Fixpoint chop_spaces (s : string) : string :=
  match s with String c s' => if Ascii.eqb c " " then chop_spaces s' else s | EmptyString => s end.

(** The text without its last blanks, for the blanks [sp]. *)
Fixpoint chop_end (sp : ascii -> bool) (s : string) : string :=
  match s with
  | String c s' =>
    match chop_end sp s' with
    | EmptyString => if sp c then EmptyString else String c EmptyString
    | t => String c t
    end
  | EmptyString => EmptyString
  end.

(** The text before the first [c] and the one behind it. *)
Fixpoint split_at (c : ascii) (s : string) : option (string * string) :=
  match s with
  | EmptyString => None
  | String a s' =>
    if Ascii.eqb a c then Some (EmptyString, s')
    else match split_at c s' with Some (l, r) => Some (String a l, r) | None => None end
  end.

Lemma split_at_none (f : ascii -> bool) c s : f c = false -> all_chars f s = true -> split_at c s = None.
Proof.
  intros Hc. induction s as [|a s IH]; [done|]. cbn. intros [Ha Hs]%andb_prop.
  destruct (Ascii.eqb_spec a c) as [->|]; [congruence|]. by rewrite IH.
Qed.

Lemma split_at_app (f : ascii -> bool) c s t : f c = false -> all_chars f s = true ->
  split_at c (s +:+ String c t) = Some (s, t).
Proof.
  intros Hc. induction s as [|a s IH]; cbn; [by rewrite Ascii.eqb_refl|]. intros [Ha Hs]%andb_prop.
  destruct (Ascii.eqb_spec a c) as [->|]; [congruence|]. by rewrite IH.
Qed.

Lemma split_at_skip (f : ascii -> bool) c s t : f c = false -> all_chars f s = true ->
  split_at c (s +:+ t) = match split_at c t with Some (l, r) => Some (s +:+ l, r) | None => None end.
Proof.
  intros Hc. induction s as [|a s IH]; cbn; [by destruct (split_at c t) as [[]|]|]. intros [Ha Hs]%andb_prop.
  destruct (Ascii.eqb_spec a c) as [->|]; [congruence|]. rewrite IH by done. by destruct (split_at c t) as [[]|].
Qed.

(** The words between single spaces; two spaces in a row make an empty one. *)
Fixpoint split_words (s : string) : string * list string :=
  match s with
  | EmptyString => (EmptyString, [])
  | String c s' =>
    let '(w, l) := split_words s' in
    if Ascii.eqb c " " then (EmptyString, w :: l) else (String c w, l)
  end.

(** [set0word]: the words the buffer is cut into; a text of spaces only makes the second loop
    start in front of the buffer. *)
Definition set0word (s : string) : option (list string) :=
  match s with
  | EmptyString => Some [EmptyString]
  | _ =>
    match chop_spaces s with
    | EmptyString => None
    | t => let '(w, l) := split_words (chop_end (fun c => Ascii.eqb c " ") t) in Some (w :: l)
    end
  end.

(** Word number [idx]; an empty one ends the walk, and behind the last there is nothing to read. *)
Fixpoint get0word (ws : list string) (idx : nat) : option string :=
  match ws with
  | [] => None
  | w :: ws' =>
    match w, idx with
    | EmptyString, _ | _, O => Some w
    | _, S idx' => get0word ws' idx'
    end
  end.

Fixpoint drop_while (f : ascii -> bool) (s : string) : string :=
  match s with String c s' => if f c then drop_while f s' else s | EmptyString => s end.
Fixpoint take_while (f : ascii -> bool) (s : string) : string :=
  match s with String c s' => if f c then String c (take_while f s') else EmptyString | EmptyString => s end.

Definition str_first_word (s : string) : string :=
  take_while (fun c => negb (iswhitespace c)) (drop_while iswhitespace s).

(** [strclean]: the first character stays even when it is a blank on its own. *)
Definition strclean (s : string) : string :=
  match drop_while iswhitechar s with
  | EmptyString => EmptyString
  | String c t => String c (chop_end iswhitechar t)
  end.

(** A word that ends the text counts for nothing; the result is one less than the words met. *)
Fixpoint word_count_loop (fuel : nat) (s : string) (word : Z) : Z :=
  match fuel, s with
  | S fuel', String _ _ =>
    let t := drop_while (fun c => negb (iswhitespace c)) s in
    let t' := drop_while iswhitespace t in
    let word := if (String.length t =? String.length t')%nat then word - 1 else word in
    word_count_loop fuel' t' (word + 1)
  | _, _ => word
  end.
Definition word_count (s : string) : Z :=
  word_count_loop (String.length s) (drop_while iswhitespace s) 0 - 1.

(** ** Hashes of names *)
Definition schar (c : ascii) : Z := s8 (ord c).

Fixpoint strhash_loop (s : string) (i a h : Z) : Z :=
  match s with
  | EmptyString => h
  | String c s' => strhash_loop s' (i + 1) (s32 (a * 0x337)) (s32 (h + s32 (s32 (schar c * i) * a)))
  end.
(** The empty name is read from its second character on, behind its end. *)
Definition strhash (s : string) : option Z :=
  match s with
  | EmptyString => None
  | String c s' => Some (Z.land (strhash_loop s' 1 0x31 (schar c)) 0x7ffffff)
  end.

(** ** Buffers *)

(** The inner loop runs [osize] times at most; with an empty [orig] the outer one never ends. *)
Fixpoint memcpy_loop (fuel : nat) (orig : list Z) (dsize osize : nat) : option (list Z) :=
  match dsize with
  | O => Some []
  | _ =>
    match fuel with
    | O => None
    | S fuel' =>
      let n := Nat.min osize dsize in
      app (take n orig) <$> memcpy_loop fuel' orig (dsize - n) osize
    end
  end.

(** [None] is an invalid size, which leaves [dest] alone. *)
Definition endian_memcpy_e (orig : list Z) (size : nat) (endian : bool) : option (list Z) :=
  if endian then Some (take size orig)
  else
    match orig, size with
    | a :: b :: _, 2%nat => Some [b; a]
    | a :: b :: c :: d :: _, 4%nat => Some [d; c; b; a]
    | a :: b :: c :: d :: e :: f :: g :: h :: _, 8%nat => Some [h; g; f; e; d; c; b; a]
    | _, _ => None
    end.

(** [memcpy_r]: the bytes at 1 .. [len], so the last one comes from behind the buffer and the
    first one is not copied. *)
Definition memcpy_r (from to : list Z) (len : nat) : option (list Z) :=
  if (len <? length from)%nat && (len <? length to)%nat then
    Some (take 1 to ++ take len (drop 1 from) ++ drop (S len) to)
  else None.

(** ** Comparing and replacing *)

(** The differences are summed up: they may cancel out.  The terminator of a shorter [string] is
    compared as well; [None] behind it. *)
Fixpoint strsub_memcmp (s pat : string) : option Z :=
  match pat, s with
  | EmptyString, _ => Some 0
  | String p pat', String c s' =>
    (fun r => r + (if Ascii.eqb p "?" then 0 else schar c - schar p)) <$> strsub_memcmp s' pat'
  | String p EmptyString, EmptyString => Some (if Ascii.eqb p "?" then 0 else - schar p)
  | String _ _, EmptyString => None
  end.

(** [temp]; a text that is empty yields [NULL], which stands for it. *)
Fixpoint strsub_loop (fuel : nat) (s pat rep : string) (global repl : bool) : option string :=
  match fuel with
  | O => None
  | S fuel' =>
    match s with
    | EmptyString => Some EmptyString
    | String c s' =>
      if repl then
        match strsub_memcmp s pat with
        | None => None
        | Some 0 =>
          if (String.length s <? String.length pat)%nat then None
          else String.append rep <$> strsub_loop fuel' (str_drop (String.length pat) s) pat rep global global
        | Some _ => String c <$> strsub_loop fuel' s' pat rep global true
        end
      else String c <$> strsub_loop fuel' s' pat rep global false
    end
  end.
Definition strsub (s pat rep : string) (global : bool) : option string :=
  strsub_loop (S (String.length s)) s pat rep global true.

Fixpoint strccmp (dst orig : string) (ch : ascii) : Z :=
  match orig with
  | EmptyString => 0
  | String o orig' =>
    if Ascii.eqb o ch then 0
    else
      match dst with
      | String d dst' => if Ascii.eqb d o then strccmp dst' orig' ch else 1
      | EmptyString => 1
      end
  end.

Definition str_ccpy (orig : string) (ch : ascii) : string * Z :=
  let s := take_while (fun c => negb (Ascii.eqb c ch)) orig in (s, Z.of_nat (String.length s)).

(** ** Lemmas *)

(** What the parsers below need of the two digits of a byte. *)
Definition digits_ok (b : Z) : bool :=
  match fmt_x0 2 b with
  | String h1 (String h2 EmptyString) =>
    negb (hex_blank h1) && negb (hex_blank h2) && negb (Ascii.eqb h2 "x") &&
    (let '(v, e) := hex2int 0 h1 in
     negb e && (let '(w, f) := hex2int (u8 (Z.shiftl (Z.lor v 0) 4)) h2 in
                negb f && (Z.lor w (u8 (Z.shiftl (Z.lor v 0) 4)) =? b)))
  | _ => false
  end.

Lemma hex_byte_digits b : is_u8 b ->
  exists h1 h2, fmt_x0 2 b = String h1 (String h2 EmptyString) /\
    hex_blank h1 = false /\ hex_blank h2 = false /\ Ascii.eqb h2 "x" = false /\
    exists v w, hex2int 0 h1 = (v, false) /\ hex2int (u8 (Z.shiftl (Z.lor v 0) 4)) h2 = (w, false) /\
      Z.lor w (u8 (Z.shiftl (Z.lor v 0) 4)) = b.
Proof.
  intros Hb. assert (H : digits_ok b = true) by (apply (forallb_below digits_ok 256); [vm_compute; reflexivity|exact Hb]).
  unfold digits_ok in H. destruct (fmt_x0 2 b) as [|h1 [|h2 [|? ?]]]; try done.
  exists h1, h2. destruct (hex2int 0 h1) as [v e]. destruct (hex2int _ h2) as [w f] eqn:Ew.
  rewrite !andb_true_iff, !negb_true_iff, Z.eqb_eq in H. destruct H as ((( H1 & H2) & H3) & H4 & H5 & H6).
  subst e f. split_and!; try done. by exists v, w.
Qed.

(** One digit; a full byte is written out first. *)
Lemma hexstr_digit gm fuel a s j c out v :
  hex_blank a = false -> is_0x (String a s) = false ->
  hex2int (if (j =? 2)%nat then 0 else c) a = (v, false) ->
  hexstr_loop gm (S fuel) (String a s) j c out =
    if (j =? 2)%nat then hexstr_loop gm fuel s 1 (u8 (Z.shiftl (Z.lor v 0) 4)) (out ++ [c])
    else hexstr_loop gm fuel s (S j) (if (j =? 0)%nat then u8 (Z.shiftl (Z.lor v c) 4) else Z.lor v c) out.
Proof. intros H1 H2 H3. cbn [hexstr_loop]. rewrite H1. destruct (j =? 2)%nat; rewrite H2, H3; done. Qed.

Definition starts_x (s : string) : bool := match s with String a _ => Ascii.eqb a "x" | _ => false end.

Lemma is_0x_false a s : starts_x s = false -> is_0x (String a s) = false.
Proof. destruct s as [|b s]; cbn; [done|]. intros ->. apply andb_false_r. Qed.

(** One printed byte; it is pending afterwards. *)
Lemma hexstr_byte gm fuel b rest j c out :
  is_u8 b -> starts_x rest = false -> (j = 0%nat /\ c = 0 \/ j = 2%nat) ->
  hexstr_loop gm (S (S fuel)) (fmt_x0 2 b +:+ rest) j c out =
    hexstr_loop gm fuel rest 2 b (if (j =? 2)%nat then out ++ [c] else out).
Proof.
  intros Hb Hr Hj. destruct (hex_byte_digits b Hb) as (h1 & h2 & -> & B1 & B2 & X & v & w & E1 & E2 & E3).
  cbn [String.append].
  assert (forall out, hexstr_loop gm (S fuel) (String h2 rest) 1 (u8 (Z.shiftl (Z.lor v 0) 4)) out =
                      hexstr_loop gm fuel rest 2 b out) as Hstep.
  { intros o. rewrite (hexstr_digit gm fuel h2 rest 1 _ o w B2 (is_0x_false _ _ Hr)) by exact E2.
    change (1 =? 2)%nat with false. change (1 =? 0)%nat with false. cbv iota. by rewrite E3. }
  destruct Hj as [[-> ->]| ->]; rewrite (hexstr_digit gm (S fuel) h1 _ _ _ _ v B1) by (exact E1 || by apply is_0x_false);
    apply Hstep.
Qed.

(** Printed bytes, each with the same text of blanks behind it. *)
Fixpoint hex_text (sep : string) (bs : list Z) : string :=
  match bs with [] => EmptyString | b :: bs' => fmt_x0 2 b +:+ sep +:+ hex_text sep bs' end.

Lemma hex_text_starts sep bs : (sep = EmptyString \/ sep = String " " EmptyString) -> Forall is_u8 bs ->
  starts_x (sep +:+ hex_text sep bs) = false.
Proof.
  intros [->| ->] Hbs; [|done]. destruct bs as [|b bs]; [done|]. apply Forall_cons in Hbs as [Hb _].
  cbn [hex_text String.append].
  assert (negb (starts_x (fmt_x0 2 b)) && negb (String.eqb (fmt_x0 2 b) "") = true) as H.
  { apply (forallb_below (fun b => negb (starts_x (fmt_x0 2 b)) && negb (String.eqb (fmt_x0 2 b) "")) 256);
      [vm_compute; reflexivity|exact Hb]. }
  destruct (fmt_x0 2 b); cbn in *; [done|]. by apply negb_true_iff; rewrite andb_true_r in H.
Qed.

Lemma fmt_x0_byte_length b : is_u8 b -> String.length (fmt_x0 2 b) = 2%nat.
Proof. intros Hb. by destruct (hex_byte_digits b Hb) as (h1 & h2 & -> & _). Qed.

Lemma hexstr_text gm sep bs j c out :
  (sep = EmptyString \/ sep = String " " EmptyString) -> Forall is_u8 bs -> (j = 0%nat /\ c = 0 \/ j = 2%nat) ->
  hexstr_loop gm (S (String.length (hex_text sep bs))) (hex_text sep bs) j c out =
    let l := (if (j =? 2)%nat then out ++ [c] else out) ++ bs in Some (l, Z.of_nat (length l)).
Proof.
  intros Hsep Hbs. revert j c out. induction Hbs as [|b bs Hb Hbs IH]; intros j c out Hj.
  - cbn. rewrite app_nil_r. done.
  - cbn [hex_text]. rewrite !str_length_app, fmt_x0_byte_length by done.
    change (S (2 + (String.length sep + String.length (hex_text sep bs))))
      with (S (S (S (String.length sep + String.length (hex_text sep bs))))).
    rewrite hexstr_byte by (done || by apply hex_text_starts).
    set (o := if (j =? 2)%nat then out ++ [c] else out).
    assert (hexstr_loop gm (S (String.length sep + String.length (hex_text sep bs))) (sep +:+ hex_text sep bs) 2 b o =
            hexstr_loop gm (S (String.length (hex_text sep bs))) (hex_text sep bs) 2 b o) as ->.
    { by destruct Hsep as [->| ->]. }
    rewrite IH by (by right). cbn. by rewrite <-app_assoc.
Qed.

(** ** Properties *)

(** Bytes printed in hexadecimal, with or without a space behind each, are parsed back by
    [hexstr2binstr]. *)
Theorem hexstr_roundtrip gm sep bs :
  Forall is_u8 bs -> (sep = EmptyString \/ sep = String " " EmptyString) ->
  hexstr2binstr gm (hex_text sep bs) = Some (bs, Z.of_nat (length bs)).
Proof. intros Hbs Hsep. apply (hexstr_text gm sep bs 0 0 []); auto. Qed.

Lemma hexstr_roundtrip_witness :
  hexstr2binstr (fun _ => 0) "00 ff 1a " = Some ([0; 255; 26], 3).
Proof.
  apply (hexstr_roundtrip (fun _ => 0) (String " " EmptyString) [0; 255; 26]); [repeat constructor; lia|by right].
Defined.

Lemma memcpy_loop_stuck fuel orig dsize : (0 < dsize)%nat -> memcpy_loop fuel orig dsize 0 = None.
Proof.
  intros Hd. induction fuel as [|fuel IH]; cbn [memcpy_loop]; destruct dsize as [|n]; try lia; [done|].
  change (Nat.min 0 (S n)) with 0%nat. rewrite Nat.sub_0_r. by rewrite IH.
Qed.

(** [memcpy_loop] fills the destination with copies of the first [osize] bytes, one after the
    other; it ends, within [dsize] rounds, exactly when there is something to copy. *)
Theorem memcpy_loop_fills fuel orig dsize osize :
  (osize <= length orig)%nat -> (dsize <= fuel)%nat -> (0 < dsize)%nat ->
  (osize = 0%nat /\ memcpy_loop fuel orig dsize osize = None) \/
  (exists d, memcpy_loop fuel orig dsize osize = Some d /\ length d = dsize /\
     forall i, (i < dsize)%nat -> d !! i = orig !! (i mod osize)%nat).
Proof.
  intros Ho Hf H0. destruct (decide (osize = 0%nat)) as [->|Hne]; [left; split; [done|by apply memcpy_loop_stuck]|right].
  clear H0. revert dsize Hf. induction fuel as [|fuel IH]; intros [|n] Hf; cbn [memcpy_loop]; try lia;
    try (exists []; split_and!; [done|done|lia]).
  set (m := Nat.min osize (S n)). destruct (IH (S n - m)%nat) as (d & -> & Hl & Hd); [lia|].
  exists (take m orig ++ d). assert (length (take m orig) = m) as Hm by (rewrite length_take; lia).
  split; [done|]. split; [rewrite length_app; lia|]. intros i Hi.
  destruct (decide (i < m)%nat).
  - rewrite lookup_app_l, lookup_take_lt by lia. by rewrite Nat.mod_small by lia.
  - rewrite lookup_app_r, Hm, Hd by lia. f_equal. assert (m = osize) as -> by lia.
    replace i with (i - osize + 1 * osize)%nat at 2 by lia. by rewrite Nat.Div0.mod_add.
Qed.

Lemma memcpy_loop_fills_witness :
  exists d, memcpy_loop 5 [1; 2] 5 2 = Some d /\ length d = 5%nat /\
    forall i, (i < 5)%nat -> d !! i = [1; 2] !! (i mod 2)%nat.
Proof. destruct (memcpy_loop_fills 5 [1; 2] 5 2) as [[? _]|H]; [cbn; lia|lia|lia|discriminate|exact H]. Defined.

(** [endian_memcpy_e] without the flag reverses the bytes; twice it gives them back. *)
Lemma endian_memcpy_e_twice orig size d :
  length orig = size -> endian_memcpy_e orig size false = Some d ->
  d = reverse orig /\ endian_memcpy_e d size false = Some orig.
Proof.
  intros Hl. destruct orig as [|a [|b [|c [|e [|f [|g [|h [|i [|? ?]]]]]]]]]; cbn in Hl; subst size; cbn; try done;
    by intros [= <-].
Qed.
