(* ===== verification/Vm.v ===== *)
(** * The virtual machine: [src/vm.c]

    Registers, the aliases that compute them from one another, the write cache of the memory
    and the evaluator of the expressions that describe opcodes.

    Evaluating an alias evaluates expressions that read registers again; [rec] keeps that to one
    level.  Here the evaluator takes the one for aliases as its argument [nested], and [vm_eval n]
    ties the knot [n] times.  The operands of an operator are evaluated from left to right. *)
From S2P Require Import Prelude StateM Utils.
#[local] Open Scope string_scope.
#[local] Open Scope Z_scope.

Definition VMREG_BIT : Z := 1.
Definition VMREG_INT8 : Z := 2.
Definition VMREG_INT16 : Z := 3.
Definition VMREG_INT32 : Z := 4.
Definition VMREG_INT64 : Z := 5.
Definition VMREG_FLOAT32 : Z := 6.
Definition VMREG_FLOAT64 : Z := 7.

Record vm_reg_t := Reg {
  r_name : string; r_value : Z; r_type : Z; r_get : option string; r_set : option string }.
Record vm_op_t := Op { opcode : string; code : string }.
Record vm_change_t := Change { c_from : Z; c_to : Z; c_data : list Z }.

(** The names the code of this file reads; [None] is [NULL]. *)
Record vm_cpu_t := Cpu { pc : option string; sp : option string; bp : option string; zf : option string }.

(** The memory behind the cache: [radare_read_at] and [radare_write_at] on a state [S].  A read
    gives the contents of the buffer afterwards. *)
Class Memory (S : Type) := {
  mem_read : Z -> list Z -> M S (Z * list Z);
  mem_write : Z -> list Z -> M S Z }.

Record vm_st (S : Type) := VmSt {
  vm_regs : list vm_reg_t;
  vm_cpu : vm_cpu_t;
  vm_ops : list vm_op_t;
  vm_mmu_cache : list vm_change_t;
  realio : bool;
  recur : bool;            (* rec != NULL *)
  mem : S }.
Arguments VmSt {S}. Arguments vm_regs {S}. Arguments vm_cpu {S}. Arguments vm_ops {S}.
Arguments vm_mmu_cache {S}. Arguments realio {S}. Arguments recur {S}. Arguments mem {S}.

(** ** Register types *)
Definition vm_reg_types : list (Z * string) :=
  [(VMREG_BIT, "bit"); (VMREG_INT64, "int64"); (VMREG_INT32, "int32"); (VMREG_INT16, "int16");
   (VMREG_INT8, "int8"); (VMREG_FLOAT32, "float32"); (VMREG_FLOAT64, "float64")].

(** The search stops at the entry [{0, NULL}] only for the type 0; for the others it leaves the
    table.  The name search compares with that entry's null pointer. *)
Definition vm_reg_type (type : Z) : option (option string) :=
  match list_find (fun p => fst p =? type = true) vm_reg_types with
  | Some (_, p) => Some (Some (snd p))
  | None => if type =? 0 then Some None else None
  end.
Definition vm_reg_type_i (str : string) : option Z :=
  (fun p => fst (snd p)) <$> list_find (fun p => String.eqb str (snd p) = true) vm_reg_types.

Definition hex_value (c : ascii) : option Z := let '(v, e) := hex2int 0 c in if e then None else Some v.
Fixpoint scan_hex_digits (acc : Z) (s : string) : Z :=
  match s with
  | String c s' => match hex_value c with Some d => scan_hex_digits (acc * 16 + d) s' | None => acc end
  | EmptyString => acc
  end.
(** [sscanf(str, "0x%llx")] behind the prefix: a sign and another prefix are taken too. *)
Definition scan_llx (s : string) : Z :=
  let s := skip_spaces s in
  let '(neg, s) := match s with
                   | String c s' => if Ascii.eqb c "-" then (true, s') else if Ascii.eqb c "+" then (false, s') else (false, s)
                   | EmptyString => (false, s) end in
  let s := if starts_with "0x" s || starts_with "0X" s then str_drop 2 s else s in
  let v := Z.min (scan_hex_digits 0 s) (2^64 - 1) in
  if neg then u64 (- v) else v.
(** [sscanf(str, "%lld")] on a text that starts with a digit. *)
Definition scan_lld (s : string) : Z := Z.min (atoi_digits 0 s) (2^63 - 1).

Section vm.
Context {St : Type} `{!Memory St}.
(** [config.seek], the variable [vm.realio], and the length [arch_aop] finds at an address. *)
Context (cfg_seek : Z) (cfg_realio : bool) (oplen : Z -> Z) (garbage : list Z).

Notation st_t := (vm_st St).

Definition with_regs (r : list vm_reg_t) (s : st_t) : st_t :=
  VmSt r (vm_cpu s) (vm_ops s) (vm_mmu_cache s) (realio s) (recur s) (mem s).
Definition with_recur (b : bool) (s : st_t) : st_t :=
  VmSt (vm_regs s) (vm_cpu s) (vm_ops s) (vm_mmu_cache s) (realio s) b (mem s).
Definition with_realio (b : bool) (s : st_t) : st_t :=
  VmSt (vm_regs s) (vm_cpu s) (vm_ops s) (vm_mmu_cache s) b (recur s) (mem s).
Definition with_cache (c : list vm_change_t) (s : st_t) : st_t :=
  VmSt (vm_regs s) (vm_cpu s) (vm_ops s) c (realio s) (recur s) (mem s).
Definition with_ops (o : list vm_op_t) (s : st_t) : st_t :=
  VmSt (vm_regs s) (vm_cpu s) o (vm_mmu_cache s) (realio s) (recur s) (mem s).
Definition with_cpu (c : vm_cpu_t) (s : st_t) : st_t :=
  VmSt (vm_regs s) c (vm_ops s) (vm_mmu_cache s) (realio s) (recur s) (mem s).
Definition with_mem (x : St) (s : st_t) : st_t :=
  VmSt (vm_regs s) (vm_cpu s) (vm_ops s) (vm_mmu_cache s) (realio s) (recur s) x.

(** ** Memory *)

Definition vm_mmu_real (set : bool) : M st_t unit := modify (with_realio set).

Definition vm_mmu_cache_write (addr : Z) (buf : list Z) : M st_t Z :=
  do _ <- modify (fun s => with_cache
            (vm_mmu_cache s ++ [Change addr (u64 (addr + Z.of_nat (length buf))) buf]) s) ;;
  ret 0.

Definition cache_hit (addr len : Z) (c : vm_change_t) : bool :=
  (c_from c <=? addr) && (u64 (addr + len) <=? c_to c).

(** The first write that covers the access, from its first byte on. *)
Definition vm_mmu_cache_read (addr : Z) (buf : list Z) (cache : list vm_change_t) : option (list Z) :=
  match list_find (fun c => cache_hit addr (Z.of_nat (length buf)) c = true) cache with
  | Some (_, c) => Some (take (length buf) (c_data c))
  | None => None
  end.

Definition vm_mmu_read (off : Z) (buf : list Z) : M st_t (Z * list Z) := fun st =>
  match (if realio st then None else vm_mmu_cache_read off buf (vm_mmu_cache st)) with
  | Some data => Some ((Z.of_nat (length buf), data), st)
  | None =>
    match mem_read off buf (mem st) with
    | Some (r, m) => Some (r, with_mem m st)
    | None => None
    end
  end.

Definition vm_mmu_write (off : Z) (data : list Z) : M st_t Z := fun st =>
  if realio st then
    match mem_write off data (mem st) with
    | Some (r, m) => Some (r, with_mem m st)
    | None => None
    end
  else vm_mmu_cache_write off data st.

(** ** Registers *)

Definition vm_reg_add (name : string) (type value : Z) : M st_t Z :=
  do _ <- modify (fun s => with_regs (vm_regs s ++ [Reg (String.substring 0 15 name) value type None None]) s) ;;
  ret 1.

(** Position of the first register with the property. *)
Definition find_reg (f : vm_reg_t -> bool) (l : list vm_reg_t) : option (nat * vm_reg_t) :=
  list_find (fun r => f r = true) l.

Definition vm_reg_del (name : string) : M st_t Z :=
  do r <- get (fun s => find_reg (fun r => String.eqb name (r_name r)) (vm_regs s)) ;;
  match r with
  | Some (i, _) => do _ <- modify (fun s => with_regs (delete i (vm_regs s)) s) ;; ret 0
  | None => ret 1
  end.

Definition vm_reg_alias (name : string) (g s : option string) : M st_t Z :=
  do r <- get (fun st => find_reg (fun r => String.eqb name (r_name r)) (vm_regs st)) ;;
  match r with
  | Some (i, _) =>
    do _ <- modify (fun st => with_regs
              (alter (fun r => Reg (r_name r) (r_value r) (r_type r) g s) i (vm_regs st)) st) ;;
    ret 1
  | None => ret 0
  end.

Definition vm_op_add (op str : string) : M st_t Z :=
  do _ <- modify (fun s => with_ops
            (vm_ops s ++ [Op (String.substring 0 32 op) (String.substring 0 1024 str)]) s) ;;
  ret 0.

Definition set_value (v : Z) (r : vm_reg_t) : vm_reg_t := Reg (r_name r) v (r_type r) (r_get r) (r_set r).

(** The name is compared up to its length, without a bracket at its end: a prefix will do. *)
Definition reg_matches (name : string) (r : vm_reg_t) : bool :=
  let len := String.length name in
  let len := match String.get (len - 1) name with
             | Some c => if Ascii.eqb c "]" then (len - 1)%nat else len
             | None => len end in
  starts_with (String.substring 0 len name) (r_name r).

Section eval.
Context (nested : string -> M st_t Z).

Definition vm_reg_get (name : string) : M st_t Z :=
  match name with
  | EmptyString => crash
  | _ =>
    do r <- get (fun s => find_reg (reg_matches name) (vm_regs s)) ;;
    do rc <- get recur ;;
    match r with
    | None => ret (2^64 - 1)
    | Some (i, r) =>
      match rc, r_get r with
      | false, Some g =>
        do _ <- modify (with_recur true) ;;
        do _ <- nested g ;;
        do _ <- modify (with_recur false) ;;
        get (fun s => match vm_regs s !! i with Some r => r_value r | None => 0 end)
      | _, _ => ret (r_value r)
      end
    end
  end.

Definition vm_reg_set (name : string) (value : Z) : M st_t Z :=
  do r <- get (fun s => find_reg (fun r => String.eqb name (r_name r)) (vm_regs s)) ;;
  match r with
  | None => ret 0
  | Some (i, r) =>
    do _ <- modify (fun s => with_regs (alter (set_value value) i (vm_regs s)) s) ;;
    do rc <- get recur ;;
    do _ <- (match rc, r_set r with
             | false, Some g =>
               do _ <- modify (with_recur true) ;;
               do _ <- nested g ;;
               modify (with_recur false)
             | _, _ => ret tt
             end) ;;
    ret 1
  end.

(** A register the processor description names; a null name is dereferenced. *)
Definition cpu_reg (f : vm_cpu_t -> option string) : M st_t string :=
  do n <- get (fun s => f (vm_cpu s)) ;; lift n.

Definition vm_get_value (str : string) : M st_t Z :=
  let str := chop_spaces str in
  if starts_with "$$" str then
    if starts_with "$$$" str then
      do p <- cpu_reg pc ;; do v <- vm_reg_get p ;; ret (u64 (oplen v))
    else ret cfg_seek
  else if starts_with "0x" str then ret (scan_llx (str_drop 2 str))
  else match str with
       | String c _ => if isdigit c then ret (scan_lld str) else vm_reg_get str
       | EmptyString => vm_reg_get str
       end.

Definition vm_binop (op : ascii) (a b : Z) : option Z :=
  if Ascii.eqb op "+" then Some (u64 (a + b))
  else if Ascii.eqb op "-" then Some (u64 (a - b))
  else if Ascii.eqb op "*" then Some (u64 (a * b))
  else if Ascii.eqb op "/" then (if b =? 0 then None else Some (a / b))
  else if Ascii.eqb op "&" then Some (Z.land a b)
  else if Ascii.eqb op "|" then Some (Z.lor a b)
  else if Ascii.eqb op "^" then Some (Z.lxor a b)
  else if Ascii.eqb op "%" then (if b =? 0 then None else Some (a mod b))
  else if Ascii.eqb op ">" then Some (Z.shiftr a (b mod 64))
  else Some (u64 (Z.shiftl a (b mod 64))).

(** The operators in the order they are looked for. *)
Definition math_ops : list ascii := ["+"; "-"; "*"; "/"; "&"; "|"; "^"; "%"; ">"; "<"]%char.

Fixpoint math_loop (ops : list ascii) (str : string) : M st_t Z :=
  match ops with
  | [] => vm_get_value str
  | op :: ops' =>
    match split_at op str with
    | Some (l, r) => do a <- vm_get_value l ;; do b <- vm_get_value r ;; lift (vm_binop op a b)
    | None => math_loop ops' str
    end
  end.
Definition vm_get_math (str : string) : M st_t Z := math_loop math_ops str.

(** ** Stack and calls *)
Definition vm_stack_push (val : Z) : M st_t unit :=
  do s <- cpu_reg sp ;;
  do v <- vm_reg_get s ;;
  do _ <- vm_reg_set s (u64 (v + 4)) ;;
  do v <- vm_reg_get s ;;
  do _ <- vm_mmu_write v (le_bytes 4 (u32 val)) ;;
  ret tt.

Definition zeros (n : nat) : list Z := replicate n 0.

(** A read that succeeds returns at once. *)
Definition vm_stack_pop (reg : string) : M st_t unit :=
  do s <- cpu_reg sp ;;
  do v <- vm_reg_get s ;;
  do r <- vm_mmu_read v (zeros 4) ;;
  if truth r.1 then ret tt
  else
    do v <- vm_reg_get s ;;
    do r <- vm_mmu_read v r.2 ;;
    do _ <- vm_reg_set reg (le_value r.2) ;;
    do v <- vm_reg_get s ;;
    do _ <- vm_reg_set s (u64 (v - 4)) ;;
    ret tt.

Definition vm_cpu_call (addr : Z) : M st_t unit :=
  do p <- cpu_reg pc ;;
  do v <- vm_reg_get p ;;
  do _ <- vm_stack_push v ;;
  do _ <- vm_reg_set p addr ;;
  ret tt.

(** ** Evaluation *)

(** The first operand is not cut off at the separator. *)
Definition vm_eval_cmp (str : string) : M st_t Z :=
  let str := chop_spaces str in
  match (match split_at "," str with Some p => Some p | None => split_at " " str end) with
  | Some (_, r) =>
    do z <- cpu_reg zf ;;
    do a <- vm_get_math str ;;
    do b <- vm_get_math r ;;
    do _ <- vm_reg_set z (u64 (a - b)) ;;
    ret 0
  | None => ret 1
  end.

(** Bytes of an access: the size is given in bits in front of a colon. *)
Definition access_size (size : Z) : nat :=
  if size =? 8 then 1 else if size =? 16 then 2 else if size =? 64 then 8 else 4.

Definition strchr_after (c : ascii) (s : string) : option string := snd <$> split_at c s.

(** [str = val]; both stores through a sized address, and a store from memory to memory, do what
    the code does: the latter writes the value back to where it was read. *)
Definition vm_eval_eq (str val : string) : M st_t Z :=
  let str := chop_spaces str in
  let val := chop_spaces val in
  do _ <- (
    if starts_with "[" str then
      if starts_with "[" val then
        do off <- vm_get_math (str_drop 1 val) ;;
        match strchr_after ":" (str_drop 1 val) with
        | Some p =>
          let n := access_size (atoi (str_drop 1 val)) in
          do off <- vm_get_math p ;;
          do r <- vm_mmu_read off (take n garbage) ;;
          vm_mmu_write off r.2
        | None =>
          do r <- vm_mmu_read off (zeros 4) ;;
          vm_mmu_write off r.2
        end
      else
        do off <- vm_get_math (str_drop 1 str) ;;
        do v <- vm_get_math val ;;
        match strchr_after ":" (str_drop 1 str) with
        | Some p =>
          let n := access_size (atoi (str_drop 1 val)) in
          do off <- vm_get_math p ;;
          vm_mmu_write off (take n garbage)
        | None => vm_mmu_write off (le_bytes 4 (u32 v))
        end
    else
      if starts_with "[" val then
        let inner := match split_at "]" (str_drop 1 val) with Some (l, _) => l | None => str_drop 1 val end in
        match strchr_after ":" inner with
        | Some p =>
          let n := access_size (atoi inner) in
          do off <- vm_get_math p ;;
          do r <- vm_mmu_read off (zeros n) ;;
          vm_reg_set str (le_value r.2)
        | None =>
          do off <- vm_get_math inner ;;
          do r <- vm_mmu_read off (zeros 4) ;;
          vm_reg_set str (le_value r.2)
        end
      else do v <- vm_get_math val ;; vm_reg_set str v) ;;
  ret 0.

(** A space is removed and the character behind it skipped. *)
Fixpoint despace (s : string) : string :=
  match s with
  | EmptyString => EmptyString
  | String c s' =>
    if Ascii.eqb c " " then
      match s' with EmptyString => EmptyString | String d s'' => String d (despace s'') end
    else String c (despace s')
  end.

Fixpoint last_char (s : string) : option ascii :=
  match s with
  | EmptyString => None
  | String c EmptyString => Some c
  | String _ s' => last_char s'
  end.

Definition is_assign_op (c : ascii) : bool :=
  existsb (Ascii.eqb c) ["+"; "-"; "*"; "/"; "&"; "^"; "%"; "|"; "<"; ">"]%char.

Definition but_last (s : string) : string := String.substring 0 (String.length s - 1) s.

(** What follows a text without [=]: the second chain of tests. *)
Definition eval_opcode (ptr str : string) : M st_t unit :=
  if starts_with "syscal" ptr then ret tt
  else if starts_with "call" ptr || starts_with "jmp " ptr then
    do p <- cpu_reg pc ;;
    do _ <- (if starts_with "c" ptr then do v <- vm_get_value p ;; vm_stack_push v else ret tt) ;;
    do v <- vm_get_value (str_drop 4 ptr) ;;
    do _ <- vm_reg_set p v ;; ret tt
  else if starts_with "jz " ptr then
    do z <- vm_reg_get (str_drop 3 ptr) ;;
    if z =? 0 then
      do p <- cpu_reg pc ;; do v <- vm_get_value (str_drop 3 ptr) ;; do _ <- vm_reg_set p v ;; ret tt
    else ret tt
  else if starts_with "jnz " ptr then
    do z <- vm_reg_get (str_drop 4 ptr) ;;
    if z =? 0 then
      do p <- cpu_reg pc ;; do v <- vm_get_value (str_drop 4 ptr) ;; do _ <- vm_reg_set p v ;; ret tt
    else ret tt
  else if starts_with "push " ptr then do v <- vm_get_value (str_drop 5 str) ;; vm_stack_push v
  else if starts_with "pop " str then vm_stack_pop (str_drop 5 str)
  else if starts_with "ret" ptr then do p <- cpu_reg pc ;; vm_stack_pop p
  else ret tt.

Definition vm_eval_single (str : string) : M st_t Z :=
  let str := chop_spaces str in
  let ptr := despace str in
  match split_at "=" ptr with
  | Some (l, r) =>
    match last_char l with
    | None => crash
    | Some op =>
      do _ <- (
        if is_assign_op op then
          let name := but_last l in
          let buf := String.substring 0 126 (name +:+ String op r) in
          vm_eval_eq (take_while (fun c => negb (Ascii.eqb c " ")) name) buf
        else
          let l := if Ascii.eqb op " " then chop_end (fun c => Ascii.eqb c " ") l else l in
          vm_eval_eq l r) ;;
      ret 0
    end
  | None =>
    if starts_with "if " ptr then
      do v <- vm_reg_get (str_drop 3 ptr) ;;
      if negb (v =? 0) then ret (-1) else do _ <- eval_opcode ptr str ;; ret 0
    else if starts_with "ifnot " ptr then
      do v <- vm_reg_get (str_drop 6 ptr) ;;
      if v =? 0 then ret (-1) else do _ <- eval_opcode ptr str ;; ret 0
    else if starts_with "cmp " ptr then
      do _ <- vm_eval_cmp (str_drop 5 str) ;; do _ <- eval_opcode ptr str ;; ret 0
    else ret 0
  end.

(** The expressions between commas. *)
Fixpoint split_commas (s : string) : string * list string :=
  match s with
  | EmptyString => (EmptyString, [])
  | String c s' =>
    let '(w, l) := split_commas s' in
    if Ascii.eqb c "," then (EmptyString, w :: l) else (String c w, l)
  end.

Fixpoint eval_list (first : string) (l : list string) : M st_t Z :=
  do r <- vm_eval_single first ;;
  match l with
  | [] => ret 1
  | next :: l' => if r =? -1 then ret 0 else eval_list next l'
  end.

Definition vm_eval_body (str : string) : M st_t Z :=
  do _ <- vm_mmu_real cfg_realio ;;
  let '(first, l) := split_commas str in eval_list first l.
End eval.

Fixpoint vm_eval (n : nat) (str : string) : M st_t Z :=
  match n with O => crash | S n' => vm_eval_body (vm_eval n') str end.

(** ** Opcodes described by expressions *)

(** [strcpy(p+k, w)] on the buffer cut at [k]. *)
Definition write_str (w : string) (acc rest : list ascii) : list ascii * list ascii :=
  ((acc ++ list_ascii_of_string w)%list, zero :: drop (S (String.length w)) rest).

(** The description [str] from [j] on; the buffer is [acc] up to [k] and [rest] behind.  An
    argument is missing when there are not enough words: [None].  The first result is false for
    an invalid description. *)
Fixpoint subst_loop (ws : list string) (str : string) (acc rest : list ascii) : option (bool * list ascii) :=
  match str with
  | EmptyString => Some (true, acc)
  | String c s1 =>
    if Ascii.eqb c "$" then
      match s1 with
      | EmptyString => Some (false, acc)
      | String d s2 =>
        if Ascii.eqb d "$" then
          match s2 with
          | String e s3 =>
            if Ascii.eqb e "$" then
              let '(acc, rest) := write_str (fmt_d (s32 (oplen cfg_seek))) acc rest in subst_loop ws s3 acc rest
            else let '(acc, rest) := write_str ("0x" +:+ fmt_x0 8 cfg_seek) acc rest in subst_loop ws s2 acc rest
          | EmptyString => let '(acc, rest) := write_str ("0x" +:+ fmt_x0 8 cfg_seek) acc rest in subst_loop ws s2 acc rest
          end
        else if isdigit d then
          match get0word ws (Z.to_nat (ord d - 48)) with
          | Some w => let '(acc, rest) := write_str w acc rest in subst_loop ws s2 acc rest
          | None => None
          end
        else
          match rest with
          | x :: rest' => subst_loop ws s2 (acc ++ [x])%list rest'
          | [] => None
          end
      end
    else subst_loop ws s1 (acc ++ [c])%list (tail rest)
  end.

(** A C string of a buffer. *)
Definition c_str (l : list ascii) : string := take_while (fun c => negb (Ascii.eqb c zero)) (string_of_list_ascii l).

(** The buffer has room for 127 characters more than the description. *)
Definition op_subst (ws : list string) (o : vm_op_t) : option (bool * string) :=
  match subst_loop ws (code o) [] (list_ascii_of_string (code o) ++ [zero])%list with
  | Some (ok, l) =>
    if (length l <? String.length (code o) + 128)%nat then Some (ok, c_str l) else None
  | None => None
  end.

(** The last opcode of the name counts. *)
Fixpoint op_loop (ws : list string) (arg0 p : string) (ops : list vm_op_t) : option (bool * string) :=
  match ops with
  | [] => Some (true, p)
  | o :: ops' =>
    if String.eqb arg0 (opcode o) then
      match op_subst ws o with
      | Some (true, p') => op_loop ws arg0 p' ops'
      | r => r
      end
    else op_loop ws arg0 p ops'
  end.

Definition vm_op_eval (n : nat) (str : string) : M st_t Z :=
  do ws <- lift (set0word str) ;;
  do arg0 <- lift (get0word ws 0) ;;
  do ops <- get vm_ops ;;
  do r <- lift (op_loop ws arg0 str ops) ;;
  if r.1 : bool then vm_eval n r.2 else ret 0.

Definition vm_cmd_op (op : string) : M st_t Z :=
  let op := match op with String c s => if Ascii.eqb c " " then s else op | EmptyString => op end in
  match split_at " " op with
  | Some (name, body) => do _ <- vm_op_add name body ;; ret 0
  | None => ret 0
  end.

(** ** Initialisation *)
Definition x86_ops : list (string * string) :=
  [("mov", "$1=$2"); ("lea", "$1=$2"); ("add", "$1=$1+$2"); ("sub", "$1=$1-$2"); ("jmp", "eip=$1");
   ("push", "esp=esp-4,[esp]=$1"); ("pop", "$1=[esp],esp=esp+4");
   ("call", "esp=esp-4,[esp]=eip+$$$,eip=$1"); ("ret", "eip=[esp],esp=esp+4")].

(** The registers in the order they are added, with the aliases set right behind some of them. *)
Definition x86_regs : list (string * Z * option (string * string)) :=
  [("eax", VMREG_INT32, None);
   ("ax", VMREG_INT16, Some ("ax=eax&0xffff", "eax=eax>16,eax=eax<16,eax=eax|ax"));
   ("al", VMREG_INT8, Some ("al=eax&0xff", "al=al&0xff,eax=eax>16,eax=eax<16,eax=eax|al"));
   ("ah", VMREG_INT8, Some ("ah=eax&0xff00,ah=ah>8", "eax=eax&0xFFFF00ff,ah=ah<8,eax=eax|ah,ah=ah>8"));
   ("ebx", VMREG_INT32, None); ("ecx", VMREG_INT32, None); ("edx", VMREG_INT32, None);
   ("esi", VMREG_INT32, None); ("edi", VMREG_INT32, None); ("eip", VMREG_INT32, None);
   ("esp", VMREG_INT32, None); ("ebp", VMREG_INT32, None); ("zf", VMREG_BIT, None); ("cf", VMREG_BIT, None)].

Fixpoint seq_all {A} (f : A -> M st_t Z) (l : list A) : M st_t unit :=
  match l with [] => ret tt | a :: l' => do _ <- f a ;; seq_all f l' end.

Definition add_x86_reg (r : string * Z * option (string * string)) : M st_t Z :=
  let '(name, type, alias) := r in
  do _ <- vm_reg_add name type 0 ;;
  match alias with Some (g, s) => vm_reg_alias name (Some g) (Some s) | None => ret 1 end.

(** [vm_arch] is never assigned, so every call initialises. *)
Definition vm_init (x86 : bool) : M st_t Z :=
  do _ <- modify (fun s => VmSt [] (Cpu None None None None) [] [] (realio s) (recur s) (mem s)) ;;
  do _ <- vm_mmu_real cfg_realio ;;
  if x86 then
    do _ <- seq_all (fun p => vm_op_add (fst p) (snd p)) x86_ops ;;
    do _ <- seq_all add_x86_reg x86_regs ;;
    do _ <- modify (with_cpu (Cpu (Some "eip") (Some "esp") (Some "ebp") (Some "zf"))) ;;
    ret 0
  else ret 0.

(** [get_offset] gives the value of a name. *)
Definition vm_import (get_offset : string -> Z) (vm : bool) : M st_t Z :=
  do _ <- modify (fun s => with_regs ((fun r => set_value (get_offset
            (if vm then String.substring 0 62 ("vm." +:+ r_name r) else r_name r)) r) <$> vm_regs s) s) ;;
  ret 0.
End vm.
