(* ===== verification/VmSpec.v ===== *)
(** * Properties of the virtual machine

    Theorems about [Vm]: the recursion through register aliases is one deep, the write cache
    answers a read from its oldest covering write, the described [push] and [pop] are inverse on
    any memory that reads back what was written, and writing [al] loses [ah]. *)
From S2P Require Import Prelude StateM Sections Io IoPlugins Rio RioSpec Utils Vm.
#[local] Open Scope string_scope.
#[local] Open Scope Z_scope.

(** ** The evaluators of aliases that agree make evaluators that agree *)
Section agree.
Context {St : Type} `{!Memory St} (cfg_seek : Z) (cfg_realio : bool) (oplen : Z -> Z) (garbage : list Z).
Notation st_t := (vm_st St).
Context (P : st_t -> Prop) (n1 n2 : string -> M st_t Z).
Context (P_regs : forall f st, P st -> P (with_regs (f st) st)) (P_mem : forall x st, P st -> P (with_mem x st))
  (P_cache : forall c st, P st -> P (with_cache c st)) (P_realio : forall b st, P st -> P (with_realio b st)).
Context (reg_get_agree : forall name, agree_on P (vm_reg_get n1 name) (vm_reg_get n2 name))
  (reg_set_agree : forall name v, agree_on P (vm_reg_set n1 name v) (vm_reg_set n2 name v)).

(** Goes through a computation; what remains is about the calls below. *)
Ltac agree_tac := cbv zeta; repeat lazymatch goal with
  | |- agree_on _ (bind _ _) _ => apply agree_bind; [|intros ?]
  | |- agree_on _ (match ?x with _ => _ end) _ => destruct x
  | |- agree_on _ (modify _) _ => apply agree_modify; intros ? ?
  | |- agree_on _ _ _ => solve [eauto 1 with agree nocore]
  | |- P _ => solve [eauto]
  end.

Lemma mmu_read_agree off buf : agree_on P (vm_mmu_read off buf) (vm_mmu_read (St:=St) off buf).
Proof.
  intros st H. split; [done|]. unfold vm_mmu_read. intros a st'.
  destruct (if realio st then None else _); [by intros [= <- <-]|].
  destruct (mem_read off buf (mem st)) as [[r m]|]; [|done]. intros [= <- <-]. by apply P_mem.
Qed.

Lemma mmu_write_agree off data : agree_on P (vm_mmu_write off data) (vm_mmu_write (St:=St) off data).
Proof.
  intros st H. split; [done|]. unfold vm_mmu_write. intros a st'. destruct (realio st).
  - destruct (mem_write off data (mem st)) as [[r m]|]; [|done]. intros [= <- <-]. by apply P_mem.
  - unfold vm_mmu_cache_write, bind, modify, ret. intros [= <- <-]. by apply P_cache.
Qed.

#[local] Hint Resolve mmu_read_agree mmu_write_agree reg_get_agree reg_set_agree : agree.

Lemma cpu_reg_agree f : agree_on P (cpu_reg f) (cpu_reg (St:=St) f).
Proof. unfold cpu_reg. agree_tac. Qed.
#[local] Hint Resolve cpu_reg_agree : agree.

Lemma get_value_agree str : agree_on P (vm_get_value cfg_seek oplen n1 str) (vm_get_value cfg_seek oplen n2 str).
Proof. unfold vm_get_value. agree_tac. Qed.
#[local] Hint Resolve get_value_agree : agree.

Lemma get_math_agree str : agree_on P (vm_get_math cfg_seek oplen n1 str) (vm_get_math cfg_seek oplen n2 str).
Proof.
  unfold vm_get_math. induction math_ops as [|op ops IH]; cbn [math_loop]; [auto with agree|].
  destruct (split_at op str) as [[l r]|]; [|done]. agree_tac.
Qed.
#[local] Hint Resolve get_math_agree : agree.

Lemma stack_push_agree v : agree_on P (vm_stack_push n1 v) (vm_stack_push n2 v).
Proof. unfold vm_stack_push. agree_tac. Qed.
Lemma stack_pop_agree r : agree_on P (vm_stack_pop n1 r) (vm_stack_pop n2 r).
Proof. unfold vm_stack_pop. agree_tac. Qed.
Lemma eval_eq_agree str val :
  agree_on P (vm_eval_eq cfg_seek oplen garbage n1 str val) (vm_eval_eq cfg_seek oplen garbage n2 str val).
Proof. unfold vm_eval_eq. agree_tac. Qed.
Lemma eval_cmp_agree str : agree_on P (vm_eval_cmp cfg_seek oplen n1 str) (vm_eval_cmp cfg_seek oplen n2 str).
Proof. unfold vm_eval_cmp. agree_tac. Qed.
#[local] Hint Resolve stack_push_agree stack_pop_agree eval_eq_agree eval_cmp_agree : agree.

Lemma eval_opcode_agree ptr str :
  agree_on P (eval_opcode cfg_seek oplen n1 ptr str) (eval_opcode cfg_seek oplen n2 ptr str).
Proof. unfold eval_opcode. agree_tac. Qed.
#[local] Hint Resolve eval_opcode_agree : agree.

Lemma eval_single_agree str :
  agree_on P (vm_eval_single cfg_seek oplen garbage n1 str) (vm_eval_single cfg_seek oplen garbage n2 str).
Proof. unfold vm_eval_single. agree_tac. Qed.
#[local] Hint Resolve eval_single_agree : agree.

Lemma eval_body_agree str :
  agree_on P (vm_eval_body cfg_seek cfg_realio oplen garbage n1 str)
             (vm_eval_body cfg_seek cfg_realio oplen garbage n2 str).
Proof.
  unfold vm_eval_body, vm_mmu_real. apply agree_bind; [agree_tac|intros _].
  destruct (split_commas str) as [first l]. revert first.
  induction l as [|next l IH]; intros first; cbn [eval_list]; agree_tac.
Qed.
End agree.

Section depth.
Context {St : Type} `{!Memory St} (cfg_seek : Z) (cfg_realio : bool) (oplen : Z -> Z) (garbage : list Z).
Notation st_t := (vm_st St).
Notation eval := (vm_eval cfg_seek cfg_realio oplen garbage).

Definition inside (st : st_t) : Prop := recur st = true.

(** Inside an alias the nested evaluator is not called. *)
Lemma reg_get_inside n1 n2 name : agree_on inside (vm_reg_get n1 name) (vm_reg_get n2 name).
Proof.
  unfold vm_reg_get. intros st H. destruct name as [|c name]; [done|]. rewrite !bind_get. split.
  - by rewrite H.
  - intros a st'. rewrite H. destruct (find_reg _ _) as [[i r]|]; [destruct (r_get r)|]; by intros [= <- <-].
Qed.

Lemma reg_set_inside n1 n2 name v : agree_on inside (vm_reg_set n1 name v) (vm_reg_set n2 name v).
Proof.
  unfold vm_reg_set. intros st H. rewrite !bind_get. destruct (find_reg _ _) as [[i r]|].
  2: { split; [done|]. by intros ? ? [= <- <-]. }
  unfold bind, modify, get, ret. cbn. rewrite H. split; [done|]. by intros ? ? [= <- <-].
Qed.

Lemma eval_S n str : eval (S n) str = vm_eval_body cfg_seek cfg_realio oplen garbage (eval n) str.
Proof. reflexivity. Qed.

Lemma eval_inside n m str : agree_on inside (eval (S n) str) (eval (S m) str).
Proof.
  apply (eval_body_agree cfg_seek cfg_realio oplen garbage inside); [done..|intros name|intros name v];
    [apply reg_get_inside|apply reg_set_inside].
Qed.

Definition everywhere (_ : st_t) : Prop := True.

Lemma reg_get_everywhere n1 n2 name : (forall g, agree_on inside (n1 g) (n2 g)) ->
  agree_on everywhere (vm_reg_get n1 name) (vm_reg_get n2 name).
Proof.
  intros Hn st _. split; [|done]. unfold vm_reg_get. destruct name; [done|]. rewrite !bind_get.
  destruct (find_reg _ _) as [[i r]|]; [|done]. destruct (recur st), (r_get r) as [g|]; try done.
  unfold bind, modify. by rewrite (proj1 (Hn g (with_recur true st) eq_refl)).
Qed.

Lemma reg_set_everywhere n1 n2 name v : (forall g, agree_on inside (n1 g) (n2 g)) ->
  agree_on everywhere (vm_reg_set n1 name v) (vm_reg_set n2 name v).
Proof.
  intros Hn st _. split; [|done]. unfold vm_reg_set. rewrite !bind_get.
  destruct (find_reg _ _) as [[i r]|]; [|done]. unfold bind, modify, get. cbn [recur with_regs].
  destruct (recur st), (r_set r) as [g|]; try done.
  by rewrite (proj1 (Hn g (with_recur true _) eq_refl)).
Qed.

(** The evaluation of a text and of the aliases of its registers. *)
Definition eval_depth : nat := 2.

(** The guard [rec] ends the recursion of the evaluator through the aliases of the registers: two
    levels of evaluation give the result of any number of them, for every text and every aliases. *)
Theorem vm_eval_two_levels n str st :
  vm_eval cfg_seek cfg_realio oplen garbage (eval_depth + n) str st = vm_eval cfg_seek cfg_realio oplen garbage eval_depth str st.
Proof.
  assert (agree_on everywhere (eval (S (S n)) str) (eval 2 str)) as H; [|exact (proj1 (H st I))].
  rewrite (eval_S (S n) str), (eval_S 1 str).
  apply (eval_body_agree cfg_seek cfg_realio oplen garbage everywhere (eval (S n)) (eval 1));
    [exact (fun _ _ _ => I)..|intros name|intros name v].
  - apply reg_get_everywhere. intros g. apply eval_inside.
  - apply reg_set_everywhere. intros g. apply eval_inside.
Qed.
End depth.

(** ** The x86 machine *)

(** A memory that reads back what was written at an offset it accepts. *)
Class MemoryLaws (S : Type) `{Memory S} (mem_ok : Z -> nat -> S -> Prop) :=
  write_read : forall off d b m, mem_ok off (length d) m -> length b = length d ->
    exists r m1 r2 m2, mem_write off d m = Some (r, m1) /\ mem_read off b m1 = Some ((r2, d), m2).

Section x86.
Context {St : Type} `{!Memory St} (cfg_seek : Z) (oplen : Z -> Z) (garbage : list Z).

(** The machine [vm_init] builds, with the value [val r] in the register [r]. *)
Definition x86_state (val : string -> Z) (rio : bool) (cache : list vm_change_t) (m : St) : vm_st St :=
  VmSt ((fun '(name, type, alias) => Reg name (val name) type (fst <$> alias) (snd <$> alias)) <$> x86_regs)
    (Cpu (Some "eip") (Some "esp") (Some "ebp") (Some "zf"))
    ((fun p => Op (fst p) (snd p)) <$> x86_ops) cache rio false m.

(** The registers without aliases that are not the machine's own. *)
Definition plain_regs : list string := ["eax"; "ebx"; "ecx"; "edx"; "esi"; "edi"; "ebp"].

Ltac by_cases_of_regs tac :=
  let q := fresh in let H := fresh in intros q H; repeat (destruct H as [<-|H]; [tac|]); destruct H.

Definition upd (r : string) (v : Z) (val : string -> Z) : string -> Z := fun n => if String.eqb n r then v else val n.

Lemma x86_state_init rio st :
  vm_init rio true st = Some (0, x86_state (fun _ => 0) rio [] (mem st)) \/ recur st = true.
Proof. destruct st as [? ? ? ? ? [] ?]; [by right|left]. reflexivity. Qed.

(** Runs the machine on a concrete text with symbolic values. *)
Ltac vm_run := cbv -[Z.land Z.lor Z.lxor Z.shiftr Z.shiftl Z.add Z.sub Z.mul Z.modulo Z.min
  scan_lld scan_llx u64 u32 le_bytes le_value mem_read mem_write].

Notation op rio n str st := (vm_op_eval cfg_seek rio oplen garbage n str st).
Notation ev rio n str st := (vm_eval cfg_seek rio oplen garbage n str st).
Notation single nested str st := (vm_eval_single cfg_seek oplen garbage nested str st).

(** *** The expressions of [push] and [pop] *)
Section single.
Context (nested : string -> M (vm_st St) Z) (val : string -> Z) (rio : bool) (cache : list vm_change_t) (m : St).

Lemma single_esp_sub : single nested "esp=esp-4" (x86_state val rio cache m) =
  Some (0, x86_state (upd "esp" (u64 (val "esp" - 4)) val) rio cache m).
Proof. change 4 with (scan_lld "4"). vm_run. reflexivity. Qed.

Lemma single_esp_add : single nested "esp=esp+4" (x86_state val rio cache m) =
  Some (0, x86_state (upd "esp" (u64 (val "esp" + 4)) val) rio cache m).
Proof. change 4 with (scan_lld "4"). vm_run. reflexivity. Qed.

Lemma single_store q r st' : In q plain_regs ->
  vm_mmu_write (val "esp") (le_bytes 4 (u32 (val q))) (x86_state val rio cache m) = Some (r, st') ->
  single nested ("[esp]=" +:+ q) (x86_state val rio cache m) = Some (0, st').
Proof.
  intros Hq H. transitivity (match vm_mmu_write (val "esp") (le_bytes 4 (u32 (val q))) (x86_state val rio cache m) with
                             | Some (_, st') => Some (0, st') | None => None end); [clear H|by rewrite H].
  revert q Hq. by_cases_of_regs ltac:(cbv -[vm_mmu_write le_bytes u32]; by destruct (vm_mmu_write _ _ _) as [[? ?]|]).
Qed.

Lemma reg_set_plain q v : In q plain_regs ->
  vm_reg_set nested q v (x86_state val rio cache m) = Some (1, x86_state (upd q v val) rio cache m).
Proof. revert q. by_cases_of_regs ltac:(vm_run; reflexivity). Qed.

Lemma single_load q n d m' : In q plain_regs ->
  vm_mmu_read (val "esp") (zeros 4) (x86_state val rio cache m) = Some ((n, d), x86_state val rio cache m') ->
  single nested (q +:+ "=[esp]") (x86_state val rio cache m) =
    match vm_reg_set nested q (le_value d) (x86_state val rio cache m') with
    | Some (_, st') => Some (0, st') | None => None end.
Proof.
  intros Hq H. transitivity (match vm_mmu_read (val "esp") (zeros 4) (x86_state val rio cache m) with
    | Some ((_, d), st') => match vm_reg_set nested q (le_value d) st' with Some (_, st') => Some (0, st') | None => None end
    | None => None end); [clear H|by rewrite H].
  revert q Hq. by_cases_of_regs ltac:(cbv -[vm_mmu_read vm_reg_set le_value];
    destruct (vm_mmu_read _ _ _) as [[[? ?] ?]|]; [|done]; by destruct (vm_reg_set _ _ _) as [[? ?]|]).
Qed.
End single.

(** *** The opcodes *)

Lemma eval_two rio n str e1 e2 st st1 r st2 :
  split_commas str = (e1, [e2]) ->
  single (vm_eval cfg_seek rio oplen garbage n) e1 (with_realio rio st) = Some (0, st1) ->
  single (vm_eval cfg_seek rio oplen garbage n) e2 st1 = Some (r, st2) ->
  ev rio (S n) str st = Some (1, st2).
Proof.
  intros Hs H1 H2. rewrite eval_S. unfold vm_eval_body, vm_mmu_real. rewrite Hs.
  unfold bind at 1, modify. cbn [eval_list]. rewrite (bind_Some _ _ _ _ _ H1). change (0 =? -1) with false. cbv iota.
  by rewrite (bind_Some _ _ _ _ _ H2).
Qed.

Lemma op_push q rio n val cache m st' r : In q plain_regs ->
  vm_mmu_write (u64 (val "esp" - 4)) (le_bytes 4 (u32 (val q)))
    (x86_state (upd "esp" (u64 (val "esp" - 4)) val) rio cache m) = Some (r, st') ->
  op rio (S n) ("push " +:+ q) (x86_state val rio cache m) = Some (1, st').
Proof.
  intros Hq Hw. transitivity (ev rio (S n) ("esp=esp-4,[esp]=" +:+ q) (x86_state val rio cache m)).
  { clear Hw. revert q Hq. by_cases_of_regs ltac:(cbv -[vm_eval]; reflexivity). }
  apply (eval_two rio n _ "esp=esp-4" ("[esp]=" +:+ q)) with (st1 := x86_state (upd "esp" (u64 (val "esp" - 4)) val) rio cache m) (r:=0).
  - clear Hw. revert q Hq. by_cases_of_regs ltac:(reflexivity).
  - apply single_esp_sub.
  - apply single_store with (r := r); [done|]. change (upd "esp" (u64 (val "esp" - 4)) val "esp") with (u64 (val "esp" - 4)).
    assert (upd "esp" (u64 (val "esp" - 4)) val q = val q) as ->; [|done].
    clear Hw. revert q Hq. by_cases_of_regs ltac:(reflexivity).
Qed.

Lemma op_pop q rio n val cache m k d m' : In q plain_regs ->
  vm_mmu_read (val "esp") (zeros 4) (x86_state val rio cache m) = Some ((k, d), x86_state val rio cache m') ->
  op rio (S n) ("pop " +:+ q) (x86_state val rio cache m) =
    Some (1, x86_state (upd "esp" (u64 (val "esp" + 4)) (upd q (le_value d) val)) rio cache m').
Proof.
  intros Hq Hr. transitivity (ev rio (S n) (q +:+ "=[esp],esp=esp+4") (x86_state val rio cache m)).
  { clear Hr. revert q Hq. by_cases_of_regs ltac:(cbv -[vm_eval]; reflexivity). }
  apply (eval_two rio n _ (q +:+ "=[esp]") "esp=esp+4") with (st1 := x86_state (upd q (le_value d) val) rio cache m') (r:=0).
  - clear Hr. revert q Hq. by_cases_of_regs ltac:(reflexivity).
  - change (with_realio rio (x86_state val rio cache m)) with (x86_state val rio cache m).
    rewrite (single_load _ val rio cache m q k d m') by done. by rewrite reg_set_plain.
  - rewrite single_esp_add. do 3 f_equal.
    assert (upd q (le_value d) val "esp" = val "esp") as ->; [|done].
    clear Hr. revert q Hq. by_cases_of_regs ltac:(reflexivity).
Qed.

Lemma le_value_u32 v : le_value (le_bytes 4 (u32 v)) = u32 v.
Proof. apply le_value_bytes. unfold u32. apply Z.mod_pos_bound. done. Qed.

Lemma esp_back v : 0 <= v < 2 ^ 64 -> u64 (u64 (v - 4) + 4) = v.
Proof. intros Hv. unfold u64. rewrite Zplus_mod_idemp_l, Z.sub_add. by apply Z.mod_small. Qed.

(** On a memory that reads back what was written, the expressions of [push] and [pop] are inverse:
    the second register gets the low 32 bits of the first, the stack pointer returns, and no other
    register changes. *)
Theorem push_pop_roundtrip mem_ok (L : MemoryLaws St mem_ok) q q' n val m :
  In q plain_regs -> In q' plain_regs -> 0 <= val "esp" < 2 ^ 64 -> mem_ok (u64 (val "esp" - 4)) 4%nat m ->
  exists st1 val' m',
    op true (S n) ("push " +:+ q) (x86_state val true [] m) = Some (1, st1) /\
    op true (S n) ("pop " +:+ q') st1 = Some (1, x86_state val' true [] m') /\
    forall r, val' r = if String.eqb r q' then u32 (val q) else val r.
Proof.
  intros Hq Hq' He Hok. set (a := u64 (val "esp" - 4)) in *. set (d := le_bytes 4 (u32 (val q))).
  destruct (write_read a d (zeros 4) m) as (r & m1 & r2 & m2 & Hw & Hr); [by unfold d; rewrite le_bytes_length..|].
  exists (x86_state (upd "esp" a val) true [] m1), (upd "esp" (val "esp") (upd q' (u32 (val q)) (upd "esp" a val))), m2.
  split; [|split].
  - apply (op_push q true n val [] m _ r Hq). unfold vm_mmu_write. cbn [realio x86_state mem]. fold a d. by rewrite Hw.
  - rewrite (op_pop q' true n _ [] m1 r2 d m2 Hq').
    + change (upd "esp" a val "esp") with a. unfold d. rewrite le_value_u32. by replace (u64 (a + 4)) with (val "esp") by (symmetry; by apply esp_back).
    + unfold vm_mmu_read. cbn [realio x86_state mem]. change (upd "esp" a val "esp") with a. by rewrite Hr.
  - intros r0. unfold upd. destruct (String.eqb_spec r0 "esp") as [->|]; [|done].
    revert q' Hq'. by_cases_of_regs ltac:(reflexivity).
Qed.

(** *** The write cache *)

Lemma cache_read_first a d c : length d = 4%nat ->
  vm_mmu_cache_read a (zeros 4) (Change a (u64 (a + 4)) d :: c) = Some d.
Proof.
  intros Hd. unfold vm_mmu_cache_read, cache_hit. cbn [list_find]. rewrite decide_True.
  - by destruct d as [|? [|? [|? [|? [|? ?]]]]].
  - cbn. by rewrite !Z.leb_refl.
Qed.

(** The bytes at the stack pointer are cached by the first [push] and served from then on. *)
Lemma op_push_cache q n val cache m : In q plain_regs ->
  op false (S n) ("push " +:+ q) (x86_state val false cache m) =
    Some (1, x86_state (upd "esp" (u64 (val "esp" - 4)) val) false
               (cache ++ [Change (u64 (val "esp" - 4)) (u64 (u64 (val "esp" - 4) + 4)) (le_bytes 4 (u32 (val q)))])%list m).
Proof. intros Hq. eapply (op_push q false n val cache m _ 0 Hq). reflexivity. Qed.

Lemma op_pop_cache q n val a d cache m : In q plain_regs -> length d = 4%nat -> val "esp" = a ->
  op false (S n) ("pop " +:+ q) (x86_state val false (Change a (u64 (a + 4)) d :: cache) m) =
    Some (1, x86_state (upd "esp" (u64 (a + 4)) (upd q (le_value d) val)) false (Change a (u64 (a + 4)) d :: cache) m).
Proof.
  intros Hq Hd <-. apply (op_pop q false n val _ m 4 d m Hq). unfold vm_mmu_read. cbn [realio x86_state vm_mmu_cache].
  by rewrite cache_read_first.
Qed.

(** With the write cache a stack slot keeps the first value pushed: after two pairs of a push and a
    pop the second pop gives the value of the first push again, and the memory is untouched. *)
Theorem cache_keeps_first_push a b c d n val m :
  In a plain_regs -> In b plain_regs -> In c plain_regs -> In d plain_regs -> 0 <= val "esp" < 2 ^ 64 ->
  exists st1 st2 st3 val' cache,
    op false (S n) ("push " +:+ a) (x86_state val false [] m) = Some (1, st1) /\
    op false (S n) ("pop " +:+ b) st1 = Some (1, st2) /\
    op false (S n) ("push " +:+ c) st2 = Some (1, st3) /\
    op false (S n) ("pop " +:+ d) st3 = Some (1, x86_state val' false cache m) /\
    val' d = u32 (val a) /\ val' "esp" = val "esp".
Proof.
  intros Ha Hb Hc Hd He. set (s := u64 (val "esp" - 4)). set (w := le_bytes 4 (u32 (val a))).
  assert (length w = 4%nat) as Hw by apply le_bytes_length.
  assert (u64 (s + 4) = val "esp") as Hs by by apply esp_back.
  eexists _, _, _, _, _. split; [by apply op_push_cache|]. fold s w. cbn [app].
  split; [by apply op_pop_cache|]. split; [by apply op_push_cache|].
  set (val2 := upd "esp" (u64 (s + 4)) (upd b (le_value w) (upd "esp" s val))).
  assert (u64 (val2 "esp" - 4) = s) as E by (unfold val2, upd; cbn; by rewrite Hs).
  rewrite !E. cbn [app]. split; [by apply op_pop_cache|]. rewrite Hs. split.
  - unfold upd at 1. destruct (String.eqb_spec d "esp") as [->|].
    + revert Hd. cbn. intuition discriminate.
    + unfold upd. rewrite String.eqb_refl. apply le_value_u32.
  - reflexivity.
Qed.

(** *** Byte registers *)

Lemma eval_set_al q val rio cache m : In q plain_regs ->
  ev rio 2%nat ("al=" +:+ q) (x86_state val rio cache m) =
    Some (1, x86_state (upd "eax" (Z.lor (u64 (Z.shiftl (Z.shiftr (val "eax") (16 mod 64)) (16 mod 64))) (Z.land (val q) 0xff))
                       (upd "al" (Z.land (val q) 0xff) val)) rio cache m).
Proof.
  change 16 with (scan_lld "16"). change 0xff with (scan_llx "ff"). revert q.
  by_cases_of_regs ltac:(vm_run; reflexivity).
Qed.

Lemma eval_get_ah val rio cache m : exists st',
  vm_reg_get (vm_eval cfg_seek rio oplen garbage 1) "ah" (x86_state val rio cache m) =
    Some (Z.shiftr (Z.land (val "eax") 0xff00) (8 mod 64), st').
Proof. change 8 with (scan_lld "8"). change 0xff00 with (scan_llx "ff00"). eexists. vm_run. reflexivity. Qed.

(** The parts of a register whose low half is replaced by a byte. *)
Lemma low_byte_merge x b : 0 <= x < 2 ^ 32 -> 0 <= b < 256 ->
  let y := Z.lor (u64 (Z.shiftl (Z.shiftr x 16) 16)) b in
  y / 2 ^ 16 = x / 2 ^ 16 /\ y mod 2 ^ 16 = b /\ y / 2 ^ 8 mod 2 ^ 8 = 0.
Proof.
  intros Hx Hb. cbv zeta. rewrite Z.shiftl_mul_pow2, Z.shiftr_div_pow2 by lia.
  assert (0 <= x / 2 ^ 16 < 2 ^ 16) by (split; [apply Z.div_pos; lia|apply Z.div_lt_upper_bound; lia]).
  unfold u64. rewrite Z.mod_small by lia.
  rewrite (lor_add 16) by lia. split_and!.
  - rewrite Z.div_add_l, (Z.div_small b) by lia. lia.
  - rewrite Z.add_comm, Z.mod_add by lia. apply Z.mod_small. lia.
  - change (2 ^ 16) with (2 ^ 8 * 2 ^ 8) at 2. rewrite Z.mul_assoc, Z.div_add_l, (Z.div_small b), Z.add_0_r by lia.
    by apply Z.mod_mul.
Qed.

(** Writing a byte into [al] sets the low byte of [eax] and keeps its upper half, but clears the
    byte [ah] that lies between. *)
Theorem al_clobbers_ah q val rio cache m : In q plain_regs -> 0 <= val "eax" < 2 ^ 32 ->
  exists val' st',
    ev rio 2%nat ("al=" +:+ q) (x86_state val rio cache m) = Some (1, x86_state val' rio cache m) /\
    val' "eax" / 2 ^ 16 = val "eax" / 2 ^ 16 /\ val' "eax" mod 2 ^ 16 = val q mod 256 /\
    vm_reg_get (vm_eval cfg_seek rio oplen garbage 1) "ah" (x86_state val' rio cache m) = Some (0, st').
Proof.
  intros Hq He. destruct (low_byte_merge (val "eax") (val q mod 256) He) as (Hh & Hl & Hz); [by apply Z.mod_pos_bound|].
  eexists. destruct (eval_get_ah (upd "eax" (Z.lor (u64 (Z.shiftl (Z.shiftr (val "eax") (16 mod 64)) (16 mod 64))) (Z.land (val q) 0xff))
                       (upd "al" (Z.land (val q) 0xff) val)) rio cache m) as [st' Hg].
  exists st'. split; [by apply eval_set_al|]. change (upd "eax" ?v _ "eax") with v in *. change (16 mod 64) with 16 in *.
  change 0xff with (Z.ones 8) in *. rewrite Z.land_ones in * by lia. change (2 ^ 8) with 256 in *.
  split; [exact Hh|]. split; [exact Hl|]. rewrite Hg. do 2 f_equal.
  change 0xff00 with (Z.shiftl (Z.ones 8) 8). change (8 mod 64) with 8.
  rewrite Z.shiftr_land, Z.shiftr_shiftl_l, Z.sub_diag, Z.shiftl_0_r, Z.land_ones, Z.shiftr_div_pow2 by lia. exact Hz.
Qed.
End x86.

(** ** The memory of the program: [radare_read_at] and [radare_write_at] *)
Section rio.
Context {W : Type} (plugins : list (plugin_t W)) (os_pread : Z -> Z -> Z -> option (list Z))
  (fresh : nat -> list Z) (x : Z) {HD : Disk plugins x}.
(** The low bits of an address a plugin returns instead of a count. *)
Context (addr_int : Z).
Hypothesis fresh_length : forall n, length (fresh n) = n.

Definition ssize_int (r : ssize_t) : Z := match r with Num n => n | Addr => addr_int end.

Definition rio_memory : Memory (radare_st W) := {|
  mem_read off buf := do r <- radare_read_at plugins os_pread off buf ;; ret (ssize_int r.1, r.2);
  mem_write off data := do r <- radare_write_at plugins os_pread fresh off data ;; ret (ssize_int r) |}.

Definition rio_ok (off : Z) (n : nat) (st : radare_st W) : Prop :=
  plain plugins x st /\ 0 <= off /\ off + Z.of_nat n <= size (conf st).

Lemma rio_memory_laws : MemoryLaws (H:=rio_memory) (radare_st W) rio_ok.
Proof.
  intros off d b st (Hp & Ho & Hl) Hb.
  destruct (write_read_plain plugins os_pread fresh x fresh_length st off d b Hp Ho Hl Hb)
    as (r & st1 & r2 & st2 & Hw & Hr & _).
  exists (ssize_int r), st1, (ssize_int r2), st2. cbn [mem_read mem_write rio_memory]. split.
  - by rewrite (bind_Some _ _ _ _ _ Hw).
  - by rewrite (bind_Some _ _ _ _ _ Hr).
Qed.
End rio.

(** ** Witnesses *)

(** A file of 16 bytes behind the machine, the stack pointer at its middle. *)
Definition vm_demo : radare_st malloc_st :=
  RadareSt (Config MALLOC_FD 0 16 0 0 512 []) true true (SectionsSt [] 0) [] 0
    (MallocSt MALLOC_FD (Some (zeros 16)) 16) [] true false None.
Definition demo_memory : Memory (radare_st malloc_st) := rio_memory demo_table demo_os demo_fresh 0.
Definition demo_vals (r : string) : Z :=
  if String.eqb r "esp" then 8 else if String.eqb r "eax" then 0x11223344 else if String.eqb r "ecx" then 7 else 0.
#[local] Instance vm_demo_disk : Disk demo_table MALLOC_FD := malloc_disk demo_alloc demo_mem MALLOC_FD.

Lemma vm_demo_plain : plain demo_table MALLOC_FD vm_demo.
Proof.
  constructor; try reflexivity; try (cbn; unfold minus1; lia); [|constructor].
  split; [discriminate|]. split; [reflexivity|]. eexists. reflexivity.
Qed.

Lemma push_pop_roundtrip_witness :
  exists st1 val' m',
    vm_op_eval (Memory0:=demo_memory) 0 true (fun _ => 0) [] 2 "push eax" (x86_state demo_vals true [] vm_demo) = Some (1, st1) /\
    vm_op_eval (Memory0:=demo_memory) 0 true (fun _ => 0) [] 2 "pop ebx" st1 = Some (1, x86_state val' true [] m') /\
    val' "ebx" = 0x11223344 /\ val' "esp" = 8.
Proof.
  destruct (push_pop_roundtrip (Memory0:=demo_memory) 0 (fun _ => 0) [] (rio_ok demo_table MALLOC_FD)
    (rio_memory_laws demo_table demo_os demo_fresh MALLOC_FD 0 fresh_len) "eax" "ebx" 1 demo_vals vm_demo)
    as (st1 & val' & m' & H1 & H2 & H3);
    [cbn; tauto|cbn; tauto|cbn; lia|split; [exact vm_demo_plain|split; vm_compute; discriminate]|].
  exists st1, val', m'. split; [exact H1|]. split; [exact H2|]. rewrite !H3. split; reflexivity.
Defined.

Lemma cache_keeps_first_push_witness :
  exists st1 st2 st3 val' cache,
    vm_op_eval (Memory0:=demo_memory) 0 false (fun _ => 0) [] 2 "push eax" (x86_state demo_vals false [] vm_demo) = Some (1, st1) /\
    vm_op_eval (Memory0:=demo_memory) 0 false (fun _ => 0) [] 2 "pop ebx" st1 = Some (1, st2) /\
    vm_op_eval (Memory0:=demo_memory) 0 false (fun _ => 0) [] 2 "push ecx" st2 = Some (1, st3) /\
    vm_op_eval (Memory0:=demo_memory) 0 false (fun _ => 0) [] 2 "pop edx" st3 = Some (1, x86_state val' false cache vm_demo) /\
    val' "edx" = 0x11223344 /\ val' "esp" = 8.
Proof.
  apply (cache_keeps_first_push (Memory0:=demo_memory) 0 (fun _ => 0) [] "eax" "ebx" "ecx" "edx" 1 demo_vals vm_demo);
    cbn; (lia || tauto).
Defined.

Lemma al_clobbers_ah_witness :
  exists val' st',
    vm_eval (Memory0:=demo_memory) 0 true (fun _ => 0) [] 2 "al=ecx" (x86_state demo_vals true [] vm_demo) =
      Some (1, x86_state val' true [] vm_demo) /\
    val' "eax" / 2 ^ 16 = 0x1122 /\ val' "eax" mod 2 ^ 16 = 7 /\
    vm_reg_get (vm_eval (Memory0:=demo_memory) 0 true (fun _ => 0) [] 1) "ah" (x86_state val' true [] vm_demo) = Some (0, st').
Proof.
  apply (al_clobbers_ah (Memory0:=demo_memory) 0 (fun _ => 0) [] "ecx" demo_vals true [] vm_demo); cbn; (lia || tauto).
Defined.
