(* ===== verification/Flags.v ===== *)
(** * Flags and flag spaces: [src/flags.c]

    Names for addresses, kept in a list in the order they were set, and the 32 spaces they belong to.
    A pointer to a flag is its position.  The tree of [USE_BTREE] is switched off in [main.h]; it is
    the component [Btree].  A loop is taken to run to its end: [config.interrupted] is not set. *)
From S2P Require Import Prelude Utils.
#[local] Open Scope string_scope.
#[local] Open Scope Z_scope.

Definition FLAG_BSIZE : nat := 40.
Definition FLAG_SPACES : nat := 32.
Definition FLAG_MAXCOUNT : Z := 10.
Definition MAX_FLAG_LEN : Z := 20.
Definition U64_MAX : Z := 2^64 - 1.

Record flag_t := Flag {
  f_name : string; f_namehash : Z; f_offset : Z; f_length : Z; f_format : Z; f_space : Z;
  f_cmd : option string }.

Record flags_st := FlagsSt {
  flags : list flag_t;
  flag_spaces : list (option string);   (* FLAG_SPACES names *)
  flag_from_i : Z;
  flag_space_idx : Z }.

Definition with_flags (l : list flag_t) (st : flags_st) : flags_st :=
  FlagsSt l (flag_spaces st) (flag_from_i st) (flag_space_idx st).
Definition with_spaces (l : list (option string)) (i : Z) (st : flags_st) : flags_st :=
  FlagsSt (flags st) l (flag_from_i st) i.
Definition set_name (n : string) (f : flag_t) : flag_t :=
  Flag n (f_namehash f) (f_offset f) (f_length f) (f_format f) (f_space f) (f_cmd f).
Definition set_offset (o : Z) (f : flag_t) : flag_t :=
  Flag (f_name f) (f_namehash f) o (f_length f) (f_format f) (f_space f) (f_cmd f).
Definition set_space (s : Z) (f : flag_t) : flag_t :=
  Flag (f_name f) (f_namehash f) (f_offset f) (f_length f) (f_format f) s (f_cmd f).
Definition set_cmd (c : option string) (f : flag_t) : flag_t :=
  Flag (f_name f) (f_namehash f) (f_offset f) (f_length f) (f_format f) (f_space f) c.

(** Position of the first flag with a property. *)
Definition find_flag (p : flag_t -> bool) (l : list flag_t) : option (nat * flag_t) :=
  list_find (fun f => p f = true) l.

Definition flag_init (st : flags_st) : flags_st := with_flags [] st.

(** ** Names *)

Definition flag_is_valid_char (ch : ascii) : bool :=
  if existsb (Ascii.eqb ch) (list_ascii_of_string "*/+- @`=><[];!%") || (ord ch =? 10) || (ord ch =? 9) then false
  else if isdigit ch then true
  else is_printable (schar ch).


Definition flag_is_valid_name (name : string) : bool :=
  match name with EmptyString => false | _ => all_chars flag_is_valid_char name end.

(** The loop of [flag_filter_name]: [i] counts the characters met, kept or not. *)
Fixpoint filter_loop (i : Z) (name : string) : string :=
  match name with
  | EmptyString => EmptyString
  | String c s =>
    if MAX_FLAG_LEN <? i then EmptyString
    else if flag_is_valid_char c then String c (filter_loop (i + 1) s)
    else filter_loop (i + 1) s
  end.

Definition leading_spaces (s : string) : string := take_while (fun c => Ascii.eqb c " ") s.

(** The caller's buffer afterwards, and the result: the blanks in front stay in the buffer. *)
Definition flag_filter_name (name : string) : string * bool :=
  let body := filter_loop 0 (chop_spaces name) in
  (leading_spaces name +:+ body, flag_is_valid_name body).

Definition flag_is_empty (f : option flag_t) : bool :=
  match f with Some f => String.eqb (f_name f) "" | None => true end.
Definition flag_do_empty (f : flag_t) : flag_t := set_name "" f.

(** ** Lookup *)

(** The newest flag of the name. *)
Definition flag_get (name : string) (st : flags_st) : option flag_t :=
  match name with
  | String c _ => if isdigit c then None else snd <$> find_flag (fun f => String.eqb name (f_name f)) (reverse (flags st))
  | EmptyString => snd <$> find_flag (fun f => String.eqb name (f_name f)) (reverse (flags st))
  end.

Definition flag_get_addr (name : string) (st : flags_st) : Z :=
  match flag_get name st with Some f => f_offset f | None => 0 end.

Definition flag_get_by_addr (addr : Z) (st : flags_st) : option (nat * flag_t) :=
  find_flag (fun f => f_offset f =? addr) (flags st).
Definition flag_by_offset (offset : Z) (st : flags_st) : option (nat * flag_t) := flag_get_by_addr offset st.
Definition flag_name_by_offset (offset : Z) (st : flags_st) : string :=
  match flag_get_by_addr offset st with Some (_, f) => f_name f | None => "" end.

Definition flag_get_i (id : Z) (st : flags_st) : option flag_t :=
  if id <? 0 then None else flags st !! Z.to_nat id.

Definition flag_delta_between (from to : Z) (st : flags_st) : Z :=
  match find_flag (fun f => (from <? f_offset f) && (f_offset f <=? to)) (flags st) with
  | Some (_, f) => f_offset f - from
  | None => 0
  end.

Definition flags_between (from to : Z) (st : flags_st) : Z :=
  Z.of_nat (length (filter (fun f => (from <=? f_offset f) && (f_offset f <=? to) = true) (flags st))).

(** The nearest flag behind the seek, for [delta = 1], or in front of it. *)
Fixpoint next_loop (up : bool) (seek : Z) (nice : option flag_t) (l : list flag_t) : option flag_t :=
  match l with
  | [] => nice
  | f :: l' =>
    let better := match nice with
                  | Some n => if up then f_offset f <? f_offset n else f_offset n <? f_offset f
                  | None => true end in
    let side := if up then seek <? f_offset f else f_offset f <? seek in
    next_loop up seek (if side && better then Some f else nice) l'
  end.
Definition flag_get_next (delta seek : Z) (st : flags_st) : option flag_t :=
  next_loop (delta =? 1) seek None (flags st).
Definition flag_get_reset (seek : Z) (st : flags_st) : option flag_t := flag_get_next 0 seek st.

(** ** Spaces *)

Definition space_is (name : string) (o : option string) : bool :=
  match o with Some n => String.eqb name n | None => false end.

(** When there is neither a space of the name nor a free place, nothing happens. *)
Definition flag_space_set (name : string) (st : flags_st) : flags_st :=
  match list_find (fun o => space_is name o = true) (flag_spaces st) with
  | Some (i, _) => with_spaces (flag_spaces st) (Z.of_nat i) st
  | None =>
    match list_find (fun o => o = None) (flag_spaces st) with
    | Some (i, _) => with_spaces (<[i := Some name]> (flag_spaces st)) (Z.of_nat i) st
    | None => st
    end
  end.

(** The first space of the name; a star stands for the first space there is. *)
Definition flag_space_remove (name : string) (st : flags_st) : flags_st :=
  match list_find (fun o => match o with Some n => String.eqb name n || starts_with "*" name | None => false end = true)
          (flag_spaces st) with
  | Some (i, _) =>
    let st := with_spaces (<[i := None]> (flag_spaces st))
                (if Z.of_nat i =? flag_space_idx st then -1 else flag_space_idx st) st in
    with_flags ((fun f => if f_space f =? Z.of_nat i then set_space (-1) f else f) <$> flags st) st
  | None => st
  end.

Definition star (b : bool) : string := if b then "*" else " ".

Fixpoint space_lines (idx i j : Z) (l : list (option string)) : string :=
  match l with
  | [] => ""
  | Some n :: l' =>
    pad "0" (2 - String.length (fmt_d j)) (fmt_d j) +:+ " " +:+ star (i =? idx) +:+ " " +:+ n +:+ nl +:+
      space_lines idx (i + 1) (j + 1) l'
  | None :: l' => space_lines idx (i + 1) j l'
  end.
Definition flag_space_list (st : flags_st) : string := space_lines (flag_space_idx st) 0 0 (flag_spaces st).

(** The bound is 255 although there are 32 spaces; the name of a free place is dereferenced. *)
Definition flag_space_get (idx : Z) (st : flags_st) : option string :=
  if idx =? -1 then Some ""
  else if 255 <? idx then Some ""
  else if idx <? 0 then None
  else match flag_spaces st !! Z.to_nat idx with Some o => o | None => None end.

(** [fs]: the command and what it prints; the help is left out. *)
Definition flag_space (name : string) (st : flags_st) : flags_st * string :=
  let name := match name with String c s => if Ascii.eqb c " " then s else name | EmptyString => name end in
  match name with
  | EmptyString => (st, flag_space_list st)
  | String c s =>
    if Ascii.eqb c "*" then (with_spaces (flag_spaces st) (-1) st, "")
    else if Ascii.eqb c "-" then (flag_space_remove s st, "")
    else if Ascii.eqb c "?" then (st, "")
    else (flag_space_set name st, "")
  end.

(** [fm]; a name that is not found is a null pointer. *)
Definition flag_space_move (name : string) (st : flags_st) : option flags_st :=
  if String.eqb name "" || starts_with "?" name then Some st
  else match name with
       | String c _ =>
         if isdigit c then None
         else match find_flag (fun f => String.eqb name (f_name f)) (reverse (flags st)) with
              | Some (i, _) =>
                Some (with_flags (alter (set_space (flag_space_idx st)) (length (flags st) - 1 - i)%nat (flags st)) st)
              | None => None
              end
       | EmptyString => None
       end.

(** ** Setting and removing *)

Section ops.
(** The evaluator of expressions, the block size of the configuration, the last print format. *)
Context (get_math : string -> Z) (block_size last_print_format : Z).

Definition flag_from (str : string) (st : flags_st) : flags_st * string :=
  match str with
  | EmptyString => (st, "0x" +:+ fmt_x0 8 (flag_from_i st) +:+ nl)
  | _ => (FlagsSt (flags st) (flag_spaces st) (get_math str) (flag_space_idx st), "")
  end.

(** The buffer of a new flag is zeroed: the hash is the one of the first 40 characters, 0 for the
    empty name; the name kept has 39. *)
Definition new_flag (name : string) (addr : Z) (st : flags_st) : flag_t :=
  let n := String.substring 0 FLAG_BSIZE name in
  Flag (String.substring 0 (FLAG_BSIZE - 1) n) (match strhash n with Some h => h | None => 0 end)
    (u64 (addr + flag_from_i st)) block_size last_print_format (flag_space_idx st) None.

Definition update_flag (addr : Z) (st : flags_st) (f : flag_t) : flag_t :=
  Flag (f_name f) (f_namehash f) (u64 (addr + flag_from_i st)) block_size last_print_format (f_space f) (f_cmd f).

Definition set_lines (l : list flag_t) : string :=
  foldr (fun f s => "f " +:+ f_name f +:+ " @ 0x" +:+ fmt_x0 8 (f_offset f) +:+ nl +:+ s) "" l.

(** With [dup] a flag counts as there when it has the name and the address without [flag_from_i]. *)
Definition flag_set (name : string) (addr : Z) (dup : bool) (st : flags_st) : flags_st * Z * string :=
  if negb dup && String.eqb name "*" then (st, 2, set_lines (flags st))
  else if negb dup && negb (flag_is_valid_name name) then (st, 2, "")
  else if negb dup && negb (all_chars (fun c => is_printable (schar c)) (str_drop 1 name)) then (st, 2, "")
  else
    match find_flag (fun f => String.eqb (f_name f) name && (negb dup || (f_offset f =? addr))) (flags st) with
    | Some (i, _) => (if dup then st else with_flags (alter (update_flag addr st) i (flags st)) st, 1, "")
    | None => (with_flags (flags st ++ [new_flag name addr st])%list st, 0, "")
    end.

Definition flag_set_undef (name : string) (addr : Z) (dup : bool) (st : flags_st) : flags_st * Z * string :=
  match flag_get_by_addr addr st with
  | Some (_, f) => if (String.length (f_name f) <? 4)%nat then flag_set name addr dup st else (st, 0, "")
  | None => flag_set name addr dup st
  end.

(** After every removal the search starts over; the recursion is on a bound of the flags. *)
Fixpoint clear_loop (fuel : nat) (seek : Z) (l : list flag_t) : option (list flag_t) :=
  match fuel with
  | O => None
  | S fuel' =>
    match find_flag (fun f => f_offset f =? seek) l with
    | Some (i, _) => clear_loop fuel' seek (delete i l)
    | None => Some l
    end
  end.
Definition flag_clear_by_addr (seek : Z) (st : flags_st) : option flags_st :=
  (fun l => with_flags l st) <$> clear_loop (S (length (flags st))) seek (flags st).

Definition flag_remove_at (addr : Z) (st : flags_st) : flags_st :=
  match flag_get_by_addr addr st with
  | Some (i, _) => with_flags (delete i (flags st)) st
  | None => st
  end.

(** The text in front of the first star. *)
Definition mask_of (name : string) : option string :=
  match strchr name "*" with
  | Some s => Some (String.substring 0 (String.length name - String.length s) name)
  | None => None
  end.

(** With a mask nothing counts as found: the flags at the address the prefix evaluates to go too. *)
Definition flag_remove (name : string) (st : flags_st) : option flags_st :=
  if String.eqb name "" then Some st
  else
    match mask_of name with
    | Some str =>
      flag_clear_by_addr (get_math str)
        (with_flags (filter (fun f => starts_with str (f_name f) = false) (flags st)) st)
    | None =>
      let st' := with_flags (filter (fun f => String.eqb name (f_name f) = false) (flags st)) st in
      if existsb (fun f => String.eqb name (f_name f)) (flags st) then Some st'
      else flag_clear_by_addr (get_math name) st'
    end.

Definition flag_rebase (text : string) (seek : Z) (st : flags_st) : flags_st :=
  match flag_get_by_addr seek st with
  | Some (i, f) =>
    let o := match text with
             | String c s => if Ascii.eqb c "-" then u64 (f_offset f - get_math s) else u64 (f_offset f + get_math text)
             | EmptyString => u64 (f_offset f + get_math text) end in
    with_flags (alter (set_offset o) i (flags st)) st
  | None => st
  end.

Definition flag_cmd (text : string) (seek : Z) (st : flags_st) : flags_st * string :=
  if String.eqb text "" || starts_with "?" text then (st, "")
  else match flag_by_offset seek st with
       | Some (i, f) =>
         (with_flags (alter (set_cmd (Some text)) i (flags st)) st,
          "flag_cmd(" +:+ f_name f +:+ ") = '" +:+ text +:+ "'" +:+ nl)
       | None => (st, "")
       end.
End ops.

(** ** Renaming *)

(** The suffix of a text from the first occurrence of a pattern on. *)
Fixpoint strstr (s p : string) : option string :=
  if starts_with p s then Some s
  else match s with String _ s' => strstr s' p | EmptyString => None end.

(** A name that does not fit is written behind the buffer: [None]. *)
Definition fit (n : string) : option string := if (String.length n <? FLAG_BSIZE)%nat then Some n else None.

(** What becomes of one flag: its name, and whether it is counted. *)
Definition rename_one (foo bar : string) (f : flag_t) : option (flag_t * bool) :=
  let glob_end := match String.get (String.length foo - 1) foo with Some c => Ascii.eqb c "*" | None => false end in
  let sz := if glob_end then (String.length foo - 1)%nat else String.length foo in
  if starts_with "*" foo then
    match strstr (f_name f) (str_drop 1 foo) with
    | Some str => (fun n => (set_name n f, false)) <$> fit (bar +:+ str)
    | None => Some (f, false)
    end
  else if starts_with (String.substring 0 sz foo) (f_name f) then
    if glob_end then (fun n => (set_name n f, true)) <$> fit (bar +:+ str_drop sz (f_name f))
    else if (String.length (f_name f) =? sz)%nat then (fun n => (set_name n f, true)) <$> fit bar
    else Some (f, true)
  else Some (f, false).

Fixpoint rename_loop (foo bar : string) (l : list flag_t) : option (list flag_t * Z) :=
  match l with
  | [] => Some ([], 0)
  | f :: l' =>
    match rename_one foo bar f, rename_loop foo bar l' with
    | Some (f', b), Some (r, n) => Some (f' :: r, if b then n + 1 else n)
    | _, _ => None
    end
  end.
Definition flag_rename (foo bar : string) (st : flags_st) : option (flags_st * Z) :=
  match foo with
  | EmptyString => None
  | _ => (fun r => (with_flags r.1 st, r.2)) <$> rename_loop foo bar (flags st)
  end.

Definition flag_rename_str (text : string) (st : flags_st) : option (flags_st * Z * string) :=
  match strchr text " " with
  | Some arg =>
    (fun r => (r.1, r.2, fmt_d r.2 +:+ " flags renamed" +:+ nl)) <$>
      flag_rename (String.substring 0 (String.length text - String.length arg) text) (str_drop 1 arg) st
  | None => Some (st, 0, "Usage: fr old-name new-name" +:+ nl +:+ "> fr hit0_* hit_search" +:+ nl)
  end.

(** ** Listing *)

Definition show_line (f : flag_t) : string :=
  "0x" +:+ fmt_x0 8 (f_offset f) +:+ " " +:+ fmt_d (s64 (f_length f)) +:+ " " +:+ f_name f +:+ nl.
Definition flag_list (st : flags_st) : string :=
  foldr (fun f s => if negb (flag_space_idx st =? -1) && negb (f_space f =? flag_space_idx st) then s
                    else show_line f +:+ s) "" (flags st).

(** Without the command of the flag, which [cmd.flag] asks for. *)
Definition flag_grep (grepstr : string) (st : flags_st) : string :=
  let hit := match mask_of grepstr with
             | Some g => fun f => contains g (f_name f)
             | None => fun f => String.eqb (f_name f) grepstr end in
  foldr (fun f s => if hit f : bool then show_line f +:+ s else s) "" (flags st).

(** [memcmp(str, needle, n) == 0] on texts; [None] when it goes on behind both terminators. *)
Fixpoint mem_eq (n : nat) (s t : string) : option bool :=
  match n with
  | O => Some true
  | S n' =>
    match s, t with
    | String a s', String b t' => if Ascii.eqb a b then mem_eq n' s' t' else Some false
    | EmptyString, EmptyString => match n' with O => Some true | _ => None end
    | _, _ => Some false
    end
  end.

(** [str_grep] of [src/utils.c]; the star is looked for at the length of the text. *)
Definition str_grep (str needle : string) : option bool :=
  let len := String.length needle in
  let lenstr := String.length str in
  if starts_with "^" needle then
    if (lenstr <? len)%nat then Some false else mem_eq (len - 1) str (str_drop 1 needle)
  else if (lenstr =? 0)%nat || (len <? lenstr - 1)%nat then None
  else if match String.get (lenstr - 1) needle with Some c => Ascii.eqb c "*" | None => false end then
    if (lenstr <? len)%nat then Some false else mem_eq lenstr str needle
  else if match String.get (lenstr - 1) needle with Some c => Ascii.eqb c "$" | None => false end then
    if (lenstr <? len)%nat then Some false else mem_eq (len - 1) (str_drop (lenstr - len + 1) str) needle
  else Some (contains needle str).

(** [fgn] and [fgp]: with [next] the highest address below [addr] is taken, without it the lowest
    one above. *)
Fixpoint np_loop (str : string) (addr : Z) (next : bool) (newaddr : Z) (fag : option flag_t) (l : list flag_t)
    : option (option flag_t) :=
  match l with
  | [] => Some fag
  | f :: l' =>
    match str_grep (f_name f) str with
    | None => None
    | Some hit =>
      if hit && (if next then (f_offset f <? addr) && (newaddr <? f_offset f)
                 else (addr <? f_offset f) && (f_offset f <? newaddr))
      then np_loop str addr next (f_offset f) (Some f) l'
      else np_loop str addr next newaddr fag l'
    end
  end.
Definition flag_grep_np (str : string) (addr : Z) (next : bool) (st : flags_st) : option string :=
  (fun o => match o with
            | Some f => "0x" +:+ fmt_x0 8 (f_offset f) +:+ " " +:+ f_name f +:+ nl
            | None => "" end) <$>
    np_loop str addr next (if next then 0 else U64_MAX) None (flags st).

(** The flag with the lowest address above that of [flag]; the second test is about [flag] too. *)
Fixpoint interpolate_one (off tmp : Z) (best : string) (l : list flag_t) : Z * string :=
  match l with
  | [] => (tmp, best)
  | f2 :: l' =>
    if (off <? f_offset f2) && ((tmp =? 0) || (f_offset f2 <? tmp))
    then interpolate_one off (f_offset f2) (f_name f2) l'
    else interpolate_one off tmp best l'
  end.

Fixpoint interpolate_loop (from to : string) (all l : list flag_t) : option string :=
  match l with
  | [] => Some ""
  | f :: l' =>
    match interpolate_loop from to all l' with
    | None => None
    | Some rest =>
      if starts_with from (f_name f) then
        match mem_eq (String.length to) from (f_name f) with
        | None => None
        | Some hit =>
          let '(tmp, best) := if hit : bool then interpolate_one (f_offset f) 0 "" all else (0, "") in
          if tmp =? 0 then Some rest
          else Some (f_name f +:+ " (0x" +:+ fmt_x0 8 (f_offset f) +:+ ") -> " +:+ best +:+ " (0x" +:+
                     fmt_x0 8 tmp +:+ ")   ; size = " +:+ fmt_d (s64 (tmp - f_offset f)) +:+ nl +:+ rest)
        end
      else Some rest
    end
  end.
Definition flag_interpolation (from to : string) (st : flags_st) : option string :=
  interpolate_loop from to (flags st) (flags st).

(** ** The name of an address *)

Definition matches (match_ name : string) : bool := String.eqb match_ "" || contains match_ name.

(** The loop of [string_flag_offset]: the buffer and [ref]; [found] flags keep others out.  The count
    and the break come before a flag is looked at, the break behind the first one without a text to match. *)
Fixpoint sfo_loop (match_ : string) (seek vaddr idx : Z) (buf : string) (ref : option flag_t) (found : bool)
    (count : Z) (l : list flag_t) : string * option flag_t :=
  match l with
  | [] => (buf, ref)
  | f :: l' =>
    if (f_offset f =? seek) || (f_offset f =? u64 (seek + vaddr)) then
      if FLAG_MAXCOUNT <? count + 1 then (buf, ref)
      else if negb (idx =? -2) && (idx <? 1) then
        let buf := if String.eqb buf "" then f_name f else buf +:+ "," +:+ f_name f in
        sfo_loop match_ seek vaddr idx buf ref true (count + 1) l'
      else if String.eqb match_ "" then (buf, Some f)
      else sfo_loop match_ seek vaddr idx buf (if contains match_ (f_name f) then Some f else ref) true (count + 1) l'
    else if (f_offset f <=? u64 (seek + vaddr)) &&
            match ref with Some r => f_offset r <? f_offset f | None => true end &&
            negb found && matches match_ (f_name f)
    then sfo_loop match_ seek vaddr idx buf (Some f) found count l'
    else sfo_loop match_ seek vaddr idx buf ref found count l'
  end.

(** [cfg_delta] is the variable [cfg.delta]. *)
Definition string_flag_offset (match_ : string) (seek vaddr idx cfg_delta : Z) (st : flags_st) : Z * string :=
  let '(buf, ref) := sfo_loop match_ seek vaddr idx "" None false 0 (flags st) in
  let res buf := ((if String.eqb buf "" then 0 else 1), buf) in
  if idx =? -1 then res buf
  else if idx =? -2 then
    match ref with
    | Some r =>
      if String.eqb buf "" then
        if String.eqb match_ "" then
          let delta := s32 (u64 (seek + vaddr) - f_offset r) in
          res (String.substring 0 31
                 (if delta <? 0 then f_name r +:+ "-0x" +:+ fmt_x (u32 (- delta)) else f_name r +:+ "+0x" +:+ fmt_x delta))
        else res (f_name r)
      else res buf
    | None => res buf
    end
  else
    match ref with
    | Some r =>
      let ul := s64 (seek - f_offset r) in
      if ul =? 0 then (1, f_name r)
      else if (s32 (- cfg_delta) <? ul) && (ul <? cfg_delta) then (1, f_name r +:+ "+0x" +:+ fmt_x (u64 ul))
      else (0, buf)
    | None => (0, buf)
    end.

Definition print_flag_offset (match_ : string) (seek vaddr : Z) (st : flags_st) : string :=
  let '(r, buf) := string_flag_offset match_ seek vaddr (-2) 0 st in if truth r then buf else "".

(** ** The flag around an address, with its cache *)

(** The static variables of the function. *)
Record here_cache := HereCache { sec_start : Z; sec_end : Z; sec_str : string }.

(** The best flag so far, its address, and the next address behind [at_]. *)
Fixpoint here_loop (skip : flag_t -> bool) (at_ ret nextflag : Z) (best : option flag_t) (l : list flag_t)
    : option flag_t * Z :=
  match l with
  | [] => (best, nextflag)
  | f :: l' =>
    if skip f then here_loop skip at_ ret nextflag best l'
    else if (f_offset f <? nextflag) && (at_ <? f_offset f) then here_loop skip at_ ret (f_offset f) best l'
    else if (f_offset f <=? at_) && (ret <? f_offset f) then here_loop skip at_ (f_offset f) nextflag (Some f) l'
    else here_loop skip at_ ret nextflag best l'
  end.

(** A miss empties the text and leaves the range. *)
Definition flag_get_here_filter (at_ : Z) (str : string) (c : here_cache) (st : flags_st) : here_cache * string :=
  if (sec_start c <=? at_) && (at_ <? sec_end c) then (c, sec_str c)
  else
    match here_loop (fun f => (negb (String.eqb str "") && negb (contains str (f_name f))) || contains "end" (f_name f))
            at_ 0 U64_MAX None (flags st) with
    | (Some f, nextflag) =>
      let s := str_drop (String.length str) (f_name f) in
      (HereCache (f_offset f) nextflag s, s)
    | (None, _) => (HereCache (sec_start c) (sec_end c) "", "")
    end.

(** The length of the second text is dropped unless the first one is in the name. *)
Definition flag_get_here_filter2 (at_ : Z) (str str2 : string) (c : here_cache) (st : flags_st) : here_cache * string :=
  if (sec_start c <=? at_) && (at_ <? sec_end c) then (c, sec_str c)
  else
    match here_loop (fun f => (negb (contains str (f_name f)) && negb (contains str2 (f_name f))) || contains "_end" (f_name f))
            at_ 0 U64_MAX None (flags st) with
    | (Some f, nextflag) =>
      let n := if contains str (f_name f) then String.length str else String.length str2 in
      let s := str_drop n (f_name f) in
      (HereCache (f_offset f) nextflag s, s)
    | (None, _) => (HereCache (sec_start c) (sec_end c) "", "")
    end.
