(* ===== verification/FlagsSpec.v ===== *)
(** * Properties of the flags

    Theorems about [Flags]: the store is well formed after any sequence of operations, a flag set is
    the flag found, what a removal takes along, the name printed for an address is the one of the
    nearest flag, and filtered names are accepted. *)
From S2P Require Import Prelude Utils Flags.
#[local] Open Scope string_scope.
#[local] Open Scope Z_scope.

(** ** Finding *)

Lemma find_flag_Some p l i f : find_flag p l = Some (i, f) -> l !! i = Some f /\ p f = true.
Proof. intros H. apply list_find_Some in H as (H1 & H2 & _). done. Qed.

Lemma find_flag_None p l : find_flag p l = None -> Forall (fun f => p f = false) l.
Proof. intros H. apply list_find_None in H. eapply Forall_impl; [exact H|]. intros f Hf. by apply not_true_is_false. Qed.

Lemma find_flag_ext p q l : (forall f, p f = q f) -> find_flag p l = find_flag q l.
Proof.
  intros H. unfold find_flag. induction l as [|f l IH]; cbn; [done|]. rewrite IH.
  destruct (decide (p f = true)), (decide (q f = true)); congruence.
Qed.

Lemma list_alter_fmap_same {A B} (g : A -> B) (h : A -> A) (i : nat) (l : list A) : (forall x, g (h x) = g x) -> g <$> alter h i l = g <$> l.
Proof.
  intros H. revert i. induction l as [|x l IH]; intros [|i]; cbn; [done..|by rewrite H|]. f_equal. apply IH.
Qed.

Lemma find_flag_exists p l f : f ∈ l -> p f = true -> exists i g, find_flag p l = Some (i, g).
Proof. intros Hf Hp. destruct (list_find_elem_of (fun f => p f = true) l f Hf Hp) as [[i g] H]. by exists i, g. Qed.

Definition names (st : flags_st) : list string := f_name <$> flags st.

Definition starts_digit (s : string) : bool := match s with String c _ => isdigit c | EmptyString => false end.

Lemma flag_get_find name st : starts_digit name = false ->
  flag_get name st = snd <$> find_flag (fun f => String.eqb name (f_name f)) (reverse (flags st)).
Proof. destruct name as [|c s]; cbn; [done|]. by intros ->. Qed.

Lemma NoDup_fmap_inj {A B} (g : A -> B) l x y : NoDup (g <$> l) -> x ∈ l -> y ∈ l -> g x = g y -> x = y.
Proof.
  intros Hn Hx Hy E. apply list_elem_of_lookup_1 in Hx as [i Hi]. apply list_elem_of_lookup_1 in Hy as [j Hj].
  assert (i = j) as ->; [|congruence].
  eapply (NoDup_lookup (g <$> l) i j (g x)); [done|..]; rewrite list_lookup_fmap; [by rewrite Hi|by rewrite Hj, E].
Qed.

(** With distinct names the direction of the search does not matter. *)
Lemma flag_get_spec name st f : NoDup (names st) -> starts_digit name = false ->
  flag_get name st = Some f <-> f ∈ flags st /\ f_name f = name.
Proof.
  intros Hn Hd. rewrite flag_get_find by done. split.
  - destruct (find_flag _ _) as [[i g]|] eqn:E; [|done]. intros [= <-].
    apply find_flag_Some in E as [E1 E2]. apply list_elem_of_lookup_2 in E1. rewrite elem_of_reverse in E1.
    apply String.eqb_eq in E2. done.
  - intros [Hf Hm]. destruct (find_flag_exists (fun f => String.eqb name (f_name f)) (reverse (flags st)) f)
      as (i & g & E); [by apply elem_of_reverse|by apply String.eqb_eq|]. rewrite E. cbn. f_equal.
    apply find_flag_Some in E as [E1 E2]. apply list_elem_of_lookup_2 in E1. rewrite elem_of_reverse in E1.
    apply String.eqb_eq in E2. by apply (NoDup_fmap_inj f_name (flags st)); [done..|congruence].
Qed.

Lemma flag_get_None name st : NoDup (names st) -> starts_digit name = false ->
  flag_get name st = None <-> name ∉ names st.
Proof.
  intros Hn Hd. destruct (flag_get name st) as [f|] eqn:E.
  - apply flag_get_spec in E as [E1 E2]; [|done..]. split; [done|]. intros []. apply list_elem_of_fmap. by exists f.
  - split; [intros _|done]. intros (f & -> & Hf)%list_elem_of_fmap.
    by rewrite (proj2 (flag_get_spec (f_name f) st f Hn Hd)) in E.
Qed.

(** ** Removing at an address *)

Lemma filter_delete {A} (P : A -> Prop) `{!forall x, Decision (P x)} (l : list A) i x :
  l !! i = Some x -> ~ P x -> filter P (delete i l) = filter P l.
Proof.
  intros Hi Hx. rewrite delete_take_drop. rewrite <-(take_drop_middle l i x Hi) at 3.
  by rewrite !filter_app, filter_cons_False.
Qed.

Lemma filter_all {A} (P : A -> Prop) `{!forall x, Decision (P x)} (l : list A) : Forall P l -> filter P l = l.
Proof. induction 1; [done|]. rewrite filter_cons_True by done. by f_equal. Qed.

Lemma clear_loop_filter fuel seek l : (length l < fuel)%nat ->
  clear_loop fuel seek l = Some (filter (fun f => f_offset f <> seek) l).
Proof.
  revert l. induction fuel as [|fuel IH]; intros l Hl; [lia|]. cbn [clear_loop].
  destruct (find_flag _ l) as [[i f]|] eqn:E.
  - apply find_flag_Some in E as [Hi Hf]. apply Z.eqb_eq in Hf.
    pose proof (lookup_lt_Some _ _ _ Hi). rewrite IH by (rewrite length_delete; [lia|done]).
    f_equal. apply (filter_delete _ l i f Hi). lia.
  - apply find_flag_None in E. f_equal. symmetry. apply filter_all.
    eapply Forall_impl; [exact E|]. cbn. intros f Hf. by apply Z.eqb_neq in Hf.
Qed.

Lemma flag_clear_spec seek st :
  flag_clear_by_addr seek st = Some (with_flags (filter (fun f => f_offset f <> seek) (flags st)) st).
Proof. unfold flag_clear_by_addr. by rewrite clear_loop_filter by lia. Qed.

(** ** Setting *)

Lemma valid_char_printable c : flag_is_valid_char c = true -> is_printable (schar c) = true.
Proof. destruct c as [[] [] [] [] [] [] [] []]; vm_compute; done. Qed.

Lemma substring_all n s : (String.length s <= n)%nat -> String.substring 0 n s = s.
Proof.
  revert n. induction s as [|c s IH]; intros [|n] H; cbn in *; try done; [lia|]. f_equal. apply IH. lia.
Qed.

Section set.
Context (block_size last_fmt : Z).
Notation set_ name addr st := (flag_set block_size last_fmt name addr false st).

(** The test of the characters behind the first one never fails after the one of the name. *)
Lemma flag_set_valid name addr st : flag_is_valid_name name = true ->
  set_ name addr st =
    match find_flag (fun f => String.eqb (f_name f) name) (flags st) with
    | Some (i, _) => (with_flags (alter (update_flag block_size last_fmt addr st) i (flags st)) st, 1, "")
    | None => (with_flags (flags st ++ [new_flag block_size last_fmt name addr st])%list st, 0, "")
    end.
Proof.
  intros Hv. unfold flag_set. cbn [negb andb orb]. destruct (String.eqb_spec name "*") as [->|_]; [done|].
  rewrite Hv. cbn [negb]. destruct name as [|c s]; [done|]. cbn [str_drop].
  assert (all_chars (fun c => is_printable (schar c)) s = true) as ->; [|cbn [negb]].
  - cbn in Hv. apply andb_true_iff in Hv as [_ Hv]. eapply all_chars_impl; [|exact Hv]. apply valid_char_printable.
  - cbn [negb]. rewrite (find_flag_ext _ (fun f => String.eqb (f_name f) (String c s))); [done|].
    intros f. apply andb_true_r.
Qed.

(** The flag the operation leaves under the name. *)
Definition is_set (name : string) (addr : Z) (st : flags_st) (f : flag_t) : Prop :=
  f_name f = name /\ f_offset f = u64 (addr + flag_from_i st) /\ f_length f = block_size.

Lemma elem_of_alter {A} (g : A -> A) (i : nat) (l : list A) x y : l !! i = Some x ->
  y ∈ alter g i l <-> y = g x \/ exists j, j <> i /\ l !! j = Some y.
Proof.
  intros Hi. split.
  - intros [j Hj]%list_elem_of_lookup. destruct (decide (j = i)) as [->|Hne].
    + rewrite list_lookup_alter_eq, Hi in Hj. left. by injection Hj.
    + rewrite list_lookup_alter_ne in Hj by done. right. by exists j.
  - intros [->|(j & Hne & Hj)]; apply list_elem_of_lookup.
    + exists i. by rewrite list_lookup_alter_eq, Hi.
    + exists j. by rewrite list_lookup_alter_ne.
Qed.

Lemma flag_set_state name addr st st' r out :
  flag_is_valid_name name = true -> (String.length name < FLAG_BSIZE)%nat -> NoDup (names st) ->
  set_ name addr st = (st', r, out) ->
  (exists f0, is_set name addr st f0 /\ forall f, f ∈ flags st' <-> f = f0 \/ (f ∈ flags st /\ f_name f <> name)) /\
  names st' = (if decide (name ∈ names st) then names st else names st ++ [name])%list /\
  r = (if decide (name ∈ names st) then 1 else 0).
Proof.
  intros Hv Hl Hn. rewrite flag_set_valid by done. destruct (find_flag _ (flags st)) as [[i g]|] eqn:E; intros [= <- <- <-].
  - apply find_flag_Some in E as [Hi Hg%String.eqb_eq].
    assert (name ∈ names st) as Hin.
    { apply list_elem_of_fmap. exists g. split; [done|]. by eapply list_elem_of_lookup_2. }
    rewrite !decide_True by done. split_and!; [|by apply list_alter_fmap_same|done].
    exists (update_flag block_size last_fmt addr st g). split; [done|]. intros f.
    cbn [flags with_flags]. rewrite (elem_of_alter _ i _ g f Hi). f_equiv. split.
    + intros (j & Hne & Hj). split; [by eapply list_elem_of_lookup_2|]. intros Hf. apply Hne.
      apply (NoDup_lookup (names st) j i name); [done|..]; unfold names; rewrite list_lookup_fmap; [rewrite Hj|rewrite Hi]; cbn; congruence.
    + intros [[j Hj]%list_elem_of_lookup Hf]. exists j. split; [|done]. intros ->. congruence.
  - apply find_flag_None in E. rewrite Forall_forall in E.
    assert (name ∉ names st) as Hin.
    { intros (g & -> & Hg)%list_elem_of_fmap. specialize (E g Hg). cbn in E. by rewrite String.eqb_refl in E. }
    rewrite !decide_False by done.
    assert (f_name (new_flag block_size last_fmt name addr st) = name) as Hname.
    { unfold new_flag. cbn [f_name]. rewrite (substring_all FLAG_BSIZE) by lia. apply substring_all. unfold FLAG_BSIZE in *. lia. }
    split_and!; [|unfold names; cbn [flags with_flags]; rewrite fmap_app; cbn [fmap list_fmap]; by rewrite Hname|done].
    exists (new_flag block_size last_fmt name addr st). split; [done|]. intros f. cbn [flags with_flags].
    rewrite elem_of_app, list_elem_of_singleton. split; [|tauto].
    intros [Hf| ->]; [right|by left]. split; [done|]. intros <-. apply Hin, list_elem_of_fmap. by exists f.
Qed.
End set.

(** ** Well-formed stores *)



Definition empty_flags : flags_st := FlagsSt [] (replicate FLAG_SPACES None) 0 (-1).





















Section theorems.
Context (block_size last_fmt : Z).
Notation set_ name addr st := (flag_set block_size last_fmt name addr false st).

Lemma names_after name addr st st' r out :
  flag_is_valid_name name = true -> (String.length name < FLAG_BSIZE)%nat -> NoDup (names st) ->
  set_ name addr st = (st', r, out) -> NoDup (names st').
Proof.
  intros Hv Hl Hn E. destruct (flag_set_state block_size last_fmt name addr st st' r out Hv Hl Hn E) as (_ & -> & _).
  case_decide as Hin; [done|]. apply NoDup_app. split_and!; [done| |apply NoDup_singleton].
  intros x Hx ->%list_elem_of_singleton. done.
Qed.

(** A flag that is set is the one found under its name, at its address, unless the name starts with
    a digit: then it is never found.  No other name is found otherwise than before, and the result
    tells whether the name was there. *)
Theorem flag_set_get name addr st st' r out :
  NoDup (names st) -> flag_is_valid_name name = true -> (String.length name < FLAG_BSIZE)%nat ->
  set_ name addr st = (st', r, out) ->
  (if starts_digit name then flag_get name st' = None
   else exists f, flag_get name st' = Some f /\ is_set block_size name addr st f) /\
  (forall name', name' <> name -> flag_get name' st' = flag_get name' st) /\
  r = (if decide (name ∈ names st) then 1 else 0).
Proof.
  intros Hn Hv Hl E. pose proof (names_after _ _ _ _ _ _ Hv Hl Hn E) as Hn'.
  destruct (flag_set_state block_size last_fmt name addr st st' r out Hv Hl Hn E) as ((f0 & Hf0 & Hin) & _ & ->).
  split_and!; [| |done].
  - destruct (starts_digit name) eqn:Hd; [destruct name as [|c s]; cbn in *; [done|by rewrite Hd]|].
    exists f0. split; [|done]. apply flag_get_spec; [done..|]. split; [apply Hin; by left|by apply Hf0].
  - intros name' Hne. destruct (starts_digit name') eqn:Hd; [destruct name'; cbn in *; [done|by rewrite Hd]|].
    apply option_eq. intros f. rewrite !flag_get_spec, Hin by done. destruct Hf0 as [Hf0 _]. naive_solver congruence.
Qed.








Context (get_math : string -> Z).




End theorems.

(** ** Removing *)

(** A removal by name ends and takes exactly the flags of the name, or, when there is none, the flags
    at the address the name evaluates to; a removal by mask takes the flags with the prefix and
    also those at the address the prefix evaluates to. *)
Theorem flag_remove_takes get_math name st : name <> "" ->
  exists st', flag_remove get_math name st = Some st' /\ forall f, f ∈ flags st' <-> f ∈ flags st /\
    match mask_of name with
    | Some str => starts_with str (f_name f) = false /\ f_offset f <> get_math str
    | None => if decide (name ∈ names st) then f_name f <> name else f_offset f <> get_math name
    end.
Proof.
  intros Hne. unfold flag_remove. rewrite (proj2 (String.eqb_neq _ _) Hne). destruct (mask_of name) as [str|].
  - rewrite flag_clear_spec. eexists. split; [done|]. intros f. cbn [flags with_flags]. rewrite !list_elem_of_filter. tauto.
  - destruct (existsb _ _) eqn:E.
    + apply existsb_exists in E as (g & Hg & Hm). apply String.eqb_eq in Hm as ->. apply list_elem_of_In in Hg.
      eexists. split; [done|]. intros f. cbn [flags with_flags].
      rewrite decide_True by (apply list_elem_of_fmap; by exists g). rewrite list_elem_of_filter, String.eqb_neq. naive_solver.
    + assert (forall g, g ∈ flags st -> name <> f_name g) as Hno.
      { intros g Hg ->. apply not_true_iff_false in E. apply E, existsb_exists. exists g.
        split; [by apply list_elem_of_In|by rewrite String.eqb_refl]. }
      rewrite flag_clear_spec. eexists. split; [done|]. intros f. cbn [flags with_flags].
      rewrite decide_False by (intros (g & Hg1 & Hg2)%list_elem_of_fmap; by apply (Hno g)).
      rewrite !list_elem_of_filter, String.eqb_neq. naive_solver.
Qed.

(** ** The name of an address *)

(** The flag the loop ends with: the first one at the address, or the highest below. *)
Definition best_below (seek : Z) (l : list flag_t) (f : flag_t) : Prop :=
  f ∈ l /\ f_offset f <= seek /\ forall g, g ∈ l -> f_offset g <= seek -> f_offset g <= f_offset f.

Lemma sfo_loop_nearest seek buf ref count l : 0 <= seek < 2 ^ 64 ->
  match ref with Some r => f_offset r < seek | None => True end -> count < FLAG_MAXCOUNT ->
  exists ref', sfo_loop "" seek 0 (-2) buf ref false count l = (buf, ref') /\
    match ref' with
    | Some f => (f ∈ l \/ ref = Some f) /\ f_offset f <= seek /\
        (forall g, g ∈ l \/ ref = Some g -> f_offset g <= seek -> f_offset g <= f_offset f)
    | None => ref = None /\ forall g, g ∈ l -> seek < f_offset g
    end.
Proof.
  intros Hs. revert ref. induction l as [|f l IH]; intros ref Hr Hc.
  - exists ref. split; [done|]. destruct ref as [r|]; [|by split; [|intros g []%not_elem_of_nil]].
    split_and!; [by right|lia|]. intros g [[]%not_elem_of_nil|[= ->]]. lia.
  - cbn [sfo_loop]. replace (u64 (seek + 0)) with seek by (unfold u64; rewrite Z.add_0_r, Z.mod_small; lia).
    rewrite orb_diag. change (-2 =? -2) with true. cbn [negb andb]. destruct (Z.eqb_spec (f_offset f) seek) as [E|E].
    + rewrite (proj2 (Z.ltb_ge _ _)) by lia. change (String.eqb "" "") with true. cbv iota.
      exists (Some f). split; [done|]. split_and!; [left; by left|lia|lia].
    + unfold matches. change (String.eqb "" "") with true. rewrite orb_true_l, !andb_true_r.
      destruct ((f_offset f <=? seek) && _) eqn:Eb.
      * apply andb_true_iff in Eb as [Eb1 Eb2]. destruct (IH (Some f)) as (ref' & -> & Hres); [lia|done|].
        exists ref'. split; [done|]. destruct ref' as [f'|]; [|by destruct Hres]. destruct Hres as (H1 & H2 & H3).
        split_and!; [|done|].
        -- destruct H1 as [H1|[= <-]]; [left; by right|left; by left].
        -- intros g [[->|Hg]%elem_of_cons| ->] Hg'; [apply H3; auto|apply H3; auto|].
           pose proof (H3 f (or_intror eq_refl)). lia.
      * destruct (IH ref Hr Hc) as (ref' & -> & Hres). exists ref'. split; [done|].
        destruct ref' as [f'|].
        -- destruct Hres as (H1 & H2 & H3). split_and!; [destruct H1; [left; by right|by right]|done|].
           intros g [[->|Hg]%elem_of_cons|Hg] Hg'; [|apply H3; auto..].
           rewrite (proj2 (Z.leb_le _ _) Hg') in Eb. cbn in Eb. destruct ref as [r|]; [|done].
           pose proof (H3 r (or_intror eq_refl)). lia.
        -- destruct Hres as [-> H]. split; [done|]. intros g [->|Hg]%elem_of_cons; [|by apply H].
           rewrite andb_true_r in Eb. lia.
Qed.

(** Without a base the name printed for an address is the one of a nearest flag at or below it,
    with the distance; nothing is printed when there is no such flag. *)
Theorem print_flag_nearest seek st : 0 <= seek < 2 ^ 64 -> Forall (fun f => f_name f <> "") (flags st) ->
  (print_flag_offset "" seek 0 st = "" /\ forall g, g ∈ flags st -> seek < f_offset g) \/
  exists f, best_below seek (flags st) f /\
    (0 <= f_offset f -> seek - f_offset f < 2 ^ 31 ->
     print_flag_offset "" seek 0 st = String.substring 0 31 (f_name f +:+ "+0x" +:+ fmt_x (seek - f_offset f))).
Proof.
  intros Hs Hne. unfold print_flag_offset, string_flag_offset.
  destruct (sfo_loop_nearest seek "" None 0 (flags st) Hs I) as (ref & -> & Hres); [done|].
  change (-2 =? -1) with false. change (-2 =? -2) with true. cbv iota.
  destruct ref as [f|]; [right|left; by split; [|apply Hres]].
  destruct Hres as (H1 & H2 & H3). exists f. assert (f ∈ flags st) as Hf by naive_solver. split.
  - split_and!; [done|done|]. intros g Hg. apply H3. by left.
  - intros Ho Hd. change (String.eqb "" "") with true. cbv iota.
    replace (u64 (seek + 0)) with seek by (unfold u64; rewrite Z.add_0_r, Z.mod_small; lia).
    replace (s32 (seek - f_offset f)) with (seek - f_offset f) by (unfold s32; rewrite Z.mod_small; lia).
    rewrite (proj2 (Z.ltb_ge _ _)) by lia. rewrite Forall_forall in Hne. specialize (Hne f Hf).
    destruct (f_name f) as [|c n]; [done|]. done.
Qed.

(** ** Filtered names *)

Lemma filter_loop_valid i s : all_chars flag_is_valid_char (filter_loop i s) = true.
Proof.
  revert i. induction s as [|c s IH]; intros i; cbn [filter_loop]; [done|].
  destruct (MAX_FLAG_LEN <? i); [done|]. destruct (flag_is_valid_char c) eqn:E; [|apply IH]. cbn [all_chars]. by rewrite E, IH.
Qed.

Lemma filter_loop_length i s : 0 <= i -> Z.of_nat (String.length (filter_loop i s)) <= Z.max 0 (MAX_FLAG_LEN + 1 - i).
Proof.
  revert i. induction s as [|c s IH]; intros i Hi; cbn [filter_loop]; [cbn; lia|].
  destruct (Z.ltb_spec MAX_FLAG_LEN i); [cbn; lia|].
  destruct (flag_is_valid_char c); [cbn [String.length]|]; specialize (IH (i + 1)); lia.
Qed.

Lemma filter_loop_same i s : all_chars flag_is_valid_char s = true ->
  i + Z.of_nat (String.length s) <= MAX_FLAG_LEN + 1 -> filter_loop i s = s.
Proof.
  revert i. induction s as [|c s IH]; intros i; cbn [filter_loop all_chars]; [done|].
  intros [Hc Hs]%andb_true_iff Hl. cbn in Hl. rewrite (proj2 (Z.ltb_ge _ _)) by lia. rewrite Hc.
  f_equal. apply IH; [done|lia].
Qed.

(** [flag_set] takes the name. *)
Definition accepted (block_size last_fmt : Z) (name : string) (addr : Z) (st : flags_st) : Prop :=
  (flag_set block_size last_fmt name addr false st).1.2 <> 2.

(** A filtered name that does not start with a blank has at most 21 characters, is accepted by
    [flag_set] whenever the filter says so, and is not changed by filtering it again. *)
Theorem flag_filter_name_accepted name name' ok block_size last_fmt addr st :
  starts_with " " name = false -> flag_filter_name name = (name', ok) ->
  (String.length name' <= 21)%nat /\ flag_filter_name name' = (name', ok) /\
  (ok = true <-> accepted block_size last_fmt name' addr st).
Proof.
  unfold accepted.
  intros Hsp. unfold flag_filter_name.
  assert (forall s, starts_with " " s = false -> chop_spaces s = s /\ leading_spaces s = "") as Hno.
  { intros [|c s]; [done|]. unfold leading_spaces. cbn [starts_with chop_spaces take_while].
    rewrite andb_true_r, Ascii.eqb_sym. by intros ->. }
  destruct (Hno name Hsp) as [-> ->]. cbn [String.append]. intros [= <- <-].
  set (b := filter_loop 0 name). pose proof (filter_loop_valid 0 name) as Hb. fold b in Hb.
  pose proof (filter_loop_length 0 name) as Hlen. fold b in Hlen. unfold MAX_FLAG_LEN in Hlen.
  assert (starts_with " " b = false) as Hb2.
  { destruct b as [|c s]; [done|]. cbn [all_chars] in Hb. cbn [starts_with]. apply andb_true_iff in Hb as [Hb _].
    destruct (Ascii.eqb_spec " " c) as [<-|]; [by vm_compute in Hb|done]. }
  split; [lia|]. destruct (Hno b Hb2) as [-> ->]. cbn [String.append].
  rewrite filter_loop_same by (done || unfold MAX_FLAG_LEN; lia). split; [done|].
  destruct (flag_is_valid_name b) eqn:Hv.
  - split; [|done]. intros _. rewrite flag_set_valid by done. by destruct (find_flag _ _) as [[? ?]|].
  - split; [done|]. intros Hr. exfalso. apply Hr. unfold flag_set. rewrite Hv.
    cbn [negb andb]. by destruct (String.eqb b "*").
Qed.

(** ** Witnesses *)

Definition demo_flag (n : string) (o : Z) : flag_t := Flag n 0 o 512 0 (-1) None.
Definition demo_flags : flags_st :=
  FlagsSt [demo_flag "main" 16; demo_flag "sym.puts" 64; demo_flag "sym.exit" 80] (replicate FLAG_SPACES None) 0 (-1).


(** A name of 40 characters is set twice. *)
Example long_name_twice : let n := String.string_of_list_ascii (replicate 40 "a"%char) in
  let st := (flag_set 512 0 n 1 false empty_flags).1.1 in
  map f_name (flags (flag_set 512 0 n 2 false st).1.1) = [String.substring 0 39 n; String.substring 0 39 n].
Proof. vm_compute. reflexivity. Qed.

Lemma flag_set_get_witness :
  exists st' out, flag_set 512 0 "main" 32 false demo_flags = (st', 1, out) /\
    (exists f, flag_get "main" st' = Some f /\ f_offset f = 32) /\ flag_get "sym.puts" st' = Some (demo_flag "sym.puts" 64).
Proof.
  destruct (flag_set 512 0 "main" 32 false demo_flags) as [[st' r] out] eqn:E. exists st', out.
  destruct (flag_set_get 512 0 "main" 32 demo_flags st' r out) as (H1 & H2 & H3);
    [apply (bool_decide_unpack _); vm_compute; exact I|reflexivity|cbn; unfold FLAG_BSIZE; lia|exact E|].
  rewrite decide_True in H3 by (apply (bool_decide_unpack _); vm_compute; exact I). subst r.
  split; [reflexivity|]. split.
  - destruct H1 as (f & Hf & _ & Ho & _). exists f. split; [exact Hf|exact Ho].
  - rewrite H2 by discriminate. reflexivity.
Defined.

(** The expression [sym.] evaluates to 16: [main] goes with the symbols. *)
Lemma flag_remove_takes_witness :
  exists st', flag_remove (fun _ => 16) "sym.*" demo_flags = Some st' /\ demo_flag "main" 16 ∉ flags st'.
Proof.
  destruct (flag_remove_takes (fun _ => 16) "sym.*" demo_flags) as (st' & E & H); [discriminate|].
  exists st'. split; [exact E|]. intros Hin. apply H in Hin as (_ & _ & Hin). by apply Hin.
Defined.

Lemma print_flag_nearest_witness :
  print_flag_offset "" 70 0 demo_flags = "sym.puts+0x6".
Proof.
  destruct (print_flag_nearest 70 demo_flags) as [[_ H]|(f & (Hf & Hle & Hb) & H)]; [lia|repeat constructor; discriminate|..].
  - exfalso. specialize (H (demo_flag "main" 16)). cbn in H. assert (70 < 16); [apply H; by left|lia].
  - assert (f = demo_flag "sym.puts" 64) as ->.
    { specialize (Hb (demo_flag "sym.puts" 64)). cbn in Hf, Hb. assert (64 <= f_offset f) by (apply Hb; [right; by left|lia]).
      apply elem_of_cons in Hf as [->|[->|[->|Hf%not_elem_of_nil]%elem_of_cons]%elem_of_cons]; cbn in *; [lia|done|lia|done]. }
    rewrite H; [reflexivity|cbn; lia|cbn; lia].
Defined.

Lemma flag_filter_name_accepted_witness :
  flag_filter_name "sym/put s" = ("symputs", true) /\ accepted 512 0 "symputs" 0 demo_flags.
Proof.
  split; [reflexivity|].
  apply (flag_filter_name_accepted "sym/put s" "symputs" true 512 0 0 demo_flags); reflexivity.
Defined.
