(* ===== verification/Data.v ===== *)
(** * Metadata of addresses: [src/data.c]

    Records of what is at an address, comments, cross references and types of variables, each a list
    in the order of the code: records, references and types at the front, comments at the end.  The
    field [times] of a record is never read and left out. *)
From S2P Require Import Prelude Utils Flags.
#[local] Open Scope string_scope.
#[local] Open Scope Z_scope.

Definition DATA_HEX : Z := 17.
Definition DATA_STR : Z := 28.
Definition DATA_CODE : Z := 25.
Definition DATA_FUN : Z := 24.
Definition DATA_STRUCT : Z := 37.
Definition DATA_FOLD_O : Z := 0x100.
Definition DATA_FOLD_C : Z := 0x101.

Record data_t := Data { d_from : Z; d_to : Z; d_type : Z; d_size : Z; d_arg : string }.
Record var_type_t := VarType { t_name : string; t_fmt : string; t_size : Z }.
Record comment_t := Comment { c_offset : Z; c_comment : string }.
Record xrefs_t := Xref { x_addr : Z; x_from : Z; x_type : Z }.

(** What the operations read of the configuration. *)
Record data_conf := DataConf {
  k_block_size : Z; k_seek : Z; k_vaddr : Z; k_cursor_mode : bool; k_cursor : Z; k_ocursor : Z; k_delta : Z }.

Section find.
Context {A : Type}.
(** The first element with a property; its removal. *)
Definition find_first (p : A -> bool) (l : list A) : option (nat * A) := list_find (fun x => p x = true) l.
Definition remove_first (p : A -> bool) (l : list A) : list A :=
  match find_first p l with Some (i, _) => delete i l | None => l end.
Definition update_first (p : A -> bool) (g : A -> A) (l : list A) : option (list A) :=
  match find_first p l with Some (i, _) => Some (alter g i l) | None => None end.
(** The last one. *)
Definition find_last (p : A -> bool) (l : list A) : option A := snd <$> find_first p (reverse l).
Definition keep (p : A -> bool) (l : list A) : list A := filter (fun x => p x = false) l.
Definition count (p : A -> bool) (l : list A) : Z := Z.of_nat (length (filter (fun x => p x = true) l)).
End find.

(** ** Records *)

Definition has (off : Z) (d : data_t) : bool := (d_from d <=? off) && (off <? d_to d).
Definition has_end (off : Z) (d : data_t) : bool := (d_from d <=? off) && (off <=? d_to d).

(** The result is whether a record was found: 0 or -1. *)
Definition data_set_len (off len : Z) (l : list data_t) : list data_t * Z :=
  match update_first (has_end off)
          (fun d => let to := u64 (d_from d + len) in
                    Data (d_from d) to (d_type d) (u64 (to - d_from d + 1)) (d_arg d)) l with
  | Some l' => (l', 0)
  | None => (l, -1)
  end.

Definition data_set (off type : Z) (l : list data_t) : list data_t * Z :=
  match update_first (has_end off) (fun d => Data (d_from d) (d_to d) type (d_size d) (d_arg d)) l with
  | Some l' => (l', 0)
  | None => (l, -1)
  end.

Definition data_prev (off type : Z) (l : list data_t) : Z :=
  match find_last (fun d => (d_type d =? type) && has_end off d) l with Some d => d_from d | None => 0 end.
Definition data_prev_size (off type : Z) (l : list data_t) : Z :=
  match find_last (fun d => (d_type d =? type) && ((d_from d <? off) && (off <? d_to d))) l with
  | Some d => u64 (d_to d - d_from d - (off - d_from d))
  | None => 0
  end.

(** The bounds of the last function around an address. *)
Definition data_get_fun_for (addr : Z) (l : list data_t) : option (Z * Z) :=
  (fun d => (d_from d, d_to d)) <$>
    find_last (fun d => (d_type d =? DATA_FUN) && ((d_from d <? addr) && (addr <? d_to d))) l.

Definition data_del (addr type len : Z) (l : list data_t) : list data_t :=
  remove_first (fun d => (d_from d =? addr) && (type =? d_type d) && ((len =? 0) || (len =? d_size d))) l.

(** The loop that starts over after every removal; the recursion is on a bound of the records. *)
Fixpoint add_loop (fuel : nat) (off : Z) (l : list data_t) : option (list data_t) :=
  match fuel with
  | O => None
  | S fuel' =>
    match find_first (has off) l with
    | Some (i, _) => add_loop fuel' off (delete i l)
    | None => Some l
    end
  end.

Definition new_data (off type : Z) (k : data_conf) : data_t :=
  let from := off in
  let to := u64 (from + k_block_size k) in
  let '(from, to) :=
    if k_cursor_mode k then
      let to := u64 (from + 1) in
      let from := u64 (from + k_cursor k) in
      let to := if k_ocursor k =? -1 then to else u64 (k_seek k + k_ocursor k) in
      if to <? from then (to, from) else (from, to)
    else (from, to) in
  let size := if from <? to then u64 (to - from + 1) else u64 (from - to + 1) in
  Data from to type (if size <? 1 then 1 else size) "".

(** The new record, if any, is the first one. *)
Definition data_add (off type : Z) (k : data_conf) (l : list data_t) : option (list data_t) :=
  match add_loop (S (length l)) off l with
  | Some l' => Some (if type =? DATA_CODE then l' else new_data off type k :: l')
  | None => None
  end.

Definition data_add_arg (off type : Z) (arg : string) (k : data_conf) (l : list data_t) : option (list data_t) :=
  match data_add off type k l with
  | Some (d :: l') =>
    Some (if type =? DATA_CODE then d :: l'
          else Data (d_from d) (d_to d) (d_type d) (d_size d) (String.substring 0 128 arg) :: l')
  | r => r
  end.

Definition data_get (offset : Z) (l : list data_t) : option data_t := snd <$> find_first (has offset) l.
Definition data_get_range (offset : Z) (l : list data_t) : option data_t := snd <$> find_first (has offset) l.
Definition data_type_range (offset : Z) (l : list data_t) : Z :=
  match data_get_range offset l with Some d => d_type d | None => -1 end.
Definition data_type (offset : Z) (l : list data_t) : Z :=
  match find_first (fun d => offset =? d_from d) l with Some (_, d) => d_type d | None => -1 end.
Definition data_end (offset : Z) (l : list data_t) : Z :=
  match find_first (fun d => offset =? u64 (d_from d + d_size d)) l with Some (_, d) => d_type d | None => -1 end.
Definition data_size (offset : Z) (l : list data_t) : Z :=
  match find_first (fun d => offset =? d_from d) l with Some (_, d) => s32 (d_size d) | None => 0 end.

(** The commonest type of the records that lie in a range, and how many they are. *)
Definition data_get_between (from to : Z) (l : list data_t) : Z * Z :=
  let n t := count (fun d => (from <=? d_from d) && (d_to d <? to) && (d_type d =? t)) l in
  let hex := n DATA_HEX in let str := n DATA_STR in let code := n DATA_CODE in
  let fun_ := n DATA_FUN in let stc := n DATA_STRUCT in
  if (str <=? hex) && (code <=? hex) && (fun_ <=? hex) && (stc <=? hex) then (DATA_HEX, hex)
  else if (hex <=? str) && (code <=? str) && (fun_ <=? str) && (stc <=? str) then (DATA_STR, str)
  else if (hex <=? fun_) && (str <=? fun_) && (code <=? fun_) && (stc <=? fun_) then (DATA_FUN, fun_)
  else if (hex <=? code) && (str <=? code) && (fun_ <=? code) && (stc <=? code) then (DATA_CODE, code)
  else (DATA_STRUCT, stc).

Definition data_list_ranges (l : list data_t) : string :=
  foldr (fun d s => if d_type d =? DATA_FUN
                    then "ar+ 0x" +:+ fmt_x0 8 (d_from d) +:+ " 0x" +:+ fmt_x0 8 (d_to d) +:+ nl +:+ s else s) "" l.

Definition pfx (type : Z) : string :=
  if type =? DATA_FOLD_O then "Cu" else if type =? DATA_FOLD_C then "Cf" else if type =? DATA_FUN then "CF"
  else if type =? DATA_HEX then "Cd" else if type =? DATA_STR then "Cs" else if type =? DATA_STRUCT then "Cm" else "Cc".

(** The name of an address in a listing; the flags are those of [Flags]. *)
Definition label (k : data_conf) (fl : flags_st) (addr : Z) : string :=
  (string_flag_offset "" addr (k_vaddr k) 0 (k_delta k) fl).2.

(** A line is printed when the mask is empty or [str_grep] finds it. *)
Definition grep_line (mask line out : string) : option string :=
  if String.eqb mask "" then Some out
  else match str_grep line mask with Some true => Some out | Some false => Some "" | None => None end.

Fixpoint concat_lines {A} (line : A -> option string) (l : list A) : option string :=
  match l with
  | [] => Some ""
  | x :: l' => match line x, concat_lines line l' with Some s, Some r => Some (s +:+ r) | _, _ => None end
  end.

Definition data_line (k : data_conf) (fl : flags_st) (d : data_t) : string :=
  pfx (d_type d) +:+ " " +:+ fmt_d (s64 (d_to d - d_from d)) +:+ " " +:+
  (if d_type d =? DATA_STRUCT then d_arg d else "") +:+ "@ 0x" +:+ fmt_x0 8 (d_from d) +:+ " ; " +:+ label k fl (d_from d).
Definition data_list (mask : string) (k : data_conf) (fl : flags_st) (l : list data_t) : option string :=
  concat_lines (fun d => let s := data_line k fl d in grep_line mask s (s +:+ nl)) l.

(** ** Cross references *)

Definition same_xref (addr from : Z) (x : xrefs_t) : bool := (x_addr x =? addr) && (x_from x =? from).

Definition data_xrefs_add (addr from type : Z) (l : list xrefs_t) : list xrefs_t * Z :=
  match find_first (same_xref addr from) l with
  | Some _ => (l, 0)
  | None => (Xref addr from type :: l, 1)
  end.
Definition data_xrefs_at (addr : Z) (l : list xrefs_t) : Z := count (fun x => x_addr x =? addr) l.
Definition data_xrefs_del (addr from : Z) (l : list xrefs_t) : list xrefs_t := remove_first (same_xref addr from) l.

(** The reference number [idx], from 1, of the type; the counter goes on at the other addresses too. *)
Fixpoint seek_to_loop (offset type idx i : Z) (l : list xrefs_t) : Z :=
  match l with
  | [] => 0
  | x :: l' =>
    if (x_type x =? type) || (type =? -1) then
      if (x_addr x =? offset) && (idx =? i) then x_from x else seek_to_loop offset type idx (i + 1) l'
    else seek_to_loop offset type idx i l'
  end.
Definition data_seek_to (offset type idx : Z) (l : list xrefs_t) : Z := seek_to_loop offset type (idx - 1) 0 l.

Definition xref_kind (t : Z) : string := if t =? 1 then "DATA" else if t =? 0 then "CODE" else "UNKNOWN".

(** [str] is the name found last, which a reference from the address is printed with; at the start
    it is [garbage].  The line of a data reference, asked for by type, lacks its last argument: [None]. *)
Fixpoint xrefs_print_loop (addr type : Z) (xrefsto : bool) (k : data_conf) (fl : flags_st) (str : string)
    (l : list xrefs_t) : option (string * Z) :=
  match l with
  | [] => Some ("", 0)
  | x :: l' =>
    if x_addr x =? addr then
      let str := label k fl (x_from x) in
      match xrefs_print_loop addr type xrefsto k fl str l' with
      | None => None
      | Some (out, n) =>
        let line what := "; 0x" +:+ fmt_x0 8 addr +:+ " " +:+ what +:+ " 0x" +:+ fmt_x0 8 (x_from x) +:+ " (" +:+ str +:+ ")" +:+ nl in
        if type =? 0 then if x_type x =? type then Some (line "CODE xref" +:+ out, n + 1) else Some (out, n)
        else if type =? 1 then if x_type x =? type then None else Some (out, n)
        else Some (line (xref_kind (x_type x) +:+ " xref from") +:+ out, n + 1)
      end
    else
      match xrefs_print_loop addr type xrefsto k fl str l' with
      | None => None
      | Some (out, n) =>
        if xrefsto && (x_from x =? addr) then
          Some ("; 0x" +:+ fmt_x0 8 addr +:+ " " +:+ xref_kind (x_type x) +:+ " xref to 0x" +:+ fmt_x0 8 (x_addr x) +:+
                " (" +:+ str +:+ ")" +:+ nl +:+ out, n)
        else Some (out, n)
      end
  end.
Definition data_xrefs_print (addr type : Z) (xrefsto : bool) (garbage : string) (k : data_conf) (fl : flags_st)
    (l : list xrefs_t) : option (string * Z) := xrefs_print_loop addr type xrefsto k fl garbage l.

(** The comparison is an assignment: every reference with an address but 0 is listed, and [addr] is
    not looked at. *)
Fixpoint xrefs_here_loop (count : Z) (k : data_conf) (fl : flags_st) (l : list xrefs_t) : string :=
  match l with
  | [] => ""
  | x :: l' =>
    if truth (x_addr x) then
      fmt_d (count + 1) +:+ " " +:+ (if truth (x_type x) then "data" else "code") +:+ " xref 0x" +:+ fmt_x0 8 (x_from x) +:+
      " @ 0x" +:+ fmt_x0 8 (x_addr x) +:+ " ; " +:+ label k fl (x_from x) +:+ nl +:+ xrefs_here_loop (count + 1) k fl l'
    else xrefs_here_loop count k fl l'
  end.
Definition data_xrefs_here (addr : Z) (k : data_conf) (fl : flags_st) (l : list xrefs_t) : string :=
  xrefs_here_loop 0 k fl l.

Definition data_xrefs_list (mask : string) (k : data_conf) (fl : flags_st) (l : list xrefs_t) : option string :=
  concat_lines (fun x =>
    let s := "C" +:+ (if truth (x_type x) then "d" else "x") +:+ " 0x" +:+ fmt_x0 8 (x_from x) +:+ " @ 0x" +:+
             fmt_x0 8 (x_addr x) +:+ " ; " +:+ label k fl (x_from x) +:+ nl in
    grep_line mask s s) l.

(** ** Comments *)

(** A text that starts with a star removes them all, another one the first comment it equals. *)
Definition data_comment_del (offset : Z) (str : string) (l : list comment_t) : list comment_t :=
  if starts_with "*" str then keep (fun c => offset =? c_offset c) l
  else remove_first (fun c => (offset =? c_offset c) && String.eqb (c_comment c) str) l.

Definition chop_newline (s : string) : string :=
  match String.get (String.length s - 1) s with
  | Some c => if ord c =? 10 then String.substring 0 (String.length s - 1) s else s
  | None => s
  end.

Definition data_comment_add (offset : Z) (str : string) (l : list comment_t) : list comment_t :=
  if String.eqb str "" then l else (data_comment_del offset str l ++ [Comment offset (chop_newline str)])%list.

Definition data_comment_list (mask : string) (l : list comment_t) : option string :=
  concat_lines (fun c => let s := "CC " +:+ c_comment c +:+ " @ 0x" +:+ fmt_x (c_offset c) +:+ nl in grep_line mask s s) l.

(** The loop over the comments of the offset: [skip] of them are passed over, then at most [lines]
    are shown; 0 and less stand for no bound. *)
Fixpoint comment_loop (margin : string) (skip lines : Z) (l : list comment_t) : string :=
  match l with
  | [] => ""
  | c :: l' =>
    if truth skip then comment_loop margin (skip - 1) lines l'
    else margin +:+ "; " +:+ c_comment c +:+ nl +:+
         (if lines - 1 =? 0 then "" else comment_loop margin skip (lines - 1) l')
  end.

(** [asm.cmtmargin] and [asm.cmtlines]. *)
Definition data_comment_get (offset lines cmtmargin cmtlines : Z) (l : list comment_t) : string :=
  let here := filter (fun c => c_offset c = offset) l in
  let margin := pad " " (Z.to_nat (Z.min 80 (Z.max 0 cmtmargin))) "" in
  let cmtlines := Z.max 0 cmtlines in
  let i := Z.of_nat (length here) in
  let skip := if truth cmtlines && (cmtlines <? i) then i - cmtlines else cmtlines in
  comment_loop margin skip lines here.

(** ** Ranges *)

Definition between (from to x : Z) : bool := (from <=? x) && (x <=? to).

(** A reference with both ends in the range is unlinked twice: the second time through the null
    pointers the first one left. *)
Definition data_del_range (from to : Z) (cs : list comment_t) (xs : list xrefs_t) (ds : list data_t)
    : option (list comment_t * list xrefs_t * list data_t) :=
  if existsb (fun x => between from to (x_addr x) && between from to (x_from x)) xs then None
  else Some (keep (fun c => between from to (c_offset c)) cs,
             keep (fun x => between from to (x_addr x) || between from to (x_from x)) xs,
             keep (fun d => between from to (d_from d) || between from to (d_to d)) ds).

(** ** Types of variables *)

Definition data_var_type_add (typename : string) (size : Z) (fmt : string) (l : list var_type_t) : list var_type_t :=
  VarType (String.substring 0 128 typename) (String.substring 0 128 fmt) (u32 size) :: l.
Definition data_var_type_get (datatype : string) (l : list var_type_t) : option var_type_t :=
  snd <$> find_first (fun t => String.eqb datatype (t_name t)) l.
Definition data_var_type_del (typename : string) (l : list var_type_t) : list var_type_t * Z :=
  let n := match typename with String c s => if Ascii.eqb c " " then s else typename | EmptyString => typename end in
  match find_first (fun t => String.eqb n (t_name t)) l with
  | Some (i, _) => (delete i l, 1)
  | None => (l, 0)
  end.
Definition data_var_type_list (mask : string) (l : list var_type_t) : option string :=
  concat_lines (fun t => let s := t_name t +:+ " " +:+ fmt_d (s32 (t_size t)) +:+ " " +:+ t_fmt t +:+ nl in grep_line mask s s) l.

(** [Cv]: the types afterwards and the listing; the help is left out.  The mask of the listing is
    read from behind the terminator: [behind]. *)
Definition data_var_cmd (behind str : string) (l : list var_type_t) : option (list var_type_t * string) :=
  let str := match str with String c s => if Ascii.eqb c " " then s else str | EmptyString => str end in
  match str with
  | EmptyString => (fun s => (l, s)) <$> data_var_type_list behind l
  | String c s =>
    if Ascii.eqb c "?" then Some (l, "")
    else if Ascii.eqb c "-" then Some ((data_var_type_del s l).1, "")
    else
      match strchr str " " with
      | None => Some (l, "")
      | Some arg =>
        let name := String.substring 0 (String.length str - String.length arg) str in
        let arg := str_drop 1 arg in
        match strchr arg " " with
        | None => Some (l, "")
        | Some arg2 =>
          Some (data_var_type_add name (atoi (String.substring 0 (String.length arg - String.length arg2) arg))
                  (str_drop 1 arg2) l, "")
        end
      end
  end.

(** The types [var_init] adds. *)
Definition init_types : list var_type_t :=
  foldl (fun l t => data_var_type_add t.1.1 t.1.2 t.2 l) []
    [("char", 1, "b"); ("byte", 1, "b"); ("int", 4, "d"); ("int32", 4, "d"); ("dword", 4, "x"); ("float", 4, "f")].
