(* ===== verification/Vars.v ===== *)
(** * Variables of functions: [src/vars.c]

    The newest variable is the first of the list, the newest access the first of its variable.
    Showing the values, which reads the memory of the debugger, and the visual menu are left out. *)
From S2P Require Import Prelude Utils Flags Data.
#[local] Open Scope string_scope.
#[local] Open Scope Z_scope.

Definition VAR_T_GLOBAL : Z := 0.
Definition VAR_T_LOCAL : Z := 1.
Definition VAR_T_ARG : Z := 2.
Definition VAR_T_ARGREG : Z := 3.

Record var_xs_t := VarXs { xs_addr : Z; xs_set : bool }.
Record var_t := Var {
  v_type : Z; v_addr : Z; v_eaddr : Z; v_delta : Z; v_arraysize : Z; v_name : string; v_vartype : string;
  v_access : list var_xs_t }.

Definition has_space (s : string) : bool := match strchr s " " with Some _ => true | None => false end.

(** The variables afterwards, and the result: 1 when the variable was added. *)
Definition var_add (addr eaddr delta type : Z) (vartype name : string) (arraysize : Z) (l : list var_t) : list var_t * Z :=
  if has_space name || has_space vartype then (l, 0)
  else
    match find_first (fun v => (addr =? v_addr v) && (type =? v_type v) && String.eqb name (v_name v)) l with
    | Some _ => (l, 0)
    | None =>
      (Var type addr eaddr delta arraysize (String.substring 0 128 name) (String.substring 0 128 vartype) [] :: l, 1)
    end.

Definition add_access (x : var_xs_t) (v : var_t) : var_t :=
  Var (v_type v) (v_addr v) (v_eaddr v) (v_delta v) (v_arraysize v) (v_name v) (v_vartype v) (x :: v_access v).

(** The variable an access belongs to. *)
Definition accessed (addr delta type : Z) (v : var_t) : bool :=
  (v_addr v <=? addr) && (addr <=? v_eaddr v) && ((delta =? v_delta v) && (type =? v_type v)).

Definition auto_name (delta : Z) : string := if delta <? 0 then "arg_" +:+ fmt_d (s32 (- delta)) else "var_" +:+ fmt_d delta.
Definition auto_delta (delta : Z) : Z := if delta <? 0 then s32 (- delta) else delta.

(** Two rounds: the second one follows the variable added for an access that belongs to none. *)
Fixpoint access_loop (round : nat) (addr delta type : Z) (set : bool) (ds : list data_t) (l : list var_t) : list var_t * Z :=
  match update_first (accessed addr delta type) (add_access (VarXs addr set)) l with
  | Some l' => (l', 1)
  | None =>
    match data_get_fun_for addr ds with
    | Some (from, to) =>
      let l' := (var_add from to (auto_delta delta) VAR_T_LOCAL "int32" (auto_name delta) 1 l).1 in
      match round with
      | O => (l', 0)
      | S round' => access_loop round' addr (auto_delta delta) type set ds l'
      end
    | None => (l, 0)
    end
  end.
Definition var_add_access (addr delta type : Z) (set : bool) (ds : list data_t) (l : list var_t) : list var_t * Z :=
  access_loop 1 addr delta type set ds l.

Definition var_type_str (fd : Z) : string :=
  if fd =? VAR_T_GLOBAL then "global" else if fd =? VAR_T_LOCAL then "local" else if fd =? VAR_T_ARG then "arg"
  else if fd =? VAR_T_ARGREG then "fastarg" else "(?)".

Definition xs_line (x : var_xs_t) : string :=
  "  0x" +:+ fmt_x0 8 (xs_addr x) +:+ " " +:+ (if xs_set x then "set" else "get") +:+ nl.
Definition var_line (v : var_t) : string :=
  "0x" +:+ fmt_x0 8 (v_addr v) +:+ " - 0x" +:+ fmt_x0 8 (v_eaddr v) +:+ " type=" +:+ var_type_str (v_type v) +:+
  " type=" +:+ v_vartype v +:+ " name=" +:+ v_name v +:+ " delta=" +:+ fmt_d (v_delta v) +:+ " array=" +:+
  fmt_d (v_arraysize v) +:+ nl +:+ foldr (fun x s => xs_line x +:+ s) "" (reverse (v_access v)).

(** The variables alive at an address; 0 lists them all. *)
Definition var_list (addr : Z) (l : list var_t) : string :=
  foldr (fun v s => if (addr =? 0) || ((v_addr v <=? addr) && (addr <=? v_eaddr v)) then var_line v +:+ s else s) "" l.

(** [CFv], [CFa] and [CFA]: the variables, the result and what is printed; the help is left out. *)
Definition var_cmd (str : string) (seek : Z) (ds : list data_t) (l : list var_t) : list var_t * Z * string :=
  match str with
  | String c s =>
    match (if Ascii.eqb c "v" then Some VAR_T_LOCAL else if Ascii.eqb c "a" then Some VAR_T_ARG
           else if Ascii.eqb c "A" then Some VAR_T_ARGREG else None) with
    | None => (l, 0, "")
    | Some type =>
      let add s :=
        let s := match s with String c s' => if Ascii.eqb c " " then s' else s | EmptyString => s end in
        match strchr s " " with
        | None => (l, 0, "")
        | Some p =>
          match strchr (str_drop 1 p) " " with
          | None => (l, 0, "")
          | Some p2 =>
            let vartype := String.substring 0 (String.length (str_drop 1 p) - String.length p2) (str_drop 1 p) in
            let rest := str_drop 1 p2 in
            let '(name, size) := match strchr rest "[" with
                                 | Some p3 => (String.substring 0 (String.length rest - String.length p3) rest, atoi (str_drop 1 p3))
                                 | None => (rest, 0) end in
            ((var_add seek seek (atoi s) type vartype name size l).1, 0, "")
          end
        end in
      match s with
      | EmptyString => (l, 0, var_list 0 l)
      | String d s' =>
        if Ascii.eqb d "." then (l, 0, var_list seek l)
        else if (Ascii.eqb d "s" || Ascii.eqb d "g") && negb (String.eqb s' "") then
          let '(l', r) := var_add_access seek (atoi s') type (Ascii.eqb d "s") ds l in (l', r, "")
        else add s
      end
    end
  | EmptyString => (l, 0, "")
  end.
