(* ===== verification/DataSpec.v ===== *)
(** * Properties of the metadata and of the variables

    Theorems about [Data] and [Vars]: what a new record hides, which comments are kept and shown,
    and what becomes of the access to a variable. *)
From S2P Require Import Prelude Utils Flags Data Vars.
#[local] Open Scope string_scope.
#[local] Open Scope Z_scope.

(** ** Lists *)
Section lists.
Context {A : Type}.
Implicit Types (p : A -> bool) (l : list A).

Lemma find_first_Some p l i x : find_first p l = Some (i, x) -> l !! i = Some x /\ p x = true.
Proof. intros H. apply list_find_Some in H as (H1 & H2 & _). done. Qed.

Lemma find_first_None p l : find_first p l = None -> Forall (fun x => p x = false) l.
Proof. intros H. apply list_find_None in H. eapply Forall_impl; [exact H|]. intros x Hx. by apply not_true_is_false. Qed.

Lemma find_first_none p l : Forall (fun x => p x = false) l -> find_first p l = None.
Proof. intros H. apply list_find_None. eapply Forall_impl; [exact H|]. cbn. intros x Hx. by rewrite Hx. Qed.

Lemma find_first_cons p x l : find_first p (x :: l) = if p x then Some (0%nat, x) else prod_map S id <$> find_first p l.
Proof. unfold find_first. cbn. destruct (p x); done. Qed.

Lemma elem_of_keep p x l : x ∈ keep p l <-> x ∈ l /\ p x = false.
Proof. unfold keep. rewrite list_elem_of_filter. tauto. Qed.

(** Removing elements that do not have the property leaves the first one that has. *)
Lemma find_first_keep p q l : (forall x, x ∈ l -> p x = true -> q x = true -> False) ->
  snd <$> find_first p (keep q l) = snd <$> find_first p l.
Proof.
  induction l as [|x l IH]; intros H; [done|]. unfold keep. rewrite filter_cons.
  assert (snd <$> find_first p (keep q l) = snd <$> find_first p l) as IH'.
  { apply IH. intros y Hy. apply H. by right. }
  rewrite (find_first_cons p x l). destruct (decide (q x = false)) as [E|E].
  - rewrite find_first_cons. destruct (p x); [done|]. fold (keep q l).
    by destruct (find_first p (keep q l)) as [[? ?]|], (find_first p l) as [[? ?]|]; cbn in *.
  - apply not_false_is_true in E. destruct (p x) eqn:Ep; [exfalso; eapply H; [by left|done..]|].
    fold (keep q l). rewrite IH'. by destruct (find_first p l) as [[? ?]|].
Qed.

Lemma keep_delete p l i x : l !! i = Some x -> p x = true -> keep p (delete i l) = keep p l.
Proof.
  intros Hi Hx. unfold keep. rewrite delete_take_drop. rewrite <-(take_drop_middle l i x Hi) at 3.
  rewrite !filter_app, filter_cons_False; [done|]. by rewrite Hx.
Qed.

Lemma keep_all p l : Forall (fun x => p x = false) l -> keep p l = l.
Proof. induction 1; [done|]. unfold keep in *. rewrite filter_cons_True by done. by f_equal. Qed.
End lists.

(** ** Records *)

Lemma add_loop_keep fuel off l : (length l < fuel)%nat -> add_loop fuel off l = Some (keep (has off) l).
Proof.
  revert l. induction fuel as [|fuel IH]; intros l Hl; [lia|]. cbn [add_loop].
  destruct (find_first (has off) l) as [[i d]|] eqn:E.
  - apply find_first_Some in E as [Hi Hd]. pose proof (lookup_lt_Some _ _ _ Hi).
    rewrite IH by (rewrite length_delete; [lia|done]). by rewrite (keep_delete _ _ i d).
  - apply find_first_None in E. by rewrite keep_all.
Qed.

Lemma find_first_keep_same {A} (p : A -> bool) l : find_first p (keep p l) = None.
Proof. apply find_first_none, Forall_forall. by intros x [_ H]%elem_of_keep. Qed.

(** The records an addition leaves: those that do not contain the address. *)
Definition left_over (off : Z) (l : list data_t) : list data_t := keep (has off) l.

(** C38: [data_add] ends.  The records around the address are removed, as a whole; with a type other
    than code the new record answers for the addresses of its block, and every other address is
    answered by the first record left. *)
Theorem data_add_get off type k l : k_cursor_mode k = false -> 0 <= off -> 0 < k_block_size k ->
  off + k_block_size k < 2 ^ 64 ->
  exists l', data_add off type k l = Some l' /\
    (type = DATA_CODE -> data_get off l' = None) /\
    forall a, data_get a l' =
      if negb (type =? DATA_CODE) && ((off <=? a) && (a <? off + k_block_size k)) then Some (new_data off type k)
      else data_get a (left_over off l).
Proof.
  unfold left_over. intros Hm Ho Hb Hl. unfold data_add. rewrite add_loop_keep by lia. destruct (Z.eqb_spec type DATA_CODE) as [->|Hne].
  - eexists. split; [done|]. split; [|done]. intros _. unfold data_get. by rewrite find_first_keep_same.
  - eexists. split; [done|]. split; [done|]. intros a. unfold data_get. rewrite find_first_cons.
    assert (has a (new_data off type k) = ((off <=? a) && (a <? off + k_block_size k))) as ->.
    { unfold has, new_data. rewrite Hm. cbn [d_from d_to]. unfold u64. by rewrite Z.mod_small by lia. }
    cbn [negb andb]. destruct ((off <=? a) && (a <? off + k_block_size k)); [done|].
    by destruct (find_first (has a) (keep (has off) l)) as [[? ?]|].
Qed.

(** ** Comments *)

Definition comments_at (offset : Z) (l : list comment_t) : list string :=
  c_comment <$> filter (fun c => c_offset c = offset) l.

Lemma comments_at_app offset l k : comments_at offset (l ++ k) = (comments_at offset l ++ comments_at offset k)%list.
Proof. unfold comments_at. by rewrite filter_app, fmap_app. Qed.

Lemma comments_at_cons offset c l :
  comments_at offset (c :: l) = ((if decide (c_offset c = offset) then [c_comment c] else []) ++ comments_at offset l)%list.
Proof. unfold comments_at. rewrite filter_cons. by case_decide. Qed.

Lemma comments_at_keep offset o l :
  comments_at o (keep (fun c => offset =? c_offset c) l) = if o =? offset then [] else comments_at o l.
Proof.
  induction l as [|c l IH]; [by destruct (o =? offset)|]. unfold keep in *. rewrite filter_cons, comments_at_cons.
  destruct (decide ((offset =? c_offset c) = false)) as [E|E]; [rewrite comments_at_cons|]; rewrite IH; zcase; subst;
    repeat case_decide; try done; try lia.
Qed.

(** Removing the first element, cons by cons. *)
Lemma remove_first_cons {A} (p : A -> bool) x l : remove_first p (x :: l) = if p x then l else x :: remove_first p l.
Proof.
  unfold remove_first. rewrite find_first_cons. destruct (p x); [done|].
  by destruct (find_first p l) as [[i y]|].
Qed.

Lemma comments_at_remove offset str o l :
  comments_at o (remove_first (fun c => (offset =? c_offset c) && String.eqb (c_comment c) str) l) =
    if o =? offset then remove_first (fun s => String.eqb s str) (comments_at o l) else comments_at o l.
Proof.
  induction l as [|c l IH]; [by destruct (o =? offset)|]. rewrite remove_first_cons, comments_at_cons.
  destruct (Z.eqb_spec offset (c_offset c)) as [Ec|Ec]; cbn [andb].
  - destruct (String.eqb (c_comment c) str) eqn:Es.
    + destruct (Z.eqb_spec o offset) as [->|Ho].
      * rewrite decide_True by done. cbn [app]. by rewrite remove_first_cons, Es.
      * by rewrite decide_False by congruence.
    + rewrite comments_at_cons, IH. destruct (Z.eqb_spec o offset) as [->|Ho]; [|done].
      rewrite decide_True by done. cbn [app]. by rewrite remove_first_cons, Es.
  - rewrite comments_at_cons, IH. destruct (Z.eqb_spec o offset) as [->|Ho]; [|done]. by rewrite decide_False by congruence.
Qed.

(** A comment is added at the end of those of its address, once: an equal one is taken out.  A
    comment that starts with a star takes out all the others of the address.  The comments of
    other addresses stay. *)
Theorem data_comment_add_at offset str l : str <> "" ->
  comments_at offset (data_comment_add offset str l) =
    ((if starts_with "*" str then [] else remove_first (fun s => String.eqb s str) (comments_at offset l)) ++
     [chop_newline str])%list /\
  forall o, o <> offset -> comments_at o (data_comment_add offset str l) = comments_at o l.
Proof.
  intros Hs. unfold data_comment_add. rewrite (proj2 (String.eqb_neq _ _) Hs). split.
  - rewrite comments_at_app, comments_at_cons. rewrite decide_True by done. f_equal. unfold data_comment_del.
    destruct (starts_with "*" str); [rewrite comments_at_keep|rewrite comments_at_remove]; by rewrite Z.eqb_refl.
  - intros o Ho. rewrite comments_at_app, comments_at_cons. rewrite decide_False by (cbn; congruence).
    cbn [app]. change (comments_at o []) with (@nil string). rewrite app_nil_r. unfold data_comment_del.
    destruct (starts_with "*" str); [rewrite comments_at_keep|rewrite comments_at_remove]; by rewrite (proj2 (Z.eqb_neq _ _) Ho).
Qed.

(** The text of comments shown below one another. *)
Definition shown (margin : string) (cs : list string) : string := foldr (fun c s => margin +:+ "; " +:+ c +:+ nl +:+ s) "" cs.

Lemma comment_loop_shown margin skip lines l : 0 <= skip ->
  comment_loop margin skip lines l =
    shown margin (let r := drop (Z.to_nat skip) (c_comment <$> l) in if lines <=? 0 then r else take (Z.to_nat lines) r).
Proof.
  revert skip lines. induction l as [|c l IH]; intros skip lines Hs.
  - cbn. rewrite drop_nil, take_nil. by destruct (lines <=? 0).
  - cbn [comment_loop]. unfold truth. destruct (Z.eqb_spec skip 0) as [->|Hne]; cbn [negb].
    + change (Z.to_nat 0) with 0%nat. rewrite drop_0. cbn [fmap list_fmap].
      assert (forall r, shown margin (c_comment c :: r) = margin +:+ "; " +:+ c_comment c +:+ nl +:+ shown margin r) as Hsh by done.
      specialize (IH 0 (lines - 1)). change (Z.to_nat 0) with 0%nat in IH. rewrite drop_0 in IH. cbv zeta in IH |- *.
      destruct (Z.eqb_spec (lines - 1) 0) as [E|E].
      * replace lines with 1 by lia. done.
      * rewrite IH by lia. destruct (Z.leb_spec (lines - 1) 0), (Z.leb_spec lines 0); try lia; [by rewrite Hsh|].
        replace (Z.to_nat lines) with (S (Z.to_nat (lines - 1))) by lia. cbn [take]. by rewrite Hsh.
    + rewrite IH by lia. replace (Z.to_nat skip) with (S (Z.to_nat (skip - 1))) by lia. done.
Qed.

(** Of the comments of an address the last [cmtlines] are shown, but none at all when there are
    no more than that; a positive [lines] cuts the text off. *)
Theorem data_comment_get_shows offset lines margin cmtlines l : 0 <= margin <= 80 -> 0 <= cmtlines ->
  let n := Z.of_nat (length (comments_at offset l)) in
  let cs := if cmtlines =? 0 then comments_at offset l
            else if cmtlines <? n then drop (Z.to_nat (n - cmtlines)) (comments_at offset l)
            else [] in
  data_comment_get offset lines margin cmtlines l =
    shown (pad " " (Z.to_nat margin) "") (if lines <=? 0 then cs else take (Z.to_nat lines) cs).
Proof.
  intros Hm Hc n cs. unfold data_comment_get. rewrite (Z.max_r 0 margin), (Z.min_r 80 margin), (Z.max_r 0 cmtlines) by lia.
  set (here := filter _ l). assert (c_comment <$> here = comments_at offset l) as Eh by done.
  assert (Z.of_nat (length here) = n) as En by (unfold n; by rewrite <-Eh, length_fmap).
  rewrite comment_loop_shown by (unfold truth; zcase; cbn; lia). rewrite Eh, En. cbv zeta.
  replace (drop _ (comments_at offset l)) with cs; [done|]. unfold cs, truth.
  destruct (Z.eqb_spec cmtlines 0) as [->|]; [done|]. cbn [negb andb].
  destruct (Z.ltb_spec cmtlines n); [done|]. symmetry. apply drop_ge. lia.
Qed.

(** ** Variables *)

(** All the accesses that are recorded. *)
Definition accesses (l : list var_t) : Z := foldr (fun v n => Z.of_nat (length (v_access v)) + n) 0 l.

Lemma update_first_cons {A} (p : A -> bool) g x l :
  update_first p g (x :: l) = if p x then Some (g x :: l) else (fun l' => x :: l') <$> update_first p g l.
Proof.
  unfold update_first. rewrite find_first_cons. destruct (p x); [done|].
  by destruct (find_first p l) as [[i y]|].
Qed.

Lemma update_first_None {A} (p : A -> bool) g l : update_first p g l = None <-> Forall (fun x => p x = false) l.
Proof.
  unfold update_first. destruct (find_first p l) as [[i x]|] eqn:E.
  - split; [done|]. intros H. by rewrite find_first_none in E.
  - split; [|done]. intros _. by apply find_first_None.
Qed.

Lemma update_first_access p x l l' : update_first p (add_access x) l = Some l' -> accesses l' = accesses l + 1.
Proof.
  revert l'. induction l as [|v l IH]; intros l'; [done|]. rewrite update_first_cons. destruct (p v).
  - intros [= <-]. unfold accesses. cbn [foldr]. cbn [v_access add_access length]. lia.
  - destruct (update_first p (add_access x) l) as [l1|]; [|done]. intros [= <-].
    specialize (IH l1 eq_refl). unfold accesses in *. cbn [foldr]. lia.
Qed.

Lemma var_add_accesses from to d t vt n sz l : accesses (var_add from to d t vt n sz l).1 = accesses l.
Proof.
  unfold var_add. destruct (has_space n || has_space vt); [done|]. by destruct (find_first _ l).
Qed.

Lemma fun_for_inside addr ds from to : data_get_fun_for addr ds = Some (from, to) -> from < addr < to.
Proof.
  unfold data_get_fun_for, find_last. destruct (find_first _ _) as [[i d]|] eqn:E; [|done]. intros [= <- <-].
  apply find_first_Some in E as [_ H]. rewrite !andb_true_iff, !Z.ltb_lt in H. tauto.
Qed.

Definition no_space (s : string) : Prop := has_space s = false.
Lemma no_space_cons c s : c <> " "%char -> no_space s -> no_space (String c s).
Proof.
  intros Hc Hs. unfold no_space, has_space in *. cbn [strchr]. destruct (Ascii.eqb_spec c " "); [done|exact Hs].
Qed.
Lemma no_space_app s t : no_space s -> no_space t -> no_space (s +:+ t).
Proof.
  intros Hs Ht. induction s as [|c s IH]; [done|]. unfold no_space, has_space in Hs. cbn [strchr] in Hs.
  destruct (Ascii.eqb_spec c " "); [done|]. cbn [String.append]. apply no_space_cons; [done|]. apply IH. exact Hs.
Qed.

Lemma digit_no_space z : digit (z mod 10) <> " "%char.
Proof.
  pose proof (forallb_below (fun d => negb (Ascii.eqb (digit d) " ")) 10 eq_refl (z mod 10) (Z.mod_pos_bound z 10 eq_refl)) as H.
  cbv beta in H. intros E. by rewrite E in H.
Qed.
Lemma digits_no_space fuel z acc : no_space acc -> no_space (digits 10 fuel z acc).
Proof.
  revert z acc. induction fuel as [|fuel IH]; intros z acc Ha; cbn [digits]; [done|].
  assert (no_space (String (digit (z mod 10)) acc)) by (apply no_space_cons; [apply digit_no_space|done]).
  destruct (z <? 10); [done|by apply IH].
Qed.
Lemma fmt_d_no_space z : no_space (fmt_d z).
Proof. unfold fmt_d. destruct (z <? 0); [apply no_space_cons; [done|]|]; by apply digits_no_space. Qed.
Lemma auto_name_no_space d : no_space (auto_name d).
Proof. unfold auto_name. destruct (d <? 0); apply no_space_app; done || apply fmt_d_no_space. Qed.

(** The variable of the automatic name, where there is one, is the one for the access. *)
Definition auto_named (from to delta : Z) (v : var_t) : Prop :=
  v_addr v = from -> v_type v = VAR_T_LOCAL -> v_name v = auto_name delta -> v_delta v = auto_delta delta /\ v_eaddr v = to.

(** The accesses recorded grow by the result.  An access to a local variable inside a function is
    always recorded; one to an argument that is not declared never is, although a local variable is
    made up for it. *)
Theorem var_access_recorded addr delta type set ds l l' r from to :
  data_get_fun_for addr ds = Some (from, to) -> var_add_access addr delta type set ds l = (l', r) ->
  accesses l' = accesses l + r /\
  (type = VAR_T_LOCAL -> Forall (auto_named from to delta) l -> r = 1) /\
  (type <> VAR_T_LOCAL ->
   Forall (fun v => accessed addr delta type v = false /\ accessed addr (auto_delta delta) type v = false) l -> r = 0).
Proof.
  intros Hf. unfold var_add_access. cbn [access_loop]. rewrite Hf. pose proof (fun_for_inside _ _ _ _ Hf) as Hin.
  destruct (update_first (accessed addr delta type) _ l) as [l1|] eqn:E1.
  { intros [= <- <-]. split; [by eapply update_first_access|]. split; [done|]. intros _ H. exfalso.
    assert (Forall (fun v => accessed addr delta type v = false) l) as H'.
    { eapply Forall_impl; [exact H|]. by intros v [Hv _]. }
    by rewrite (proj2 (update_first_None _ _ _) H') in E1. }
  set (l2 := (var_add from to (auto_delta delta) VAR_T_LOCAL "int32" (auto_name delta) 1 l).1).
  assert (accesses l2 = accesses l) as Ha by apply var_add_accesses.
  destruct (update_first (accessed addr (auto_delta delta) type) _ l2) as [l3|] eqn:E2; intros [= <- <-].
  - pose proof (update_first_access _ _ _ _ E2) as Hup. split; [lia|]. split; [done|]. intros Ht H. exfalso.
    assert (update_first (accessed addr (auto_delta delta) type) (add_access (VarXs addr set)) l2 = None) as E3; [|congruence].
    apply update_first_None. unfold l2, var_add. destruct (_ || _); [eapply Forall_impl; [exact H|]; by intros v [_ Hv]|].
    destruct (find_first _ l); cbn [fst]; [|constructor]; try (eapply Forall_impl; [exact H|]; by intros v [_ Hv]).
    unfold accessed. cbn [v_addr v_eaddr v_delta v_type]. rewrite (proj2 (Z.eqb_neq type VAR_T_LOCAL) Ht). by rewrite !andb_false_r.
  - rewrite var_add_accesses. split; [lia|]. split; [|done]. intros -> Hn. exfalso.
    apply update_first_None in E2. revert E2. unfold l2, var_add.
    rewrite (auto_name_no_space delta : has_space _ = false). change (has_space "int32") with false. cbn [orb].
    destruct (find_first _ l) as [[i v]|] eqn:Ev; cbn [fst].
    + apply find_first_Some in Ev as [Hv Hm]. rewrite !andb_true_iff, !Z.eqb_eq, String.eqb_eq in Hm.
      destruct Hm as [[Hm1 Hm2] Hm3]. rewrite !Forall_forall in *. apply list_elem_of_lookup_2 in Hv.
      destruct (Hn v Hv) as [Hd He]; [by symmetry..|]. intros H. specialize (H v Hv). revert H. unfold accessed.
      rewrite <-Hm1, He, <-Hd, <-Hm2, !Z.eqb_refl. zcase; done || lia.
    + intros [H _]%Forall_cons. revert H. unfold accessed. cbn [v_addr v_eaddr v_delta v_type].
      rewrite !Z.eqb_refl. zcase; done || lia.
Qed.

(** ** Witnesses *)

Definition demo_conf : data_conf := DataConf 16 0 0 false 0 (-1) 0.
Definition demo_data : list data_t := [Data 0 8 DATA_STR 9 ""; Data 4 100 DATA_FUN 97 ""].

(** The string at 20 takes the whole function out: nothing is known of 50 afterwards. *)
Lemma data_add_get_witness :
  exists l', data_add 20 DATA_STR demo_conf demo_data = Some l' /\
    data_get 30 l' = Some (new_data 20 DATA_STR demo_conf) /\ data_get 50 l' = None.
Proof.
  destruct (data_add_get 20 DATA_STR demo_conf demo_data) as (l' & E & _ & H); [reflexivity|cbn; lia..|].
  exists l'. split; [exact E|]. rewrite !H. split; reflexivity.
Defined.

Lemma data_comment_add_at_witness :
  comments_at 7 (data_comment_add 7 "*important" [Comment 7 "first"; Comment 7 "second"]) = ["*important"].
Proof. apply (data_comment_add_at 7 "*important" [Comment 7 "first"; Comment 7 "second"]). discriminate. Defined.

Lemma data_comment_get_shows_witness :
  data_comment_get 7 100 0 2 [Comment 7 "first"; Comment 7 "second"] = "" /\
  data_comment_get 7 100 0 1 [Comment 7 "first"; Comment 7 "second"] = "; second" +:+ nl.
Proof. split; rewrite data_comment_get_shows by lia; reflexivity. Defined.

Lemma var_access_recorded_witness :
  var_add_access 50 4 VAR_T_LOCAL true demo_data [] =
    ([Var VAR_T_LOCAL 4 100 4 1 "var_4" "int32" [VarXs 50 true]], 1) /\
  (var_add_access 50 4 VAR_T_ARG true demo_data []).2 = 0.
Proof.
  split; [reflexivity|]. destruct (var_add_access 50 4 VAR_T_ARG true demo_data []) as [l' r] eqn:E.
  apply (var_access_recorded 50 4 VAR_T_ARG true demo_data [] l' r 4 100); [reflexivity|exact E|discriminate|constructor].
Defined.
