(* ===== verification/Config.v ===== *)
(** * The configuration variables: [src/config.c]

    The variables are a list in the order they were made; the newest of a name's hash is the one
    found.  A callback is a function of the node and of the rest of the program [W]. *)
From S2P Require Import Prelude Utils.
#[local] Open Scope string_scope.
#[local] Open Scope Z_scope.

Definition CN_BOOL : Z := 0x1.
Definition CN_INT : Z := 0x2.
Definition CN_OFFT : Z := 0x4.
Definition CN_STR : Z := 0x8.
Definition CN_RO : Z := 0x10.
Definition CN_RW : Z := 0x20.

Record config_node_t := Node {
  n_name : string; n_hash : Z; n_flags : Z; n_value : string; n_ivalue : Z; n_callback : bool }.

Record config_new_t (W : Type) := ConfigNew { nodes : list config_node_t; lock : bool; world : W }.
Arguments ConfigNew {W}. Arguments nodes {W}. Arguments lock {W}. Arguments world {W}.

(** What [config_get] returns: the null pointer, the pointer 1 that stands for a true boolean, a text. *)
Inductive config_value := CNull | CTrue | CStr (s : string).

Definition flag_on (f mask : Z) : bool := truth (Z.land f mask).
Definition is_true (v : string) : bool := String.eqb v "true" || String.eqb v "1".

Section config.
Context {W : Type} (get_math get_offset : string -> Z).
(** The callbacks of the nodes that have one. *)
Context (callback : config_node_t -> W -> config_node_t * W).
Notation st_t := (config_new_t W).

(** The name is not empty: its hash is read from the second character on. *)
Definition config_node_new (name : string) (value : option string) : option config_node_t :=
  (fun h => Node name h (Z.lor CN_RW CN_STR) (default "" value) 0 false) <$> strhash name.

Definition find_node (h : Z) (l : list config_node_t) : option (nat * config_node_t) :=
  list_find (fun n => n_hash n = h) l.

(** The position of the node; the search is from the end and by the hash alone. *)
Definition config_node_get (name : string) (st : st_t) : option (option nat) :=
  (fun h => (fun p => (length (nodes st) - 1 - p.1)%nat) <$> find_node h (reverse (nodes st))) <$> strhash name.

Definition config_list (str : option string) (st : st_t) : string :=
  let pfx := match str with Some s => drop_while iswhitechar s | None => "" end in
  foldr (fun n s => if starts_with pfx (n_name n) then n_name n +:+ " = " +:+ n_value n +:+ nl +:+ s else s) "" (nodes st).

(** The value and whether [config_get_notfound] is set. *)
Definition config_get (name : string) (st : st_t) : option (config_value * bool) :=
  match config_node_get name st with
  | None => None
  | Some None => Some (CNull, true)
  | Some (Some i) =>
    match nodes st !! i with
    | Some n =>
      Some (if flag_on (n_flags n) CN_BOOL then (if is_true (n_value n) then CTrue else CNull) else CStr (n_value n), false)
    | None => None
    end
  end.

Definition config_get_i (name : string) (st : st_t) : option Z :=
  match config_node_get name st with
  | None => None
  | Some None => Some 0
  | Some (Some i) =>
    (fun n => if truth (n_ivalue n) then n_ivalue n else u64 (get_math (n_value n))) <$> nodes st !! i
  end.

(** [if (node && node->callback) node->callback(node)]. *)
Definition call_back (i : nat) (st : st_t) : option st_t :=
  match nodes st !! i with
  | Some n =>
    if n_callback n then
      let '(n', w) := callback n (world st) in Some (ConfigNew (<[i := n']> (nodes st)) (lock st) w)
    else Some st
  | None => None
  end.

Definition set_flags (f : Z) (n : config_node_t) : config_node_t :=
  Node (n_name n) (n_hash n) f (n_value n) (n_ivalue n) (n_callback n).
Definition set_val (v : string) (i : Z) (n : config_node_t) : config_node_t :=
  Node (n_name n) (n_hash n) (n_flags n) v i (n_callback n).

Definition contains_char (c : ascii) (s : string) : bool := match strchr s c with Some _ => true | None => false end.

(** The new contents of a node that is not read only; a boolean is not set to a null value. *)
Definition set_node (value : option string) (n : config_node_t) : option config_node_t :=
  if flag_on (n_flags n) CN_BOOL then
    match value with
    | Some v => Some (set_val (if is_true v then "true" else "false") (if is_true v then 1 else 0) n)
    | None => None
    end
  else
    match value with
    | None => Some (set_val "" 0 n)
    | Some v =>
      let i := if contains_char "%" v then 0
               else if contains_char "/" v then u64 (get_offset v) else u64 (get_math v) in
      Some (set_flags (Z.lor (n_flags n) CN_INT) (set_val v i n))
    end.

(** The node's position, if the variable is there afterwards, and the state. *)
Definition config_set (name : string) (value : option string) (st : st_t) : option (option nat * st_t) :=
  if String.eqb name "" then Some (None, st)
  else
    match config_node_get name st with
    | None => None
    | Some (Some i) =>
      match nodes st !! i with
      | None => None
      | Some n =>
        if flag_on (n_flags n) CN_RO then Some (Some i, st)
        else
          match set_node value n with
          | None => None
          | Some n' =>
            (fun st' => (Some i, st')) <$> call_back i (ConfigNew (<[i := n']> (nodes st)) (lock st) (world st))
          end
      end
    | Some None =>
      if lock st then Some (None, st)
      else
        match config_node_new name value with
        | None => None
        | Some n =>
          let n := match value with
                   | Some v =>
                     if String.eqb v "true" || String.eqb v "false" then
                       set_flags (Z.lor (n_flags n) CN_BOOL) (set_val v (if String.eqb v "true" then 1 else 0) n)
                     else n
                   | None => n
                   end in
          Some (Some (length (nodes st)), ConfigNew (nodes st ++ [n])%list (lock st) (world st))
        end
    end.

(** The flags of a node that is there are replaced: a boolean becomes an integer. *)
Definition config_set_i (name : string) (i : Z) (st : st_t) : option (option nat * st_t) :=
  match config_node_get name st with
  | None => None
  | Some (Some k) =>
    match nodes st !! k with
    | None => None
    | Some n =>
      if flag_on (n_flags n) CN_RO then Some (None, st)
      else
        let v := if flag_on (n_flags n) CN_BOOL then (if truth i then "true" else "false") else fmt_d (s64 i) in
        let n' := set_flags (Z.lor CN_RW CN_INT) (set_val v i n) in
        (fun st' => (Some k, st')) <$> call_back k (ConfigNew (<[k := n']> (nodes st)) (lock st) (world st))
    end
  | Some None =>
    if lock st then Some (None, st)
    else
      match config_node_new name (Some (fmt_d (s32 (u32 i)))) with
      | None => None
      | Some n =>
        Some (Some (length (nodes st)),
              ConfigNew (nodes st ++ [set_flags (Z.lor CN_RW CN_OFFT) (set_val (n_value n) i n)])%list (lock st) (world st))
      end
  end.

Definition config_rm (name : string) (st : st_t) : option string :=
  (fun p => match p with Some _ => "TODO: remove: not yet implemented" +:+ nl | None => "node not found" +:+ nl end)
    <$> config_node_get name st.

Definition value_line (v : config_value) : string :=
  match v with CTrue => "true" | CNull => "false" | CStr s => s end +:+ nl.

Fixpoint last_is (c : ascii) (s : string) : bool :=
  match s with
  | EmptyString => false
  | String a EmptyString => Ascii.eqb a c
  | String _ s' => last_is c s'
  end.

(** [e name], [e name=value], [e prefix.], [e -name]: the state and what is printed. *)
Definition config_eval (text : string) (st : st_t) : option (st_t * string) :=
  let str := strclean text in
  if String.eqb str "" || String.eqb str "help" then Some (st, config_list None st)
  else if starts_with "-" str then (fun s => (st, s)) <$> config_rm (str_drop 1 str) st
  else
    match split_at "=" str with
    | Some (l, r) => (fun p => (p.2, "")) <$> config_set (strclean l) (Some (strclean r)) st
    | None =>
      if last_is "." str then Some (st, config_list (Some str) st)
      else
        match config_get str st with
        | Some (_, true) => Some (st, config_list (Some str) st)
        | Some (v, false) => Some (st, value_line v)
        | None => None
        end
    end.
End config.

(** ** Lemmas *)
Section lemmas.
Context {W : Type} (get_math get_offset : string -> Z) (callback : config_node_t -> W -> config_node_t * W).
Notation st_t := (config_new_t W).

(** The position of the last node of a hash depends on the hashes only. *)
Definition last_pos (h : Z) (hs : list Z) : option nat :=
  (fun p => (length hs - 1 - p.1)%nat) <$> list_find (fun x => x = h) (reverse hs).

Lemma node_get_pos name h (st : st_t) : strhash name = Some h ->
  config_node_get name st = Some (last_pos h (n_hash <$> nodes st)).
Proof.
  intros E. unfold config_node_get, last_pos, find_node. rewrite E. cbn [fmap option_fmap option_map]. f_equal.
  rewrite <-fmap_reverse, list_find_fmap, length_fmap. unfold compose.
  by destruct (list_find _ (reverse (nodes st))) as [[i n]|].
Qed.

Lemma last_pos_Some h hs i : last_pos h hs = Some i -> hs !! i = Some h.
Proof.
  unfold last_pos. destruct (list_find _ _) as [[j x]|] eqn:E; [|done]. intros [= <-].
  apply list_find_Some in E as (Hj & -> & _). pose proof (lookup_lt_Some _ _ _ Hj) as Hl. rewrite length_reverse in Hl.
  rewrite reverse_lookup in Hj by done. by replace (length hs - 1 - j)%nat with (length hs - S j)%nat by lia.
Qed.

Lemma last_pos_app h hs k : last_pos h (hs ++ [k]) = if decide (k = h) then Some (length hs) else last_pos h hs.
Proof.
  unfold last_pos. rewrite reverse_app, length_app. cbn [reverse app length]. change (reverse [k]) with [k]. cbn [app list_find].
  case_decide; cbn.
  - f_equal. lia.
  - destruct (list_find _ (reverse hs)) as [[i x]|] eqn:E; cbn; [|done]. f_equal.
    apply list_find_Some in E as (E & _). pose proof (lookup_lt_Some _ _ _ E) as Hl. rewrite length_reverse in Hl. lia.
Qed.

Lemma hashes_insert (l : list config_node_t) i n n' : l !! i = Some n -> n_hash n' = n_hash n ->
  n_hash <$> <[i := n']> l = n_hash <$> l.
Proof.
  intros Hi Hh. rewrite list_fmap_insert, Hh. apply list_insert_id. by rewrite list_lookup_fmap, Hi.
Qed.

Lemma last_pos_node h (st : st_t) i : last_pos h (n_hash <$> nodes st) = Some i ->
  exists n, nodes st !! i = Some n /\ n_hash n = h.
Proof. intros E. apply last_pos_Some in E. rewrite list_lookup_fmap in E. by apply fmap_Some in E as (n & -> & ->); exists n. Qed.

Lemma strhash_Some name : name <> "" -> exists h, strhash name = Some h.
Proof. destruct name; [done|]. intros _. by eexists. Qed.

(** What a name reads from a node. *)
Definition reading (n : config_node_t) : config_value :=
  if flag_on (n_flags n) CN_BOOL then (if is_true (n_value n) then CTrue else CNull) else CStr (n_value n).

Lemma config_get_at name h (st : st_t) : strhash name = Some h ->
  config_get name st =
    match last_pos h (n_hash <$> nodes st) with
    | Some i => (fun n => (reading n, false)) <$> nodes st !! i
    | None => Some (CNull, true)
    end.
Proof.
  intros E. unfold config_get. rewrite (node_get_pos name h) by done.
  by destruct (last_pos h _) as [i|]; [destruct (nodes st !! i)|].
Qed.

(** The node an operation may change: not read only, without a callback. *)
Definition plain_node (n : config_node_t) : Prop := flag_on (n_flags n) CN_RO = false /\ n_callback n = false.
Definition plain_at (name : string) (st : st_t) : Prop :=
  forall h i n, strhash name = Some h -> last_pos h (n_hash <$> nodes st) = Some i -> nodes st !! i = Some n -> plain_node n.

(** One node replaced by another of the same hash. *)
Lemma get_insert name h (st : st_t) i n n' h' : strhash name = Some h -> nodes st !! i = Some n -> n_hash n = h' -> n_hash n' = h' ->
  last_pos h' (n_hash <$> nodes st) = Some i ->
  config_get name (ConfigNew (<[i := n']> (nodes st)) (lock st) (world st)) =
    if decide (h = h') then Some (reading n', false) else config_get name st.
Proof.
  intros E Hi Hn Hn' Hp. rewrite !(config_get_at name h) by done. cbn [nodes]. rewrite (hashes_insert _ i n n') by congruence.
  case_decide as Hd; [rewrite Hd, Hp|].
  - rewrite list_lookup_insert_eq by (by eapply lookup_lt_Some). done.
  - destruct (last_pos h _) as [j|] eqn:Ej; [|done]. rewrite list_lookup_insert_ne; [done|].
    intros <-. apply Hd. apply last_pos_Some in Ej. rewrite list_lookup_fmap, Hi in Ej. injection Ej as Ej. congruence.
Qed.
End lemmas.

(** ** Properties *)
Section theorems.
Context {W : Type} (get_math get_offset : string -> Z) (callback : config_node_t -> W -> config_node_t * W).
Notation st_t := (config_new_t W).

(** What a variable that is set reads as: a boolean, old or new, keeps the truth only. *)
Definition reads_as (bool_ : bool) (v : string) : config_value :=
  if bool_ then (if is_true v then CTrue else CNull) else CStr v.
(** The variable is a boolean afterwards. *)
Definition becomes_bool (name v : string) (st : st_t) : bool :=
  match config_node_get name st with
  | Some (Some i) => match nodes st !! i with Some n => flag_on (n_flags n) CN_BOOL | None => false end
  | _ => String.eqb v "true" || String.eqb v "false"
  end.

Lemma reading_set_node v n n' : set_node get_math get_offset (Some v) n = Some n' ->
  reading n' = reads_as (flag_on (n_flags n) CN_BOOL) v /\ n_hash n' = n_hash n.
Proof.
  unfold set_node, reading, reads_as. destruct (flag_on (n_flags n) CN_BOOL) eqn:Eb; intros [= <-]; cbn [n_flags set_val set_flags n_value n_hash].
  - rewrite Eb. by destruct (is_true v).
  - unfold flag_on in *. rewrite Z.land_lor_distr_l. apply negb_false_iff, Z.eqb_eq in Eb. by rewrite Eb.
Qed.

Lemma get_append name h (st : st_t) n : strhash name = Some h -> 
  config_get name (ConfigNew (nodes st ++ [n])%list (lock st) (world st)) =
    if decide (n_hash n = h) then Some (reading n, false) else config_get name st.
Proof.
  intros E. rewrite !(config_get_at name h) by done. cbn [nodes]. rewrite fmap_app. cbn [fmap list_fmap].
  rewrite last_pos_app, length_fmap. case_decide.
  - by rewrite list_lookup_middle.
  - destruct (last_pos h _) as [j|] eqn:Ej; [|done]. rewrite lookup_app_l; [done|].
    apply last_pos_Some, lookup_lt_Some in Ej. by rewrite length_fmap in Ej.
Qed.

(** Unless the variables are locked, a variable that is set reads as it was set, a boolean as its
    truth; the names of every other hash read as before. *)
Theorem config_set_get name v (st : st_t) h : strhash name = Some h -> plain_at name st ->
  lock st = false \/ last_pos h (n_hash <$> nodes st) <> None ->
  exists i st', config_set get_math get_offset callback name (Some v) st = Some (Some i, st') /\
    config_get name st' = Some (reads_as (becomes_bool name v st) v, false) /\
    forall name' h', strhash name' = Some h' -> h' <> h -> config_get name' st' = config_get name' st.
Proof.
  intros E Hp Hl. unfold config_set, becomes_bool. rewrite (node_get_pos name h) by done.
  destruct (String.eqb_spec name "") as [->|_]; [done|].
  destruct (last_pos h (n_hash <$> nodes st)) as [i|] eqn:Ei.
  - destruct (last_pos_node h st i Ei) as (n & Hn & Hh). rewrite Hn. destruct (Hp h i n E Ei Hn) as [Hro Hcb]. rewrite Hro.
    destruct (set_node get_math get_offset (Some v) n) as [n'|] eqn:En.
    2: { exfalso. unfold set_node in En. by destruct (flag_on (n_flags n) CN_BOOL). }
    destruct (reading_set_node v n n' En) as [Hr Hh']. unfold call_back. cbn [nodes].
    rewrite list_lookup_insert_eq by (by eapply lookup_lt_Some).
    assert (n_callback n' = false) as ->.
    { unfold set_node in En. by destruct (flag_on (n_flags n) CN_BOOL); injection En as <-. }
    eexists i, _. split; [reflexivity|]. split.
    + rewrite (get_insert name h st i n n' h) by (done || congruence). rewrite decide_True by done. by rewrite Hr.
    + intros name' h' E' Hne. rewrite (get_insert name' h' st i n n' h) by (done || congruence). by rewrite decide_False.
  - destruct Hl as [Hl|]; [|done]. rewrite Hl. unfold config_node_new. rewrite E. cbn [fmap option_fmap option_map default].
    set (n := if _ || _ then _ else _). assert (n_hash n = h) as Hh by (unfold n; by destruct (_ || _)).
    eexists _, _. split; [reflexivity|]. split.
    + pose proof (get_append name h st n E) as Hg. rewrite Hl in Hg. rewrite decide_True in Hg by done. rewrite Hg. do 2 f_equal.
      unfold n, reading, reads_as. destruct (String.eqb_spec v "true") as [->|]; [done|].
      by destruct (String.eqb_spec v "false") as [->|].
    + intros name' h' E' Hne. pose proof (get_append name' h' st n E') as Hg. rewrite Hl in Hg. by rewrite decide_False in Hg by congruence.
Qed.

Lemma schar_ascii c : ord c < 128 -> schar c = ord c.
Proof.
  intros H. assert (0 <= ord c) by (unfold ord; lia). unfold schar, s8. rewrite Z.mod_small by lia. lia.
Qed.

Lemma hash_step x y : 0 <= x < 128 -> 0 <= y < 128 -> s32 (x + s32 (s32 (y * 1) * 0x31)) = x + 49 * y.
Proof. intros Hx Hy. rewrite (s32_id (y * 1)), (s32_id (y * 1 * 0x31)), s32_id by lia. lia. Qed.

(** Names are told apart by their hashes only: of every name whose first two characters are moved by
    -49 and 1 the other one reads the same variable. *)
Theorem config_names_collide c d c' d' s (st : st_t) :
  49 <= ord c < 128 -> ord d < 127 -> ord c' = ord c - 49 -> ord d' = ord d + 1 ->
  String c (String d s) <> String c' (String d' s) /\
  config_get (String c' (String d' s)) st = config_get (String c (String d s)) st.
Proof.
  intros Hc Hd Hc' Hd'. assert (0 <= ord d) by (unfold ord; lia). split; [intros [= -> ->]; lia|].
  assert (strhash (String c' (String d' s)) = strhash (String c (String d s))) as E.
  { unfold strhash. cbn [strhash_loop]. rewrite !schar_ascii, !hash_step by lia. by replace (ord c' + 49 * ord d') with (ord c + 49 * ord d) by lia. }
  unfold config_get, config_node_get. by rewrite E.
Qed.

(** A boolean set by [config_set_i] is none any more: it reads as a text, which counts as true for 0
    as well. *)
Theorem config_set_i_bool name h i n v (st : st_t) : strhash name = Some h -> plain_at name st ->
  last_pos h (n_hash <$> nodes st) = Some i -> nodes st !! i = Some n -> flag_on (n_flags n) CN_BOOL = true ->
  exists st', config_set_i callback name v st = Some (Some i, st') /\
    config_get name st' = Some (CStr (if truth v then "true" else "false"), false).
Proof.
  intros E Hp Ei Hn Hb. unfold config_set_i. rewrite (node_get_pos name h) by done. rewrite Ei, Hn.
  destruct (Hp h i n E Ei Hn) as [Hro Hcb]. rewrite Hro, Hb. unfold call_back. cbn [nodes].
  rewrite list_lookup_insert_eq by (by eapply lookup_lt_Some). cbn [set_flags set_val n_callback]. rewrite Hcb.
  eexists. split; [reflexivity|].
  destruct (last_pos_node h st i Ei) as (n0 & Hn0 & Hh). assert (n0 = n) as -> by congruence.
  rewrite (get_insert name h st i n _ h) by (done || congruence). rewrite decide_True by done. done.
Qed.
End theorems.

(** ** Witnesses *)
Definition demo_node (n : string) (f : Z) (v : string) : config_node_t :=
  Node n (default 0 (strhash n)) f v 0 false.
Definition demo_vars : config_new_t unit :=
  ConfigNew [demo_node "asm.arch" (Z.lor CN_RW CN_STR) "x86"; demo_node "scr.color" (Z.lor (Z.lor CN_RW CN_STR) CN_BOOL) "false"]
    true tt.
Definition no_callback (n : config_node_t) (w : unit) : config_node_t * unit := (n, w).

Lemma vars_plain name : plain_at name demo_vars.
Proof.
  intros h i n _ _ Hi. unfold demo_vars in Hi. cbn [nodes] in Hi. destruct i as [|[|i]]; cbn in Hi; [..|done]; simplify_eq; split; reflexivity.
Qed.

Lemma config_set_get_witness :
  exists i st', config_set (fun _ => 0) (fun _ => 0) no_callback "asm.arch" (Some "java") demo_vars = Some (Some i, st') /\
    config_get "asm.arch" st' = Some (CStr "java", false) /\ config_get "scr.color" st' = Some (CNull, false).
Proof.
  destruct (config_set_get (fun _ => 0) (fun _ => 0) no_callback "asm.arch" "java" demo_vars (default 0 (strhash "asm.arch")))
    as (i & st' & H1 & H2 & H3); [reflexivity|apply vars_plain|right; vm_compute; discriminate|].
  exists i, st'. split; [exact H1|]. split; [exact H2|].
  rewrite (H3 "scr.color" (default 0 (strhash "scr.color"))); [reflexivity..|vm_compute; discriminate].
Defined.

(** [scr.color] is also known as [Bdr.color]. *)
Lemma config_names_collide_witness :
  config_get "Bdr.color" demo_vars = config_get "scr.color" demo_vars.
Proof. apply (config_names_collide "s" "c" "B" "d" "r.color" demo_vars); vm_compute; intuition discriminate. Defined.

Lemma config_set_i_bool_witness :
  exists st', config_set_i no_callback "scr.color" 0 demo_vars = Some (Some 1%nat, st') /\
    config_get "scr.color" st' = Some (CStr "false", false).
Proof.
  apply (config_set_i_bool no_callback "scr.color" (default 0 (strhash "scr.color")) 1
    (demo_node "scr.color" (Z.lor (Z.lor CN_RW CN_STR) CN_BOOL) "false")); [reflexivity|apply vars_plain|vm_compute; reflexivity..].
Defined.
