(* ===== verification/Bp.v ===== *)
(** * Breakpoints: [src/dbg/bp.c] and [src/dbg/arch/i386-bp.c]

    The 128 slots for breakpoints, the four debug registers of the processor, and the bytes that stand
    in the memory of the process for a software breakpoint.  The calls of the operating system always
    succeed; the length of an instruction comes from the disassembler.  [None] is an access outside
    the slots. *)
From S2P Require Import Prelude StateM Utils Flags.
#[local] Open Scope string_scope.
#[local] Open Scope Z_scope.

Definition MAX_BPS : nat := 128.
Definition BP_NONE : Z := 0.
Definition BP_HARD : Z := 1.
Definition BP_SOFT : Z := 2.
Definition BP_TRACE : Z := 3.

Definition DR_CONTROL : nat := 7.
Definition DR_NADDR : nat := 4.
Definition DR_RW_EXECUTE : Z := 0.

Record bp_t := Bp { b_hw : bool; b_addr : Z; b_len : Z; b_trace : bool; b_count : Z; b_data : list Z }.

(** The memory of the process: [debug_read_at] and [debug_write_at], and what they promise of the
    bytes. *)
Class Target (T : Type) := {
  t_read : Z -> nat -> T -> list Z;
  t_write : list Z -> Z -> T -> T;
  t_byte : T -> Z -> Z;
  t_read_length a n t : length (t_read a n t) = n;
  t_read_lookup a n t i : (i < n)%nat -> t_read a n t !! i = Some (t_byte t (a + Z.of_nat i));
  t_write_byte d a t x : t_byte (t_write d a t) x = default (t_byte t x) (if a <=? x then d !! Z.to_nat (x - a) else None) }.

(** A memory of all addresses. *)
#[export] Instance fun_target : Target (Z -> Z).
Proof.
  refine {| t_read a n t := (fun i => t (a + Z.of_nat i)) <$> seq 0 n;
            t_write d a t := fun x => default (t x) (if a <=? x then d !! Z.to_nat (x - a) else None);
            t_byte t x := t x |}.
  - intros a n t. by rewrite length_fmap, length_seq.
  - intros a n t i Hi. rewrite list_lookup_fmap, lookup_seq_lt by done. done.
  - done.
Defined.

(** The globals: [ps], and the program counter and debug registers of the process.  [world] is what the
    commands and flags act on. *)
Record debug_t (T W : Type) := Debug {
  bps : list bp_t; bps_n : Z; dr : list Z; pc : Z; tmem : T; world : W }.
Arguments Debug {T W}. Arguments bps {T W}. Arguments bps_n {T W}. Arguments dr {T W}. Arguments pc {T W}.
Arguments tmem {T W}. Arguments world {T W}.

Section bp.
Context {T W : Type} `{!Target T}.
(** [get_len_ins], [radare_cmd] and [flag_set] on the rest of the program. *)
Context (get_len_ins : list Z -> Z) (radare_cmd : string -> W -> W) (set_flag : string -> Z -> W -> W).
Notation st_t := (debug_t T W).
Notation M := (StateM.M st_t).

Definition with_bps (l : list bp_t) (st : st_t) : st_t := Debug l (bps_n st) (dr st) (pc st) (tmem st) (world st).
Definition with_n (n : Z) (st : st_t) : st_t := Debug (bps st) n (dr st) (pc st) (tmem st) (world st).
Definition with_dr (d : list Z) (st : st_t) : st_t := Debug (bps st) (bps_n st) d (pc st) (tmem st) (world st).
Definition with_pc (a : Z) (st : st_t) : st_t := Debug (bps st) (bps_n st) (dr st) a (tmem st) (world st).
Definition with_tmem (t : T) (st : st_t) : st_t := Debug (bps st) (bps_n st) (dr st) (pc st) t (world st).
Definition with_world (w : W) (st : st_t) : st_t := Debug (bps st) (bps_n st) (dr st) (pc st) (tmem st) w.

(** ** Debug registers *)

(** The registers have 32 bits. *)
Definition dr_get (i : nat) (d : list Z) : Z := default 0 (d !! i).
Definition dr_set (i : nat) (v : Z) (d : list Z) : list Z := <[i := u32 v]> d.

Definition I386_DR_SET_RW_LEN (control : Z) (i : nat) (rwlen : Z) : Z :=
  Z.lor (Z.land control (Z.lnot (Z.shiftl 0xf (16 + 4 * Z.of_nat i)))) (Z.shiftl rwlen (16 + 4 * Z.of_nat i)).
Definition I386_DR_GET_RW_LEN (control : Z) (i : nat) : Z := Z.land (Z.shiftr control (16 + 4 * Z.of_nat i)) 0xf.
Definition I386_DR_LOCAL_ENABLE (control : Z) (i : nat) : Z := Z.lor control (Z.shiftl 1 (2 * Z.of_nat i)).
Definition I386_DR_DISABLE (control : Z) (i : nat) : Z := Z.land control (Z.lnot (Z.shiftl 3 (2 * Z.of_nat i))).
Definition I386_DR_ENABLE (control : Z) (i : nat) : Z := Z.lor control (Z.shiftl 3 (2 * Z.of_nat i)).
Definition DR_LOCAL_SLOWDOWN : Z := 0x100.
Definition I386_DR_CONTROL_MASK : Z := Z.lnot 0xFC00.

Definition dr_init (d : list Z) : list Z := foldl (fun d i => dr_set i 0 d) d (seq 0 8).

(** The free register found last, or the register that has the address and the type already. *)
Fixpoint dr_loop (addr type control : Z) (free : option nat) (i n : nat) (d : list Z) : option nat * bool :=
  match n with
  | O => (free, false)
  | S n' =>
    if dr_get i d =? 0 then dr_loop addr type control (Some i) (S i) n' d
    else if (dr_get i d =? addr) && (I386_DR_GET_RW_LEN control i =? type) then (Some i, true)
    else dr_loop addr type control free (S i) n' d
  end.

(** The result and the registers; [dr_free] is the register asked for, -1 for any. *)
Definition arch_set_wp_hw_n (dr_free addr type : Z) (d : list Z) : Z * list Z :=
  let control := dr_get DR_CONTROL d in
  let set i :=
    let control := I386_DR_LOCAL_ENABLE (I386_DR_SET_RW_LEN control i type) i in
    let control := Z.land (Z.lor control DR_LOCAL_SLOWDOWN) I386_DR_CONTROL_MASK in
    (Z.of_nat i, dr_set DR_CONTROL control (dr_set i addr d)) in
  if dr_free =? -1 then
    match dr_loop addr type control None 0 DR_NADDR d with
    | (Some i, true) => (Z.of_nat i, d)
    | (Some i, false) => set i
    | (None, _) => (-1, d)
    end
  else if (dr_free <? 0) || (3 <? dr_free) then (-2, d)
  else set (Z.to_nat dr_free).
Definition arch_set_wp_hw (addr type : Z) (d : list Z) : Z * list Z := arch_set_wp_hw_n (-1) addr type d.

(** The first register that holds an address. *)
Fixpoint dr_find (addr : Z) (i n : nat) (d : list Z) : option nat :=
  match n with
  | O => None
  | S n' => if dr_get i d =? addr then Some i else dr_find addr (S i) n' d
  end.

Definition arch_bp_hw_state (addr : Z) (enable : bool) (d : list Z) : Z * list Z :=
  match dr_find addr 0 DR_NADDR d with
  | Some i =>
    let c := dr_get DR_CONTROL d in
    (0, dr_set DR_CONTROL (if enable then I386_DR_ENABLE c i else I386_DR_DISABLE c i) d)
  | None => (-1, d)
  end.

Definition arch_set_bp_hw (addr : Z) : M Z := fun st =>
  let '(r, d) := arch_set_wp_hw addr DR_RW_EXECUTE (dr st) in Some (r, with_dr d st).
Definition arch_bp_rm_hw (b : bp_t) : M Z := fun st =>
  match dr_find (b_addr b) 0 DR_NADDR (dr st) with
  | Some i => Some (0, with_dr (dr_set i 0 (dr st)) st)
  | None => Some (-1, st)
  end.

(** ** Software breakpoints *)
Definition INT3 : Z := 0xCC.

(** A slot's fields. *)
Definition upd_slot (i : nat) (f : bp_t -> bp_t) : M unit := fun st =>
  match bps st !! i with Some _ => Some (tt, with_bps (alter f i (bps st)) st) | None => None end.
Definition set_addr (a : Z) (b : bp_t) : bp_t := Bp (b_hw b) a (b_len b) (b_trace b) (b_count b) (b_data b).
Definition set_hw (h : bool) (b : bp_t) : bp_t := Bp h (b_addr b) (b_len b) (b_trace b) (b_count b) (b_data b).
Definition set_trace (t : bool) (b : bp_t) : bp_t := Bp (b_hw b) (b_addr b) (b_len b) t (b_count b) (b_data b).
Definition set_saved (data : list Z) (len : Z) (b : bp_t) : bp_t := Bp (b_hw b) (b_addr b) len (b_trace b) (b_count b) data.
Definition bump (b : bp_t) : bp_t := Bp (b_hw b) (b_addr b) (b_len b) (b_trace b) (s32 (b_count b + 1)) (b_data b).

(** The saved bytes replace the first 16 of the 512 of the slot. *)
Definition arch_set_bp_soft (i : nat) (addr : Z) : M Z :=
  do data <- get (fun st => t_read addr 16 (tmem st)) ;;
  do _ <- upd_slot i (fun b => set_saved (data ++ drop 16 (b_data b))%list (get_len_ins data) b) ;;
  do _ <- modify (fun st => with_tmem (t_write [INT3] addr (tmem st)) st) ;;
  ret 0.

Definition arch_bp_rm_soft (b : bp_t) : M Z :=
  do _ <- modify (fun st => with_tmem (t_write (take (Z.to_nat (b_len b)) (b_data b)) (b_addr b) (tmem st)) st) ;;
  ret 0.

Definition arch_bpsize : Z := 1.

(** ** Slots *)

Definition find_slot (addr : Z) (l : list bp_t) : option nat := fst <$> list_find (fun b => b_addr b = addr) l.
Definition debug_bp_get (addr : Z) : M (option nat) := get (fun st => find_slot addr (bps st)).
Definition debug_bp_get_num (num : Z) : M (option nat) :=
  get (fun st => if (0 <=? num) && (num <? bps_n st) then Some (Z.to_nat num) else None).

Definition slot (i : nat) : M bp_t := fun st => match bps st !! i with Some b => Some (b, st) | None => None end.

Definition rm_arch (b : bp_t) : M Z := if b_hw b then arch_bp_rm_hw b else arch_bp_rm_soft b.

Definition debug_bp_rm (addr type : Z) : M Z :=
  do o <- debug_bp_get addr ;;
  match o with
  | None => ret (-1)
  | Some i =>
    do b <- slot i ;;
    do r <- rm_arch b ;;
    if r <? 0 then ret r
    else
      do _ <- modify (fun st => with_world (radare_cmd ("f -breakpoint@0x" +:+ fmt_x0 8 addr) (world st)) st) ;;
      do _ <- upd_slot i (set_addr 0) ;;
      do _ <- modify (fun st => with_n (bps_n st - 1) st) ;;
      ret 0
  end.
Definition debug_bp_rm_addr (addr : Z) : M Z := debug_bp_rm addr 0.

Definition debug_bp_rm_num (num : Z) : M Z :=
  do n <- get bps_n ;;
  if (0 <=? num) && (num <? n) then
    do b <- slot (Z.to_nat num) ;; debug_bp_rm (b_addr b) (if b_hw b then 1 else 0)
  else ret 0.

(** One way of setting the breakpoint of a slot, and its mark. *)
Definition set_kind (hw : bool) (i : nat) (addr : Z) : M Z :=
  do r <- (if hw then arch_set_bp_hw addr else arch_set_bp_soft i addr) ;;
  do _ <- (if r <? 0 then ret tt else upd_slot i (set_hw hw)) ;;
  ret r.

(** A number from 0 is the slot used; 0 also stands for an address that has a breakpoint. *)
Definition debug_bp_set (addr type : Z) : M Z :=
  do cur <- get pc ;;
  let addr := if addr =? 0 then cur else addr in
  do n <- get bps_n ;;
  if n =? Z.of_nat MAX_BPS then ret (-2)
  else
    do found <- debug_bp_get addr ;;
    match found with
    | Some _ => ret 0
    | None =>
      do free <- debug_bp_get 0 ;;
      match free with
      | None => crash
      | Some i =>
        do _ <- upd_slot i (set_trace false) ;;
        do r <- (if type =? BP_HARD then
                   do r <- arch_set_bp_hw addr ;; do _ <- upd_slot i (set_hw true) ;; ret r
                 else
                   do _ <- (if type =? BP_TRACE then upd_slot i (set_trace true) else ret tt) ;;
                   do r <- arch_set_bp_soft i addr ;; do _ <- upd_slot i (set_hw false) ;; ret r) ;;
        do r <- (if r <? 0 then
                   do r <- set_kind true i addr ;; if r <? 0 then set_kind false i addr else ret r
                 else ret r) ;;
        if r <? 0 then do _ <- upd_slot i (set_addr 0) ;; ret r
        else
          do _ <- upd_slot i (set_addr addr) ;;
          do _ <- modify (fun st => with_n (bps_n st + 1) st) ;;
          ret (Z.of_nat i)
      end
    end.

(** The loop of [debug_bp_rms] over the slots from [i] on; the result is whether an error ended it. *)
Fixpoint rms_loop (fuel i : nat) : M unit :=
  match fuel with
  | O => ret tt
  | S fuel' =>
    do n <- get bps_n ;;
    if 0 <? n then
      do b <- slot i ;;
      if 0 <? b_addr b then
        do r <- rm_arch b ;;
        if r <? 0 then ret tt
        else
          do _ <- upd_slot i (set_addr 0) ;;
          do _ <- modify (fun st => with_n (bps_n st - 1) st) ;;
          rms_loop fuel' (S i)
      else rms_loop fuel' (S i)
    else ret tt
  end.
Definition debug_bp_rms : M Z :=
  do n <- get bps_n ;;
  do _ <- rms_loop MAX_BPS 0 ;;
  do n' <- get bps_n ;;
  ret (n - n').

(** ** Stepping over calls

    The call through a register, the call and the repeated instructions. *)
Definition arch_is_soft_stepoverable (cmd : list Z) : Z :=
  if nth 0 cmd 0 =? 0xf3 then 2 else if nth 0 cmd 0 =? 0xf2 then 2 else 0.
Definition arch_is_stepoverable (cmd : list Z) : Z :=
  if (nth 0 cmd 0 =? 0xff) && ((0xd0 <=? nth 1 cmd 0) && (nth 1 cmd 0 <? 0xdf)) then 2
  else if nth 0 cmd 0 =? 0xe8 then 5 else arch_is_soft_stepoverable cmd.

(** [trace] is [trace_add] where the traces are logged; [debug_cont] and [debug_step] let the process run. *)
Definition debug_stepo (trace : Z -> M unit) (debug_cont debug_step : M unit) : M Z :=
  do a <- get pc ;;
  do cmd <- get (fun st => t_read a 4 (tmem st)) ;;
  let skip := arch_is_stepoverable cmd in
  if skip =? 0 then
    do _ <- debug_step ;;
    do a' <- get pc ;;
    do _ <- trace a' ;;
    ret 0
  else
    do _ <- trace a ;;
    do bp_pos <- debug_bp_set (u64 (a + skip)) BP_HARD ;;
    do _ <- debug_cont ;;
    do _ <- debug_bp_rm_num bp_pos ;;
    ret 1.

(** Every breakpoint is set again; the loop runs until the counter is reached, wherever that is.  The
    new lists of threads and maps are not part of the state. *)
Fixpoint reload_loop (fuel i : nat) (left : Z) : M unit :=
  if left =? 0 then ret tt
  else
    match fuel with
    | O => crash
    | S fuel' =>
      do b <- slot i ;;
      if b_addr b =? 0 then reload_loop fuel' (S i) left
      else
        do _ <- (if b_hw b then arch_set_bp_hw (b_addr b) else arch_set_bp_soft i (b_addr b)) ;;
        reload_loop fuel' (S i) (left - 1)
    end.
Definition debug_bp_reload_all : M unit := do n <- get bps_n ;; reload_loop MAX_BPS 0 n.

(** After a stop: a hit is counted; behind a software breakpoint the program counter is moved back. *)
Definition debug_bp_restore_after : M Z :=
  do addr <- get pc ;;
  do o <- debug_bp_get addr ;;
  do hit <- (match o with
             | Some i => do b <- slot i ;; if b_hw b then do _ <- upd_slot i bump ;; ret true else ret false
             | None => ret false end) ;;
  if hit : bool then ret 0
  else
    do o <- debug_bp_get (u64 (addr - arch_bpsize)) ;;
    match o with
    | None => ret 0
    | Some i =>
      do _ <- upd_slot i bump ;;
      do _ <- modify (with_pc (u64 (addr - arch_bpsize))) ;;
      do b <- slot i ;;
      ret (if b_trace b then addr else 0)
    end.

Definition bp_line (fl : flags_st) (vaddr : Z) (b : bp_t) : string :=
  " 0x" +:+ fmt_x0 8 (b_addr b) +:+ " " +:+ (if b_hw b then "HARD" else "SOFT") +:+ " " +:+
  (string_flag_offset "" (b_addr b) vaddr (-1) 0 fl).2 +:+ " (hits=" +:+ fmt_d (b_count b) +:+ ")" +:+
  (if b_trace b then " (trace)" else "") +:+ nl.
Fixpoint list_loop (fl : flags_st) (vaddr left : Z) (l : list bp_t) : string :=
  match l with
  | [] => ""
  | b :: l' =>
    if 0 <? left then
      if 0 <? b_addr b then bp_line fl vaddr b +:+ list_loop fl vaddr (left - 1) l' else list_loop fl vaddr left l'
    else ""
  end.
Definition debug_bp_list (fl : flags_st) (vaddr : Z) (st : st_t) : string :=
  if bps_n st =? 0 then "breakpoints not set" +:+ nl else "breakpoints:" +:+ nl +:+ list_loop fl vaddr (bps_n st) (bps st).

(** [!bp]: the help and the messages are left out. *)
Definition debug_bp (get_math : string -> Z) (seek hwbp : Z) (str : string) : M unit :=
  let kind := match str with
              | String c _ => if Ascii.eqb c "t" then BP_TRACE else if Ascii.eqb c "s" then BP_SOFT
                              else if Ascii.eqb c "h" then BP_HARD else hwbp
              | EmptyString => hwbp end in
  let add addr :=
    do _ <- modify (fun st => with_world (set_flag "breakpoint" addr (world st)) st) ;;
    do _ <- debug_bp_set addr kind ;; ret tt in
  if starts_with "?" str then ret tt
  else
    match drop_while (fun c => Ascii.eqb c " ") (drop_while (fun c => negb (Ascii.eqb c " ")) str) with
    | EmptyString => ret tt
    | String c s as arg =>
      if Ascii.eqb c "-" then do _ <- debug_bp_rm_addr (u64 (get_math s)) ;; ret tt
      else if Ascii.eqb c "+" then add (u64 (seek + get_math s))
      else if Ascii.eqb c "*" then do _ <- debug_bp_rms ;; ret tt
      else let addr := u64 (get_math arg) in if addr =? 0 then ret tt else add addr
    end.
End bp.
