(* ===== verification/BpSpec.v ===== *)
(** * Breakpoints: what they promise

    The slots and their counter; the memory of the process seen through software breakpoints; what
    goes wrong with overlapping breakpoints and with slots that are named by number. *)
From S2P Require Import Prelude StateM Utils Flags Bp.
#[local] Open Scope Z_scope.

(** ** Slots *)
Definition used (l : list bp_t) : list bp_t := filter (fun b => b_addr b <> 0) l.
#[local] Arguments used : simpl never.

(** 128 slots; the counter counts those in use; no address has two. *)
Record slots_ok (l : list bp_t) (n : Z) : Prop := {
  so_length : length l = MAX_BPS;
  so_count : n = Z.of_nat (length (used l));
  so_distinct i j b c : l !! i = Some b -> l !! j = Some c -> b_addr b = b_addr c -> b_addr b <> 0 -> i = j;
  so_range i b : l !! i = Some b -> is_u64 (b_addr b) }.

Definition used1 (b : bp_t) : nat := if decide (b_addr b = 0) then 0%nat else 1%nat.

Lemma used_cons b l : length (used (b :: l)) = (used1 b + length (used l))%nat.
Proof. unfold used, used1. rewrite filter_cons. repeat case_decide; try done; lia. Qed.

Lemma used_insert l i b c : l !! i = Some b ->
  (length (used (<[i := c]> l)) + used1 b = length (used l) + used1 c)%nat.
Proof.
  revert i. induction l as [|a l IH]; intros [|i] H; [done|done| |]; cbn in H.
  - simplify_eq. cbn. rewrite !used_cons. lia.
  - change (<[S i := c]> (a :: l)) with (a :: <[i := c]> l). rewrite !used_cons. specialize (IH i H). lia.
Qed.

Lemma used_full l : Forall (fun b => b_addr b <> 0) l -> length (used l) = length l.
Proof.
  induction l as [|b l IH]; [done|]. intros [Hb Hl]%Forall_cons. rewrite used_cons, (IH Hl). unfold used1.
  by case_decide.
Qed.

Lemma used_none l : length (used l) = O <-> Forall (fun b => b_addr b = 0) l.
Proof.
  induction l as [|b l IH]; [done|]. rewrite used_cons, Forall_cons, <-IH. unfold used1. case_decide; lia.
Qed.

Lemma find_slot_Some a l i : find_slot a l = Some i -> exists b, l !! i = Some b /\ b_addr b = a.
Proof.
  unfold find_slot. intros H. apply fmap_Some in H as ([j b] & H & ->).
  apply list_find_Some in H as (? & ? & _). by exists b.
Qed.

Lemma find_slot_None a l : find_slot a l = None -> forall i b, l !! i = Some b -> b_addr b <> a.
Proof.
  unfold find_slot. intros H i b Hb. apply fmap_None, list_find_None in H. by eapply Forall_lookup_1 in H.
Qed.

Lemma find_slot_first l b : l !! 0%nat = Some b -> find_slot (b_addr b) l = Some 0%nat.
Proof. destruct l as [|c l]; [done|]. intros [= ->]. unfold find_slot. cbn. by rewrite decide_True. Qed.

Lemma used_pos l i b : l !! i = Some b -> b_addr b <> 0 -> (0 < length (used l))%nat.
Proof.
  intros Hi Hb. destruct (decide (length (used l) = 0)%nat) as [E|]; [|lia]. apply used_none in E.
  by eapply Forall_lookup_1 in E.
Qed.

(** The free slot that is used has only slots in use below it. *)
Lemma find_free_used l i : find_slot 0 l = Some i -> (i <= length (used l))%nat.
Proof.
  revert i. induction l as [|b l IH]; intros i; [done|]. rewrite used_cons. unfold find_slot. cbn [list_find].
  unfold used1. case_decide as E; [intros [= <-]; lia|].
  unfold find_slot in IH. destruct (list_find _ l) as [[k c]|]; [|done]. intros [= <-].
  specialize (IH k eq_refl). cbn. lia.
Qed.

Lemma find_slot_insert a l i b : find_slot a l = None -> b_addr b <> a -> find_slot a (<[i := b]> l) = None.
Proof.
  unfold find_slot. rewrite !fmap_None, !list_find_None, !Forall_lookup. intros H Hb j c.
  intros [(-> & <- & _)|[_ Hj]]%list_lookup_insert_Some; [done|by eapply H].
Qed.

Lemma find_slot_unique l n i b : slots_ok l n -> l !! i = Some b -> b_addr b <> 0 -> find_slot (b_addr b) l = Some i.
Proof.
  intros H Hi Hb. destruct (find_slot _ _) as [j|] eqn:E.
  - apply find_slot_Some in E as (c & Hj & Hc). f_equal. eapply so_distinct; eauto. congruence.
  - by destruct (find_slot_None _ _ E _ _ Hi).
Qed.

Lemma free_slot l n : slots_ok l n -> n <> Z.of_nat MAX_BPS -> exists i b, find_slot 0 l = Some i /\ l !! i = Some b /\ b_addr b = 0.
Proof.
  intros H Hn. destruct (find_slot 0 l) as [i|] eqn:E.
  - exists i. apply find_slot_Some in E as (b & ? & ?). eauto.
  - destruct Hn. rewrite (so_count _ _ H), <-(so_length _ _ H). f_equal. apply used_full, Forall_lookup.
    by eapply find_slot_None.
Qed.

(** A slot that is taken or given back. *)
Lemma slots_insert l n n' i b c : slots_ok l n -> l !! i = Some b -> is_u64 (b_addr c) ->
  n' = n + Z.of_nat (used1 c) - Z.of_nat (used1 b) ->
  (b_addr c <> 0 -> forall j d, j <> i -> l !! j = Some d -> b_addr d <> b_addr c) ->
  slots_ok (<[i := c]> l) n'.
Proof.
  intros H Hi Hc -> Hnew. pose proof (used_insert _ _ _ c Hi) as Hu.
  pose proof (lookup_lt_Some _ _ _ Hi) as Hl. split.
  - rewrite length_insert. apply H.
  - rewrite (so_count _ _ H). lia.
  - intros j k d e Hj Hk E E0.
    apply list_lookup_insert_Some in Hj as [(-> & <- & _)|[Hji Hj]], Hk as [(-> & <- & _)|[Hki Hk]]; [done| | |].
    + by destruct (Hnew E0 k e (not_eq_sym Hki) Hk).
    + destruct (Hnew ltac:(congruence) j d (not_eq_sym Hji) Hj E).
    + by eapply (so_distinct _ _ H).
  - intros j d [(-> & <- & _)|[_ Hj]]%list_lookup_insert_Some; [done|]. by eapply so_range.
Qed.

(** ** The operations, branch by branch *)
Section bp_spec.
Context {T W : Type} `{!Target T} (get_len_ins : list Z -> Z) (radare_cmd : string -> W -> W).
Implicit Type st : debug_t T W.

(** The slot [i] of [l] now holds [b]. *)
Definition at_slot (st : debug_t T W) (l : list bp_t) (i : nat) (b : bp_t) : Prop :=
  (i < length l)%nat /\ bps st = <[i := b]> l.

Lemma at_slot_init st i b : bps st !! i = Some b -> at_slot st (bps st) i b.
Proof. intros H. split; [by eapply lookup_lt_Some|]. by rewrite list_insert_id. Qed.

Lemma upd_slot_run f st l i b : at_slot st l i b ->
  upd_slot i f st = Some (tt, with_bps (<[i := f b]> l) st).
Proof.
  intros [Hl H]. unfold upd_slot. rewrite H, list_lookup_insert_eq by done. do 3 f_equal. apply list_eq. intros j.
  destruct (decide (j = i)) as [->|Hj].
  - by rewrite list_lookup_alter_eq, !list_lookup_insert_eq.
  - by rewrite list_lookup_alter_ne, !list_lookup_insert_ne.
Qed.

Lemma at_slot_with st l i b : (i < length l)%nat -> at_slot (with_bps (<[i := b]> l) st) l i b.
Proof. done. Qed.

(** What is written for a software breakpoint, and what is kept in its slot. *)
Definition soft_slot (trace : bool) (b : bp_t) (a : Z) st : bp_t :=
  let data := t_read a 16 (tmem st) in
  Bp false a (get_len_ins data) trace (b_count b) (data ++ drop 16 (b_data b))%list.
Definition hard_slot (trace : bool) (b : bp_t) (a : Z) : bp_t := Bp true a (b_len b) trace (b_count b) (b_data b).

(** The outcome of setting a breakpoint in a free slot. *)
Inductive set_outcome (a : Z) (i : nat) (b : bp_t) (ty : Z) st : debug_t T W -> Prop :=
  | set_hard r d : ty = BP_HARD -> 0 <= r -> arch_set_wp_hw a DR_RW_EXECUTE (dr st) = (r, d) ->
    set_outcome a i b ty st (Debug (<[i := hard_slot (ty =? BP_TRACE) b a]> (bps st)) (bps_n st + 1) d (pc st) (tmem st) (world st))
  | set_soft :
    set_outcome a i b ty st (Debug (<[i := soft_slot (ty =? BP_TRACE) b a st]> (bps st)) (bps_n st + 1) (dr st) (pc st)
                                  (t_write [INT3] a (tmem st)) (world st)).

Lemma arch_set_wp_hw_fails a ty d r d' : arch_set_wp_hw a ty d = (r, d') -> r < 0 -> d' = d.
Proof.
  unfold arch_set_wp_hw, arch_set_wp_hw_n. cbn [Z.eqb].
  destruct dr_loop as [[k|] [|]]; intros [= <- <-]; lia || done.
Qed.

Lemma arch_set_bp_hw_run a st r d : arch_set_wp_hw a DR_RW_EXECUTE (dr st) = (r, d) ->
  arch_set_bp_hw a st = Some (r, with_dr d st).
Proof. intros H. unfold arch_set_bp_hw. by rewrite H. Qed.

Lemma debug_bp_set_full a ty st : bps_n st = Z.of_nat MAX_BPS -> debug_bp_set get_len_ins a ty st = Some (-2, st).
Proof. intros H. unfold debug_bp_set. rewrite !bind_get. by rewrite (proj2 (Z.eqb_eq _ _) H). Qed.

Lemma debug_bp_set_found a ty st j : bps_n st <> Z.of_nat MAX_BPS -> find_slot (if a =? 0 then pc st else a) (bps st) = Some j ->
  debug_bp_set get_len_ins a ty st = Some (0, st).
Proof.
  intros Hn Hf. unfold debug_bp_set, debug_bp_get. rewrite !bind_get.
  destruct (Z.eqb_spec (bps_n st) (Z.of_nat MAX_BPS)); [done|]. by rewrite bind_get, Hf.
Qed.

Lemma arch_set_bp_soft_run a st l i b : at_slot st l i b ->
  arch_set_bp_soft get_len_ins i a st =
    Some (0, with_tmem (t_write [INT3] a (tmem st))
               (with_bps (<[i := set_saved (t_read a 16 (tmem st) ++ drop 16 (b_data b))
                                   (get_len_ins (t_read a 16 (tmem st))) b]> l) st)).
Proof. intros H. unfold arch_set_bp_soft. rewrite bind_get. by rewrite (bind_Some _ _ _ _ _ (upd_slot_run _ _ _ _ _ H)). Qed.

(** Running the next statement on the slot [i] of [l]. *)
Ltac slot_step l i :=
  lazymatch goal with |- exists _, ?p = _ /\ _ =>
    lazymatch p with
    | bind (bind _ _) _ _ => rewrite bind_bind
    | bind (ret _) _ _ => rewrite bind_ret
    | bind (upd_slot _ _) _ ?s => rewrite (bind_Some _ _ _ _ _ (upd_slot_run _ s l i _ ltac:(eassumption || by split)))
    | bind (arch_set_bp_soft _ _ _) _ ?s =>
      rewrite (bind_Some _ _ _ _ _ (arch_set_bp_soft_run _ s l i _ ltac:(eassumption || by split)))
    | bind (arch_set_bp_hw _) _ ?s => rewrite (bind_Some _ _ _ _ _ (arch_set_bp_hw_run _ s _ _ ltac:(eassumption)))
    end
  end; cbn [Z.eqb Z.ltb Z.compare].

Lemma debug_bp_set_free a ty st i b : bps_n st <> Z.of_nat MAX_BPS -> a <> 0 ->
  find_slot a (bps st) = None -> find_slot 0 (bps st) = Some i -> bps st !! i = Some b ->
  exists st', debug_bp_set get_len_ins a ty st = Some (Z.of_nat i, st') /\ set_outcome a i b ty st st'.
Proof.
  intros Hn Ha Hf H0 Hi. pose proof (lookup_lt_Some _ _ _ Hi) as Hl. apply at_slot_init in Hi.
  destruct (arch_set_wp_hw a DR_RW_EXECUTE (dr st)) as [r d] eqn:Hd.
  unfold debug_bp_set, debug_bp_get. rewrite !bind_get. destruct (Z.eqb_spec (bps_n st) (Z.of_nat MAX_BPS)); [done|].
  destruct (Z.eqb_spec a 0); [done|]. rewrite bind_get, Hf, bind_get, H0.
  slot_step (bps st) i.
  destruct (Z.eqb_spec ty BP_HARD) as [->|Hty].
  - do 5 slot_step (bps st) i. unfold set_kind. destruct (r <? 0) eqn:Hr.
    + pose proof (arch_set_wp_hw_fails _ _ _ _ _ Hd (proj1 (Z.ltb_lt _ _) Hr)) as ->.
      repeat (slot_step (bps st) i; rewrite ?Hr). eexists. split; [reflexivity|]. exact (set_soft a i b BP_HARD st).
    + repeat (slot_step (bps st) i; rewrite ?Hr). eexists. split; [reflexivity|].
      exact (set_hard a i b BP_HARD st r d eq_refl (proj1 (Z.ltb_ge _ _) Hr) Hd).
  - rewrite bind_bind. pose proof (set_soft a i b ty st) as Ho.
    destruct (ty =? BP_TRACE) eqn:Et; repeat slot_step (bps st) i;
      (eexists; split; [reflexivity|]; exact Ho).
Qed.

(** *** Removal *)

(** The breakpoint of the slot [i] taken from the process, and its slot given back. *)
Definition disarm (b : bp_t) st : option (debug_t T W) :=
  if b_hw b then (fun k => with_dr (dr_set k 0 (dr st)) st) <$> dr_find (b_addr b) 0 DR_NADDR (dr st)
  else Some (with_tmem (t_write (take (Z.to_nat (b_len b)) (b_data b)) (b_addr b) (tmem st)) st).

Lemma rm_arch_run b st : rm_arch b st = match disarm b st with Some st' => Some (0, st') | None => Some (-1, st) end.
Proof. unfold rm_arch, disarm, arch_bp_rm_hw. destruct (b_hw b); [|done]. by destruct dr_find. Qed.

Lemma disarm_same b st st' : disarm b st = Some st' ->
  bps st' = bps st /\ bps_n st' = bps_n st /\ pc st' = pc st.
Proof. unfold disarm. destruct (b_hw b); [destruct dr_find; [|done]|]; by intros [= <-]. Qed.

Lemma debug_bp_rm_run a ty st i b : find_slot a (bps st) = Some i -> bps st !! i = Some b ->
  debug_bp_rm radare_cmd a ty st =
    match disarm b st with
    | Some st' => Some (0, with_n (bps_n st - 1) (with_bps (<[i := set_addr 0 b]> (bps st))
                     (with_world (radare_cmd ("f -breakpoint@0x" +:+ fmt_x0 8 a) (world st')) st')))
    | None => Some (-1, st)
    end.
Proof.
  intros Hf Hi. unfold debug_bp_rm, debug_bp_get. rewrite bind_get, Hf. unfold slot.
  rewrite (bind_Some _ _ _ b st) by by rewrite Hi. unfold bind at 1. rewrite rm_arch_run.
  destruct (disarm b st) as [st'|] eqn:E; [|done]. cbn [Z.ltb Z.compare].
  destruct (disarm_same _ _ _ E) as (Hb & Hn & _). rewrite (bind_Some _ _ _ _ _ eq_refl).
  erewrite bind_Some; [|apply (upd_slot_run _ _ (bps st) i b); split; cbn; [by eapply lookup_lt_Some|]; by rewrite Hb, list_insert_id].
  unfold bind, modify, ret. cbn. by rewrite Hn.
Qed.

Lemma debug_bp_rm_none a ty st : find_slot a (bps st) = None -> debug_bp_rm radare_cmd a ty st = Some (-1, st).
Proof. intros H. unfold debug_bp_rm, debug_bp_get. by rewrite bind_get, H. Qed.



Lemma byte_in (d : list Z) a (t : T) x v : a <= x -> d !! Z.to_nat (x - a) = Some v -> t_byte (t_write d a t) x = v.
Proof. intros Hx Hv. rewrite t_write_byte, (proj2 (Z.leb_le _ _) Hx). by rewrite Hv. Qed.




Lemma dr_get_lookup k d v : length d = 8%nat -> (k < DR_NADDR)%nat -> dr_get k d = v -> d !! k = Some v.
Proof.
  intros Hd Hk <-. unfold dr_get. unfold DR_NADDR in Hk.
  destruct (d !! k) eqn:E; [done|]. apply lookup_ge_None in E. lia.
Qed.

Lemma dr_loop_spec a ty c free i n d k same : dr_loop a ty c free i n d = (Some k, same) ->
  if same : bool then (i <= k < i + n)%nat /\ dr_get k d = a
  else free = Some k \/ (i <= k < i + n)%nat /\ dr_get k d = 0.
Proof.
  revert free i. induction n as [|n IH]; intros free i; cbn.
  - intros [= -> <-]. by left.
  - destruct (Z.eqb_spec (dr_get i d) 0) as [E0|E0].
    + intros H%IH. destruct same; [intuition lia|]. destruct H as [[= ->]|H]; right; intuition lia.
    + destruct ((dr_get i d =? a) && _) eqn:E.
      * intros [= <- <-]. apply andb_prop in E as [E _]. apply Z.eqb_eq in E. intuition lia.
      * intros H%IH. destruct same; intuition lia.
Qed.

(** A register for [a] is taken, and none is lost. *)
Lemma arch_set_wp_hw_spec a ty d r d' : length d = 8%nat -> is_u32 a -> 0 <= r -> arch_set_wp_hw a ty d = (r, d') ->
  length d' = 8%nat /\ (exists k, (k < DR_NADDR)%nat /\ d' !! k = Some a) /\
  forall k v, (k < DR_NADDR)%nat -> v <> 0 -> d !! k = Some v -> d' !! k = Some v.
Proof.
  intros Hd Ha Hr. unfold arch_set_wp_hw, arch_set_wp_hw_n. cbn [Z.eqb].
  destruct dr_loop as [[k|] same] eqn:E; [|intros [= <- <-]; lia].
  apply dr_loop_spec in E. destruct same; intros [= <- <-].
  - destruct E as [Hk E]. split_and!; [done| |done]. exists k. split; [lia|]. apply dr_get_lookup; [done|lia|done].
  - destruct E as [E|[Hk E]]; [done|]. apply dr_get_lookup in E; [|done|lia]. unfold DR_NADDR in *.
    assert (Hu : u32 a = a) by by apply Z.mod_small. unfold dr_set, DR_CONTROL. split_and!.
    + by rewrite !length_insert.
    + exists k. split; [lia|]. rewrite list_lookup_insert_ne, Hu, list_lookup_insert_eq by lia. done.
    + intros j v Hj Hv Hjv. rewrite list_lookup_insert_ne by lia.
      rewrite list_lookup_insert_ne; [done|]. intros ->. congruence.
Qed.


Lemma dr_find_None a i n d : dr_find a i n d = None -> forall k, (i <= k < i + n)%nat -> dr_get k d <> a.
Proof.
  revert i. induction n as [|n IH]; intros i H k Hk; [lia|]. cbn in H. destruct (Z.eqb_spec (dr_get i d) a); [done|].
  destruct (decide (k = i)) as [->|]; [done|]. apply (IH _ H). lia.
Qed.


(** *** What the operations do, together *)
Definition freed (i : nat) (b : bp_t) st : debug_t T W :=
  with_n (bps_n st - 1) (with_bps (<[i := set_addr 0 b]> (bps st)) st).

(** Setting fails, or uses a free slot, or writes outside the slots when none is free and the counter says otherwise. *)
Lemma debug_bp_set_total a ty st :
  (exists r, debug_bp_set get_len_ins a ty st = Some (r, st)) \/
  (debug_bp_set get_len_ins a ty st = None /\ find_slot 0 (bps st) = None /\ bps_n st <> Z.of_nat MAX_BPS) \/
  exists a' i b st', debug_bp_set get_len_ins a ty st = Some (Z.of_nat i, st') /\ a' = (if a =? 0 then pc st else a) /\
    a' <> 0 /\ find_slot a' (bps st) = None /\ bps st !! i = Some b /\ b_addr b = 0 /\ set_outcome a' i b ty st st'.
Proof.
  destruct (decide (bps_n st = Z.of_nat MAX_BPS)) as [Hn|Hn].
  { left. exists (-2). by apply debug_bp_set_full. }
  destruct (find_slot (if a =? 0 then pc st else a) (bps st)) as [j|] eqn:Ef.
  { left. exists 0. by eapply debug_bp_set_found. }
  destruct (find_slot 0 (bps st)) as [i|] eqn:Hi.
  2:{ right; left. split; [|done]. unfold debug_bp_set, debug_bp_get. rewrite !bind_get.
      destruct (Z.eqb_spec (bps_n st) (Z.of_nat MAX_BPS)); [done|]. by rewrite bind_get, Ef, bind_get, Hi. }
  destruct (find_slot_Some _ _ _ Hi) as (b & Hb & Hb0).
  assert (Ha : (if a =? 0 then pc st else a) <> 0) by (intros E; rewrite E in Ef; congruence).
  right; right. destruct (debug_bp_set_free (if a =? 0 then pc st else a) ty st i b) as (st' & E & Ho); try done.
  exists (if a =? 0 then pc st else a), i, b, st'. split_and!; try done. rewrite <-E.
  destruct (Z.eqb_spec a 0) as [->|]; [|done]. unfold debug_bp_set. rewrite !bind_get.
  by rewrite (proj2 (Z.eqb_neq _ _) Ha).
Qed.


Lemma rms_loop_inv (P : nat -> debug_t T W -> Prop) fuel i st :
  (forall i st, P i st -> length (bps st) = MAX_BPS) ->
  (forall i st st' b, P i st -> bps st !! i = Some b -> 0 < b_addr b -> disarm b st = Some st' -> P (S i) (freed i b st')) ->
  (forall i st b, P i st -> bps st !! i = Some b -> b_addr b <= 0 -> P (S i) st) ->
  P i st -> (i + fuel)%nat = MAX_BPS ->
  exists st' j, rms_loop fuel i st = Some (tt, st') /\ P j st' /\
    (bps_n st' <= 0 \/ j = MAX_BPS \/ exists b, bps st' !! j = Some b /\ 0 < b_addr b /\ disarm b st' = None).
Proof.
  intros Hl Hd Hs. revert i st. induction fuel as [|fuel IH]; intros i st H Hi; cbn [rms_loop].
  - exists st, i. split_and!; [done..|]. right. left. lia.
  - rewrite bind_get. destruct (Z.ltb_spec 0 (bps_n st)) as [Hn|Hn]; [|exists st, i; eauto].
    destruct (lookup_lt_is_Some_2 (bps st) i) as [b Hb]; [rewrite (Hl _ _ H); lia|].
    rewrite (bind_Some _ _ _ b st) by (unfold slot; by rewrite Hb).
    destruct (Z.ltb_spec 0 (b_addr b)) as [Ha|Ha]; [|apply (IH (S i)); [by eapply Hs|lia]].
    unfold bind at 1. rewrite rm_arch_run. destruct (disarm b st) as [st'|] eqn:E.
    + cbn [Z.ltb Z.compare]. destruct (disarm_same _ _ _ E) as (Eb & En & _).
      erewrite bind_Some; [|apply (upd_slot_run _ st' (bps st') i b), at_slot_init; by rewrite Eb].
      rewrite (bind_Some _ _ _ _ _ eq_refl). apply (IH (S i)); [|lia].
      exact (Hd i st st' b H Hb Ha E).
    + exists st, i. split_and!; [done..|]. right. right. eauto.
Qed.

Lemma debug_bp_rms_run st st' : rms_loop MAX_BPS 0 st = Some (tt, st') ->
  debug_bp_rms st = Some (bps_n st - bps_n st', st').
Proof. intros H. unfold debug_bp_rms. rewrite bind_get. by rewrite (bind_Some _ _ _ _ _ H). Qed.

(** A hit only changes the counter of its slot and the program counter. *)
Definition only_hits st st' : Prop :=
  tmem st' = tmem st /\ dr st' = dr st /\ bps_n st' = bps_n st /\ (is_u64 (pc st) -> is_u64 (pc st')) /\
  (bps st' = bps st \/ exists i b, bps st !! i = Some b /\ bps st' = <[i := bump b]> (bps st)).

Lemma debug_bp_restore_after_hits st r st' : debug_bp_restore_after st = Some (r, st') -> only_hits st st'.
Proof.
  assert (Hsame : only_hits st st) by (split_and!; auto).
  unfold debug_bp_restore_after, debug_bp_get. rewrite !bind_get.
  match goal with |- bind _ ?f _ = _ -> _ => set (rest := f) end.
  assert (Hrest : rest false st = Some (r, st') -> only_hits st st').
  { subst rest. cbn beta iota. rewrite bind_get.
    destruct (find_slot (u64 _) (bps st)) as [i|] eqn:Ef; [|by intros [= <- <-]].
    apply find_slot_Some in Ef as (b & Hi & _).
    rewrite (bind_Some _ _ _ _ _ (upd_slot_run bump st (bps st) i b (at_slot_init _ _ _ Hi))).
    rewrite (bind_Some _ _ _ _ _ eq_refl). unfold bind, slot. cbn.
    rewrite list_lookup_insert_eq by by eapply lookup_lt_Some. intros [= <- <-].
    split_and!; try done; [intros _; apply u64_range|]. right. by exists i, b. }
  destruct (find_slot (pc st) (bps st)) as [i|] eqn:Ef; [|by rewrite bind_ret].
  apply find_slot_Some in Ef as (b & Hi & _). rewrite bind_bind, (bind_Some _ _ _ b st) by (unfold slot; by rewrite Hi).
  destruct (b_hw b); [|by rewrite bind_ret].
  rewrite bind_bind, (bind_Some _ _ _ _ _ (upd_slot_run bump st (bps st) i b (at_slot_init _ _ _ Hi))).
  rewrite bind_ret. subst rest. intros [= <- <-]. split_and!; try done. right. by exists i, b.
Qed.

(** ** Sessions

    What a session does with breakpoints: any of the operations, and the process runs in between.  [ok]
    limits where breakpoints are set. *)
Inductive bp_step (ok : debug_t T W -> Z -> Prop) : debug_t T W -> debug_t T W -> Prop :=
  | step_set a ty r st st' : is_u64 a -> ok st (if a =? 0 then pc st else a) ->
    debug_bp_set get_len_ins a ty st = Some (r, st') -> bp_step ok st st'
  | step_rm a ty r st st' : a <> 0 -> debug_bp_rm radare_cmd a ty st = Some (r, st') -> bp_step ok st st'
  | step_rms r st st' : debug_bp_rms st = Some (r, st') -> bp_step ok st st'
  | step_run a st : is_u64 a -> bp_step ok st (with_pc a st)
  | step_stopped r st st' : debug_bp_restore_after st = Some (r, st') -> bp_step ok st st'.

(** No breakpoint yet. *)
Definition bp_init (d : list Z) (p : Z) (t : T) (w : W) : debug_t T W :=
  Debug (replicate MAX_BPS (Bp false 0 0 false 0 (replicate 512 0))) 0 d p t w.

Definition bps_ok st : Prop := slots_ok (bps st) (bps_n st) /\ is_u64 (pc st).

Lemma slots_freed l n i b : slots_ok l n -> l !! i = Some b -> b_addr b <> 0 -> slots_ok (<[i := set_addr 0 b]> l) (n - 1).
Proof.
  intros H Hi Hb. eapply slots_insert; [done|done|by split| |by intros []].
  unfold used1. rewrite (decide_False (P := b_addr b = 0)), (decide_True (P := b_addr (set_addr 0 b) = 0)) by done. lia.
Qed.

Lemma slots_set l n i a b c : slots_ok l n -> l !! i = Some b -> b_addr b = 0 -> b_addr c = a -> a <> 0 -> is_u64 a ->
  find_slot a l = None -> slots_ok (<[i := c]> l) (n + 1).
Proof.
  intros H Hi Hb <- Ha Hu Hf. eapply slots_insert; [done|done|done| |].
  - unfold used1. rewrite (decide_True (P := b_addr b = 0)), (decide_False (P := b_addr c = 0)) by done. lia.
  - intros _ j e _. by apply find_slot_None.
Qed.

(** A slot that keeps its address. *)
Lemma slots_same l n i b c : slots_ok l n -> l !! i = Some b -> b_addr c = b_addr b -> slots_ok (<[i := c]> l) n.
Proof.
  intros H Hi E. eapply slots_insert; [done|done|rewrite E; exact (so_range _ _ H i b Hi)|unfold used1; rewrite E; lia|].
  rewrite E. intros Hb j e Hij Hj E'. apply Hij, (so_distinct _ _ H j i e b Hj Hi E'). by rewrite E'.
Qed.
Lemma slots_bump l n i b : slots_ok l n -> l !! i = Some b -> slots_ok (<[i := bump b]> l) n.
Proof. intros H Hi. by eapply slots_same. Qed.

Lemma slots_init : slots_ok (replicate MAX_BPS (Bp false 0 0 false 0 (replicate 512 0))) 0.
Proof.
  split; [done|vm_compute; done| |].
  - intros i j b c [-> _]%lookup_replicate_1 _ _ []. done.
  - intros i b [-> _]%lookup_replicate_1. by split.
Qed.

(** The counter is [k] below the number of slots in use. *)
Definition slots_lost (k : nat) st : Prop := slots_ok (bps st) (bps_n st + Z.of_nat k) /\ is_u64 (pc st).

Lemma slots_lost_step k ok st st' : bp_step ok st st' -> slots_lost k st -> slots_lost k st'.
Proof.
  intros Hs [H Hp]. destruct Hs as [a ty r st st' Ha _ E|a ty r st st' Ha E|r st st' E|a st Ha|r st st' E].
  - destruct (debug_bp_set_total a ty st) as [[r' E']|[(E' & _)|(a' & i & b & st'' & E' & -> & Ha' & Hf & Hi & Hb & Ho)]];
      [by simplify_eq|congruence|]. rewrite E in E'. injection E' as -> <-.
    assert (is_u64 (if a =? 0 then pc st else a)) by by destruct (a =? 0).
    destruct Ho; split; cbn; try done; (rewrite Z.add_shuffle0; by eapply slots_set).
  - destruct (find_slot a (bps st)) as [i|] eqn:Ef.
    2:{ rewrite (debug_bp_rm_none a ty st Ef) in E. by simplify_eq. }
    destruct (find_slot_Some _ _ _ Ef) as (b & Hi & Hb). rewrite (debug_bp_rm_run a ty st i b Ef Hi) in E.
    destruct (disarm b st) as [st1|] eqn:Ed; simplify_eq; [|done]. split; cbn.
    + rewrite <-Z.add_sub_swap. by apply slots_freed.
    + destruct (disarm_same _ _ _ Ed) as (_ & _ & Epc). by rewrite Epc.
  - destruct (rms_loop_inv (fun _ => slots_lost k) MAX_BPS 0 st) as (st1 & j & E' & H1 & _); [| | |done|done|].
    + intros i s0 [H0 _]. by apply H0.
    + intros i s0 s1 b [H0 Hp0] Hi Hb (Eb & En & Epc)%disarm_same. split; cbn; [|by rewrite Epc].
      rewrite Eb, En, <-Z.add_sub_swap. apply slots_freed; [done|done|lia].
    + done.
    + rewrite (debug_bp_rms_run _ _ E') in E. by simplify_eq.
  - done.
  - apply debug_bp_restore_after_hits in E as (_ & _ & En & Epc & El). split; [|by apply Epc]. rewrite En.
    destruct El as [->|(i & b & Hi & ->)]; [done|]. by apply slots_bump.
Qed.

Lemma slots_lost_0 st : slots_lost 0 st <-> bps_ok st.
Proof. unfold slots_lost, bps_ok. by rewrite Z.add_0_r. Qed.
Lemma slots_step ok st st' : bp_step ok st st' -> bps_ok st -> bps_ok st'.
Proof. rewrite <-!slots_lost_0. apply slots_lost_step. Qed.

(** Removing address 0 finds a free slot and takes its stale breakpoint off: only the counter of the slots changes. *)
Lemma rm_zero_lost k ty r st st' : debug_bp_rm radare_cmd 0 ty st = Some (r, st') -> slots_lost k st ->
  slots_lost (if r =? 0 then S k else k) st'.
Proof.
  intros E [H Hp]. destruct (find_slot 0 (bps st)) as [i|] eqn:Ef; [|rewrite (debug_bp_rm_none 0 ty st Ef) in E; by simplify_eq].
  destruct (find_slot_Some _ _ _ Ef) as (b & Hi & Hb). rewrite (debug_bp_rm_run 0 ty st i b Ef Hi) in E.
  destruct (disarm b st) as [st1|] eqn:Ed; simplify_eq; [|done]. destruct (disarm_same _ _ _ Ed) as (_ & _ & Epc).
  split; cbn; [|by rewrite Epc]. replace (bps_n st - 1 + Z.of_nat (S k)) with (bps_n st + Z.of_nat k) by lia.
  by eapply slots_same.
Qed.

(** Setting all again keeps the addresses; it ends when the counter is no more than the slots in use. *)
Lemma reload_slots n m : forall fuel i left st r st', reload_loop get_len_ins fuel i left st = Some (r, st') ->
  slots_ok (bps st) m /\ bps_n st = n /\ is_u64 (pc st) -> slots_ok (bps st') m /\ bps_n st' = n /\ is_u64 (pc st').
Proof.
  induction fuel as [|fuel IH]; intros i left st r st'; cbn [reload_loop]; (destruct (left =? 0); [by intros [= _ <-]|]); [done|].
  unfold slot. destruct (bps st !! i) as [b|] eqn:Hi; [|unfold bind; by rewrite Hi].
  rewrite (bind_Some _ _ _ b st) by by rewrite Hi. destruct (b_addr b =? 0); [apply IH|].
  destruct (b_hw b).
  - unfold arch_set_bp_hw. unfold bind at 1. destruct (arch_set_wp_hw _ _ _) as [? d]. intros E H. by eapply IH.
  - rewrite (bind_Some _ _ _ _ _ (arch_set_bp_soft_run (b_addr b) st (bps st) i b (at_slot_init _ _ _ Hi))).
    intros E (H & Hn & Hp). eapply IH; [exact E|]. cbn. split_and!; [|done|done]. by eapply slots_same.
Qed.
Lemma reload_returns fuel i left st : length (bps st) = MAX_BPS -> (i + fuel)%nat = MAX_BPS ->
  0 <= left <= Z.of_nat (length (used (drop i (bps st)))) -> is_Some (reload_loop get_len_ins fuel i left st).
Proof.
  revert i left st. induction fuel as [|fuel IH]; intros i left st Hl Hi Hleft; cbn [reload_loop]; (destruct (Z.eqb_spec left 0) as [->|Hne]; [by eexists|]).
  - rewrite drop_ge in Hleft by lia. change (used []) with (@nil bp_t) in Hleft. cbn in Hleft. lia.
  - destruct (lookup_lt_is_Some_2 (bps st) i) as [b Hb]; [lia|]. rewrite (bind_Some _ _ _ b st) by (unfold slot; by rewrite Hb).
    rewrite (drop_S _ b) in Hleft by done. rewrite used_cons in Hleft. unfold used1 in Hleft.
    destruct (Z.eqb_spec (b_addr b) 0) as [Hz|Hz]; [rewrite decide_True in Hleft by done; apply IH; [done|lia|lia]|].
    rewrite decide_False in Hleft by done. destruct (b_hw b).
    + unfold arch_set_bp_hw, bind at 1. destruct (arch_set_wp_hw _ _ _) as [? d]. apply IH; [done|lia|cbn; lia].
    + rewrite (bind_Some _ _ _ _ _ (arch_set_bp_soft_run (b_addr b) st (bps st) i b (at_slot_init _ _ _ Hb))).
      apply IH; cbn; [by rewrite length_insert|lia|]. rewrite drop_insert_lt by lia. lia.
Qed.

(** A session with everything in it, and how often address 0 was removed in it. *)
Inductive bp_session (st0 : debug_t T W) : nat -> debug_t T W -> Prop :=
  | session_start : bp_session st0 0 st0
  | session_more k st st' : bp_session st0 k st -> bp_step (fun _ _ => True) st st' -> bp_session st0 k st'
  | session_reload k r st st' : bp_session st0 k st -> debug_bp_reload_all get_len_ins st = Some (r, st') -> bp_session st0 k st'
  | session_rm_zero k ty r st st' : bp_session st0 k st -> debug_bp_rm radare_cmd 0 ty st = Some (r, st') ->
    bp_session st0 (if r =? 0 then S k else k) st'.

Lemma reload_all_run st : debug_bp_reload_all get_len_ins st = reload_loop get_len_ins MAX_BPS 0 (bps_n st) st.
Proof. unfold debug_bp_reload_all. by rewrite bind_get. Qed.

Lemma bp_session_lost d p t w k st : is_u64 p -> bp_session (bp_init d p t w) k st -> slots_lost k st.
Proof.
  intros Hp Hr. induction Hr as [|k st st' _ IH Hs|k r st st' _ [IH Hpc] Hs|k ty r st st' _ IH Hs].
  - apply slots_lost_0. split; [apply slots_init|done].
  - by eapply slots_lost_step.
  - rewrite reload_all_run in Hs.
    destruct (reload_slots (bps_n st) (bps_n st + Z.of_nat k) _ _ _ _ _ _ Hs (conj IH (conj eq_refl Hpc))) as (H1 & H2 & H3).
    split; [by rewrite H2|exact H3].
  - by eapply rm_zero_lost.
Qed.

Lemma set_leaves_slots k a ty st : slots_lost k st -> debug_bp_set get_len_ins a ty st = None ->
  (0 < k)%nat /\ Forall (fun b => b_addr b <> 0) (bps st) /\ bps_n st <> Z.of_nat MAX_BPS.
Proof.
  intros [H _] E. pose proof (so_count _ _ H) as Hc. pose proof (so_length _ _ H) as Hl.
  destruct (debug_bp_set_total a ty st) as [[r E']|[(_ & Hf & Hn)|(? & ? & ? & ? & E' & _)]]; [congruence| |congruence].
  assert (Forall (fun b => b_addr b <> 0) (bps st)) as Hfull by (apply Forall_lookup; by eapply find_slot_None).
  split; [|done]. apply used_full in Hfull. rewrite Hl in Hfull. rewrite Hfull in Hc. clear Hfull Hl H Hf. generalize dependent MAX_BPS. intros m ? ?.
  destruct k; lia.
Qed.

Lemma reload_leaves_slots k st : slots_lost k st -> debug_bp_reload_all get_len_ins st = None -> (0 < k)%nat /\ bps_n st < 0.
Proof.
  intros [H _] E. pose proof (so_count _ _ H) as Hc. rewrite reload_all_run in E.
  destruct (Z.ltb_spec (bps_n st) 0) as [Hn|Hn]; [split; [|done]; destruct k; lia|].
  destruct (reload_returns MAX_BPS 0 (bps_n st) st (so_length _ _ H) (Nat.add_0_l _)) as [? E']; [rewrite drop_0; lia|]. by rewrite E' in E.
Qed.

(** C16: after any session of setting, removing, reloading and running there are 128 slots, no address has two breakpoints,
    and the counter is the number of slots in use less the removals of address 0, each of which finds a free slot and is
    counted all the same.  Without such removals setting one more and reloading never leave the slots; in general setting
    does so only when all slots are in use and the counter does not say so, and reloading only when the counter is below
    zero. *)
Theorem bp_slots_invariant d p t w k st : is_u64 p -> bp_session (bp_init d p t w) k st ->
  slots_ok (bps st) (bps_n st + Z.of_nat k) /\
  (forall a ty, debug_bp_set get_len_ins a ty st = None ->
     (0 < k)%nat /\ Forall (fun b => b_addr b <> 0) (bps st) /\ bps_n st <> Z.of_nat MAX_BPS) /\
  (debug_bp_reload_all get_len_ins st = None -> (0 < k)%nat /\ bps_n st < 0).
Proof.
  intros Hp Hr%bp_session_lost; [|done]. split; [apply Hr|]. split; [|by apply reload_leaves_slots].
  intros a ty. by apply set_leaves_slots.
Qed.









(** ** Overlapping breakpoints *)

(** A software breakpoint in a free slot. *)
Lemma set_soft_run a st : slots_ok (bps st) (bps_n st) -> bps_n st <> Z.of_nat MAX_BPS -> a <> 0 -> is_u64 a ->
  find_slot a (bps st) = None ->
  exists i b st', debug_bp_set get_len_ins a BP_SOFT st = Some (Z.of_nat i, st') /\ slots_ok (bps st') (bps_n st') /\
    bps st !! i = Some b /\ b_addr b = 0 /\ bps st' = <[i := soft_slot false b a st]> (bps st) /\ bps_n st' = bps_n st + 1 /\
    tmem st' = t_write [INT3] a (tmem st).
Proof.
  intros H Hn Ha Hu Hf. destruct (free_slot _ _ H Hn) as (i & b & Hi & Hb & Hb0).
  destruct (debug_bp_set_free a BP_SOFT st i b Hn Ha Hf Hi Hb) as (st' & E & Ho). exists i, b, st'.
  destruct Ho as [? ? [=]|]. split_and!; try done. cbn. by eapply slots_set.
Qed.

(** A software breakpoint that is found is taken off with the bytes of its slot. *)
Lemma rm_soft_run st i b : slots_ok (bps st) (bps_n st) -> bps st !! i = Some b -> b_addr b <> 0 -> b_hw b = false ->
  exists st', debug_bp_rm_addr radare_cmd (b_addr b) st = Some (0, st') /\ slots_ok (bps st') (bps_n st') /\
    bps st' = <[i := set_addr 0 b]> (bps st) /\ bps_n st' = bps_n st - 1 /\
    tmem st' = t_write (take (Z.to_nat (b_len b)) (b_data b)) (b_addr b) (tmem st).
Proof.
  intros H Hi Hb Hw. unfold debug_bp_rm_addr.
  rewrite (debug_bp_rm_run (b_addr b) 0 st i b (find_slot_unique _ _ _ _ H Hi Hb) Hi). unfold disarm. rewrite Hw.
  eexists. split; [reflexivity|]. split_and!; try done. by apply slots_freed.
Qed.

(** A breakpoint inside the instruction of another one is lost in the memory of the process.  Set [b],
    then [a] at an instruction that covers it, and remove [b], then [a]: no breakpoint is left, every
    call reports success, and an [int3] stays at [b]. *)
Theorem bp_overlap_leaves_int3 a b st : slots_ok (bps st) (bps_n st) -> bps_n st + 2 <= Z.of_nat MAX_BPS ->
  0 < a < b -> is_u64 a -> is_u64 b -> find_slot a (bps st) = None -> find_slot b (bps st) = None ->
  b < a + get_len_ins (t_read a 16 (t_write [INT3] b (tmem st))) <= a + 16 ->
  exists i s1 j s2 s3 s4,
    debug_bp_set get_len_ins b BP_SOFT st = Some (Z.of_nat i, s1) /\
    debug_bp_set get_len_ins a BP_SOFT s1 = Some (Z.of_nat j, s2) /\
    debug_bp_rm_addr radare_cmd b s2 = Some (0, s3) /\ debug_bp_rm_addr radare_cmd a s3 = Some (0, s4) /\
    bps_n s4 = bps_n st /\ b_addr <$> bps s4 = b_addr <$> bps st /\ t_byte (tmem s4) b = INT3.
Proof.
  intros H Hn [Ha Hab] Hua Hub Hfa Hfb Hlen.
  destruct (set_soft_run b st H) as (i & bi & s1 & E1 & H1 & Hi & Hbi & L1 & N1 & M1); [lia..|done|done|].
  pose proof (lookup_lt_Some _ _ _ Hi) as Hil.
  assert (Hfa1 : find_slot a (bps s1) = None) by (rewrite L1; apply find_slot_insert; [done|cbn; lia]).
  destruct (set_soft_run a s1 H1) as (j & bj & s2 & E2 & H2 & Hj & Hbj & L2 & N2 & M2); [lia..|done|done|].
  pose proof (lookup_lt_Some _ _ _ Hj) as Hjl.
  assert (Hij : i <> j).
  { intros <-. rewrite L1, list_lookup_insert_eq in Hj by done. simplify_eq. cbn in Hbj. lia. }
  assert (Hj0 : bps st !! j = Some bj) by by rewrite L1, list_lookup_insert_ne in Hj.
  rewrite L1, length_insert in Hjl.
  destruct (rm_soft_run s2 i (soft_slot false bi b st) H2) as (s3 & E3 & H3 & L3 & N3 & M3); [|cbn; lia|done|].
  { by rewrite L2, L1, list_lookup_insert_ne, list_lookup_insert_eq. }
  destruct (rm_soft_run s3 j (soft_slot false bj a s1) H3) as (s4 & E4 & H4 & L4 & N4 & M4); [|cbn; lia|done|].
  { by rewrite L3, list_lookup_insert_ne, L2, L1, list_lookup_insert_eq by (rewrite ?length_insert; done). }
  exists i, s1, j, s2, s3, s4. split_and!; [done|done|exact E3|exact E4|lia| |].
  - rewrite L4, L3, L2, L1, (list_insert_insert_ne _ i j), !list_fmap_insert by done. cbn.
    rewrite !list_insert_insert_eq, (list_insert_id _ i), (list_insert_id _ j); [done|..]; rewrite list_lookup_fmap.
    + by rewrite Hj0, <-Hbj.
    + by rewrite Hi, <-Hbi.
  - rewrite M4. rewrite <-M1 in Hlen. apply byte_in; [cbn; lia|]. cbn. rewrite lookup_take_lt by lia.
    rewrite lookup_app_l by (rewrite t_read_length; lia). rewrite t_read_lookup by lia. f_equal. rewrite M1.
    apply byte_in; [lia|]. cbn. by replace (a + Z.of_nat (Z.to_nat (b - a)) - b) with 0 by lia.
Qed.

(** ** Stepping over a call *)

(** The process runs: the slots and the registers stay.  [quiet] calls do not touch the debugger at all. *)
Definition runs (m : StateM.M (debug_t T W) unit) : Prop :=
  forall st, exists st', m st = Some (tt, st') /\ bps st' = bps st /\ bps_n st' = bps_n st /\ dr st' = dr st.
Definition quiet (m : StateM.M (debug_t T W) unit) : Prop := forall st, exists w, m st = Some (tt, with_world w st).

(** The breakpoint of a slot named by its number. *)
Lemma rm_num_run st i b : (Z.of_nat i < bps_n st) -> bps st !! i = Some b -> find_slot (b_addr b) (bps st) = Some i ->
  is_Some (disarm b st) ->
  exists st', debug_bp_rm_num radare_cmd (Z.of_nat i) st = Some (0, st') /\
    bps st' = <[i := set_addr 0 b]> (bps st) /\ bps_n st' = bps_n st - 1.
Proof.
  intros Hn Hi Hf [st1 Ed]. unfold debug_bp_rm_num. rewrite bind_get.
  rewrite (proj2 (Z.leb_le 0 _)), (proj2 (Z.ltb_lt _ (bps_n st))) by lia. cbn [andb]. rewrite Nat2Z.id.
  rewrite (bind_Some _ _ _ b st) by (unfold slot; by rewrite Hi).
  rewrite (debug_bp_rm_run _ _ st i b Hf Hi), Ed. by eexists.
Qed.

(** The slot of a new breakpoint; its register, where it has one. *)
Lemma set_outcome_slot a i b ty st st' : set_outcome a i b ty st st' -> length (dr st) = 8%nat -> is_u32 a ->
  exists c, bps st' = <[i := c]> (bps st) /\ bps_n st' = bps_n st + 1 /\ b_addr c = a /\
    (b_hw c = true -> exists k, (k < DR_NADDR)%nat /\ dr st' !! k = Some a).
Proof.
  intros Ho Hd Ha. destruct Ho; eexists; (split_and!; [reflexivity|done|done|]); [|done].
  intros _. by eapply arch_set_wp_hw_spec.
Qed.

(** What stepping over a call does to the breakpoints.  Where the next instruction has none, the
    temporary breakpoint comes and goes and the addresses are those of before; where it has one, the
    result of [debug_bp_set] is taken for slot 0, and the breakpoint of that slot is removed instead. *)
Theorem stepo_breakpoints trace debug_cont debug_step st a :
  slots_ok (bps st) (bps_n st) -> bps_n st <> Z.of_nat MAX_BPS -> length (dr st) = 8%nat ->
  (forall x, quiet (trace x)) -> runs debug_cont ->
  arch_is_stepoverable (t_read (pc st) 4 (tmem st)) <> 0 ->
  a = u64 (pc st + arch_is_stepoverable (t_read (pc st) 4 (tmem st))) -> a <> 0 -> is_u32 a ->
  match find_slot a (bps st) with
  | None => exists st', debug_stepo get_len_ins radare_cmd trace debug_cont debug_step st = Some (1, st') /\
      b_addr <$> bps st' = b_addr <$> bps st /\ bps_n st' = bps_n st
  | Some _ => forall b, bps st !! 0%nat = Some b -> b_hw b = false ->
      exists st', debug_stepo get_len_ins radare_cmd trace debug_cont debug_step st = Some (1, st') /\
        b_addr <$> bps st' = <[0%nat := 0]> (b_addr <$> bps st) /\ bps_n st' = bps_n st - 1
  end.
Proof.
  intros H Hn Hd Ht Hc Hs Ea Ha H32. unfold debug_stepo. rewrite !bind_get.
  destruct (Z.eqb_spec (arch_is_stepoverable (t_read (pc st) 4 (tmem st))) 0); [done|]. rewrite <-Ea.
  destruct (Ht (pc st) st) as [w Ew]. rewrite (bind_Some _ _ _ _ _ Ew).
  assert (Hpc : (if a =? 0 then pc st else a) = a) by by rewrite (proj2 (Z.eqb_neq _ _) Ha).
  destruct (find_slot a (bps st)) as [j|] eqn:Ef.
  - intros b Hb Hw.
    rewrite (bind_Some _ _ _ _ _ (debug_bp_set_found a BP_HARD (with_world w st) j Hn ltac:(cbn; by rewrite Hpc))).
    destruct (Hc (with_world w st)) as (s1 & E1 & L1 & N1 & D1). rewrite (bind_Some _ _ _ _ _ E1).
    destruct (rm_num_run s1 0 b) as (s2 & E2 & L2 & N2).
    + rewrite N1. cbn. destruct (find_slot_Some _ _ _ Ef) as (c & Hj & Hca).
      rewrite (so_count _ _ H). pose proof (used_pos _ _ _ Hj ltac:(congruence)). lia.
    + by rewrite L1.
    + rewrite L1. by apply find_slot_first.
    + unfold disarm. by rewrite Hw.
    + rewrite (bind_Some _ _ _ _ _ E2). eexists. split; [done|]. rewrite L2, N2, N1, L1. 
      by rewrite list_fmap_insert.
  - destruct (free_slot _ _ H Hn) as (i & b & Hi & Hb & Hb0).
    destruct (debug_bp_set_free a BP_HARD (with_world w st) i b Hn Ha Ef Hi Hb) as (s0 & E0 & Ho).
    rewrite (bind_Some _ _ _ _ _ E0). destruct (Hc s0) as (s1 & E1 & L1 & N1 & D1). rewrite (bind_Some _ _ _ _ _ E1).
    pose proof (lookup_lt_Some _ _ _ Hb) as Hl.
    destruct (set_outcome_slot _ _ _ _ _ _ Ho Hd H32) as (c & L0 & N0 & Hc0 & Hh).
    cbn in L0, N0. assert (Hu : is_u64 a) by (destruct H32; split; lia).
    destruct (rm_num_run s1 i c) as (s2 & E2 & L2 & N2).
    + rewrite N1, N0, (so_count _ _ H). pose proof (find_free_used _ _ Hi). lia.
    + rewrite L1, L0. by apply list_lookup_insert_eq.
    + rewrite L1, L0. eapply find_slot_unique; [by eapply slots_set|by apply list_lookup_insert_eq|congruence].
    + unfold disarm. destruct (b_hw c); [|done]. destruct (Hh eq_refl) as (k & Hk & Ek). rewrite Hc0, D1.
      destruct (dr_find a 0 DR_NADDR (dr s0)) eqn:Em; [done|].
      destruct (dr_find_None _ _ _ _ Em k ltac:(lia)). unfold dr_get. by rewrite Ek.
    + rewrite (bind_Some _ _ _ _ _ E2). eexists. split; [done|]. rewrite L2, N2, N1, L1, L0, N0.
      rewrite list_insert_insert_eq, list_fmap_insert. split; [|lia]. apply list_insert_id.
      by rewrite list_lookup_fmap, Hb, <-Hb0.
Qed.
End bp_spec.

(** ** Witnesses

    Instructions of two bytes in a memory of [nop]s. *)
Definition len2 (_ : list Z) : Z := 2.
Definition nops : Z -> Z := fun _ => 0x90.
Definition no_cmd (_ : string) (w : unit) : unit := w.
Definition st0 : debug_t (Z -> Z) unit := bp_init (replicate 8 0) 0x400000 nops tt.
Definition after {A S} (o : option (A * S)) (st : S) : S := match o with Some (_, st') => st' | None => st end.

Lemma after_run {A S} (o : option (A * S)) r st : fst <$> o = Some r -> o = Some (r, after o st).
Proof. destruct o as [[a s]|]; [|done]. by intros [= ->]. Qed.

(** A software breakpoint, a hardware breakpoint, and the first one removed. *)
Definition st1 := after (debug_bp_set len2 0x401000 BP_SOFT st0) st0.
Definition st2 := after (debug_bp_set len2 0x402000 BP_HARD st1) st1.
Definition st3 := after (debug_bp_rm no_cmd 0x401000 0 st2) st2.


(** Address 0 is removed, and the counter is one too low. *)
Definition st4 := after (debug_bp_rm no_cmd 0 0 st3) st3.
Lemma bp_slots_invariant_witness : bps_n st4 = 0 /\ slots_ok (bps st4) 1 /\ is_Some (debug_bp_set len2 0x403000 BP_SOFT st4).
Proof.
  destruct (bp_slots_invariant len2 no_cmd (replicate 8 0) 0x400000 nops tt 1 st4) as (H & Hs & _); [by split| |].
  - apply (session_rm_zero _ _ _ 0 0 0 st3); [|apply after_run; by vm_compute].
    apply (session_more _ _ _ 0 st2); [|apply (step_rm _ _ _ 0x401000 0 0); [done|apply after_run; by vm_compute]].
    apply (session_more _ _ _ 0 st1); [|apply (step_set _ _ _ 0x402000 BP_HARD 1); [done|done|apply after_run; by vm_compute]].
    apply (session_more _ _ _ 0 st0); [|apply (step_set _ _ _ 0x401000 BP_SOFT 0); [done|done|apply after_run; by vm_compute]].
    apply session_start.
  - split; [by vm_compute|]. split; [assert (E : bps_n st4 + Z.of_nat 1 = 1) by (vm_compute; reflexivity); rewrite E in H; exact H|].
    destruct (debug_bp_set len2 0x403000 BP_SOFT st4) as [[r x]|] eqn:E; [by eexists|].
    destruct (Hs _ _ E) as (_ & Hf & _). rewrite Forall_lookup in Hf. 
    assert (b_addr <$> bps st4 !! 0%nat = Some 0) as H0 by (vm_compute; reflexivity).
    destruct (bps st4 !! 0%nat) as [b|] eqn:Eb; [|done]. injection H0 as H0. by destruct (Hf _ _ Eb).
Defined.



(** An instruction of five bytes at 0x1000; a breakpoint at 0x1002. *)
Definition len5 (_ : list Z) : Z := 5.
Lemma slots_st0 : slots_ok (bps st0) (bps_n st0).
Proof. apply slots_init. Qed.

Lemma bp_overlap_leaves_int3_witness :
  exists i s1 j s2 s3 s4, debug_bp_set len5 0x1002 BP_SOFT st0 = Some (Z.of_nat i, s1) /\
    debug_bp_set len5 0x1000 BP_SOFT s1 = Some (Z.of_nat j, s2) /\
    debug_bp_rm_addr no_cmd 0x1002 s2 = Some (0, s3) /\ debug_bp_rm_addr no_cmd 0x1000 s3 = Some (0, s4) /\
    bps_n s4 = bps_n st0 /\ b_addr <$> bps s4 = b_addr <$> bps st0 /\ t_byte (tmem s4) 0x1002 = INT3.
Proof.
  apply (bp_overlap_leaves_int3 len5 no_cmd 0x1000 0x1002 st0); [apply slots_st0|done|done|by split|by split|..].
  - by vm_compute.
  - by vm_compute.
  - split; vm_compute; congruence.
Defined.

(** A call of five bytes at 0x400000 with breakpoints at 0x401000, in slot 0, and behind the call. *)
Definition call_at (x : Z) : Z := if x =? 0x400000 then 0xe8 else 0x90.
Definition cs0 : debug_t (Z -> Z) unit := bp_init (replicate 8 0) 0x400000 call_at tt.
Definition cs1 := after (debug_bp_set len2 0x401000 BP_SOFT cs0) cs0.
Definition cs2 := after (debug_bp_set len2 0x400005 BP_SOFT cs1) cs1.
Definition run_to (a : Z) : StateM.M (debug_t (Z -> Z) unit) unit := modify (with_pc a).

Lemma stepo_breakpoints_witness :
  exists st', debug_stepo len2 no_cmd (fun _ => ret tt) (run_to 0x400005) (ret tt) cs2 = Some (1, st') /\
    b_addr <$> bps st' = <[0%nat := 0]> (b_addr <$> bps cs2) /\ bps_n st' = bps_n cs2 - 1.
Proof.
  assert (Hok : slots_ok (bps cs2) (bps_n cs2)).
  { apply (slots_step len2 no_cmd (fun _ _ => True) cs1); [apply (step_set _ _ _ 0x400005 BP_SOFT 1); [done|done|apply after_run; by vm_compute]|].
    apply (slots_step len2 no_cmd (fun _ _ => True) cs0); [apply (step_set _ _ _ 0x401000 BP_SOFT 0); [done|done|apply after_run; by vm_compute]|].
    by split; [apply slots_init|]. }
  pose proof (stepo_breakpoints len2 no_cmd (fun _ => ret tt) (run_to 0x400005) (ret tt) cs2 0x400005) as H.
  replace (find_slot 0x400005 (bps cs2)) with (Some 1%nat) in H by by vm_compute.
  destruct (bps cs2 !! 0%nat) as [b|] eqn:Eb; [|by apply lookup_ge_None in Eb; rewrite (so_length _ _ Hok) in Eb; unfold MAX_BPS in Eb; lia].
  apply (H Hok) with (b := b); [by vm_compute|by vm_compute|intros x [????? w]; by exists w|intros st; eexists; by split|
    by vm_compute|by vm_compute|done|by split|done|].
  cut (b_hw <$> bps cs2 !! 0%nat = Some false); [rewrite Eb; by intros [= ->]|by vm_compute].
Defined.
