(* ===== verification/Cmd.v ===== *)
(** * The command interpreter: [radare_cmd], [radare_cmd_raw] and [radare_cmd_foreach] of [src/radare.c],
    [commands_parse] of [src/cmds.c]

    One line of input is repeated, cut at [&&], redirected, filtered, run at a temporary seek or at many
    offsets, and at last given to a command of the table.  The state is what the interpreter itself
    keeps and, behind an interface, the seek and the block of the I/O layer.  The sizes of the buffers on
    the stack are not part of the model, and Control-C is never pressed.  [None] is an access outside a
    text or a buffer. *)
From S2P Require Import Prelude StateM Utils.
#[local] Open Scope string_scope.
#[local] Open Scope Z_scope.

(** ** The I/O layer as the interpreter sees it *)
Class Session (X : Type) := {
  ses_seek : X -> Z;                      (* config.seek *)
  ses_set_seek : Z -> X -> X;
  ses_bsize : X -> Z;                     (* config.block_size *)
  ses_set_bsize : Z -> X -> X;
  ses_size : X -> Z;                      (* config.size *)
  ses_read : StateM.M X unit;             (* radare_read(0) *)
  ses_seek_to : Z -> StateM.M X unit }.   (* radare_seek(offset, SEEK_SET) *)

(** The block lies in the file. *)
Definition fits {X} `{!Session X} (s : X) : Prop :=
  0 <= ses_seek s /\ 0 <= ses_bsize s < 2^63 /\ ses_seek s + ses_bsize s <= ses_size s.

(** What the interpreter relies on: reading a block that lies in the file does not move the seek. *)
Class SessionLaws (X : Type) `{!Session X} (good : X -> Prop) := {
  seek_set_seek a s : ses_seek (ses_set_seek a s) = a;
  bsize_set_seek a s : ses_bsize (ses_set_seek a s) = ses_bsize s;
  size_set_seek a s : ses_size (ses_set_seek a s) = ses_size s;
  good_set_seek a s : good s -> good (ses_set_seek a s);
  read_keeps s : good s -> fits s -> exists s', ses_read s = Some (tt, s') /\ good s' /\
    ses_seek s' = ses_seek s /\ ses_bsize s' = ses_bsize s /\ ses_size s' = ses_size s }.

(** ** State *)

(** [out] is the file behind the standard output and [std] the one kept aside, -1 for none; [no_sync] stands
    for [config.debug], [config.unksize] or no limit. *)
Record cmd_st (X : Type) := CmdSt {
  ses : X; tmpoff : Z; cmd_level : Z; out : Z; std : Z; last_cmp : Z; macro_counter : Z; limit : Z;
  no_sync : bool; skip : bool }.
Arguments CmdSt {X}. Arguments ses {X}. Arguments tmpoff {X}. Arguments cmd_level {X}. Arguments out {X}.
Arguments std {X}. Arguments last_cmp {X}. Arguments macro_counter {X}. Arguments limit {X}.
Arguments no_sync {X}. Arguments skip {X}.

Definition NO_OFF : Z := 2^64 - 1.
Definition DEFAULT_BLOCK_SIZE : Z := 512.

(** ** The rest of the program

    [get_math], the commands of the table and the one for unknown names, macros, the filter of the
    console, files, the shell and the configuration.  [captured] is the output of a command, [None] when
    the temporary file cannot be opened. *)
Class Program (X : Type) := {
  get_math : string -> cmd_st X -> Z;
  commands : list (ascii * (string -> StateM.M (cmd_st X) Z));
  unknown : string -> StateM.M (cmd_st X) Z;
  cmd_macro : string -> StateM.M (cmd_st X) unit;
  radare_macro_call : string -> StateM.M (cmd_st X) (option Z);
  cons_grep : option string -> StateM.M (cmd_st X) unit;
  radare_nullcmd : StateM.M (cmd_st X) unit;
  toggle_verbose : StateM.M (cmd_st X) unit;
  reset_verbose : StateM.M (cmd_st X) unit;
  refuse_write : StateM.M (cmd_st X) unit;
  shell_command : string -> StateM.M (cmd_st X) Z;
  io_system : option string -> string -> StateM.M (cmd_st X) Z;
  io_open : string -> bool -> StateM.M (cmd_st X) Z;
  file_text : string -> StateM.M (cmd_st X) (option string);
  captured : StateM.M (cmd_st X) Z -> StateM.M (cmd_st X) (option string);
  flag_list : cmd_st X -> list (string * Z) }.

Section cmd.
Context {X : Type} `{!Session X, !Program X}.
Notation st_t := (cmd_st X).
Notation M := (StateM.M st_t).

Definition with_ses (s : X) (st : st_t) : st_t :=
  CmdSt s (tmpoff st) (cmd_level st) (out st) (std st) (last_cmp st) (macro_counter st) (limit st) (no_sync st) (skip st).
Definition with_tmpoff (a : Z) (st : st_t) : st_t :=
  CmdSt (ses st) a (cmd_level st) (out st) (std st) (last_cmp st) (macro_counter st) (limit st) (no_sync st) (skip st).
Definition with_level (n : Z) (st : st_t) : st_t :=
  CmdSt (ses st) (tmpoff st) n (out st) (std st) (last_cmp st) (macro_counter st) (limit st) (no_sync st) (skip st).
Definition with_out (o s : Z) (st : st_t) : st_t :=
  CmdSt (ses st) (tmpoff st) (cmd_level st) o s (last_cmp st) (macro_counter st) (limit st) (no_sync st) (skip st).
Definition with_last_cmp (v : Z) (st : st_t) : st_t :=
  CmdSt (ses st) (tmpoff st) (cmd_level st) (out st) (std st) v (macro_counter st) (limit st) (no_sync st) (skip st).
Definition with_counter (n : Z) (st : st_t) : st_t :=
  CmdSt (ses st) (tmpoff st) (cmd_level st) (out st) (std st) (last_cmp st) n (limit st) (no_sync st) (skip st).
Definition with_limit (n : Z) (st : st_t) : st_t :=
  CmdSt (ses st) (tmpoff st) (cmd_level st) (out st) (std st) (last_cmp st) (macro_counter st) n (no_sync st) (skip st).

Definition on_ses {A} (m : StateM.M X A) : M A := fun st =>
  match m (ses st) with Some (a, s) => Some (a, with_ses s st) | None => None end.
Definition set_seek (a : Z) : M unit := modify (fun st => with_ses (ses_set_seek a (ses st)) st).
Definition the_seek : M Z := get (fun st => ses_seek (ses st)).
Definition the_bsize : M Z := get (fun st => ses_bsize (ses st)).

(** ** The block *)
Definition set_bsize (n : Z) : M unit := modify (fun st => with_ses (ses_set_bsize n (ses st)) st).
Definition radare_set_block_size_i (sz : Z) : M unit :=
  do _ <- set_bsize (if sz <? 1 then 1 else sz) ;; on_ses ses_read.

Definition radare_sync : M unit :=
  do no <- get no_sync ;;
  if no : bool then ret tt
  else
    do a <- the_seek ;;
    do _ <- (if 0xfffffffffffffff <? a then set_seek 0 else ret tt) ;;
    do size <- get (fun st => ses_size (ses st)) ;;
    if size =? NO_OFF then ret tt
    else
      do b <- the_bsize ;;
      do _ <- (if size <? b then radare_set_block_size_i (s32 size) else ret tt) ;;
      do a <- the_seek ;;
      do _ <- (if size <? a then do _ <- set_seek size ;; modify (with_limit size) else ret tt) ;;
      do b <- the_bsize ;;
      if b =? 0 then set_bsize (if size <? DEFAULT_BLOCK_SIZE then size else DEFAULT_BLOCK_SIZE) else ret tt.

Definition math (s : string) : M Z := get (fun st => u64 (get_math s st)).

(** [commands_parse]: the first command of that letter; blanks and escapes in front are skipped. *)
Fixpoint find_command (c : ascii) (l : list (ascii * (string -> M Z))) : option (string -> M Z) :=
  match l with [] => None | (n, hook) :: l' => if Ascii.eqb n c then Some hook else find_command c l' end.
Definition commands_parse (cmdline : string) : M Z :=
  match drop_while (fun c => (ord c =? 27) || Ascii.eqb c " ") cmdline with
  | EmptyString => ret 0
  | String c s as line =>
    if Ascii.eqb c "#" || Ascii.eqb c ";" then ret 0
    else match find_command c commands with Some hook => hook s | None => unknown line end
  end.

(** ** Texts *)

(** The text in front of the first ampersands and behind them. *)
Fixpoint split_and (s : string) : option (string * string) :=
  match s with
  | EmptyString => None
  | String a s' =>
    if starts_with "&&" s then Some (EmptyString, str_drop 1 s')
    else match split_and s' with Some (l, r) => Some (String a l, r) | None => None end
  end.
Definition spaces_off (s : string) : string := drop_while (fun c => Ascii.eqb c " ") s.
Fixpoint newlines_off (s : string) : string :=
  match s with String c s' => String (if ord c =? 10 then " "%char else c) (newlines_off s') | EmptyString => EmptyString end.
Definition last_char (s : string) : option ascii := String.get (String.length s - 1) s.
(** A quote at the end is dropped. *)
Definition unquote (s : string) : string :=
  match last_char s with
  | Some c => if ord c =? 34 then substring 0 (String.length s - 1) s else s
  | None => s
  end.
Fixpoint lines_of (s : string) (line : string) : list string :=
  match s with
  | EmptyString => []
  | String c s' => if ord c =? 10 then line :: lines_of s' "" else lines_of s' (line +:+ String c "")
  end.
(** The lines [fgets] yields until the end of the file is noticed: the last one may be empty. *)
Fixpoint fgets_lines (s : string) (line : string) : list string :=
  match s with
  | EmptyString => [line]
  | String c s' =>
    if ord c =? 10 then (line +:+ String c "") :: fgets_lines s' "" else fgets_lines s' (line +:+ String c "")
  end.
Definition first_is (c : ascii) (s : string) : bool := match s with String a _ => Ascii.eqb a c | EmptyString => false end.

(** ** Temporary offsets

    The text behind the at sign: the offset, with a block size behind a colon.  The colon is looked for
    from the second character on; [behind] is what stands in the buffer when there is none. *)
Definition split_offset (s : string) (behind : option string) : option (string * option string) :=
  match s with
  | EmptyString =>
    match behind with
    | None => None
    | Some b => Some ("", snd <$> split_at ":" b)
    end
  | String c s' => match split_at ":" s' with Some (l, r) => Some (String c l, Some r) | None => Some (s, None) end
  end.

(** The offset is relative when it starts with a sign. *)
Definition temporary_seek (s : string) : M unit :=
  do a <- the_seek ;;
  do _ <- modify (with_tmpoff a) ;;
  let s := spaces_off s in
  do v <- math s ;;
  do _ <- set_seek (if first_is "+" s || first_is "-" s then u64 (a + v) else v) ;;
  on_ses ses_read.

(** ** Repetition over offsets *)
Fixpoint strip_ansi (fuel : nat) (s : string) : string :=
  match fuel with
  | O => s
  | S fuel' =>
    match split_at (chr 27) s with
    | None => s
    | Some (l, r) => match split_at "m" r with Some (_, r') => strip_ansi fuel' (l +:+ r') | None => s end
    end
  end.

(** The offsets of [@@=], each with the block size behind its colon. *)
Fixpoint offsets_loop (raw : string -> M Z) (cmd : string) (fuel : nat) (each : string) : M unit :=
  match fuel with
  | O => crash
  | S fuel' =>
    let each := spaces_off each in
    let '(item, rest) := match split_at " " each with Some (l, r) => (l, Some r) | None => (each, None) end in
    let '(off, size) := match split_at ":" item with Some (l, r) => (l, Some r) | None => (item, None) end in
    do _ <- (match size with Some t => do n <- math t ;; radare_set_block_size_i (s32 n) | None => ret tt end) ;;
    do a <- math off ;;
    do _ <- on_ses (ses_seek_to a) ;;
    do _ <- raw cmd ;;
    match rest with Some r => offsets_loop raw cmd fuel' r | None => ret tt end
  end.

(** One offset per line of a file. *)
Fixpoint each_line (radare_cmd : string -> M Z) (cmd : string) (l : list string) : M unit :=
  match l with
  | [] => ret tt
  | buf :: l' =>
    do a <- math buf ;;
    do _ <- on_ses (ses_seek_to a) ;;
    do _ <- radare_cmd (cmd +:+ " @ 0x" +:+ fmt_x0 8 a) ;;
    do _ <- modify (fun st => with_counter (s32 (macro_counter st + 1)) st) ;;
    each_line radare_cmd cmd l'
  end.

(** The offsets of a macro, until it breaks without a value: 999 at most. *)
Fixpoint macro_loop (radare_cmd : string -> M Z) (cmd call : string) (n : nat) : M unit :=
  match n with
  | O => ret tt
  | S n' =>
    do v <- radare_macro_call call ;;
    match v with
    | None => ret tt
    | Some a =>
      do _ <- on_ses (ses_seek_to a) ;;
      do _ <- radare_cmd (cmd +:+ " @ 0x" +:+ fmt_x0 8 a) ;;
      do _ <- modify (fun st => with_counter (s32 (macro_counter st + 1)) st) ;;
      macro_loop radare_cmd cmd call n'
    end
  end.

(** The flags of a word: all with a star in it, else those that contain it. *)
Fixpoint flags_loop (raw : string -> M Z) (cmd word : string) (bsz : Z) (l : list (string * Z)) : M unit :=
  match l with
  | [] => ret tt
  | (name, off) :: l' =>
    do _ <- (match split_at "*" word with
             | Some _ =>
               do _ <- radare_set_block_size_i bsz ;; do _ <- set_seek off ;; do _ <- raw cmd ;; ret tt
             | None =>
               if contains word name then
                 do _ <- set_seek off ;;
                 do _ <- radare_set_block_size_i bsz ;;
                 do _ <- on_ses ses_read ;;
                 do _ <- raw cmd ;; ret tt
               else ret tt
             end) ;;
    flags_loop raw cmd word bsz l'
  end.
Fixpoint words_loop (raw : string -> M Z) (cmd : string) (bsz : Z) (fuel : nat) (str : string) : M unit :=
  match fuel, str with
  | S fuel', String _ _ =>
    let s := spaces_off str in
    let word := take_while (fun c => negb (Ascii.eqb c " ")) s in
    do l <- get flag_list ;;
    do _ <- flags_loop raw cmd word bsz l ;;
    do _ <- (match split_at "*" word with
             | Some _ => ret tt
             | None => modify (fun st => with_counter (s32 (macro_counter st + 1)) st) end) ;;
    words_loop raw cmd bsz fuel' (drop_while (fun c => negb (Ascii.eqb c " ")) s)
  | _, _ => ret tt
  end.

Definition radare_cmd_foreach (raw radare_cmd : string -> M Z) (cmd each : string) : M unit :=
  do bsz <- the_bsize ;;
  let each := spaces_off each in
  let cmd := spaces_off cmd in
  do oseek <- the_seek ;;
  let each := strip_ansi (String.length each) each in
  do _ <- (match each with
           | EmptyString => modify (with_counter 0)
           | String c e =>
             if Ascii.eqb c "?" then ret tt
             else if Ascii.eqb c "=" then offsets_loop raw cmd (String.length each) e
             else if Ascii.eqb c "." then
               if first_is "(" e then
                 do _ <- modify (with_counter 0) ;; macro_loop radare_cmd cmd (str_drop 1 e) 999
               else
                 do f <- file_text e ;;
                 match f with
                 | None => ret tt
                 | Some text => do _ <- modify (with_counter 0) ;; each_line radare_cmd cmd (fgets_lines text "")
                 end
             else
               do _ <- modify (with_counter 0) ;; words_loop raw cmd bsz (String.length each) each
           end) ;;
  set_seek oseek.

(** ** One command

    The end of [radare_cmd_raw]: the seek, the block size and the standard output come back, the filter is
    dropped, and what follows the ampersands is run. *)
Definition finish (radare_cmd : string -> M Z) (r : Z) (quoted : bool) (grep next : option string) (tmpbsz : option Z) : M Z :=
  do t <- get tmpoff ;;
  do _ <- (if t =? NO_OFF then ret tt else do _ <- set_seek t ;; modify (with_tmpoff NO_OFF)) ;;
  do _ <- (match tmpbsz with Some n => radare_set_block_size_i n | None => ret tt end) ;;
  do _ <- modify (fun st => if (cmd_level st =? 1) && negb (std st =? -1) then with_out (std st) (-1) st else st) ;;
  do _ <- (match grep with Some _ => cons_grep None | None => ret tt end) ;;
  do _ <- (match next with
           | Some n => if quoted then ret tt else do _ <- radare_cmd (spaces_off n) ;; ret tt
           | None => ret tt end) ;;
  do _ <- modify (fun st => with_level (cmd_level st - 1) st) ;;
  ret r.

(** The commands between grave accents: their output takes their place. *)
Inductive piped_t := Unmatched | Silent | Line (s : string).
Fixpoint inline_pipes (raw : string -> M Z) (fuel : nat) (input : string) : M piped_t :=
  match split_at "`" input with
  | None => ret (Line input)
  | Some (l, r) =>
    match split_at "`" r with
    | None => ret Unmatched
    | Some (mid, rest) =>
      do o <- captured (raw mid) ;;
      match substring 0 1024 <$> o with
      | None | Some "" => ret Silent
      | Some t =>
        match fuel with
        | O => crash
        | S fuel' => inline_pipes raw fuel' (newlines_off (l +:+ t +:+ rest))
        end
      end
    end
  end.

(** The standard output of the command; [None] when the file cannot be opened. *)
Definition redirect (input : string) : M (option string) :=
  match input with
  | EmptyString => ret (Some input)
  | String c s =>
    if Ascii.eqb c ">" || Ascii.eqb c "/" then ret (Some input)
    else
      match split_at ">" s with
      | None => ret (Some input)
      | Some (l, r) =>
        match drop_while iswhitespace r with
        | EmptyString => ret (Some (String c l))
        | file =>
          do fd <- io_open file (first_is ">" r) ;;
          if fd =? -1 then
            do _ <- refuse_write ;; do a <- the_seek ;; do _ <- modify (with_tmpoff a) ;; ret None
          else
            do _ <- modify (fun st => with_out fd (out st) st) ;; ret (Some (String c l))
        end
      end
  end.

(** Lines that are run one after the other. *)
Fixpoint run_lines (radare_cmd : string -> M Z) (after : M unit) (l : list string) : M unit :=
  match l with
  | [] => ret tt
  | line :: l' =>
    do _ <- (match line with EmptyString => ret tt | _ => do _ <- radare_cmd line ;; ret tt end) ;;
    do _ <- after ;;
    run_lines radare_cmd after l'
  end.

(** What follows the dot: a macro, a file or a command whose output is run. *)
Definition interpret (raw radare_cmd : string -> M Z) (s : string) : M unit :=
  if first_is "(" s then
    do v <- radare_macro_call (str_drop 1 s) ;; modify (with_last_cmp (default 0 v))
  else if first_is "?" s then ret tt
  else if first_is " " s then
    do f <- file_text (str_drop 1 s) ;;
    match f with Some text => run_lines radare_cmd (ret tt) (fgets_lines text "") | None => ret tt end
  else
    do o <- captured (raw s) ;;
    match o with Some text => run_lines radare_cmd reset_verbose (lines_of text "") | None => reset_verbose end.

(** A command over many offsets; the seek is the one of before. *)
Definition foreach (raw radare_cmd : string -> M Z) (cmd each : string) : M unit :=
  do a <- the_seek ;;
  do _ <- modify (with_tmpoff a) ;;
  do _ <- radare_cmd_foreach raw radare_cmd cmd each ;;
  do t <- get tmpoff ;;
  on_ses (ses_seek_to t).

(** A block size for one command; the one of before is kept. *)
Definition temporary_bsize (size : option string) : M (option Z) :=
  match size with
  | None => ret None
  | Some t =>
    do b <- the_bsize ;;
    do n <- math t ;;
    do _ <- radare_set_block_size_i (s32 n) ;;
    do _ <- radare_sync ;;
    ret (Some b)
  end.

(** The command of the table, at its offset. *)
Definition run_command (raw radare_cmd : string -> M Z) (fin : Z -> option Z -> M Z) (quoted : bool) (behind : option string)
    (input : string) : M Z :=
  let plain := do r <- commands_parse (newlines_off input) ;; fin r None in
  if quoted || first_is "%" input || first_is "_" input || first_is ";" input then plain
  else
    match split_at "@" input with
    | None => plain
    | Some (l, r) =>
      if first_is "e" input then plain
      else if first_is "@" r then
        let '(each, size) := match split_at ":" (str_drop 1 r) with Some (x, y) => (x, Some y) | None => (str_drop 1 r, None) end in
        do b <- temporary_bsize size ;;
        do _ <- foreach raw radare_cmd l each ;;
        fin 0 b
      else
        match split_offset r behind with
        | None => crash
        | Some (o, size) =>
          do b <- temporary_bsize size ;;
          do _ <- temporary_seek o ;;
          do r <- commands_parse (newlines_off l) ;;
          fin r b
        end
    end.

(** Dispatch on the first character, after the ampersands and the filter are cut off. *)
Definition dispatch (raw radare_cmd : string -> M Z) (quoted : bool) (input : string) : M Z :=
  let whole := first_is "(" input && match split_at "," (str_drop 1 input) with Some _ => true | None => false end in
  let '(input, next) := if whole then (input, None)
                        else match split_and input with Some (l, r) => (l, Some r) | None => (input, None) end in
  let '(input, grep) := if whole then (input, None)
                        else match split_at "~" input with Some (l, g) => (l, Some g) | None => (input, None) end in
  do _ <- (match grep with Some g => cons_grep (Some g) | None => ret tt end) ;;
  let behind := match grep with Some g => Some g | None => (fun n => "&" +:+ n) <$> next end in
  let fin r b := finish radare_cmd r quoted grep next b in
  if first_is "." input then
    match (if quoted then None else split_at "@" input) with
    | None => do _ <- interpret raw radare_cmd (str_drop 1 input) ;; fin 0 None
    | Some (l, r) =>
      if first_is "@" r then do _ <- foreach raw radare_cmd l (str_drop 1 r) ;; fin 0 None
      else
        match split_offset r behind with
        | None => crash
        | Some (o, size) =>
          do b <- the_bsize ;;
          do tmpbsz <- (match size with
                        | Some t => do n <- math t ;; do _ <- set_bsize (u32 n) ;; ret (Some b)
                        | None => ret None end) ;;
          do _ <- temporary_seek o ;;
          do _ <- interpret raw radare_cmd (str_drop 1 l) ;;
          fin 0 tmpbsz
        end
    end
  else if first_is "(" input && negb (first_is ")" (str_drop 1 input)) then
    do _ <- cmd_macro (str_drop 1 input) ;; fin 0 None
  else
    match (if quoted then None else split_at "|" input) with
    | Some (String _ _ as l, r) =>
      if bool_decide (last_char l = Some "\"%char) then run_command raw radare_cmd fin quoted behind input
      else do o <- captured (raw l) ;; do v <- io_system o r ;; fin v None
    | _ => run_command raw radare_cmd fin quoted behind input
    end.

Definition raw_body (raw radare_cmd : string -> M Z) (fuel : nat) (tmp : string) : M Z :=
  match tmp with
  | EmptyString => ret 0
  | _ =>
    do _ <- modify (fun st => with_level (cmd_level st + 1) st) ;;
    match split_at (chr 10) tmp with
    | Some (_, String _ _) => finish radare_cmd 0 false None None None
    | _ =>
      let input := strclean tmp in
      let quoted := first_is (chr 34) input in
      let input := if quoted then unquote (str_drop 1 input) else input in
      if starts_with "!!" input then
        do r <- (if first_is "?" (str_drop 2 input) then ret 0 else shell_command (str_drop 2 input)) ;;
        finish radare_cmd r quoted None None None
      else
        do input <- (if first_is ":" input then do _ <- toggle_verbose ;; ret (str_drop 1 input) else ret input) ;;
        do _ <- modify (fun st => if cmd_level st =? 1 then with_out (out st) (-1) st else st) ;;
        if quoted then dispatch raw radare_cmd quoted input
        else
          do p <- inline_pipes raw fuel input ;;
          match p with
          | Unmatched => ret (-1)
          | Silent => finish radare_cmd 0 quoted None None None
          | Line input =>
            do o <- redirect input ;;
            match o with Some input => dispatch raw radare_cmd quoted input | None => ret 1 end
          end
    end
  end.

(** ** A line of input *)
Fixpoint repeat_raw (raw : string -> M Z) (input : string) (n : nat) (r : Z) : M Z :=
  match n with O => ret r | S n' => do r <- raw input ;; repeat_raw raw input n' r end.

(** A line from the prompt: the command behind the prompt copied with it; quoted; or up to the
    ampersands. *)
Definition prompt_line (input : string) : option (string * option string) :=
  if starts_with "[0x" input then
    match split_at ">" input with
    | Some (_, String _ r) => Some (r, None)
    | Some (_, EmptyString) => None
    | None => Some (input, None)
    end
  else if first_is (chr 34) input then Some (input, None)
  else match split_and input with Some (l, r) => Some (l, Some r) | None => Some (input, None) end.

(** The number of times; [None] when a brace is not closed. *)
Definition repetition (input : string) : M (option (Z * string)) :=
  if first_is "{" input then
    match split_at "}" (str_drop 1 input) with
    | Some (e, r) => do n <- math e ;; ret (Some (s32 n, r))
    | None => ret None
    end
  else ret (Some (if match input with String c _ => isdigit c | EmptyString => false end then atoi input else 1, input)).

Fixpoint cmd_loop (raw : string -> M Z) (fuel : nat) (input : string) : M Z :=
  match fuel with
  | O => crash
  | S fuel' =>
    if first_is "0" input then ret 0
    else
      match input with
      | EmptyString => do _ <- radare_nullcmd ;; ret 0
      | _ =>
        match prompt_line input with
        | None => crash
        | Some (input, next) =>
          do sk <- get skip ;;
          if sk : bool then ret 0
          else
            do o <- repetition input ;;
            match o with
            | None => ret 1
            | Some (n, input) =>
              match drop_while isdigit input with
              | EmptyString => ret 0
              | input =>
                do r <- repeat_raw raw input (Z.to_nat (if n <? 1 then 1 else n)) 0 ;;
                match next with Some n => cmd_loop raw fuel' (spaces_off n) | None => ret r end
              end
            end
        end
      end
  end.

(** Commands that run commands: [fuel] bounds their depth. *)
Fixpoint radare_cmd_raw (fuel : nat) (tmp : string) : M Z :=
  match fuel with
  | O => crash
  | S fuel' => raw_body (radare_cmd_raw fuel') (fun s => cmd_loop (radare_cmd_raw fuel') (S (String.length s)) s) fuel' tmp
  end.
Definition radare_cmd (fuel : nat) (input : string) : M Z := cmd_loop (radare_cmd_raw fuel) (S (String.length input)) input.
End cmd.
