(* ===== verification/CmdSpec.v ===== *)
(** * The command interpreter: what it promises

    Lines without special characters are one command of the table; on top of that, what a temporary seek,
    ampersands and a redirection do, and what goes wrong where commands nest.  The I/O layer of [Rio] is
    shown to be a session the interpreter can work on. *)
From S2P Require Import Prelude StateM Utils Sections Io IoPlugins Rio RioSpec Cmd.
#[local] Open Scope string_scope.
#[local] Open Scope Z_scope.

(** ** Texts *)
(** None of the characters the interpreter looks for. *)
Definition plain_char (c : ascii) : bool :=
  negb (existsb (Z.eqb (ord c)) [10; 34; 96; 62; 38; 126; 64; 124; 58]).
Definition plain (s : string) : bool := all_chars plain_char s.

(** The first character of a command of the table. *)
Definition command_char (c : ascii) : bool :=
  plain_char c && negb (existsb (Z.eqb (ord c)) [46; 40; 37; 95; 59; 101; 33; 47]).
Definition command (s : string) : bool := match s with String c s' => command_char c && plain s' | EmptyString => false end.

Lemma split_and_none f s : f "&"%char = false -> all_chars f s = true -> split_and s = None.
Proof.
  intros Hc. induction s as [|a s IH]; [done|]. cbn [split_and all_chars]. intros [Ha Hs]%andb_prop.
  cbn [starts_with]. destruct (Ascii.eqb_spec "&" a) as [<-|]; [congruence|]. cbn [andb]. by rewrite IH.
Qed.

Lemma split_and_app f s t : f "&"%char = false -> all_chars f s = true ->
  split_and (s +:+ "&&" +:+ t) = Some (s, t).
Proof.
  intros Hc. assert (H0 : split_and ("&&" +:+ t) = Some ("", t)) by done. revert H0. generalize ("&&" +:+ t). intros u H0.
  induction s as [|a s IH]; [done|]. cbn [split_and all_chars String.append]. intros [Ha Hs]%andb_prop.
  cbn [starts_with]. destruct (Ascii.eqb_spec "&" a) as [<-|]; [congruence|]. cbn [andb]. by rewrite IH.
Qed.

Lemma plain_no_newline s : plain s = true -> all_chars (fun c => negb (ord c =? 10)) s = true.
Proof.
  apply all_chars_impl. intros c. unfold plain_char. by destruct (Z.eqb_spec (ord c) 10) as [->|].
Qed.

Lemma newlines_off_plain s : plain s = true -> newlines_off s = s.
Proof.
  induction s as [|c s IH]; [done|]. intros [Hc Hs]%andb_prop. cbn [newlines_off]. rewrite IH by done.
  destruct (Z.eqb_spec (ord c) 10) as [E|]; [|done]. unfold plain_char in Hc. by rewrite E in Hc.
Qed.

Lemma first_is_plain c s : plain_char c = false -> plain s = true -> first_is c s = false.
Proof.
  intros Hc. destruct s as [|a s]; [done|]. intros [Ha _]%andb_prop. cbn.
  destruct (Ascii.eqb_spec a c) as [->|]; [congruence|done].
Qed.

Lemma command_plain s : command s = true -> plain s = true.
Proof. destruct s as [|c s]; [done|]. cbn. intros [[Hc _]%andb_prop Hs]%andb_prop. by rewrite Hc. Qed.

Lemma first_is_command c s : command_char c = false -> command s = true -> first_is c s = false.
Proof.
  intros Hc. destruct s as [|a s]; [done|]. cbn. intros [Ha _]%andb_prop.
  destruct (Ascii.eqb_spec a c) as [->|]; [congruence|done].
Qed.

(** ** Lines without special characters *)
Section run.
Context {X : Type} `{!Session X, !Program X}.
Notation st_t := (cmd_st X).
Notation M := (StateM.M st_t).

(** The command that runs what follows ampersands. *)
Definition next_cmd (fuel : nat) (s : string) : M Z := cmd_loop (radare_cmd_raw fuel) (S (String.length s)) s.

(** One level deeper; at the first level the standard output is not kept aside yet. *)
Definition entered (st : st_t) : st_t :=
  let st := with_level (cmd_level st + 1) st in if cmd_level st =? 1 then with_out (out st) (-1) st else st.

Lemma raw_start fuel s st : strclean s = s -> all_chars (fun c => negb (ord c =? 10)) s = true ->
  first_is (chr 34) s = false -> first_is "!" s = false -> first_is ":" s = false -> s <> "" ->
  radare_cmd_raw (S fuel) s st =
    (do p <- inline_pipes (radare_cmd_raw fuel) fuel s ;;
     match p with
     | Unmatched => ret (-1)
     | Silent => finish (next_cmd fuel) 0 false None None None
     | Line input =>
       do o <- redirect input ;;
       match o with Some input => dispatch (radare_cmd_raw fuel) (next_cmd fuel) false input | None => ret 1 end
     end) (entered st).
Proof.
  intros Hc Hn Hq He Hv Hs. cbn [radare_cmd_raw]. unfold raw_body. destruct s as [|c s]; [done|].
  rewrite (bind_Some _ _ _ _ _ eq_refl), (split_at_none (fun c => negb (ord c =? 10)) (chr 10)) by done.
  rewrite Hc, Hq. replace (starts_with "!!" (String c s)) with false.
  2:{ cbn [starts_with]. destruct (Ascii.eqb_spec "!" c) as [<-|]; [by cbn in He|done]. }
  rewrite Hv, bind_ret, (bind_Some _ _ _ _ _ eq_refl). done.
Qed.

Lemma inline_pipes_none raw fuel s : split_at "`" s = None -> inline_pipes (X:=X) raw fuel s = ret (Line s).
Proof. intros H. destruct fuel; cbn [inline_pipes]; by rewrite H. Qed.

Lemma redirect_none s : split_at ">" s = None -> redirect s = (ret (Some s) : M _).
Proof.
  destruct s as [|c s]; [done|]. cbn [split_at redirect]. destruct (Ascii.eqb c ">"); [done|].
  destruct (Ascii.eqb c "/"); [done|]. by destruct (split_at ">" s) as [[]|].
Qed.

(** What follows a command in its line: nothing, or an offset. *)
Definition offset_part (o : option string) : string := match o with Some o => "@" +:+ o | None => "" end.
Definition part_ok (o : option string) : bool := match o with Some o => plain o && negb (String.eqb o "") | None => true end.
Definition at_offset (o : option string) : M unit := match o with Some o => temporary_seek o | None => ret tt end.

(** Of the special characters, such a line has the at sign only. *)
Definition line_char (c : ascii) : bool := plain_char c || Ascii.eqb c "@".
Lemma line_chars l o : command l = true -> part_ok o = true -> all_chars line_char (l +:+ offset_part o) = true.
Proof.
  assert (H : forall c, plain_char c = true -> line_char c = true) by (intros c Hc; unfold line_char; by rewrite Hc).
  intros Hl%command_plain Ho. rewrite all_chars_app. apply andb_true_intro. split.
  - by apply (all_chars_impl plain_char).
  - destruct o as [o|]; [|done]. apply andb_prop in Ho as [Ho _].
    exact (all_chars_impl plain_char line_char o H Ho).
Qed.

Lemma dispatch_line raw rcmd l o st : command l = true -> part_ok o = true ->
  dispatch raw rcmd false (l +:+ offset_part o) st =
    (do _ <- at_offset o ;; do r <- commands_parse l ;; finish rcmd r false None None None) st.
Proof.
  intros Hl Ho. pose proof (line_chars l o Hl Ho) as Hc. unfold dispatch.
  assert (Hf : forall c, command_char c = false -> first_is c (l +:+ offset_part o) = false).
  { intros c Hcc. destruct l as [|a l]; [done|]. exact (first_is_command c _ Hcc Hl). }
  rewrite (Hf "("%char) by done. cbn [andb].
  rewrite (split_and_none line_char), (split_at_none line_char "~") by done.
  rewrite bind_ret, (Hf "."%char), (Hf "("%char) by done. cbn [andb].
  rewrite (split_at_none line_char "|") by done. unfold run_command.
  rewrite (Hf "%"%char), (Hf "_"%char), (Hf ";"%char), (Hf "e"%char) by done. cbn [orb].
  rewrite (split_at_skip plain_char) by (done || by apply command_plain).
  destruct o as [o|]; cbn [offset_part at_offset].
  - apply andb_prop in Ho as [Ho He]. cbn [String.append split_at]. rewrite Ascii.eqb_refl.
    rewrite (first_is_plain "@") by done.
    assert (Es : split_offset o None = Some (o, None)).
    { destruct o as [|c o]; [done|]. cbn [split_offset]. apply andb_prop in Ho as [_ Ho].
      by rewrite (split_at_none plain_char). }
    cbn [fmap option_fmap option_map]. rewrite Es. cbn [temporary_bsize]. rewrite bind_ret.
    rewrite append_empty, newlines_off_plain by by apply command_plain. done.
  - cbn [split_at]. by rewrite bind_ret, append_empty, newlines_off_plain by by apply command_plain.
Qed.

Lemma command_nonempty l t : command l = true -> l +:+ t <> "".
Proof. by destruct l. Qed.

Lemma first_is_line c l t : command l = true -> command_char c = false -> first_is c (l +:+ t) = false.
Proof. intros Hl Hc. destruct l as [|a l]; [done|]. exact (first_is_command c _ Hc Hl). Qed.

(** A line is its command, at its offset. *)
Lemma raw_line fuel l o st : command l = true -> part_ok o = true -> strclean (l +:+ offset_part o) = l +:+ offset_part o ->
  radare_cmd_raw (S fuel) (l +:+ offset_part o) st =
    (do _ <- at_offset o ;; do r <- commands_parse l ;; finish (next_cmd fuel) r false None None None) (entered st).
Proof.
  intros Hl Ho Hc. pose proof (line_chars l o Hl Ho) as Hch.
  rewrite raw_start; try done; try (by apply first_is_line); [| |by apply command_nonempty].
  - rewrite inline_pipes_none by by apply (split_at_none line_char).
    rewrite bind_ret, redirect_none by by apply (split_at_none line_char).
    rewrite bind_ret. by apply dispatch_line.
  - eapply all_chars_impl; [|exact Hch]. intros c. unfold line_char, plain_char.
    destruct (Z.eqb_spec (ord c) 10) as [E|]; [|done]. rewrite E. cbn. by intros ->%Ascii.eqb_eq.
Qed.

(** A line whose output goes to a file. *)
Definition file_char (c : ascii) : bool := plain_char c || Ascii.eqb c ">".

Lemma raw_redirect fuel l r st : command l = true -> all_chars file_char r = true ->
  strclean (l +:+ ">" +:+ r) = l +:+ ">" +:+ r -> drop_while iswhitespace r <> "" ->
  radare_cmd_raw (S fuel) (l +:+ ">" +:+ r) st =
    (do fd <- io_open (drop_while iswhitespace r) (first_is ">" r) ;;
     if fd =? -1 then
       do _ <- refuse_write ;; do a <- the_seek ;; do _ <- modify (with_tmpoff a) ;; ret 1
     else
       do _ <- modify (fun st => with_out fd (out st) st) ;;
       do v <- commands_parse l ;; finish (next_cmd fuel) v false None None None) (entered st).
Proof.
  intros Hl Hr Hc Hf.
  assert (Hch : all_chars file_char (l +:+ ">" +:+ r) = true).
  { rewrite all_chars_app. apply andb_true_intro. split; [|by cbn].
    apply (all_chars_impl plain_char), command_plain; [|done]. intros c Hp. unfold file_char. by rewrite Hp. }
  rewrite raw_start; try done; try (by apply first_is_line); [| |by apply command_nonempty].
  - rewrite inline_pipes_none by by apply (split_at_none file_char). rewrite bind_ret.
    destruct l as [|c l]; [done|]. cbn [String.append redirect].
    replace (Ascii.eqb c ">" || Ascii.eqb c "/") with false.
    2:{ apply andb_prop in Hl as [Hl _]. destruct (Ascii.eqb_spec c ">") as [->|]; [done|].
        by destruct (Ascii.eqb_spec c "/") as [->|]. }
    pose proof (command_plain _ Hl) as [_ Hp]%andb_prop. rewrite (split_at_app plain_char) by done.
    destruct (drop_while iswhitespace r) as [|x y] eqn:Ed; [done|]. rewrite bind_bind. apply bind_ext. intros fd st'.
    destruct (fd =? -1); [by rewrite !bind_bind; apply bind_ext|]. rewrite bind_bind, (bind_Some _ _ _ _ _ eq_refl), bind_ret, (bind_Some _ _ _ _ _ eq_refl).
    pose proof (dispatch_line (radare_cmd_raw fuel) (next_cmd fuel) (String c l) None (with_out fd (out st') st') Hl eq_refl) as E.
    cbn [offset_part at_offset] in E. by rewrite append_empty, bind_ret in E.
  - eapply all_chars_impl; [|exact Hch]. intros c. unfold file_char, plain_char.
    destruct (Z.eqb_spec (ord c) 10) as [E|]; [|done]. rewrite E. cbn. by intros ->%Ascii.eqb_eq.
Qed.

(** ** The end of a command *)
Definition leave (st : st_t) : st_t :=
  let st := if tmpoff st =? NO_OFF then st else with_tmpoff NO_OFF (with_ses (ses_set_seek (tmpoff st) (ses st)) st) in
  let st := if (cmd_level st =? 1) && negb (std st =? -1) then with_out (std st) (-1) st else st in
  with_level (cmd_level st - 1) st.

Lemma finish_leave rcmd r quoted st : finish rcmd r quoted None None None st = Some (r, leave st).
Proof. unfold finish, leave. rewrite bind_get. by destruct (tmpoff st =? NO_OFF). Qed.

Context (good : X -> Prop) `{!SessionLaws X good}.

(** A command at an offset starts there, with the seek of before kept aside. *)
Lemma raw_at fuel l o v st a : good (ses st) -> command l = true -> plain o && negb (String.eqb o "") = true ->
  strclean (l +:+ "@" +:+ o) = l +:+ "@" +:+ o -> (forall st', u64 (get_math (spaces_off o) st') = v) ->
  a = (if first_is "+" (spaces_off o) || first_is "-" (spaces_off o) then u64 (ses_seek (ses st) + v) else v) -> fits (ses_set_seek a (ses st)) ->
  exists st1, good (ses st1) /\ ses_seek (ses st1) = a /\ ses_bsize (ses st1) = ses_bsize (ses st) /\
    ses_size (ses st1) = ses_size (ses st) /\ tmpoff st1 = ses_seek (ses st) /\ cmd_level st1 = cmd_level st + 1 /\
    radare_cmd_raw (S fuel) (l +:+ "@" +:+ o) st =
      (do r <- commands_parse l ;; finish (next_cmd fuel) r false None None None) st1.
Proof.
  intros Hg Hl Ho Hc Hv Ha Hn. pose proof (raw_line fuel l (Some o) st Hl Ho Hc) as E. cbn [offset_part at_offset] in E.
  rewrite E. unfold temporary_seek. set (e := entered st).
  assert (He : ses e = ses st /\ cmd_level e = cmd_level st + 1).
  { subst e. unfold entered. cbn [cmd_level with_level]. by destruct (cmd_level st + 1 =? 1). }
  destruct He as [He1 He2].
  rewrite bind_bind, (bind_Some _ _ _ (ses_seek (ses st)) e) by (unfold the_seek, get; by rewrite He1).
  rewrite bind_bind, (bind_Some _ _ _ _ _ eq_refl), bind_bind.
  rewrite (bind_Some _ _ _ v (with_tmpoff (ses_seek (ses st)) e)) by (unfold math, get; by rewrite Hv).
  rewrite <-Ha, bind_bind, (bind_Some _ _ _ _ _ eq_refl).
  destruct (read_keeps (ses_set_seek a (ses st))) as (s' & Er & Hg' & Hs & Hb & Hz).
  { by apply good_set_seek. }
  { done. }
  erewrite bind_Some; [|unfold on_ses; cbn; by rewrite He1, Er].
  eexists. split_and!; [..|reflexivity]; cbn.
  - done.
  - by rewrite Hs, seek_set_seek.
  - by rewrite Hb, bsize_set_seek.
  - by rewrite Hz, size_set_seek.
  - done.
  - done.
Qed.

Lemma leave_seek st : ses_seek (ses (leave st)) = if tmpoff st =? NO_OFF then ses_seek (ses st) else tmpoff st.
Proof.
  unfold leave. destruct (tmpoff st =? NO_OFF); destruct (_ && _); cbn; by rewrite ?seek_set_seek.
Qed.
Lemma leave_tmpoff st : tmpoff (leave st) = NO_OFF.
Proof. unfold leave. destruct (Z.eqb_spec (tmpoff st) NO_OFF); by destruct (_ && _). Qed.
Lemma leave_level st : cmd_level (leave st) = cmd_level st - 1.
Proof. unfold leave. destruct (tmpoff st =? NO_OFF); by destruct (_ && _). Qed.
Lemma leave_good st : good (ses st) -> good (ses (leave st)).
Proof.
  intros H. unfold leave. destruct (tmpoff st =? NO_OFF); destruct (_ && _); cbn; try done; by apply good_set_seek.
Qed.

(** C17: a command at an offset runs there, with the seek of before put in a place shared by all levels.  Afterwards the
    seek is what the command left in this place, or where the command sought to when it left it empty: the seek of before
    comes back when the command leaves the place alone, and is lost when the command runs another one at an offset
    ([nested_seek_lost]). *)
Theorem temporary_seek_restores fuel l o v st a : good (ses st) -> command l = true -> plain o && negb (String.eqb o "") = true ->
  strclean (l +:+ "@" +:+ o) = l +:+ "@" +:+ o -> (forall st', u64 (get_math (spaces_off o) st') = v) ->
  a = (if first_is "+" (spaces_off o) || first_is "-" (spaces_off o) then u64 (ses_seek (ses st) + v) else v) -> fits (ses_set_seek a (ses st)) ->
  exists st1, ses_seek (ses st1) = a /\ tmpoff st1 = ses_seek (ses st) /\
    forall r st2, commands_parse l st1 = Some (r, st2) ->
    exists st', radare_cmd_raw (S fuel) (l +:+ "@" +:+ o) st = Some (r, st') /\ tmpoff st' = NO_OFF /\
      cmd_level st' = cmd_level st2 - 1 /\
      ses_seek (ses st') = (if tmpoff st2 =? NO_OFF then ses_seek (ses st2) else tmpoff st2) /\
      (tmpoff st2 = tmpoff st1 -> ses_seek (ses st) <> NO_OFF -> ses_seek (ses st') = ses_seek (ses st)).
Proof.
  intros Hg Hl Ho Hc Hv Ha Hn. destruct (raw_at fuel l o v st a Hg Hl Ho Hc Hv Ha Hn) as (st1 & _ & H1 & _ & _ & Ht & _ & E).
  exists st1. split; [done|]. split; [done|]. intros r st2 E2. exists (leave st2). rewrite E, (bind_Some _ _ _ _ _ E2), finish_leave.
  split_and!; [done|by apply leave_tmpoff|by apply leave_level|by rewrite leave_seek|].
  intros Et Hs. rewrite leave_seek, Et, Ht. by rewrite (proj2 (Z.eqb_neq _ _) Hs).
Qed.

(** The place for the seek of before is shared by all levels.  When the command at an offset runs
    another one at an offset, the inner end takes it, and the seek stays at the outer offset for good. *)
Theorem nested_seek_lost fuel fuel2 l o v l2 o2 v2 st a :
  good (ses st) -> command l = true -> plain o && negb (String.eqb o "") = true ->
  strclean (l +:+ "@" +:+ o) = l +:+ "@" +:+ o -> (forall st', u64 (get_math (spaces_off o) st') = v) ->
  a = (if first_is "+" (spaces_off o) || first_is "-" (spaces_off o) then u64 (ses_seek (ses st) + v) else v) -> fits (ses_set_seek a (ses st)) -> a <> NO_OFF ->
  command l2 = true -> plain o2 && negb (String.eqb o2 "") = true -> strclean (l2 +:+ "@" +:+ o2) = l2 +:+ "@" +:+ o2 ->
  (forall st', u64 (get_math (spaces_off o2) st') = v2) -> fits (ses_set_seek v2 (ses st)) -> first_is "+" (spaces_off o2) || first_is "-" (spaces_off o2) = false ->
  (forall s, commands_parse l s = radare_cmd_raw (S fuel2) (l2 +:+ "@" +:+ o2) s) ->
  (forall s, commands_parse l2 s = Some (0, s)) ->
  exists st', radare_cmd_raw (S fuel) (l +:+ "@" +:+ o) st = Some (0, st') /\ ses_seek (ses st') = a.
Proof.
  intros Hg Hl Ho Hc Hv Ha Hf Hn Hl2 Ho2 Hc2 Hv2 Hf2 Hs2 Hrun Hq.
  destruct (raw_at fuel l o v st a Hg Hl Ho Hc Hv Ha Hf) as (st1 & Hg1 & H1 & Hb1 & Hz1 & _ & _ & E).
  destruct (raw_at fuel2 l2 o2 v2 st1 v2 Hg1 Hl2 Ho2 Hc2 Hv2) as (st2 & Hg2 & H2 & _ & _ & Ht2 & _ & E2).
  { by rewrite Hs2. }
  { revert Hf2. unfold fits. by rewrite !seek_set_seek, !bsize_set_seek, !size_set_seek, Hb1, Hz1. }
  exists (leave (leave st2)). rewrite E, (bind_Some _ _ _ 0 (leave st2)), finish_leave.
  - split; [done|]. rewrite leave_seek, leave_tmpoff, Z.eqb_refl, leave_seek, Ht2, H1.
    by rewrite (proj2 (Z.eqb_neq _ _) Hn).
  - by rewrite Hrun, E2, (bind_Some _ _ _ _ _ (Hq st2)), finish_leave.
Qed.

(** ** Levels *)
Lemma out_leave st : out (leave st) = if (cmd_level st =? 1) && negb (std st =? -1) then std st else out st.
Proof. unfold leave. destruct (tmpoff st =? NO_OFF); cbn; by destruct (_ && _). Qed.

(** The standard output of a command goes to the file behind the greater-than sign.  At the first
    level it comes back; below, where the level was not counted back, it stays in the file. *)
Theorem redirect_comes_back fuel l r st fd st1 v st2 : command l = true -> all_chars file_char r = true ->
  strclean (l +:+ ">" +:+ r) = l +:+ ">" +:+ r -> drop_while iswhitespace r <> "" ->
  io_open (drop_while iswhitespace r) (first_is ">" r) (entered st) = Some (fd, st1) -> fd <> -1 -> out st1 = out st -> out st <> -1 ->
  commands_parse l (with_out fd (out st1) st1) = Some (v, st2) -> out st2 = fd -> std st2 = out st -> cmd_level st2 = cmd_level st + 1 ->
  exists st', radare_cmd_raw (S fuel) (l +:+ ">" +:+ r) st = Some (v, st') /\
    out st' = if cmd_level st =? 0 then out st else fd.
Proof.
  intros Hl Hr Hc Hf Eo Hfd H1 Hout Ec H2 Hs Hlv. rewrite raw_redirect by done. rewrite (bind_Some _ _ _ _ _ Eo).
  rewrite (proj2 (Z.eqb_neq fd (-1)) Hfd), (bind_Some _ _ _ _ _ eq_refl), (bind_Some _ _ _ _ _ Ec), finish_leave.
  eexists. split; [reflexivity|]. rewrite out_leave, Hlv, Hs, H2, (proj2 (Z.eqb_neq (out st) (-1)) Hout), andb_true_r.
  by destruct (Z.eqb_spec (cmd_level st) 0), (Z.eqb_spec (cmd_level st + 1) 1); try lia.
Qed.

(** A grave accent that is not closed ends the line with -1, and the level of the interpreter stays one
    higher for the rest of the session. *)
Theorem unmatched_accent_leaks_level fuel l r st : command l = true -> plain r = true ->
  strclean (l +:+ "`" +:+ r) = l +:+ "`" +:+ r ->
  exists st', radare_cmd_raw (S fuel) (l +:+ "`" +:+ r) st = Some (-1, st') /\ cmd_level st' = cmd_level st + 1 /\
    ses st' = ses st /\ out st' = out st.
Proof.
  intros Hl Hr Hc. exists (entered st). rewrite raw_start; try done; try (by apply first_is_line); [| |by apply command_nonempty].
  - assert (E : inline_pipes (radare_cmd_raw fuel) fuel (l +:+ "`" +:+ r) = (ret Unmatched : M piped_t)).
    { assert (E1 : split_at "`" (l +:+ "`" +:+ r) = Some (l, r)) by by apply (split_at_app plain_char), command_plain.
      destruct fuel; cbn [inline_pipes]; rewrite E1; by rewrite (split_at_none plain_char "`" r). }
    rewrite E, bind_ret. unfold entered. cbn. by destruct (cmd_level st + 1 =? 1).
  - rewrite all_chars_app. cbn. by rewrite !plain_no_newline by (done || by apply command_plain).
Qed.

(** ** Lines of several commands *)
Lemma drop_while_length f s : (String.length (drop_while f s) <= String.length s)%nat.
Proof. induction s as [|c s IH]; [done|]. cbn. destruct (f c); cbn; lia. Qed.

Lemma split_and_length s l r : split_and s = Some (l, r) -> (String.length r < String.length s)%nat.
Proof.
  revert l. induction s as [|c s IH]; [done|]. intros l. cbn [split_and String.length]. destruct (starts_with "&&" (String c s)).
  - intros [= _ <-]. destruct s; cbn; lia.
  - destruct (split_and s) as [[l' r']|]; [|done]. intros [= _ <-]. specialize (IH l' eq_refl). lia.
Qed.

Lemma prompt_line_length s l r : prompt_line s = Some (l, Some r) -> (String.length r < String.length s)%nat.
Proof.
  unfold prompt_line. destruct (starts_with "[0x" s); [by destruct (split_at ">" s) as [[? []]|]|].
  destruct (first_is (chr 34) s); [done|]. destruct (split_and s) as [[l' r']|] eqn:E; [|done].
  intros [= -> ->]. by eapply split_and_length.
Qed.

(** More fuel than the line is long changes nothing. *)
Lemma cmd_loop_fuel raw n m s : (String.length s < n)%nat -> (String.length s < m)%nat ->
  forall st, cmd_loop (X := X) raw n s st = cmd_loop raw m s st.
Proof.
  revert m s. induction n as [|n IH]; intros m s Hn Hm st; [lia|]. destruct m as [|m]; [lia|]. cbn [cmd_loop].
  destruct (first_is "0" s); [done|]. destruct s as [|c s]; [done|]. set (t := String c s) in *.
  destruct (prompt_line t) as [[l o]|] eqn:Ep; [|done]. apply bind_ext. intros sk st1. destruct sk; [done|].
  apply bind_ext. intros [[k i]|] st2; [|done]. destruct (drop_while isdigit i); [done|].
  apply bind_ext. intros r st3. destruct o as [o|]; [|done]. apply prompt_line_length in Ep.
  pose proof (drop_while_length (fun c => Ascii.eqb c " ") o). unfold spaces_off. apply IH; lia.
Qed.

(** What a line with a command needs so that the ampersands behind it are seen. *)
Definition first_part (a : string) : bool :=
  all_chars (fun c => negb (Ascii.eqb c "&")) a && negb (first_is "0" a) && negb (first_is "{" a) &&
  negb (first_is (chr 34) a) && negb (starts_with "[0x" a) && negb (String.eqb (drop_while isdigit a) "").

(** C22: ampersands are sequence: the first command with its repetition, then the rest of the line, in the
    state the first one leaves. *)
Theorem cmd_sequence fuel a b st : first_part a = true -> starts_with "[0x" (a +:+ "&&" +:+ b) = false -> skip st = false ->
  radare_cmd fuel (a +:+ "&&" +:+ b) st = (do _ <- radare_cmd fuel a ;; radare_cmd fuel (spaces_off b)) st.
Proof.
  unfold first_part. rewrite !andb_true_iff, !negb_true_iff. intros [[[[[Ha H0] Hb] Hq] Hx] Hd] Hx' Hs.
  assert (Hf : forall c t, first_is c a = false -> first_is c (a +:+ t) = false) by (intros c t; destruct a; done).
  assert (Hne : a <> "") by by intros ->. assert (Hne' : a +:+ "&&" +:+ b <> "") by by destruct a.
  assert (Hp : prompt_line (a +:+ "&&" +:+ b) = Some (a, Some b)).
  { unfold prompt_line. rewrite Hx', (Hf (chr 34) _ Hq). by rewrite (split_and_app (fun c => negb (Ascii.eqb c "&"))). }
  assert (Hp' : prompt_line a = Some (a, None)).
  { unfold prompt_line. rewrite Hx, Hq. by rewrite (split_and_none (fun c => negb (Ascii.eqb c "&"))). }
  assert (Hlen : (String.length (spaces_off b) < String.length (a +:+ "&&" +:+ b))%nat).
  { rewrite !str_length_app. pose proof (drop_while_length (fun c => Ascii.eqb c " ") b). unfold spaces_off. cbn. lia. }
  assert (Hrun : forall n s i, s <> "" -> first_is "0" s = false -> prompt_line s = Some (a, i) ->
    cmd_loop (radare_cmd_raw fuel) (S n) s st =
      (do r <- repeat_raw (radare_cmd_raw fuel) (drop_while isdigit a) (Z.to_nat (let n := (if match a with String c _ => isdigit c | EmptyString => false end then atoi a else 1) in if n <? 1 then 1 else n)) 0 ;;
       match i with Some k => cmd_loop (radare_cmd_raw fuel) n (spaces_off k) | None => ret r end) st).
  { intros n s i Hn Hz Ep. cbn [cmd_loop]. rewrite Hz. destruct s as [|c s]; [done|]. rewrite Ep, bind_get, Hs.
    unfold repetition. rewrite Hb, bind_ret. by destruct (drop_while isdigit a). }
  unfold radare_cmd. rewrite (Hrun _ _ _ Hne' (Hf "0"%char _ H0) Hp).
  unfold bind at 2. rewrite (Hrun _ _ _ Hne H0 Hp').
  unfold bind. destruct (repeat_raw _ _ _ 0 st) as [[r st']|]; [|done].
  exact (cmd_loop_fuel (radare_cmd_raw fuel) _ (S (String.length (spaces_off b))) (spaces_off b) Hlen (Nat.lt_succ_diag_r _) st').
Qed.
End run.

(** ** The I/O layer keeps what the interpreter relies on *)
Section rio.
Context {W : Type} (plugins : list (plugin_t W)) (os_pread : Z -> Z -> Z -> option (list Z)) (x : Z) {HD : Disk plugins x}.

Definition set_block_size (n : Z) (c : config_t) : config_t :=
  Config (fd c) (seek c) (size c) (vaddr c) (paddr c) n (block c).

Definition rio_session : Session (radare_st W) := {|
  ses_seek st := seek (conf st);
  ses_set_seek a st := with_conf (Io.set_seek a (conf st)) st;
  ses_bsize st := block_size (conf st);
  ses_set_bsize n st := with_conf (set_block_size n (conf st)) st;
  ses_size st := size (conf st);
  ses_read := do _ <- radare_read plugins os_pread false ;; ret tt;
  ses_seek_to a := do _ <- radare_seek plugins a SEEK_SET ;; ret tt |}.

(** A file that is open, at no base address and with nothing mapped over it. *)
Record open_file (st : radare_st W) : Prop := {
  of_fd : fd (conf st) = x;
  of_fd' : x <> -1;
  of_ok : disk_ok (dev st);
  of_vaddr : vaddr (conf st) = 0;
  of_size : size (conf st) = Z.of_nat (length (disk_bytes (dev st)));
  of_small : size (conf st) < 2^63;
  of_maps : maps st = [] }.

Lemma radare_read_open st : open_file st -> fits (Session0:=rio_session) st ->
  exists r d b, radare_read plugins os_pread false st =
      Some (r, with_conf (set_block b (conf st)) (with_dev (write_last st) d st)) /\
    disk_ok d /\ disk_bytes d = disk_bytes (dev st).
Proof.
  intros [] (Hs & Hb & He). cbn in *. unfold radare_read, bind.
  rewrite (proj2 (Z.eqb_neq (fd (conf st)) (-1))) by congruence.
  rewrite (proj2 (Z.eqb_neq (seek (conf st)) minus1)) by (unfold minus1; lia).
  destruct (RioSpec.seek_set plugins x st (seek (conf st))) as (d1 & -> & Hok1 & Hb1 & Hat1);
    [done|done|done|unfold minus1; lia|]. unfold contents in *.
  unfold io_read_m. cbn [conf with_conf with_dev maps fd Io.set_seek dev write_last]. rewrite of_fd0, of_maps0.
  rewrite (io_read_unmapped plugins os_pread), u64_id by (apply Forall_nil_2 || (split; lia)).
  rewrite <-Hb1 in *.
  destruct (disk_read (Io.set_seek (seek (conf st)) (conf st)) d1 (replicate (Z.to_nat (block_size (conf st))) 255)
    (block_size (conf st)) (seek (conf st))) as (d2 & r & -> & Hok2 & Hb2); try done; try lia.
  { apply Hat1; try done; lia. }
  eexists _, d2, _. split; [|by rewrite Hb2]. done.
Qed.

Lemma rio_session_laws : SessionLaws (Session0:=rio_session) (radare_st W) open_file.
Proof.
  split; try done.
  - intros a st []. by split.
  - intros st Ho Hf. destruct (radare_read_open st Ho Hf) as (r & d & b & E & Hok & Hd). eexists. split.
    { cbn [ses_read rio_session]. by rewrite (bind_Some _ _ _ _ _ E). }
    split; [|done]. destruct Ho. split; try done. cbn. by rewrite Hd.
Qed.
End rio.

(** ** Witnesses

    A file of 16 bytes with blocks of four, the seek at 2; [p] prints and [i] prints at 4. *)
Definition demo_file : radare_st malloc_st :=
  RadareSt (Config MALLOC_FD 2 16 0 0 4 []) true true (SectionsSt [] 0) [] 0
    (MallocSt MALLOC_FD (Some (replicate 16 0)) 16) [] true false None.
#[local] Instance demo_session : Session (radare_st malloc_st) := rio_session demo_table demo_os.
#[local] Instance demo_cmd_disk : Disk demo_table MALLOC_FD := malloc_disk demo_alloc demo_mem MALLOC_FD.
#[local] Instance demo_laws : SessionLaws (radare_st malloc_st) (open_file demo_table MALLOC_FD) :=
  rio_session_laws demo_table demo_os MALLOC_FD.
Notation demo_st := (cmd_st (radare_st malloc_st)).

Definition demo_program (cmds : list (ascii * (string -> StateM.M demo_st Z))) : Program (radare_st malloc_st) := {|
  get_math s _ := if String.eqb s "8" then 8 else 4;
  commands := cmds; unknown _ := ret (-1); cmd_macro _ := ret tt; radare_macro_call _ := ret None;
  cons_grep _ := ret tt; radare_nullcmd := ret tt; toggle_verbose := ret tt; reset_verbose := ret tt; refuse_write := ret tt;
  shell_command _ := ret 0; io_system _ _ := ret 0; io_open _ _ := ret 5; file_text _ := ret None;
  captured _ := ret (Some ""); flag_list _ := [] |}.
Definition print_cmd : ascii * (string -> StateM.M demo_st Z) := ("p"%char, fun _ => ret 0).
Definition prog1 : Program (radare_st malloc_st) := demo_program [print_cmd].
Definition prog2 : Program (radare_st malloc_st) :=
  demo_program [print_cmd; ("i"%char, fun _ => radare_cmd_raw (Program0:=prog1) 1 "p@4")].
Definition demo_cmd : demo_st := CmdSt demo_file NO_OFF 0 1 (-1) 0 0 0 true false.

Lemma demo_open : open_file demo_table MALLOC_FD demo_file.
Proof. split; try done. by split; [|split; [|eexists]]. Qed.

Lemma temporary_seek_restores_witness :
  exists st', radare_cmd_raw (Program0:=prog1) 1 "p@8" demo_cmd = Some (0, st') /\ ses_seek (ses st') = 2.
Proof.
  destruct (temporary_seek_restores (Program0:=prog1) (open_file demo_table MALLOC_FD) 0 "p" "8" 8 demo_cmd 8)
    as (st1 & _ & H); [exact demo_open|done|done|done|done|done|by split_and!|].
  destruct H as [_ H]. destruct (H 0 st1 eq_refl) as (st' & E & _ & _ & _ & Hs). exists st'. split; [exact E|by apply Hs].
Defined.

Lemma nested_seek_lost_witness :
  exists st', radare_cmd_raw (Program0:=prog2) 1 "i@8" demo_cmd = Some (0, st') /\ ses_seek (ses st') = 8.
Proof.
  apply (nested_seek_lost (Program0:=prog2) (open_file demo_table MALLOC_FD) 0 0 "i" "8" 8 "p" "4" 4 demo_cmd 8);
    [exact demo_open|done|done|done|done|done|by split_and!|done|done|done|done|done|by split_and!|done| |done].
  intros s. change (commands_parse (Program0:=prog2) "i" s) with (radare_cmd_raw (Program0:=prog1) 1 "p@4" s).
  pose proof (raw_line (Program0:=prog1) 0 "p" (Some "4") s eq_refl eq_refl eq_refl) as E1.
  pose proof (raw_line (Program0:=prog2) 0 "p" (Some "4") s eq_refl eq_refl eq_refl) as E2.
  exact (eq_trans E1 (eq_sym E2)).
Defined.

Lemma redirect_comes_back_witness :
  exists st', radare_cmd_raw (Program0:=prog1) 1 "p> f" demo_cmd = Some (0, st') /\ out st' = 1.
Proof.
  apply (redirect_comes_back (Program0:=prog1) 0 "p" " f" demo_cmd 5 (entered demo_cmd) 0 (with_out 5 1 (entered demo_cmd)));
    done.
Defined.

Lemma unmatched_accent_leaks_level_witness :
  exists st', radare_cmd_raw (Program0:=prog1) 1 "p`p" demo_cmd = Some (-1, st') /\ cmd_level st' = 1 /\
    ses st' = demo_file /\ out st' = 1.
Proof. by apply (unmatched_accent_leaks_level (Program0:=prog1) 0 "p" "p" demo_cmd). Defined.

Lemma cmd_sequence_witness :
  radare_cmd (Program0:=prog1) 2 "3p&& p" demo_cmd =
    (do _ <- radare_cmd (Program0:=prog1) 2 "3p" ;; radare_cmd (Program0:=prog1) 2 "p") demo_cmd.
Proof. by apply (cmd_sequence (Program0:=prog1) 2 "3p" " p" demo_cmd). Defined.
