(* ===== verification/Base64.v ===== *)
(** * Base64: [src/b64.c] and its two loops in [src/print.c]

    A byte is a [Z] below 256 and a block a list of bytes.  The blocks of the source are arrays of three
    and four characters; [None] is a read or a write outside the buffers of the callers. *)
From S2P Require Import Prelude.
#[local] Open Scope Z_scope.

(** ** The tables *)
Definition bytes_of (s : string) : list Z := ord <$> list_ascii_of_string s.
Definition cb64 : list Z := bytes_of "ABCDEFGHIJKLMNOPQRSTUVWXYZabcdefghijklmnopqrstuvwxyz0123456789+/"%string.
Definition cd64 : list Z :=
  bytes_of "|$$$}rstuvwxyz{$$$$$$$>?@ABCDEFGHIJKLMNOPQRSTUVW$$$$$$XYZ[\]^_`abcdefghijklmnopq"%string.

Definition char_of (v : Z) : Z := nth (Z.to_nat v) cb64 0.
Definition code_of (c : Z) : Z := nth (Z.to_nat (c - 43)) cd64 0.

(** ** One block *)

(** [in[1]] is read for every length, [in[2]] from two bytes on. *)
Definition base64_encodeblock (i0 i1 i2 len : Z) : list Z :=
  [ char_of (Z.shiftr i0 2);
    char_of (Z.lor (Z.shiftl (Z.land i0 0x03) 4) (Z.shiftr (Z.land i1 0xf0) 4));
    if 1 <? len then char_of (Z.lor (Z.shiftl (Z.land i1 0x0f) 2) (Z.shiftr (Z.land i2 0xc0) 6)) else 61;
    if 2 <? len then char_of (Z.land i2 0x3f) else 61 ].

(** The loop over the four characters, [n] of them left: [v] is the array on the stack, which starts with
    whatever was there.  A character outside the table ends the call, padding ends the loop. *)
Inductive decoded := Invalid | Outside | Decoded (v : list Z) (len : Z).
Fixpoint decode_loop (n i : nat) (ins v : list Z) : decoded :=
  match n, ins with
  | O, _ => Decoded v 3
  | S _, [] => Outside
  | S n', c :: ins' =>
    if (c <? 43) || (122 <? c) then Invalid
    else
      let x := code_of c in
      if negb (x =? 36) then decode_loop n' (S i) ins' (<[i := u8 (x - 62)]> v)
      else Decoded (<[i := x]> v) (u8 (Z.of_nat i - 1))
  end.

Definition three_bytes (v : list Z) : list Z :=
  let v0 := nth 0 v 0 in let v1 := nth 1 v 0 in let v2 := nth 2 v 0 in let v3 := nth 3 v 0 in
  [ u8 (Z.lor (Z.shiftl v0 2) (Z.shiftr v1 4));
    u8 (Z.lor (Z.shiftl v1 4) (Z.shiftr v2 2));
    u8 (Z.lor (Z.land (Z.shiftl v2 6) 0xc0) v3) ].

(** -1, or the length with the three bytes written. *)
Definition base64_decodeblock (stack ins : list Z) : option (Z * option (list Z)) :=
  match decode_loop 4 0 ins stack with
  | Invalid => Some (-1, None)
  | Outside => None
  | Decoded v len => Some (len, Some (three_bytes v))
  end.

(** ** The loops of [print_data]

    [out] is the fresh buffer of [len*2] zeros, filled from its start; the text printed ends at the first
    zero, and [None] is a buffer without one or a write behind its end. *)
Fixpoint c_string (out : list Z) : option (list Z) :=
  match out with
  | [] => None
  | b :: out' => if b =? 0 then Some [] else cons b <$> c_string out'
  end.
Definition write_at (o : nat) (bs out : list Z) : option (list Z) :=
  if (o + length bs <=? length out)%nat then Some (take o out ++ bs ++ drop (o + length bs) out)%list else None.

(** [FMT_BASE64].  The block has [buf] behind it; [junk] is the array on the stack of each call. *)
Fixpoint decode_blocks (fuel : nat) (junk : nat -> list Z) (buf : list Z) (len i o : nat) (out : list Z)
    : option (list Z) :=
  match fuel with
  | O => None
  | S fuel' =>
    if (i <? len)%nat then
      match base64_decodeblock (junk i) (drop i buf) with
      | None => None
      | Some (_, None) => Some out
      | Some (_, Some bs) =>
        match write_at o bs out with
        | None => None
        | Some out => decode_blocks fuel' junk buf len (i + 4) (o + 3) out
        end
      end
    else Some out
  end.
Definition print_base64 (junk : nat -> list Z) (buf : list Z) (len : nat) : option (list Z) :=
  match decode_blocks (S len) junk buf len 0 0 (replicate (2 * len) 0) with
  | Some out => c_string out
  | None => None
  end.

(** [FMT_EBASE64].  [base64_encodeblock] returns nothing, but the caller tests an [int]: [eax] is what
    the register holds after each call. *)
Fixpoint encode_blocks (fuel : nat) (eax : nat -> Z) (buf : list Z) (len i o : nat) (out : list Z)
    : option (list Z) :=
  match fuel with
  | O => None
  | S fuel' =>
    if (i <? len)%nat then
      match buf !! i, buf !! (i + 1)%nat with
      | Some i0, Some i1 =>
        match (if (1 <? len - i)%nat then buf !! (i + 2)%nat else Some 0) with
        | None => None
        | Some i2 =>
          match write_at o (base64_encodeblock i0 i1 i2 (Z.of_nat (len - i))) out with
          | None => None
          | Some out => if eax i <? 0 then Some out else encode_blocks fuel' eax buf len (i + 3) (o + 4) out
          end
        end
      | _, _ => None
      end
    else Some out
  end.
Definition print_ebase64 (eax : nat -> Z) (buf : list Z) (len : nat) : option (list Z) :=
  match encode_blocks (S len) eax buf len 0 0 (replicate (2 * len) 0) with
  | Some out => c_string out
  | None => None
  end.

(** "hello world" as the disabled test of the file has it. *)
Example print_ebase64_hello :
  print_ebase64 (fun _ => 0) (bytes_of "hello world" ++ [0; 0])%list 12 = Some (bytes_of "aGVsbG8gd29ybGQA"%string).
Proof. vm_compute. done. Qed.
Example print_base64_hello :
  print_base64 (fun _ => [0; 0; 0; 0]) (bytes_of "aGVsbG8gd29ybGQA"%string) 16 = Some (bytes_of "hello world"%string).
Proof. vm_compute. done. Qed.

(** ** The characters of the alphabet *)
Lemma code_char v :
  0 <= v < 64 ->
  43 <= char_of v <= 122 /\ code_of (char_of v) = v + 62 /\ char_of v <> 0.
Proof.
  intros Hv. pose proof (forallb_below (fun v => (43 <=? char_of v) && (char_of v <=? 122) &&
    (code_of (char_of v) =? v + 62) && negb (char_of v =? 0)) 64 eq_refl v Hv) as H. cbv beta in H.
  rewrite !andb_true_iff, !Z.leb_le, negb_true_iff, Z.eqb_eq, Z.eqb_neq in H. tauto.
Qed.

(** Six bits fill a place of the array. *)
Lemma decode_loop_code n i v ins stack :
  0 <= v < 64 ->
  decode_loop (S n) i (char_of v :: ins) stack = decode_loop n (S i) ins (<[i := v]> stack).
Proof.
  intros Hv. destruct (code_char v Hv) as (H1 & H2 & _). cbn [decode_loop].
  replace ((char_of v <? 43) || (122 <? char_of v)) with false by lia. rewrite H2.
  replace (v + 62 =? 36) with false by lia. cbn [negb]. do 2 f_equal. unfold u8. rewrite Z.mod_small; lia.
Qed.

Lemma decode_loop_pad n i ins stack :
  decode_loop (S n) i (61 :: ins) stack = Decoded (<[i := 36]> stack) (u8 (Z.of_nat i - 1)).
Proof. done. Qed.

(** ** Bits *)
#[local] Ltac Zify.zify_post_hook ::= Z.div_mod_to_equations.
Lemma first_code a : is_u8 a -> Z.shiftr a 2 = a / 4.
Proof. intros. by rewrite Z.shiftr_div_pow2. Qed.

(** Two fields of neighbouring bytes. *)
Lemma split_code a b :
  is_u8 a -> is_u8 b ->
  Z.lor (Z.shiftl (Z.land a 0x03) 4) (Z.shiftr (Z.land b 0xf0) 4) = a mod 4 * 16 + b / 16 /\
  Z.lor (Z.shiftl (Z.land a 0x0f) 2) (Z.shiftr (Z.land b 0xc0) 6) = a mod 16 * 4 + b / 64.
Proof.
  intros Ha Hb.
  assert (H : forall z, is_u8 z ->
    (Z.land z 3 =? z mod 4) && (Z.land z 15 =? z mod 16) &&
    (Z.shiftr (Z.land z 0xf0) 4 =? z / 16) && (Z.shiftr (Z.land z 0xc0) 6 =? z / 64) = true)
    by (intros z Hz; exact (forallb_below (fun z => (Z.land z 3 =? z mod 4) && (Z.land z 15 =? z mod 16) &&
        (Z.shiftr (Z.land z 0xf0) 4 =? z / 16) && (Z.shiftr (Z.land z 0xc0) 6 =? z / 64)) 256 eq_refl z Hz)).
  pose proof (H a Ha) as Ea. pose proof (H b Hb) as Eb. clear H.
  rewrite !andb_true_iff, !Z.eqb_eq in Ea, Eb. destruct Ea as [[[Ea1 Ea2] _] _], Eb as [[_ Eb1] Eb2].
  unfold is_u8 in *.
  split.
  - rewrite Ea1, Eb1, Z.shiftl_mul_pow2 by lia. apply (lor_add 4); lia.
  - rewrite Ea2, Eb2, Z.shiftl_mul_pow2 by lia. apply (lor_add 2); lia.
Qed.

Lemma last_code a : is_u8 a -> Z.land a 0x3f = a mod 64.
Proof. intros. by apply (land_mask 6). Qed.

(** The four places of the array hold the six-bit groups of the bytes. *)
Lemma three_bytes_spec a b c p3 p4 :
  is_u8 a -> is_u8 b -> is_u8 c -> 0 <= p3 < 64 -> 0 <= p4 < 64 ->
  exists x y, three_bytes [a / 4; a mod 4 * 16 + b / 16; p3; p4] = [a; x; y] /\
    (p3 = b mod 16 * 4 + c / 64 -> x = b /\ (p4 = c mod 64 -> y = c)).
Proof.
  unfold is_u8. intros Ha Hb Hc H3 H4. eexists _, _. split.
  - unfold three_bytes. cbn [nth]. f_equal.
    rewrite Z.shiftl_mul_pow2, Z.shiftr_div_pow2 by lia. change (2^4) with 16. rewrite lor_add by lia.
    change (2^2) with 4. unfold u8. lia.
  - intros ->. split.
    + rewrite Z.shiftl_mul_pow2, Z.shiftr_div_pow2 by lia. change (2^2) with 4. rewrite lor_add by lia.
      change (2^4) with 16. unfold u8. lia.
    + intros ->. change 0xc0 with (Z.shiftl 3 6). rewrite <-Z.shiftl_land, (land_mask 2) by lia.
      rewrite Z.shiftl_mul_pow2, lor_add by lia. change (2^6) with 64. change (2^2) with 4. unfold u8. lia.
Qed.

(** ** Texts that spell bytes

    The blocks of a text decode to the bytes; only the last one may carry fewer than three, and then the
    places behind them hold something else. *)
Definition block_spells (q bs : list Z) : Prop :=
  forall stack rest, length stack = 4%nat ->
    exists n e, base64_decodeblock stack (q ++ rest) = Some (n, Some (bs ++ e)) /\
      length (bs ++ e) = 3%nat /\ n = Z.of_nat (length bs).

Inductive spells : list Z -> list Z -> Prop :=
| spells_nil : spells [] []
| spells_last q bs : length q = 4%nat -> (0 < length bs < 3)%nat -> block_spells q bs -> spells q bs
| spells_cons q bs t bs' :
    length q = 4%nat -> length bs = 3%nat -> block_spells q bs -> spells t bs' -> spells (q ++ t) (bs ++ bs').

(** A block of any length spells its first bytes. *)
Lemma block_roundtrip a b c len :
  is_u8 a -> is_u8 b -> is_u8 c -> 0 < len ->
  block_spells (base64_encodeblock a b c len) (take (Z.to_nat (len `min` 3)) [a; b; c]) /\
  Forall (fun x => x <> 0) (base64_encodeblock a b c len).
Proof.
  intros Ha Hb Hc Hlen. unfold base64_encodeblock. rewrite first_code by done.
  rewrite (proj1 (split_code a b Ha Hb)), (proj2 (split_code b c Hb Hc)), last_code by done.
  unfold is_u8 in *.
  assert (H1 : 0 <= a / 4 < 64) by lia. assert (H2 : 0 <= a mod 4 * 16 + b / 16 < 64) by lia.
  assert (H3 : 0 <= b mod 16 * 4 + c / 64 < 64) by lia. assert (H4 : 0 <= c mod 64 < 64) by lia.
  destruct (code_char _ H1) as (_ & _ & N1), (code_char _ H2) as (_ & _ & N2),
    (code_char _ H3) as (_ & _ & N3), (code_char _ H4) as (_ & _ & N4).
  split; [|destruct (1 <? len), (2 <? len); by repeat constructor].
  intros [|s0 [|s1 [|s2 [|s3 [|]]]]] rest; try done. intros _.
  destruct (Z.ltb_spec 1 len); [destruct (Z.ltb_spec 2 len)|replace (2 <? len) with false by lia];
    cbn [app]; unfold base64_decodeblock; rewrite !decode_loop_code, ?decode_loop_pad by done;
    cbn [decode_loop insert list_insert].
  - replace (Z.to_nat _) with 3%nat by lia.
    destruct (three_bytes_spec a b c (b mod 16 * 4 + c / 64) (c mod 64)) as (x & y & -> & Hxy); [done..|].
    destruct (Hxy eq_refl) as [-> Hy]. rewrite (Hy eq_refl). by exists 3, [].
  - replace (Z.to_nat _) with 2%nat by lia.
    destruct (three_bytes_spec a b c (b mod 16 * 4 + c / 64) 36) as (x & y & -> & Hxy); [done..|].
    destruct (Hxy eq_refl) as [-> _]. by exists 2, [y].
  - replace (Z.to_nat _) with 1%nat by lia. unfold three_bytes. cbn [nth].
    destruct (three_bytes_spec a b c 36 0) as (x & y & E & _); [done..|].
    unfold three_bytes in E. cbn [nth] in E. injection E as E _ _. rewrite E. eexists 1, [_; _]. done.
Qed.

(** The 24 bits of three bytes are the ones of the four groups. *)
Lemma groups_value a b c : is_u8 a -> is_u8 b -> is_u8 c ->
  ((a / 4 * 64 + (a mod 4 * 16 + b / 16)) * 64 + (b mod 16 * 4 + c / 64)) * 64 + c mod 64 = (a * 256 + b) * 256 + c.
Proof. unfold is_u8. lia. Qed.

(** C30: The block encoder and the block decoder are inverse to each other: whatever lies behind the block and on the stack,
    the four characters made of one, two, three or more bytes that are left are decoded to the number of bytes, three at
    most, and to these bytes.  Three bytes are spelt by the four characters of the alphabet at the places that are the
    digits of the 24-bit number to the base 64; for fewer bytes the characters behind are equal signs. *)
Theorem base64_block_roundtrip a b c len stack rest :
  is_u8 a -> is_u8 b -> is_u8 c -> 0 < len -> length stack = 4%nat ->
  let q := base64_encodeblock a b c len in let n := Z.to_nat (len `min` 3) in
  length q = 4%nat /\
  (3 <= len -> exists v0 v1 v2 v3, Forall (fun v => 0 <= v < 64) [v0; v1; v2; v3] /\
    ((v0 * 64 + v1) * 64 + v2) * 64 + v3 = (a * 256 + b) * 256 + c /\
    Some <$> q = (fun v => cb64 !! Z.to_nat v) <$> [v0; v1; v2; v3]) /\
  drop (S n) q = replicate (3 - n) 61 /\
  exists out, base64_decodeblock stack (q ++ rest) = Some (Z.of_nat n, Some out) /\ length out = 3%nat /\
    take n out = take n [a; b; c].
Proof.
  intros Ha Hb Hc Hlen Hs q n. split; [done|]. split; [|split].
  - intros H3. unfold q, base64_encodeblock. rewrite first_code by done.
    rewrite (proj1 (split_code a b Ha Hb)), (proj2 (split_code b c Hb Hc)), last_code by done.
    replace (1 <? len) with true by lia. replace (2 <? len) with true by lia.
    exists (a / 4), (a mod 4 * 16 + b / 16), (b mod 16 * 4 + c / 64), (c mod 64). split; [|split; [by apply groups_value|]].
    + unfold is_u8 in *. repeat constructor; lia.
    + assert (Hch : forall v, 0 <= v < 64 -> Some (char_of v) = cb64 !! Z.to_nat v).
      { intros v Hv. unfold char_of. destruct (nth_lookup_or_length cb64 (Z.to_nat v) 0) as [->|]; [done|]. cbn in *. lia. }
      unfold is_u8 in *. cbn [fmap list_fmap]. rewrite <-!Hch by lia. done.
  - unfold q, n, base64_encodeblock. destruct (Z.ltb_spec 1 len), (Z.ltb_spec 2 len); try lia.
    + by replace (Z.to_nat _) with 3%nat by lia.
    + by replace (Z.to_nat _) with 2%nat by lia.
    + by replace (Z.to_nat _) with 1%nat by lia.
  - destruct (proj1 (block_roundtrip a b c len Ha Hb Hc Hlen) stack rest Hs) as (m & e & E & He & Hm). fold q n in E, He, Hm.
    exists (take n [a; b; c] ++ e). rewrite Hm, length_take in E. cbn [length] in E. replace (n `min` 3)%nat with n in E by lia.
    split_and!; [done|done|]. rewrite take_app_le, take_take by (rewrite length_take; cbn; lia). f_equal. lia.
Qed.

Lemma base64_block_roundtrip_witness :
  let q := base64_encodeblock 104 105 33 2 in
  q = bytes_of "aGk=" /\ exists out, base64_decodeblock [1; 2; 3; 4] (q ++ [7]) = Some (2, Some out) /\ take 2 out = [104; 105].
Proof.
  split; [reflexivity|].
  destruct (base64_block_roundtrip 104 105 33 2 [1; 2; 3; 4] [7]) as (_ & _ & _ & out & E & _ & T); try (unfold is_u8; lia); [reflexivity|].
  exists out. split; [exact E|exact T].
Defined.

(** *** Writing into the buffer *)
Lemma write_at_app pre mid post bs :
  length bs = length mid -> write_at (length pre) bs (pre ++ mid ++ post) = Some (pre ++ bs ++ post).
Proof.
  intros H. unfold write_at. rewrite !length_app, H.
  replace (_ <=? _)%nat with true by (symmetry; apply Nat.leb_le; lia).
  rewrite take_app_length. do 3 f_equal. rewrite app_assoc. apply drop_app_length'. by rewrite length_app.
Qed.

Lemma split_out o n (out : list Z) :
  (o + n <= length out)%nat ->
  exists pre mid post, out = pre ++ mid ++ post /\ length pre = o /\ length mid = n.
Proof.
  intros H. exists (take o out), (take n (drop o out)), (drop n (drop o out)).
  rewrite !take_drop, !length_take, length_drop. split_and!; [done|lia..].
Qed.

(** ** Encoding *)

(** The number of characters for [n] bytes. *)
Definition enc_len (n : nat) : nat := 4 * ((n + 2) / 3).

Lemma enc_len_step n : (3 < n)%nat -> enc_len n = (4 + enc_len (n - 3))%nat.
Proof. unfold enc_len. intros. replace (n + 2)%nat with (n - 3 + 2 + 1 * 3)%nat by lia. rewrite Nat.div_add by lia. lia. Qed.
Lemma enc_len_last n : (0 < n <= 3)%nat -> enc_len n = 4%nat.
Proof. unfold enc_len. intros. destruct n as [|[|[|[|]]]]; (lia || done). Qed.

Lemma drop_lookup {A} (l : list A) i x : l !! i = Some x -> drop i l = x :: drop (S i) l.
Proof. apply drop_S. Qed.

(** The bytes a turn reads are there when one byte lies behind the text. *)
Lemma turn_reads buf len i :
  Forall is_u8 buf -> (i < len)%nat -> (len + 2 <= length buf)%nat ->
  exists a b c, buf !! i = Some a /\ buf !! (i + 1)%nat = Some b /\ buf !! (i + 2)%nat = Some c /\
    is_u8 a /\ is_u8 b /\ is_u8 c /\ drop i buf = a :: b :: c :: drop (i + 3) buf.
Proof.
  intros Hb Hi Hl.
  destruct (lookup_lt_is_Some_2 buf i) as [a Ha]; [lia|].
  destruct (lookup_lt_is_Some_2 buf (i + 1)) as [b Eb]; [lia|].
  destruct (lookup_lt_is_Some_2 buf (i + 2)) as [c Ec]; [lia|].
  rewrite Forall_lookup in Hb. exists a, b, c.
  split_and!; eauto.
  replace (i + 1)%nat with (S i) in Eb by lia. replace (i + 2)%nat with (S (S i)) in Ec by lia.
  replace (i + 3)%nat with (S (S (S i))) by lia. by rewrite (drop_S _ _ _ Ha), (drop_S _ _ _ Eb), (drop_S _ _ _ Ec).
Qed.

(** A turn of the loop when the bytes are there and the register is not negative. *)
Lemma encode_turn fuel eax buf len i a b c pre mid post :
  0 <= eax i -> (i < len)%nat ->
  buf !! i = Some a -> buf !! (i + 1)%nat = Some b -> buf !! (i + 2)%nat = Some c -> length mid = 4%nat ->
  let c' := if (1 <? len - i)%nat then c else 0 in
  let q := base64_encodeblock a b c' (Z.of_nat (len - i)) in
  encode_blocks (S fuel) eax buf len i (length pre) (pre ++ mid ++ post) =
    encode_blocks fuel eax buf len (i + 3) (length (pre ++ q)) ((pre ++ q) ++ post).
Proof.
  intros He Hi Ha Hb Hc Hm. cbv zeta. cbn [encode_blocks]. rewrite Ha, Hb.
  replace (i <? len)%nat with true by (symmetry; by apply Nat.ltb_lt).
  replace (if (1 <? len - i)%nat then buf !! (i + 2)%nat else Some 0)
    with (Some (if (1 <? len - i)%nat then c else 0)) by (by destruct (1 <? len - i)%nat).
  cbv match. rewrite write_at_app by (by rewrite Hm). replace (eax i <? 0) with false by lia.
  rewrite length_app, <-app_assoc. do 2 f_equal.
Qed.

Lemma encode_blocks_spec eax buf len :
  (forall i, 0 <= eax i) -> Forall is_u8 buf -> (len + 2 <= length buf)%nat ->
  forall fuel i pre mid post, (i <= len)%nat -> (len - i < fuel)%nat -> length mid = enc_len (len - i) ->
  exists t, encode_blocks fuel eax buf len i (length pre) (pre ++ mid ++ post) = Some (pre ++ t ++ post) /\
    spells t (take (len - i) (drop i buf)) /\ length t = enc_len (len - i) /\ Forall (fun x => x <> 0) t.
Proof.
  intros He Hbuf Hlen. induction fuel as [|fuel IH]; intros i pre mid post Hi Hf Hm; [lia|].
  destruct (decide (i = len)) as [->|Hne].
  { rewrite Nat.sub_diag in *. destruct mid; [|done]. exists []. cbn [encode_blocks]. rewrite Nat.ltb_irrefl.
    split_and!; [done|rewrite take_0; constructor|done|constructor]. }
  destruct (turn_reads buf len i) as (a & b & c & Ea & Eb & Ec & Ha & Hb & Hc & Hd); [done|lia..|].
  set (c' := if (1 <? len - i)%nat then c else 0). set (q := base64_encodeblock a b c' (Z.of_nat (len - i))).
  assert (Hc' : is_u8 c') by (unfold c'; by destruct (1 <? len - i)%nat).
  destruct (block_roundtrip a b c' (Z.of_nat (len - i))) as [Hq Hn]; [done..|lia|]. fold q in Hq, Hn.
  destruct (decide (len - i <= 3)%nat) as [Hl|Hl].
  - rewrite enc_len_last in * by lia. rewrite (encode_turn fuel eax buf len i a b c) by (done || lia).
    fold c' q. exists q. destruct fuel as [|fuel]; [lia|]. cbn [encode_blocks].
    replace (i + 3 <? len)%nat with false by (symmetry; apply Nat.ltb_ge; lia). rewrite <-app_assoc.
    replace (Z.to_nat _) with (len - i)%nat in Hq by lia.
    assert (Hbs : take (len - i) (drop i buf) = take (len - i) [a; b; c']).
    { assert (H0 : (0 < len - i)%nat) by lia. revert H0 Hl. rewrite Hd. unfold c'.
      destruct (len - i)%nat as [|[|[|[|?]]]]; intros; (done || lia). }
    rewrite Hbs. split_and!; [done| |done|done].
    destruct (decide (len - i = 3)%nat) as [E3|].
    + rewrite <-(app_nil_r q), <-(app_nil_r (take _ _)). apply spells_cons; [done|by rewrite E3|done|constructor].
    + apply spells_last; [done|rewrite length_take; simpl; lia|done].
  - rewrite enc_len_step in Hm by lia.
    destruct (split_out 0 4 mid) as ([|] & m1 & m2 & -> & Hz & H1); [lia| |done].
    rewrite !length_app, H1 in Hm. cbn [app length] in *. rewrite <-app_assoc.
    rewrite (encode_turn fuel eax buf len i a b c) by (done || lia). fold c' q.
    destruct (IH (i + 3)%nat (pre ++ q) m2 post) as (t & -> & Hs & Ht & Hz'); [lia..| |].
    { replace (len - (i + 3))%nat with (len - i - 3)%nat by lia. lia. }
    replace (len - (i + 3))%nat with (len - i - 3)%nat in * by lia.
    exists (q ++ t). rewrite <-!app_assoc. split_and!; [done| |rewrite length_app, enc_len_step, Ht by lia; done|].
    + replace (take (len - i) (drop i buf)) with (take 3 [a; b; c'] ++ take (len - i - 3) (drop (i + 3) buf)).
      { apply spells_cons; [done|done| |done]. by replace (Z.to_nat _) with 3%nat in Hq by lia. }
      rewrite Hd. unfold c'. replace (1 <? len - i)%nat with true by (symmetry; apply Nat.ltb_lt; lia).
      by replace (len - i)%nat with (3 + (len - i - 3))%nat at 2 by lia.
    + by apply Forall_app.
Qed.

(** ** Decoding *)
Lemma decode_turn fuel junk buf rest len i q bs pre mid post :
  (i < len)%nat -> length (junk i) = 4%nat -> block_spells q bs -> drop i buf = q ++ rest -> length mid = 3%nat ->
  exists e, length (bs ++ e) = 3%nat /\
    decode_blocks (S fuel) junk buf len i (length pre) (pre ++ mid ++ post) =
      decode_blocks fuel junk buf len (i + 4) (length (pre ++ bs ++ e)) ((pre ++ bs ++ e) ++ post).
Proof.
  intros Hi Hj Hq Hd Hm. destruct (Hq (junk i) rest Hj) as (n & e & Hdec & He & _). exists e. split; [done|].
  cbn [decode_blocks]. replace (i <? len)%nat with true by (symmetry; by apply Nat.ltb_lt).
  rewrite Hd, Hdec, write_at_app by (by rewrite He).
  by rewrite length_app, He, <-!app_assoc.
Qed.

Lemma decode_blocks_spec junk t bs :
  (forall i, length (junk i) = 4%nat) -> spells t bs ->
  forall fuel buf rest len i pre mid post, drop i buf = t ++ rest -> len = (i + length t)%nat ->
  (length t < fuel)%nat -> (4 * length mid = 3 * length t)%nat ->
  exists e, decode_blocks fuel junk buf len i (length pre) (pre ++ mid ++ post) = Some (pre ++ (bs ++ e) ++ post) /\
    ((length bs `mod` 3)%nat = 0%nat -> e = []).
Proof.
  intros Hj. induction 1 as [|q bs Hq Hbs Hb|q bs t bs' Hq Hbs Hb Hs IH];
    intros fuel buf rest len i pre mid post Hd -> Hf Hm; cbn [length] in *.
  - destruct mid; [|simpl in Hm; lia]. destruct fuel; [lia|]. exists []. cbn [decode_blocks].
    replace (i <? i + 0)%nat with false by (symmetry; apply Nat.ltb_ge; lia). done.
  - destruct fuel as [|fuel]; [lia|].
    destruct (decode_turn fuel junk buf rest (i + length q) i q bs pre mid post) as (e & He & ->);
      [lia|done..|lia|].
    exists e. destruct fuel as [|fuel]; [lia|]. cbn [decode_blocks].
    replace (i + 4 <? i + length q)%nat with false by (symmetry; apply Nat.ltb_ge; lia).
    rewrite <-!app_assoc. split; [done|]. rewrite Nat.mod_small by lia. lia.
  - rewrite !length_app in *. destruct fuel as [|fuel]; [lia|].
    destruct (split_out 0 3 mid) as ([|] & m1 & m2 & -> & Hz & H1); [lia| |done]. cbn [app length] in *.
    rewrite length_app in Hm. rewrite <-app_assoc in Hd. rewrite <-(app_assoc m1 m2 post).
    destruct (decode_turn fuel junk buf (t ++ rest) (i + (length q + length t)) i q bs pre m1 (m2 ++ post))
      as (e & He & E); [lia|done..|].
    rewrite length_app in He. destruct e; [|simpl in He; lia]. rewrite app_nil_r in E. rewrite E.
    destruct (IH fuel buf rest (i + (length q + length t))%nat (i + 4)%nat (pre ++ bs) m2 post) as (e' & -> & He');
      [|lia..|].
    { by rewrite <-drop_drop, Hd, <-Hq, drop_app_length. }
    exists e'. rewrite <-!app_assoc. split; [done|]. intros Hz'. apply He'.
    rewrite <-(Nat.Div0.mod_add _ 1). by replace (length bs' + 1 * 3)%nat with (length bs + length bs')%nat by lia.
Qed.

(** ** The texts printed *)
Lemma c_string_app bs out : Forall (fun x => x <> 0) bs -> c_string (bs ++ out) = (app bs) <$> c_string out.
Proof.
  induction 1 as [|b bs Hb _ IH]; cbn [app c_string]; [by destruct (c_string out)|].
  replace (b =? 0) with false by lia. rewrite IH. by destruct (c_string out).
Qed.

Lemma c_string_zero out n : (0 < n)%nat -> exists e, c_string (out ++ replicate n 0) = Some e.
Proof.
  intros Hn. destruct n as [|n]; [lia|]. induction out as [|b out [e IH]]; [by eexists|]. cbn [app c_string].
  destruct (b =? 0); [by eexists|]. rewrite IH. by eexists.
Qed.

(** What the loop leaves in the buffer when the characters fit. *)
Lemma ebase64_text eax buf len :
  (forall i, 0 <= eax i) -> Forall is_u8 buf -> (len + 2 <= length buf)%nat -> (enc_len len <= 2 * len)%nat ->
  exists t, encode_blocks (S len) eax buf len 0 0 (replicate (2 * len) 0) =
      Some (t ++ replicate (2 * len - enc_len len) 0) /\
    spells t (take len buf) /\ length t = enc_len len /\ Forall (fun x => x <> 0) t.
Proof.
  intros He Hb Hl Hr.
  destruct (encode_blocks_spec eax buf len He Hb Hl (S len) 0 [] (replicate (enc_len len) 0)
    (replicate (2 * len - enc_len len) 0)) as (t & E & Hs & Ht & Hz); [lia..| |].
  { by rewrite length_replicate, Nat.sub_0_r. }
  rewrite Nat.sub_0_r in *. rewrite drop_0 in Hs. exists t. split_and!; [|done..].
  cbn [app length] in E. rewrite <-E, <-replicate_add. do 2 f_equal. lia.
Qed.

Lemma enc_len_fits len : (len = 3 \/ 5 <= len)%nat -> (enc_len len < 2 * len)%nat.
Proof.
  unfold enc_len. intros H. pose proof (Nat.Div0.div_mod (len + 2) 3).
  pose proof (Nat.mod_upper_bound (len + 2) 3). lia.
Qed.

(** Printing a block as base64 and printing that text as base64 again gives the block back, whatever
    lies on the stack, when the text of the block has room in the buffer; the block ends in zero or more
    extra characters only when its length is no multiple of three. *)
Theorem base64_roundtrip eax junk buf rest len :
  (forall i, 0 <= eax i) -> (forall i, length (junk i) = 4%nat) ->
  Forall is_u8 buf -> (len + 2 <= length buf)%nat -> Forall (fun x => x <> 0) (take len buf) ->
  (len = 3 \/ 5 <= len)%nat ->
  exists t, print_ebase64 eax buf len = Some t /\ length t = enc_len len /\
    exists e, print_base64 junk (t ++ rest) (length t) = Some (take len buf ++ e) /\
      ((len `mod` 3)%nat = 0%nat -> e = []).
Proof.
  intros He Hj Hb Hl Hn Hr. pose proof (enc_len_fits len Hr) as Hfit.
  destruct (ebase64_text eax buf len He Hb Hl) as (t & E & Hs & Ht & Hz); [lia|].
  exists t. unfold print_ebase64. rewrite E, c_string_app by done.
  split_and!; [|done|].
  { destruct (2 * len - enc_len len)%nat eqn:Ed; [lia|]. cbn. by rewrite app_nil_r. }
  set (k := ((len + 2) / 3)%nat). assert (Hk : length t = (4 * k)%nat) by done.
  assert (Hk0 : (0 < k)%nat) by (apply Nat.div_str_pos; lia). clearbody k.
  destruct (decode_blocks_spec junk t _ Hj Hs (S (length t)) (t ++ rest) rest (length t) 0 []
    (replicate (3 * k) 0) (replicate (2 * length t - 3 * k) 0)) as (e & Ed & He0);
    [done|done|lia|rewrite length_replicate; lia|].
  cbn [app length] in Ed. rewrite <-replicate_add in Ed.
  replace (3 * k + (2 * length t - 3 * k))%nat with (2 * length t)%nat in Ed by lia.
  unfold print_base64. rewrite Ed, <-app_assoc, c_string_app by done.
  rewrite length_take, Nat.min_l in He0 by lia.
  destruct (c_string_zero e (2 * length t - 3 * k)) as [e' Ee]; [lia|]. rewrite Ee. exists e'.
  split; [done|]. intros Hm. rewrite (He0 Hm) in Ee.
  destruct (2 * length t - 3 * k)%nat; [done|]. by injection Ee as <-.
Qed.

Lemma base64_roundtrip_witness :
  let buf := bytes_of "radare!!" in
  exists t, print_ebase64 (fun _ => 0) buf 6 = Some t /\ length t = 8%nat /\
    exists e, print_base64 (fun _ => [1; 2; 3; 4]) (t ++ [9; 9]) (length t) = Some (take 6 buf ++ e) /\
      ((6 `mod` 3)%nat = 0%nat -> e = []).
Proof.
  apply (base64_roundtrip (fun _ => 0) (fun _ => [1; 2; 3; 4]) (bytes_of "radare!!") [9; 9] 6);
    [done|done| |cbn; lia| |lia].
  - apply (bool_decide_unpack _). by vm_compute.
  - apply (bool_decide_unpack _). by vm_compute.
Defined.

(** With the bytes at hand and a register that is not negative, the encoder stays in its buffer and
    leaves a text that ends in it exactly for three bytes and for five or more. *)
Theorem ebase64_bounds eax buf len :
  (forall i, 0 <= eax i) -> Forall is_u8 buf -> (len + 2 <= length buf)%nat ->
  print_ebase64 eax buf len = None <-> (len < 3 \/ len = 4)%nat.
Proof.
  intros He Hb Hl. destruct (decide (len = 3 \/ 5 <= len)%nat) as [Hr|Hr].
  - split; [|lia]. pose proof (enc_len_fits len Hr) as Hfit.
    destruct (ebase64_text eax buf len He Hb Hl) as (t & E & _ & _ & Hz); [lia|].
    unfold print_ebase64. rewrite E. destruct (c_string_zero t (2 * len - enc_len len)) as [e ->]; [lia|done].
  - split; [lia|]. intros _. destruct (decide (len = 1)%nat) as [->|].
    + unfold print_ebase64. cbn [encode_blocks]. destruct (buf !! 0%nat), (buf !! (0 + 1)%nat); done.
    + destruct (ebase64_text eax buf len He Hb Hl) as (t & E & _ & _ & Hz).
      { destruct len as [|[|[|[|[|]]]]]; (done || lia || (cbn; lia)). }
      unfold print_ebase64. rewrite E, c_string_app by done.
      destruct len as [|[|[|[|[|]]]]]; done || lia.
Qed.

Lemma ebase64_bounds_witness :
  print_ebase64 (fun _ => 0) [97; 98; 99; 100; 0; 0] 4 = None <-> (4 < 3 \/ 4 = 4)%nat.
Proof.
  apply ebase64_bounds; [done| |cbn; lia]. apply (bool_decide_unpack _). by vm_compute.
Defined.

(** What the decoder does with padding: the caller prints all three bytes, so that characters the text does
    not hold appear; and padding at the front of a block is reported as 255 bytes. *)
Example padding_is_printed junk :
  (forall i, length (junk i) = 4%nat) ->
  print_base64 junk (bytes_of "aGVsbG8=") 8 = Some (bytes_of "hello$").
Proof.
  intros Hj. unfold print_base64. cbn -[base64_decodeblock]. pose proof (Hj 0%nat) as H0. pose proof (Hj 4%nat) as H4.
  destruct (junk 0%nat) as [|? [|? [|? [|? [|]]]]]; try done.
  destruct (junk 4%nat) as [|? [|? [|? [|? [|]]]]]; try done.
Qed.
Example padding_in_front stack rest :
  exists out, base64_decodeblock stack (61 :: rest) = Some (255, Some out).
Proof. by eexists. Qed.
