(* ===== verification/Bytediff.v ===== *)
(** * Byte differences of two files: [src/radiff/bytediff.c]

    A file is the list of its bytes, a descriptor an offset into it.  A read fills the front of the array
    it is given and leaves the rest as it was, so that what a short read leaves behind is compared too.
    What is printed is a list of lines; [radare_fmt] selects the commands that turn the first file into
    the second. *)
From S2P Require Import Prelude Utils.

Definition CTXMAXB : Z := 3.
Definition BS : Z := 4096.

(** ** Reading *)
Definition read (file : list Z) (off nr : Z) (block : list Z) : list Z * Z :=
  let got := take (Z.to_nat nr) (drop (Z.to_nat off) file) in
  ((got ++ drop (length got) block)%list, off + Z.of_nat (length got)).

(** ** Lines of output *)
Inductive line :=
| Separator
| Context (addr b : Z)
| Wx (b addr : Z)
| Diff (addr b1 b2 : Z).

Definition show_line (l : line) : string :=
  match l with
  | Separator => "------"
  | Context a b => fmt_x0 8 a +:+ " " +:+ fmt_x0 2 b
  | Wx b a => "wx " +:+ fmt_x0 2 b +:+ " @ 0x" +:+ fmt_x a
  | Diff a b1 b2 => fmt_x0 8 a +:+ " " +:+ fmt_x0 2 b1 +:+ "   |   " +:+ fmt_x0 2 b2 +:+ " "
  end.

(** ** Comparing *)

(** The locals of [do_byte_diff]: the last equal bytes in a ring, and where the output stands. *)
Record diff_st := DiffSt {
  bufb : list Z; atbufb : Z; k : Z; outctx : Z; inctx : Z; cf : Z; printed : list line }.

Definition ring_next (i : Z) : Z := if CTXMAXB <=? i + 1 then 0 else i + 1.

(** The lines in front of a difference, from the oldest byte of the ring on. *)
Fixpoint context_lines (n : nat) (addr l k : Z) (bufb : list Z) : list line :=
  match n with
  | O => []
  | S n' => Context (u64 (addr - CTXMAXB + k)) (nth (Z.to_nat l) bufb 0) ::
            context_lines n' addr (ring_next l) (k + 1) bufb
  end.

(** One position: [addr] is [bproc + i]. *)
Definition diff_byte (radare_fmt : bool) (addr b1 b2 : Z) (st : diff_st) : diff_st :=
  if negb (b1 =? b2) then
    let '(k', ins) :=
      if inctx st =? 0 then
        (CTXMAXB, if radare_fmt then []
                  else Separator :: context_lines (Z.to_nat CTXMAXB) addr (ring_next (atbufb st)) 0 (bufb st))
      else (k st, []) in
    DiffSt (bufb st) (atbufb st) k' CTXMAXB 1 (s32 (cf st + 1))
      (printed st ++ ins ++ [if radare_fmt then Wx b2 addr else Diff addr b1 b2])
  else
    let bufb := <[Z.to_nat (atbufb st) := b1]> (bufb st) in
    let at' := ring_next (atbufb st) in
    if 0 <? outctx st then
      DiffSt bufb at' (k st) (outctx st - 1) (inctx st) (cf st)
        (printed st ++ if radare_fmt then [] else [Context (u64 (addr - CTXMAXB + k st)) b1])
    else DiffSt bufb at' (k st) (outctx st) 0 (cf st) (printed st).

Fixpoint diff_block (radare_fmt : bool) (addr : Z) (n : nat) (bl1 bl2 : list Z) (st : diff_st) : diff_st :=
  match n, bl1, bl2 with
  | S n', b1 :: bl1', b2 :: bl2' =>
    diff_block radare_fmt (addr + 1) n' bl1' bl2' (diff_byte radare_fmt addr b1 b2 st)
  | _, _, _ => st
  end.

(** [while (bproc < bytes)]: the blocks and the offsets of the descriptors are carried along. *)
Fixpoint diff_loop (fuel : nat) (radare_fmt : bool) (f1 f2 : list Z) (bytes bproc o1 o2 : Z) (bl1 bl2 : list Z)
    (st : diff_st) : option diff_st :=
  match fuel with
  | O => None
  | S fuel' =>
    if bproc <? bytes then
      let nr := if bytes - bproc <? BS then bytes - bproc else BS in
      let '(bl1, o1) := read f1 o1 nr bl1 in
      let '(bl2, o2) := read f2 o2 nr bl2 in
      diff_loop fuel' radare_fmt f1 f2 bytes (bproc + nr) o1 o2 bl1 bl2
        (diff_block radare_fmt bproc (Z.to_nat nr) bl1 bl2 st)
    else Some st
  end.

(** One turn more than there are bytes is enough. *)
Definition do_byte_diff (radare_fmt : bool) (f1 f2 : list Z) (from bytes : Z) (stack1 stack2 ring : list Z)
    : option diff_st :=
  diff_loop (S (Z.to_nat (bytes - from))) radare_fmt f1 f2 bytes from from from stack1 stack2
    (DiffSt ring 0 0 0 0 0 []).

Fixpoint count_block (n : nat) (bl1 bl2 : list Z) (count : Z) : Z :=
  match n, bl1, bl2 with
  | S n', b1 :: bl1', b2 :: bl2' => count_block n' bl1' bl2' (if negb (b1 =? b2) then s32 (count + 1) else count)
  | _, _, _ => count
  end.
Fixpoint count_loop (fuel : nat) (f1 f2 : list Z) (bytes bproc o1 o2 : Z) (bl1 bl2 : list Z) (count : Z) : option Z :=
  match fuel with
  | O => None
  | S fuel' =>
    if bproc <? bytes then
      let nr := if bytes - bproc <? BS then bytes - bproc else BS in
      let '(bl1, o1) := read f1 o1 nr bl1 in
      let '(bl2, o2) := read f2 o2 nr bl2 in
      count_loop fuel' f1 f2 bytes (bproc + nr) o1 o2 bl1 bl2 (count_block (Z.to_nat nr) bl1 bl2 count)
    else Some count
  end.

(** The count starts at 0, whatever [from] is; the descriptors start at [from]. *)
Definition do_byte_diff_count (f1 f2 : list Z) (from bytes : Z) (stack1 stack2 : list Z) : option Z :=
  count_loop (S (Z.to_nat bytes)) f1 f2 bytes 0 from from stack1 stack2 0.

(** ** [radiff_bytediff] on files that open

    How many bytes are compared: the shorter file, unless [to] replaces the size of the shorter one. *)
Definition diff_bytes (size1 size2 to : Z) : Z :=
  let '(size1, size2) :=
    if negb (to =? 0) then if size2 <? size1 then (size1, to) else (to, size2) else (size1, size2) in
  if size2 <? size1 then size2 else size1.

Definition radiff_bytediff (radare_fmt : bool) (f1 f2 : list Z) (from to : Z) (stack1 stack2 ring : list Z)
    : option diff_st :=
  do_byte_diff radare_fmt f1 f2 from (diff_bytes (Z.of_nat (length f1)) (Z.of_nat (length f2)) to) stack1 stack2 ring.
Definition radiff_bytediff_count (f1 f2 : list Z) (from to : Z) (stack1 stack2 : list Z) : option Z :=
  do_byte_diff_count f1 f2 from (diff_bytes (Z.of_nat (length f1)) (Z.of_nat (length f2)) to) stack1 stack2.

Example show_wx : show_line (Wx 7 0x1234) = "wx 07 @ 0x1234"%string.
Proof. reflexivity. Qed.

(** ** The walk over all positions

    As long as both files have the bytes, reading by blocks is the walk over the positions. *)
Definition walk (fmt : bool) (f1 f2 : list Z) (ps : list Z) (st : diff_st) : diff_st :=
  foldl (fun st p => diff_byte fmt p (nth (Z.to_nat p) f1 0) (nth (Z.to_nat p) f2 0) st) st ps.

Lemma walk_app fmt f1 f2 ps qs st : walk fmt f1 f2 (ps ++ qs) st = walk fmt f1 f2 qs (walk fmt f1 f2 ps st).
Proof. apply foldl_app. Qed.

Lemma read_full file off nr block :
  0 <= off -> 0 <= nr -> off + nr <= Z.of_nat (length file) ->
  read file off nr block =
    ((take (Z.to_nat nr) (drop (Z.to_nat off) file) ++ drop (Z.to_nat nr) block)%list, off + nr).
Proof.
  intros. unfold read. rewrite length_take, length_drop.
  by replace (Z.to_nat nr `min` (length file - Z.to_nat off))%nat with (Z.to_nat nr) by lia;
    rewrite Z2Nat.id by lia.
Qed.

Lemma drop_nth (l : list Z) p : (p < length l)%nat -> drop p l = nth p l 0 :: drop (S p) l.
Proof.
  intros H. destruct (lookup_lt_is_Some_2 l p H) as [x Hx]. rewrite (drop_S _ _ _ Hx). f_equal.
  symmetry. rewrite nth_lookup. by rewrite Hx.
Qed.

Lemma diff_block_walk fmt f1 f2 n addr r1 r2 st :
  0 <= addr -> (Z.to_nat addr + n <= length f1)%nat -> (Z.to_nat addr + n <= length f2)%nat ->
  diff_block fmt addr n (take n (drop (Z.to_nat addr) f1) ++ r1) (take n (drop (Z.to_nat addr) f2) ++ r2) st =
    walk fmt f1 f2 (seqZ addr (Z.of_nat n)) st.
Proof.
  revert addr st. induction n as [|n IH]; intros addr st Ha H1 H2; [done|].
  rewrite (drop_nth f1), (drop_nth f2) by lia. cbn [take app diff_block].
  replace (S (Z.to_nat addr)) with (Z.to_nat (addr + 1)) by lia. rewrite IH by lia.
  rewrite (seqZ_cons addr) by lia.
  by replace (Z.pred (Z.of_nat (S n))) with (Z.of_nat n) by lia.
Qed.

Lemma diff_loop_walk fmt f1 f2 bytes fuel bproc bl1 bl2 st :
  0 <= bproc -> bytes <= Z.of_nat (length f1) -> bytes <= Z.of_nat (length f2) -> (Z.to_nat (bytes - bproc) < fuel)%nat ->
  diff_loop fuel fmt f1 f2 bytes bproc bproc bproc bl1 bl2 st =
    Some (walk fmt f1 f2 (seqZ bproc (bytes - bproc)) st).
Proof.
  revert bproc bl1 bl2 st. induction fuel as [|fuel IH]; intros bproc bl1 bl2 st Hp H1 H2 Hf.
  { lia. }
  cbn [diff_loop]. destruct (Z.ltb_spec bproc bytes) as [Hlt|Hge]; [|by rewrite seqZ_nil by lia].
  set (nr := if bytes - bproc <? BS then bytes - bproc else BS).
  assert (Hnr : 0 < nr /\ bproc + nr <= bytes) by (unfold nr, BS; destruct (Z.ltb_spec (bytes - bproc) 4096); lia).
  rewrite !read_full, IH, diff_block_walk by lia.
  rewrite <-walk_app. do 2 f_equal. rewrite Z2Nat.id by lia.
  replace (bytes - bproc) with (nr + (bytes - (bproc + nr))) by lia. by rewrite seqZ_app by lia.
Qed.

(** ** Running the commands *)
Definition run_line (file : list Z) (l : line) : list Z :=
  match l with Wx b addr => <[Z.to_nat addr := b]> file | _ => file end.
Definition run_script (ls : list line) (file : list Z) : list Z := foldl run_line file ls.

(** The first [p] bytes from [from] on are the ones of the second file. *)
Definition patched (f1 f2 : list Z) (from p : nat) : list Z :=
  (take from f1 ++ take (p - from) (drop from f2) ++ drop p f1)%list.

Lemma patched_start f1 f2 from : patched f1 f2 from from = f1.
Proof. unfold patched. rewrite Nat.sub_diag, take_0. apply take_drop. Qed.

Lemma patched_step f1 f2 from p :
  (from <= p)%nat -> (p < length f1)%nat -> (p < length f2)%nat ->
  <[p := nth p f2 0]> (patched f1 f2 from p) = patched f1 f2 from (S p).
Proof.
  intros Hp H1 H2. unfold patched.
  replace (S p - from)%nat with (S (p - from)) by lia.
  destruct (lookup_lt_is_Some_2 f2 p H2) as [x Hx].
  rewrite (take_S_r _ _ x) by (rewrite lookup_drop; by replace (from + (p - from))%nat with p by lia).
  replace (nth p f2 0) with x by (symmetry; rewrite nth_lookup; by rewrite Hx).
  rewrite (drop_nth f1 p) by done. rewrite !app_assoc.
  replace p with (length (take from f1 ++ take (p - from) (drop from f2)) + 0)%nat at 1.
  2:{ rewrite length_app, !length_take, length_drop. lia. }
  rewrite insert_app_r. cbn [insert list_insert]. by rewrite <-!app_assoc.
Qed.

(** How many positions of a range differ. *)
Definition differences (f1 f2 : list Z) (ps : list Z) : nat :=
  length (filter (fun p => nth (Z.to_nat p) f1 0 <> nth (Z.to_nat p) f2 0) ps).

Lemma walk_script f1 f2 from n st :
  (from + n <= length f1)%nat -> (from + n <= length f2)%nat ->
  let ps := seqZ (Z.of_nat from) (Z.of_nat n) in
  let st' := walk true f1 f2 ps st in
  exists ls, printed st' = printed st ++ ls /\
    run_script ls f1 = patched f1 f2 from (from + n) /\
    length ls = differences f1 f2 ps.
Proof.
  cbv zeta. induction n as [|n IH]; intros H1 H2.
  { exists []. rewrite app_nil_r, Nat.add_0_r, patched_start. done. }
  destruct IH as (ls & E & Hr & Hc); [lia..|].
  replace (Z.of_nat (S n)) with (Z.of_nat n + 1) by lia. rewrite seqZ_app by lia.
  replace (seqZ (Z.of_nat from + Z.of_nat n) 1) with [Z.of_nat (from + n)] by (rewrite <-Nat2Z.inj_add; done).
  unfold differences in *. rewrite walk_app, filter_app, length_app.
  set (st1 := walk _ _ _ _ _) in *. cbn [walk foldl]. rewrite filter_cons, filter_nil, Nat2Z.id.
  pose proof (patched_step f1 f2 from (from + n)) as Hp.
  replace (from + S n)%nat with (S (from + n)) by lia. unfold diff_byte.
  destruct (Z.eqb_spec (nth (from + n) f1 0) (nth (from + n) f2 0)) as [Eb|Eb].
  - exists ls. rewrite decide_False by (intros ?; done). split_and!.
    + destruct (0 <? outctx st1); cbn [negb printed]; by rewrite ?app_nil_r.
    + rewrite <-Hp by lia. rewrite Hr, <-Eb.
      symmetry. apply list_insert_id. unfold patched.
      rewrite lookup_app_r; rewrite length_take; [|lia].
      rewrite lookup_app_r; rewrite length_take, length_drop; [|lia].
      rewrite lookup_drop. replace (_ + _)%nat with (from + n)%nat by lia.
      destruct (lookup_lt_is_Some_2 f1 (from + n)) as [x Hx]; [lia|]. rewrite Hx. f_equal.
      rewrite nth_lookup. by rewrite Hx.
    + rewrite Hc. simpl. lia.
  - exists (ls ++ [Wx (nth (from + n) f2 0) (Z.of_nat (from + n))]). rewrite decide_True by done. split_and!.
    + destruct (inctx st1 =? 0); cbn [negb printed app]; by rewrite E, <-app_assoc.
    + unfold run_script in *. rewrite foldl_app. cbn [foldl run_line]. by rewrite Hr, Nat2Z.id, Hp by lia.
    + rewrite length_app, Hc. done.
Qed.

(** C23: the commands printed by [radiff -b -r] between two offsets, run one after the other on the first
    file, give it the bytes of the second file there and change nothing else, and there is one command for
    each position that differs; what lies on the stack does not matter. *)
Theorem radiff_script_patches f1 f2 from to stack1 stack2 ring :
  let bytes := diff_bytes (Z.of_nat (length f1)) (Z.of_nat (length f2)) to in
  0 <= from <= bytes -> bytes <= Z.of_nat (length f1) -> bytes <= Z.of_nat (length f2) ->
  exists st, radiff_bytediff true f1 f2 from to stack1 stack2 ring = Some st /\
    run_script (printed st) f1 = patched f1 f2 (Z.to_nat from) (Z.to_nat bytes) /\
    length (printed st) = differences f1 f2 (seqZ from (bytes - from)).
Proof.
  cbv zeta. intros Hf H1 H2. unfold radiff_bytediff, do_byte_diff. rewrite diff_loop_walk by lia.
  set (bytes := diff_bytes _ _ to) in *. eexists. split; [done|].
  destruct (walk_script f1 f2 (Z.to_nat from) (Z.to_nat (bytes - from)) (DiffSt ring 0 0 0 0 0 []))
    as (ls & E & Hr & Hc); [lia..|].
  rewrite !Z2Nat.id in E, Hc by lia. cbn [printed app] in E. rewrite E, Hc. split; [|done].
  rewrite Hr. f_equal. lia.
Qed.

Lemma radiff_script_patches_witness :
  let f1 := [1; 2; 3; 4; 5] in let f2 := [1; 9; 3; 8] in
  let bytes := diff_bytes (Z.of_nat (length f1)) (Z.of_nat (length f2)) 0 in
  exists st, radiff_bytediff true f1 f2 1 0 [] [] [] = Some st /\
    run_script (printed st) f1 = patched f1 f2 (Z.to_nat 1) (Z.to_nat bytes) /\
    length (printed st) = differences f1 f2 (seqZ 1 (bytes - 1)).
Proof. apply (radiff_script_patches [1; 2; 3; 4; 5] [1; 9; 3; 8] 1 0 [] [] []); vm_compute; repeat split; congruence. Defined.

(** Two files of one size become equal. *)
Corollary radiff_script_equal f1 f2 stack1 stack2 ring :
  length f1 = length f2 ->
  exists st, radiff_bytediff true f1 f2 0 0 stack1 stack2 ring = Some st /\ run_script (printed st) f1 = f2.
Proof.
  intros H. assert (Hd : diff_bytes (Z.of_nat (length f1)) (Z.of_nat (length f2)) 0 = Z.of_nat (length f1)).
  { unfold diff_bytes. cbn. rewrite H. by destruct (_ <? _). }
  unfold radiff_bytediff, do_byte_diff. rewrite Hd, diff_loop_walk by lia.
  destruct (walk_script f1 f2 0 (length f1) (DiffSt ring 0 0 0 0 0 [])) as (ls & E & Hr & _); [lia..|].
  rewrite Z.sub_0_r. eexists. split; [done|]. change (Z.of_nat 0) with 0 in E. cbn [printed app] in E. rewrite E, Hr. unfold patched.
  cbn [plus]. rewrite Nat.sub_0_r, drop_0, H, firstn_all, <-H, drop_all. cbn. by rewrite app_nil_r.
Qed.

(** ** The counter *)
Lemma count_block_agrees fmt addr n bl1 bl2 st :
  cf (diff_block fmt addr n bl1 bl2 st) = count_block n bl1 bl2 (cf st).
Proof.
  revert addr bl1 bl2 st. induction n as [|n IH]; intros addr bl1 bl2 st; [done|].
  destruct bl1 as [|b1 bl1], bl2 as [|b2 bl2]; try done. cbn [diff_block count_block]. rewrite IH. f_equal.
  unfold diff_byte. destruct (b1 =? b2); cbn [negb]; [by destruct (0 <? outctx st)|].
  by destruct (inctx st =? 0).
Qed.

(** From the start of the files [-n] counts what [-b] reports, for any files, limits and stack. *)
Theorem bytediff_counts_agree fmt f1 f2 to stack1 stack2 ring :
  radiff_bytediff_count f1 f2 0 to stack1 stack2 = cf <$> radiff_bytediff fmt f1 f2 0 to stack1 stack2 ring.
Proof.
  unfold radiff_bytediff_count, radiff_bytediff, do_byte_diff, do_byte_diff_count. rewrite Z.sub_0_r.
  set (bytes := diff_bytes _ _ to).
  enough (H : forall fuel bproc o1 o2 bl1 bl2 st, count_loop fuel f1 f2 bytes bproc o1 o2 bl1 bl2 (cf st) =
    cf <$> diff_loop fuel fmt f1 f2 bytes bproc o1 o2 bl1 bl2 st) by apply (H _ 0 0 0 _ _ (DiffSt ring 0 0 0 0 0 [])).
  induction fuel as [|fuel IH]; intros; [done|]. cbn [count_loop diff_loop].
  destruct (bproc <? bytes); [|done]. destruct (read f1 o1 _ bl1), (read f2 o2 _ bl2).
  by rewrite <-count_block_agrees with (fmt := fmt) (addr := bproc), IH.
Qed.

(** With an offset the count reads past the end of the files and compares what the last read left. *)
Example count_with_from :
  radiff_bytediff_count [1; 1; 2] [1; 3; 2] 2 0 [7; 7; 7] [7; 8; 9] = Some 2 /\
  differences [1; 1; 2] [1; 3; 2] [2] = 0%nat.
Proof. by vm_compute. Qed.
