(* ===== verification/Math.v ===== *)
(** * Numbers and expressions in texts: [get_offset] and [get_math] of [src/utils.c]

    Both exist in two builds: inside radare ([RADARE_CORE]) names of flags, configuration variables and the
    [$$] variables are numbers too and brackets read memory; the tools beside it know literals only.  The
    argument [env] is what the core provides, [None] in the tools.  A result [None] is a read outside a
    text, or a shift by 64 bits or more. *)
From S2P Require Import Prelude Utils.
#[local] Open Scope string_scope.
#[local] Open Scope Z_scope.

Record core_env := CoreEnv {
  c_seek : Z;                       (* config.seek *)
  config_get_i : string -> Z;
  flag_get : string -> option Z;    (* the offset of the flag *)
  get_pointer : Z -> Z -> Z;        (* the value at an address, and its size *)
  c_var : ascii -> option Z }.      (* the letter behind the two dollars; None is the seek *)

(** ** The C library *)

(** [sscanf] of one integer: [None] when no digit is met. *)
Definition digit_of (base : Z) (c : ascii) : option Z :=
  let n := ord c in
  let v := if (48 <=? n) && (n <=? 57) then n - 48
           else if (65 <=? n) && (n <=? 70) then n - 55
           else if (97 <=? n) && (n <=? 102) then n - 87 else 99 in
  if v <? base then Some v else None.
Fixpoint digits_val (base acc : Z) (s : string) : Z :=
  match s with
  | EmptyString => acc
  | String c s' => match digit_of base c with Some d => digits_val base (base * acc + d) s' | None => acc end
  end.
Definition scan_digits (base : Z) (s : string) : option Z :=
  match s with
  | String c _ => match digit_of base c with Some _ => Some (digits_val base 0 s) | None => None end
  | EmptyString => None
  end.
Definition sign_of (s : string) : bool * string :=
  match s with
  | String c s' => if Ascii.eqb c "-" then (true, s') else if Ascii.eqb c "+" then (false, s') else (false, s)
  | EmptyString => (false, s)
  end.
(** [%llx] takes a prefix of its own only when a digit follows. *)
Definition skip_0x (s : string) : string :=
  match s with
  | String a (String b t) =>
    if Ascii.eqb a "0" && (Ascii.eqb b "x" || Ascii.eqb b "X") && bool_decide (is_Some (scan_digits 16 t)) then t else s
  | _ => s
  end.
Definition scan_unsigned (base : Z) (s : string) : option Z :=
  let '(neg, s) := sign_of (skip_spaces s) in
  (fun v => if 2^64 <=? v then 2^64 - 1 else if neg : bool then u64 (- v) else v) <$>
    scan_digits base (if base =? 16 then skip_0x s else s).
Definition scan_lld (s : string) : option Z :=
  let '(neg, s) := sign_of (skip_spaces s) in
  (fun v => if neg : bool then u64 (- Z.min v (2^63)) else Z.min v (2^63 - 1)) <$> scan_digits 10 s.

(** A character of a C string: the terminator behind the last one, nothing behind the terminator. *)
Definition c_at (s : string) (n : nat) : option ascii :=
  if (n =? String.length s)%nat then Some (chr 0) else String.get n s.
Definition at_is (s : string) (n : nat) (c : ascii) : bool :=
  match c_at s n with Some a => Ascii.eqb a c | None => false end.

(** ** Literals *)

(** The digits from the last but one character back to the front, until one is neither 0 nor 1; a one
    at bit 31 is the sign of the [int] that is shifted. *)
Fixpoint binary_loop (digits : list ascii) (j ret : Z) : option Z :=
  match digits with
  | [] => Some ret
  | c :: l =>
    if Ascii.eqb c "1" then
      if 32 <=? j then None else binary_loop l (j + 1) (Z.lor ret (u64 (s32 (Z.shiftl 1 j))))
    else if Ascii.eqb c "0" then binary_loop l (j + 1) ret else Some ret
  end.

(** The last character is a unit; [float_bits] are the bits of [sscanf("%f")]. *)
Definition suffix (float_bits : string -> Z) (arg : string) (ret : Z) (c : ascii) : option Z :=
  if Ascii.eqb c "f" then Some (Z.lor (Z.land ret 0xffffffff00000000) (float_bits arg))
  else if Ascii.eqb c "o" then Some (default ret (scan_unsigned 8 arg))
  else if Ascii.eqb c "b" then binary_loop (tail (rev (list_ascii_of_string arg))) 0 0
  else if Ascii.eqb c "K" || Ascii.eqb c "k" then Some (u64 (ret * 1024))
  else if Ascii.eqb c "M" || Ascii.eqb c "m" then Some (u64 (ret * 1024 * 1024))
  else if Ascii.eqb c "G" || Ascii.eqb c "g" then Some (u64 (ret * 1024 * 1024 * 1024))
  else Some ret.

(** The number of backslashes in front, and one: the place where the [x] of [0x] is expected. *)
Fixpoint backslashes (s : string) : nat :=
  match s with String c s' => if ord c =? 92 then S (backslashes s') else O | EmptyString => O end.

Definition literal (float_bits : string -> Z) (arg : string) (i : nat) (ret : Z) : option Z :=
  if at_is arg i "x" && at_is arg (i - 1) "0" then
    Some (if starts_with "0x" arg then default ret (scan_unsigned 16 (str_drop 2 arg)) else ret)
  else
    match String.get (String.length arg - 1) arg with
    | None => None                           (* in front of the empty text *)
    | Some c => suffix float_bits arg (default ret (scan_lld arg)) c
    end.

(** ** [get_offset] in the core *)

(** The number behind the dots replaces as many nibbles of the seek. *)
Fixpoint dots_loop (s : string) (mask real : Z) : Z * Z :=
  match s with
  | EmptyString => (mask, real)
  | String c s' =>
    if Ascii.eqb c "." then dots_loop s' mask real
    else dots_loop s' (Z.lor (u64 (Z.shiftl mask 4)) 0xf)
                      (if real =? 0 then default real (scan_unsigned 16 s) else real)
  end.
Definition dots (e : core_env) (arg : string) : Z :=
  let '(mask, real) := dots_loop arg 0 0 in
  u64 (Z.land (c_seek e) (u64 (- mask - 1)) + real).

(** What follows the two dollars; without a closing brace the value found before stays. *)
Definition dollar (e : core_env) (rest : string) (ret : Z) : Z :=
  match rest with
  | String c s =>
    if Ascii.eqb c "{" then match split_at "}" s with Some (name, _) => u64 (config_get_i e name) | None => ret end
    else default (c_seek e) (c_var e c)
  | EmptyString => c_seek e
  end.
Definition cut_at_space (s : string) : string := match split_at " " s with Some (l, _) => l | None => s end.

(** The text behind the first bracket is read again; the texts get shorter. *)
Fixpoint get_offset_fuel (fuel : nat) (env : option core_env) (float_bits : string -> Z) (orig : string) : option Z :=
  match fuel, orig with
  | O, _ => None
  | _, EmptyString => Some 0
  | S fuel', _ =>
    let arg := chop_spaces orig in
    match (if at_is arg 0 "'" then c_at arg 2 else Some (chr 0)) with
    | None => None
    | Some q =>
      if Ascii.eqb q "'" then (fun c => u64 (schar c)) <$> c_at arg 1
      else
        let i := S (backslashes arg) in
        match env with
        | None => literal float_bits arg i 0
        | Some e =>
          if at_is arg 0 "." then Some (dots e arg)
          else
            match split_at "[" arg with
            | Some (_, rest) => (fun a => get_pointer e a 4) <$> get_offset_fuel fuel' env float_bits rest
            | None =>
              let ret := u64 (config_get_i e arg) in
              if truth (s32 ret) then Some ret
              else
                match c_at arg i with
                | None => None
                | Some c =>
                  if Ascii.eqb c "$" then Some (dollar e (str_drop (S i) arg) ret)
                  else
                    let arg := cut_at_space arg in
                    match flag_get e arg with Some off => Some off | None => literal float_bits arg i ret end
                end
            end
        end
    end
  end.
Definition get_offset (env : option core_env) (float_bits : string -> Z) (orig : string) : option Z :=
  get_offset_fuel (S (String.length orig)) env float_bits orig.

Example get_offset_examples :
  let g := get_offset None (fun _ => 0) in
  g "0x1f" = Some 31 /\ g "12k" = Some 12288 /\ g "1010b" = Some 10 /\ g "17o" = Some 15 /\ g "'a'" = Some 97 /\
  g "-1" = Some (2^64 - 1) /\ g "  7 " = Some 7 /\ g " " = None /\ g "0x" = Some 0 /\ g "eax" = Some 0.
Proof. by vm_compute. Qed.

(** ** [get_math]

    The text without its blanks is cut in place at the operators: [buf] is the copy that is cut, [buf2] the
    one kept for brackets, and pointers are positions. *)
Fixpoint str_of (l : list ascii) : string :=
  match l with c :: l' => if ord c =? 0 then "" else String c (str_of l') | [] => "" end.
(** The C string at a position; reading it needs a terminator behind. *)
Definition text_at (buf : list ascii) (p : nat) : option string :=
  if (p <? length buf)%nat then Some (str_of (drop p buf)) else None.

(** Removing blanks: a character that moves into a place just passed is not looked at. *)
Fixpoint remove_blanks (s : string) : string :=
  match s with
  | String a (String b r as s') =>
    if Ascii.eqb a "!" && Ascii.eqb b "=" then String a (remove_blanks r)
    else if Ascii.eqb a "=" && Ascii.eqb b "=" then String " " (remove_blanks s')
    else if Ascii.eqb a " " then String b (remove_blanks r)
    else String a (remove_blanks s')
  | _ => s
  end.

Definition is_op (c : ascii) : bool :=
  contains (String c "") "=!+-<>%*/[\".

(** [mytok] from position [p] on: the position of the first operator. *)
Fixpoint find_op (s : string) : option (nat * ascii) :=
  match s with
  | EmptyString => None
  | String c s' => if is_op c then Some (O, c) else (fun '(n, d) => (S n, d)) <$> find_op s'
  end.

Record math_st := MathSt {
  m_buf : list ascii; m_buf2 : list ascii; m_level : Z; m_op : ascii; m_oop : ascii; m_new : Z; m_cmp : Z; m_is : Z }.

Section math.
Context (env : option core_env) (float_bits : string -> Z).

(** [strchr] in the second copy, from a position on. *)
Fixpoint chr_from (l : list ascii) (p : nat) (c : ascii) : option nat :=
  match l with
  | [] => None
  | a :: l' => if Ascii.eqb a c then Some p else if ord a =? 0 then None else chr_from l' (S p) c
  end.
Definition chr_at (buf : list ascii) (p : nat) (c : ascii) : option nat := chr_from (drop p buf) p c.

(** The value of a comparison or of a binary operator, from the operator in front of the token. *)
Definition apply_op (oop : ascii) (tok : string) (next : option (option string)) (st : math_st) : option math_st :=
  let new := m_new st in
  let set v := Some (MathSt (m_buf st) (m_buf2 st) (m_level st) (m_op st) oop (u64 v) (m_cmp st) (m_is st)) in
  let compare s :=
    if m_is st =? 0 then
      match next with
      | None => Some (MathSt (m_buf st) (m_buf2 st) (m_level st) (m_op st) oop new new s)
      | Some None => None
      | Some (Some t) => (fun v => MathSt (m_buf st) (m_buf2 st) (m_level st) (m_op st) oop v new s) <$> get_offset env float_bits t
      end
    else Some st in
  let arith (f : Z -> option Z) := match get_offset env float_bits tok with Some t => match f t with Some v => set v | None => None end | None => None end in
  if Ascii.eqb oop "!" then compare (-1)
  else if Ascii.eqb oop "=" then compare 1
  else if Ascii.eqb oop "+" then arith (fun t => Some (new + t))
  else if ord oop =? 92 then
    match tok with
    | String c r =>
      if Ascii.eqb c "|" then match get_offset env float_bits r with Some t => set (Z.lor new t) | None => None end
      else if Ascii.eqb c "&" then match get_offset env float_bits r with Some t => set (Z.land new t) | None => None end
      else Some st
    | EmptyString => Some st
    end
  else if Ascii.eqb oop "%" then arith (fun t => Some (if t =? 0 then new else new mod t))
  else if Ascii.eqb oop "<" then arith (fun t => if t <? 64 then Some (Z.shiftl new t) else None)
  else if Ascii.eqb oop ">" then arith (fun t => if t <? 64 then Some (Z.shiftr new t) else None)
  else if Ascii.eqb oop "-" then arith (fun t => Some (new - t))
  else if Ascii.eqb oop "/" then arith (fun t => Some (if t =? 0 then new else new / t))
  else if Ascii.eqb oop "*" then arith (fun t => Some (new * t))
  else arith (fun t => Some (new + t)).

(** A bracket in the core: [math] evaluates the text in it.  The new position of the token is wrong by the
    position of the bracket. *)
Definition bracket (math : string -> Z -> option (Z * Z)) (e : core_env) (ptr : nat) (st : math_st) : option (math_st * option nat) :=
  let buf2 := m_buf2 st in
  match chr_at buf2 (S ptr) "]" with
  | None => Some (st, None)
  | Some fin =>
    let '(buf2, size, p) :=
      match chr_at buf2 ptr ":" with
      | Some q => (<[q := chr 0]> buf2, atoi (str_of (drop ptr (<[q := chr 0]> buf2))), S q)
      | None => (buf2, 4, ptr)
      end in
    match text_at (<[fin := chr 0]> buf2) p with
    | None => None
    | Some t =>
      match math t (m_level st) with
      | None => None
      | Some (a, level) =>
        Some (MathSt (m_buf st) (<[fin := "]"%char]> buf2) level (m_op st) (m_oop st) (get_pointer e a size) (m_cmp st) (m_is st),
              Some (ptr + fin)%nat)
      end
    end
  end.

(** The loop; [ptr] is the start of the next token. *)
Fixpoint math_loop (math : string -> Z -> option (Z * Z)) (fuel : nat) (ptr : nat) (st : math_st) : option math_st :=
  match fuel with
  | O => None
  | S fuel' =>
    match text_at (m_buf st) ptr with
    | None => None
    | Some EmptyString => Some st
    | Some s =>
      let cut := find_op s in
      let st := match cut with
                | Some (n, d) => MathSt (<[(ptr + n)%nat := chr 0]> (m_buf st)) (m_buf2 st) (m_level st) d (m_oop st) (m_new st) (m_cmp st) (m_is st)
                | None => st end in
      let tmp := match cut with Some _ => Some ptr | None => None end in
      let tok := str_of (drop ptr (m_buf st)) in
      match (match env with
             | Some e => if Ascii.eqb (m_oop st) "[" then bracket math e ptr st
                         else (fun st => (st, tmp)) <$> apply_op (m_oop st) tok ((fun p => text_at (m_buf st) (S p)) <$> tmp) st
             | None => (fun st => (st, tmp)) <$> apply_op (m_oop st) tok ((fun p => text_at (m_buf st) (S p)) <$> tmp) st
             end) with
      | None => None
      | Some (st', tmp') =>
        let tmp' := match tmp' with Some _ => tmp' | None => tmp end in
        match tmp' with
        | None => Some st'
        | Some p =>
          match text_at (m_buf st') p with
          | None => None
          | Some t =>
            math_loop math fuel' (p + String.length t + 1)%nat
              (MathSt (m_buf st') (m_buf2 st') (m_level st') (m_op st') (m_op st') (m_new st') (m_cmp st') (m_is st'))
          end
        end
      end
    end
  end.

(** [level] counts the nested calls; it is a static, and the result comes with the value it has after the
    call. *)
Fixpoint get_math_fuel (fuel : nat) (text : string) (level : Z) : option (Z * Z) :=
  match fuel with
  | O => None
  | S fuel' =>
    let l := s32 (level + 1) in
    if 5 <? level then Some (0, l)
    else
      match text with
      | EmptyString => Some (0, s32 (l - 1))
      | _ =>
        let txt := remove_blanks text in
        let buf := (list_ascii_of_string txt ++ [chr 0])%list in
        let new := match env with
                   | Some e => if at_is txt 0 "+" || at_is txt 0 "-" then c_seek e else 0
                   | None => 0 end in
        match math_loop (get_math_fuel fuel') (S (String.length txt)) 0 (MathSt buf buf l (chr 0) (chr 0) new 0 0) with
        | None => None
        | Some st =>
          let v := if 0 <? m_is st then u64 (m_new st - m_cmp st)
                   else if m_is st <? 0 then (if u64 (m_new st - m_cmp st) =? 0 then 1 else 0)
                   else m_new st in
          Some (v, s32 (m_level st - 1))
        end
      end
  end.
Definition get_math (text : string) (level : Z) : option (Z * Z) := get_math_fuel (S (S (String.length text))) text level.
End math.

Definition no_float (_ : string) : Z := 0.
Definition test_env : core_env :=
  CoreEnv 0x1000 (fun _ => 0) (fun s => if String.eqb s "main" then Some 0x400 else None) (fun a n => a + n) (fun _ => None).

Example get_math_examples :
  let g t := fst <$> get_math None no_float t 0 in
  g "1+2*3" = Some 9 /\ g "0x10 - 4" = Some 12 /\ g "1<<4" = Some 16 /\ g "7/0" = Some 7 /\ g "-5" = Some (2^64 - 5) /\
  g "5 == 6" = Some 1 /\ g "5==6" = Some 0 /\ g "5 != 6" = Some 0 /\ g "1<64" = None.
Proof. by vm_compute. Qed.
Example get_math_core_examples :
  let g t := fst <$> get_math (Some test_env) no_float t 0 in
  g "main+1" = Some 0x401 /\ g "+8" = Some 0x1008 /\ g "[main]+1" = Some 0x405 /\ g "[2:main]+1" = Some 0x403 /\
  g "[main]" = None.
Proof. vm_compute. done. Qed.

(** *** Chains of operators

    A plain text is cut nowhere. *)
Definition plain_char (c : ascii) : bool := negb (is_op c) && negb (Ascii.eqb c " ") && negb (ord c =? 0).
Definition plain (s : string) : bool := negb (String.eqb s "") && all_chars plain_char s.

(** What the operators are meant to do, with 64 bits. *)
Definition operate (op : ascii) (a v : Z) : option Z :=
  if Ascii.eqb op "+" then Some (u64 (a + v))
  else if Ascii.eqb op "-" then Some (u64 (a - v))
  else if Ascii.eqb op "*" then Some (u64 (a * v))
  else if Ascii.eqb op "/" then Some (if v =? 0 then u64 a else u64 (a / v))
  else if Ascii.eqb op "%" then Some (if v =? 0 then u64 a else u64 (a mod v))
  else if Ascii.eqb op "<" then if v <? 64 then Some (u64 (Z.shiftl a v)) else None
  else if Ascii.eqb op ">" then if v <? 64 then Some (u64 (Z.shiftr a v)) else None
  else None.
Fixpoint chain (a : Z) (l : list (ascii * Z)) : option Z :=
  match l with
  | [] => Some a
  | (op, v) :: l' => match operate op a v with Some a' => chain a' l' | None => None end
  end.
Fixpoint chain_text (l : list (ascii * string)) : string :=
  match l with [] => "" | (op, t) :: l' => String op (t +:+ chain_text l') end.
Definition is_arith (c : ascii) : bool := contains (String c "") "+-*/%<>".

Lemma str_of_list s r : all_chars (fun c => negb (ord c =? 0)) s = true -> str_of (list_ascii_of_string s ++ chr 0 :: r)%list = s.
Proof.
  induction s as [|c s IH]; cbn [all_chars list_ascii_of_string app str_of]; [done|].
  rewrite andb_true_iff, negb_true_iff. intros [-> H]. by rewrite IH.
Qed.

Lemma list_ascii_app s t : list_ascii_of_string (s +:+ t) = (list_ascii_of_string s ++ list_ascii_of_string t)%list.
Proof. induction s as [|c s IH]; cbn; [done|]. by rewrite IH. Qed.

Lemma length_list_ascii s : length (list_ascii_of_string s) = String.length s.
Proof. induction s as [|c s IH]; cbn; [done|]. by rewrite IH. Qed.

Lemma text_at_pre pre s r :
  all_chars (fun c => negb (ord c =? 0)) s = true ->
  text_at (pre ++ list_ascii_of_string s ++ chr 0 :: r)%list (length pre) = Some s.
Proof.
  intros H. unfold text_at. rewrite !length_app. cbn [length].
  replace (_ <? _)%nat with true by (symmetry; apply Nat.ltb_lt; lia).
  by rewrite drop_app_length, str_of_list.
Qed.

Lemma find_op_plain t d r : all_chars plain_char t = true -> is_op d = true ->
  find_op (t +:+ String d r) = Some (String.length t, d) /\ find_op t = None.
Proof.
  intros Ht Hd. induction t as [|c t IH]; cbn [String.append find_op]; [by rewrite Hd|].
  cbn [all_chars] in Ht. rewrite andb_true_iff in Ht. destruct Ht as [Hc Ht].
  unfold plain_char in Hc. rewrite !andb_true_iff, !negb_true_iff in Hc. destruct Hc as [[-> _] _].
  by destruct (IH Ht) as [-> ->].
Qed.

Lemma is_arith_op c : is_arith c = true -> is_op c = true /\ ord c <> 0 /\ Ascii.eqb c "=" = false /\
  Ascii.eqb c "!" = false /\ Ascii.eqb c " " = false /\ Ascii.eqb c "[" = false.
Proof. destruct c as [[] [] [] [] [] [] [] []]; vm_compute; intros H; (discriminate H || by repeat split). Qed.
Lemma plain_char_not c : plain_char c = true -> ord c <> 0 /\ Ascii.eqb c "=" = false /\ Ascii.eqb c "!" = false /\
  Ascii.eqb c " " = false /\ Ascii.eqb c "+" = false /\ Ascii.eqb c "-" = false.
Proof. destruct c as [[] [] [] [] [] [] [] []]; vm_compute; intros H; (discriminate H || by repeat split). Qed.

(** A character that no pass over the text touches. *)
Definition kept (c : ascii) : bool := negb (ord c =? 0) && negb (Ascii.eqb c "=") && negb (Ascii.eqb c "!") && negb (Ascii.eqb c " ").

Lemma remove_blanks_kept s : all_chars kept s = true -> remove_blanks s = s.
Proof.
  induction s as [|a s IH]; [done|]. cbn [all_chars remove_blanks]. unfold kept at 1.
  rewrite !andb_true_iff, !negb_true_iff. intros [[[[_ H1] H2] H3] Hs].
  destruct s as [|b s]; [done|]. rewrite H1, H2, H3. cbn [andb]. by rewrite IH.
Qed.

Definition token_ok (l : ascii * string) : bool := is_arith l.1 && plain l.2.

Lemma plain_kept t : all_chars plain_char t = true -> all_chars kept t = true.
Proof.
  apply all_chars_impl. intros c Hc. destruct (plain_char_not c Hc) as (H0 & H1 & H2 & H3 & _).
  unfold kept. rewrite H1, H2, H3. replace (ord c =? 0) with false by (symmetry; by apply Z.eqb_neq). done.
Qed.
Lemma chain_text_kept l : forallb token_ok l = true -> all_chars kept (chain_text l) = true.
Proof.
  induction l as [|[op t] l IH]; [done|]. cbn [forallb chain_text all_chars]. unfold token_ok at 1, plain.
  rewrite !andb_true_iff. intros [[Ho [_ Ht]] Hl]. rewrite all_chars_app, plain_kept, IH by done.
  destruct (is_arith_op op Ho) as (_ & H0 & H1 & H2 & H3 & _).
  unfold kept. rewrite H1, H2, H3. replace (ord op =? 0) with false by (symmetry; by apply Z.eqb_neq). done.
Qed.
Lemma kept_no_nul s : all_chars kept s = true -> all_chars (fun c => negb (ord c =? 0)) s = true.
Proof. apply all_chars_impl. unfold kept. intros c. rewrite !andb_true_iff. tauto. Qed.

Section chains.
Context (env : option core_env) (float_bits : string -> Z).

Definition first_op (oop : ascii) (a v : Z) : option Z := if ord oop =? 0 then Some (u64 (a + v)) else operate oop a v.
Definition chain_op (oop : ascii) : Prop := is_arith oop = true \/ oop = chr 0.

Lemma apply_op_chain oop tok next st v :
  chain_op oop -> get_offset env float_bits tok = Some v ->
  apply_op env float_bits oop tok next st =
    (fun w => MathSt (m_buf st) (m_buf2 st) (m_level st) (m_op st) oop w (m_cmp st) (m_is st)) <$> first_op oop (m_new st) v.
Proof.
  intros Hop Hv. unfold apply_op, first_op, operate. rewrite Hv.
  destruct Hop as [Ho| ->]; [|done].
  destruct oop as [[] [] [] [] [] [] [] []]; vm_compute in Ho; try discriminate Ho; clear Ho;
    cbn -[Z.shiftl Z.shiftr Z.ltb Z.eqb u64]; try done; by destruct (v <? 64), (v =? 0).
Qed.

Lemma chain_op_bracket oop : chain_op oop -> Ascii.eqb oop "[" = false.
Proof. intros [H| ->]; [apply is_arith_op in H; tauto|done]. Qed.

(** The operands of a chain evaluate to numbers. *)
Definition operands (l : list (ascii * string)) (vs : list (ascii * Z)) : Prop :=
  Forall2 (fun x y => x.1 = y.1 /\ get_offset env float_bits x.2 = Some y.2) l vs.

(** One token that an operator ends. *)
Lemma math_turn math fuel pre t op r buf2 level op0 oop new cmp v :
  plain t = true -> is_arith op = true -> chain_op oop -> get_offset env float_bits t = Some v ->
  all_chars kept r = true ->
  math_loop env float_bits math (S fuel) (length pre)
      (MathSt (pre ++ list_ascii_of_string (t +:+ String op r) ++ [chr 0]) buf2 level op0 oop new cmp 0) =
    match first_op oop new v with
    | Some w =>
      math_loop env float_bits math fuel (length (pre ++ list_ascii_of_string t ++ [chr 0]))
        (MathSt ((pre ++ list_ascii_of_string t ++ [chr 0]) ++ list_ascii_of_string r ++ [chr 0]) buf2 level op op w cmp 0)
    | None => None
    end.
Proof.
  unfold plain. rewrite andb_true_iff, negb_true_iff. intros [Ht0 Ht] Hop Hoop Hv Hr.
  destruct (is_arith_op op Hop) as (Hopc & Hn0 & He & Hx & Hb & _).
  assert (Hk : all_chars kept (t +:+ String op r) = true).
  { rewrite all_chars_app, plain_kept by done. cbn [all_chars]. unfold kept at 1. rewrite He, Hx, Hb, Hr.
    by replace (ord op =? 0) with false by (symmetry; by apply Z.eqb_neq). }
  cbn [math_loop m_buf m_oop]. rewrite text_at_pre by (by apply kept_no_nul).
  destruct (t +:+ String op r) as [|c0 s0] eqn:Es; [by destruct t|]. rewrite <-Es.
  destruct (find_op_plain t op r Ht Hopc) as [-> _]. cbv beta iota.
  set (buf' := <[(length pre + String.length t)%nat := chr 0]> _).
  assert (Eb : buf' = (pre ++ list_ascii_of_string t ++ chr 0 :: list_ascii_of_string r ++ [chr 0])%list).
  { unfold buf'. rewrite list_ascii_app, insert_app_r, <-app_assoc.
    rewrite <-(Nat.add_0_r (String.length t)), <-(length_list_ascii t), insert_app_r. done. }
  cbn [m_buf m_oop m_op m_buf2 m_level m_new m_cmp m_is]. rewrite chain_op_bracket by done.
  replace (str_of (drop (length pre) buf')) with t
    by (rewrite Eb, drop_app_length, str_of_list; [done|by apply kept_no_nul, plain_kept]).
  rewrite !(apply_op_chain _ _ _ _ v) by done. cbn [m_buf m_oop m_op m_buf2 m_level m_new m_cmp m_is].
  destruct (first_op oop new v) as [w|]; [|by destruct env].
  assert (Et2 : text_at buf' (length pre) = Some t).
  { rewrite Eb. rewrite text_at_pre; [done|by apply kept_no_nul, plain_kept]. }
  replace (length (pre ++ _ ++ _))%nat with (length pre + String.length t + 1)%nat
    by (rewrite !length_app, length_list_ascii; cbn; lia).
  replace ((pre ++ list_ascii_of_string t ++ [chr 0]) ++ list_ascii_of_string r ++ [chr 0])%list with buf'
    by (by rewrite Eb, <-!app_assoc).
  by destruct env; cbn [fmap option_fmap option_map m_buf m_oop m_op m_buf2 m_level m_new m_cmp m_is]; rewrite Et2.
Qed.

(** The last token. *)
Lemma math_last math fuel pre t buf2 level op0 oop new cmp v :
  plain t = true -> chain_op oop -> get_offset env float_bits t = Some v ->
  math_loop env float_bits math (S fuel) (length pre)
      (MathSt (pre ++ list_ascii_of_string t ++ [chr 0]) buf2 level op0 oop new cmp 0) =
    (fun w => MathSt (pre ++ list_ascii_of_string t ++ [chr 0]) buf2 level op0 oop w cmp 0) <$> first_op oop new v.
Proof.
  unfold plain. rewrite andb_true_iff, negb_true_iff. intros [Ht0 Ht] Hoop Hv.
  pose proof (kept_no_nul _ (plain_kept _ Ht)) as Hz.
  cbn [math_loop m_buf m_oop]. rewrite text_at_pre by done.
  destruct (find_op_plain t "+" "" Ht eq_refl) as [_ E].
  destruct t as [|c t']; [done|]. rewrite E. cbv beta iota zeta. cbn [m_buf m_oop].
  rewrite chain_op_bracket, drop_app_length, str_of_list by done.
  rewrite !(apply_op_chain _ _ _ _ v) by done. cbn [m_buf m_oop m_op m_buf2 m_level m_new m_cmp m_is].
  by destruct env, (first_op oop new v).
Qed.

Lemma math_loop_chain math l vs : operands l vs -> forallb token_ok l = true ->
  forall t v pre buf2 level op0 oop new cmp fuel,
  plain t = true -> chain_op oop -> get_offset env float_bits t = Some v -> (length l < fuel)%nat ->
  (fun st => (m_new st, m_level st, m_is st)) <$>
    math_loop env float_bits math fuel (length pre)
      (MathSt (pre ++ list_ascii_of_string (t +:+ chain_text l) ++ [chr 0]) buf2 level op0 oop new cmp 0) =
  (fun w => (w, level, 0)) <$> match first_op oop new v with Some a => chain a vs | None => None end.
Proof.
  induction 1 as [|[op t2] [op' v2] l vs [Eo Ev] Hl IH]; intros Hok t v pre buf2 level op0 oop new cmp fuel Ht Hoop Hv Hf.
  - destruct fuel as [|fuel]; [cbn in Hf; lia|]. cbn [chain_text chain].
    rewrite append_empty.
    rewrite (math_last _ _ _ _ _ _ _ _ _ _ v) by done. by destruct (first_op oop new v).
  - destruct fuel as [|fuel]; [cbn in Hf; lia|]. cbn [fst snd] in *. subst op'. cbn [chain_text chain].
    cbn [forallb] in Hok. apply andb_true_iff in Hok as [Hop Hok]. unfold token_ok in Hop. cbn [fst snd] in Hop.
    apply andb_true_iff in Hop as [Hop Ht2].
    rewrite (math_turn _ _ _ _ _ _ _ _ _ _ _ _ v); try done.
    2:{ rewrite all_chars_app, chain_text_kept, plain_kept by (unfold plain in Ht2; rewrite andb_true_iff in Ht2; tauto). done. }
    destruct (first_op oop new v) as [w|]; [|done].
    rewrite (IH Hok t2 v2) by (done || (by left) || (cbn in Hf; lia)).
    unfold first_op. replace (ord op =? 0) with false; [done|].
    symmetry. apply Z.eqb_neq. by apply is_arith_op in Hop as (_ & ? & _).
Qed.
End chains.

(** *** Numbers as [printf] writes them *)
Lemma digit_of_digit base d : 2 <= base <= 16 -> 0 <= d < base -> digit_of base (digit d) = Some d.
Proof.
  intros Hb Hd. assert (H : 0 <= d < 16) by lia.
  pose proof (forallb_below (fun d => (if (48 <=? ord (digit d)) && (ord (digit d) <=? 57) then ord (digit d) - 48
    else if (65 <=? ord (digit d)) && (ord (digit d) <=? 70) then ord (digit d) - 55
    else if (97 <=? ord (digit d)) && (ord (digit d) <=? 102) then ord (digit d) - 87 else 99) =? d) 16 eq_refl d H) as E.
  cbv beta in E. apply Z.eqb_eq in E. unfold digit_of. rewrite E. by replace (d <? base) with true by lia.
Qed.

Lemma digits_val_digits base fuel : 2 <= base <= 16 -> forall z acc a, 0 <= z < base ^ Z.of_nat fuel ->
  exists k, digits_val base a (digits base fuel z acc) = digits_val base (a * base ^ Z.of_nat k + z) acc.
Proof.
  intros Hb. induction fuel as [|fuel IH]; intros z acc a Hz.
  { exists O. cbn [digits]. f_equal. cbn in Hz |- *. lia. }
  cbn [digits]. pose proof (Z.mod_pos_bound z base). destruct (Z.ltb_spec z base) as [Hlt|Hge].
  - exists 1%nat. cbn [digits_val]. rewrite digit_of_digit, Z.mod_small by lia. f_equal. lia.
  - rewrite Nat2Z.inj_succ, Z.pow_succ_r in Hz by lia.
    destruct (IH (z / base) (String (digit (z mod base)) acc) a) as [k ->].
    { split; [apply Z.div_pos; lia|apply Z.div_lt_upper_bound; lia]. }
    exists (S k). cbn [digits_val]. rewrite digit_of_digit by lia. f_equal.
    rewrite Nat2Z.inj_succ, Z.pow_succ_r by lia. pose proof (Z.div_mod z base). lia.
Qed.

Lemma all_chars_get p s n c : all_chars p s = true -> String.get n s = Some c -> p c = true.
Proof.
  revert n. induction s as [|a s IH]; intros n; [by destruct n|]. cbn [all_chars String.get].
  rewrite andb_true_iff. intros [Ha Hs]. destruct n; [by intros [= <-]|by apply IH].
Qed.
Lemma get_last s c : exists a, String.get (String.length (String c s) - 1) (String c s) = Some a.
Proof.
  revert c. induction s as [|b s IH]; intros c; [by eexists|]. destruct (IH b) as [a E]. exists a.
  cbn in E |- *. by rewrite Nat.sub_0_r in E.
Qed.

Definition dec_char (c : ascii) : bool := (48 <=? ord c) && (ord c <=? 57).
Definition hex_char (c : ascii) : bool := dec_char c || ((97 <=? ord c) && (ord c <=? 102)).
Lemma digit_dec d : 0 <= d < 10 -> dec_char (digit d) = true.
Proof. exact (forallb_below (fun d => dec_char (digit d)) 10 eq_refl d). Qed.
Lemma digit_hex d : 0 <= d < 16 -> hex_char (digit d) = true.
Proof. exact (forallb_below (fun d => hex_char (digit d)) 16 eq_refl d). Qed.
Lemma dec_char_facts c : dec_char c = true ->
  plain_char c = true /\ isspace c = false /\ Ascii.eqb c "-" = false /\ Ascii.eqb c "+" = false /\
  Ascii.eqb c "'" = false /\ (ord c =? 92) = false /\ Ascii.eqb c " " = false /\ Ascii.eqb c "x" = false /\
  Ascii.eqb c "X" = false /\ Ascii.eqb c "." = false /\ Ascii.eqb c "[" = false /\ Ascii.eqb c "$" = false /\
  (exists d, digit_of 10 c = Some d) /\ forall fb a r, suffix fb a r c = Some r.
Proof.
  destruct c as [[] [] [] [] [] [] [] []]; intros H; vm_compute in H; try discriminate H; clear H;
    split_and!; try reflexivity; by eexists.
Qed.
Lemma hex_char_facts c : hex_char c = true ->
  plain_char c = true /\ isspace c = false /\ Ascii.eqb c "-" = false /\ Ascii.eqb c "+" = false /\
  Ascii.eqb c "x" = false /\ Ascii.eqb c "X" = false /\ Ascii.eqb c "[" = false /\ Ascii.eqb c " " = false /\ exists d, digit_of 16 c = Some d.
Proof.
  destruct c as [[] [] [] [] [] [] [] []]; intros H; vm_compute in H; try discriminate H; clear H;
    split_and!; try reflexivity; by eexists.
Qed.

Lemma digits_number base z : 2 <= base <= 16 -> 0 <= z < 2^64 -> digits_val base 0 (digits base 64 z "") = z.
Proof.
  intros Hb Hz. destruct (digits_val_digits base 64 Hb z "" 0) as [k ->]; [|cbn [digits_val]; lia].
  assert (2 ^ 64 <= base ^ Z.of_nat 64) by (apply Z.pow_le_mono_l; lia). lia.
Qed.

(** Decimal numbers are read as [long long]. *)
Lemma scan_lld_fmt z : 0 <= z < 2^64 -> scan_lld (fmt_d z) = Some (Z.min z (2^63 - 1)).
Proof.
  intros Hz. unfold fmt_d. replace (z <? 0) with false by lia.
  assert (Hall : all_chars dec_char (digits 10 64 z "") = true) by (apply digits_chars; [lia|apply digit_dec|done]).
  pose proof (digits_number 10 z ltac:(lia) Hz) as Hv.
  destruct (digits_cons 10 63 z "") as (c & s & E). rewrite E in *. cbn [all_chars] in Hall.
  apply andb_true_iff in Hall as [Hc _]. destruct (dec_char_facts c Hc) as (_ & H1 & H2 & H3 & _ & _ & _ & _ & _ & _ & _ & _ & [d Hd] & _).
  unfold scan_lld. cbn [skip_spaces]. rewrite H1. cbn [sign_of]. rewrite H2, H3. cbn [scan_digits]. rewrite Hd. cbn [fmap option_fmap option_map].
  by rewrite Hv.
Qed.

Lemma scan_hex_fmt z : 0 <= z < 2^64 -> scan_unsigned 16 (fmt_x z) = Some z.
Proof.
  intros Hz. unfold fmt_x.
  assert (Hall : all_chars hex_char (digits 16 64 z "") = true) by (apply digits_chars; [lia|apply digit_hex|done]).
  pose proof (digits_number 16 z ltac:(lia) Hz) as Hv.
  destruct (digits_cons 16 63 z "") as (c & s & E). rewrite E in *. cbn [all_chars] in Hall.
  apply andb_true_iff in Hall as [Hc Hs]. destruct (hex_char_facts c Hc) as (_ & H1 & H2 & H3 & _ & _ & _ & _ & [d Hd]).
  unfold scan_unsigned. cbn [skip_spaces]. rewrite H1. cbn [sign_of]. rewrite H2, H3. cbn [Z.eqb Pos.eqb].
  replace (skip_0x (String c s)) with (String c s).
  - cbn [scan_digits]. rewrite Hd. cbn [fmap option_fmap option_map]. rewrite Hv. by rewrite (proj2 (Z.leb_gt _ _)) by (clear -Hz; lia).
  - unfold skip_0x. destruct s as [|b t]; [done|]. cbn [all_chars] in Hs. apply andb_true_iff in Hs as [Hb _].
    destruct (hex_char_facts b Hb) as (_ & _ & _ & _ & -> & -> & _). by rewrite andb_false_r.
Qed.

(** What the core must not know about a text for it to be read as a literal. *)
Definition is_literal (env : option core_env) (s : string) : Prop :=
  match env with None => True | Some e => config_get_i e s = 0 /\ flag_get e s = None end.

(** The core passes a text of digits on to the literals. *)
Lemma get_offset_digits env fb c s :
  (Ascii.eqb c " " = false /\ Ascii.eqb c "'" = false /\ (ord c =? 92) = false /\ Ascii.eqb c "." = false) ->
  split_at "[" (String c s) = None -> split_at " " (String c s) = None -> at_is (String c s) 1 "$" = false ->
  is_literal env (String c s) ->
  get_offset env fb (String c s) = literal fb (String c s) 1 0.
Proof.
  intros (H1 & H2 & H3 & H4) Hb Hs Hd He. unfold get_offset. cbn [get_offset_fuel chop_spaces]. rewrite H1.
  unfold at_is at 1. cbn [c_at String.length Nat.eqb String.get]. rewrite H2. cbn [Ascii.eqb Bool.eqb chr].
  change (Ascii.eqb (chr 0) "'") with false. cbv iota. cbn [backslashes]. rewrite H3.
  destruct env as [e|]; [|done]. unfold at_is at 1. cbn [c_at String.length Nat.eqb String.get]. rewrite H4, Hb.
  cbn [is_literal] in He. destruct He as [-> Hf]. change (truth (s32 (u64 0))) with false. cbv iota.
  unfold at_is in Hd. destruct (c_at (String c s) 1) as [a|] eqn:Ea.
  - rewrite Hd. unfold cut_at_space. by rewrite Hs, Hf.
  - unfold c_at in Ea. destruct s as [|b s]; [done|]. cbn in Ea. by destruct (String.length s).
Qed.

Lemma number_read env fb z :
  0 <= z < 2^64 -> is_literal env (fmt_d z) -> is_literal env ("0x" +:+ fmt_x z) ->
  get_offset env fb (fmt_d z) = Some (Z.min z (2^63 - 1)) /\ get_offset env fb ("0x" +:+ fmt_x z) = Some z.
Proof.
  intros Hz Hd Hx. split.
  - pose proof (scan_lld_fmt z Hz) as Hv. unfold fmt_d in *. replace (z <? 0) with false in * by lia.
    assert (Hall : all_chars dec_char (digits 10 64 z "") = true) by (apply digits_chars; [lia|apply digit_dec|done]).
    destruct (digits_cons 10 63 z "") as (c & s & E). rewrite E in *.
    assert (Hn : forall a n, dec_char a = false -> ord a <> 0 -> at_is (String c s) n a = false).
    { intros a n Ha H0. unfold at_is, c_at. destruct (n =? _)%nat.
      - destruct (Ascii.eqb_spec (chr 0) a) as [<-|]; [by destruct H0|done].
      - destruct (String.get n (String c s)) as [b|] eqn:Eb; [|done].
        pose proof (all_chars_get _ _ _ _ Hall Eb). destruct (Ascii.eqb_spec b a) as [->|]; [congruence|done]. }
    pose proof (split_at_none _ "[" _ eq_refl Hall) as Hb. pose proof (split_at_none _ " " _ eq_refl Hall) as Hs.
    assert (Hc : dec_char c = true) by (cbn [all_chars] in Hall; apply andb_true_iff in Hall; tauto).
    rewrite get_offset_digits; [|pose proof (dec_char_facts c Hc); tauto|done|done|by apply Hn|done].
    unfold literal. rewrite Hn by done. cbn [andb].
    destruct (get_last s c) as [a Ea]. rewrite Ea, Hv.
    apply (dec_char_facts a), (all_chars_get _ _ _ _ Hall Ea).
  - pose proof (scan_hex_fmt z Hz) as Hv. unfold fmt_x in *.
    assert (Hall : all_chars hex_char (digits 16 64 z "") = true) by (apply digits_chars; [lia|apply digit_hex|done]).
    set (t := digits 16 64 z "") in *. clearbody t. change ("0x" +:+ t) with (String "0" (String "x" t)) in *.
    rewrite get_offset_digits; [|by split_and!| | |done|done];
      [|cbn [split_at Ascii.eqb Bool.eqb]; by rewrite (split_at_none hex_char)..].
    change (literal fb (String "0" (String "x" t)) 1 0) with (Some (default 0 (scan_unsigned 16 t))). by rewrite Hv.
Qed.

(** Numbers printed by radare are read back: hexadecimal ones of 64 bits, decimal ones up to the largest
    signed one, where larger ones end.  In the core this holds as long as no flag or variable has that name. *)
Theorem number_roundtrip env fb z :
  0 <= z < 2^64 -> is_literal env (fmt_d z) -> is_literal env ("0x" +:+ fmt_x z) ->
  get_offset env fb (fmt_d z) = Some (Z.min z (2^63 - 1)) /\ get_offset env fb ("0x" +:+ fmt_x z) = Some z.
Proof. apply number_read. Qed.

Lemma number_roundtrip_witness :
  get_offset (Some test_env) no_float (fmt_d 1024) = Some (Z.min 1024 (2^63 - 1)) /\
  get_offset (Some test_env) no_float ("0x" +:+ fmt_x 1024) = Some 1024.
Proof. apply number_roundtrip; [lia|by vm_compute|by vm_compute]. Defined.

Lemma get_math_terms env fb t l v vs level :
  0 <= level <= 5 -> plain t = true -> forallb token_ok l = true ->
  get_offset env fb t = Some v -> operands env fb l vs ->
  get_math env fb (t +:+ chain_text l) level = (fun w => (w, level)) <$> chain (u64 v) vs.
Proof.
  intros Hlevel Ht Hok Hv Hvs. unfold get_math. cbn [get_math_fuel]. replace (5 <? level) with false by lia.
  rewrite (s32_id (level + 1)) by lia.
  assert (Hp : all_chars plain_char t = true) by (unfold plain in Ht; apply andb_true_iff in Ht; tauto).
  rewrite remove_blanks_kept by (by rewrite all_chars_app, plain_kept, chain_text_kept).
  assert (Hlen : (length l < S (String.length (t +:+ chain_text l)))%nat).
  { clear. rewrite <-!length_list_ascii, list_ascii_app, length_app.
    induction l as [|[op s] l IH]; cbn [length chain_text list_ascii_of_string]; [lia|].
    rewrite list_ascii_app, length_app. lia. }
  assert (Hsign : match env with Some e => if at_is (t +:+ chain_text l) 0 "+" || at_is (t +:+ chain_text l) 0 "-"
                  then c_seek e else 0 | None => 0 end = 0).
  { destruct env as [e|]; [|done]. destruct t as [|c t]; [done|]. cbn [all_chars] in Hp. apply andb_true_iff in Hp as [Hc _].
    destruct (plain_char_not c Hc) as (_ & _ & _ & _ & H5 & H6). unfold at_is, c_at. cbn. by rewrite H5, H6. }
  destruct (t +:+ chain_text l) as [|c0 s0] eqn:Es; [by destruct t|]. rewrite <-Es in *. rewrite Hsign.
  pose proof (math_loop_chain env fb (get_math_fuel env fb (S (String.length (t +:+ chain_text l)))) l vs Hvs Hok
    t v [] (list_ascii_of_string (t +:+ chain_text l) ++ [chr 0]) (level + 1) (chr 0) (chr 0) 0 0
    (S (String.length (t +:+ chain_text l))) Ht (or_intror eq_refl) Hv Hlen) as H.
  cbn [app length] in H. change (first_op (chr 0) 0 v) with (Some (u64 v)) in H. cbv iota in H.
  destruct (math_loop _ _ _ _ _ _) as [st|], (chain (u64 v) vs) as [w|]; cbn in H; try discriminate H; [|done].
  injection H as -> -> ->. cbn. do 2 f_equal. rewrite s32_id; lia.
Qed.

(** C4: a text of numbers between operators is worth what the operators make of the numbers from left to
    right, without precedence and modulo 2^64, and the counter of nested calls is as before. *)
Theorem get_math_chain env fb t l v vs level :
  0 <= level <= 5 -> plain t = true -> forallb token_ok l = true ->
  get_offset env fb t = Some v -> operands env fb l vs ->
  get_math env fb (t +:+ chain_text l) level = (fun w => (w, level)) <$> chain (u64 v) vs.
Proof. apply get_math_terms. Qed.

Lemma get_math_chain_witness :
  get_math (Some test_env) no_float ("main" +:+ chain_text [("+"%char, "0x10"); ("*"%char, "2")]) 0 =
    (fun w => (w, 0)) <$> chain (u64 0x400) [("+"%char, 0x10); ("*"%char, 2)].
Proof.
  apply (get_math_chain (Some test_env) no_float "main" [("+"%char, "0x10"); ("*"%char, "2")] 0x400
    [("+"%char, 0x10); ("*"%char, 2)] 0); [lia|done|done|by vm_compute|].
  repeat constructor.
Defined.

(** ** The guard of the recursion

    A call behind the guard counts itself and never takes that back. *)
Lemma get_math_guard env fb text level : 5 < level < 2^31 - 1 -> get_math env fb text level = Some (0, level + 1).
Proof.
  intros H. unfold get_math. cbn [get_math_fuel]. replace (5 <? level) with true by lia. rewrite s32_id by lia. done.
Qed.

(** Brackets behind colons, each with room behind it for the position where the loop goes on. *)
Fixpoint nested_brackets (n : nat) (pos : nat) : string :=
  match n with
  | O => "+0"
  | S n' => "[1]" +:+ pad "a" (match n' with O => pos | S _ => pos - 1 end)
              ((match n' with O => "" | S _ => ":" end) +:+ nested_brackets n' (pos + 4 + (pos - 1)))
  end.

(** There is a text after which every expression is 0, whatever it says: the counter of the guard is
    left above its limit. *)
Theorem math_guard_leaks :
  exists text v level, get_math (Some test_env) no_float text 0 = Some (v, level) /\
    forall env fb t, get_math env fb t level = Some (0, level + 1).
Proof.
  exists (nested_brackets 6 0). eexists _, _. split; [vm_compute; reflexivity|].
  intros. by apply get_math_guard.
Qed.

(** ** The tools: no core *)
Definition tool_math (t : string) : option Z := fst <$> get_math None no_float t 0.
Definition tool_offset (t : string) : option Z := get_offset None no_float t.

Lemma tool_offset_hex v : 0 <= v < 2^64 -> tool_offset ("0x" +:+ fmt_x v) = Some v.
Proof. intros Hv. by apply (number_read None no_float v). Qed.

Lemma hex_plain v : plain ("0x" +:+ fmt_x v) = true.
Proof.
  unfold plain, fmt_x. change ("0x" +:+ digits 16 64 v "") with (String "0" (String "x" (digits 16 64 v ""))).
  cbn [all_chars]. rewrite (all_chars_impl hex_char plain_char); [done| |].
  - intros c Hc. by apply (hex_char_facts c).
  - apply digits_chars; [lia|apply digit_hex|done].
Qed.

Lemma tool_math_hex v : 0 <= v < 2^64 -> tool_math ("0x" +:+ fmt_x v) = Some v.
Proof.
  intros Hv. unfold tool_math.
  pose proof (get_math_terms None no_float ("0x" +:+ fmt_x v) [] v [] 0) as H. cbn [chain_text chain] in H.
  rewrite append_empty in H. rewrite H; [|lia|apply hex_plain|done|by apply tool_offset_hex|constructor].
  cbn. f_equal. by apply u64_id.
Qed.
