(* ===== verification/Dislen.v ===== *)
(** * The length of an x86 instruction: [src/arch/x86/dislen.c], and the hack of [src/dbg/arch/i386-hack.c]
    that overwrites one

    The globals [disasm_*] are a record.  The instruction is the list of bytes the caller has; a result
    [None] is a read or a write behind the end of an array. *)
From S2P Require Import Prelude.

Definition C_66 : Z := 0x01.
Definition C_67 : Z := 0x02.
Definition C_LOCK : Z := 0x04.
Definition C_REP : Z := 0x08.
Definition C_SEG : Z := 0x10.
Definition C_OPCODE2 : Z := 0x20.
Definition C_MODRM : Z := 0x40.
Definition C_SIB : Z := 0x80.

Record dis_st := DisSt {
  disasm_flag : Z; disasm_memsize : Z; disasm_datasize : Z; disasm_defdata : Z; disasm_defmem : Z;
  disasm_seg : Z; disasm_rep : Z; disasm_opcode : Z; disasm_opcode2 : Z; disasm_modrm : Z; disasm_sib : Z;
  disasm_mem : list Z; disasm_data : list Z }.

Definition has (f : Z) (st : dis_st) : bool := truth (Z.land (disasm_flag st) f).
Definition add_flag (f : Z) (st : dis_st) : dis_st :=
  DisSt (Z.lor (disasm_flag st) f) (disasm_memsize st) (disasm_datasize st) (disasm_defdata st) (disasm_defmem st)
    (disasm_seg st) (disasm_rep st) (disasm_opcode st) (disasm_opcode2 st) (disasm_modrm st) (disasm_sib st) (disasm_mem st) (disasm_data st).
Definition add_mem (n : Z) (st : dis_st) : dis_st :=
  DisSt (disasm_flag st) (disasm_memsize st + n) (disasm_datasize st) (disasm_defdata st) (disasm_defmem st)
    (disasm_seg st) (disasm_rep st) (disasm_opcode st) (disasm_opcode2 st) (disasm_modrm st) (disasm_sib st) (disasm_mem st) (disasm_data st).
Definition add_data (n : Z) (st : dis_st) : dis_st :=
  DisSt (disasm_flag st) (disasm_memsize st) (disasm_datasize st + n) (disasm_defdata st) (disasm_defmem st)
    (disasm_seg st) (disasm_rep st) (disasm_opcode st) (disasm_opcode2 st) (disasm_modrm st) (disasm_sib st) (disasm_mem st) (disasm_data st).
Definition set_defs (data mem : Z) (st : dis_st) : dis_st :=
  DisSt (disasm_flag st) (disasm_memsize st) (disasm_datasize st) data mem
    (disasm_seg st) (disasm_rep st) (disasm_opcode st) (disasm_opcode2 st) (disasm_modrm st) (disasm_sib st) (disasm_mem st) (disasm_data st).
Definition set_prefixes (seg rep : Z) (st : dis_st) : dis_st :=
  DisSt (disasm_flag st) (disasm_memsize st) (disasm_datasize st) (disasm_defdata st) (disasm_defmem st)
    seg rep (disasm_opcode st) (disasm_opcode2 st) (disasm_modrm st) (disasm_sib st) (disasm_mem st) (disasm_data st).
Definition set_codes (op op2 modrm sib : Z) (st : dis_st) : dis_st :=
  DisSt (disasm_flag st) (disasm_memsize st) (disasm_datasize st) (disasm_defdata st) (disasm_defmem st)
    (disasm_seg st) (disasm_rep st) op op2 modrm sib (disasm_mem st) (disasm_data st).
Definition set_bytes (mem data : list Z) (st : dis_st) : dis_st :=
  DisSt (disasm_flag st) (disasm_memsize st) (disasm_datasize st) (disasm_defdata st) (disasm_defmem st)
    (disasm_seg st) (disasm_rep st) (disasm_opcode st) (disasm_opcode2 st) (disasm_modrm st) (disasm_sib st) mem data.

(** ** The opcodes *)
Inductive opkind :=
| KModrm | KInt | KTest | KImm | KByte | KSeg | KLock | KRep | K66 | K67 | KByteModrm | KDataModrm
| KFar | KMoffs | KData | KWord | KEnter | KInvalid | KTwo | KPlain.

Definition among (l : list (Z * Z)) (b : Z) : bool := existsb (fun '(lo, hi) => (lo <=? b) && (b <=? hi)) l.

(** The cases of the switch, as ranges. *)
Definition kind_of (b : Z) : opkind :=
  if among [(0x00, 0x03); (0x08, 0x0b); (0x10, 0x13); (0x18, 0x1b); (0x20, 0x23); (0x28, 0x2b); (0x30, 0x33);
            (0x38, 0x3b); (0x62, 0x63); (0x84, 0x8f); (0xc4, 0xc5); (0xd0, 0xd3); (0xd8, 0xdf); (0xfe, 0xff)] b
  then KModrm
  else if b =? 0xcd then KInt
  else if among [(0xf6, 0xf7)] b then KTest
  else if among [(0x04, 0x05); (0x0c, 0x0d); (0x14, 0x15); (0x1c, 0x1d); (0x24, 0x25); (0x2c, 0x2d);
                 (0x34, 0x35); (0x3c, 0x3d)] b then KImm
  else if among [(0x6a, 0x6a); (0xa8, 0xa8); (0xb0, 0xb7); (0xd4, 0xd5); (0xe4, 0xe7); (0x70, 0x7f);
                 (0xeb, 0xeb); (0xe0, 0xe3)] b then KByte
  else if among [(0x26, 0x26); (0x2e, 0x2e); (0x36, 0x36); (0x3e, 0x3e); (0x64, 0x65)] b then KSeg
  else if b =? 0xf0 then KLock
  else if among [(0xf2, 0xf3)] b then KRep
  else if b =? 0x66 then K66
  else if b =? 0x67 then K67
  else if among [(0x6b, 0x6b); (0x80, 0x80); (0x82, 0x83); (0xc0, 0xc1); (0xc6, 0xc6)] b then KByteModrm
  else if among [(0x69, 0x69); (0x81, 0x81); (0xc7, 0xc7)] b then KDataModrm
  else if among [(0x9a, 0x9a); (0xea, 0xea)] b then KFar
  else if among [(0xa0, 0xa3)] b then KMoffs
  else if among [(0x68, 0x68); (0xa9, 0xa9); (0xb8, 0xbf); (0xe8, 0xe9)] b then KData
  else if among [(0xc2, 0xc2); (0xca, 0xca)] b then KWord
  else if b =? 0xc8 then KEnter
  else if b =? 0xf1 then KInvalid
  else if b =? 0x0f then KTwo
  else KPlain.

(** The opcodes behind [0x0f]: the bytes of data they add, as the default size or one, and whether an
    address byte follows. *)
Inductive opkind2 := K2Modrm | K2Plain | K2Data | K2ByteModrm | K2Invalid.
Definition kind2_of (b : Z) : opkind2 :=
  if among [(0x00, 0x03); (0x90, 0x97); (0x98, 0x9f); (0xa3, 0xa3); (0xa5, 0xa5); (0xab, 0xab); (0xad, 0xad);
            (0xaf, 0xaf); (0xb0, 0xb7); (0xbb, 0xbb); (0xbc, 0xbf); (0xc0, 0xc1)] b then K2Modrm
  else if among [(0x06, 0x06); (0x08, 0x0b); (0xa0, 0xa2); (0xa8, 0xaa); (0xc8, 0xcf); (0x31, 0x31)] b then K2Plain
  else if among [(0x80, 0x8f)] b then K2Data
  else if among [(0xa4, 0xa4); (0xac, 0xac); (0xba, 0xba)] b then K2ByteModrm
  else K2Invalid.

Section instruction.
Context (opcode0 : list Z).

(** *** Prefixes and opcode

    The result is an error, or the position behind the opcode, the limit left and the globals. *)
Inductive result := Error | Opcode (pos : nat) (limit : Z) (st : dis_st).

Definition imm (op : Z) (st : dis_st) : dis_st :=
  if truth (Z.land op 1) then add_data (disasm_defdata st) st else add_data 1 st.

Definition two_byte (pos : nat) (limit : Z) (st : dis_st) : option result :=
  let st := add_flag C_OPCODE2 st in
  match opcode0 !! pos with
  | None => None
  | Some b2 =>
    let st := set_codes (disasm_opcode st) b2 (disasm_modrm st) (disasm_sib st) st in
    Some match kind2_of b2 with
         | K2Modrm => Opcode (S pos) limit (add_flag C_MODRM st)
         | K2Plain => Opcode (S pos) limit st
         | K2Data => Opcode (S pos) limit (add_data (disasm_defdata st) st)
         | K2ByteModrm => Opcode (S pos) limit (add_flag C_MODRM (add_data 1 st))
         | K2Invalid => Error
         end
  end.

(** [retry]: a prefix seen before is an error, so that six turns are enough; [interrupted n] tells whether
    Control-C was pressed before turn [n]. *)
Fixpoint opcode_loop (fuel : nat) (interrupted : nat -> bool) (n pos : nat) (limit : Z) (st : dis_st) : option result :=
  match fuel with
  | O => None
  | S fuel' =>
    if limit =? 0 then Some Error
    else
      let limit := s32 (limit - 1) in
      if interrupted n then Some Error
      else
        match opcode0 !! pos with
        | None => None
        | Some op =>
          let st := set_codes op (disasm_opcode2 st) (disasm_modrm st) (disasm_sib st) st in
          let pos := S pos in
          let prefix f st' :=
            if has f st then Some Error else opcode_loop fuel' interrupted (S n) pos limit (add_flag f st') in
          match kind_of op with
          | KModrm => Some (Opcode pos limit (add_flag C_MODRM st))
          | KInt =>
            match opcode0 !! pos with
            | None => None
            | Some b => Some (Opcode pos limit (add_data (if b =? 0x20 then 5 else 1) st))
            end
          | KTest =>
            let st := add_flag C_MODRM st in
            match opcode0 !! pos with
            | None => None
            | Some b => Some (Opcode pos limit (if truth (Z.land b 0x38) then st else imm op st))
            end
          | KImm => Some (Opcode pos limit (imm op st))
          | KByte => Some (Opcode pos limit (add_data 1 st))
          | KSeg => prefix C_SEG (set_prefixes op (disasm_rep st) st)
          | KLock => prefix C_LOCK st
          | KRep => prefix C_REP (set_prefixes (disasm_seg st) op st)
          | K66 => prefix C_66 (set_defs 2 (disasm_defmem st) st)
          | K67 => prefix C_67 (set_defs (disasm_defdata st) 2 st)
          | KByteModrm => Some (Opcode pos limit (add_flag C_MODRM (add_data 1 st)))
          | KDataModrm => Some (Opcode pos limit (add_flag C_MODRM (add_data (disasm_defdata st) st)))
          | KFar => Some (Opcode pos limit (add_data (2 + disasm_defdata st) st))
          | KMoffs => Some (Opcode pos limit (add_mem (disasm_defmem st) st))
          | KData => Some (Opcode pos limit (add_data (disasm_defdata st) st))
          | KWord => Some (Opcode pos limit (add_data 2 st))
          | KEnter => Some (Opcode pos limit (add_data 3 st))
          | KInvalid => Some Error
          | KTwo => two_byte pos limit st
          | KPlain => Some (Opcode pos limit st)
          end
        end
  end.

(** *** The address byte *)
Definition address (pos : nat) (st : dis_st) : option (nat * dis_st) :=
  match opcode0 !! pos with
  | None => None
  | Some modrm =>
    let st := set_codes (disasm_opcode st) (disasm_opcode2 st) modrm (disasm_sib st) st in
    let pos := S pos in
    let m := Z.land modrm 0xc0 in
    let rm := Z.land modrm 0x07 in
    if m =? 0xc0 then Some (pos, st)
    else
      let st := if m =? 0x40 then add_mem 1 st else st in
      let st := if m =? 0x80 then add_mem (disasm_defmem st) st else st in
      if disasm_defmem st =? 2 then
        Some (pos, if (m =? 0) && (rm =? 6) then add_mem 2 st else st)
      else if rm =? 4 then
        match opcode0 !! pos with
        | None => None
        | Some sib =>
          let st := set_codes (disasm_opcode st) (disasm_opcode2 st) modrm sib (add_flag C_SIB st) in
          Some (S pos, if (Z.land sib 7 =? 5) && (m =? 0) then add_mem 4 st else st)
        end
      else Some (pos, if (rm =? 5) && (m =? 0) then add_mem 4 st else st)
  end.

(** [n] bytes from [pos] on into an array of eight. *)
Fixpoint copy_bytes (n : nat) (i pos : nat) (arr : list Z) : option (list Z) :=
  match n with
  | O => Some arr
  | S n' =>
    match opcode0 !! pos with
    | Some b => if (i <? length arr)%nat then copy_bytes n' (S i) (S pos) (<[i := b]> arr) else None
    | None => None
    end
  end.

Definition dis_start (st : dis_st) : dis_st :=
  DisSt 0 0 0 4 4 (disasm_seg st) (disasm_rep st) (disasm_opcode st) (disasm_opcode2 st) (disasm_modrm st)
    (disasm_sib st) (disasm_mem st) (disasm_data st).

(** [dislen]: 0 is an error. *)
Definition dislen (interrupted : nat -> bool) (limit : Z) (st : dis_st) : option Z :=
  match opcode_loop 6 interrupted 0 0 limit (dis_start st) with
  | None => None
  | Some Error => Some 0
  | Some (Opcode pos limit st) =>
    match (if has C_MODRM st then if limit <? 4 then Some None else Some <$> address pos st else Some (Some (pos, st))) with
    | None => None
    | Some None => Some 0
    | Some (Some (pos, st)) =>
      match copy_bytes (Z.to_nat (disasm_memsize st)) 0 pos (disasm_mem st) with
      | None => None
      | Some mem =>
        let pos := (pos + Z.to_nat (disasm_memsize st))%nat in
        match copy_bytes (Z.to_nat (disasm_datasize st)) 0 pos (disasm_data st) with
        | None => None
        | Some data => Some (Z.of_nat (pos + Z.to_nat (disasm_datasize st)))
        end
      end
    end
  end.
End instruction.

(** ** The hack that replaces the instruction under the program counter

    [buf] are the 16 bytes read there; one [nop] is written for each byte of the instruction. *)
Fixpoint fill_nops (n i : nat) (buf : list Z) : option (list Z) :=
  match n with
  | O => Some buf
  | S n' => if (i <? length buf)%nat then fill_nops n' (S i) (<[i := 0x90]> buf) else None
  end.
Definition hack_nop (interrupted : nat -> bool) (st : dis_st) (buf : list Z) : option (list Z) :=
  match dislen buf interrupted 16 st with
  | Some len => fill_nops (Z.to_nat len) 0 buf
  | None => None
  end.

Definition never (_ : nat) : bool := false.
Definition dis_zero : dis_st := DisSt 0 0 0 0 0 0 0 0 0 0 0 (replicate 8 0) (replicate 8 0).
Definition padded (l : list Z) : list Z := (l ++ replicate 16 0)%list.
Example dislen_examples :
  let d l := dislen (padded l) never 64 dis_zero in
  d [0x90] = Some 1 /\ d [0xe8] = Some 5 /\ d [0x0f; 0x84] = Some 6 /\ d [0x66; 0xb8] = Some 4 /\ d [0x8b; 0x45; 0x0c] = Some 3 /\
  d [0xc7; 0x04; 0x24] = Some 7 /\ d [0xf3; 0xf3; 0x90] = Some 0 /\
  d [0xf0; 0xf3; 0x2e; 0x81; 0x84; 0x24] = Some 14.
Proof. by vm_compute. Qed.

(** ** How far the decoder reads *)

(** The number of prefixes seen. *)
Definition prefixes (f : Z) : nat :=
  Nat.b2n (Z.testbit f 0) + Nat.b2n (Z.testbit f 1) + Nat.b2n (Z.testbit f 2) + Nat.b2n (Z.testbit f 3) + Nat.b2n (Z.testbit f 4).

(** Before the opcode is known: the flags are prefixes, and nothing is counted yet. *)
Record scanning (st : dis_st) : Prop := {
  sc_flag : 0 <= disasm_flag st < 32;
  sc_mem : disasm_memsize st = 0;
  sc_data : disasm_datasize st = 0;
  sc_defdata : disasm_defdata st = 2 \/ disasm_defdata st = 4;
  sc_defmem : disasm_defmem st = 2 \/ disasm_defmem st = 4 }.

(** Behind it: what is still to be read fits 16 bytes, six of them behind an address byte. *)
Definition decoded_ok (pos : nat) (st : dis_st) : Prop :=
  0 <= disasm_memsize st <= 4 /\ 0 <= disasm_datasize st <= 6 /\ (disasm_defmem st = 2 \/ disasm_defmem st = 4) /\
  if has C_MODRM st then disasm_memsize st = 0 /\ Z.of_nat pos + disasm_datasize st <= 10
  else Z.of_nat pos + disasm_memsize st + disasm_datasize st <= 16.

Lemma prefixes_add z f :
  0 <= z < 32 -> In f [C_66; C_67; C_LOCK; C_REP; C_SEG] -> truth (Z.land z f) = false ->
  prefixes (Z.lor z f) = S (prefixes z) /\ 0 <= Z.lor z f < 32 /\ (prefixes z < 5)%nat.
Proof.
  intros Hz Hf Hn.
  pose proof (forallb_below (fun z => forallb (fun f => truth (Z.land z f) ||
    ((prefixes (Z.lor z f) =? S (prefixes z))%nat && (0 <=? Z.lor z f) && (Z.lor z f <? 32) && (prefixes z <? 5)%nat))
    [C_66; C_67; C_LOCK; C_REP; C_SEG]) 32 eq_refl z Hz) as H. cbv beta in H.
  rewrite forallb_forall in H. specialize (H f Hf). cbv beta in H. rewrite Hn in H. cbn [orb] in H.
  rewrite !andb_true_iff, Nat.eqb_eq, Nat.ltb_lt in H. lia.
Qed.

Lemma flag_small z : 0 <= z < 64 -> truth (Z.land z C_MODRM) = false.
Proof.
  intros H. pose proof (forallb_below (fun z => negb (truth (Z.land z C_MODRM))) 64 eq_refl z H) as E.
  cbv beta in E. by apply negb_true_iff in E.
Qed.
Lemma flag_two z : 0 <= z < 32 -> 0 <= Z.lor z C_OPCODE2 < 64.
Proof.
  intros H. pose proof (forallb_below (fun z => (0 <=? Z.lor z C_OPCODE2) && (Z.lor z C_OPCODE2 <? 64)) 32 eq_refl z H) as E.
  cbv beta in E. apply andb_true_iff in E. lia.
Qed.
Lemma flag_modrm z : truth (Z.land (Z.lor z C_MODRM) C_MODRM) = true.
Proof.
  rewrite Z.land_lor_distr_l, Z.land_diag. unfold truth. destruct (Z.eqb_spec (Z.lor (Z.land z C_MODRM) C_MODRM) 0) as [E|]; [|done].
  by apply Z.lor_eq_0_iff in E as [_ E].
Qed.

(** What an opcode may add: at most six bytes of data alone, four with an address byte. *)
Lemma decoded_plain pos st :
  0 <= disasm_flag st < 64 -> (disasm_defmem st = 2 \/ disasm_defmem st = 4) ->
  0 <= disasm_memsize st <= 4 -> 0 <= disasm_datasize st <= 6 ->
  Z.of_nat pos + disasm_memsize st + disasm_datasize st <= 16 -> decoded_ok pos st.
Proof. intros. unfold decoded_ok, has. rewrite flag_small by done. auto. Qed.
Lemma decoded_modrm pos st :
  (disasm_defmem st = 2 \/ disasm_defmem st = 4) -> disasm_memsize st = 0 -> 0 <= disasm_datasize st <= 6 ->
  Z.of_nat pos + disasm_datasize st <= 10 -> decoded_ok pos (add_flag C_MODRM st).
Proof. intros ? Hm ??. unfold decoded_ok, has. cbn. rewrite flag_modrm, Hm. split_and!; auto; lia. Qed.

Lemma imm_decoded op pos st :
  scanning st -> (pos <= 6)%nat -> decoded_ok pos (imm op st).
Proof.
  intros [? ? ? ? ?] Hp. unfold imm. destruct (truth _); apply decoded_plain; cbn; lia.
Qed.

Lemma imm_modrm_decoded op pos st :
  scanning st -> (pos <= 6)%nat -> decoded_ok pos (imm op (add_flag C_MODRM st)).
Proof.
  intros [? ? ? ? ?] Hp. unfold imm. destruct (truth _).
  - apply (decoded_modrm pos (add_data (disasm_defdata st) st)); cbn; lia.
  - apply (decoded_modrm pos (add_data 1 st)); cbn; lia.
Qed.

Definition result_ok (r : option result) : Prop :=
  match r with Some Error => True | Some (Opcode pos _ st) => decoded_ok pos st | None => False end.

Lemma two_byte_ok l pos limit st :
  (16 <= length l)%nat -> scanning st -> (pos <= 6)%nat -> result_ok (two_byte l pos limit st).
Proof.
  intros Hl [? ? ? ? ?] Hp. unfold two_byte. destruct (lookup_lt_is_Some_2 l pos) as [b ->]; [lia|].
  pose proof (flag_two (disasm_flag st) ltac:(done)).
  destruct (kind2_of b); cbn [result_ok]; try done;
    (apply decoded_modrm || apply decoded_plain); cbn; lia.
Qed.

(** After a prefix that was not there before. *)
Lemma scanning_prefix f st :
  scanning st -> In f [C_66; C_67; C_LOCK; C_REP; C_SEG] -> has f st = false ->
  scanning (add_flag f st) /\ prefixes (disasm_flag (add_flag f st)) = S (prefixes (disasm_flag st)) /\
  (prefixes (disasm_flag st) < 5)%nat.
Proof.
  intros [Hf ? ? ? ?] Hin Hh. destruct (prefixes_add _ f Hf Hin Hh) as (H1 & H2 & H3).
  split; [|done]. by constructor.
Qed.

Lemma opcode_loop_ok l intr fuel n pos limit st :
  (16 <= length l)%nat -> scanning st -> pos = prefixes (disasm_flag st) -> (5 < fuel + pos)%nat ->
  (pos <= 5)%nat -> result_ok (opcode_loop l fuel intr n pos limit st).
Proof.
  intros Hl. revert n pos limit st. induction fuel as [|fuel IH]; intros n pos limit st Hs Hp Hf Hp5; [lia|].
  cbn [opcode_loop]. destruct (limit =? 0); [done|]. destruct (intr n); [done|].
  destruct (lookup_lt_is_Some_2 l pos) as [op ->]; [lia|].
  set (st1 := set_codes _ _ _ _ _). assert (Hs1 : scanning st1) by (destruct Hs; by constructor).
  assert (Ef : disasm_flag st1 = disasm_flag st) by done. clearbody st1.
  assert (Hpre : forall f st2, In f [C_66; C_67; C_LOCK; C_REP; C_SEG] -> scanning st2 -> disasm_flag st2 = disasm_flag st1 ->
    result_ok (if has f st1 then Some Error else opcode_loop l fuel intr (S n) (S pos) (s32 (limit - 1)) (add_flag f st2))).
  { intros f st2 Hin Hs2 E2. destruct (has f st1) eqn:Eh; [done|].
    assert (Eh2 : has f st2 = false) by (unfold has in *; by rewrite E2).
    destruct (scanning_prefix f st2 Hs2 Hin Eh2) as (H1 & H2 & H3). rewrite E2, Ef in *. apply IH; [done|lia..]. }
  pose proof Hs1 as [? ? ? ? ?].
  destruct (kind_of op); cbn [result_ok]; try done.
  - apply decoded_modrm; cbn; lia.
  - destruct (lookup_lt_is_Some_2 l (S pos)) as [b ->]; [lia|]. cbn. apply decoded_plain; cbn; destruct (b =? 0x20); lia.
  - destruct (lookup_lt_is_Some_2 l (S pos)) as [b ->]; [lia|]. cbn. destruct (truth _).
    + apply decoded_modrm; cbn; lia.
    + by apply imm_modrm_decoded; [|lia].
  - by apply imm_decoded; [|lia].
  - apply decoded_plain; cbn; lia.
  - apply Hpre; [cbn; tauto|by constructor|done].
  - apply Hpre; [cbn; tauto|done|done].
  - apply Hpre; [cbn; tauto|by constructor|done].
  - apply Hpre; [cbn; tauto|constructor; cbn; auto|done].
  - apply Hpre; [cbn; tauto|constructor; cbn; auto|done].
  - apply decoded_modrm; cbn; lia.
  - apply decoded_modrm; cbn; lia.
  - apply decoded_plain; cbn; lia.
  - apply decoded_plain; cbn; lia.
  - apply decoded_plain; cbn; lia.
  - apply decoded_plain; cbn; lia.
  - apply decoded_plain; cbn; lia.
  - apply two_byte_ok; [done..|lia].
  - apply decoded_plain; cbn; lia.
Qed.

(** The address byte is followed by five bytes at most. *)
Lemma address_ok l pos st :
  (16 <= length l)%nat -> decoded_ok pos st -> has C_MODRM st = true ->
  exists pos' st', address l pos st = Some (pos', st') /\
    0 <= disasm_memsize st' <= 4 /\ 0 <= disasm_datasize st' <= 6 /\
    Z.of_nat pos' + disasm_memsize st' + disasm_datasize st' <= 16 /\
    disasm_mem st' = disasm_mem st /\ disasm_data st' = disasm_data st.
Proof.
  unfold decoded_ok. intros Hl (Hm & Hd & Hdef & H) Hh. rewrite Hh in H. destruct H as [Hm0 Hp]. unfold address.
  destruct (lookup_lt_is_Some_2 l pos) as [b ->]; [lia|].
  set (m := Z.land b 0xc0). set (rm := Z.land b 7). cbv zeta. clearbody m rm.
  destruct (Z.eqb_spec m 0xc0); [eexists _, _; split; [done|]; cbn; split_and!; (lia || done)|].
  destruct (Z.eqb_spec m 0x40), (Z.eqb_spec m 0x80), (Z.eqb_spec m 0); try lia; cbn [disasm_defmem set_codes add_mem];
    destruct (Z.eqb_spec (disasm_defmem st) 2), (Z.eqb_spec rm 4), (rm =? 5), (rm =? 6); try lia;
    cbn [andb];
    try (eexists _, _; split; [done|]; cbn; split_and!; (lia || done)).
  all: destruct (lookup_lt_is_Some_2 l (S pos)) as [c ->]; [lia|]; destruct (Z.land c 7 =? 5); cbn [andb];
    (eexists _, _; split; [done|]; cbn; split_and!; (lia || done)).
Qed.

Lemma copy_bytes_ok l n i pos arr :
  (i + n <= length arr)%nat -> (pos + n <= length l)%nat ->
  exists arr', copy_bytes l n i pos arr = Some arr' /\ length arr' = length arr.
Proof.
  revert i pos arr. induction n as [|n IH]; intros i pos arr Ha Hp; [by exists arr|]. cbn [copy_bytes].
  destruct (lookup_lt_is_Some_2 l pos) as [b ->]; [lia|].
  replace (i <? length arr)%nat with true by (symmetry; apply Nat.ltb_lt; lia).
  destruct (IH (S i) (S pos) (<[i := b]> arr)) as (arr' & -> & E); [rewrite length_insert; lia|lia|].
  rewrite length_insert in E. eauto.
Qed.

Lemma opcode_loop_arrays l intr fuel : forall n pos limit st pos' limit' st',
  opcode_loop l fuel intr n pos limit st = Some (Opcode pos' limit' st') ->
  disasm_mem st' = disasm_mem st /\ disasm_data st' = disasm_data st.
Proof.
  induction fuel as [|fuel IH]; intros n pos limit st pos' limit' st'; cbn [opcode_loop]; [done|].
  destruct (limit =? 0); [done|]. destruct (intr n); [done|]. destruct (l !! pos) as [op|]; [|done].
  unfold imm, two_byte. cbv zeta. destruct (kind_of op); repeat case_match; try done;
    first [by intros [= <- <- <-] | by intros ?%IH].
Qed.

(** The two copies at the end of the decoder. *)
Lemma copies_ok l pos st :
  (16 <= length l)%nat -> length (disasm_mem st) = 8%nat -> length (disasm_data st) = 8%nat ->
  0 <= disasm_memsize st <= 4 -> 0 <= disasm_datasize st <= 6 ->
  Z.of_nat pos + disasm_memsize st + disasm_datasize st <= 16 ->
  exists mem data, copy_bytes l (Z.to_nat (disasm_memsize st)) 0 pos (disasm_mem st) = Some mem /\
    copy_bytes l (Z.to_nat (disasm_datasize st)) 0 (pos + Z.to_nat (disasm_memsize st)) (disasm_data st) = Some data.
Proof.
  intros Hl Hm Hd Hms Hds Hp.
  destruct (copy_bytes_ok l (Z.to_nat (disasm_memsize st)) 0 pos (disasm_mem st)) as (mem & -> & _); [lia..|].
  destruct (copy_bytes_ok l (Z.to_nat (disasm_datasize st)) 0 (pos + Z.to_nat (disasm_memsize st)) (disasm_data st))
    as (data & -> & _); [lia..|]. eauto.
Qed.

Lemma dislen_spec l intr limit st :
  (16 <= length l)%nat -> length (disasm_mem st) = 8%nat -> length (disasm_data st) = 8%nat ->
  exists n, dislen l intr limit st = Some n /\ 0 <= n <= 16.
Proof.
  intros Hl Hm Hd. unfold dislen.
  pose proof (opcode_loop_ok l intr 6 0 0 limit (dis_start st) Hl) as H.
  pose proof (opcode_loop_arrays l intr 6 0 0 limit (dis_start st)) as Ha.
  destruct (opcode_loop l 6 intr 0 0 limit (dis_start st)) as [[|pos limit' st']|]; cbn [result_ok] in H.
  - exists 0. split; [done|lia].
  - assert (Hok : decoded_ok pos st') by (apply H; [constructor; cbn; auto; lia|done|lia|lia]).
    destruct (Ha pos limit' st' eq_refl) as [Em Ed]. cbn in Em, Ed.
    destruct (has C_MODRM st') eqn:Eh.
    + destruct (limit' <? 4); [exists 0; split; [done|lia]|].
      destruct (address_ok l pos st' Hl Hok Eh) as (pos2 & st2 & -> & Hms & Hds & Hp & Em2 & Ed2). cbn [fmap option_fmap option_map].
      destruct (copies_ok l pos2 st2) as (mem & data & -> & ->); [congruence..|done|done|done|].
      eexists. split; [done|]. lia.
    + unfold decoded_ok in Hok. rewrite Eh in Hok. destruct Hok as (Hms & Hds & _ & Hp).
      destruct (copies_ok l pos st') as (mem & data & -> & ->); [congruence..|done|done|done|].
      eexists. split; [done|]. lia.
  - exfalso. apply H; [constructor; cbn; auto; lia|done|lia|lia].
Qed.

(** C37: on sixteen bytes or more the decoder returns after six turns at most, with a length of at most
    sixteen, reads no byte behind these and writes none behind its arrays, whatever the bytes, the limit and
    the moment of a Control-C are. *)
Theorem dislen_bounds l intr limit st :
  (16 <= length l)%nat -> length (disasm_mem st) = 8%nat -> length (disasm_data st) = 8%nat ->
  exists n, dislen l intr limit st = Some n /\ 0 <= n <= 16.
Proof. apply dislen_spec. Qed.

Lemma dislen_bounds_witness :
  exists n, dislen (padded [0x66; 0x0f; 0x84]) never 64 dis_zero = Some n /\ 0 <= n <= 16.
Proof. by apply dislen_bounds; [cbn; lia|..]. Defined.

Lemma fill_nops_ok pre mid post :
  fill_nops (length mid) (length pre) (pre ++ mid ++ post) = Some (pre ++ replicate (length mid) 0x90 ++ post)%list.
Proof.
  revert pre. induction mid as [|x mid IH]; intros pre; cbn [length fill_nops]; [done|].
  rewrite !length_app. replace (_ <? _)%nat with true by (symmetry; apply Nat.ltb_lt; cbn; lia).
  rewrite <-(Nat.add_0_r (length pre)) at 2. rewrite insert_app_r. cbn [app insert list_insert].
  pose proof (IH (pre ++ [0x90])%list) as H. rewrite length_app, <-!app_assoc in H. cbn [length app] in H.
  rewrite Nat.add_1_r in H. by rewrite H.
Qed.

(** The hack writes inside its buffer. *)
Lemma hack_nop_safe intr st buf :
  length buf = 16%nat -> length (disasm_mem st) = 8%nat -> length (disasm_data st) = 8%nat ->
  exists n, hack_nop intr st buf = Some (replicate n 0x90 ++ drop n buf)%list /\ (n <= 16)%nat.
Proof.
  intros Hl Hm Hd. unfold hack_nop. destruct (dislen_spec buf intr 16 st) as (n & -> & Hn); [lia|done|done|].
  exists (Z.to_nat n). split; [|lia].
  pose proof (fill_nops_ok [] (take (Z.to_nat n) buf) (drop (Z.to_nat n) buf)) as H. cbn [app length] in H.
  rewrite take_drop, length_take, Nat.min_l in H by lia. done.
Qed.
