(* ===== verification/X86.v ===== *)
(** * The analysis of x86 instructions: [src/arch/x86/code.c], [src/arch/x86/vm.c]

    The bytes are the memory behind the pointer, as a function of the distance.  The registers of the
    virtual machine are the array [vm_arch_x86_regs], which the analysis reads and, for one opcode, writes.
    The length of an instruction comes from the disassembler udis86, another project: it is the argument
    [ud_len]. *)
From S2P Require Import Prelude Arch.
#[local] Open Scope aop_scope.

(** ** Registers *)
Definition VM_X86_EAX : Z := 0.
Definition vm_arch_x86_regs_str : list string := ["eax"; "ecx"; "edx"; "ebx"; "esi"; "edi"; "esp"; "ebp"]%string.
Definition VM_X86_N_REGS : nat := 8.
Definition vm_arch_x86_init : list Z := replicate VM_X86_N_REGS 0.

(** ** Values in the bytes *)
Section aop.
Context (bytes : nat -> Z).

(** [bytes[k]+(bytes[k+1]<<8)+(bytes[k+2]<<16)+(bytes[k+3]<<24)], an [int]. *)
Definition int_at (k : nat) : Z :=
  s32 (bytes k + Z.shiftl (bytes (k + 1)%nat) 8 + Z.shiftl (bytes (k + 2)%nat) 16 + Z.shiftl (bytes (k + 3)%nat) 24).
Definition char_at (k : nat) : Z := s8 (bytes k).

(** ** [arch_x86_aop]

    The opcodes in the order of the switch.  [a] is the cleared structure with the type unknown. *)

(** 8a, 8b and 03 *)
Definition aop_load (a : aop_t) : aop_t :=
  let b := bytes 1%nat in
  if (b =? 0x45) || (b =? 0x46) || (b =? 0x55) then
    a |> set_ref (u64 (- char_at 2)) |> set_stackop AOP_STACK_LOCAL_GET
  else if b =? 0x95 then
    if bytes 2%nat =? 0xe0 then a |> set_ref (u64 (s32 (- int_at 3))) |> set_stackop AOP_STACK_LOCAL_GET else a
  else if b =? 0xbd then a |> set_ref (u64 (s32 (- int_at 2))) |> set_stackop AOP_STACK_LOCAL_GET
  else a.

(** 88 and 89 *)
Definition aop_move (a : aop_t) : aop_t :=
  let b := bytes 1%nat in
  (if (b =? 0x45) || (b =? 0x4d) || (b =? 0x55) then
     a |> set_stackop AOP_STACK_LOCAL_SET |> set_ref (u64 (- char_at 2))
   else if b =? 0x85 then a |> set_stackop AOP_STACK_LOCAL_SET |> set_ref (u64 (s32 (- int_at 2)))
   else if b =? 0x75 then a |> set_stackop AOP_STACK_LOCAL_GET |> set_ref (bytes 2%nat)
   else a) |> set_type AOP_TYPE_MOV |> set_length 2.

(** 0f *)
Definition aop_two (addr : Z) (a : aop_t) : aop_t :=
  let b := bytes 1%nat in
  if b =? 0xbe then a |> set_ref (u64 (- char_at 3)) |> set_stackop AOP_STACK_LOCAL_GET
  else if b =? 0x31 then a |> set_eob false
  else if (0x18 <=? b) && (b <=? 0x1f) then a |> set_type AOP_TYPE_NOP |> set_length 3
  else if (0x80 <=? b) && (b <=? 0x8f) then
    a |> set_type AOP_TYPE_CJMP |> set_jump (u64 (addr + 6 + int_at 2)) |> set_fail (u64 (addr + 6)) |> set_length 6 |> set_eob true
  else a.

(** ff: the registers are indexed by the code of the instruction. *)
Definition aop_ff (addr : Z) (regs : list Z) (a : aop_t) : aop_t :=
  let b := bytes 1%nat in
  let reg base := nth (Z.to_nat (VM_X86_EAX + b - base)) regs 0 in
  if b =? 0x75 then a |> set_type AOP_TYPE_PUSH |> set_stackop AOP_STACK_ARG_GET |> set_ref (u64 (char_at 2))
  else if b =? 0x45 then a |> set_type AOP_TYPE_ADD |> set_stackop AOP_STACK_LOCAL_SET |> set_ref (u64 (- char_at 2))
  else if (0x50 <=? b) && (b <=? 0x6f) then a |> set_type AOP_TYPE_UJMP |> set_eob true
  else if (0xd0 <=? b) && (b <=? 0xd7) then
    a |> set_type AOP_TYPE_CALL |> set_length 2 |> set_eob true |> set_jump (reg 0xd0) |> set_fail (u64 (addr + 2))
  else if (0xd8 <=? b) && (b <=? 0xdf) then
    a |> set_type AOP_TYPE_CALL |> set_length 2 |> set_eob true |> set_jump (reg 0xd8) |> set_fail (u64 (addr + 2))
  else if (0xe0 <=? b) && (b <=? 0xe7) then
    a |> set_type AOP_TYPE_UJMP |> set_length 2 |> set_jump (reg 0xe0) |> set_eob true
  else if (0xe8 <=? b) && (b <=? 0xef) then
    a |> set_type AOP_TYPE_UJMP |> set_length 2 |> set_jump (reg 0xe8) |> set_eob true
  else if (0xf0 <=? b) && (b <=? 0xf7) then a |> set_type AOP_TYPE_UPUSH |> set_ref (u64 (bytes 0%nat - 0xf0))
  else a.

(** 83 *)
Definition aop_83 (a : aop_t) : aop_t :=
  let b := bytes 1%nat in
  if b =? 0xe4 then a |> set_value (bytes 2%nat) |> set_type AOP_TYPE_AND
  else if b =? 0xc4 then a |> set_value (u64 (- bytes 2%nat)) |> set_stackop AOP_STACK_INCSTACK
  else if b =? 0xec then a |> set_value (bytes 2%nat) |> set_stackop AOP_STACK_INCSTACK
  else if b =? 0xbd then
    if bytes 2%nat =? 0xe0 then
      (if 0 <? char_at 2 then a |> set_stackop AOP_STACK_ARG_GET |> set_value (u64 (int_at 3))
       else a |> set_stackop AOP_STACK_LOCAL_GET |> set_value (u64 (int_at 3))) |> set_type AOP_TYPE_CMP
    else a
  else if b =? 0x7d then
    (if 0 <? char_at 2 then a |> set_stackop AOP_STACK_ARG_GET |> set_value (u64 (char_at 2))
     else a |> set_stackop AOP_STACK_LOCAL_GET |> set_value (u64 (- char_at 2))) |> set_type AOP_TYPE_CMP
  else a.

(** c7 *)
Definition aop_c7 (a : aop_t) : aop_t :=
  let b := bytes 1%nat in
  (if b =? 0x85 then a |> set_stackop AOP_STACK_LOCAL_SET |> set_ref (u64 (int_at 2))
   else if b =? 0x45 then a |> set_stackop AOP_STACK_LOCAL_SET |> set_ref (u64 (- char_at 2))
   else if b =? 0x04 then a |> set_ref (u64 (int_at 3))
   else a) |> set_type AOP_TYPE_STORE.

(** The register [eax] behind a1: its low half is the memory at the address, when that can be read. *)
Definition load_eax (mem4 : Z -> option Z) (addr : Z) (regs : list Z) : list Z :=
  let p := u64 (addr + int_at 1) in
  <[Z.to_nat VM_X86_EAX :=
      match mem4 p with Some v => Z.lor (Z.land p 0xffffffff00000000) v | None => p end]> regs.

Definition x86_switch (addr : Z) (regs : list Z) (a : aop_t) : aop_t :=
  let b := bytes 0%nat in
  if (b =? 0x8a) || (b =? 0x8b) || (b =? 0x03) then aop_load a
  else if (b =? 0x88) || (b =? 0x89) then aop_move a
  else if b =? 0xf4 then a |> set_type AOP_TYPE_RET |> set_length 1 |> set_eob true
  else if (b =? 0xc3) || (b =? 0xc2) || (b =? 0xcb) || (b =? 0xcf) then a |> set_type AOP_TYPE_RET |> set_eob true
  else if b =? 0x3b then
    a |> set_ref (u64 (- char_at 2)) |> set_stackop AOP_STACK_LOCAL_GET |> set_type AOP_TYPE_CMP |> set_length 2
  else if (b =? 0x39) || (b =? 0x3c) || (b =? 0x3d) || (b =? 0x85) then a |> set_type AOP_TYPE_CMP |> set_length 2
  else if b =? 0x90 then a |> set_type AOP_TYPE_NOP |> set_length 1
  else if b =? 0x0f then aop_two addr a
  else if b =? 0xcc then a |> set_eob true |> set_length 1 |> set_type AOP_TYPE_SWI
  else if b =? 0xf1 then a |> set_length 1 |> set_type AOP_TYPE_SWI
  else if (0xb8 <=? b) && (b <=? 0xbf) then a |> set_type AOP_TYPE_MOV |> set_ref (u64 (int_at 1))
  else if b =? 0xcd then a |> set_length 2 |> set_type AOP_TYPE_SWI
  else if b =? 0xe8 then
    a |> set_type AOP_TYPE_CALL |> set_length 5 |> set_jump (u64 (addr + 5 + int_at 1)) |> set_fail (u64 (addr + 5))
  else if b =? 0xe9 then
    a |> set_type AOP_TYPE_JMP |> set_length 5 |> set_jump (u64 (addr + 5 + int_at 1)) |> set_fail 0 |> set_eob true
  else if b =? 0xeb then
    a |> set_type AOP_TYPE_JMP |> set_length 2 |> set_jump (u64 (addr + (char_at 1 + 2))) |> set_fail 0 |> set_eob true
  else if (b =? 0xf2) || (b =? 0xf3) then a |> set_type AOP_TYPE_REP |> set_jump 0 |> set_fail 0
  else if b =? 0xff then aop_ff addr regs a
  else if (0x50 <=? b) && (b <=? 0x59) then a |> set_type AOP_TYPE_UPUSH |> set_ref (u64 (b - 0x50))
  else if (0x5a <=? b) && (b <=? 0x5f) then a |> set_type AOP_TYPE_POP |> set_length 1
  else if b =? 0x68 then a |> set_type AOP_TYPE_PUSH |> set_ref (u64 (int_at 1))
  else if b =? 0x81 then
    if bytes 1%nat =? 0xec then a |> set_value (u64 (int_at 2)) |> set_stackop AOP_STACK_INCSTACK
    else a |> set_type AOP_TYPE_ADD
  else if b =? 0x83 then aop_83 a
  else if b =? 0x8d then
    (if bytes 1%nat =? 0x85 then a |> set_ref (u64 (s32 (- int_at 2))) |> set_stackop AOP_STACK_LOCAL_GET else a)
      |> set_type AOP_TYPE_MOV
  else if b =? 0xc7 then aop_c7 a
  else if b =? 0x82 then a |> set_type AOP_TYPE_ADD
  else if b =? 0x29 then a |> set_type AOP_TYPE_SUB
  else if b =? 0x31 then a |> set_type AOP_TYPE_XOR
  else if b =? 0x32 then a |> set_type AOP_TYPE_AND
  else if b =? 0xa1 then a |> set_type AOP_TYPE_MOV
  else if (0x70 <=? b) && (b <=? 0x7f) then
    a |> set_type AOP_TYPE_CJMP |> set_length 2 |> set_jump (u64 (addr + char_at 1 + 2)) |> set_fail (u64 (addr + 2)) |> set_eob true
  else a.

(** The result is the structure, whose length is the one returned, and the registers. *)
Definition arch_x86_aop (ud_len : Z -> Z -> Z) (bits : Z) (mem4 : Z -> option Z) (addr : Z) (regs : list Z) : aop_t * list Z :=
  let a := set_type AOP_TYPE_UNK aop_zero in
  let a := x86_switch addr regs a in
  (set_length (ud_len bits addr) a, if bytes 0%nat =? 0xa1 then load_eax mem4 addr regs else regs).
End aop.

(** Instructions as lists, with zeros behind. *)
Definition code (l : list Z) : nat -> Z := fun k => nth k l 0.

Example aop_call : let a := x86_switch (code [0xe8; 0xfb; 0xff; 0xff; 0xff]) 0x1000 [] aop_zero in
  a_type a = AOP_TYPE_CALL /\ a_jump a = 0x1000 /\ a_fail a = 0x1005.
Proof. by vm_compute. Qed.
(** [pop eax] is taken for a push. *)
Example aop_pop_eax : a_type (x86_switch (code [0x58]) 0 [] aop_zero) = AOP_TYPE_UPUSH.
Proof. done. Qed.
(** [call esp] is followed to the value of [esi]. *)
Example aop_call_esp regs : a_jump (x86_switch (code [0xff; 0xd4]) 0 regs aop_zero) = nth 4 regs 0 /\
  nth 4 vm_arch_x86_regs_str ""%string = "esi"%string.
Proof. done. Qed.
