(* ===== verification/Hack.v ===== *)
(** * Patching the instruction under the program counter: [src/dbg/arch/i386-hack.c]

    The command [!hack] reads the bytes at the program counter of the process into a buffer, changes them
    and writes them back.  The memory is the interface [Target] of [Bp], the length of an instruction is
    [Dislen]'s, and [X86] says what an instruction does before and after.  Reading and writing the process
    always succeed. *)
From S2P Require Import Prelude Arch Bp Dislen X86.
#[local] Open Scope string_scope.
#[local] Open Scope Z_scope.

(** The two-byte opcodes: the second byte of the opposite jump. *)
Definition negate_long (b : Z) : Z :=
  if b =? 0x84 then 0x85 else if b =? 0x85 then 0x84
  else if (b =? 0x8e) || (b =? 0x86) then 0x8f
  else if (b =? 0x87) || (b =? 0x8f) then 0x86
  else if b =? 0x88 then 0x89 else if b =? 0x89 then 0x88
  else if b =? 0x8a then 0x8b else if b =? 0x8b then 0x8a
  else if b =? 0x8c then 0x8d else if b =? 0x8d then 0x8c
  else b.

Definition negate_short (b : Z) : Z :=
  if b =? 0x70 then 0x71 else if b =? 0x71 then 0x70 else if b =? 0x72 then 0x73 else if b =? 0x73 then 0x72
  else if b =? 0x75 then 0x74 else if b =? 0x74 then 0x75 else if b =? 0x76 then 0x77 else if b =? 0x77 then 0x76
  else if b =? 0x78 then 0x79 else if b =? 0x79 then 0x78 else if b =? 0x7a then 0x7b else if b =? 0x7b then 0x7a
  else if b =? 0x7c then 0x7d else if b =? 0x7d then 0x7c else if b =? 0x7e then 0x7f else if b =? 0x7f then 0x7e
  else b.

(** [1]: negate a jump *)
Definition negate (buf : list Z) : list Z :=
  match buf with
  | b0 :: b1 :: r => if b0 =? 0x0f then b0 :: negate_long b1 :: r else negate_short b0 :: b1 :: r
  | _ => buf
  end.

(** [2]: force a jump *)
Definition force (buf : list Z) : list Z :=
  match buf with
  | b0 :: b1 :: r => if (b0 =? 0x0f) && ((0x80 <=? b1) && (b1 <? 0x8f)) then 0x90 :: 0xe9 :: r else buf
  | _ => buf
  end.

(** [5] and [6]: return, and return zero *)
Definition put (l buf : list Z) : list Z := (l ++ drop (length l) buf)%list.

(** [7]: negate the zero flag, in 32 bits *)
Definition negate_zero (eflags : Z) : Z :=
  if truth (Z.land eflags (Z.shiftl 1 6)) then Z.land eflags 0xffffffbf else Z.lor eflags (Z.shiftl 1 6).

Section hack.
Context {T : Type} `{!Target T}.
Context (interrupted : nat -> bool).

Definition patch (n : nat) (f : list Z -> list Z) (eip : Z) (t : T) : T := t_write (f (t_read eip n t)) eip t.

(** [arch_hack]: the flags of the processor and the memory after the command.  No command prints the help. *)
Definition arch_hack (cmd : option string) (eip eflags : Z) (st : dis_st) (t : T) : option (Z * T) :=
  match cmd with
  | None => Some (eflags, t)
  | Some cmd =>
    let cmd := if starts_with " " cmd then str_drop 1 cmd else cmd in
    match cmd with
    | "" => Some (eflags, t)
    | String c _ =>
      if Ascii.eqb c "0" then
        match hack_nop interrupted st (t_read eip 16 t) with
        | Some buf => Some (eflags, t_write buf eip t)
        | None => None
        end
      else if Ascii.eqb c "1" then Some (eflags, patch 4 negate eip t)
      else if Ascii.eqb c "2" then Some (eflags, patch 5 force eip t)
      else if Ascii.eqb c "5" then Some (eflags, patch 4 (put [0xc3]) eip t)
      else if Ascii.eqb c "6" then Some (eflags, patch 4 (put [0x31; 0xc0; 0xc3]) eip t)
      else if Ascii.eqb c "7" then Some (negate_zero eflags, t)
      else if Ascii.eqb c "8" then Some (eflags, t_write [0xeb; 0xfe] eip t)
      else Some (eflags, t)
    end
  end.

(** The instruction at an address, as the analysis sees it. *)
Definition bytes_at (t : T) (a : Z) : nat -> Z := fun k => t_byte t (a + Z.of_nat k).
Definition insn_at (t : T) (regs : list Z) (a : Z) : aop_t := x86_switch (bytes_at t a) a regs (set_type AOP_TYPE_UNK aop_zero).

(** ** What is read and written *)
Lemma t_read_bytes a n (t : T) : t_read a n t = bytes_at t a <$> seq 0 n.
Proof.
  apply list_eq. intros i. rewrite list_lookup_fmap. destruct (Nat.lt_ge_cases i n).
  - by rewrite t_read_lookup, lookup_seq_lt.
  - rewrite lookup_ge_None_2 by (by rewrite t_read_length). by rewrite lookup_seq_ge.
Qed.

Lemma patch_byte n f eip (t : T) x :
  length (f (t_read eip n t)) = n ->
  t_byte (patch n f eip t) x = default (t_byte t x) (if eip <=? x then f (t_read eip n t) !! Z.to_nat (x - eip) else None).
Proof. intros _. apply t_write_byte. Qed.

(** ** Negating jumps *)
Definition negate_ok (b : Z) : bool := Z.eqb (negate_short (negate_short b)) b.
Lemma negate_short_twice b : 0 <= b < 256 -> negate_short (negate_short b) = b.
Proof. intros Hb. apply Z.eqb_eq. exact (forallb_below negate_ok 256 eq_refl b Hb). Qed.

Definition same_short (b : Z) : bool :=
  if (0x70 <=? b) && (b <=? 0x7f) then negate_short b =? Z.lxor b 1 else negate_short b =? b.
Lemma negate_short_lxor b : 0 <= b < 256 -> negate_short b = if (0x70 <=? b) && (b <=? 0x7f) then Z.lxor b 1 else b.
Proof.
  intros Hb. pose proof (forallb_below same_short 256 eq_refl b Hb) as H. unfold same_short in H.
  destruct (_ && _); by apply Z.eqb_eq.
Qed.

Definition keeps_0f (b : Z) : bool := Bool.eqb (negate_short b =? 0x0f) (b =? 0x0f).
Lemma negate_short_0f b : 0 <= b < 256 -> (negate_short b =? 0x0f) = (b =? 0x0f).
Proof. intros Hb. apply Bool.eqb_prop. exact (forallb_below keeps_0f 256 eq_refl b Hb). Qed.

(** The long jumps that do not come back. *)
Definition wrong_long (b : Z) : bool := (b =? 0x87) || (b =? 0x8e).
Definition negate_long_ok (b : Z) : bool := Bool.eqb (negate_long (negate_long b) =? b) (negb (wrong_long b)).
Lemma negate_long_twice b : 0 <= b < 256 -> negate_long (negate_long b) = b <-> wrong_long b = false.
Proof.
  intros Hb. pose proof (forallb_below negate_long_ok 256 eq_refl b Hb) as H. apply Bool.eqb_prop in H.
  rewrite <-Z.eqb_eq, H. by destruct (wrong_long b).
Qed.

(** ** The memory after a patch *)
Lemma patch_bytes n f eip (t : T) x :
  (forall l, length (f l) = length l) ->
  t_byte (patch n f eip t) x =
    if (eip <=? x) && (x <? eip + Z.of_nat n) then default 0 (f (t_read eip n t) !! Z.to_nat (x - eip)) else t_byte t x.
Proof.
  intros Hf. unfold patch. rewrite t_write_byte. destruct (Z.leb_spec eip x); [|done]. cbn [andb].
  destruct (Z.ltb_spec x (eip + Z.of_nat n)).
  - destruct (lookup_lt_is_Some_2 (f (t_read eip n t)) (Z.to_nat (x - eip))) as [v ->]; [|done].
    rewrite Hf, t_read_length. lia.
  - rewrite lookup_ge_None_2; [done|]. rewrite Hf, t_read_length. lia.
Qed.

Lemma length_negate l : length (negate l) = length l.
Proof. destruct l as [|a [|b l]]; [done..|]. cbn [negate]. by destruct (a =? 0x0f). Qed.
Lemma length_force l : length (force l) = length l.
Proof. destruct l as [|a [|b l]]; [done..|]. cbn [force]. by destruct (_ && _). Qed.

(** The bytes of the memory after each of the two patches. *)
Definition negate_at (b0 b1 : Z) : Z * Z := if b0 =? 0x0f then (b0, negate_long b1) else (negate_short b0, b1).
Definition force_at (b0 b1 : Z) : Z * Z := if (b0 =? 0x0f) && ((0x80 <=? b1) && (b1 <? 0x8f)) then (0x90, 0xe9) else (b0, b1).

Lemma two_bytes (g : Z -> Z -> Z * Z) f n eip (t : T) x :
  (2 <= n)%nat -> (forall a b l, f (a :: b :: l) = (g a b).1 :: (g a b).2 :: l) -> (forall l, length (f l) = length l) ->
  t_byte (patch n f eip t) x =
    let p := g (t_byte t eip) (t_byte t (eip + 1)) in
    if x =? eip then p.1 else if x =? eip + 1 then p.2 else t_byte t x.
Proof.
  intros Hn Hf Hl. rewrite patch_bytes by done.
  assert (E : t_read eip n t = t_byte t eip :: t_byte t (eip + 1) :: drop 2 (t_read eip n t)).
  { rewrite t_read_bytes. destruct n as [|[|n]]; [lia..|]. cbn [seq fmap list_fmap drop]. unfold bytes_at. do 2 f_equal; f_equal; lia. }
  rewrite E, Hf. cbv zeta. destruct (Z.eqb_spec x eip) as [->|].
  { replace (_ && _) with true by lia. by rewrite Z.sub_diag. }
  destruct (Z.eqb_spec x (eip + 1)) as [->|].
  { replace (_ && _) with true by lia. by replace (Z.to_nat (eip + 1 - eip)) with 1%nat by lia. }
  destruct (Z.leb_spec eip x); [|done]. destruct (Z.ltb_spec x (eip + Z.of_nat n)); [|done]. cbn [andb].
  replace (Z.to_nat (x - eip)) with (2 + (Z.to_nat (x - eip) - 2))%nat by lia.
  change (default 0 (drop 2 (t_read eip n t) !! (Z.to_nat (x - eip) - 2)%nat) = t_byte t x). rewrite lookup_drop, t_read_lookup by lia. unfold default. cbn [from_option]. unfold id. f_equal. lia.
Qed.

Lemma negate_byte eip (t : T) x :
  t_byte (patch 4 negate eip t) x =
    let p := negate_at (t_byte t eip) (t_byte t (eip + 1)) in
    if x =? eip then p.1 else if x =? eip + 1 then p.2 else t_byte t x.
Proof.
  apply (two_bytes negate_at); [lia| |apply length_negate]. intros a b l. unfold negate_at. cbn [negate]. by destruct (a =? 0x0f).
Qed.
Lemma force_byte eip (t : T) x :
  t_byte (patch 5 force eip t) x =
    let p := force_at (t_byte t eip) (t_byte t (eip + 1)) in
    if x =? eip then p.1 else if x =? eip + 1 then p.2 else t_byte t x.
Proof.
  apply (two_bytes force_at); [lia| |apply length_force]. intros a b l. unfold force_at. cbn [force]. by destruct (_ && _).
Qed.

(** A conditional jump, by its first two bytes. *)
Definition is_cond (b0 b1 : Z) : bool :=
  ((0x70 <=? b0) && (b0 <=? 0x7f)) || ((b0 =? 0x0f) && ((0x80 <=? b1) && (b1 <=? 0x8f))).

Lemma long_stays b : 0x80 <= b <= 0x8f -> 0x80 <= negate_long b <= 0x8f.
Proof. intros Hb. unfold negate_long. repeat case_match; lia. Qed.

Lemma switch_short b addr regs a :
  0x70 <= b 0%nat <= 0x7f ->
  x86_switch b addr regs a =
    (a |> set_type AOP_TYPE_CJMP |> set_length 2 |> set_jump (u64 (addr + char_at b 1 + 2)) |> set_fail (u64 (addr + 2)) |> set_eob true)%aop.
Proof.
  intros Hb. unfold x86_switch.
  assert (E : forall n, ~ (0x70 <= n <= 0x7f) -> (b 0%nat =? n) = false) by (intros; lia).
  rewrite !E by lia. cbn [orb].
  replace ((0xb8 <=? b 0%nat) && (b 0%nat <=? 0xbf)) with false by lia.
  replace ((0x50 <=? b 0%nat) && (b 0%nat <=? 0x59)) with false by lia.
  replace ((0x5a <=? b 0%nat) && (b 0%nat <=? 0x5f)) with false by lia.
  by replace ((0x70 <=? b 0%nat) && (b 0%nat <=? 0x7f)) with true by lia.
Qed.

Lemma switch_long b addr regs a :
  b 0%nat = 0x0f -> 0x80 <= b 1%nat <= 0x8f ->
  x86_switch b addr regs a =
    (a |> set_type AOP_TYPE_CJMP |> set_jump (u64 (addr + 6 + int_at b 2)) |> set_fail (u64 (addr + 6)) |> set_length 6 |> set_eob true)%aop.
Proof.
  intros Hb Hb1. unfold x86_switch. rewrite Hb. cbn [Z.eqb Pos.eqb orb]. unfold aop_two.
  replace (b 1%nat =? 0xbe) with false by lia. replace (b 1%nat =? 0x31) with false by lia.
  replace ((0x18 <=? b 1%nat) && (b 1%nat <=? 0x1f)) with false by lia.
  by replace ((0x80 <=? b 1%nat) && (b 1%nat <=? 0x8f)) with true by lia.
Qed.

(** The negated jump is the same jump for the analysis. *)
Lemma negate_same regs eip (t : T) :
  is_cond (t_byte t eip) (t_byte t (eip + 1)) = true -> insn_at (patch 4 negate eip t) regs eip = insn_at t regs eip.
Proof.
  intros Hc. unfold insn_at. set (a := set_type AOP_TYPE_UNK aop_zero).
  assert (E0 : bytes_at t eip 0 = t_byte t eip) by (unfold bytes_at; f_equal; lia).
  assert (E1 : bytes_at t eip 1 = t_byte t (eip + 1)) by (unfold bytes_at; f_equal; lia).
  set (t' := patch 4 negate eip t).
  assert (N0 : bytes_at t' eip 0 = (negate_at (t_byte t eip) (t_byte t (eip + 1))).1).
  { unfold bytes_at, t'. rewrite negate_byte. by rewrite Z.add_0_r, Z.eqb_refl. }
  assert (N1 : bytes_at t' eip 1 = (negate_at (t_byte t eip) (t_byte t (eip + 1))).2).
  { unfold bytes_at, t'. rewrite negate_byte. cbv zeta.
    rewrite (proj2 (Z.eqb_neq (eip + Z.of_nat 1) eip)) by lia. by rewrite Z.eqb_refl. }
  assert (N2 : forall k, (2 <= k)%nat -> bytes_at t' eip k = bytes_at t eip k).
  { intros k Hk. unfold bytes_at, t'. rewrite negate_byte. cbv zeta.
    by rewrite (proj2 (Z.eqb_neq (eip + Z.of_nat k) eip)), (proj2 (Z.eqb_neq (eip + Z.of_nat k) (eip + 1))) by lia. }
  clearbody t'. unfold negate_at in N0, N1. unfold is_cond in Hc. destruct (Z.eqb_spec (t_byte t eip) 0x0f) as [E|]; cbn [fst snd] in *.
  - assert (Hl : 0x80 <= t_byte t (eip + 1) <= 0x8f) by lia. pose proof (long_stays _ Hl). rewrite !switch_long by lia.
    unfold int_at. by rewrite !N2 by lia.
  - assert (0x70 <= t_byte t eip <= 0x7f) by lia.
    assert (0x70 <= negate_short (t_byte t eip) <= 0x7f) by (unfold negate_short; repeat case_match; lia).
    rewrite !switch_short by lia. unfold char_at. by rewrite N1, E1.
Qed.

Lemma hack_one eip eflags st (t : T) : arch_hack (Some "1") eip eflags st t = Some (eflags, patch 4 negate eip t).
Proof. done. Qed.

(** Negating the jump under the program counter changes nothing the analysis sees of it, and negating
    it again restores the memory -- unless it is one of the long jumps [ja] (0f 87) and [jle] (0f 8e), which
    come back as another jump. *)
Theorem hack_negate_twice regs eip eflags st (t : T) :
  (forall x, 0 <= t_byte t x < 256) ->
  exists t1 t2, arch_hack (Some "1") eip eflags st t = Some (eflags, t1) /\ arch_hack (Some "1") eip eflags st t1 = Some (eflags, t2) /\
    (is_cond (t_byte t eip) (t_byte t (eip + 1)) = true -> insn_at t1 regs eip = insn_at t regs eip) /\
    ((forall x, t_byte t2 x = t_byte t x) <-> (t_byte t eip = 0x0f -> wrong_long (t_byte t (eip + 1)) = false)).
Proof.
  intros Hb. rewrite !hack_one. eexists _, _. split; [done|]. rewrite hack_one. split; [done|]. split; [apply negate_same|].
  pose proof (Hb eip) as H0. pose proof (Hb (eip + 1)) as H1.
  assert (E : forall x, t_byte (patch 4 negate eip (patch 4 negate eip t)) x =
    if x =? eip then negate_short (negate_short (t_byte t eip))
    else if x =? eip + 1 then if t_byte t eip =? 0x0f then negate_long (negate_long (t_byte t (eip + 1))) else t_byte t x
    else t_byte t x).
  { intros x. rewrite negate_byte, !negate_byte. cbv zeta. rewrite Z.eqb_refl. replace (eip + 1 =? eip) with false by lia.
    rewrite Z.eqb_refl. unfold negate_at.
    destruct (Z.eqb_spec (t_byte t eip) 0x0f) as [Ee|Ne]; cbn [fst snd].
    - rewrite !Ee. cbn. destruct (x =? eip); [done|]. by destruct (x =? eip + 1).
    - rewrite negate_short_0f, (proj2 (Z.eqb_neq _ _) Ne) by done. cbn [fst snd].
      destruct (x =? eip); [done|]. destruct (Z.eqb_spec x (eip + 1)) as [->|]; done. }
  split.
  - intros H Ee. specialize (H (eip + 1)). rewrite E, Ee in H. replace (eip + 1 =? eip) with false in H by lia. rewrite !Z.eqb_refl in H.
    by apply negate_long_twice.
  - intros H x. rewrite E. destruct (Z.eqb_spec x eip) as [->|]; [by apply negate_short_twice|].
    destruct (Z.eqb_spec x (eip + 1)) as [->|]; [|done]. destruct (Z.eqb_spec (t_byte t eip) 0x0f); [|done].
    apply negate_long_twice; auto.
Qed.

(** ** Forcing jumps *)
Lemma switch_jmp b addr regs a :
  b 0%nat = 0xe9 ->
  x86_switch b addr regs a =
    (a |> set_type AOP_TYPE_JMP |> set_length 5 |> set_jump (u64 (addr + 5 + int_at b 1)) |> set_fail 0 |> set_eob true)%aop.
Proof. intros Hb. unfold x86_switch. by rewrite Hb. Qed.

(** Forcing a long conditional jump, other than [jg] (0f 8f), leaves an instruction of one byte that does
    nothing and behind it a jump to the place the conditional jump could go to; any other bytes stay. *)
Theorem hack_force_jump regs eip eflags st (t : T) :
  exists t1, arch_hack (Some "2") eip eflags st t = Some (eflags, t1) /\
    if (t_byte t eip =? 0x0f) && ((0x80 <=? t_byte t (eip + 1)) && (t_byte t (eip + 1) <? 0x8f)) then
      a_type (insn_at t regs eip) = AOP_TYPE_CJMP /\
      a_type (insn_at t1 regs eip) = AOP_TYPE_NOP /\ a_length (insn_at t1 regs eip) = 1 /\
      a_type (insn_at t1 regs (eip + 1)) = AOP_TYPE_JMP /\
      a_jump (insn_at t1 regs (eip + 1)) = a_jump (insn_at t regs eip) /\
      (forall x, x < eip \/ eip + 1 < x -> t_byte t1 x = t_byte t x)
    else forall x, t_byte t1 x = t_byte t x.
Proof.
  exists (patch 5 force eip t). split; [done|]. pose proof (force_byte eip t) as F. set (t1 := patch 5 force eip t) in *. clearbody t1.
  unfold force_at in F. destruct (_ && _) eqn:Ec.
  - cbn [fst snd] in F.
    assert (F0 : t_byte t1 eip = 0x90) by (rewrite F; by rewrite Z.eqb_refl).
    assert (F1 : t_byte t1 (eip + 1) = 0xe9)
      by (rewrite F, (proj2 (Z.eqb_neq (eip + 1) eip)), Z.eqb_refl by lia; done).
    assert (F2 : forall x, x < eip \/ eip + 1 < x -> t_byte t1 x = t_byte t x)
      by (intros x Hx; by rewrite F, (proj2 (Z.eqb_neq x eip)), (proj2 (Z.eqb_neq x (eip + 1))) by lia).
    assert (E0 : bytes_at t eip 0 = t_byte t eip) by (unfold bytes_at; f_equal; lia).
    assert (E1 : bytes_at t eip 1 = t_byte t (eip + 1)) by (unfold bytes_at; f_equal; lia).
    unfold insn_at. rewrite (switch_long (bytes_at t eip)) by lia.
    assert (N : bytes_at t1 eip 0 = 0x90) by (unfold bytes_at; by rewrite Z.add_0_r).
    assert (J : bytes_at t1 (eip + 1) 0 = 0xe9) by (unfold bytes_at; by rewrite Z.add_0_r).
    rewrite (switch_jmp (bytes_at t1 (eip + 1))) by done. unfold x86_switch. rewrite N.
    cbn [Z.eqb Pos.eqb orb]. split_and!; try done. cbn. unfold int_at. f_equal.
    replace (eip + 1 + 5) with (eip + 6) by lia. f_equal.
    assert (B : forall j k, k = S j -> (1 <= j)%nat -> bytes_at t1 (eip + 1) j = bytes_at t eip k)
      by (intros j k -> Hk; unfold bytes_at; rewrite F2 by lia; f_equal; lia).
    cbn [plus]. by rewrite (B 1%nat 2%nat), (B 2%nat 3%nat), (B 3%nat 4%nat), (B 4%nat 5%nat) by lia.
  - cbn [fst snd] in F. intros x. rewrite F. destruct (Z.eqb_spec x eip) as [->|]; [done|]. by destruct (Z.eqb_spec x (eip + 1)) as [->|].
Qed.

(** [7]: the zero flag is turned over, and turned back the second time. *)
Lemma negate_zero_bit f i : is_u32 f -> 0 <= i -> Z.testbit (negate_zero f) i = xorb (Z.testbit f i) (i =? 6).
Proof.
  intros Hf Hi. unfold is_u32 in Hf. unfold negate_zero.
  assert (Et : truth (Z.land f (Z.shiftl 1 6)) = Z.testbit f 6).
  { unfold truth. replace (Z.land f (Z.shiftl 1 6)) with (if Z.testbit f 6 then 2^6 else 0); [by destruct (Z.testbit f 6)|].
    apply Z.bits_inj'. intros j Hj. rewrite Z.land_spec, Z.shiftl_1_l. destruct (Z.eq_dec j 6) as [->|Hne].
    - rewrite Z.pow2_bits_true, andb_true_r by lia. by destruct (Z.testbit f 6).
    - rewrite (Z.pow2_bits_false 6) by done. rewrite andb_false_r. destruct (Z.testbit f 6); [by apply Z.pow2_bits_false|apply Z.bits_0]. }
  rewrite Et. destruct (Z.testbit f 6) eqn:E6.
  - change 0xffffffbf with (Z.lxor (Z.ones 32) (2^6)). rewrite Z.land_spec, Z.lxor_spec, Z.pow2_bits_eqb by lia.
    rewrite (Z.eqb_sym 6 i). destruct (Z.lt_ge_cases i 32).
    + rewrite Z.ones_spec_low by lia. destruct (Z.eqb_spec i 6) as [->|]; [by rewrite E6|].
      by rewrite xorb_false_r, andb_true_r, xorb_false_r.
    + rewrite <-(Z.mod_small f (2^32)), Z.mod_pow2_bits_high by lia. by rewrite (proj2 (Z.eqb_neq i 6)) by lia.
  - rewrite Z.lor_spec, Z.shiftl_1_l, Z.pow2_bits_eqb by lia. rewrite (Z.eqb_sym 6 i).
    destruct (Z.eqb_spec i 6) as [->|]; [by rewrite E6|]. by rewrite orb_false_r, xorb_false_r.
Qed.
End hack.

Lemma hack_negate_twice_witness :
  let t : Z -> Z := fun x => if x =? 0x1000 then 0x74 else 0x10 in
  exists t1 t2, arch_hack never (Some "1") 0x1000 0 dis_zero t = Some (0, t1) /\
    arch_hack never (Some "1") 0x1000 0 dis_zero t1 = Some (0, t2) /\
    (is_cond (t_byte t 0x1000) (t_byte t (0x1000 + 1)) = true -> insn_at t1 [] 0x1000 = insn_at t [] 0x1000) /\
    ((forall x, t_byte t2 x = t_byte t x) <-> (t_byte t 0x1000 = 0x0f -> wrong_long (t_byte t (0x1000 + 1)) = false)).
Proof. cbv zeta. apply hack_negate_twice. intros x. cbn. destruct (x =? 0x1000); lia. Defined.

(** [ja] comes back as [jg]. *)
Example hack_ja : negate_long (negate_long 0x87) = 0x8f.
Proof. done. Qed.
