(* ===== verification/Aops.v ===== *)
(** * The analysis of PowerPC, ARM, MIPS, SPARC and Z80 instructions: [src/arch/*/code.c]

    As in [X86] the bytes are a function of the distance from the pointer.  Reading memory, flags and the
    length of a Z80 opcode are arguments. *)
From S2P Require Import Prelude Arch.
#[local] Open Scope aop_scope.

(** Four bytes as a little-endian word. *)
Definition word_le (bytes : nat -> Z) : Z :=
  bytes 0%nat + Z.shiftl (bytes 1%nat) 8 + Z.shiftl (bytes 2%nat) 16 + Z.shiftl (bytes 3%nat) 24.

Module Ppc.

Section aop.
Context (addr : Z) (bytes : nat -> Z).

Definition opcode : Z := Z.shiftr (Z.land (bytes 0%nat) 0xf8) 3.
Definition baddr : Z := s16 (Z.lor (Z.shiftl (bytes 2%nat) 8) (Z.land (bytes 3%nat) 0xfc)).
Definition aa : bool := truth (Z.land (bytes 3%nat) 2).
Definition lk : bool := truth (Z.land (bytes 3%nat) 1).

Definition arch_ppc_aop : aop_t :=
  let a := aop_zero |> set_type AOP_TYPE_NOP |> set_length 4 in
  let target d := u64 (if aa then baddr else addr + baddr + d) in
  if opcode =? 11 then a |> set_type AOP_TYPE_CMP
  else if opcode =? 9 then
    (if bytes 0%nat =? 0x4e then a
     else let a := a |> set_jump (target 0) in if lk then a |> set_fail (u64 (addr + 4)) else a) |> set_eob true
  else if opcode =? 6 then a |> set_type AOP_TYPE_JMP |> set_jump (target 4) |> set_eob true
  else if opcode =? 7 then a |> set_type AOP_TYPE_SWI
  else if opcode =? 8 then
    a |> set_type AOP_TYPE_CJMP |> set_jump (target 4) |> set_fail (u64 (addr + 4)) |> set_eob true
  else if opcode =? 19 then
    let a := a |> set_type AOP_TYPE_RET in
    (if lk then a |> set_jump 0xffffffff |> set_fail (u64 (addr + 4)) else a) |> set_eob true
  else a.
End aop.
End Ppc.

Module Arm.
Definition ARM_COND_AL : Z := 0xe0000000.
Definition ARM_COND_MASK : Z := 0xf0000000.
Definition ARM_BRANCH_I : Z := 0x0a000000.
Definition ARM_BRANCH_I_MASK : Z := 0x0e000000.
Definition ARM_BRANCH_LINK : Z := 0x01000000.
Definition ARM_DTX_I : Z := 0x04000000.
Definition ARM_DTX_LOAD : Z := 0x00100000.
Definition ARM_DTX_RD_MASK : Z := 0xf000.
Definition ARM_DTM_I : Z := 0x08000000.
Definition ARM_DTM_I_MASK : Z := 0x0e000000.
Definition ARM_DTM_LOAD : Z := 0x00100000.
Definition ARM_PC : Z := 15.

Definition disarm_branch_offset (pc insoff : Z) : Z :=
  let add := u32 (Z.shiftl insoff 2) in
  let add := if Z.land add 0x02000000 =? 0x02000000 then Z.lor add 0xfc000000 else add in
  u32 (add + pc + 8).

Definition anal_is_B (inst : Z) : bool := Z.land inst ARM_BRANCH_I_MASK =? ARM_BRANCH_I.
Definition anal_is_BL (inst : Z) : bool := anal_is_B inst && (Z.land inst ARM_BRANCH_LINK =? ARM_BRANCH_LINK).
Definition anal_is_return (inst : Z) : bool :=
  Z.land inst (Z.lor (Z.lor ARM_DTM_I_MASK ARM_DTM_LOAD) (Z.shiftl 1 15)) =?
    Z.lor (Z.lor ARM_DTM_I ARM_DTM_LOAD) (Z.shiftl 1 15).
(** The instruction is not part of the comparison. *)
Definition anal_is_unkjmp (inst : Z) : bool :=
  ARM_DTX_RD_MASK =? Z.lor (Z.lor ARM_DTX_LOAD ARM_DTX_I) (Z.shiftl ARM_PC 12).
Definition anal_is_condAL (inst : Z) : bool := Z.land inst ARM_COND_MASK =? ARM_COND_AL.
Definition anal_is_exitpoint (inst : Z) : bool := anal_is_B inst || anal_is_return inst || anal_is_unkjmp inst.

Section aop.
Context (mem4 : Z -> option (nat -> Z)) (addr : Z) (b : nat -> Z).

(** The type and the operation on the stack; a load adds a cross reference from its literal. *)
Definition arm_data : aop_t * list (Z * Z) :=
  let w := word_le b in
  let a := aop_zero |> set_type AOP_TYPE_UNK in
  let a := if (b 3%nat =? 0xe2) && (b 2%nat =? 0x8d) && (b 1%nat =? 0xd0)
           then a |> set_type AOP_TYPE_ADD |> set_stackop AOP_STACK_INCSTACK |> set_value (u64 (- b 0%nat)) else a in
  let sub v := (a |> set_type AOP_TYPE_SUB |> set_stackop AOP_STACK_INCSTACK |> set_value (u64 v), []) in
  if (b 3%nat =? 0xe2) && (b 2%nat =? 0x4d) && (b 1%nat =? 0xd0) then sub (b 0%nat)
  else if (b 3%nat =? 0xe2) && (b 2%nat =? 0x4c) && (b 1%nat =? 0xb0) then sub (- b 0%nat)
  else if (b 3%nat =? 0xe2) && (b 2%nat =? 0x4b) && (b 1%nat =? 0xd0) then sub (- b 0%nat)
  else if (w =? 0x1eff2fe1) || (w =? 0xe12fff1e) then (a |> set_type AOP_TYPE_RET |> set_eob true, [])
  else if truth (Z.land w ARM_DTX_LOAD) then
    let a := a |> set_type AOP_TYPE_MOV in
    if b 2%nat =? 0x1b then (a |> set_stackop AOP_STACK_LOCAL_GET |> set_ref (b 0%nat), [])
    else
      let oaddr := u32 (addr + 8 + b 0%nat) in
      match mem4 oaddr with
      | Some p => let ref := u64 (s32 (word_le p)) in (a |> set_ref ref, [(oaddr, ref)])
      | None => (a |> set_ref 0, [])
      end
  else if b 3%nat =? 0xe5 then
    (a |> set_type AOP_TYPE_STORE |> set_stackop AOP_STACK_LOCAL_SET |> set_ref (b 0%nat), [])
  else (a, []).

Definition arm_exit (a : aop_t) : aop_t :=
  let w := word_le b in
  let dst := disarm_branch_offset (u32 addr) (Z.land w 0x00ffffff) in
  let a := a |> set_ref 0 in
  if anal_is_BL w then
    if anal_is_B w then a |> set_type AOP_TYPE_CALL |> set_jump dst |> set_fail (u64 (addr + 4)) |> set_eob true
    else a |> set_type AOP_TYPE_RET |> set_eob true
  else if anal_is_B w then
    if anal_is_condAL w then a |> set_type AOP_TYPE_JMP |> set_jump dst |> set_eob true
    else a |> set_type AOP_TYPE_CJMP |> set_jump dst |> set_fail (u64 (addr + 4)) |> set_eob true
  else a |> set_type AOP_TYPE_UJMP |> set_eob true.

(** The structure, the cross references added, and the length returned, which the structure does not get. *)
Definition arch_arm_aop (arm_mode : Z) : aop_t * list (Z * Z) * Z :=
  let '(a, x) := arm_data in
  (if anal_is_exitpoint (word_le b) then arm_exit a else a, x, if arm_mode =? 16 then 2 else 4).
End aop.

(** The fields above the offset. *)
Lemma land_high h o c : 0 <= o < 2^24 -> Z.land (h * 2^24 + o) (c * 2^24) = Z.land h c * 2^24.
Proof.
  intros Ho. rewrite <-lor_add by lia. rewrite Z.land_lor_distr_l, <-!Z.shiftl_mul_pow2 by lia.
  rewrite <-Z.shiftl_land. replace (Z.land o (Z.shiftl c 24)) with 0; [apply Z.lor_0_r|].
  symmetry. apply Z.bits_inj'. intros i Hi. rewrite Z.bits_0, Z.land_spec. destruct (Z.lt_ge_cases i 24).
  - rewrite Z.shiftl_spec_low by done. apply andb_false_r.
  - rewrite <-(Z.mod_small o (2^24)), Z.mod_pow2_bits_high by lia. done.
Qed.

Definition head_ok (l cond : Z) : bool :=
  (Z.land (16 * cond + 10 + l) 0x0e * 2^24 =? ARM_BRANCH_I) && (Z.land (16 * cond + 10 + l) 1 * 2^24 =? l * 2^24) &&
  Bool.eqb (Z.land (16 * cond + 10 + l) 0xf0 * 2^24 =? ARM_COND_AL) (cond =? 14).
Lemma head_bits_link cond : 0 <= cond < 16 -> head_ok 1 cond = true.
Proof. exact (forallb_below (head_ok 1) 16 eq_refl cond). Qed.
Lemma head_bits_nolink cond : 0 <= cond < 16 -> head_ok 0 cond = true.
Proof. exact (forallb_below (head_ok 0) 16 eq_refl cond). Qed.

Lemma branch_offset addr k :
  is_u32 addr -> - 2^23 <= k < 2^23 -> disarm_branch_offset addr (k mod 2^24) = u32 (addr + 8 + 4 * k).
Proof.
  intros Ha Hk. unfold disarm_branch_offset. set (o := k mod 2^24).
  assert (Ho : o = k /\ 0 <= k \/ o = k + 2^24 /\ k < 0).
  { unfold o. destruct (Z.lt_ge_cases k 0).
    - right. split; [|done]. rewrite <-(Z.mod_add k 1) by lia. rewrite Z.mod_small; lia.
    - left. split; [|done]. rewrite Z.mod_small; lia. }
  clearbody o. rewrite Z.shiftl_mul_pow2 by lia. change (2^2) with 4.
  assert (Eu : u32 (o * 4) = o * 4) by (unfold u32; apply Z.mod_small; lia). rewrite Eu. cbv zeta.
  change 0x02000000 with (2^25).
  assert (Et : (Z.land (o * 4) (2^25) =? 2^25) = (k <? 0)).
  { rewrite <-(Z.mul_1_l (2^25)), <-Z.shiftl_mul_pow2 by lia.
    replace (Z.land (o * 4) (Z.shiftl 1 25)) with (if k <? 0 then 2^25 else 0); [by destruct (k <? 0)|].
    apply Z.bits_inj'. intros i Hi. rewrite Z.land_spec, Z.shiftl_1_l.
    destruct (Z.eq_dec i 25) as [->|Hne].
    - rewrite (Z.testbit_odd (o * 4)), Z.shiftr_div_pow2 by lia.
      destruct (Z.ltb_spec k 0); rewrite Z.pow2_bits_true, andb_true_r by lia.
      + replace (o * 4 / 2^25) with 1; [done|]. apply (Z.div_unique _ _ _ (o * 4 - 2^25)); lia.
      + replace (o * 4 / 2^25) with 0; [done|]. symmetry. apply Z.div_small. lia.
    - rewrite (Z.pow2_bits_false 25) by done. rewrite andb_false_r.
      destruct (k <? 0); [by apply Z.pow2_bits_false|apply Z.bits_0]. }
  rewrite Et. destruct (Z.ltb_spec k 0).
  - rewrite Z.lor_comm. change 0xfc000000 with (0x3f * 2^26). rewrite lor_add by lia.
    unfold u32. replace (_ + addr + 8) with (addr + 8 + 4 * k + 1 * 2^32) by lia. by rewrite Z.mod_add.
  - f_equal. lia.
Qed.

Lemma arm_branch_spec mem4 addr b mode k link cond :
  word_le b = Z.shiftl cond 28 + ARM_BRANCH_I + (if link : bool then ARM_BRANCH_LINK else 0) + k mod 2^24 ->
  0 <= cond < 16 -> - 2^23 <= k < 2^23 -> is_u32 addr ->
  let a := (arch_arm_aop mem4 addr b mode).1.1 in
  a_jump a = u32 (addr + 8 + 4 * k) /\ a_eob a = true /\
  a_type a = (if link then AOP_TYPE_CALL else if cond =? 14 then AOP_TYPE_JMP else AOP_TYPE_CJMP).
Proof.
  intros Hw Hc Hk Ha. pose proof (Z.mod_pos_bound k (2^24) ltac:(lia)) as Ho.
  set (o := k mod 2^24) in *. set (h := 16 * cond + 10 + (if link then 1 else 0)).
  assert (Ew : word_le b = h * 2^24 + o).
  { rewrite Hw, Z.shiftl_mul_pow2 by lia. unfold h, ARM_BRANCH_I, ARM_BRANCH_LINK. destruct link; lia. }
  assert (Hh : 0 <= h < 256) by (unfold h; destruct link; lia).
  assert (HB : anal_is_B (word_le b) = true /\ anal_is_BL (word_le b) = link /\
               anal_is_condAL (word_le b) = (cond =? 14)).
  { unfold anal_is_BL, anal_is_B, anal_is_condAL. rewrite Ew.
    change ARM_BRANCH_I_MASK with (0x0e * 2^24). change ARM_BRANCH_LINK with (1 * 2^24). change ARM_COND_MASK with (0xf0 * 2^24).
    rewrite !land_high by lia. clear -Hc. unfold h. destruct link;
      [pose proof (head_bits_link cond Hc) as H|pose proof (head_bits_nolink cond Hc) as H]; unfold head_ok in H;
      rewrite !andb_true_iff, !Z.eqb_eq, Bool.eqb_true_iff in H; destruct H as [[H1 H2] H3]; by rewrite H1, H2, H3. }
  destruct HB as (HB & HBL & HAL).
  assert (Ed : disarm_branch_offset (u32 addr) (Z.land (word_le b) 0x00ffffff) = u32 (addr + 8 + 4 * k)).
  { rewrite Ew. change 0x00ffffff with (2^24 - 1). rewrite land_mask, Z.add_comm, Z.mod_add, Z.mod_small by lia.
    replace (u32 addr) with addr by (symmetry; by apply Z.mod_small). by apply branch_offset. }
  unfold arch_arm_aop. destruct (arm_data mem4 addr b) as [a x]. cbn [fst snd].
  unfold anal_is_exitpoint, arm_exit. rewrite HB, HBL, HAL, Ed. cbn [orb]. cbv zeta.
  destruct link; [done|]. by destruct (cond =? 14).
Qed.

(** A branch goes to the address of the instruction, eight, and four times the signed 24 bits of its
    offset, in 32 bits; with the link bit it is a call, unconditional it is a jump, and else a jump with the
    next instruction as the other way. *)
Theorem arm_branch_target mem4 addr b mode k link cond :
  word_le b = Z.shiftl cond 28 + ARM_BRANCH_I + (if link : bool then ARM_BRANCH_LINK else 0) + k mod 2^24 ->
  0 <= cond < 16 -> - 2^23 <= k < 2^23 -> is_u32 addr ->
  let a := (arch_arm_aop mem4 addr b mode).1.1 in
  a_jump a = u32 (addr + 8 + 4 * k) /\ a_eob a = true /\
  a_type a = (if link then AOP_TYPE_CALL else if cond =? 14 then AOP_TYPE_JMP else AOP_TYPE_CJMP).
Proof. apply arm_branch_spec. Qed.

Lemma arm_branch_target_witness :
  let a := (arch_arm_aop (fun _ => None) 0x8000 (fun n => nth n [0xfe; 0xff; 0xff; 0xea] 0) 32).1.1 in
  a_jump a = u32 (0x8000 + 8 + 4 * (-2)) /\ a_eob a = true /\
  a_type a = (if false then AOP_TYPE_CALL else if 14 =? 14 then AOP_TYPE_JMP else AOP_TYPE_CJMP).
Proof. apply (arm_branch_target (fun _ => None) 0x8000 _ 32 (-2) false 14); vm_compute; intuition congruence. Defined.

(** The structure of an ARM instruction has no length. *)
Example arm_length_zero mem4 addr b mode : a_length (arch_arm_aop mem4 addr b mode).1.1 = 0.
Proof.
  unfold arch_arm_aop, arm_data, arm_exit. repeat case_match; try done; simplify_eq; done.
Qed.
End Arm.

Module Mips.
Section aop.
Context (mips_mode : Z) (endian : bool) (flag_get_addr : string -> Z).

(** The four bytes as [endian_memcpy_e] leaves them in the low half of [op]; [high] is what the upper half
    of the variable held. *)
Definition mips_op (high : Z) (bytes : nat -> Z) : Z :=
  Z.shiftl high 32 +
  if endian then word_le bytes
  else word_le (fun k => bytes (3 - k)%nat).

Definition mips_size : Z := if mips_mode =? 16 then 2 else 4.

(** The opcodes that are compared as a whole. *)
Definition mips_whole (op : Z) (bytes : nat -> Z) (a : aop_t) : aop_t :=
  if (op =? 32) || (op =? 33) then a |> set_type AOP_TYPE_ADD
  else if (op =? 34) || (op =? 35) then a |> set_type AOP_TYPE_SUB
  else if (op =? 0x03e00008) || (op =? 0x0800e003) then a |> set_type AOP_TYPE_RET
  else if (op =? 0x0000000d) || (op =? 0x0d000000) then a |> set_type AOP_TYPE_TRAP
  else if op =? 0 then a |> set_type AOP_TYPE_NOP
  else
    let b := bytes 3%nat in
    if b =? 0xc then a |> set_type AOP_TYPE_SWI
    else if (b =? 9) || (b =? 8) then a |> set_type AOP_TYPE_UJMP
    else if b =? 0x21 then a |> set_type AOP_TYPE_PUSH
    else a.

Definition arch_mips_aop (high addr : Z) (bytes : nat -> Z) : aop_t :=
  let op := mips_op high bytes in
  let a := aop_zero |> set_type AOP_TYPE_UNK in
  let c := Z.land op 0x3f in
  (if c =? 2 then a
   else if existsb (Z.eqb c) [1; 4; 5; 6; 7; 16; 20] then
     let reg := Z.shiftr (Z.land op 0x00ff0000) 16 + Z.shiftr (Z.land op 0xff000000) 24 in
     a |> set_type AOP_TYPE_CJMP |> set_jump (u64 (addr + Z.shiftl reg 2 + 4)) |> set_fail (u64 (addr + 8))
   else if c =? 3 then
     let reg := s32 (Z.shiftr op 24) in
     if reg <? 10 then
       a |> set_type AOP_TYPE_RCALL |> set_jump (u64 (flag_get_addr ("t" +:+ fmt_d reg))) |> set_fail (u64 (addr + 8))
     else a
   else if c =? 8 then a |> set_type AOP_TYPE_RET
   else if c =? 12 then a |> set_type AOP_TYPE_SWI
   else if c =? 13 then a |> set_type AOP_TYPE_TRAP
   else mips_whole op bytes a) |> set_length mips_size.
End aop.

(** The two bytes of an offset are added, not put together: [beq] over 0x101 instructions goes over two. *)
Example mips_branch_adds_bytes :
  a_jump (arch_mips_aop 32 true (fun _ => 0) 0 0x1000 (fun k => nth k [0x04; 0; 0x01; 0x01] 0)) = 0x1000 + 4 * 2 + 4.
Proof. by vm_compute. Qed.
End Mips.

Module Sparc.
Definition arch_sparc_aop : aop_t := aop_zero |> set_type AOP_TYPE_UNK |> set_length 4.
End Sparc.

(** The type is looked at before [z80_OpcodeLen] sets it: [stack] is what the variable held. *)
Module Z80.
Definition arch_z80_aop (z80_OpcodeLen : (nat -> Z) -> Z) (stack : Z) (bytes : nat -> Z) : aop_t * Z :=
  let c := chr (stack mod 256) in
  let a := aop_zero in
  ((if (stack <? 0) || (255 <? stack) then a |> set_type AOP_TYPE_UNK
    else if Ascii.eqb c "r" then a |> set_type AOP_TYPE_RET
    else if Ascii.eqb c "j" then a |> set_type AOP_TYPE_JMP |> set_jump 0
    else if Ascii.eqb c "b" then a |> set_type AOP_TYPE_CJMP |> set_jump 0
    else if Ascii.eqb c "c" then a |> set_type AOP_TYPE_CALL |> set_jump 0
    else a |> set_type AOP_TYPE_UNK), z80_OpcodeLen bytes).
End Z80.
