(* ===== verification/Rasm.v ===== *)
(** * The assembler: [src/rasm/rasm.c], [x86.c], [arm.c], [ppc.c], [java.c]

    An instruction is a text; the result is the number returned and what was written at the start of the
    data buffer.  What an architecture does not write keeps its old value, also when the number returned
    says it was written.  Expressions are evaluated by the arguments [get_math] and [get_offset]; the
    assemblers of other projects are the argument [others], the external program is [rasm_rsc].  [None]
    is an access outside a text or a buffer. *)
From S2P Require Import Prelude Utils.
#[local] Open Scope string_scope.
#[local] Open Scope Z_scope.

(** What an assembler returns and writes. *)
Notation asm := (option (Z * list Z)).

Definition le4 (v : Z) : list Z := [u8 v; u8 (Z.shiftr v 8); u8 (Z.shiftr v 16); u8 (Z.shiftr v 24)].
Definition be3 (v : Z) : list Z := [u8 (Z.shiftr v 16); u8 (Z.shiftr v 8); u8 v].

(** The copy of 120 characters into a buffer of 128 has no end when the text is longer. *)
Definition split_op (str : string) : option (string * option string) :=
  if (String.length str <? 120)%nat then
    Some (match split_at " " str with Some (op, arg) => (op, Some arg) | None => (str, None) end)
  else None.

Section rasm.
Context (get_math get_offset : string -> option Z).

(** [get_math(NULL)] is 0. *)
Definition math_arg (arg : option string) : option Z := match arg with Some a => get_math a | None => Some 0 end.
Definition offset_arg (arg : option string) : option Z := match arg with Some a => get_offset a | None => Some 0 end.

Definition same (a b : string) : bool := String.eqb a b.

(** ** x86 *)
Definition reg_code (arg : string) : option Z :=
  if same arg "eax" then Some 0 else if same arg "ebx" then Some 3 else if same arg "ecx" then Some 1
  else if same arg "edx" then Some 2 else if same arg "esi" then Some 6 else if same arg "edi" then Some 7
  else if same arg "ebp" then Some 5 else if same arg "esp" then Some 4 else None.

Definition x86_call (offset : Z) (arg : string) : asm :=
  dst ← get_math arg;
  if dst =? 0 then
    Some match reg_code arg with Some r => (2, [0xff; 0xd0 + r]) | None => (0, [0xff]) end
  else Some (5, 0xe8 :: le4 (u64 (dst - offset - 5))).

Definition x86_push (arg : string) : asm :=
  dst ← get_math arg;
  if (dst =? 0) && negb (starts_with "0" arg) then
    Some match reg_code arg with Some r => (1, [0x50 + r]) | None => (0, []) end
  else Some (5, 0x68 :: le4 dst).

Definition x86_pop (arg : string) : asm :=
  dst ← get_math arg;
  if dst =? 0 then Some match reg_code arg with Some r => (1, [0x58 + r]) | None => (0, []) end
  else Some (0, []).

(** The name of the second register is compared where the comma was, so that only [eax] is found. *)
Definition x86_mov (arg : string) : asm :=
  match split_at "," arg with
  | None => Some (0, [])
  | Some (dst, src) =>
    v ← get_math src;
    let r := default 0 (reg_code dst) in
    if (v =? 0) && negb (starts_with "0" src) then
      if contains "eax" src then Some (2, [0x89; 0xc0 + 8 * r]) else Some (0, [0x89])
    else Some (5, (0xb8 + r) :: le4 v)
  end.

(** The registers a jump may go through, by name and in brackets, and with a distance in brackets. *)
Definition x86_jmp_reg (arg : string) : asm :=
  let mem m := v ← get_math (str_drop 4 arg); Some (3, [0xff; m; u8 v]) in
  match reg_code arg with
  | Some r => Some (2, [0xff; 0xe0 + r])
  | None =>
    if same arg "[eax]" then Some (2, [0xff; 0x20]) else if same arg "[ebx]" then Some (2, [0xff; 0x23])
    else if same arg "[ecx]" then Some (2, [0xff; 0x21]) else if same arg "[edx]" then Some (2, [0xff; 0x22])
    else if same arg "[esi]" then Some (2, [0xff; 0x26]) else if same arg "[edi]" then Some (2, [0xff; 0x27])
    else if contains "[eax" arg then mem 0x60 else if contains "[ebx" arg then mem 0x63
    else if contains "[ecx" arg then mem 0x61 else if contains "[edx" arg then mem 0x62
    else if contains "[esi" arg then mem 0x66 else if contains "[edi" arg then mem 0x67
    else if contains "[ebp" arg then mem 0x65
    else if same arg "[esp" then v ← get_math (str_drop 4 arg); Some (4, [0xff; 0x64; 0x24; u8 v])
    else Some (0, [0xff])
  end.

(** The distance is taken from the offset twice where the form is chosen. *)
Definition x86_jmp (offset : Z) (arg : string) : asm :=
  v ← get_offset arg;
  let dst := s64 (v - offset) in
  let addr := u64 dst in
  if u64 (dst + offset) =? 0 then x86_jmp_reg arg
  else
    let dst := s64 (dst - offset) in
    if (- 0x80 <? dst) && (dst <? 0x7f) then Some (2, [0xeb; u8 dst])
    else Some (5, 0xe9 :: le4 (u64 (addr - 5))).

Definition x86_jcc (short : Z) (offset : Z) (arg : option string) : asm :=
  v ← math_arg arg;
  let dst := s64 (v - offset) in
  if (- 0x80 <? dst) && (dst <? 0x7f) then Some (2, [short; u8 (dst - 2)])
  else Some (6, 0x0f :: (short + 0x10) :: le4 (u64 (s64 (dst - 6)))).

Definition rasm_x86 (rasm_rsc : string -> asm) (offset : Z) (str : string) : asm :=
  '(op, arg) ← split_op str;
  if same op "ret" then Some (1, [0xc3])
  else if same op "ret0" then Some (3, [0x31; 0xc0; 0xc3])
  else if same op "trap" then Some (1, [0xcc])
  else
    let no_arg :=
      if same op "jnz" then x86_jcc 0x75 offset arg
      else if same op "jz" then x86_jcc 0x74 offset arg
      else if same op "pusha" then Some (1, [0x60])
      else if same op "popa" then Some (1, [0x61])
      else if same op "nop" then Some (1, [0x90])
      else if starts_with ";" op then Some (0, [])
      else rasm_rsc str in
    match arg with
    | None => if same op "hang" then Some (2, [0xeb; 0xfe]) else no_arg
    | Some a =>
      if same op "int" then v ← get_offset a; Some (2, [0xcd; u8 v])
      else if same op "hang" then Some (2, [0xeb; 0xfe])
      else if same op "call" then x86_call offset a
      else if same op "push" then x86_push a
      else if same op "pop" then x86_pop a
      else if same op "mov" then x86_mov a
      else if same op "jmp" then x86_jmp offset a
      else no_arg
    end.

(** ** ARM, PowerPC and Java *)
Definition rasm_arm (offset : Z) (str : string) : asm :=
  '(op, arg) ← split_op str;
  if same op "trap" then Some (4, [0xe7; 0xff; 0xde; 0x0f])
  else if same op "int" then v ← offset_arg arg; Some (4, 0x5f :: be3 (u32 v))
  else if same op "hang" then Some (4, [0xea; 0xfe; 0xff; 0xff])
  else if same op "jmp" then v ← math_arg arg; Some (4, 0xea :: be3 (u64 (Z.quot (s64 (s64 v - 8)) 4)))
  else if same op "jz" then Some (4, [])
  else if same op "nop" then Some (4, [0x00; 0x00; 0xa0; 0xe1])
  else Some (-1, []).

Definition rasm_ppc (offset : Z) (str : string) : asm :=
  '(op, arg) ← split_op str;
  if same op "ret" then Some (4, [0x4e; 0x80; 0x00; 0x20])
  else if same op "call" then
    v ← math_arg arg; let a := u64 (v - offset) in
    Some (4, [0x48; u8 (Z.shiftr a 16); u8 (Z.shiftr a 8); Z.lor (u8 a) 1])
  else if same op "jmp" then
    v ← math_arg arg; let a := u64 (v - offset) in
    Some (4, [0x48; u8 (Z.shiftr a 16); u8 (Z.shiftr a 8); Z.land (u8 a) 0xfe])
  else if same op "nop" then Some (4, [0; 0; 0; 0])
  else Some (-1, []).

(** The whole text is evaluated, mnemonic and all. *)
Definition rasm_java (offset : Z) (str : string) : asm :=
  '(op, arg) ← split_op str;
  let branch b := v ← get_math str; Some (3, [b; u8 (Z.shiftr v 8); u8 v]) in
  if same op "jsr" then branch 0xb8
  else if same op "jmp" then branch 0xa7
  else if same op "jz" then branch 0x99
  else if same op "jnz" then branch 0x9a
  else if same op "ret" then Some (1, [0xa9])
  else if same op "trap" then Some (1, [0xca])
  else if same op "nop" then Some (1, [0x00])
  else Some (0, []).

(** ** Directives

    The result holds the number returned, -1 for none, the new offset and what was written.  [size] is the
    size of the data buffer.  An empty line has no last character to compare with the colon. *)
Definition rasm_directive (size : nat) (offset : Z) (str : string) : option (Z * Z * list Z) :=
  if (String.length str <? 120)%nat then
    let op := match split_at ";" str with Some (l, _) => l | None => str end in
    let '(op, arg) := match split_at " " op with Some (l, r) => (l, Some r) | None => (op, None) end in
    let zeros n := if u64 n <=? Z.of_nat size then Some (s32 n, offset, replicate (Z.to_nat (u64 n)) 0) else None in
    if same op ".equ" then n ← offset_arg arg; zeros n
    else if same op ".arch" then Some (0, offset, [])
    else if same op ".global" then Some (0, offset, [])
    else if same op ".org" then n ← offset_arg arg; Some (0, u64 n, [])
    else if same op ".zero" then n ← offset_arg arg; zeros n
    else
      c ← String.get (String.length op - 1) op;
      Some (if Ascii.eqb c ":" then 0 else -1, offset, [])
  else None.

(** ** One line *)
Definition skip_blanks (s : string) : string := drop_while (fun c => Ascii.eqb c " " || (ord c =? 9)) s.

Definition rasm_asm (rasm_rsc : string -> asm) (others : string -> Z -> string -> option asm)
    (size : nat) (arch : string) (offset : Z) (str : string) : option (Z * Z * list Z) :=
  let str := skip_blanks str in
  '(ret, offset, w) ← rasm_directive size offset str;
  if negb (ret =? -1) then Some (ret, offset, w)
  else if (String.length str <? 2)%nat || contains "?" str then Some (0, offset, [])
  else
    '(ret, w) ←
      (if same arch "x86" || same arch "intel" || same arch "intel32" then rasm_x86 rasm_rsc offset str
       else if same arch "arm" then rasm_arm offset str
       else if same arch "java" then rasm_java offset str
       else if same arch "ppc" then rasm_ppc offset str
       else if same arch "rsc" then rasm_rsc str
       else match others arch offset str with Some r => r | None => Some (-1, []) end);
    Some (ret, offset, w).

(** [rasm_file]: the bytes of all lines; the data buffer keeps what is not overwritten, and an error ends
    the file.  [pre] is the output so far. *)
Fixpoint rasm_lines (rasm_rsc : string -> asm) (others : string -> Z -> string -> option asm)
    (arch : string) (offset : Z) (data : list Z) (lines : list string) (pre : list Z) : option (Z * list Z) :=
  match lines with
  | [] => Some (offset, pre)
  | buf :: lines' =>
    '(n, offset, w) ← rasm_asm rasm_rsc others (length data) arch offset buf;
    let data := (w ++ drop (length w) data)%list in
    if n =? -1 then Some (offset, pre)
    else if Z.of_nat (length data) <? n then None
    else rasm_lines rasm_rsc others arch (u64 (offset + n)) data lines' (pre ++ take (Z.to_nat n) data)%list
  end.

(** [rasm_assemble]: the bytes the tool prints for an instruction; [-e] turns four bytes round. *)
Definition rasm_assemble (rasm_rsc : string -> asm) (others : string -> Z -> string -> option asm)
    (endian : bool) (arch : string) (offset : Z) (data : list Z) (str : string) : option (Z * list Z) :=
  '(ret, _, w) ← rasm_asm rasm_rsc others (length data) arch offset str;
  let data := (w ++ drop (length w) data)%list in
  if 0 <? ret then
    if Z.of_nat (length data) <? ret then None
    else
      let data := if endian && (ret =? 4) then (rev (take 4 data) ++ drop 4 data)%list else data in
      Some (ret, take (Z.to_nat ret) data)
  else Some (ret, []).
End rasm.

(** The command [wa]: the instructions between semicolons are all assembled for the place of the first, and
    written one behind the other.  The result is what is written where; [arch] and [data] as above. *)
Fixpoint wa_loop (asm_at : Z -> string -> option (Z * Z * list Z)) (seek : Z) (data : list Z) (delta : Z)
    (inputs : list string) (pre : list (Z * list Z)) : option (list (Z * list Z)) :=
  match inputs with
  | [] => Some pre
  | input :: inputs' =>
    '(ret, seek, w) ← asm_at seek input;
    let data := (w ++ drop (length w) data)%list in
    if ret <? 1 then wa_loop asm_at seek data delta inputs' pre
    else if Z.of_nat (length data) <? ret then None
    else wa_loop asm_at seek data (delta + ret) inputs' (pre ++ [(delta, take (Z.to_nat ret) data)])%list
  end.

(** [count_bytes]: a byte for each two characters that are not blanks. *)
Fixpoint count_bytes_from (str : string) (word c : Z) : Z :=
  match str with
  | "" => c
  | String h str' =>
    if Ascii.eqb h " " then count_bytes_from str' word c
    else
      let word := word + 1 in
      count_bytes_from str' word (if Z.rem word 2 =? 0 then c + 1 else c)
  end.
Definition count_bytes (str : string) : Z := count_bytes_from str 0 0.
