(* ===== verification/RasmSpec.v ===== *)
(** * What the assembler writes and what the analysis reads

    The instructions assembled by [Rasm] are analysed by [X86] and [Aops]: the place a branch was written to
    reach is the place the analysis finds. *)
From S2P Require Import Prelude Arch Utils Math Rasm X86 Aops.
#[local] Open Scope string_scope.
#[local] Open Scope Z_scope.

(** ** Numbers in bytes *)
#[local] Ltac Zify.zify_post_hook ::= Z.div_mod_to_equations.

Lemma shiftr_u8 v n : 0 <= n -> u8 (Z.shiftr v n) = (v / 2^n) mod 256.
Proof. intros. unfold u8. by rewrite Z.shiftr_div_pow2. Qed.

(** The four bytes of a number read as an [int]. *)
Lemma le4_int v : s32 (u8 v + Z.shiftl (u8 (Z.shiftr v 8)) 8 + Z.shiftl (u8 (Z.shiftr v 16)) 16 + Z.shiftl (u8 (Z.shiftr v 24)) 24) = s32 v.
Proof.
  rewrite !shiftr_u8 by lia. rewrite !Z.shiftl_mul_pow2 by lia. unfold u8, s32.
  change (2^8) with 256. change (2^16) with 65536. change (2^24) with 16777216. change (2^31) with 2147483648. change (2^32) with 4294967296. lia.
Qed.

Lemma s8_u8 x : s8 (u8 x) = s8 x.
Proof. unfold s8, u8. change (2^8) with 256. change (2^7) with 128. lia. Qed.
Lemma s32_u64 x : s32 (u64 x) = s32 x.
Proof. unfold s32, u64. change (2^32) with 4294967296. change (2^31) with 2147483648. change (2^64) with 18446744073709551616. lia. Qed.
Lemma u64_s64 x y : u64 (x + s64 y) = u64 (x + y).
Proof.
  unfold u64, s64. rewrite Z.add_sub_assoc, <-Zminus_mod_idemp_l, Z.add_mod_idemp_r, Zminus_mod_idemp_l by lia. f_equal. lia.
Qed.
Lemma s64_range x : - 2^63 <= s64 x < 2^63.
Proof. unfold s64. pose proof (Z.mod_pos_bound (x + 2^63) (2^64)). lia. Qed.
Lemma s64_id x : - 2^63 <= x < 2^63 -> s64 x = x.
Proof. intros. unfold s64. rewrite Z.mod_small; lia. Qed.

(** ** The tools *)
Definition no_rsc (_ : string) : option (Z * list Z) := None.
Definition assemble (offset : Z) (str : string) : option (Z * list Z) :=
  rasm_x86 tool_math tool_offset no_rsc offset str.
Definition analyse (offset : Z) (regs bs : list Z) : aop_t :=
  x86_switch (code bs) offset regs (set_type AOP_TYPE_UNK aop_zero).

(** A mnemonic with a number behind it. *)
Definition line (op : string) (v : Z) : string := op +:+ " 0x" +:+ fmt_x v.

Lemma split_line op v :
  all_chars (fun c => negb (Ascii.eqb c " ")) op = true -> (String.length op < 40)%nat ->
  split_op (line op v) = Some (op, Some ("0x" +:+ fmt_x v)).
Proof.
  intros Hop Hl. unfold split_op, line. pose proof (length_digits 16 64 v "") as Hd. cbn [String.length] in Hd.
  assert (E : forall s t, String.length (s +:+ t) = (String.length s + String.length t)%nat)
    by (induction s as [|c s IH]; intros t; cbn; [done|by rewrite IH]).
  rewrite !E. unfold fmt_x. replace (_ <? 120)%nat with true by (symmetry; apply Nat.ltb_lt; cbn [String.length]; lia).
  f_equal. clear -Hop. induction op as [|c op IH]; [done|]. cbn [all_chars String.append split_at] in *.
  apply andb_true_iff in Hop as [Hc Hop]. apply negb_true_iff in Hc. rewrite Hc.
  specialize (IH Hop). destruct (split_at " " (op +:+ _)) as [[l r]|]; by simplify_eq.
Qed.

(** ** Branches *)

(** The distance from the end of an instruction of [n] bytes fits 32 bits. *)
Definition near (d n : Z) : Prop := - 2^31 <= s64 (d - n) < 2^31.

Lemma near_jump offset v n :
  is_u64 v -> near (v - offset) n -> u64 (offset + n + s32 (s64 (v - offset - n))) = v.
Proof.
  intros Hv Hn. rewrite (s32_id (s64 _)) by done. rewrite u64_s64.
  replace (offset + n + (v - offset - n)) with v by lia. by apply u64_id.
Qed.

Lemma rel32 b0 w bs : int_at (code (b0 :: le4 w ++ bs)) 1 = s32 w.
Proof. unfold int_at, code. cbn [nth le4 app plus]. apply le4_int. Qed.
Lemma rel32_two b0 b1 w : int_at (code (b0 :: b1 :: le4 w)) 2 = s32 w.
Proof. unfold int_at, code. cbn [nth le4 plus]. apply le4_int. Qed.

Lemma s32_s64 x : s32 (s64 x) = s32 x.
Proof. rewrite <-s32_u64, <-(s32_u64 x). f_equal. unfold u64, s64. rewrite Zminus_mod_idemp_l. f_equal. lia. Qed.

Lemma s32_u64_sub x y : s32 (u64 x - y) = s32 (x - y).
Proof. rewrite <-(s32_u64 (u64 x - y)), <-(s32_u64 (x - y)). f_equal. unfold u64. by rewrite Zminus_mod_idemp_l. Qed.
Lemma s32_s64_sub x y : s32 (s64 x - y) = s32 (x - y).
Proof.
  rewrite <-(s32_s64 (s64 x - y)), <-(s32_s64 (x - y)). f_equal. unfold s64.
  replace ((x + 2^63) mod 2^64 - 2^63 - y + 2^63) with ((x + 2^63) mod 2^64 - y) by lia.
  rewrite Zminus_mod_idemp_l. do 2 f_equal. lia.
Qed.

(** Where a branch of [n] bytes goes: the distance from its end is kept in 32 bits. *)
Definition lands (offset v n : Z) : Z := u64 (offset + n + s32 (v - offset - n)).

(** [call] *)
Lemma assemble_call offset v regs :
  0 < v < 2^64 -> is_u64 offset ->
  exists bs, assemble offset (line "call" v) = Some (5, bs) /\ length bs = 5%nat /\
    a_type (analyse offset regs bs) = AOP_TYPE_CALL /\ a_jump (analyse offset regs bs) = lands offset v 5 /\
    a_fail (analyse offset regs bs) = u64 (offset + 5) /\ a_length (analyse offset regs bs) = 5.
Proof.
  intros Hv Ho. unfold assemble, rasm_x86. rewrite split_line by (done || (cbn; lia)).
  cbn [mbind option_bind same String.eqb Ascii.eqb Bool.eqb]. unfold x86_call. rewrite tool_math_hex by lia.
  cbn [mbind option_bind]. replace (v =? 0) with false by lia. eexists. split; [done|]. split; [done|].
  unfold analyse, x86_switch. cbn [code nth Z.eqb Pos.eqb orb Z.leb Z.compare Pos.compare Pos.compare_cont andb].
  cbn [set_type set_length set_jump set_fail a_type a_jump a_fail a_length]. split_and!; try done.
  by rewrite <-(app_nil_r (le4 _)), rel32, s32_u64.
Qed.

(** [jz] and [jnz]: the short form for a distance of less than 127 either way. *)
Definition short_form (d : Z) : bool := (- 0x80 <? d) && (d <? 0x7f).
Definition jcc_length (d : Z) : Z := if short_form d then 2 else 6.

Lemma analyse_jcc short offset d regs :
  0x70 <= short <= 0x7f ->
  let bs := if short_form d then [short; u8 (d - 2)] else 0x0f :: (short + 0x10) :: le4 (u64 (s64 (d - 6))) in
  let a := analyse offset regs bs in
  a_type a = AOP_TYPE_CJMP /\ a_fail a = u64 (offset + jcc_length d) /\ a_length a = jcc_length d /\
  a_jump a = if short_form d then u64 (offset + s8 (d - 2) + 2) else u64 (offset + 6 + s32 (d - 6)).
Proof.
  intros Hs. cbv zeta. unfold jcc_length. destruct (short_form d); unfold analyse, x86_switch.
  - cbn [code nth].
    assert (E : forall n, ~ (0x70 <= n <= 0x7f) -> (short =? n) = false) by (intros; lia).
    rewrite !E by lia. cbn [orb].
    replace ((0xb8 <=? short) && (short <=? 0xbf)) with false by lia.
    replace ((0x50 <=? short) && (short <=? 0x59)) with false by lia.
    replace ((0x5a <=? short) && (short <=? 0x5f)) with false by lia.
    replace ((0x70 <=? short) && (short <=? 0x7f)) with true by lia.
    cbn [set_type set_length set_jump set_fail set_eob a_type a_jump a_fail a_length]. split_and!; try done.
    unfold char_at. cbn [code nth]. by rewrite s8_u8.
  - cbn [code nth Z.eqb Pos.eqb orb Z.leb Z.compare Pos.compare Pos.compare_cont andb]. unfold aop_two. cbn [code nth].
    replace (short + 16 =? 0xbe) with false by lia. replace (short + 16 =? 0x31) with false by lia.
    replace ((0x18 <=? short + 16) && (short + 16 <=? 0x1f)) with false by lia.
    replace ((0x80 <=? short + 16) && (short + 16 <=? 0x8f)) with true by lia.
    cbn [set_type set_length set_jump set_fail set_eob a_type a_jump a_fail a_length]. split_and!; try done.
    by rewrite rel32_two, s32_u64, s32_s64.
Qed.

Definition is_jcc (op : string) : option Z := if String.eqb op "jz" then Some 0x74 else if String.eqb op "jnz" then Some 0x75 else None.

Lemma assemble_jcc op short offset v :
  is_jcc op = Some short -> 0 <= v < 2^64 ->
  let d := s64 (v - offset) in
  assemble offset (line op v) =
    Some (jcc_length d, if short_form d then [short; u8 (d - 2)] else 0x0f :: (short + 0x10) :: le4 (u64 (s64 (d - 6)))).
Proof.
  intros Hop Hv. assert (Ho : op = "jz" /\ short = 0x74 \/ op = "jnz" /\ short = 0x75).
  { unfold is_jcc in Hop. destruct (String.eqb_spec op "jz"); [left; by simplify_eq|].
    destruct (String.eqb_spec op "jnz"); [right; by simplify_eq|done]. }
  cbv zeta. unfold assemble, rasm_x86, jcc_length.
  destruct Ho as [[-> ->]|[-> ->]]; rewrite split_line by (done || (cbn; lia));
    cbn [mbind option_bind same String.eqb Ascii.eqb Bool.eqb]; unfold x86_jcc; cbn [math_arg];
    rewrite tool_math_hex by lia; cbn [mbind option_bind]; fold (short_form (s64 (v - offset)));
    by destruct (short_form (s64 (v - offset))).
Qed.

(** The places [jz] and [jnz] reach. *)
Lemma jcc_reaches offset v :
  is_u64 v ->
  let d := s64 (v - offset) in
  (if short_form d then u64 (offset + s8 (d - 2) + 2) else u64 (offset + 6 + s32 (d - 6))) =
  if d =? -127 then u64 (offset + 129) else lands offset v (jcc_length d).
Proof.
  intros Hv. cbv zeta. unfold lands, jcc_length. destruct (short_form (s64 (v - offset))) eqn:Es.
  - unfold short_form in Es. set (d := s64 (v - offset)) in *. destruct (Z.eqb_spec d (-127)) as [->|Hd].
    { change (s8 (-127 - 2)) with 127. f_equal. lia. }
    replace (s8 (d - 2)) with (d - 2) by (unfold s8; rewrite Z.mod_small; lia).
    rewrite <-(s32_s64_sub (v - offset)). fold d. rewrite s32_id by lia. f_equal. lia.
  - destruct (Z.eqb_spec (s64 (v - offset)) (-127)) as [E|_]; [by rewrite E in Es|]. by rewrite s32_s64_sub.
Qed.

(** What a branch is taken for. *)
Definition branch_of (op : string) : option (aop_type * (Z -> Z)) :=
  if String.eqb op "call" then Some (AOP_TYPE_CALL, fun _ => 5)
  else match is_jcc op with Some _ => Some (AOP_TYPE_CJMP, jcc_length) | None => None end.

(** C10: a call or a conditional jump written to reach a place above 0 is analysed as such a branch that goes on behind its
    bytes, and has the length the assembler returned.  It reaches the place written when that is within 31 bits, and
    otherwise the place whose distance agrees in its lower 32 bits; only the place 127 bytes before a conditional jump is
    taken for the one 129 bytes behind, because its short form cannot hold the distance. *)
Theorem branch_roundtrip op ty len offset v regs :
  branch_of op = Some (ty, len) -> 0 < v < 2^64 -> is_u64 offset ->
  let d := s64 (v - offset) in
  exists n bs, assemble offset (line op v) = Some (n, bs) /\ n = len d /\ Z.of_nat (length bs) = n /\
    let a := analyse offset regs bs in
    a_type a = ty /\ a_fail a = u64 (offset + n) /\ a_length a = n /\
    let wraps := match ty with AOP_TYPE_CJMP => d =? -127 | _ => false end in
    a_jump a = (if wraps then u64 (offset + 129) else lands offset v n) /\
    (near (v - offset) n -> wraps = false -> a_jump a = v).
Proof.
  intros Hb Hv Ho d. assert (forall n, near (v - offset) n -> lands offset v n = v) as Hnear.
  { intros n Hn. etrans; [|apply (near_jump offset v n); [unfold is_u64; lia|done]]. unfold lands. by rewrite s32_s64. }
  unfold branch_of in Hb. destruct (String.eqb_spec op "call") as [->|_].
  - simplify_eq. destruct (assemble_call offset v regs Hv Ho) as (bs & E & El & H1 & H2 & H3 & H4).
    exists 5, bs. cbv zeta. split; [done|]. split; [done|]. split; [by rewrite El|]. split_and!; [done..|]. intros Hn _. rewrite H2. by apply Hnear.
  - destruct (is_jcc op) as [short|] eqn:Ej; simplify_eq.
    assert (Hs : 0x70 <= short <= 0x7f)
      by (unfold is_jcc in Ej; repeat case_match; simplify_eq; lia).
    rewrite (assemble_jcc op short offset v Ej) by lia. fold d.
    destruct (analyse_jcc short offset d regs Hs) as (H1 & H2 & H3 & H4).
    pose proof (jcc_reaches offset v ltac:(unfold is_u64; lia)) as Hr. cbv zeta in Hr. fold d in Hr. rewrite Hr in H4.
    eexists _, _. split; [done|]. split; [done|]. split; [unfold jcc_length; by destruct (short_form d)|].
    cbv zeta. split_and!; [done..|]. intros Hn Hw. rewrite H4, Hw. by apply Hnear.
Qed.

Lemma branch_roundtrip_witness :
  exists n bs, assemble 0x1000 (line "jz" 0x2000) = Some (n, bs) /\ n = 6 /\ a_jump (analyse 0x1000 [] bs) = 0x2000.
Proof.
  destruct (branch_roundtrip "jz" AOP_TYPE_CJMP jcc_length 0x1000 0x2000 []) as (n & bs & E & Hn & _ & _ & _ & _ & _ & H);
    [reflexivity|lia|unfold is_u64; lia|].
  exists n, bs. split; [exact E|]. split; [exact Hn|]. apply H; [rewrite Hn; unfold near; vm_compute; intuition discriminate|reflexivity].
Defined.

(** At the distance -127 the displacement wraps and the branch goes forward. *)
Example jcc_wraps : exists bs, assemble 0x1000 (line "jz" (0x1000 - 127)) = Some (2, bs) /\ a_jump (analyse 0x1000 [] bs) = 0x1000 + 129.
Proof. exists [0x74; 127]. split; vm_compute; reflexivity. Qed.

(** [jmp]: the form is chosen by the distance less the offset, and the short form holds that value. *)
Definition jmp_short (d offset : Z) : bool := short_form (s64 (d - offset)).

Lemma assemble_jmp offset v :
  0 < v < 2^64 ->
  let d := s64 (v - offset) in
  assemble offset (line "jmp" v) =
    Some (if jmp_short d offset then (2, [0xeb; u8 (s64 (d - offset))]) else (5, 0xe9 :: le4 (u64 (u64 d - 5)))).
Proof.
  intros Hv d. unfold assemble, rasm_x86. rewrite split_line by (done || (cbn; lia)).
  cbn [mbind option_bind same String.eqb Ascii.eqb Bool.eqb]. unfold x86_jmp. rewrite tool_offset_hex by lia.
  cbn [mbind option_bind]. fold d. unfold jmp_short.
  assert (E : u64 (d + offset) = v).
  { unfold d. rewrite Z.add_comm, u64_s64. replace (offset + (v - offset)) with v by lia. apply u64_id. unfold is_u64. lia. }
  rewrite E. replace (v =? 0) with false by lia. fold (short_form (s64 (d - offset))). by destruct (short_form _).
Qed.

(** A jump written in the long form is analysed as a jump to the place written.  The short form is chosen
    when the place less twice the offset is near, and reaches the place less the offset, and two more: that is
    the place written only for code at address 2. *)
Theorem jmp_reaches offset v regs :
  0 < v < 2^64 -> is_u64 offset -> near (v - offset) 5 ->
  let short := jmp_short (s64 (v - offset)) offset in
  exists n bs, assemble offset (line "jmp" v) = Some (n, bs) /\ n = (if short then 2 else 5) /\ Z.of_nat (length bs) = n /\
    let a := analyse offset regs bs in
    a_type a = AOP_TYPE_JMP /\ a_length a = n /\ a_eob a = true /\
    a_jump a = if short then u64 (v - offset + 2) else v.
Proof.
  intros Hv Ho Hn short. rewrite (assemble_jmp offset v Hv). unfold short. clear short.
  destruct (jmp_short _ offset) eqn:Es; eexists _, _; (split; [done|]); (split; [done|]); (split; [done|]);
    unfold analyse, x86_switch;
    cbn [code nth Z.eqb Pos.eqb orb Z.leb Z.compare Pos.compare Pos.compare_cont andb];
    cbn [set_type set_length set_jump set_fail set_eob a_type a_jump a_fail a_length a_eob]; split_and!; try done.
  - unfold char_at. cbn [code nth]. rewrite s8_u8. unfold jmp_short, short_form in Es.
    set (e := s64 (s64 (v - offset) - offset)) in *.
    replace (s8 e) with e by (unfold s8; rewrite Z.mod_small; lia).
    replace (offset + (e + 2)) with (offset + 2 + e) by lia. unfold e. rewrite u64_s64.
    replace (offset + 2 + (s64 (v - offset) - offset)) with (2 + s64 (v - offset)) by lia. rewrite u64_s64. f_equal. lia.
  - rewrite <-(app_nil_r (le4 _)), rel32, s32_u64.
    rewrite s32_u64_sub, s32_s64_sub, <-s32_s64. apply near_jump; [unfold is_u64; lia|done].
Qed.

Lemma jmp_reaches_witness :
  let short := jmp_short (s64 (0x2000 - 0x1000)) 0x1000 in
  exists n bs, assemble 0x1000 (line "jmp" 0x2000) = Some (n, bs) /\ n = (if short then 2 else 5) /\ Z.of_nat (length bs) = n /\
    let a := analyse 0x1000 [] bs in
    a_type a = AOP_TYPE_JMP /\ a_length a = n /\ a_eob a = true /\
    a_jump a = if short then u64 (0x2000 - 0x1000 + 2) else 0x2000.
Proof. apply (jmp_reaches 0x1000 0x2000 []); unfold is_u64, near; vm_compute; intuition discriminate. Defined.

(** ** The jump of ARM *)
Definition no_others (_ : string) (_ : Z) (_ : string) : option (option (Z * list Z)) := None.
Definition rasm_tool (endian : bool) (arch : string) (offset : Z) (str : string) : option (Z * list Z) :=
  rasm_assemble tool_math tool_offset no_rsc no_others endian arch offset (replicate 256 0) str.


Lemma no_char_contains (p : ascii -> bool) (c : ascii) s :
  all_chars p s = true -> p c = false -> contains (String c "") s = false.
Proof.
  intros Hs Hc. induction s as [|a s IH]; [done|]. cbn [all_chars contains starts_with] in *.
  apply andb_true_iff in Hs as [Ha Hs]. rewrite IH by done.
  destruct (Ascii.eqb_spec c a) as [<-|]; [congruence|done].
Qed.

(** A jump is no directive. *)
Definition jmp_char (c : ascii) : bool := hex_char c || contains (String c "") "jmp x".
Lemma jmp_line v : exists s, line "jmp" v = "jmp " +:+ s /\ all_chars jmp_char ("jmp " +:+ s) = true /\
  (String.length ("jmp " +:+ s) < 120)%nat.
Proof.
  exists ("0x" +:+ fmt_x v). split; [done|]. pose proof (length_digits 16 64 v "") as Hl. cbn [String.length] in Hl.
  split; [|unfold fmt_x; cbn [String.length String.append]; lia].
  cbn [String.append all_chars]. apply (all_chars_impl hex_char jmp_char).
  - intros c Hc. unfold jmp_char. by rewrite Hc.
  - apply digits_chars; [lia|apply digit_hex|done].
Qed.

Lemma directive_jmp size offset v : rasm_directive tool_offset size offset (line "jmp" v) = Some (-1, offset, []).
Proof.
  destruct (jmp_line v) as (s & -> & Hs & Hl). unfold rasm_directive.
  replace (_ <? 120)%nat with true by (symmetry; by apply Nat.ltb_lt).
  by rewrite (split_at_none jmp_char ";" _ eq_refl Hs).
Qed.

Lemma rasm_asm_jmp size offset v :
  rasm_asm tool_math tool_offset no_rsc no_others size "arm" offset (line "jmp" v) =
    '(ret, w) ← rasm_arm tool_math tool_offset offset (line "jmp" v); Some (ret, offset, w).
Proof.
  unfold rasm_asm. replace (skip_blanks (line "jmp" v)) with (line "jmp" v) by done. rewrite directive_jmp.
  cbn [mbind option_bind Z.eqb Pos.eqb negb]. destruct (jmp_line v) as (s & -> & Hs & Hl).
  rewrite (no_char_contains jmp_char "?" _ Hs eq_refl).
  by replace (String.length ("jmp " +:+ s) <? 2)%nat with false by (symmetry; apply Nat.ltb_ge; cbn; lia).
Qed.

Lemma assemble_four data offset str offset' a b c d :
  rasm_asm tool_math tool_offset no_rsc no_others (length data) "arm" offset str = Some (4, offset', [a; b; c; d]) ->
  (4 <= length data)%nat ->
  rasm_assemble tool_math tool_offset no_rsc no_others true "arm" offset data str = Some (4, [d; c; b; a]).
Proof.
  intros E Hl. unfold rasm_assemble. rewrite E. cbn [mbind option_bind length].
  rewrite length_app, length_drop. cbn [length].
  replace (Z.of_nat (4 + (length data - 4)) <? 4) with false; [done|].
  symmetry. apply Z.ltb_ge. lia.
Qed.

Lemma arm_jmp_word v : 8 <= v < 2^25 -> u64 (Z.quot (s64 (s64 v - 8)) 4) = (v - 8) / 4.
Proof. intros Hv. rewrite (s64_id v), (s64_id (v - 8)), Z.quot_div_nonneg by lia. apply u64_id. unfold is_u64. lia. Qed.

Lemma arm_jmp_arm gm go offset v :
  gm ("0x" +:+ fmt_x v) = Some v ->
  rasm_arm gm go offset (line "jmp" v) = Some (4, 0xea :: be3 (u64 (Z.quot (s64 (s64 v - 8)) 4))).
Proof.
  intros Hv. unfold rasm_arm. rewrite split_line by (done || (cbn; lia)).
  cbn [mbind option_bind same String.eqb Ascii.eqb Bool.eqb math_arg]. by rewrite Hv.
Qed.

Lemma arm_jmp_bytes size offset v :
  8 <= v < 2^25 ->
  let k := (v - 8) / 4 in
  rasm_asm tool_math tool_offset no_rsc no_others size "arm" offset (line "jmp" v) =
    Some (4, offset, [0xea; u8 (Z.shiftr k 16); u8 (Z.shiftr k 8); u8 k]).
Proof. intros Hv k. rewrite rasm_asm_jmp, arm_jmp_arm, arm_jmp_word; [reflexivity|lia|apply tool_math_hex; lia]. Qed.

(** A jump of ARM assembled for an offset, with [-e], is analysed as a jump over the number written: the
    offset is not taken into account, and only code at address 0 goes to the place written. *)
Theorem arm_jmp_is_relative offset v mem4 mode :
  8 <= v < 2^25 -> v mod 4 = 0 -> is_u32 offset ->
  exists bs : list Z, rasm_tool true "arm" offset (line "jmp" v) = Some (4, bs) /\ length bs = 4%nat /\
    let a := (Arm.arch_arm_aop mem4 offset (code bs) mode).1.1 in
    a_type a = AOP_TYPE_JMP /\ a_eob a = true /\ a_jump a = u32 (offset + v).
Proof.
  intros Hv Hm Ho. unfold rasm_tool. set (k := (v - 8) / 4).
  exists [u8 k; u8 (Z.shiftr k 8); u8 (Z.shiftr k 16); 0xea].
  split; [apply (assemble_four _ _ _ offset); [by apply arm_jmp_bytes|rewrite length_replicate; lia]|]. split; [done|].
  assert (Hk : 0 <= k < 2^23) by (unfold k; lia).
  destruct (Arm.arm_branch_spec mem4 offset (code [u8 k; u8 (Z.shiftr k 8); u8 (Z.shiftr k 16); 0xea]) mode k false 14) as (H1 & H2 & H3);
    [|lia|lia|done|].
  - unfold word_le, code. cbn [nth]. rewrite !shiftr_u8 by lia. rewrite !Z.shiftl_mul_pow2 by lia. unfold u8, Arm.ARM_BRANCH_I.
    change (2^8) with 256. change (2^16) with 65536. change (2^24) with 16777216. change (2^28) with 268435456. lia.
  - cbv zeta. rewrite H1, H2, H3. split_and!; [done..|]. f_equal. unfold k. lia.
Qed.

Lemma arm_jmp_is_relative_witness :
  exists bs : list Z, rasm_tool true "arm" 0x8000 (line "jmp" 0x8100) = Some (4, bs) /\ length bs = 4%nat /\
    let a := (Arm.arch_arm_aop (fun _ => None) 0x8000 (code bs) 32).1.1 in
    a_type a = AOP_TYPE_JMP /\ a_eob a = true /\ a_jump a = u32 (0x8000 + 0x8100).
Proof. apply (arm_jmp_is_relative 0x8000 0x8100 (fun _ => None) 32); unfold is_u32; lia. Defined.
