(* ===== verification/Cond.v ===== *)
(** * Conditions of watchpoints: [src/dbg/parser.c]

    A condition is a text such as [%eax = 0x10 and ([0x8048000] <> 0x90 or %ecx > 3)].  The pointer that
    walks over it is the rest of the text.  A list of tokens is filled at its front and read backwards, so
    that here it is in the order of the text.  [None] is undefined behaviour: memory that is freed twice,
    or a text that does not fit a buffer. *)
From S2P Require Import Prelude Utils Math.
#[local] Open Scope string_scope.
#[local] Open Scope Z_scope.

(** ** Data *)
Inductive op_t := OP_LT | OP_LE | OP_EQ | OP_NE | OP_GE | OP_GT.
Inductive log_t := LOG_NONE | LOG_OR | LOG_AND.

Inductive tok :=
| Reg_tok (off : Z) (op : op_t) (val : Z) (log_op : log_t)
| Mem_tok (off : Z) (op : op_t) (val : list Z) (log_op : log_t)
| Group_tok (list : list tok) (log_op : log_t).

Definition log_op (t : tok) : log_t :=
  match t with Reg_tok _ _ _ l => l | Mem_tok _ _ _ l => l | Group_tok _ l => l end.
Definition set_log (l : log_t) (t : tok) : tok :=
  match t with Reg_tok o p v _ => Reg_tok o p v l | Mem_tok o p v _ => Mem_tok o p v l | Group_tok g _ => Group_tok g l end.
Definition is_group (t : tok) : bool := match t with Group_tok _ _ => true | _ => false end.

(** ** Characters *)
Definition is_blank (c : ascii) : bool := Ascii.eqb c " " || (ord c =? 9).
Definition skip_chars (c : string) : string := drop_while is_blank c.
Definition is_dec (c : ascii) : bool := (48 <=? ord c) && (ord c <=? 57).
Definition ishexa (c : ascii) : bool :=
  is_dec c || ((97 <=? ord c) && (ord c <=? 102)) || ((65 <=? ord c) && (ord c <=? 70)).

(** The longest prefix of characters of one kind, and the rest. *)
Fixpoint span (f : ascii -> bool) (s : string) : string * string :=
  match s with
  | "" => ("", "")
  | String c s' => if f c then let '(l, r) := span f s' in (String c l, r) else ("", s)
  end.

(** An error is printed and ends the condition. *)
Inductive res (A : Type) := Ok (a : A) | Err.
Arguments Ok {A}. Arguments Err {A}.

(** The registers of [src/dbg/arch/i386.c], with the offsets of the structure of Linux. *)
Definition i386_roff : list (string * Z) :=
  [("eax", 24); ("ebx", 0); ("ecx", 4); ("edx", 8); ("esi", 12); ("edi", 16); ("esp", 60); ("ebp", 20); ("eip", 48); ("eflags", 56)].

Section parser.
(** The registers of the architecture; the evaluation of numbers; what [malloc] leaves in the field
    [type] of a token parsed at a place. *)
Context (roff : list (string * Z)) (get_math : string -> Z) (fresh_type : string -> Z).

Definition MEM_TOK : Z := 2.

Fixpoint get_reg_from (i : Z) (l : list (string * Z)) (s : string) : Z :=
  match l with
  | [] => -1
  | (r, _) :: l' => if starts_with r s then i else get_reg_from (i + 1) l' s
  end.
Definition get_reg (s : string) : Z := get_reg_from 0 roff s.

(** [get_tok_op]: the operator and the rest; the type of the token is not set yet.  The second character
    of [<=] is not skipped, and one more is skipped behind [<]. *)
Definition get_tok_op (junk : Z) (c : string) : res (op_t * string) :=
  let o :=
    if starts_with ">" c then if starts_with ">=" c then Some (OP_GE, str_drop 2 c) else Some (OP_GT, str_drop 1 c)
    else if starts_with "=" c then Some (OP_EQ, str_drop 1 c)
    else if starts_with "<" c then
      if starts_with "<=" c then Some (OP_LE, str_drop 1 c)
      else if starts_with "<>" c then Some (OP_NE, str_drop 2 c)
      else Some (OP_LT, str_drop 2 c)
    else None in
  match o with
  | None => Err
  | Some (op, c) =>
    match op with
    | OP_EQ | OP_NE => Ok (op, c)
    | _ => if junk =? MEM_TOK then Err else Ok (op, c)
    end
  end.

(** [<] at the end of the text: the pointer leaves it. *)
Definition op_leaves (c : string) : bool := String.eqb c "<".

(** [get_tok_value]: a number for a register, bytes for a memory. *)
Inductive value := VReg (v : Z) | VMem (l : list Z).
Definition le8 (v : Z) : list Z := (fun i => v / 2^(8 * Z.of_nat i) mod 256) <$> seq 0 8.
Definition get_tok_value (reg : bool) (c : string) : option (res (value * string)) :=
  if starts_with "0x" c then
    let '(h, r) := span ishexa (str_drop 2 c) in
    let len := Z.of_nat (String.length h) in
    if (len <=? 0) || (reg && (8 <? len / 2)) || (512 <=? len + 2) then Some Err
    else if reg then Some (Ok (VReg (u64 (get_math ("0x" +:+ h))), r))
    else
      match hexstr2binstr get_math h with
      | Some (out, n) => if n =? Z.of_nat (length out) then Some (Ok (VMem out, r)) else None
      | None => None
      end
  else
    let '(h, r) := span is_dec c in
    match h with
    | "" => Some Err
    | _ =>
      if (512 <=? String.length h)%nat then None
      else let v := u64 (get_math h) in Some (Ok (if reg then VReg v else VMem (le8 v), r))
    end.

(** The operator and the value of a token. *)
Definition op_value (reg : bool) (at_ c : string) : option (res (op_t * value * string)) :=
  let c := skip_chars c in
  if op_leaves c && negb (reg && (fresh_type at_ =? MEM_TOK)) then None
  else
    match get_tok_op (fresh_type at_) c with
    | Err => Some Err
    | Ok (op, c) =>
      match get_tok_value reg (skip_chars c) with
      | None => None
      | Some Err => Some Err
      | Some (Ok (v, c)) => Some (Ok (op, v, c))
      end
    end.

(** A memory, behind its bracket. *)
Definition get_mem (c : string) : option (res (tok * string)) :=
  let c := skip_chars c in
  if starts_with "0x" c then
    let '(h, r) := span ishexa (str_drop 2 c) in
    if (8 <? Z.of_nat (String.length h) / 2) then Some Err
    else
      match skip_chars r with
      | String b r =>
        if Ascii.eqb b "]" then
          match op_value false c r with
          | None => None
          | Some (Ok (op, VMem v, c)) => Some (Ok (Mem_tok (u64 (get_math ("0x" +:+ h))) op v LOG_NONE, c))
          | Some _ => Some Err
          end
        else Some Err
      | _ => Some Err
      end
  else Some Err.

(** [get_tok]: a register; when a bracket follows it at once, the memory takes its place.  Anything else
    is no token. *)
Definition get_tok (c : string) : option (res (tok * string)) :=
  match skip_chars c with
  | String b r =>
    if Ascii.eqb b "%" then
      let ret := get_reg r in
      if ret <? 0 then Some Err
      else
        match roff !! Z.to_nat ret with
        | None => None
        | Some (name, off) =>
          match op_value true (String b r) (str_drop (String.length name) r) with
          | None => None
          | Some (Ok (op, VReg v, c)) =>
            match c with
            | String d c' => if Ascii.eqb d "[" then get_mem c' else Some (Ok (Reg_tok off op v LOG_NONE, c))
            | _ => Some (Ok (Reg_tok off op v LOG_NONE, c))
            end
          | Some _ => Some Err
          end
        end
    else if Ascii.eqb b "[" then get_mem r
    else Some Err
  | _ => Some Err
  end.

(** [get_log_op]: the operation behind a token is kept in it; [f] tells whether there is one. *)
Definition get_log_op (c : string) (f : bool) : res (option log_t * string) :=
  if starts_with "and" c then if f then Ok (Some LOG_AND, str_drop 3 c) else Err
  else if starts_with "or" c then if f then Ok (Some LOG_OR, str_drop 2 c) else Err
  else Ok (None, c).

Fixpoint set_last_log (l : log_t) (g : list tok) : list tok :=
  match g with [] => [] | [t] => [set_log l t] | t :: g' => t :: set_last_log l g' end.

(** [free_cond]: a group inside the list is freed by the call for it and again by the loop. *)
Definition free_cond (g : list tok) : option unit := if existsb is_group g then None else Some tt.

(** An error frees the tokens of its group. *)
Definition fail_cond (g : list tok) : option (res (list tok * string)) :=
  match free_cond g with Some _ => Some Err | None => None end.

(** [process_cond]: the loop over the tokens of a group; each turn takes a character at least. *)
Fixpoint cond_loop (fuel : nat) (top : bool) (c : string) (g : list tok) : option (res (list tok * string)) :=
  match fuel with
  | O => None
  | S fuel' =>
    match c with
    | "" => Some (Ok (g, c))
    | _ =>
      let c := skip_chars c in
      match get_log_op c (match g with [] => false | _ => true end) with
      | Err => fail_cond g
      | Ok (l, c) =>
        let g := match l with Some l => set_last_log l g | None => g end in
        let c := skip_chars c in
        match c with
        | String b r =>
          if Ascii.eqb b "(" then
            match cond_loop fuel' false r [] with
            | None => None
            | Some Err => fail_cond g
            | Some (Ok (g', c')) =>
              let g := (g ++ [Group_tok g' LOG_NONE])%list in
              match c' with
              | String d c'' => if Ascii.eqb d ")" then cond_loop fuel' top c'' g else fail_cond g
              | _ => fail_cond g
              end
            end
          else if Ascii.eqb b ")" then if top then fail_cond g else Some (Ok (g, c))
          else
            match get_tok c with
            | None => None
            | Some Err => fail_cond g
            | Some (Ok (t, c)) => cond_loop fuel' top c (g ++ [t])%list
            end
        | _ => fail_cond g
        end
      end
    end
  end.

(** [parse_cond] *)
Definition parse_cond (cond : string) : option (res (list tok)) :=
  match cond_loop (S (String.length cond)) true cond [] with
  | None => None
  | Some Err => Some Err
  | Some (Ok (g, _)) => Some (Ok g)
  end.
End parser.

(** ** Evaluation

    [reg] is the register at an offset, [mem] the memory of the process, [None] when it cannot be read. *)
Section eval.
Context (debug : bool) (reg : Z -> Z) (mem : Z -> nat -> option (list Z)).

Definition eval_token_reg (off : Z) (op : op_t) (val : Z) : bool :=
  if debug then
    let reg_val := u64 (reg off) in
    match op with
    | OP_LE => reg_val <=? val
    | OP_LT => reg_val <? val
    | OP_EQ => reg_val =? val
    | OP_NE => negb (reg_val =? val)
    | OP_GE => val <=? reg_val
    | OP_GT => val <=? reg_val
    end
  else false.

Definition eval_token_mem (off : Z) (op : op_t) (val : list Z) : bool :=
  if debug then
    match mem off (length val) with
    | None => false
    | Some rvalue => match op with OP_EQ => bool_decide (val = rvalue) | _ => negb (bool_decide (val = rvalue)) end
    end
  else false.

(** The turn for a token of value [v ()]: the value and the operation kept so far. *)
Definition cond_step (val_cond : bool) (log : log_t) (t_log : log_t) (v : bool) : bool * log_t :=
  match val_cond, log with
  | true, LOG_OR | false, LOG_AND => (val_cond, log)
  | _, _ => (v, match t_log with LOG_NONE => log | l => l end)
  end.

Fixpoint eval_cond (t : tok) : bool :=
  match t with
  | Reg_tok off op val _ => eval_token_reg off op val
  | Mem_tok off op val _ => eval_token_mem off op val
  | Group_tok g _ =>
    let fix loop (g : list tok) (val_cond : bool) (log : log_t) : bool :=
      match g with
      | [] => val_cond
      | t :: g' => let '(v, log) := cond_step val_cond log (log_op t) (eval_cond t) in loop g' v log
      end in
    loop g true LOG_NONE
  end.
End eval.

(** ** What a condition means

    The operations have no precedence: each takes everything to its right. *)
Fixpoint right_assoc (log : log_t) (l : list (bool * log_t)) : bool :=
  match l with
  | [] => true
  | [(v, _)] => v
  | (v, lg) :: l' =>
    let log := match lg with LOG_NONE => log | _ => lg end in
    match log with
    | LOG_AND => v && right_assoc log l'
    | LOG_OR => v || right_assoc log l'
    | LOG_NONE => right_assoc log l'
    end
  end.

Section meaning.
Context (debug : bool) (reg : Z -> Z) (mem : Z -> nat -> option (list Z)).
Notation eval := (eval_cond debug reg mem).

(** The loop of [eval_cond] on its own. *)
Fixpoint cond_values (g : list (bool * log_t)) (val_cond : bool) (log : log_t) : bool :=
  match g with
  | [] => val_cond
  | (v, l) :: g' => let '(v, log) := cond_step val_cond log l v in cond_values g' v log
  end.
Definition values (g : list tok) : list (bool * log_t) := (fun t => (eval t, log_op t)) <$> g.

Lemma eval_group g l : eval (Group_tok g l) = cond_values (values g) true LOG_NONE.
Proof.
  cbn [eval_cond]. generalize true as v. generalize LOG_NONE as log.
  induction g as [|t g IH]; intros log v; [done|]. cbn [values fmap list_fmap cond_values].
  destruct (cond_step v log (log_op t) (eval t)) as [v' log']. apply IH.
Qed.

Lemma cond_values_stop g v log :
  (v = true /\ log = LOG_OR) \/ (v = false /\ log = LOG_AND) -> cond_values g v log = v.
Proof.
  intros H. induction g as [|[w l] g IH]; [done|]. cbn [cond_values]. destruct H as [[-> ->]|[-> ->]]; exact IH.
Qed.

Lemma cond_values_right p g v log : ~ (v = true /\ log = LOG_OR) -> ~ (v = false /\ log = LOG_AND) ->
  cond_values (p :: g) v log = right_assoc log (p :: g).
Proof.
  revert p v log. induction g as [|q g IH]; intros [w l] v log H1 H2; cbn [cond_values];
    (assert (cond_step v log l w = (w, match l with LOG_NONE => log | l => l end)) as ->
      by (destruct v, log; try done; exfalso; tauto)); [done|].
  set (log' := match l with LOG_NONE => log | l => l end).
  change (right_assoc log ((w, l) :: q :: g)) with
    (match log' with LOG_AND => w && right_assoc log' (q :: g) | LOG_OR => w || right_assoc log' (q :: g) | LOG_NONE => right_assoc log' (q :: g) end).
  change (cond_values (q :: g) w log' = match log' with LOG_AND => w && right_assoc log' (q :: g) | LOG_OR => w || right_assoc log' (q :: g) | LOG_NONE => right_assoc log' (q :: g) end).
  destruct w eqn:Ew, log' eqn:El; cbn [andb orb]; try (apply IH; intros [? ?]; discriminate);
    apply cond_values_stop; auto.
Qed.

(** A condition is evaluated from the right: [a and b or c] is [a and (b or c)], [a or b and c] is
    [a or (b and c)]; a missing operation is the one before it, and no condition at all holds. *)
Theorem eval_cond_right g l : eval (Group_tok g l) = right_assoc LOG_NONE (values g).
Proof.
  rewrite eval_group. destruct (values g) as [|p vs]; [done|]. apply cond_values_right; intros [? ?]; discriminate.
Qed.
End meaning.

(** [true or .. and false] holds, [false and .. or true] does not. *)
Example or_and : right_assoc LOG_NONE [(true, LOG_OR); (true, LOG_AND); (false, LOG_NONE)] = true /\
  right_assoc LOG_NONE [(false, LOG_AND); (true, LOG_OR); (true, LOG_NONE)] = false.
Proof. done. Qed.

(** ** Printed conditions *)
Definition show_op (op : op_t) : string :=
  match op with OP_LT => "<" | OP_LE => "<=" | OP_EQ => "=" | OP_NE => "<>" | OP_GE => ">=" | OP_GT => ">" end.
Definition show_log (l : log_t) : string := match l with LOG_AND => " and " | LOG_OR => " or " | LOG_NONE => " " end.

Section show.
Context (reg_name : Z -> string).
Definition show_cmp (op : op_t) (v : string) : string := " " +:+ show_op op +:+ " 0x" +:+ v.
Fixpoint show_tok (t : tok) : string :=
  match t with
  | Reg_tok off op v _ => String "%" (reg_name off +:+ show_cmp op (fmt_x v))
  | Mem_tok off op v _ => String "[" ("0x" +:+ fmt_x off +:+ String "]" (show_cmp op (hex_text "" v)))
  | Group_tok g _ =>
    let fix show_list (g : list tok) : string :=
      match g with
      | [] => ""
      | [t] => show_tok t
      | t :: g' => show_tok t +:+ show_log (log_op t) +:+ show_list g'
      end in
    String "(" (show_list g +:+ ")")
  end.
Fixpoint show_list (g : list tok) : string :=
  match g with
  | [] => ""
  | [t] => show_tok t
  | t :: g' => show_tok t +:+ show_log (log_op t) +:+ show_list g'
  end.
Lemma show_group g l : show_tok (Group_tok g l) = String "(" (show_list g +:+ ")").
Proof. done. Qed.
End show.

Section roundtrip.
Context (roff : list (string * Z)) (get_math : string -> Z) (fresh_type : string -> Z) (reg_name : Z -> string).
Notation cond_loop := (cond_loop roff get_math fresh_type).

(** The operators that are read back: [=] and [<>], and the others but [<=] where the type field of a new token, which is
    looked at before it is set, never holds the number of a memory token. *)
Definition read_back (op : op_t) : Prop := op = OP_EQ \/ op = OP_NE \/ op <> OP_LE /\ forall s, fresh_type s <> MEM_TOK.
Lemma read_back_le op : read_back op -> op <> OP_LE.
Proof. by intros [-> |[-> |[? _]]]. Qed.

(** What can be written: operators that are read back, known registers, numbers and bytes that fit. *)
Inductive writable : tok -> Prop :=
| w_reg off op v l i :
    read_back op -> is_u64 v -> roff !! i = Some (reg_name off, off) ->
    (forall s, get_reg roff (reg_name off +:+ s) = Z.of_nat i) -> writable (Reg_tok off op v l)
| w_mem off op v l :
    read_back op -> is_u64 off -> Forall is_u8 v -> (0 < length v <= 254)%nat -> writable (Mem_tok off op v l)
| w_group g l : Forall writable g -> (forall t g', g = (g' ++ [t])%list -> log_op t = LOG_NONE) -> writable (Group_tok g l).

Context (Hmath : forall v, is_u64 v -> get_math ("0x" +:+ fmt_x v) = v).

(** *** Text *)
Definition head_not (f : ascii -> bool) (k : string) : bool := match k with "" => true | String c _ => negb (f c) end.

Lemma span_all f s k : all_chars f s = true -> head_not f k = true -> span f (s +:+ k) = (s, k).
Proof.
  intros Hs Hk. induction s as [|c s IH]; cbn [String.append].
  - destruct k as [|c k]; [done|]. cbn in *. apply negb_true_iff in Hk. by rewrite Hk.
  - cbn [all_chars] in Hs. apply andb_true_iff in Hs as [Hc Hs]. cbn [span]. by rewrite Hc, IH.
Qed.

(** What follows a token. *)
Definition delim (c : ascii) : bool := Ascii.eqb c " " || Ascii.eqb c ")".
Definition ends (k : string) : bool := match k with "" => true | String c _ => delim c end.

Lemma delim_facts c : delim c = true -> ishexa c = false /\ is_dec c = false /\ Ascii.eqb c "[" = false.
Proof. unfold delim. rewrite orb_true_iff, !Ascii.eqb_eq. by intros [-> | ->]. Qed.
Lemma ends_not_hexa k : ends k = true -> head_not ishexa k = true.
Proof. destruct k as [|c k]; [done|]. cbn. intros H. by destruct (delim_facts c H) as (-> & _). Qed.

Definition hexa_digit (d : Z) : bool := ishexa (digit d).
Lemma hexa_digit_ok d : 0 <= d < 16 -> ishexa (digit d) = true.
Proof. exact (forallb_below hexa_digit 16 eq_refl d). Qed.

Lemma fmt_x_hexa v : all_chars ishexa (fmt_x v) = true.
Proof. apply digits_chars; [lia|apply hexa_digit_ok|done]. Qed.

Lemma digits_short base n fuel z acc :
  1 < base -> 0 <= z < base ^ (Z.of_nat n) -> (0 < n)%nat ->
  (String.length (digits base fuel z acc) <= n + String.length acc)%nat.
Proof.
  intros Hb. revert n z acc. induction fuel as [|fuel IH]; intros n z acc Hz Hn; cbn [digits]; [lia|].
  destruct (Z.ltb_spec z base); [cbn [String.length]; lia|]. destruct n as [|n]; [lia|].
  assert (0 < n)%nat. { destruct n; [|lia]. cbn in Hz. lia. }
  etransitivity; [apply (IH n)|cbn [String.length]; lia]; [|done].
  rewrite Nat2Z.inj_succ, Z.pow_succ_r in Hz by lia. split; [apply Z.div_pos; lia|apply Z.div_lt_upper_bound; lia].
Qed.
Lemma fmt_x_length v : is_u64 v -> (0 < String.length (fmt_x v) <= 16)%nat.
Proof.
  intros Hv. unfold fmt_x. split.
  - destruct (digits_cons 16 63 v "") as (c & s & ->). cbn. lia.
  - pose proof (digits_short 16 16 64 v "") as H. cbn [String.length] in H. unfold is_u64 in Hv. lia.
Qed.

Definition hex_byte_hexa (b : Z) : bool := all_chars ishexa (fmt_x0 2 b).
Lemma hex_text_hexa bs : Forall is_u8 bs -> all_chars ishexa (hex_text "" bs) = true.
Proof.
  induction 1 as [|b bs Hb Hbs IH]; [done|]. cbn [hex_text String.append]. rewrite all_chars_app, IH, andb_true_r.
  exact (forallb_below hex_byte_hexa 256 eq_refl b Hb).
Qed.
Lemma hex_text_length bs : Forall is_u8 bs -> String.length (hex_text "" bs) = (2 * length bs)%nat.
Proof.
  induction 1 as [|b bs Hb Hbs IH]; [done|]. cbn [hex_text String.append length].
  rewrite str_length_app, IH, fmt_x0_byte_length by done. lia.
Qed.

(** *** One token *)
Lemma get_tok_op_show at_ op rest :
  read_back op -> get_tok_op (fresh_type at_) (show_op op +:+ String " " rest) = Ok (op, match op with OP_LT => rest | _ => String " " rest end).
Proof.
  intros Hop. unfold get_tok_op. destruct Hop as [-> |[-> |[Hle Hj]]]; [done|done|].
  specialize (Hj at_). apply Z.eqb_neq in Hj.
  destruct op; try done; cbn [show_op String.append starts_with Ascii.eqb Bool.eqb andb str_drop]; by rewrite ?Hj.
Qed.

Lemma op_value_show reg at_ op v k :
  read_back op ->
  op_value get_math fresh_type reg at_ (show_cmp op v +:+ k) =
    match get_tok_value get_math reg ("0x" +:+ v +:+ k) with
    | None => None
    | Some Err => Some Err
    | Some (Ok (x, c)) => Some (Ok (op, x, c))
    end.
Proof.
  intros Hop. unfold op_value, show_cmp. rewrite !append_assoc.
  assert (E : forall s, skip_chars (" " +:+ show_op op +:+ s) = show_op op +:+ s) by (intros; by destruct op).
  rewrite E.
  assert (L : forall s, op_leaves (show_op op +:+ String " " s) = false) by (intros; by destruct op).
  change (" 0x" +:+ (v +:+ k)) with (String " " ("0x" +:+ (v +:+ k))).
  rewrite L, get_tok_op_show by done. cbn [andb]. by destruct op.
Qed.

Lemma value_reg v k : is_u64 v -> ends k = true -> get_tok_value get_math true ("0x" +:+ fmt_x v +:+ k) = Some (Ok (VReg v, k)).
Proof.
  intros Hv Hk. unfold get_tok_value. cbn [String.append starts_with Ascii.eqb Bool.eqb andb str_drop].
  rewrite span_all; [|apply fmt_x_hexa|by apply ends_not_hexa]. pose proof (fmt_x_length v Hv).
  assert (Z.of_nat (String.length (fmt_x v)) / 2 <= 8) by (apply Z.div_le_upper_bound; lia).
  rewrite (proj2 (Z.leb_gt _ _)), (proj2 (Z.ltb_ge _ _)), (proj2 (Z.leb_gt _ _)) by lia. cbn [orb andb].
  change (String "0" (String "x" (fmt_x v))) with ("0x" +:+ fmt_x v). by rewrite Hmath, u64_id.
Qed.

Lemma value_mem bs k : Forall is_u8 bs -> (0 < length bs <= 254)%nat -> ends k = true ->
  get_tok_value get_math false ("0x" +:+ hex_text "" bs +:+ k) = Some (Ok (VMem bs, k)).
Proof.
  intros Hb Hl Hk. unfold get_tok_value. cbn [String.append starts_with Ascii.eqb Bool.eqb andb str_drop].
  rewrite span_all; [|by apply hex_text_hexa|by apply ends_not_hexa]. rewrite hex_text_length by done.
  rewrite (proj2 (Z.leb_gt _ _)), (proj2 (Z.leb_gt _ _)) by lia. cbn [orb].
  unfold hexstr2binstr. rewrite hexstr_text by auto. cbn [Nat.eqb app]. by rewrite Z.eqb_refl.
Qed.

Lemma get_tok_show t k :
  writable t -> is_group t = false -> ends k = true ->
  get_tok roff get_math fresh_type (show_tok reg_name t +:+ k) = Some (Ok (set_log LOG_NONE t, k)).
Proof.
  intros Ht Hg Hk. destruct Ht as [off op v l i Hop Hv Hi Hr|off op v l Hop Ho Hv Hl|]; [| |done]; cbn [show_tok set_log].
  - unfold get_tok.
    change (skip_chars (String "%" (reg_name off +:+ show_cmp op (fmt_x v)) +:+ k))
      with (String "%" ((reg_name off +:+ show_cmp op (fmt_x v)) +:+ k)).
    rewrite append_assoc, Hr. cbn [Ascii.eqb Bool.eqb]. rewrite (proj2 (Z.ltb_ge _ _)), Nat2Z.id, Hi by lia.
    rewrite str_drop_app, op_value_show, value_reg by done. destruct k as [|c k]; [done|].
    by destruct (delim_facts c Hk) as (_ & _ & ->).
  - unfold get_tok.
    change (skip_chars (String "[" ("0x" +:+ fmt_x off +:+ String "]" (show_cmp op (hex_text "" v))) +:+ k))
      with (String "[" (("0x" +:+ fmt_x off +:+ String "]" (show_cmp op (hex_text "" v))) +:+ k)).
    cbn [Ascii.eqb Bool.eqb]. unfold get_mem. rewrite !append_assoc.
    change (skip_chars ("0x" +:+ ?s)) with ("0x" +:+ s).
    set (at_ := "0x" +:+ fmt_x off +:+ _). unfold at_ at 1 2. clearbody at_.
    change (starts_with "0x" (skip_chars ("0x" +:+ ?s))) with true.
    cbn [String.append starts_with Ascii.eqb Bool.eqb andb str_drop].
    rewrite span_all; [|apply fmt_x_hexa|done]. pose proof (fmt_x_length off Ho).
    assert (Z.of_nat (String.length (fmt_x off)) / 2 <= 8) by (apply Z.div_le_upper_bound; lia).
    rewrite (proj2 (Z.ltb_ge _ _)) by lia.
    change (skip_chars (String "]" (show_cmp op (hex_text "" v) +:+ k))) with (String "]" (show_cmp op (hex_text "" v) +:+ k)).
    cbn [Ascii.eqb Bool.eqb]. rewrite op_value_show, value_mem by done.
    change (String "0" (String "x" (fmt_x off))) with ("0x" +:+ fmt_x off). by rewrite Hmath, u64_id.
Qed.

(** *** The loop *)
Definition opens (c : ascii) : bool := Ascii.eqb c "%" || Ascii.eqb c "[" || Ascii.eqb c "(".
Lemma show_opens t k : exists c s, show_tok reg_name t +:+ k = String c s /\ opens c = true.
Proof. destruct t; cbn [show_tok String.append]; by do 2 eexists. Qed.

(** A turn begins at a token. *)
Lemma opens_turn c s g :
  opens c = true -> skip_chars (String c s) = String c s /\ get_log_op (String c s) g = Ok (None, String c s).
Proof. unfold opens. rewrite !orb_true_iff, !Ascii.eqb_eq. by intros [[-> | ->]| ->]. Qed.

Lemma set_last_app l g t : set_last_log l (g ++ [t]) = (g ++ [set_log l t])%list.
Proof. induction g as [|u g IH]; [done|]. cbn [app set_last_log]. rewrite IH. by destruct (g ++ [t])%list eqn:E; [destruct g|]. Qed.
Lemma set_log_twice l t : set_log l (set_log LOG_NONE t) = set_log l t.
Proof. by destruct t. Qed.
Lemma set_log_same t : set_log (log_op t) t = t.
Proof. by destruct t. Qed.

(** The operation between two tokens goes to the first. *)
Lemma log_turn fuel top l c s g t :
  opens c = true ->
  cond_loop (S fuel) top (show_log l +:+ String c s) (g ++ [set_log LOG_NONE t]) = cond_loop (S fuel) top (String c s) (g ++ [set_log l t]).
Proof.
  intros Hc. destruct (opens_turn c s true Hc) as [Hs Hl].
  assert (E : forall l', (match (g ++ [set_log l' t])%list with [] => false | _ :: _ => true end) = true) by (intros; by destruct g).
  destruct l; cbn [show_log String.append Cond.cond_loop].
  - change (skip_chars (String " " (String c s))) with (skip_chars (String c s)). by rewrite Hs, E, Hl.
  - change (skip_chars (String " " (String "o" (String "r" (String " " (String c s)))))) with (String "o" (String "r" (String " " (String c s)))).
    rewrite Hs, !E, Hl. cbn [get_log_op starts_with Ascii.eqb Bool.eqb andb str_drop].
    change (skip_chars (String " " (String c s))) with (skip_chars (String c s)). by rewrite set_last_app, set_log_twice, Hs.
  - change (skip_chars (String " " (String "a" (String "n" (String "d" (String " " (String c s))))))) with (String "a" (String "n" (String "d" (String " " (String c s))))).
    rewrite Hs, !E, Hl. cbn [get_log_op starts_with Ascii.eqb Bool.eqb andb str_drop].
    change (skip_chars (String " " (String c s))) with (skip_chars (String c s)). by rewrite set_last_app, set_log_twice, Hs.
Qed.

(** Where a list of tokens stops. *)
Definition stops (top : bool) (k : string) : Prop := if top then k = "" else exists s, k = String ")" s.
Lemma stops_ends top k : stops top k -> ends k = true.
Proof. destruct top; [by intros ->|by intros [s ->]]. Qed.

Lemma loop_stops fuel top k g : stops top k -> cond_loop (S fuel) top k g = Some (Ok (g, k)).
Proof. destruct top; [by intros ->|intros [s ->]]. by destruct g. Qed.

Definition last_plain (g : list tok) : Prop := forall t g', g = (g' ++ [t])%list -> log_op t = LOG_NONE.
Lemma last_plain_tail t u g : last_plain (t :: u :: g) -> last_plain (u :: g).
Proof. intros H x g' E. apply (H x (t :: g')). by rewrite E. Qed.

Lemma turn_show fuel top t rest g0 :
  writable t -> ends rest = true ->
  (forall g l k, t = Group_tok g l -> cond_loop fuel false (show_list reg_name g +:+ String ")" k) [] = Some (Ok (g, String ")" k))) ->
  cond_loop (S fuel) top (show_tok reg_name t +:+ rest) g0 = cond_loop fuel top rest (g0 ++ [set_log LOG_NONE t]).
Proof.
  intros Ht Hr Hg. destruct (show_opens t rest) as (c & s & Ec & Hc).
  destruct (opens_turn c s (match g0 with [] => false | _ => true end) Hc) as [Hs Hl].
  assert (Hrun : cond_loop (S fuel) top (String c s) g0 =
    if Ascii.eqb c "(" then
      match cond_loop fuel false s [] with
      | None => None
      | Some Err => fail_cond g0
      | Some (Ok (g', c')) =>
        match c' with
        | String d c'' => if Ascii.eqb d ")" then cond_loop fuel top c'' (g0 ++ [Group_tok g' LOG_NONE]) else fail_cond (g0 ++ [Group_tok g' LOG_NONE])
        | _ => fail_cond (g0 ++ [Group_tok g' LOG_NONE])
        end
      end
    else
      match get_tok roff get_math fresh_type (String c s) with
      | None => None
      | Some Err => fail_cond g0
      | Some (Ok (t, c)) => cond_loop fuel top c (g0 ++ [t])
      end).
  { cbn [Cond.cond_loop]. rewrite Hs, Hl, Hs. destruct (Ascii.eqb c "("); [done|].
    replace (Ascii.eqb c ")") with false; [done|]. symmetry. unfold opens in Hc. rewrite !orb_true_iff, !Ascii.eqb_eq in Hc.
    by destruct Hc as [[-> | ->]| ->]. }
  rewrite Ec, Hrun. destruct (is_group t) eqn:Et.
  - destruct t as [| |g l]; [done..|]. rewrite show_group in Ec. cbn [String.append] in Ec. rewrite append_assoc in Ec. simplify_eq.
    cbn [Ascii.eqb Bool.eqb String.append]. by rewrite (Hg g l rest).
  - rewrite <-Ec, get_tok_show by done. replace (Ascii.eqb c "(") with false; [done|].
    destruct t; [| |done]; cbn [show_tok String.append] in Ec; by simplify_eq.
Qed.

Lemma loop_show fuel : forall top g g0 k,
  (String.length (show_list reg_name g) < fuel)%nat -> Forall writable g -> last_plain g -> stops top k ->
  cond_loop fuel top (show_list reg_name g +:+ k) g0 = Some (Ok ((g0 ++ g)%list, k)).
Proof.
  induction fuel as [|fuel IH]; [lia|]. intros top g g0 k Hl Hw Hp Hk.
  destruct g as [|t g]; [rewrite app_nil_r; by apply loop_stops|]. apply Forall_cons in Hw as [Ht Hw].
  set (rest := match g with [] => k | _ => show_log (log_op t) +:+ (show_list reg_name g +:+ k) end).
  assert (E : show_list reg_name (t :: g) +:+ k = show_tok reg_name t +:+ rest).
  { unfold rest. destruct g; [done|]. cbn [show_list]. by rewrite !append_assoc. }
  assert (Hr : ends rest = true).
  { unfold rest. destruct g; [by eapply stops_ends|]. by destruct (log_op t). }
  assert (Hlen : (String.length (show_tok reg_name t) + match g with [] => 0 | _ => 1 + String.length (show_list reg_name g) end <= fuel)%nat).
  { destruct g as [|u g]; [cbn [show_list] in Hl; lia|]. change (show_list reg_name (t :: u :: g)) with
      (show_tok reg_name t +:+ show_log (log_op t) +:+ show_list reg_name (u :: g)) in Hl. rewrite !str_length_app in Hl.
    destruct (log_op t); cbn [show_log String.length] in Hl; lia. }
  rewrite E.
  assert (Hturn : cond_loop (S fuel) top (show_tok reg_name t +:+ rest) g0 = cond_loop fuel top rest (g0 ++ [set_log LOG_NONE t])).
  { apply turn_show; [done..|]. intros g1 l k1 ->. rewrite show_group in Hlen. cbn [String.length] in Hlen.
    rewrite str_length_app in Hlen. inversion Ht; simplify_eq. apply (IH false g1 [] (String ")" k1)); [lia|done|done|by eexists]. }
  rewrite Hturn. clear Hturn Hr E. destruct g as [|u g]; unfold rest; clear rest.
  - destruct fuel as [|fuel]; [destruct (show_opens t "") as (? & ? & E & _); destruct (show_tok reg_name t); [done|cbn in Hlen; lia]|].
    rewrite loop_stops by done. do 3 f_equal. rewrite <-(Hp t []) by done. by rewrite set_log_same.
  - destruct fuel as [|fuel]; [lia|].
    assert (Ho : exists c s, show_list reg_name (u :: g) +:+ k = String c s /\ opens c = true).
    { destruct g as [|u' g]; [apply show_opens|]. cbn [show_list]. rewrite append_assoc. apply show_opens. }
    destruct Ho as (c & s & Eo & Ho). rewrite Eo, log_turn by done. rewrite <-Eo, set_log_same.
    rewrite IH; [by rewrite <-app_assoc|lia|done|by eapply last_plain_tail|done].
Qed.

(** C19: a condition that is printed -- comparisons of registers and of memory joined by [and], [or] or a blank, and nested
    in brackets -- is parsed back to the same tokens: with [=] and [<>] whatever a new token holds, and with [<], [>] and
    [>=] where its type field, which is looked at before it is set, does not by chance hold the number of a memory token
    ([parse_fresh]).  [<=] is never read ([parse_le]). *)
Theorem cond_roundtrip g :
  Forall writable g -> last_plain g -> parse_cond roff get_math fresh_type (show_list reg_name g) = Some (Ok g).
Proof.
  intros Hw Hp. unfold parse_cond.
  pose proof (loop_show (S (String.length (show_list reg_name g))) true g [] "") as H.
  rewrite append_empty in H. rewrite H by (done || lia). done.
Qed.
End roundtrip.

(** The numbers of the tools, and the registers of i386. *)
Definition number (s : string) : Z := default 0 (tool_math s).
Lemma number_hex v : is_u64 v -> number ("0x" +:+ fmt_x v) = v.
Proof. intros Hv. unfold number. by rewrite tool_math_hex. Qed.
Definition i386_name (off : Z) : string :=
  match find (fun '(_, o) => o =? off) i386_roff with Some (n, _) => n | None => "" end.

Example parse_example :
  parse_cond i386_roff number (fun _ => 0) "%eax = 0x10 and (%ecx < 3 or [0x8048000] <> 0x90)" =
    Some (Ok [Reg_tok 24 OP_EQ 16 LOG_AND; Group_tok [Reg_tok 4 OP_LT 3 LOG_OR; Mem_tok 0x8048000 OP_NE [0x90] LOG_NONE] LOG_NONE]).
Proof. by vm_compute. Qed.

(** [<=] is never read, and [<] takes the character behind it. *)
Example parse_le : parse_cond i386_roff number (fun _ => 0) "%eax <= 3" = Some Err /\
  parse_cond i386_roff number (fun _ => 0) "%eax <12" = Some (Ok [Reg_tok 24 OP_LT 2 LOG_NONE]).
Proof. by vm_compute. Qed.
(** The field that is not set decides whether a comparison by order is read. *)
Example parse_fresh : parse_cond i386_roff number (fun _ => MEM_TOK) "%eax > 0x3" = Some Err /\
  parse_cond i386_roff number (fun _ => 0) "%eax > 0x3" = Some (Ok [Reg_tok 24 OP_GT 3 LOG_NONE]).
Proof. by vm_compute. Qed.
(** A blank at the end is an error; an error behind brackets frees twice. *)
Example parse_end : parse_cond i386_roff number (fun _ => 0) "%eax = 1 " = Some Err /\
  parse_cond i386_roff number (fun _ => 0) "(%eax = 1) " = None.
Proof. by vm_compute. Qed.

Lemma cond_roundtrip_witness :
  let g := [Reg_tok 24 OP_EQ 16 LOG_AND; Group_tok [Reg_tok 4 OP_GT 3 LOG_OR; Mem_tok 0x8048000 OP_NE [0x90] LOG_NONE] LOG_NONE] in
  parse_cond i386_roff number (fun _ => 0) (show_list i386_name g) = Some (Ok g).
Proof.
  apply (cond_roundtrip i386_roff number (fun _ => 0) i386_name); [apply number_hex| |].
  - assert (H1 : writable i386_roff (fun _ => 0) i386_name (Reg_tok 24 OP_EQ 16 LOG_AND))
      by (apply (w_reg i386_roff (fun _ => 0) i386_name 24 OP_EQ 16 LOG_AND 0); [by left|unfold is_u64; lia|done..]).
    assert (H2 : writable i386_roff (fun _ => 0) i386_name (Reg_tok 4 OP_GT 3 LOG_OR))
      by (apply (w_reg i386_roff (fun _ => 0) i386_name 4 OP_GT 3 LOG_OR 2); [by right; right|unfold is_u64; lia|done..]).
    assert (H3 : writable i386_roff (fun _ => 0) i386_name (Mem_tok 0x8048000 OP_NE [0x90] LOG_NONE))
      by (apply w_mem; [by right; left|unfold is_u64; lia|repeat constructor; unfold is_u8; lia|cbn; lia]).
    assert (H4 : Forall (writable i386_roff (fun _ => 0) i386_name) [Reg_tok 4 OP_GT 3 LOG_OR; Mem_tok 0x8048000 OP_NE [0x90] LOG_NONE])
      by (constructor; [exact H2|]; constructor; [exact H3|constructor]).
    constructor; [exact H1|]. constructor; [|constructor]. apply w_group; [exact H4|].
    intros t g' E. apply (f_equal last) in E. rewrite last_snoc in E. by simplify_eq/=.
  - intros t g' E. apply (f_equal last) in E. rewrite last_snoc in E. by simplify_eq/=.
Defined.
