(* ===== verification/Wp.v ===== *)
(** * Watchpoints: [src/dbg/wp.c], and the commands [!wp] and [!contwp] of [src/dbg/debug.c]

    The four slots of [ps.wps] and their counter; a slot is free when its condition is [NULL].  [None] is an
    access behind the slots or undefined behaviour of [Cond].  The process is the type [W]: its registers
    and memory, and a step of it, which fails when it ends or is interrupted. *)
From S2P Require Import Prelude Utils Cond.
#[local] Open Scope string_scope.
#[local] Open Scope Z_scope.

Definition WPS : nat := 4.

(** A slot holds a condition and its text. *)
Definition slot : Type := option (list tok * string).
Record wps_t := Wps { wps : list slot; wps_n : Z }.
Definition wps_init : wps_t := Wps (replicate WPS None) 0.

Section wp.
Context {W : Type} (roff : list (string * Z)) (get_math : string -> Z) (fresh_type : string -> Z).
Context (config_debug : bool) (reg : W -> Z -> Z) (mem : W -> Z -> nat -> option (list Z)).

Definition holds (w : W) (g : list tok) : bool := eval_cond config_debug (reg w) (mem w) (Group_tok g LOG_NONE).

(** [debug_wp_match]: the slots are walked over until as many conditions as there are watchpoints are seen. *)
Fixpoint match_loop (w : W) (slots : list slot) (i n : Z) : option Z :=
  if 0 <? n then
    match slots with
    | [] => None
    | Some (c, _) :: r => if holds w c then Some i else match_loop w r (i + 1) (n - 1)
    | None :: r => match_loop w r (i + 1) n
    end
  else Some (-1).
Definition debug_wp_match (w : W) (st : wps_t) : option Z := match_loop w (wps st) 0 (wps_n st).

(** The first free slot; the loops go on behind the last. *)
Fixpoint free_slot (slots : list slot) : option nat :=
  match slots with [] => None | None :: _ => Some 0%nat | Some _ :: r => S <$> free_slot r end.

(** [debug_wp_add] *)
Definition debug_wp_add (str : string) (st : wps_t) : option (Z * wps_t) :=
  if wps_n st =? Z.of_nat WPS then Some (-1, st)
  else
    match free_slot (wps st) with
    | None => None
    | Some i =>
      match parse_cond roff get_math fresh_type str with
      | None => None
      | Some Err => Some (-2, st)
      | Some (Ok c) => Some (Z.of_nat i, Wps (<[i := Some (c, str)]> (wps st)) (wps_n st + 1))
      end
    end.

(** [debug_wp_rm] *)
Definition debug_wp_rm (i : Z) (st : wps_t) : option (Z * wps_t) :=
  if i <? 0 then None
  else
    match wps st !! Z.to_nat i with
    | None => None
    | Some None => Some (-1, st)
    | Some (Some (c, _)) =>
      match free_cond c with
      | None => None
      | Some _ => Some (0, Wps (<[Z.to_nat i := None]> (wps st)) (wps_n st - 1))
      end
    end.

(** [debug_wp_list]: what is printed. *)
Fixpoint list_loop (slots : list slot) (i n : Z) : option string :=
  if 0 <? n then
    match slots with
    | [] => None
    | Some (_, str) :: r => (fun s => fmt_d i +:+ ": " +:+ str +:+ nl +:+ s) <$> list_loop r (i + 1) (n - 1)
    | None :: r => list_loop r (i + 1) n
    end
  else Some "".
Definition debug_wp_list (st : wps_t) : option string := list_loop (wps st) 0 (wps_n st).

(** [debug_wp]: the command.  The counter is compared with the size of the slots in bytes, a blank in front of
    the minus is not skipped when the number is read, and slot 4 may be removed.  The result is the number
    returned, the slots and what is printed on the standard output. *)
Definition sizeof_wps : Z := 24 * Z.of_nat WPS.
Definition debug_wp (str : string) (st : wps_t) : option (Z * wps_t * string) :=
  if wps_n st =? sizeof_wps then Some (-1, st, "")
  else
    let key := match str with "" => "000"%char | String c _ => c end in
    let key := if (ord key =? 0) && (wps_n st =? 0) then "?"%char
               else if Ascii.eqb key " " then match str_drop 1 str with "" => "000"%char | String c _ => c end else key in
    if Ascii.eqb key "-" then
      let i := atoi (skip_chars (str_drop 1 str)) in
      if (0 <=? i) && (i <=? 4) then
        match debug_wp_rm i st with
        | None => None
        | Some (r, st) => Some (0, st, if truth r then "watchpoint " +:+ fmt_d i +:+ " free" +:+ nl else "")
        end
      else Some (-1, st, "")
    else if Ascii.eqb key "?" then Some (0, st, "")
    else
      match skip_chars str with
      | "" => (fun s => (0, st, s)) <$> debug_wp_list st
      | str =>
        match free_slot (wps st) with
        | None => None
        | Some i =>
          match parse_cond roff get_math fresh_type str with
          | None => None
          | Some Err => Some (-1, st, "")
          | Some (Ok c) =>
            Some (0, Wps (<[i := Some (c, str)]> (wps st)) (wps_n st + 1), fmt_d (Z.of_nat i) +:+ ": " +:+ str +:+ nl)
          end
        end
      end.

(** [debug_contwp]: the process is stepped until a condition holds; with [dbg.wptrace] it goes on.  [cmd] is
    the command run then.  The result tells where it stopped, or where it is after [fuel] steps, and which
    watchpoints matched. *)
Inductive run := Stopped (w : W) (hits : list Z) | Running (w : W) (hits : list Z) | Crashed.
Fixpoint contwp_loop (fuel : nat) (step : W -> option W) (cmd : W -> W) (wptrace : bool) (st : wps_t) (w : W) (hits : list Z) : run :=
  match fuel with
  | O => Running w hits
  | S fuel' =>
    match step w with
    | None => Stopped w hits
    | Some w =>
      match debug_wp_match w st with
      | None => Crashed
      | Some i =>
        if 0 <=? i then
          if wptrace then contwp_loop fuel' step cmd wptrace st (cmd w) (hits ++ [i])
          else Stopped (cmd w) (hits ++ [i])
        else contwp_loop fuel' step cmd wptrace st w hits
      end
    end
  end.
Definition debug_contwp (fuel : nat) (step : W -> option W) (cmd : W -> W) (wptrace : bool) (st : wps_t) (w : W) : run :=
  if wps_n st =? 0 then Stopped w [] else contwp_loop fuel step cmd wptrace st w [].

(** ** The invariant *)
Definition used (s : slot) : bool := match s with Some _ => true | None => false end.
Definition count_used (l : list slot) : Z := Z.of_nat (length (filter (fun s => used s = true) l)).
Definition wps_ok (st : wps_t) : Prop := length (wps st) = WPS /\ wps_n st = count_used (wps st).
End wp.

Lemma count_cons s l : count_used (s :: l) = (if used s then 1 else 0) + count_used l.
Proof. unfold count_used. rewrite filter_cons. destruct s as [x|]; cbn [used]; [rewrite decide_True by done|rewrite decide_False by done]; cbn [length]; lia. Qed.
Lemma count_le l : count_used l <= Z.of_nat (length l).
Proof. induction l as [|s l IH]; [done|]. rewrite count_cons. cbn [length]. destruct (used s); lia. Qed.
Lemma count_nonneg l : 0 <= count_used l.
Proof. unfold count_used. lia. Qed.

Lemma count_insert l i s s' : l !! i = Some s -> count_used (<[i := s']> l) = count_used l + (if used s' then 1 else 0) - (if used s then 1 else 0).
Proof.
  revert i. induction l as [|x l IH]; intros [|i] H; [done..| |].
  - cbn in H. simplify_eq. change (<[0%nat := s']> (s :: l)) with (s' :: l). rewrite !count_cons. lia.
  - change (<[S i := s']> (x :: l)) with (x :: <[i := s']> l). rewrite !count_cons, (IH i) by done. lia.
Qed.

Lemma free_slot_free l i : free_slot l = Some i -> l !! i = Some None.
Proof.
  revert i. induction l as [|[x|] l IH]; intros i H; cbn [free_slot] in H; [done| |by simplify_eq].
  destruct (free_slot l) as [j|]; [|done]. cbn in H. simplify_eq. by apply IH.
Qed.
Lemma free_slot_full l : free_slot l = None -> count_used l = Z.of_nat (length l).
Proof.
  induction l as [|[x|] l IH]; cbn [free_slot]; [done| |done]. intros H. rewrite count_cons. cbn [used length].
  destruct (free_slot l); [done|]. rewrite IH by done. lia.
Qed.

Section spec.
Context {W : Type} (roff : list (string * Z)) (get_math : string -> Z) (fresh_type : string -> Z).
Context (config_debug : bool) (reg : W -> Z -> Z) (mem : W -> Z -> nat -> option (list Z)).
Notation match_ := (debug_wp_match config_debug reg mem).
Notation holds_ := (holds config_debug reg mem).
Notation wp_ := (debug_wp roff get_math fresh_type).
Notation add_ := (debug_wp_add roff get_math fresh_type).

Lemma put_ok st i s s' n :
  wps_ok st -> wps st !! i = Some s -> n = wps_n st + (if used s' then 1 else 0) - (if used s then 1 else 0) ->
  wps_ok (Wps (<[i := s']> (wps st)) n).
Proof.
  intros [Hl Hn] Hi ->. split; cbn [wps wps_n]; [by rewrite length_insert|]. by rewrite (count_insert _ _ s), Hn.
Qed.

Lemma rm_ok i st r st' : wps_ok st -> debug_wp_rm i st = Some (r, st') -> wps_ok st'.
Proof.
  intros Hok H. unfold debug_wp_rm in H. destruct (i <? 0); [done|]. destruct (wps st !! Z.to_nat i) as [[[c s]|]|] eqn:E; simplify_eq; [|done].
  destruct (free_cond c); simplify_eq. eapply put_ok; [done..|]. cbn. lia.
Qed.

(** The counter is the number of conditions in the slots, through every way to add and to remove
    watchpoints. *)
Theorem wps_counted st :
  wps_ok st ->
  (forall str r st', add_ str st = Some (r, st') -> wps_ok st') /\
  (forall i r st', debug_wp_rm i st = Some (r, st') -> wps_ok st') /\
  (forall str r st' out, wp_ str st = Some (r, st', out) -> wps_ok st').
Proof.
  intros Hok. split_and!.
  - intros str r st' H. unfold debug_wp_add in H. destruct (_ =? _); [by simplify_eq|].
    destruct (free_slot (wps st)) as [i|] eqn:Ef; [|done]. destruct (parse_cond _ _ _ _) as [[c|]|]; simplify_eq; [|done].
    apply free_slot_free in Ef. eapply put_ok; [done..|]. cbn. lia.
  - intros i r st'. by apply rm_ok.
  - intros str r st' out H. unfold debug_wp in H. destruct (_ =? sizeof_wps); [by simplify_eq|].
    cbv zeta in H. set (key := if (_ && _) then _ else _) in H. clearbody key. destruct (Ascii.eqb key "-").
    { destruct (_ && _); [|by simplify_eq]. destruct (debug_wp_rm _ st) as [[r' st1]|] eqn:E; simplify_eq. by eapply rm_ok. }
    destruct (Ascii.eqb key "?"); [by simplify_eq|]. destruct (skip_chars str) as [|a s].
    { destruct (debug_wp_list st); by simplify_eq/=. }
    destruct (free_slot (wps st)) as [i|] eqn:Ef; [|done]. destruct (parse_cond _ _ _ _) as [[c|]|]; simplify_eq; [|done].
    apply free_slot_free in Ef. eapply put_ok; [done..|]. cbn. lia.
Qed.

(** ** Matching *)
Definition slot_holds (w : W) (s : slot) : bool := match s with Some (c, _) => holds_ w c | None => false end.

Lemma match_loop_spec w l i :
  match_loop config_debug reg mem w l i (count_used l) =
    Some (match list_find (fun s => slot_holds w s = true) l with Some (j, _) => i + Z.of_nat j | None => -1 end).
Proof.
  revert i. induction l as [|s l IH]; intros i; [done|]. rewrite count_cons. pose proof (count_nonneg l).
  cbn [match_loop list_find]. destruct s as [[c t]|]; cbn [used slot_holds].
  - rewrite (proj2 (Z.ltb_lt 0 _)) by lia. destruct (holds_ w c) eqn:Eh.
    + rewrite decide_True by done. f_equal. lia.
    + rewrite decide_False by done. replace (1 + count_used l - 1) with (count_used l) by lia. rewrite IH.
      destruct (list_find _ l) as [[j x]|]; cbn [fmap option_fmap option_map prod_map fst snd]; f_equal; lia.
  - rewrite decide_False by done. rewrite Z.add_0_l. destruct (Z.ltb_spec 0 (count_used l)).
    + rewrite IH. destruct (list_find _ l) as [[j x]|]; cbn [fmap option_fmap option_map prod_map fst snd]; f_equal; lia.
    + destruct (list_find _ l) as [[j x]|] eqn:E; [|done]. exfalso. apply list_find_Some in E as (Hj & Hx & _).
      assert (Hc : count_used l = 0) by lia. pose proof (count_nonneg (<[j := (None : slot)]> l)) as Hp.
      rewrite (count_insert l j x None Hj), Hc in Hp. by destruct x as [[c t]|].
Qed.

Lemma match_spec w st : wps_ok st ->
  match_ w st = Some (match list_find (fun s => slot_holds w s = true) (wps st) with Some (j, _) => Z.of_nat j | None => -1 end).
Proof. intros [_ Hn]. unfold debug_wp_match. rewrite Hn. apply match_loop_spec. Qed.

(** The watchpoint found is the first whose condition holds, and there is none only when no condition
    holds; the walk over the slots ends in them. *)
Theorem wp_match_first w st :
  wps_ok st ->
  exists i, match_ w st = Some i /\
    ((i = -1 /\ forall j s, wps st !! j = Some s -> slot_holds w s = false) \/
     (exists j s, i = Z.of_nat j /\ wps st !! j = Some s /\ slot_holds w s = true /\
        forall j' s', (j' < j)%nat -> wps st !! j' = Some s' -> slot_holds w s' = false)).
Proof.
  intros Hok. rewrite (match_spec w st Hok). eexists. split; [done|].
  destruct (list_find _ (wps st)) as [[j s]|] eqn:E.
  - right. apply list_find_Some in E as (Hj & Hs & Hb). exists j, s. split_and!; try done.
    intros j' s' Hlt Hj'. apply not_true_is_false. by eapply Hb.
  - left. split; [done|]. intros j s Hj. apply not_true_is_false. apply list_find_None in E.
    rewrite Forall_lookup in E. by eapply E.
Qed.

(** ** Continuing until a watchpoint *)
Fixpoint steps (step : W -> option W) (k : nat) (w : W) : option W :=
  match k with O => Some w | S k' => match step w with Some w => steps step k' w | None => None end end.
Definition some_holds (w : W) (st : wps_t) : bool := existsb (slot_holds w) (wps st).

Lemma match_some w st : wps_ok st -> exists i, match_ w st = Some i /\ (0 <=? i) = some_holds w st.
Proof.
  intros Hok. rewrite (match_spec w st Hok). eexists. split; [done|]. unfold some_holds.
  destruct (list_find _ (wps st)) as [[j s]|] eqn:E; symmetry.
  - rewrite (proj2 (Z.leb_le 0 _)) by lia. apply list_find_Some in E as (Hj & Hs & _).
    apply existsb_exists. exists s. split; [|exact Hs]. apply list_elem_of_In. by eapply list_elem_of_lookup_2.
  - apply not_true_is_false. rewrite existsb_exists. intros (s & Hs & Hh). apply list_find_None in E. rewrite Forall_forall in E.
    by apply (E s); [apply list_elem_of_In|].
Qed.

Lemma contwp_stops step cmd st k : forall w hits fuel w',
  wps_ok st -> steps step (S k) w = Some w' -> some_holds w' st = true -> (k < fuel)%nat ->
  exists k' w'' i, (k' <= k)%nat /\ steps step (S k') w = Some w'' /\ match_ w'' st = Some i /\ 0 <= i /\
    (forall j x, (j < k')%nat -> steps step (S j) w = Some x -> some_holds x st = false) /\
    contwp_loop config_debug reg mem fuel step cmd false st w hits = Stopped (cmd w'') (hits ++ [i]).
Proof.
  induction k as [|k IH]; intros w hits [|fuel] w' Hok Hs Hh Hf; try lia; cbn [steps contwp_loop] in *;
    destruct (step w) as [w1|] eqn:E1; try done; destruct (match_some w1 st Hok) as (i & Em & Ei).
  - simplify_eq. rewrite Em, Ei, Hh. rewrite Hh in Ei. exists O, w', i. split_and!; try done; [lia|intros; lia].
  - rewrite Em. destruct (0 <=? i) eqn:Hi.
    + exists O, w1, i. split_and!; try done; [lia..|intros; lia].
    + destruct (IH w1 hits fuel w' Hok) as (k' & w'' & i' & Hk & Hs' & Hm & Hi' & Hb & ->); [done|done|lia|].
      exists (S k'), w'', i'. split_and!; try done; [lia|]. intros [|j] x Hj Hx.
        -- cbn in Hx. simplify_eq. congruence.
        -- apply (Hb j); [lia|done].
Qed.

(** C34: when the process reaches, after some steps, a state in which the condition of a watchpoint holds,
    [!contwp] stops, at the first such state on the way, and runs the command there. *)
Theorem contwp_reaches step cmd st k w w' fuel :
  wps_ok st -> wps_n st <> 0 -> steps step (S k) w = Some w' -> some_holds w' st = true -> (k < fuel)%nat ->
  exists k' w'' i, (k' <= k)%nat /\ steps step (S k') w = Some w'' /\ match_ w'' st = Some i /\ 0 <= i /\
    (forall j x, (j < k')%nat -> steps step (S j) w = Some x -> some_holds x st = false) /\
    debug_contwp config_debug reg mem fuel step cmd false st w = Stopped (cmd w'') [i].
Proof.
  intros Hok Hn Hs Hh Hf. unfold debug_contwp. rewrite (proj2 (Z.eqb_neq _ _)) by done.
  exact (contwp_stops step cmd st k w [] fuel w' Hok Hs Hh Hf).
Qed.

(** A fifth watchpoint is looked for a place behind the slots. *)
Lemma wp_fifth_overflows c str st : wps_ok st -> wps_n st = 4 -> c = "%"%char \/ c = "["%char -> wp_ (String c str) st = None.
Proof.
  intros [Hl Hn] H4 Hc. unfold debug_wp. rewrite H4. change (4 =? sizeof_wps) with false.
  assert (Ef : free_slot (wps st) = None).
  { destruct (free_slot (wps st)) as [i|] eqn:E; [|done]. exfalso. apply free_slot_free in E.
    pose proof (count_le (<[i := (Some ([], "") : slot)]> (wps st))) as Hle.
    rewrite (count_insert _ _ _ _ E), length_insert, Hl, <-Hn, H4 in Hle. done. }
  destruct Hc as [-> | ->]; cbn; by rewrite Ef.
Qed.
End spec.

(** A process that counts in [eax], watched until it is three. *)
Definition watch_three : wps_t := Wps [Some ([Reg_tok 24 OP_EQ 3 LOG_NONE], "%eax = 3"); None; None; None] 1.
Definition eax_is (w : Z) (_ : Z) : Z := w.
Definition no_mem (_ : Z) (_ : Z) (_ : nat) : option (list Z) := None.

Example watch_three_parsed : debug_wp i386_roff number (fun _ => 0) "%eax = 3" wps_init = Some (0, watch_three, "0: %eax = 3" +:+ nl).
Proof. by vm_compute. Qed.
Example contwp_three : debug_contwp true eax_is no_mem 10 (fun w => Some (w + 1)) id false watch_three 0 = Stopped 3 [0].
Proof. by vm_compute. Qed.
(** The message that a watchpoint is free is printed when there was none. *)
Example rm_message : debug_wp i386_roff number (fun _ => 0) "-1" watch_three = Some (0, watch_three, "watchpoint 1 free" +:+ nl) /\
  debug_wp i386_roff number (fun _ => 0) "-0" watch_three = Some (0, wps_init, "").
Proof. by vm_compute. Qed.

Lemma wps_counted_witness :
  (forall str r st', debug_wp_add i386_roff number (fun _ => 0) str watch_three = Some (r, st') -> wps_ok st') /\
  (forall i r st', debug_wp_rm i watch_three = Some (r, st') -> wps_ok st') /\
  (forall str r st' out, debug_wp i386_roff number (fun _ => 0) str watch_three = Some (r, st', out) -> wps_ok st').
Proof. apply wps_counted. by vm_compute. Defined.

Lemma wp_match_first_witness :
  exists i, debug_wp_match true eax_is no_mem 3 watch_three = Some i /\
    ((i = -1 /\ forall j s, wps watch_three !! j = Some s -> slot_holds true eax_is no_mem 3 s = false) \/
     (exists j s, i = Z.of_nat j /\ wps watch_three !! j = Some s /\ slot_holds true eax_is no_mem 3 s = true /\
        forall j' s', (j' < j)%nat -> wps watch_three !! j' = Some s' -> slot_holds true eax_is no_mem 3 s' = false)).
Proof. apply (wp_match_first true eax_is no_mem 3 watch_three). by vm_compute. Defined.

Lemma contwp_reaches_witness :
  exists k' w'' i, (k' <= 2)%nat /\ steps (fun w => Some (w + 1)) (S k') 0 = Some w'' /\
    debug_wp_match true eax_is no_mem w'' watch_three = Some i /\ 0 <= i /\
    (forall j x, (j < k')%nat -> steps (fun w => Some (w + 1)) (S j) 0 = Some x -> some_holds true eax_is no_mem x watch_three = false) /\
    debug_contwp true eax_is no_mem 10 (fun w => Some (w + 1)) id false watch_three 0 = Stopped (id w'') [i].
Proof.
  apply (contwp_reaches true eax_is no_mem (fun w => Some (w + 1)) id watch_three 2 0 3 10); [by vm_compute|done|done|done|lia].
Defined.
