(* ===== verification/Macros.v ===== *)
(** * Macros: [src/macros.c]

    A macro keeps its lines in one buffer, in which the end of the line that runs is overwritten by the end
    of the text and put back afterwards: the buffer is a text in which the character 0 may occur, places in
    it are numbers, and a C string is the part up to that character.  The state of the program is any type
    that holds the macros ([MacroState]); commands are the argument [radare_cmd].  [None] is a pointer into
    memory that was freed or behind its end, a buffer of fixed size that overflows, and running forever. *)
From S2P Require Import Prelude StateM Utils.
#[local] Open Scope string_scope.
#[local] Open Scope Z_scope.

Definition MACRO_LIMIT : Z := 4096.
Definition MAX_LABELS : nat := 20.
Definition NUL : ascii := "000"%char.
Definition LF : ascii := "010"%char.

(** ** Buffers *)
Definition c_str (s : string) : string := take_while (fun c => negb (Ascii.eqb c NUL)) s.
(** [strchr] from a place on. *)
Fixpoint index_of (c : ascii) (s : string) (p : nat) : option nat :=
  match s with
  | "" => None
  | String a s' => if Ascii.eqb a c then Some p else if Ascii.eqb a NUL then None else index_of c s' (S p)
  end.
Definition chr_at (code : string) (p : nat) (c : ascii) : option nat := index_of c (str_drop p code) p.
Fixpoint str_set (p : nat) (c : ascii) (s : string) : string :=
  match s, p with
  | "", _ => ""
  | String _ s', O => String c s'
  | String a s', S p' => String a (str_set p' c s')
  end.
Fixpoint last_char (s : string) : option ascii :=
  match s with "" => None | String c "" => Some c | String _ s' => last_char s' end.

(** ** Words

    [set0word] on a buffer that holds a text and [rest] behind its end: the blanks in front are moved away and
    those at the end cut, both leave ends behind, and so does each blank between two words. *)
Fixpoint nuls (n : nat) (s : string) : string := match n with O => s | S n' => String NUL (nuls n' s) end.
Fixpoint blanks_to_nul (s : string) : string :=
  match s with "" => "" | String c s' => String (if Ascii.eqb c " " then NUL else c) (blanks_to_nul s') end.
Fixpoint count_words (q : bool) (s : string) : Z :=
  match s with
  | "" => 0
  | String c s' => if Ascii.eqb c " " then count_words true s' else (if q then 1 else 0) + count_words false s'
  end.
Definition set0word_buf (s rest : string) : string * Z :=
  match s with
  | "" => (rest, 0)
  | _ =>
    let t := drop_while (fun c => Ascii.eqb c " ") s in
    let u := chop_end (fun c => Ascii.eqb c " ") t in
    (blanks_to_nul u +:+ nuls (String.length s - String.length u) rest, 1 + count_words false u)
  end.

(** [get0word] on such a buffer, whose own end is the last it has. *)
Fixpoint skip_text (s : string) : option string :=
  match s with "" => None | String c s' => if Ascii.eqb c NUL then Some s' else skip_text s' end.
Fixpoint get0word_buf (buf : string) (idx : nat) : option string :=
  match buf with
  | String c _ =>
    if Ascii.eqb c NUL then Some ""
    else match idx with O => Some (c_str buf) | S idx' => match skip_text buf with Some r => get0word_buf r idx' | None => None end end
  | _ => Some ""
  end.

(** Blanks and tabs in front are skipped. *)
Definition skip_blanks (s : string) : string := drop_while (fun c => Ascii.eqb c " " || (ord c =? 9)) s.

(** ** State *)
Record macro_t := Macro { m_name : string; m_code : string; m_nargs : Z; m_id : nat }.

(** [m_id] tells one allocation from another; [next_id] is the next.  [macros] is in the order of the list. *)
Record mac_t := Mac {
  macros : list macro_t; next_id : nat; macro_break : bool; macro_break_value : option Z; macro_level : Z;
  cons_stdin : list string; printed : string }.

Class MacroState (S : Type) := {
  mac : S -> mac_t;
  set_mac : mac_t -> S -> S;
  the_counter : S -> Z;
  the_last_cmp : S -> Z;
  get_math : string -> S -> Z;
  mac_set m s : mac (set_mac m s) = m;
  set_set m m' s : set_mac m (set_mac m' s) = set_mac m s;
  set_same s : set_mac (mac s) s = s;
  counter_set m s : the_counter (set_mac m s) = the_counter s;
  last_cmp_set m s : the_last_cmp (set_mac m s) = the_last_cmp s }.

Section macros.
Context {S : Type} `{!MacroState S}.
Notation M := (StateM.M S).

Definition upd (f : mac_t -> mac_t) : M unit := modify (fun s => set_mac (f (mac s)) s).
Definition with_macros (l : list macro_t) (m : mac_t) : mac_t :=
  Mac l (next_id m) (macro_break m) (macro_break_value m) (macro_level m) (cons_stdin m) (printed m).
Definition with_id (n : nat) (m : mac_t) : mac_t :=
  Mac (macros m) n (macro_break m) (macro_break_value m) (macro_level m) (cons_stdin m) (printed m).
Definition with_break (b : bool) (m : mac_t) : mac_t :=
  Mac (macros m) (next_id m) b (macro_break_value m) (macro_level m) (cons_stdin m) (printed m).
Definition with_value (v : option Z) (m : mac_t) : mac_t :=
  Mac (macros m) (next_id m) (macro_break m) v (macro_level m) (cons_stdin m) (printed m).
Definition with_level (n : Z) (m : mac_t) : mac_t :=
  Mac (macros m) (next_id m) (macro_break m) (macro_break_value m) n (cons_stdin m) (printed m).
Definition with_stdin (l : list string) (m : mac_t) : mac_t :=
  Mac (macros m) (next_id m) (macro_break m) (macro_break_value m) (macro_level m) l (printed m).
Definition print (t : string) (m : mac_t) : mac_t :=
  Mac (macros m) (next_id m) (macro_break m) (macro_break_value m) (macro_level m) (cons_stdin m) (printed m +:+ t).

Definition set_code (code : string) (m : macro_t) : macro_t := Macro (m_name m) code (m_nargs m) (m_id m).
Definition is_id (id : nat) (m : macro_t) : bool := Nat.eqb (m_id m) id.
Definition upd_code (id : nat) (f : string -> string) : mac_t -> mac_t := fun m =>
  with_macros ((fun x => if is_id id x then set_code (f (m_code x)) x else x) <$> macros m) m.

(** The walk over the list begins at its end. *)
Definition find_macro (p : macro_t -> bool) (m : mac_t) : option macro_t := find p (rev (macros m)).

(** The buffer of a macro; a macro that was removed or defined again has none. *)
Definition code_of (id : nat) : M string :=
  do o <- get (fun s => find_macro (is_id id) (mac s)) ;; lift (m_code <$> o).

(** ** [radare_macro_list] *)
Fixpoint show_code (code : string) : string :=
  match code with "" => "" | String c s => (if Ascii.eqb c LF then ", " else String c "") +:+ show_code s end.
Fixpoint show_macros (idx : Z) (l : list macro_t) : string :=
  match l with
  | [] => ""
  | m :: l' => fmt_d idx +:+ " (" +:+ m_name m +:+ ", " +:+ show_code (c_str (m_code m)) +:+ ")" +:+ nl +:+ show_macros (idx + 1) l'
  end.
Definition radare_macro_list : M Z :=
  do _ <- upd (fun m => print (show_macros 0 (rev (macros m))) m) ;; ret 0.

(** ** [radare_macro_add] *)

(** The commas of a body become ends of lines; a bracket at the start of a line ends it. *)
Fixpoint body_lines (prev : ascii) (s : string) : string :=
  match s with
  | "" => ""
  | String c s' =>
    let c := if Ascii.eqb c "," then LF else if Ascii.eqb c ")" && Ascii.eqb prev LF then NUL else c in
    String c (body_lines c s')
  end.

(** The lines of the console, until a bracket; [None]: a line that is empty is looked at in front of its
    start, the buffer of 1024 is full, or there are no more lines and the loop never ends. *)
Definition append (code l : string) : option string :=
  if (String.length (code +:+ l) <? 1024)%nat then Some (code +:+ l) else None.
Definition ends_body (buf : string) (lidx : nat) : bool :=
  match String.get lidx buf, String.get (lidx - 1) buf with
  | Some c, Some d => Ascii.eqb c ")" && negb (Ascii.eqb d "(")
  | _, _ => false
  end.
Fixpoint body_input (lines : list string) (code : string) : option (string * list string) :=
  match lines with
  | [] => None
  | buf :: lines' =>
    if starts_with ")" buf then Some (code, lines')
    else if (String.length buf <? 2)%nat then None
    else
      let lidx := (String.length buf - 2)%nat in
      if ends_body buf lidx then
        code ← append code (skip_blanks (String.substring 0 lidx buf)); Some (code, lines')
      else code ← append code (skip_blanks buf); body_input lines' code
  end.

(** The result, or the listing when there is no text. *)
Definition radare_macro_add (oname : string) : M Z :=
  match oname with
  | "" => radare_macro_list
  | _ =>
    let '(name, pbody) := match split_at "," oname with Some (n, b) => (n, Some b) | None => (oname, None) end in
    match last_char name with
    | None => crash
    | Some c =>
      if Ascii.eqb c ")" then ret (-1)
      else
        do old <- get (fun s => find_macro (fun m => String.eqb name (m_name m)) (mac s)) ;;
        do id <- get (fun s => next_id (mac s)) ;;
        do _ <- upd (with_id (id + 1)) ;;
        let '(mname, nargs) := match split_at " " name with Some (n, a) => (n, (set0word_buf a "").2) | None => (name, 0) end in
        do code <- match pbody with
                   | Some b => ret (c_str (body_lines NUL b))
                   | None =>
                     do lines <- get (fun s => cons_stdin (mac s)) ;;
                     do r <- lift (body_input lines "") ;;
                     do _ <- upd (with_stdin r.2) ;; ret r.1
                   end ;;
        let new := Macro mname code nargs id in
        do _ <- upd (fun m => with_macros
                  (match old with
                   | Some o => (fun x => if is_id (m_id o) x then new else x) <$> macros m
                   | None => (macros m ++ [new])%list
                   end) m) ;;
        ret 0
    end
  end.

(** ** [radare_macro_rm]

    The name that is looked for is what the stack held: the argument is never copied. *)
Definition radare_macro_rm (stack : string) (name : string) : M Z :=
  let n := match split_at ")" (c_str stack) with Some (l, _) => l | None => c_str stack end in
  do o <- get (fun s => find_macro (fun m => String.eqb (m_name m) n) (mac s)) ;;
  match o with
  | Some x => do _ <- upd (fun m => with_macros (filter (fun y => is_id (m_id x) y = false) (macros m)) m) ;; ret 1
  | None => ret 0
  end.

(** ** [radare_macro_break] *)
Definition radare_macro_break (value : string) : M Z :=
  do v <- get (get_math value) ;;
  do _ <- upd (fun m => with_value (match value with "" => None | _ => Some v end) (with_break true m)) ;;
  ret 0.

(** ** Calling

    [radare_cmd_args]: the line with its arguments put in; [None]: a word behind the last or a line that
    grows by 1024 characters. *)
Section call.
Context (radare_cmd : string -> M Z).

Fixpoint expand (args : option string) (counter : Z) (ptr : string) : option string :=
  match ptr with
  | "" => Some ""
  | String c r =>
    let plain := s ← expand args counter r; Some (String c s) in
    if Ascii.eqb c "$" then
      match r with
      | String d r' =>
        if isdigit d then
          w ← match args with None => Some "" | Some a => get0word_buf a (Z.to_nat (ord d - 48)) end;
          s ← expand args counter r'; Some (w +:+ s)
        else if Ascii.eqb d "@" then s ← expand args counter r'; Some (fmt_d counter +:+ s)
        else plain
      | _ => plain
      end
    else plain
  end.

Definition radare_cmd_args (ptr : string) (args : option string) : M Z :=
  do counter <- get the_counter ;;
  do cmd <- lift (expand args counter ptr) ;;
  if (String.length cmd <? String.length ptr + 1024)%nat then
    let cmd := skip_blanks cmd in
    if starts_with ")" cmd then ret 0 else radare_cmd cmd
  else crash.

(** [macro_label_process]: a line in the buffer from [ptr] on; the labels, and where to go on.  The first
    option is undefined behaviour, the second a label that is not known. *)
Definition label := (string * nat)%type.
Definition find_label (name : string) (labels : list label) : option nat :=
  snd <$> find (fun '(n, _) => String.eqb name n) labels.
Definition skip_dots (s : string) : string := drop_while (fun c => Ascii.eqb c " " || Ascii.eqb c ".") s.

Definition macro_label_process (labels : list label) (code : string) (ptr : nat) (last_cmp : Z)
    : option (list label * option nat) :=
  let line := c_str (str_drop ptr code) in
  let s := drop_while (fun c => Ascii.eqb c " ") line in
  let ptr := (ptr + (String.length line - String.length s))%nat in
  match (match s with "" => match ptr with O => None | Datatypes.S q => String.get q code end | _ => last_char s end) with
  | None => None
  | Some c =>
    if Ascii.eqb c ":" then
      let next := (ptr + String.length s + 1)%nat in
      if starts_with "." s then Some (labels, find_label (str_drop 1 s) labels)
      else if starts_with "?!" s && negb (starts_with "?!?" s) then
        Some (labels, if last_cmp =? 0 then Some next else find_label (skip_dots (str_drop 3 s)) labels)
      else if starts_with "??" s && negb (starts_with "???" s) then
        Some (labels, if last_cmp =? 0 then find_label (skip_dots (str_drop 3 s)) labels else Some next)
      else
        let add := match labels with [] => true | _ => match find_label (str_drop 1 s) labels with Some _ => true | None => false end end in
        if add then
          if (length labels <? MAX_LABELS)%nat && (String.length s <? 64)%nat
          then Some ((labels ++ [(s, next)])%list, Some next)
          else None
        else Some (labels, Some next)
    else Some (labels, Some ptr)
  end.

(** How the lines of a macro end: behind the last, by a break, or by a label that is not known, when the
    other macros of the name follow. *)
Inductive ending := Finished | Broken | Lost.

Definition put (id : nat) (e : nat) (c : ascii) : M unit := upd (upd_code id (str_set e c)).

Fixpoint run_loop (fuel : nat) (id : nat) (args : option string) (labels : list label) (ptr : nat) (end_ : option nat) : M ending :=
  match fuel with
  | O => crash
  | Datatypes.S fuel' =>
    do _ <- match end_ with Some e => put id e NUL | None => ret tt end ;;
    do code <- code_of id ;;
    do last_cmp <- get the_last_cmp ;;
    do r <- lift (macro_label_process labels code ptr last_cmp) ;;
    let '(labels, ptr2) := r in
    let continue (ptr : nat) : M ending :=
      do code <- code_of id ;;
      do broken <- get (fun s => macro_break (mac s)) ;;
      if broken : bool then ret Broken else run_loop fuel' id args labels ptr (chr_at code ptr LF) in
    match ptr2, end_ with
    | None, _ => ret Lost
    | Some p2, Some e =>
      if Nat.eqb ptr p2 then
        let line := c_str (str_drop ptr code) in
        do _ <- match line with "" => ret 0 | _ => radare_cmd_args line args end ;;
        do _ <- code_of id ;;
        do _ <- put id e LF ;;
        continue (e + 1)%nat
      else do _ <- put id e LF ;; continue p2
    | Some _, None =>
      let line := c_str (str_drop ptr code) in
      do _ <- match line with "" => ret 0 | _ => radare_cmd_args line args end ;;
      ret Finished
    end
  end.

(** The macros of one name, from the end of the list, or before the one that was lost. *)
Fixpoint before (id : nat) (l : list macro_t) : list macro_t :=
  match l with [] => [] | m :: l' => if is_id id m then l' else before id l' end.
Fixpoint call_loop (n fuel : nat) (str : string) (nargs : Z) (args : option string) (from : option nat) : M Z :=
  match n with
  | O => ret 0
  | Datatypes.S n' =>
    do l <- get (fun s => rev (macros (mac s))) ;;
    match find (fun m => String.eqb str (m_name m)) (match from with Some id => before id l | None => l end) with
    | None => ret 0
    | Some m =>
      if negb (m_nargs m =? 0) && negb (nargs =? m_nargs m) then ret 0
      else
        do _ <- upd (with_break false) ;;
        do e <- run_loop fuel (m_id m) args [] 0 (chr_at (m_code m) 0 LF) ;;
        match e with
        | Finished => ret 1
        | Broken => ret 0
        | Lost => call_loop n' fuel str nargs args (Some (m_id m))
        end
    end
  end.

(** [radare_macro_call]: the text up to a bracket is a name and words. *)
Definition radare_macro_call (fuel : nat) (name : string) : M Z :=
  let '(str, rest) := match split_at ")" name with Some (l, r) => (l, String NUL r) | None => (name, "") end in
  let '(str, args, nargs) :=
    match split_at " " str with
    | Some (n, a) => let '(b, k) := set0word_buf a rest in (n, Some b, k)
    | None => (str, None, 0)
    end in
  do _ <- upd (fun m => with_level (macro_level m + 1) m) ;;
  do level <- get (fun s => macro_level (mac s)) ;;
  do r <- (if MACRO_LIMIT <? level then ret 0
           else do n <- get (fun s => length (macros (mac s))) ;; call_loop n fuel str nargs args None) ;;
  do _ <- upd (fun m => with_level (macro_level m - 1) m) ;;
  ret r.
End call.

(** [cmd_macro] of [src/cmds.c]: what follows the bracket of a command. *)
Definition cmd_macro (stack : string) (input : string) : M Z :=
  do _ <- match input with
          | "" => radare_macro_list
          | String c r =>
            if Ascii.eqb c ")" then radare_macro_break r
            else if Ascii.eqb c "-" then radare_macro_rm stack r
            else if Ascii.eqb c "?" then ret 0
            else radare_macro_add input
          end ;;
  ret 0.
End macros.

(** ** Buffers *)
Lemma str_set_app s t c d : str_set (String.length s) c (s +:+ String d t) = s +:+ String c t.
Proof. induction s as [|a s IH]; [done|]. cbn. by rewrite IH. Qed.

(** No end of a line or of a text. *)
Definition line_char (c : ascii) : bool := negb (Ascii.eqb c LF) && negb (Ascii.eqb c NUL).
Lemma index_of_line l t p : all_chars line_char l = true -> index_of LF (l +:+ String LF t) p = Some (p + String.length l)%nat.
Proof.
  revert p. induction l as [|c l IH]; intros p H; cbn [String.append index_of String.length]; [f_equal; lia|].
  cbn [all_chars] in H. apply andb_true_iff in H as [Hc Hl]. unfold line_char in Hc. apply andb_true_iff in Hc as [H1 H2].
  apply negb_true_iff in H1, H2. rewrite H1, H2, IH by done. f_equal. lia.
Qed.
Lemma index_of_last l p : all_chars line_char l = true -> index_of LF l p = None.
Proof.
  revert p. induction l as [|c l IH]; intros p H; [done|]. cbn [all_chars index_of] in *.
  apply andb_true_iff in H as [Hc Hl]. unfold line_char in Hc. apply andb_true_iff in Hc as [H1 H2].
  apply negb_true_iff in H1, H2. by rewrite H1, H2, IH.
Qed.
Lemma c_str_line l t : all_chars line_char l = true -> c_str (l +:+ String NUL t) = l.
Proof.
  unfold c_str. induction l as [|c l IH]; intros H; [done|]. cbn [all_chars String.append take_while] in *.
  apply andb_true_iff in H as [Hc Hl]. unfold line_char in Hc. apply andb_true_iff in Hc as [_ H2]. by rewrite H2, IH.
Qed.
Lemma c_str_last l : all_chars line_char l = true -> c_str l = l.
Proof.
  unfold c_str. induction l as [|c l IH]; intros H; [done|]. cbn [all_chars take_while] in *.
  apply andb_true_iff in H as [Hc Hl]. unfold line_char in Hc. apply andb_true_iff in Hc as [_ H2]. by rewrite H2, IH.
Qed.

(** A line that is neither empty nor a label, and has no blank in front. *)
Definition plain_line (l : string) : Prop :=
  all_chars line_char l = true /\ (exists c s, l = String c s /\ Ascii.eqb c " " = false) /\
  (exists c, last_char l = Some c /\ Ascii.eqb c ":" = false).

Lemma label_plain labels pre l t last_cmp code :
  plain_line l -> code = pre +:+ l +:+ String NUL t \/ (code = pre +:+ l) ->
  macro_label_process labels code (String.length pre) last_cmp = Some (labels, Some (String.length pre)).
Proof.
  intros (Hl & (c & s & -> & Hc) & (d & Hd & Hd')) Hcode. unfold macro_label_process.
  assert (E : c_str (str_drop (String.length pre) code) = String c s).
  { destruct Hcode as [->| ->]; rewrite str_drop_app; [by apply c_str_line|by apply c_str_last]. }
  rewrite E. cbn [drop_while]. rewrite Hc, Hd, Hd'. do 3 f_equal. lia.
Qed.

Fixpoint join (ls : list string) : string :=
  match ls with [] => "" | [l] => l | l :: ls' => l +:+ String LF (join ls') end.

(** ** Running the lines of a macro *)
Section run.
Context {S : Type} `{!MacroState S}.
Notation M := (StateM.M S).
Context (radare_cmd : string -> M Z).
(** A command that neither looks at the macros nor changes them, and a line that becomes such a command whatever the
    counter is (one that begins with a bracket is not run). *)
Definition quiet (c : string) : Prop := forall m s, radare_cmd c (set_mac m s) = (fun '(r, s') => (r, set_mac m s')) <$> radare_cmd c s.
Definition quiet_line (args : option string) (l : string) : Prop :=
  forall n cmd, expand args n l = Some cmd -> starts_with ")" (skip_blanks cmd) = false -> quiet (skip_blanks cmd).

Fixpoint run_lines (args : option string) (ls : list string) : M unit :=
  match ls with [] => ret tt | l :: ls' => do _ <- radare_cmd_args radare_cmd l args ;; run_lines args ls' end.

Lemma upd_set f m s : upd f (set_mac m s) = Some (tt, set_mac (f m) s).
Proof. unfold upd, modify. by rewrite mac_set, set_set. Qed.

Lemma cmd_args_frame l args m s : quiet_line args l ->
  radare_cmd_args radare_cmd l args (set_mac m s) = (fun '(r, s') => (r, set_mac m s')) <$> radare_cmd_args radare_cmd l args s.
Proof.
  intros Hq. unfold radare_cmd_args, bind, get, lift. rewrite counter_set. destruct (expand args (the_counter s) l) as [cmd|] eqn:E; [|done].
  cbn [fmap option_fmap option_map]. destruct (_ <? _)%nat; [|done]. destruct (starts_with ")" (skip_blanks cmd)) eqn:Es; [done|].
  by apply (Hq _ _ E Es).
Qed.

Section macro.
Context (l1 l2 : list macro_t) (name : string) (nargs : Z) (id : nat) (m0 : mac_t).
Context (H1 : Forall (fun x => is_id id x = false) l1) (H2 : Forall (fun x => is_id id x = false) l2).
Context (Hbreak : macro_break m0 = false).

(** The macro with a buffer, among the others. *)
Definition holding (code : string) : mac_t := with_macros (l1 ++ Macro name code nargs id :: l2)%list m0.

Lemma find_none l : Forall (fun x => is_id id x = false) l -> forall r, find (is_id id) (l ++ r) = find (is_id id) r.
Proof. induction 1 as [|x l Hx Hl IH]; intros r; [done|]. cbn. by rewrite Hx, IH. Qed.

Lemma code_of_holding code s : code_of id (set_mac (holding code) s) = Some (code, set_mac (holding code) s).
Proof.
  unfold code_of, bind, get, lift, find_macro. rewrite mac_set. cbn [holding with_macros macros]. rewrite rev_app_distr. cbn [rev].
  rewrite <-app_assoc, find_none; [cbn; by rewrite Nat.eqb_refl|]. by apply Forall_rev.
Qed.

Lemma map_other f l : Forall (fun x => is_id id x = false) l -> (fun x => if is_id id x then set_code (f (m_code x)) x else x) <$> l = l.
Proof. induction 1 as [|x l Hx Hl IH]; [done|]. rewrite fmap_cons, IH. by rewrite Hx. Qed.

Lemma put_holding e c code s : put id e c (set_mac (holding code) s) = Some (tt, set_mac (holding (str_set e c code)) s).
Proof.
  unfold put, upd, modify. rewrite mac_set, set_set. do 3 f_equal. unfold upd_code, holding. cbn [with_macros macros].
  rewrite fmap_app, fmap_cons, !map_other by done. cbn [is_id m_id]. unfold is_id. cbn [m_id]. rewrite Nat.eqb_refl. done.
Qed.

Lemma run_loop_lines args ls : forall l pre s labels fuel,
  Forall plain_line (l :: ls) -> Forall (quiet_line args) (l :: ls) -> (length ls < fuel)%nat ->
  let code := pre +:+ join (l :: ls) in
  run_loop radare_cmd fuel id args labels (String.length pre) (chr_at code (String.length pre) LF) (set_mac (holding code) s) =
    match run_lines args (l :: ls) s with Some (_, s') => Some (Finished, set_mac (holding code) s') | None => None end.
Proof.
  induction ls as [|l' ls IH]; intros l pre s labels [|fuel] Hp Hq Hf code; try (cbn in Hf; lia);
    apply Forall_cons in Hq as [Hql Hq]; apply Forall_cons in Hp as [Hl Hp]; pose proof Hl as (Hc & (a & t & Hne & Ha) & _); cbn [run_loop]; unfold chr_at, code; rewrite str_drop_app.
  - cbn [join]. rewrite index_of_last by done. rewrite bind_ret.
    rewrite (bind_Some _ _ _ _ _ (code_of_holding _ _)), bind_get.
    unfold lift. rewrite (label_plain labels pre l "" _ (pre +:+ l)) by auto. cbn [fmap option_fmap option_map]. unfold bind at 1.
    rewrite str_drop_app, c_str_last by done. rewrite Hne. rewrite <-Hne.
    cbn [run_lines]. unfold bind. rewrite cmd_args_frame by done. by destruct (radare_cmd_args radare_cmd l args s) as [[? ?]|].
  - change (join (l :: l' :: ls)) with (l +:+ String LF (join (l' :: ls))). set (rest := join (l' :: ls)).
    rewrite index_of_line by done. rewrite <-str_length_app, <-append_assoc.
    rewrite (bind_Some _ _ _ _ _ (put_holding _ _ _ _)). rewrite str_set_app.
    rewrite (bind_Some _ _ _ _ _ (code_of_holding _ _)), bind_get.
    unfold lift. rewrite (label_plain labels pre l rest); [|done|left; by rewrite append_assoc]. cbn [fmap option_fmap option_map]. unfold bind at 1.
    rewrite Nat.eqb_refl. rewrite append_assoc, str_drop_app, c_str_line by done. rewrite Hne. rewrite <-Hne. rewrite <-append_assoc.
    change (run_lines args (l :: l' :: ls) s) with (bind (radare_cmd_args radare_cmd l args) (fun _ => run_lines args (l' :: ls)) s).
    unfold bind at 1 6. rewrite cmd_args_frame by done. destruct (radare_cmd_args radare_cmd l args s) as [[r s1]|]; [|done]. cbn [fmap option_fmap option_map].
    rewrite (bind_Some _ _ _ _ _ (code_of_holding _ _)), (bind_Some _ _ _ _ _ (put_holding _ _ _ _)), str_set_app.
    rewrite (bind_Some _ _ _ _ _ (code_of_holding _ _)), bind_get. rewrite mac_set. cbn [holding with_macros macro_break]. rewrite Hbreak.
    assert (E : (pre +:+ l) +:+ String LF rest = (pre +:+ l +:+ String LF "") +:+ rest) by (by rewrite !append_assoc).
    assert (En : (String.length (pre +:+ l) + 1)%nat = String.length (pre +:+ l +:+ String LF "")) by (rewrite !str_length_app; cbn; lia).
    fold (holding ((pre +:+ l) +:+ String LF rest)). rewrite E, En. apply IH; [done|done|cbn in Hf; lia].
Qed.
End macro.

(** *** Defining and calling *)
Definition body_char (c : ascii) : bool := line_char c && negb (Ascii.eqb c ",").
Definition body_line (l : string) : Prop := plain_line l /\ all_chars body_char l = true /\ starts_with ")" l = false.
Definition name_char (c : ascii) : bool := negb (existsb (Ascii.eqb c) (list_ascii_of_string ", )")).
Definition arg_char (c : ascii) : bool := negb (Ascii.eqb c ")").

Fixpoint text (ls : list string) : string :=
  match ls with [] => "" | [l] => l | l :: ls' => l +:+ String "," (text ls') end.

Lemma body_lines_line l t prev : all_chars body_char l = true -> l <> "" -> (prev = LF -> starts_with ")" l = false) ->
  exists c, body_lines prev (l +:+ t) = l +:+ body_lines c t.
Proof.
  revert prev. induction l as [|a l IH]; intros prev Hl Hne Hp; [done|]. cbn [all_chars] in Hl. apply andb_true_iff in Hl as [Ha Hl].
  unfold body_char in Ha. apply andb_true_iff in Ha as [Hlc Hc]. apply negb_true_iff in Hc.
  assert (Hn : (Ascii.eqb a ")" && Ascii.eqb prev LF) = false).
  { destruct (Ascii.eqb_spec prev LF) as [->|]; [|apply andb_false_r]. specialize (Hp eq_refl). cbn [starts_with] in Hp.
    rewrite Ascii.eqb_sym. rewrite andb_true_r in *. by destruct l; rewrite ?andb_true_r in Hp. }
  cbn [String.append body_lines]. rewrite Hc, Hn. destruct l as [|b l]; [by exists a|].
  destruct (IH a Hl) as [c E]; [done| |by exists c; rewrite E].
  intros ->. unfold line_char in Hlc. by rewrite Ascii.eqb_refl in Hlc.
Qed.

Lemma body_lines_text ls prev : Forall body_line ls -> body_lines prev (text ls) = join ls.
Proof.
  revert prev. induction ls as [|l ls IH]; intros prev H; [done|]. apply Forall_cons in H as [(Hp & Hb & Hs) H].
  destruct Hp as (_ & (a & t & Ea & _) & _). assert (l <> "") by by rewrite Ea.
  destruct ls as [|l' ls].
  - cbn [text join]. destruct (body_lines_line l "" prev) as [c E]; [done..|]. rewrite append_empty in E. rewrite E. apply append_empty.
  - change (text (l :: l' :: ls)) with (l +:+ String "," (text (l' :: ls))). destruct (body_lines_line l (String "," (text (l' :: ls))) prev) as [c E]; [done..|].
    rewrite E. change (body_lines c (String "," (text (l' :: ls)))) with (String LF (body_lines LF (text (l' :: ls)))). by rewrite IH.
Qed.

Lemma c_str_join ls : Forall plain_line ls -> c_str (join ls) = join ls.
Proof.
  induction 1 as [|l ls (Hl & _) Hls IH]; [done|]. destruct ls as [|l' ls]; [by apply c_str_last|].
  change (join (l :: l' :: ls)) with (l +:+ String LF (join (l' :: ls))). unfold c_str in *. revert Hl. clear -IH.
  induction l as [|c l IHl]; intros Hl; cbn [String.append take_while all_chars] in *; [by rewrite IH|].
  apply andb_true_iff in Hl as [Hc Hl]. unfold line_char in Hc. apply andb_true_iff in Hc as [_ H2]. by rewrite H2, IHl.
Qed.

(** A call with its words, or without. *)
Definition call_text (name : string) (args : option string) : string :=
  name +:+ match args with Some a => " " +:+ a | None => "" end +:+ ")".
Definition call_buffer (args : option string) : option string :=
  (fun a => (set0word_buf a (String NUL "")).1) <$> args.

Lemma last_char_all (p : ascii -> bool) l : all_chars p l = true -> l <> "" -> exists c, last_char l = Some c /\ p c = true.
Proof.
  induction l as [|c l IH]; intros H Hne; [done|]. cbn [all_chars] in H. apply andb_true_iff in H as [Hc Hl].
  destruct l as [|d l]; [by exists c|]. destruct (IH Hl) as (e & E & He); [done|]. exists e. by split.
Qed.

Lemma name_char_facts c : name_char c = true -> arg_char c = true /\ Ascii.eqb c " " = false /\ Ascii.eqb c ")" = false.
Proof.
  unfold name_char, arg_char. cbn [list_ascii_of_string existsb]. rewrite orb_false_r, !negb_orb, !andb_true_iff, !negb_true_iff.
  intros (_ & H1 & H2). by rewrite H2.
Qed.

Definition new_macro (name : string) (ls : list string) (s : S) : macro_t := Macro name (join ls) 0 (next_id (mac s)).
Definition defined (name : string) (ls : list string) (s : S) : mac_t :=
  with_macros (macros (mac s) ++ [new_macro name ls s])%list (with_id (next_id (mac s) + 1) (mac s)).

Lemma macro_add_new name ls s :
  all_chars name_char name = true -> name <> "" -> Forall body_line ls ->
  find_macro (fun m => String.eqb name (m_name m)) (mac s) = None ->
  radare_macro_add (name +:+ "," +:+ text ls) s = Some (0, set_mac (defined name ls s) s).
Proof.
  intros Hname Hne Hls Hfind.
  assert (Hplain : Forall plain_line ls) by (eapply Forall_impl; [exact Hls|]; by intros l []).
  unfold radare_macro_add. change ("," +:+ text ls) with (String "," (text ls)).
  rewrite (split_at_app name_char) by done.
  destruct (last_char_all name_char name Hname Hne) as (c & -> & Hc). destruct (name_char_facts c Hc) as (_ & _ & ->).
  rewrite (split_at_none name_char) by done. rewrite body_lines_text, c_str_join by done.
  destruct name as [|a n]; [done|]. cbn [String.append]. rewrite !bind_get, Hfind.
  unfold bind, upd, modify, ret. rewrite mac_set, set_set. done.
Qed.

Lemma call_loop_new name k args ls fuel n m0 s :
  Forall body_line ls -> Forall (quiet_line args) ls -> ls <> [] -> (length ls <= fuel)%nat -> Forall (fun m => (m_id m < next_id (mac s))%nat) (macros (mac s)) ->
  macros m0 = macros (defined name ls s) ->
  call_loop radare_cmd (Datatypes.S n) fuel name k args None (set_mac m0 s) =
    match run_lines args ls s with
    | Some (_, s') => Some (1, set_mac (with_break false m0) s')
    | None => None
    end.
Proof.
  intros Hls Hq Hnil Hfuel Hid Hm0.
  assert (Hplain : Forall plain_line ls) by (eapply Forall_impl; [exact Hls|]; by intros l []).
  cbn [call_loop]. rewrite bind_get, mac_set, Hm0. unfold defined. cbn [with_macros with_id macros]. rewrite rev_app_distr. cbn [rev app find new_macro m_name m_nargs m_id m_code].
  rewrite String.eqb_refl. unfold new_macro at 1 2 3 4 5. cbn [m_nargs m_id m_code Z.eqb negb andb].
  rewrite (bind_Some _ _ _ _ _ (upd_set _ _ _)).
  set (id := next_id (mac s)).
  assert (H1 : Forall (fun x => is_id id x = false) (macros (mac s))).
  { eapply Forall_impl; [exact Hid|]. intros x Hx. cbn in Hx. apply Nat.eqb_neq. unfold id. lia. }
  assert (E : with_break false m0 = holding (macros (mac s)) [] name 0 id (with_break false m0) (join ls)).
  { unfold holding. cbn [with_macros with_break macros]. destruct m0 as [ms a b c d e f]. cbn in Hm0 |- *. by rewrite Hm0. }
  rewrite E. destruct ls as [|l ls]; [done|].
  pose proof (run_loop_lines (macros (mac s)) [] name 0 id (with_break false m0) H1 (Forall_nil_2 _) eq_refl args ls l "" s [] fuel Hplain Hq) as R.
  cbv zeta in R. cbn [String.length String.append] in R. unfold bind at 1. rewrite R by (cbn in Hfuel; lia).
  by destruct (run_lines args (l :: ls) s) as [[? ?]|].
Qed.

(** C26: a macro of a new name that is defined without parameters from lines with commas between them, and then called,
    runs its lines one after the other, with the words of the call put in, and leaves the macros as the definition made
    them: the lines are whole again and the level is the one of before. The lines are plain ones: none is empty, a label
    or a jump (none ends with a colon), none has a blank in front; and what each becomes is a command that leaves the
    macros alone, so none breaks, defines, removes or calls a macro. With labels or breaks this fails ([macro_labels],
    [macro_breaks]). *)
Theorem macro_define_call name args ls fuel s :
  all_chars name_char name = true -> name <> "" ->
  (match args with Some a => all_chars arg_char a | None => true end) = true ->
  Forall body_line ls -> Forall (quiet_line (call_buffer args)) ls -> ls <> [] -> (length ls <= fuel)%nat ->
  find_macro (fun m => String.eqb name (m_name m)) (mac s) = None ->
  Forall (fun m => (m_id m < next_id (mac s))%nat) (macros (mac s)) -> macro_level (mac s) < MACRO_LIMIT ->
  let new := Macro name (join ls) 0 (next_id (mac s)) in
  let m1 := with_macros (macros (mac s) ++ [new])%list (with_id (next_id (mac s) + 1) (mac s)) in
  radare_macro_add (name +:+ "," +:+ text ls) s = Some (0, set_mac m1 s) /\
  radare_macro_call radare_cmd fuel (call_text name args) (set_mac m1 s) =
    match run_lines (call_buffer args) ls s with
    | Some (_, s') => Some (1, set_mac (with_break false m1) s')
    | None => None
    end.
Proof.
  intros Hname Hne Hargs Hls Hq Hnil Hfuel Hfind Hid Hlevel new m1.
  split; [by apply macro_add_new|]. unfold radare_macro_call, call_text.
  assert (Ha : all_chars arg_char name = true) by (eapply all_chars_impl; [|exact Hname]; apply name_char_facts).
  assert (Es : exists rest n, match split_at ")" (name +:+ match args with Some a => " " +:+ a | None => "" end +:+ ")") with
                Some (l, r) => (l, String NUL r) | None => (name +:+ match args with Some a => " " +:+ a | None => "" end +:+ ")", "") end = (rest, String NUL "") /\
              match split_at " " rest with Some (n, a) => let '(b, k) := set0word_buf a (String NUL "") in (n, Some b, k) | None => (rest, None, 0) end
                = (name, call_buffer args, n)).
  { destruct args as [a|].
    - exists (name +:+ " " +:+ a), (set0word_buf a (String NUL "")).2. rewrite <-append_assoc. rewrite (split_at_app arg_char);
        [|done|rewrite !all_chars_app, Ha, Hargs; done]. split; [done|].
      change (" " +:+ a) with (String " " a). rewrite (split_at_app name_char) by done. unfold call_buffer. cbn [fmap option_fmap option_map].
      by destruct (set0word_buf a (String NUL "")).
    - exists name, 0. change ("" +:+ ")") with (String ")" ""). rewrite (split_at_app arg_char) by done. split; [done|].
      by rewrite (split_at_none name_char). }
  destruct Es as (rest & n & -> & E2). rewrite E2. rewrite (bind_Some _ _ _ _ _ (upd_set _ _ _)), bind_get, mac_set.
  change (macro_level (with_level (macro_level m1 + 1) m1)) with (macro_level (mac s) + 1).
  rewrite (proj2 (Z.ltb_ge _ _)) by lia.
  set (m2 := with_level (macro_level m1 + 1) m1).
  assert (Hn : length (macros m2) = Datatypes.S (length (macros (mac s)))).
  { unfold m2, m1. cbn [with_level with_macros macros]. rewrite length_app. cbn. lia. }
  unfold bind at 1. rewrite bind_get, mac_set, Hn, (call_loop_new name n _ ls) by done.
  destruct (run_lines (call_buffer args) ls s) as [[[] s']|]; [|done].
  rewrite (bind_Some _ _ _ _ _ (upd_set _ _ _)). unfold ret. do 3 f_equal. unfold m2, m1.
  cbn [with_level with_break with_macros with_id macro_level macros next_id macro_break macro_break_value cons_stdin printed].
  by rewrite Z.add_simpl_r.
Qed.
End run.

(** ** A small shell

    The macros and the commands that were run; [cmp] is the last comparison. *)
Record shell := Shell { sh_mac : mac_t; sh_log : list string; sh_cmp : Z }.
#[refine] Instance shell_macros : MacroState shell := {|
  mac := sh_mac; set_mac m s := Shell m (sh_log s) (sh_cmp s); the_counter _ := 0; the_last_cmp := sh_cmp; get_math t _ := atoi t |}.
Proof. all: try done. by intros []. Defined.

Definition note (c : string) (s : shell) : shell := Shell (sh_mac s) (sh_log s ++ [c])%list (sh_cmp s).
Definition log_cmd (c : string) : StateM.M shell Z := do _ <- modify (note c) ;; ret 0.
Fixpoint sh (n : nat) (c : string) : StateM.M shell Z :=
  match n with
  | O => crash
  | S n' =>
    if starts_with ".(" c then radare_macro_call (sh n') 100 (str_drop 2 c)
    else if starts_with "(" c then cmd_macro "" (str_drop 1 c)
    else log_cmd c
  end.
Definition mac_zero : mac_t := Mac [] 0 false None 0 [] "".
Definition sh_zero : shell := Shell mac_zero [] 0.
Fixpoint script (l : list string) : StateM.M shell Z := match l with [] => ret 0 | c :: l' => do _ <- sh 10 c ;; script l' end.
Definition log_of (l : list string) : option (list string) := (fun '(_, s) => sh_log s) <$> script l sh_zero.

Example macro_words : log_of ["(f,a $0 b $1,c)"; ".(f 1 22)"] = Some ["a 1 b 22"; "c)"].
Proof. by vm_compute. Qed.
(** The line that runs is the last of the text: the listing ends there. *)
Example macro_cut : printed <$> ((fun '(_, s) => sh_mac s) <$> script ["(f,(,y"; ".(f)"] sh_zero) = Some ("0 (f, ()" +:+ nl).
Proof. by vm_compute. Qed.
(** Only one label is kept; a jump to another one is lost and leaves the text cut. *)
Example macro_labels : log_of ["(f,a:,x,b:,y,.b:,z"; ".(f)"; ".(f)"] = Some ["x"; "y"; "x"; "y"].
Proof. by vm_compute. Qed.
(** A macro that breaks stops the one that called it. *)
Example macro_breaks : log_of ["(in,())"; "(out,x,.(in),y"; ".(out)"] = Some ["x"].
Proof. by vm_compute. Qed.
(** A macro with arguments is not found when it is defined again; the newer one is called. *)
Example macro_redefined : log_of ["(f a,x"; "(f a,y"; ".(f 1)"] = Some ["y"] /\
  (fun '(_, s) => length (macros (sh_mac s))) <$> script ["(f a,x"; "(f a,y"] sh_zero = Some 2%nat.
Proof. by vm_compute. Qed.

Lemma log_cmd_quiet n c m s : starts_with ".(" c = false -> starts_with "(" c = false -> sh (S n) c (set_mac m s) = (fun '(r, s') => (r, set_mac m s')) <$> sh (S n) c s.
Proof. intros H1 H2. cbn [sh]. by rewrite H1, H2. Qed.

Lemma demo_lines : Forall body_line ["pd $0"; "s+4"].
Proof. repeat constructor; try done; by do 2 eexists. Qed.
Lemma demo_quiet : Forall (quiet_line (sh 3) (call_buffer (Some "7"))) ["pd $0"; "s+4"].
Proof. repeat constructor; intros n cmd E _ m s; vm_compute in E; injection E as <-; by apply (log_cmd_quiet 2). Qed.

Lemma macro_define_call_witness :
  let s := Shell mac_zero [] 0 in
  let m1 := with_macros (macros (mac s) ++ [Macro "f" (join ["pd $0"; "s+4"]) 0 (next_id (mac s))])%list (with_id (next_id (mac s) + 1) (mac s)) in
  (radare_macro_add ("f" +:+ "," +:+ text ["pd $0"; "s+4"]) s = Some (0, set_mac m1 s) /\
  radare_macro_call (sh 3) 10 (call_text "f" (Some "7")) (set_mac m1 s) =
    match run_lines (sh 3) (call_buffer (Some "7")) ["pd $0"; "s+4"] s with
    | Some (_, s') => Some (1, set_mac (with_break false m1) s')
    | None => None
    end) /\
  (fun '(_, s') => sh_log s') <$> run_lines (sh 3) (call_buffer (Some "7")) ["pd $0"; "s+4"] s = Some ["pd 7"; "s+4"].
Proof.
  split; [|vm_compute; reflexivity].
  apply (macro_define_call (sh 3) "f" (Some "7") ["pd $0"; "s+4"] 10 (Shell mac_zero [] 0));
    try reflexivity; try discriminate; [apply demo_lines|apply demo_quiet|cbn; lia|constructor].
Defined.
