(* ===== verification/Rdb.v ===== *)
(** * Programs, functions and basic blocks: [src/rdb.c]

    A program holds the blocks and functions of the analysis, each list in the order it was made, which is
    walked over from its end.  The counters [n_calls] and [n_xrefs] of a block are the lengths of its lists.
    Blocks are told apart by their place in the list.  [None] is an access outside a buffer. *)
From S2P Require Import Prelude Utils Hash Math.
#[local] Open Scope string_scope.
#[local] Open Scope Z_scope.

Inductive blk_type := BLK_TYPE_HEAD | BLK_TYPE_BODY | BLK_TYPE_LAST | BLK_TYPE_FOOT.

Record block_t := Block {
  b_addr : Z; b_type : blk_type; b_ignored : bool; b_framesize : Z; b_bytes : list Z; b_checksum : Z;
  b_calls : list Z; b_xrefs : list Z; b_tnext : Z; b_fnext : Z; b_name : option string; b_comment : option string }.
Definition b_n (b : block_t) : Z := Z.of_nat (length (b_bytes b)).

Record function_t := Fun {
  f_name : string; f_addr : Z; f_vars : Z; f_args : Z; f_size : Z; f_frame : Z; f_calls : list (Z * Z) }.

Record program_t := Program {
  p_name : option string; p_entry : Z; n_blocks : Z; blocks : list block_t; n_functions : Z; functions : list function_t }.

(** ** Setters *)
Definition set_code (bytes : list Z) (tnext fnext : Z) (b : block_t) : block_t :=
  Block (b_addr b) (b_type b) (b_ignored b) (b_framesize b) bytes (b_checksum b) (b_calls b) (b_xrefs b) tnext fnext (b_name b) (b_comment b).
Definition set_type (t : blk_type) (b : block_t) : block_t :=
  Block (b_addr b) t (b_ignored b) (b_framesize b) (b_bytes b) (b_checksum b) (b_calls b) (b_xrefs b) (b_tnext b) (b_fnext b) (b_name b) (b_comment b).
Definition set_framesize (n : Z) (b : block_t) : block_t :=
  Block (b_addr b) (b_type b) (b_ignored b) n (b_bytes b) (b_checksum b) (b_calls b) (b_xrefs b) (b_tnext b) (b_fnext b) (b_name b) (b_comment b).
Definition set_name (n : string) (b : block_t) : block_t :=
  Block (b_addr b) (b_type b) (b_ignored b) (b_framesize b) (b_bytes b) (b_checksum b) (b_calls b) (b_xrefs b) (b_tnext b) (b_fnext b) (Some n) (b_comment b).
Definition set_comment (c : string) (b : block_t) : block_t :=
  Block (b_addr b) (b_type b) (b_ignored b) (b_framesize b) (b_bytes b) (b_checksum b) (b_calls b) (b_xrefs b) (b_tnext b) (b_fnext b) (b_name b) (Some c).
Definition set_ignored (i : bool) (b : block_t) : block_t :=
  Block (b_addr b) (b_type b) i (b_framesize b) (b_bytes b) (b_checksum b) (b_calls b) (b_xrefs b) (b_tnext b) (b_fnext b) (b_name b) (b_comment b).
Definition set_refs (calls xrefs : list Z) (b : block_t) : block_t :=
  Block (b_addr b) (b_type b) (b_ignored b) (b_framesize b) (b_bytes b) (b_checksum b) calls xrefs (b_tnext b) (b_fnext b) (b_name b) (b_comment b).
Definition set_checksum (c : Z) (b : block_t) : block_t :=
  Block (b_addr b) (b_type b) (b_ignored b) (b_framesize b) (b_bytes b) c (b_calls b) (b_xrefs b) (b_tnext b) (b_fnext b) (b_name b) (b_comment b).

Definition with_blocks (n : Z) (l : list block_t) (p : program_t) : program_t :=
  Program (p_name p) (p_entry p) n l (n_functions p) (functions p).
Definition with_functions (n : Z) (l : list function_t) (p : program_t) : program_t :=
  Program (p_name p) (p_entry p) (n_blocks p) (blocks p) n l.
Definition with_entry (e : Z) (p : program_t) : program_t :=
  Program (p_name p) e (n_blocks p) (blocks p) (n_functions p) (functions p).

Definition block_new (addr : Z) : block_t := Block addr BLK_TYPE_HEAD false 0 [] 0 [] [] 0 0 None None.
Definition function_new (addr size : Z) : function_t := Fun "" addr 0 0 size 0 [].

(** [program_new]: the entry and the number of functions are what [malloc] left. *)
Definition program_new (file : option string) (entry n : Z) : program_t := Program file entry 0 [] n [].

(** ** Lookup

    The place of the last element with a property. *)
Fixpoint last_index {A} (f : A -> bool) (l : list A) : option nat :=
  match l with
  | [] => None
  | x :: l' => match last_index f l' with Some i => Some (S i) | None => if f x then Some 0%nat else None end
  end.

Definition program_block_get (p : program_t) (addr : Z) : option nat := last_index (fun b => b_addr b =? addr) (blocks p).
Definition program_function_get (p : program_t) (addr : Z) : option nat := last_index (fun f => f_addr f =? addr) (functions p).

(** ** Blocks *)
Definition program_block_new (p : program_t) (addr : Z) : program_t * nat :=
  (with_blocks (n_blocks p + 1) (blocks p ++ [block_new addr]) p, length (blocks p)).
Definition program_block_get_new (p : program_t) (addr : Z) : program_t * nat :=
  match program_block_get p addr with Some i => (p, i) | None => program_block_new p addr end.

Definition upd_block (i : nat) (f : block_t -> block_t) (p : program_t) : program_t :=
  with_blocks (n_blocks p) (alter f i (blocks p)) p.

(** [program_block_split_new]: the block that holds an address behind its first is cut there. *)
Definition inside (addr : Z) (b : block_t) : bool := (b_addr b <? addr) && (addr <? u64 (b_addr b + b_n b)).
Definition program_block_split_new (p : program_t) (addr : Z) : program_t * option block_t :=
  match last_index (inside addr) (blocks p) with
  | None => (p, None)
  | Some i =>
    match blocks p !! i with
    | None => (p, None)
    | Some bt =>
      let '(p, j) := program_block_get_new p addr in
      let k := Z.to_nat (addr - b_addr bt) in
      let p := upd_block j (set_code (drop k (b_bytes bt)) (b_tnext bt) (b_fnext bt)) p in
      let p := upd_block i (fun b => set_type BLK_TYPE_HEAD (set_code (take k (b_bytes bt)) addr 0 b)) p in
      (p, blocks p !! j)
    end
  end.

(** [program_block_split]: the same by a distance from the start of a block. *)
Definition program_block_split (p : program_t) (i : nat) (offset : Z) : program_t * option nat :=
  match blocks p !! i with
  | None => (p, None)
  | Some bt =>
    if s32 (b_n bt - offset) <? 1 then (p, None)
    else
      let '(p, j) := program_block_get_new p (u64 (b_addr bt + offset)) in
      let k := Z.to_nat offset in
      let p := upd_block j (set_code (drop k (b_bytes bt)) (b_tnext bt) (b_tnext bt)) p in
      (upd_block i (set_code (take k (b_bytes bt)) (u64 (b_addr bt + offset)) 0) p, Some j)
  end.

Definition at_block (addr : Z) (f : block_t -> block_t) (p : program_t) : program_t :=
  let '(p, i) := program_block_get_new p addr in upd_block i f p.

Definition program_block_set_framesize (p : program_t) (addr size : Z) : program_t := at_block addr (set_framesize size) p.
Definition program_block_set_name (p : program_t) (addr : Z) (name : string) : program_t := at_block addr (set_name name) p.
Definition program_block_add_call (p : program_t) (addr dest : Z) : program_t :=
  at_block addr (fun b => set_refs (b_calls b ++ [dest]) (b_xrefs b) b) p.
(** The address kept is the one of the block. *)
Definition program_block_add_xref (p : program_t) (addr from : Z) : program_t :=
  at_block addr (fun b => set_refs (b_calls b) (b_xrefs b ++ [addr]) b) p.
Definition block_set_bytes (get_math : string -> Z) (p : program_t) (addr : Z) (hexpairs : string) : option program_t :=
  match hexstr2binstr get_math hexpairs with
  | Some (out, n) =>
    if (n =? Z.of_nat (length out)) && (length out <=? String.length hexpairs)%nat
    then Some (at_block addr (fun b => set_checksum (fold_left crc16_byte out 0) (set_code out (b_tnext b) (b_fnext b) b)) p)
    else None
  | None => None
  end.

(** [program_block_set_comment]: the end of a block is looked for in front of it. *)
Definition commented (addr : Z) (b : block_t) : bool := (b_addr b <=? addr) && (addr <? u64 (b_addr b - b_n b)).
Definition program_block_set_comment (p : program_t) (addr : Z) (comment : string) : program_t :=
  match last_index (commented addr) (blocks p) with Some i => upd_block i (set_comment comment) p | None => p end.

Definition program_reset (p : program_t) : program_t := with_blocks (n_blocks p) (set_ignored false <$> blocks p) p.

(** ** Functions *)
Definition program_add_function (p : program_t) (addr size : Z) : program_t * nat :=
  (with_functions (n_functions p + 1) (functions p ++ [function_new addr size]) p, length (functions p)).
Definition program_function_get_new (p : program_t) (addr : Z) : program_t * nat :=
  match program_function_get p addr with Some i => (p, i) | None => program_add_function p addr 0 end.
Definition upd_function (i : nat) (f : function_t -> function_t) (p : program_t) : program_t :=
  with_functions (n_functions p) (alter f i (functions p)) p.
Definition at_function (addr : Z) (f : function_t -> function_t) (p : program_t) : program_t :=
  let '(p, i) := program_function_get_new p addr in upd_function i f p.

(** A call is only kept for a function that is known. *)
Definition program_function_add_call (p : program_t) (addr call : Z) : program_t :=
  match program_function_get p addr with
  | Some i => upd_function i (fun f => Fun (f_name f) (f_addr f) (f_vars f) (f_args f) (f_size f) (f_frame f) (f_calls f ++ [(addr, call)])) p
  | None => p
  end.
(** [strncpy] of 200 characters into 256 that may hold a longer name. *)
Definition program_function_set_name (p : program_t) (addr : Z) (name : string) : program_t :=
  at_function addr (fun f => Fun (if (String.length name <? 200)%nat then name else String.substring 0 200 name +:+ str_drop 200 (f_name f))
    (f_addr f) (f_vars f) (f_args f) (f_size f) (f_frame f) (f_calls f)) p.
Definition program_function_set_vars (p : program_t) (addr vars : Z) : program_t :=
  at_function addr (fun f => Fun (f_name f) (f_addr f) vars (f_args f) (f_size f) (f_frame f) (f_calls f)) p.
Definition program_function_set_args (p : program_t) (addr args : Z) : program_t :=
  at_function addr (fun f => Fun (f_name f) (f_addr f) (f_vars f) args (f_size f) (f_frame f) (f_calls f)) p.
Definition program_function_set_framesize (p : program_t) (addr size : Z) : program_t :=
  at_function addr (fun f => Fun (f_name f) (f_addr f) (f_vars f) (f_args f) (f_size f) size (f_calls f)) p.

(** ** Files

    [program_open]: the lines of a file, as [fgets] reads them into 1023 characters.  A line that the file
    ends without a newline is left out; an empty line is looked at in front of its start, and longer lines are
    outside the model. *)
Section open.
Context (env : option core_env) (float_bits : string -> Z).

Definition strip_cr (s : string) : string :=
  match String.get (String.length s - 1) s with
  | Some c => if (ord c =? 10) || (ord c =? 13) then String.substring 0 (String.length s - 1) s else s
  | None => s
  end.

Definition open_line (p : program_t) (buf : string) : option program_t :=
  match split_at "@" (strip_cr buf) with
  | None => Some p
  | Some (buf, ptr) =>
    let at_off (f : Z -> program_t) := f <$> get_offset env float_bits ptr in
    if starts_with "CF " buf then at_off (fun off => fst (program_add_function p off 0))
    else if starts_with "CC framesize = " buf then at_off (fun off => program_function_set_framesize p off (atoi (str_drop 15 buf)))
    else if starts_with "CC vars = " buf then at_off (fun off => program_function_set_vars p off (atoi (str_drop 10 buf)))
    else if starts_with "CC args = " buf then at_off (fun off => program_function_set_args p off (atoi (str_drop 10 buf)))
    else if starts_with "Cx " buf then
      match get_offset env float_bits (str_drop 3 buf) with
      | Some from => at_off (fun off => program_function_add_call (program_block_add_xref p off from) off from)
      | None => None
      end
    else if starts_with "CC " buf then at_off (fun off => program_block_set_comment p off (str_drop 3 buf))
    else if starts_with "f entrypoint" buf then at_off (fun off => with_entry off p)
    else if starts_with "f sym." buf then
      at_off (fun off => program_block_set_name (program_function_set_name p off (str_drop 6 buf)) off (str_drop 2 buf))
    else Some p
  end.

Fixpoint open_lines (p : program_t) (lines : list string) : option program_t :=
  match lines with
  | [] => Some p
  | buf :: lines' =>
    if (1022 <=? String.length buf)%nat then None
    else match buf with
         | "" => None
         | _ => match open_line p buf with Some p => open_lines p lines' | None => None end
         end
  end.
End open.

(** ** The invariant: one block for an address *)
Definition program_ok (p : program_t) : Prop :=
  NoDup (b_addr <$> blocks p) /\ n_blocks p = Z.of_nat (length (blocks p)).

Lemma last_index_Some {A} (f : A -> bool) l i : last_index f l = Some i -> exists x, l !! i = Some x /\ f x = true.
Proof.
  revert i. induction l as [|x l IH]; intros i H; [done|]. cbn [last_index] in H.
  destruct (last_index f l) as [j|]; [simplify_eq; by apply IH|]. destruct (f x) eqn:E; [|done]. simplify_eq. by exists x.
Qed.
Lemma last_index_None {A} (f : A -> bool) l : last_index f l = None -> Forall (fun x => f x = false) l.
Proof.
  induction l as [|x l IH]; intros H; [done|]. cbn [last_index] in H. destruct (last_index f l); [done|].
  destruct (f x) eqn:E; [done|]. constructor; auto.
Qed.

Lemma last_index_snoc {A} (f : A -> bool) l x : f x = true -> last_index f (l ++ [x]) = Some (length l).
Proof. intros H. induction l as [|y l IH]; cbn [app last_index length]; [by rewrite H|by rewrite IH]. Qed.

Lemma program_new_ok file e n : program_ok (program_new file e n).
Proof. split; [constructor|done]. Qed.

Lemma ok_same_addrs p p' :
  program_ok p -> b_addr <$> blocks p' = b_addr <$> blocks p -> n_blocks p' = n_blocks p -> program_ok p'.
Proof.
  intros [Hd Hn] Ha Hc. split; [by rewrite Ha|]. rewrite Hc, Hn. f_equal. by rewrite <-(length_fmap b_addr), <-Ha, length_fmap.
Qed.

Lemma upd_block_ok i f p : (forall b, b_addr (f b) = b_addr b) -> program_ok p -> program_ok (upd_block i f p).
Proof.
  intros Hf H. eapply ok_same_addrs; [exact H| |done]. cbn [upd_block with_blocks blocks].
  apply list_eq. intros j. rewrite !list_lookup_fmap. destruct (decide (i = j)) as [->|].
  - rewrite list_lookup_alter_eq. destruct (blocks p !! j) as [b|]; [|done]. cbn. by rewrite Hf.
  - by rewrite list_lookup_alter_ne.
Qed.

Lemma get_new_spec p addr p' i :
  program_block_get_new p addr = (p', i) -> program_ok p ->
  program_ok p' /\ (exists b, blocks p' !! i = Some b /\ b_addr b = addr) /\
  (p' = p \/ program_block_get p addr = None /\ i = length (blocks p) /\ p' = with_blocks (n_blocks p + 1) (blocks p ++ [block_new addr]) p).
Proof.
  unfold program_block_get_new. intros H Hok. destruct (program_block_get p addr) as [j|] eqn:E.
  - simplify_eq. split; [done|]. split; [|by left]. apply last_index_Some in E as (b & Hb & Ha). exists b. split; [done|]. by apply Z.eqb_eq.
  - unfold program_block_new in H. simplify_eq. split_and!.
    + destruct Hok as [Hd Hn]. apply last_index_None in E. split; cbn [with_blocks blocks n_blocks].
      * rewrite fmap_app, NoDup_app. split_and!; [done| |constructor; [set_solver|constructor]].
        intros x Hx Hx'. cbn in Hx'. apply list_elem_of_singleton in Hx' as ->. apply list_elem_of_fmap in Hx as (b & -> & Hb).
        rewrite Forall_forall in E. specialize (E b Hb). cbn in E. lia.
      * rewrite length_app, Hn. cbn. lia.
    + exists (block_new addr). cbn [with_blocks blocks]. split; [|done]. by rewrite lookup_app_r, Nat.sub_diag by lia.
    + by right.
Qed.

Lemma at_block_ok addr f p : (forall b, b_addr (f b) = b_addr b) -> program_ok p -> program_ok (at_block addr f p).
Proof.
  intros Hf H. unfold at_block. destruct (program_block_get_new p addr) as [p' i] eqn:E.
  destruct (get_new_spec p addr p' i E H) as (H' & _). by apply upd_block_ok.
Qed.
Lemma at_function_ok addr f p : program_ok p -> program_ok (at_function addr f p).
Proof.
  intros H. unfold at_function, program_function_get_new. by destruct (program_function_get p addr).
Qed.

Lemma open_line_ok env fb p buf p' : open_line env fb p buf = Some p' -> program_ok p -> program_ok p'.
Proof.
  intros E H. unfold open_line in E. destruct (split_at "@" (strip_cr buf)) as [[l r]|]; [|by simplify_eq]. cbv zeta in E.
  destruct (get_offset env fb r) as [off|]; cbn [fmap option_fmap option_map] in E.
  2: { repeat match type of E with (if ?c then _ else _) = _ => destruct c end;
      first [done|by simplify_eq|by destruct (get_offset _ _ _)]. }
  repeat match type of E with (if ?c then _ else _) = _ => destruct c end.
  5: destruct (get_offset env fb (str_drop 3 l)) as [from|]; [|done].
  all: simplify_eq; try done; try by apply at_function_ok.
  - unfold program_function_add_call, program_block_add_xref.
    assert (H' := at_block_ok off (fun b => set_refs (b_calls b) (b_xrefs b ++ [off]) b) p (fun b => eq_refl) H).
    by destruct (program_function_get _ _).
  - unfold program_block_set_comment. destruct (last_index _ _); [by apply upd_block_ok|done].
  - apply at_block_ok; [done|]. by apply at_function_ok.
Qed.

(** Whatever a file of a program holds, and however blocks are cut, named and filled, there is one block
    for an address and their number is counted. *)
Theorem program_blocks_unique env fb p :
  program_ok p ->
  (forall lines p', open_lines env fb p lines = Some p' -> program_ok p') /\
  (forall addr, program_ok (fst (program_block_split_new p addr))) /\
  (forall i offset, program_ok (fst (program_block_split p i offset))) /\
  (forall addr dest, program_ok (program_block_add_call p addr dest)) /\
  (forall gm addr s p', block_set_bytes gm p addr s = Some p' -> program_ok p').
Proof.
  intros Hok. split_and!.
  - intros lines. revert p Hok. induction lines as [|buf lines IH]; intros p Hok p' H; cbn [open_lines] in H; [by simplify_eq|].
    destruct (_ <=? _)%nat; [done|]. destruct buf as [|c buf]; [done|].
    destruct (open_line _ _ _ _) as [p1|] eqn:E; [|done]. eapply IH; [|exact H]. by eapply open_line_ok.
  - intros addr. unfold program_block_split_new. destruct (last_index _ _) as [i|]; [|done]. destruct (blocks p !! i) as [bt|]; [|done].
    destruct (program_block_get_new p addr) as [p1 j] eqn:E. destruct (get_new_spec p addr p1 j E Hok) as (H' & _).
    cbn [fst]. apply upd_block_ok; [done|]. by apply upd_block_ok.
  - intros i offset. unfold program_block_split. destruct (blocks p !! i) as [bt|]; [|done]. destruct (_ <? 1); [done|].
    destruct (program_block_get_new p _) as [p1 j] eqn:E. destruct (get_new_spec p _ p1 j E Hok) as (H' & _).
    cbn [fst]. apply upd_block_ok; [done|]. by apply upd_block_ok.
  - intros addr dest. by apply at_block_ok.
  - intros gm addr s p' H. unfold block_set_bytes in H. destruct (hexstr2binstr gm s) as [[out n]|]; [|done].
    destruct (_ && _); [|done]. simplify_eq. by apply at_block_ok.
Qed.

Lemma program_blocks_unique_witness :
  let p := program_new None 0 0 in
  (forall lines p', open_lines None no_float p lines = Some p' -> program_ok p') /\
  (forall addr, program_ok (fst (program_block_split_new p addr))) /\
  (forall i offset, program_ok (fst (program_block_split p i offset))) /\
  (forall addr dest, program_ok (program_block_add_call p addr dest)) /\
  (forall gm addr s p', block_set_bytes gm p addr s = Some p' -> program_ok p').
Proof. apply (program_blocks_unique None no_float (program_new None 0 0)). apply program_new_ok. Defined.

(** ** Cutting a block *)

(** A byte of the program. *)
Definition has_code (x v : Z) (b : block_t) : Prop := b_addr b <= x /\ b_bytes b !! Z.to_nat (x - b_addr b) = Some v.
Definition code_at (p : program_t) (x v : Z) : Prop := Exists (has_code x v) (blocks p).

Definition no_wrap (p : program_t) : Prop := Forall (fun b => 0 <= b_addr b /\ b_addr b + b_n b < 2^64) (blocks p).

Lemma has_code_split bt ft nb k x v :
  (k <= length (b_bytes bt))%nat -> b_addr ft = b_addr bt -> b_bytes ft = take k (b_bytes bt) ->
  b_addr nb = b_addr bt + Z.of_nat k -> b_bytes nb = drop k (b_bytes bt) ->
  has_code x v ft \/ has_code x v nb <-> has_code x v bt.
Proof.
  intros Hk Hfa Hfb Hna Hnb. unfold has_code. rewrite Hfa, Hfb, Hna, Hnb, lookup_drop. split.
  - intros [[H1 H2]|[H1 H2]]; (split; [lia|]); [by apply lookup_take_Some in H2 as [? _]|].
    rewrite <-H2. f_equal. lia.
  - intros [H1 H2]. destruct (decide (Z.to_nat (x - b_addr bt) < k)%nat).
    + left. split; [done|]. by apply lookup_take_Some.
    + right. split; [lia|]. rewrite <-H2. f_equal. lia.
Qed.

(** What is left in the list of blocks: the one that is cut is number [i], the one behind the cut number [j]. *)
Lemma split_new_blocks p addr i bt p' ob :
  last_index (inside addr) (blocks p) = Some i -> blocks p !! i = Some bt -> b_addr bt <> addr ->
  program_block_split_new p addr = (p', ob) ->
  let k := Z.to_nat (addr - b_addr bt) in
  exists j nb, ob = Some nb /\ b_addr nb = addr /\ b_bytes nb = drop k (b_bytes bt) /\ b_tnext nb = b_tnext bt /\ b_fnext nb = b_fnext bt /\
    j <> i /\ (program_block_get p addr = Some j \/ program_block_get p addr = None /\ j = length (blocks p)) /\
    blocks p' !! i = Some (set_type BLK_TYPE_HEAD (set_code (take k (b_bytes bt)) addr 0 bt)) /\ blocks p' !! j = Some nb /\
    forall m, m <> i -> m <> j -> blocks p' !! m = blocks p !! m.
Proof.
  intros Hi Hb Hne H k. unfold program_block_split_new in H. rewrite Hi, Hb in H.
  destruct (program_block_get_new p addr) as [p1 j] eqn:E. fold k in H.
  assert (Hlt := lookup_lt_Some _ _ _ Hb).
  assert (Hnew : j <> i /\ (exists b0, blocks p1 !! j = Some b0 /\ b_addr b0 = addr) /\ (forall m, m <> j -> blocks p1 !! m = blocks p !! m) /\
    (program_block_get p addr = Some j \/ program_block_get p addr = None /\ j = length (blocks p))).
  { unfold program_block_get_new in E. destruct (program_block_get p addr) as [j'|] eqn:Eg.
    - simplify_eq. apply last_index_Some in Eg as (b0 & Hj & Ha). apply Z.eqb_eq in Ha.
      split_and!; [congruence|by exists b0|done|by left].
    - unfold program_block_new in E. simplify_eq. cbn [with_blocks blocks]. split_and!; [lia| | |by right].
      + exists (block_new addr). split; [|done]. by rewrite lookup_app_r, Nat.sub_diag by lia.
      + intros m Hm. destruct (decide (m < length (blocks p))%nat); [by apply lookup_app_l|].
        rewrite !lookup_ge_None_2; [done|lia|rewrite length_app; cbn; lia]. }
  destruct Hnew as (Hji & (b0 & Hj & Ha) & Hm & Hg). cbv zeta in H. injection H as <- <-.
  exists j, (set_code (drop k (b_bytes bt)) (b_tnext bt) (b_fnext bt) b0). cbn [upd_block with_blocks blocks].
  rewrite list_lookup_alter_ne, list_lookup_alter_eq, Hj by done. split_and!; try done.
  - rewrite list_lookup_alter_eq, list_lookup_alter_ne, Hm, Hb by done. done.
  - intros m Hmi Hmj. rewrite !list_lookup_alter_ne by done. by apply Hm.
Qed.

(** The bytes of a program without the ones of the block that begins at an address. *)
Definition other_code_at (p : program_t) (addr x v : Z) : Prop :=
  exists k b, blocks p !! k = Some b /\ program_block_get p addr <> Some k /\ has_code x v b.

Lemma code_at_lookup p x v : code_at p x v <-> exists m b, blocks p !! m = Some b /\ has_code x v b.
Proof.
  unfold code_at. rewrite Exists_exists. split.
  - intros (b & (m & Hm)%list_elem_of_lookup & H). by exists m, b.
  - intros (m & b & Hm & H). exists b. split; [by eapply list_elem_of_lookup_2|done].
Qed.

(** C36: In a program whose blocks end below 2^64, cutting at an address that is inside of a block, behind its first
    byte, leaves the block with the bytes in front, which leads to a block that begins at the address, has the bytes
    behind and leads where the old one did; at any other address nothing changes. Every byte of the program stays where
    it was when no block began at the address; a block that did is written over, and its own bytes, and no others, are
    lost. *)
Theorem split_keeps_code p addr p' ob :
  no_wrap p -> program_block_split_new p addr = (p', ob) ->
  (ob = None <-> forall b, b ∈ blocks p -> ~ b_addr b < addr < b_addr b + b_n b) /\ (ob = None -> p' = p) /\
  (forall b, ob = Some b -> exists bt bt', bt ∈ blocks p /\ bt' ∈ blocks p' /\ b ∈ blocks p' /\
     b_addr bt < addr < b_addr bt + b_n bt /\ b_addr bt' = b_addr bt /\ b_addr b = addr /\
     b_bytes bt = (b_bytes bt' ++ b_bytes b)%list /\ b_addr bt + b_n bt' = addr /\
     b_tnext bt' = addr /\ b_fnext bt' = 0 /\ b_tnext b = b_tnext bt /\ b_fnext b = b_fnext bt) /\
  (ob <> None -> forall x v, code_at p' x v <-> other_code_at p addr x v) /\
  (program_block_get p addr = None -> forall x v, code_at p' x v <-> code_at p x v).
Proof.
  intros Hw H. assert (Hwb : forall b, b ∈ blocks p -> inside addr b = true <-> b_addr b < addr < b_addr b + b_n b).
  { intros b Hb. unfold no_wrap in Hw. rewrite Forall_forall in Hw. destruct (Hw b Hb). unfold inside, b_n in *.
    rewrite u64_id by (unfold is_u64; lia). rewrite andb_true_iff, !Z.ltb_lt. done. }
  destruct (last_index (inside addr) (blocks p)) as [i|] eqn:Hi.
  2: { unfold program_block_split_new in H. rewrite Hi in H. simplify_eq. apply last_index_None in Hi. rewrite Forall_forall in Hi.
    split; [|split_and!; done]. split; [|done]. intros _ b Hb Hin%Hwb; [|done]. rewrite Hi in Hin by done. done. }
  destruct (last_index_Some _ _ _ Hi) as (bt & Hb & Hin). assert (Hbt := list_elem_of_lookup_2 _ _ _ Hb). apply Hwb in Hin; [|done].
  destruct (split_new_blocks p addr i bt p' ob Hi Hb ltac:(lia) H) as (j & nb & -> & Ea & Eb & Et & Ef & Hji & Hg & Hpi & Hpj & Hm).
  set (k := Z.to_nat (addr - b_addr bt)) in *. unfold b_n in *. assert (Hk : (k < length (b_bytes bt))%nat /\ addr = b_addr bt + Z.of_nat k) by lia.
  destruct Hk as [Hk Hak]. set (ft := set_type _ _) in Hpi.
  assert (Hcode : forall x v, has_code x v ft \/ has_code x v nb <-> has_code x v bt).
  { intros x v. apply (has_code_split bt ft nb k); (done || lia). }
  assert (Hother : forall x v, code_at p' x v <-> other_code_at p addr x v).
  { intros x v. rewrite code_at_lookup. split.
    - intros (m & b & Hmb & Hc). destruct (decide (m = i)) as [->|Hmi]; [|destruct (decide (m = j)) as [->|Hmj]].
      + exists i, bt. split_and!; [done|destruct Hg as [|[]]; congruence|]. apply Hcode. left. congruence.
      + exists i, bt. split_and!; [done|destruct Hg as [|[]]; congruence|]. apply Hcode. right. congruence.
      + exists m, b. split_and!; [by rewrite <-Hm|destruct Hg as [|[]]; congruence|done].
    - intros (m & b & Hmb & Hne & Hc). destruct (decide (m = i)) as [->|Hmi].
      + rewrite Hb in Hmb. injection Hmb as <-. apply Hcode in Hc as [Hc|Hc]; eauto.
      + exists m, b. split; [|done]. rewrite Hm; [done|done|]. intros ->. destruct Hg as [|[_ ->]]; [done|].
        by rewrite lookup_ge_None_2 in Hmb. }
  split; [split; [done|intros Hno; by destruct (Hno bt)]|]. split; [done|]. split; [|split; [by intros _|]].
  - intros b [= <-]. exists bt, ft. split_and!; try done; try (by eapply list_elem_of_lookup_2); try lia.
    + rewrite Eb. cbn. by rewrite take_drop.
    + cbn. rewrite length_take_le; lia.
  - intros Hnone x v. rewrite Hother, code_at_lookup. unfold other_code_at. rewrite Hnone. naive_solver.
Qed.

Definition split_example : program_t :=
  upd_block 0 (set_code [1; 2; 3; 4] 0x20 0x30) (fst (program_block_get_new (program_new None 0 0) 0x10)).

Lemma split_keeps_code_witness :
  let p := split_example in
  b_bytes <$> blocks (fst (program_block_split_new p 0x11)) = [[1]; [2; 3; 4]] /\
  (forall x v, code_at (fst (program_block_split_new p 0x11)) x v <-> code_at p x v).
Proof.
  split; [reflexivity|]. intros x v.
  apply (split_keeps_code split_example 0x11 _ (snd (program_block_split_new split_example 0x11))); [|reflexivity|reflexivity].
  repeat constructor; vm_compute; congruence.
Defined.

(** On an address that has a block already, the cut writes over that block: with blocks at 0x10 (four bytes) and
    0x11, cutting at 0x11 loses the byte of the second one. *)
Example split_loses_code :
  let p := upd_block 1 (set_code [9; 9; 9; 9] 0 0) (fst (program_block_get_new split_example 0x11)) in
  b_bytes <$> blocks (fst (program_block_split_new p 0x11)) = [[1]; [2; 3; 4]].
Proof. vm_compute. done. Qed.

(** The distance from the start of a block cuts the same way, but the new block gets one successor twice. *)
Example split_by_offset :
  let '(p, j) := program_block_split split_example 0 3 in
  b_bytes <$> blocks p = [[1; 2; 3]; [4]] /\ b_tnext <$> blocks p = [0x13; 0x20] /\ b_fnext <$> blocks p = [0; 0x20].
Proof. vm_compute. done. Qed.

(** A reference keeps the address of its own block. *)
Example xref_is_self : b_xrefs <$> blocks (program_block_add_xref (program_new None 0 0) 0x10 0x99) = [[0x10]].
Proof. vm_compute. done. Qed.

(** A comment is not kept: no block reaches from its start to an address in front of it, unless that wraps around. *)
Example comment_lost :
  b_comment <$> blocks (program_block_set_comment split_example 0x11 "hello") = [None].
Proof. vm_compute. done. Qed.

Example open_example :
  (fun p => (p_entry p, f_name <$> functions p, f_calls <$> functions p, b_addr <$> blocks p)) <$>
    open_lines None no_float (program_new (Some "p") 0 0)
      ["CF 12 @ 0x10"; "Cx 0x40 @ 0x10 ; f"; "f sym.main @ 0x20"; "f entrypoint @ 0x20"]
  = Some (0x20, [""; "main "], [[(0x10, 0x40)]; []], [0x10; 0x20]).
Proof. vm_compute. done. Qed.
