(* ===== verification/Analyze.v ===== *)
(** * Blocks of code, reference lines and variables of the analysis: [src/analyze.c]

    The analyser of the architecture, [arch_aop], is called through a pointer and is an argument: from an
    address, the bytes there and the record to fill it gives the length and the record.  [read] is what
    [config.block] holds after a read at an address, and [aop0] what the record holds before anything is
    written to it.  Nobody interrupts.  [None] is an access outside a buffer. *)
From stdpp Require Import gmap.
From S2P Require Import Prelude Utils Data Arch Java Rdb.
#[local] Open Scope Z_scope.
#[local] Open Scope aop_scope.

(** ** Blocks *)
Section code.
Context (arch_aop : Z -> list Z -> aop_t -> Z * aop_t) (read : Z -> list Z) (aop0 : aop_t) (callblocks refblocks : bool).

(** The size of a block while code is analysed, which is the size of the buffer its bytes are kept in. *)
Definition BLOCK : Z := 4096.

Definition follow_ref (p : program_t) (oseek next : Z) (aop : aop_t) : aop_t * program_t :=
  if negb (a_ref aop =? 0) && refblocks
  then (aop |> set_eob true |> set_jump (a_ref aop) |> set_fail (u64 next), program_block_add_call p oseek (a_ref aop))
  else (aop, p).
Definition step_nosplit (p : program_t) (oseek next : Z) (aop : aop_t) : aop_t * program_t :=
  match a_type aop with
  | AOP_TYPE_JMP => (set_eob true aop, p)
  | AOP_TYPE_CALL => (set_eob callblocks aop, program_block_add_call p oseek (a_jump aop))
  | AOP_TYPE_PUSH => follow_ref p oseek next aop
  | _ => (aop, p)
  end.
Definition step_split (p : program_t) (oseek next : Z) (aop : aop_t) : aop_t * program_t :=
  match a_type aop with
  | AOP_TYPE_JMP | AOP_TYPE_TRAP | AOP_TYPE_RET => (set_eob true aop, p)
  | AOP_TYPE_CALL => (set_eob callblocks aop, p)
  | AOP_TYPE_PUSH => follow_ref p oseek next aop
  | _ => (aop, p)
  end.

(** The walk over the bytes of a block: where it ends and what the last instruction was. *)
Fixpoint walk (step : program_t -> Z -> Z -> aop_t -> aop_t * program_t) (fuel : nat) (p : program_t) (seek bsz : Z)
    (aop : aop_t) : option (Z * aop_t * program_t) :=
  match fuel with
  | O => None
  | S fuel' =>
    if a_eob aop || negb (bsz + 4 <? BLOCK) then Some (bsz, aop, p)
    else
      let '(ret, aop) := arch_aop (u64 (seek + bsz)) (drop (Z.to_nat bsz) (read seek)) aop in
      let sz := u32 ret in
      if sz <=? 0 then Some (bsz, aop, p)
      else
        let '(aop, p) := step p seek (seek + bsz + sz) aop in
        if bsz + sz <=? BLOCK then walk step fuel' p seek (bsz + sz) aop else None
  end.
Definition walk_fuel : nat := S (Z.to_nat BLOCK).

Definition block_type (aop : aop_t) : blk_type :=
  if negb (a_jump aop =? 0) then BLK_TYPE_BODY
  else if bool_decide (a_type aop = AOP_TYPE_RET) then BLK_TYPE_LAST else BLK_TYPE_HEAD.

(** [code_analyze_r_nosplit]: the depth makes it end. *)
Fixpoint code_analyze_r_nosplit (depth : nat) (p : program_t) (seek : Z) : option program_t :=
  match depth with
  | O => Some p
  | S depth' =>
    match program_block_get p seek with
    | Some _ => Some p
    | None =>
      match walk step_nosplit walk_fuel p seek 0 (set_eob false aop0) with
      | None => None
      | Some (bsz, aop, p) =>
        let '(p, i) := program_block_get_new p seek in
        let p := upd_block i (fun b => Rdb.set_type (block_type aop) (set_code (take (Z.to_nat bsz) (read seek)) (a_jump aop) (a_fail aop) b)) p in
        match (if a_jump aop =? 0 then Some p else code_analyze_r_nosplit depth' p (a_jump aop)) with
        | None => None
        | Some p =>
          match blocks p !! i with
          | Some blk => if b_fnext blk =? 0 then Some p else code_analyze_r_nosplit depth' p (b_fnext blk)
          | None => None
          end
        end
      end
    end
  end.

(** [code_analyze_r_split]: a block that holds the address is cut there; otherwise the code is only walked. *)
Fixpoint code_analyze_r_split (depth : nat) (p : program_t) (seek : Z) : option program_t :=
  match depth with
  | O => Some p
  | S depth' =>
    let '(p, blf) := program_block_split_new p seek in
    let aop := match blf with
               | Some b => aop0 |> set_jump (b_tnext b) |> set_fail (b_fnext b) |> set_eob true
               | None => set_eob false aop0
               end in
    match walk step_split walk_fuel p seek 0 aop with
    | None => None
    | Some (_, aop, p) =>
      match (if a_jump aop =? 0 then Some p else code_analyze_r_split depth' p (a_jump aop)) with
      | None => None
      | Some p => if a_fail aop =? 0 then Some p else code_analyze_r_split depth' p (a_fail aop)
      end
    end
  end.

(** [garbage] is what the memory of the program holds where nothing is written to. *)
Definition code_analyze (split : bool) (entry garbage seek depth : Z) : option program_t :=
  let p := with_entry entry (program_new None 0 garbage) in
  let depth := if 30 <? depth then 30 else depth in
  match code_analyze_r_nosplit (Z.to_nat (depth - 1)) p seek with
  | None => None
  | Some p => if split then code_analyze_r_split (Z.to_nat (depth - 2)) p seek else Some p
  end.

(** ** Walks only touch the block they are for *)

(** The blocks of [p], and at most one behind them, which is for [seek]. *)
Definition at_most_new (base : list block_t) (seek : Z) (p : program_t) : Prop :=
  blocks p = base \/ exists b, blocks p = (base ++ [b])%list /\ b_addr b = seek.

Lemma get_new_tail base seek p :
  Forall (fun b => b_addr b <> seek) base -> at_most_new base seek p ->
  exists p' b, program_block_get_new p seek = (p', length base) /\ blocks p' = (base ++ [b])%list /\ b_addr b = seek.
Proof.
  intros Hb H. assert (Hn : last_index (fun b => b_addr b =? seek) base = None).
  { destruct (last_index _ _) eqn:E; [|done]. apply last_index_Some in E as (x & Hx & E).
    rewrite Forall_lookup in Hb. specialize (Hb _ _ Hx). lia. }
  unfold program_block_get_new, program_block_get. destruct H as [H|(b & H & Ha)]; rewrite H.
  - rewrite Hn. unfold program_block_new. rewrite H. eexists _, _. split; [reflexivity|]. done.
  - rewrite last_index_snoc by (rewrite Ha; apply Z.eqb_refl). eauto.
Qed.

Lemma add_call_new base seek p dest :
  Forall (fun b => b_addr b <> seek) base -> at_most_new base seek p ->
  at_most_new base seek (program_block_add_call p seek dest).
Proof.
  intros Hb H. unfold program_block_add_call, at_block.
  destruct (get_new_tail base seek p Hb H) as (p' & b & -> & E & Ha). right.
  eexists. cbn [upd_block with_blocks blocks]. rewrite E, <-(Nat.add_0_r (length base)), alter_app_r.
  split; [reflexivity|done].
Qed.

Lemma step_nosplit_new base seek next p aop :
  Forall (fun b => b_addr b <> seek) base -> at_most_new base seek p ->
  at_most_new base seek (snd (step_nosplit p seek next aop)).
Proof.
  intros Hb H. unfold step_nosplit, follow_ref.
  destruct (a_type aop); try exact H; [by apply add_call_new|]. case_match; [by apply add_call_new|done].
Qed.

Lemma walk_new fuel base seek p bsz aop bsz' aop' p' :
  Forall (fun b => b_addr b <> seek) base -> at_most_new base seek p ->
  walk step_nosplit fuel p seek bsz aop = Some (bsz', aop', p') -> at_most_new base seek p'.
Proof.
  intros Hb. revert p bsz aop. induction fuel as [|fuel IH]; intros p bsz aop H W; cbn [walk] in W; [done|].
  destruct (_ || _); [by simplify_eq|]. destruct (arch_aop _ _ _) as [ret aop1]. cbv zeta in W.
  destruct (_ <=? 0); [by simplify_eq|].
  assert (Hs := step_nosplit_new base seek (seek + bsz + u32 ret) p aop1 Hb H).
  destruct (step_nosplit _ _ _ _) as [aop2 p2]. destruct (_ <=? BLOCK); [|done]. by eapply IH.
Qed.

(** ** What one call leaves behind *)
Definition is_block (p : program_t) (a : Z) : Prop := exists b, b ∈ blocks p /\ b_addr b = a.
Definition closed (p : program_t) (b : block_t) : Prop :=
  (b_tnext b <> 0 -> is_block p (b_tnext b)) /\ (b_fnext b <> 0 -> is_block p (b_fnext b)).
(** The bytes of a block are those of the memory, and its successors those of its last instruction. *)
Definition read_code (b : block_t) : Prop := exists n, b_bytes b = take n (read (b_addr b)).

Lemma is_block_mono p p' a : blocks p `prefix_of` blocks p' -> is_block p a -> is_block p' a.
Proof. intros [k Hk] (b & Hb & Ha). exists b. rewrite Hk, elem_of_app. auto. Qed.
Lemma closed_mono p p' b : blocks p `prefix_of` blocks p' -> closed p b -> closed p' b.
Proof. intros H [H1 H2]. split; intros E; eauto using is_block_mono. Qed.

(** One call adds blocks [k]; [D] is the depth the analysis began with. *)
Record left_behind (D depth : nat) (p p' : program_t) (k : list block_t) : Prop := {
  lb_blocks : blocks p' = (blocks p ++ k)%list;
  lb_nodup : NoDup (b_addr <$> blocks p');
  lb_count : (length k + 1 <= 2 ^ depth)%nat;
  lb_code : Forall read_code k;
  lb_closed : (length (blocks p') < D)%nat -> Forall (closed p') k }.
Definition reached (D : nat) (p' : program_t) (seek : Z) : Prop := (length (blocks p') < D)%nat -> is_block p' seek.

Lemma left_behind_prefix D depth p p' k : left_behind D depth p p' k -> blocks p `prefix_of` blocks p'.
Proof. intros H. rewrite (lb_blocks _ _ _ _ _ H). by exists k. Qed.
Lemma left_behind_nil D depth p : NoDup (b_addr <$> blocks p) -> left_behind D depth p p [].
Proof.
  intros H. split; [by rewrite app_nil_r|done| |done|done].
  assert (2 ^ depth <> 0)%nat by (by apply Nat.pow_nonzero). cbn. lia.
Qed.

(** A successor is followed unless it is none. *)
Lemma left_behind_succ D depth p a p' (go : option program_t) :
  (if a =? 0 then Some p else go) = Some p' -> NoDup (b_addr <$> blocks p) ->
  (go = Some p' -> exists k, left_behind D depth p p' k /\ reached D p' a) ->
  exists k, left_behind D depth p p' k /\ (a <> 0 -> reached D p' a).
Proof.
  intros H Hd Hg. destruct (Z.eqb_spec a 0).
  - simplify_eq. exists []. split; [by apply left_behind_nil|done].
  - destruct (Hg H) as (k & ? & ?). eauto.
Qed.

(** A block and what its two successors left. *)
Lemma left_behind_both D depth p blk p2 p3 p4 k3 k4 :
  blocks p2 = (blocks p ++ [blk])%list -> left_behind D depth p2 p3 k3 -> left_behind D depth p3 p4 k4 -> read_code blk ->
  (b_tnext blk <> 0 -> reached D p3 (b_tnext blk)) -> (b_fnext blk <> 0 -> reached D p4 (b_fnext blk)) ->
  left_behind D (S depth) p p4 (blk :: k3 ++ k4) /\ reached D p4 (b_addr blk).
Proof.
  intros E2 H3 H4 Hc Ht Hf. assert (P34 := left_behind_prefix _ _ _ _ _ H4).
  assert (E4 : blocks p4 = (blocks p ++ blk :: k3 ++ k4)%list).
  { rewrite (lb_blocks _ _ _ _ _ H4), (lb_blocks _ _ _ _ _ H3), E2, <-!app_assoc. done. }
  assert (L34 : (length (blocks p3) <= length (blocks p4))%nat) by (by apply prefix_length).
  split.
  - split; [done|exact (lb_nodup _ _ _ _ _ H4)| | |].
    + assert (A := lb_count _ _ _ _ _ H3). assert (B := lb_count _ _ _ _ _ H4). cbn. rewrite length_app. lia.
    + apply Forall_cons. split; [done|]. apply Forall_app. split; [exact (lb_code _ _ _ _ _ H3)|exact (lb_code _ _ _ _ _ H4)].
    + intros HD. apply Forall_cons. split.
      * split; [|intros E; by apply Hf]. intros E. eapply is_block_mono; [exact P34|]. apply Ht; [done|lia].
      * apply Forall_app. split; [|by apply (lb_closed _ _ _ _ _ H4)].
        eapply Forall_impl; [apply (lb_closed _ _ _ _ _ H3); lia|]. intros b. by apply closed_mono.
  - intros _. exists blk. split; [|done]. rewrite E4. apply elem_of_app. right. by left.
Qed.

(** The block of one call, before its successors are followed. *)
Lemma nosplit_block p seek bsz aop p0 p1 i :
  NoDup (b_addr <$> blocks p) -> program_block_get p seek = None ->
  walk step_nosplit walk_fuel p seek 0 (set_eob false aop0) = Some (bsz, aop, p0) ->
  program_block_get_new p0 seek = (p1, i) ->
  let p2 := upd_block i (fun b => Rdb.set_type (block_type aop) (set_code (take (Z.to_nat bsz) (read seek)) (a_jump aop) (a_fail aop) b)) p1 in
  i = length (blocks p) /\ NoDup (b_addr <$> blocks p2) /\
  exists blk, blocks p2 = (blocks p ++ [blk])%list /\ read_code blk /\ b_addr blk = seek /\
    b_tnext blk = a_jump aop /\ b_fnext blk = a_fail aop.
Proof.
  intros Hd Eg W En p2. assert (Hb : Forall (fun b => b_addr b <> seek) (blocks p)).
  { apply last_index_None in Eg. eapply Forall_impl; [exact Eg|]. cbn. lia. }
  assert (H0 := walk_new _ (blocks p) _ _ _ _ _ _ _ Hb (or_introl eq_refl) W).
  destruct (get_new_tail _ _ _ Hb H0) as (p1' & b1 & E & E1 & Ha1). rewrite E in En. simplify_eq.
  split; [done|].
  set (blk := Rdb.set_type (block_type aop) (set_code (take (Z.to_nat bsz) (read (b_addr b1))) (a_jump aop) (a_fail aop) b1)).
  assert (E2 : blocks p2 = (blocks p ++ [blk])%list).
  { cbn [p2 upd_block with_blocks blocks]. rewrite E1, <-(Nat.add_0_r (length (blocks p))), alter_app_r. done. }
  split; [|exists blk; split; [exact E2|]; split; [by exists (Z.to_nat bsz)|by split_and!]].
  rewrite E2, fmap_app, NoDup_app. split_and!; [exact Hd| |apply NoDup_singleton].
  intros x Hx Hx'. apply list_elem_of_fmap in Hx as (b & -> & Hx). rewrite Forall_forall in Hb. specialize (Hb b Hx).
  cbn in Hx'. apply list_elem_of_singleton in Hx'. done.
Qed.

Lemma nosplit_left_behind D depth : forall p seek p',
  code_analyze_r_nosplit depth p seek = Some p' -> NoDup (b_addr <$> blocks p) ->
  (D <= depth + length (blocks p))%nat ->
  exists k, left_behind D depth p p' k /\ reached D p' seek.
Proof.
  induction depth as [|depth IH]; intros p seek p' H Hd HD; cbn [code_analyze_r_nosplit] in H.
  { simplify_eq. exists []. split; [by apply left_behind_nil|]. intros E. cbn in HD. lia. }
  destruct (program_block_get p seek) as [j|] eqn:Eg.
  { simplify_eq. exists []. split; [by apply left_behind_nil|]. apply last_index_Some in Eg as (b & Hb & Ea).
    intros _. exists b. split; [by eapply list_elem_of_lookup_2|by apply Z.eqb_eq]. }
  destruct (walk _ _ _ _ _ _) as [[[bsz aop] p0]|] eqn:W; [|done].
  destruct (program_block_get_new p0 seek) as [p1 i] eqn:En.
  destruct (nosplit_block _ _ _ _ _ _ _ Hd Eg W En) as (-> & Hd2 & blk & E2 & Hc & Ha & Ht & Hf).
  revert Hd2 E2 H. generalize (upd_block (length (blocks p)) (fun b => Rdb.set_type (block_type aop)
    (set_code (take (Z.to_nat bsz) (read seek)) (a_jump aop) (a_fail aop) b)) p1) as p2. intros p2 Hd2 E2 H. cbv zeta in H.
  destruct (if a_jump aop =? 0 then _ else _) as [p3|] eqn:E3; [|done].
  assert (Hl2 : length (blocks p2) = S (length (blocks p))) by (rewrite E2, length_app; cbn; lia).
  apply (left_behind_succ D depth) in E3 as (k3 & H3 & R3); [|done|intros E; eapply IH; [exact E|done|lia]].
  assert (Eb : blocks p3 !! length (blocks p) = Some blk).
  { rewrite (lb_blocks _ _ _ _ _ H3), E2, <-app_assoc. by apply list_lookup_middle. }
  rewrite Eb in H.
  assert (L3 : (length (blocks p2) <= length (blocks p3))%nat) by (apply prefix_length; by eapply left_behind_prefix).
  apply (left_behind_succ D depth) in H as (k4 & H4 & R4);
    [|exact (lb_nodup _ _ _ _ _ H3)|intros E; eapply IH; [exact E|exact (lb_nodup _ _ _ _ _ H3)|lia]].
  rewrite <-Ha. eexists. eapply left_behind_both; try done. by rewrite Ht.
Qed.

(** ** Cutting keeps the successors *)
Record kept (p p' : program_t) : Prop := {
  k_closed : Forall (closed p) (blocks p) -> Forall (closed p') (blocks p');
  k_block a : is_block p a -> is_block p' a;
  k_len : (length (blocks p) <= length (blocks p'))%nat }.

Lemma kept_refl p : kept p p.
Proof. by split. Qed.
Lemma kept_trans p1 p2 p3 : kept p1 p2 -> kept p2 p3 -> kept p1 p3.
Proof. intros [A1 B1 C1] [A2 B2 C2]. split; [auto|auto|lia]. Qed.

Lemma kept_upd i f p :
  (forall b, b_addr (f b) = b_addr b) ->
  (Forall (closed p) (blocks p) -> forall b, closed p b -> closed p (f b)) -> kept p (upd_block i f p).
Proof.
  intros Ha Hc. assert (Hl : forall j, blocks (upd_block i f p) !! j = if decide (i = j) then f <$> blocks p !! j else blocks p !! j).
  { intros j. cbn [upd_block with_blocks blocks]. destruct (decide (i = j)) as [->|]; [apply list_lookup_alter_eq|by apply list_lookup_alter_ne]. }
  assert (Hb : forall a, is_block p a -> is_block (upd_block i f p) a).
  { intros a (b & Hb & <-). apply list_elem_of_lookup in Hb as [j Hb]. specialize (Hl j). destruct (decide (i = j)).
    - exists (f b). split; [|done]. apply (list_elem_of_lookup_2 _ j). by rewrite Hl, Hb.
    - exists b. split; [|done]. apply (list_elem_of_lookup_2 _ j). by rewrite Hl, Hb. }
  split; [|done|cbn; by rewrite length_alter].
  intros H. specialize (Hc H). rewrite Forall_lookup in *. intros j b E. rewrite Hl in E.
  assert (C : closed p b).
  { destruct (decide (i = j)); [|by eapply H]. destruct (blocks p !! j) as [b0|] eqn:E0; [|done]. cbn in E. simplify_eq. eauto. }
  destruct C as [C1 C2]. split; auto.
Qed.

Lemma kept_get_new p addr p' i : program_block_get_new p addr = (p', i) -> kept p p' /\ is_block p' addr /\ blocks p `prefix_of` blocks p'.
Proof.
  unfold program_block_get_new, program_block_get, program_block_new. destruct (last_index _ _) as [j|] eqn:E; intros H; simplify_eq.
  - split; [apply kept_refl|]. split; [|done]. apply last_index_Some in E as (b & Hb & Ea). exists b.
    split; [by eapply list_elem_of_lookup_2|by apply Z.eqb_eq].
  - assert (P : blocks p `prefix_of` blocks p ++ [block_new addr]) by (by eexists).
    split; [split|split; [|exact P]].
    + intros Hc. cbn [with_blocks blocks]. apply Forall_app. split; [|by constructor].
      eapply Forall_impl; [exact Hc|]. intros b. by apply closed_mono.
    + intros a. by apply is_block_mono.
    + cbn. rewrite length_app. lia.
    + exists (block_new addr). split; [|done]. cbn. apply elem_of_app. right. by left.
Qed.

Lemma kept_add_call p addr dest : kept p (program_block_add_call p addr dest).
Proof.
  unfold program_block_add_call, at_block. destruct (program_block_get_new p addr) as [p1 i] eqn:E.
  apply kept_get_new in E as [H _]. eapply kept_trans; [exact H|]. by apply kept_upd; [|intros _].
Qed.

(** Cutting leads to the address it cuts at and on from there as before. *)
Lemma kept_split_new p addr p' ob :
  program_block_split_new p addr = (p', ob) -> kept p p'.
Proof.
  intros H. unfold program_block_split_new in H. destruct (last_index _ _) as [i|]; [|simplify_eq; apply kept_refl].
  destruct (blocks p !! i) as [bt|] eqn:Eb; [|simplify_eq; apply kept_refl].
  destruct (program_block_get_new p addr) as [p1 j] eqn:E. apply kept_get_new in E as (H1 & Hn & P1). simplify_eq.
  assert (Eb1 := prefix_lookup_Some _ _ _ _ Eb P1).
  set (f := set_code (drop _ _) _ _).
  assert (H2 : kept p1 (upd_block j f p1)).
  { apply kept_upd; [done|]. intros Hc b _. rewrite Forall_lookup in Hc. exact (Hc _ _ Eb1). }
  eapply kept_trans; [exact H1|]. eapply kept_trans; [exact H2|]. apply kept_upd; [done|].
  intros _ b _. split; [|done]. intros _. by apply (k_block _ _ H2).
Qed.

Lemma kept_walk fuel p seek bsz aop bsz' aop' p' :
  walk step_split fuel p seek bsz aop = Some (bsz', aop', p') -> kept p p'.
Proof.
  revert p bsz aop. induction fuel as [|fuel IH]; intros p bsz aop W; cbn [walk] in W; [done|].
  destruct (_ || _); [simplify_eq; apply kept_refl|]. destruct (arch_aop _ _ _) as [ret aop1]. cbv zeta in W.
  destruct (_ <=? 0); [simplify_eq; apply kept_refl|].
  assert (Hs : kept p (snd (step_split p seek (seek + bsz + u32 ret) aop1))).
  { unfold step_split, follow_ref. destruct (a_type aop1); try apply kept_refl.
    destruct (negb _ && _); [apply kept_add_call|apply kept_refl]. }
  destruct (step_split _ _ _ _) as [aop2 p2]. destruct (_ <=? BLOCK); [|done].
  eapply kept_trans; [exact Hs|]. by eapply IH.
Qed.

Lemma kept_split depth : forall p seek p', code_analyze_r_split depth p seek = Some p' -> kept p p'.
Proof.
  induction depth as [|depth IH]; intros p seek p' H; cbn [code_analyze_r_split] in H; [simplify_eq; apply kept_refl|].
  destruct (program_block_split_new p seek) as [p1 blf] eqn:E. cbv zeta in H. apply kept_split_new in E.
  destruct (walk _ _ _ _ _ _) as [[[bsz aop] p2]|] eqn:W; [|done]. apply kept_walk in W.
  eapply kept_trans; [exact E|]. eapply kept_trans; [exact W|]. clear E W.
  assert (S : forall a p q, (if a =? 0 then Some p else code_analyze_r_split depth p a) = Some q -> kept p q).
  { intros a q q' Hr. destruct (a =? 0); [simplify_eq; apply kept_refl|by eapply IH]. }
  destruct (if a_jump aop =? 0 then _ else _) as [p3|] eqn:E3; [|done]. eapply kept_trans; eapply S; eauto.
Qed.

(** ** It ends *)
Lemma walk_returns step fuel p seek bsz aop :
  (forall a bs s, 0 <= fst (arch_aop a bs s) <= 5) -> bsz <= BLOCK -> BLOCK - bsz < Z.of_nat fuel ->
  exists r, walk step fuel p seek bsz aop = Some r.
Proof.
  intros Hr. revert p bsz aop. induction fuel as [|fuel IH]; intros p bsz aop Hb Hf; cbn [walk].
  { unfold BLOCK in *. lia. }
  destruct (_ || _) eqn:E; [eauto|]. apply orb_false_iff in E as [_ E]. apply negb_false_iff, Z.ltb_lt in E.
  specialize (Hr (u64 (seek + bsz)) (drop (Z.to_nat bsz) (read seek)) aop). destruct (arch_aop _ _ _) as [ret aop1]. cbn in Hr.
  rewrite u32_id by (unfold is_u32; lia). cbv zeta. destruct (Z.leb_spec ret 0); [eauto|].
  destruct (step _ _ _ _) as [aop2 p2]. unfold BLOCK in *. rewrite (proj2 (Z.leb_le _ _)) by lia. apply IH; lia.
Qed.
Lemma walk_fuel_returns step p seek aop :
  (forall a bs s, 0 <= fst (arch_aop a bs s) <= 5) -> exists r, walk step walk_fuel p seek 0 aop = Some r.
Proof. intros H. apply walk_returns; [done| |]; unfold BLOCK, walk_fuel; [lia|]. change BLOCK with 4096. lia. Qed.

Lemma nosplit_returns depth : forall p seek,
  (forall a bs s, 0 <= fst (arch_aop a bs s) <= 5) -> NoDup (b_addr <$> blocks p) ->
  exists p', code_analyze_r_nosplit depth p seek = Some p' /\ NoDup (b_addr <$> blocks p').
Proof.
  induction depth as [|depth IH]; intros p seek Hr Hd; cbn [code_analyze_r_nosplit]; [eauto|].
  destruct (program_block_get p seek) as [j|] eqn:Eg; [eauto|].
  destruct (walk_fuel_returns step_nosplit p seek (set_eob false aop0) Hr) as [[[bsz aop] p0] W]. rewrite W.
  destruct (program_block_get_new p0 seek) as [p1 i] eqn:En.
  destruct (nosplit_block _ _ _ _ _ _ _ Hd Eg W En) as (-> & Hd2 & blk & E2 & _).
  revert Hd2 E2. generalize (upd_block (length (blocks p)) (fun b => Rdb.set_type (block_type aop)
    (set_code (take (Z.to_nat bsz) (read seek)) (a_jump aop) (a_fail aop) b)) p1) as p2. intros p2 Hd2 E2. cbv zeta.
  assert (N : exists p3, (if a_jump aop =? 0 then Some p2 else code_analyze_r_nosplit depth p2 (a_jump aop)) = Some p3 /\
    NoDup (b_addr <$> blocks p3) /\ blocks p2 `prefix_of` blocks p3).
  { destruct (a_jump aop =? 0); [by exists p2|]. destruct (IH p2 (a_jump aop) Hr Hd2) as (p3 & E3 & Hd3). exists p3. split_and!; [done..|].
    destruct (nosplit_left_behind 0 _ _ _ _ E3 Hd2 ltac:(lia)) as (k & H3 & _). by eapply left_behind_prefix. }
  destruct N as (p3 & -> & Hd3 & [k E3]).
  assert (Eb : blocks p3 !! length (blocks p) = Some blk) by (rewrite E3, E2, <-app_assoc; by apply list_lookup_middle).
  rewrite Eb.
  destruct (b_fnext blk =? 0); [eauto|by apply IH].
Qed.

Lemma split_returns depth : forall p seek,
  (forall a bs s, 0 <= fst (arch_aop a bs s) <= 5) -> exists p', code_analyze_r_split depth p seek = Some p'.
Proof.
  induction depth as [|depth IH]; intros p seek Hr; cbn [code_analyze_r_split]; [eauto|].
  destruct (program_block_split_new p seek) as [p1 blf]. cbv zeta.
  match goal with |- context [walk _ _ _ _ _ ?a] => destruct (walk_fuel_returns step_split p1 seek a Hr) as [[[bsz aop] p2] ->] end.
  assert (N : forall a q, exists q', (if a =? 0 then Some q else code_analyze_r_split depth q a) = Some q').
  { intros a q. destruct (a =? 0); eauto. }
  destruct (N (a_jump aop) p2) as [p3 ->]. apply N.
Qed.

(** ** The analysis *)

(** C12: when there are fewer blocks than the analysis is deep, it has followed everything: there is a block
    where it began, and the successors of every block have blocks, cut or not. *)
Theorem analysis_closed split entry garbage seek depth p :
  code_analyze split entry garbage seek depth = Some p -> Z.of_nat (length (blocks p)) < Z.min depth 30 - 1 ->
  is_block p seek /\
  forall b, b ∈ blocks p -> (b_tnext b <> 0 -> is_block p (b_tnext b)) /\ (b_fnext b <> 0 -> is_block p (b_fnext b)).
Proof.
  intros H HD. unfold code_analyze in H. cbv zeta in H.
  replace (if 30 <? depth then 30 else depth) with (Z.min depth 30) in H by (destruct (Z.ltb_spec 30 depth); lia).
  set (D := Z.to_nat (Z.min depth 30 - 1)) in *.
  destruct (code_analyze_r_nosplit _ _ _) as [p1|] eqn:E; [|done].
  destruct (nosplit_left_behind D _ _ _ _ E) as (k & Hk & Hs); [constructor|cbn; lia|].
  assert (K : kept p1 p) by (destruct split; [by eapply kept_split|simplify_eq; apply kept_refl]).
  assert (L : (length (blocks p1) < D)%nat) by (assert (A := k_len _ _ K); lia).
  split; [by apply (k_block _ _ K), Hs|].
  assert (B := lb_blocks _ _ _ _ _ Hk). cbn in B. assert (C := lb_closed _ _ _ _ _ Hk L). rewrite <-B in C.
  apply (k_closed _ _ K) in C. intros b Hb. rewrite Forall_forall in C. by apply C.
Qed.

(** Without cutting, every block holds the bytes that are read at its address, there is one block for an
    address, and there are less than two to the depth of them. *)
Theorem analysis_reads entry garbage seek depth p :
  code_analyze false entry garbage seek depth = Some p ->
  Forall read_code (blocks p) /\ NoDup (b_addr <$> blocks p) /\
  (length (blocks p) < 2 ^ Z.to_nat (Z.min depth 30 - 1))%nat.
Proof.
  intros H. unfold code_analyze in H. cbv zeta in H.
  replace (if 30 <? depth then 30 else depth) with (Z.min depth 30) in H by (destruct (Z.ltb_spec 30 depth); lia).
  destruct (code_analyze_r_nosplit _ _ _) as [p1|] eqn:E; [|done]. simplify_eq.
  destruct (nosplit_left_behind 0 _ _ _ _ E) as (k & Hk & _); [constructor|lia|].
  assert (B := lb_blocks _ _ _ _ _ Hk). cbn in B. rewrite B. split_and!; [exact (lb_code _ _ _ _ _ Hk)| |].
  - rewrite <-B. exact (lb_nodup _ _ _ _ _ Hk).
  - assert (A := lb_count _ _ _ _ _ Hk). lia.
Qed.

(** With instructions of at most five bytes the analysis ends and stays in its buffer. *)
Theorem analysis_returns split entry garbage seek depth :
  (forall a bs s, 0 <= fst (arch_aop a bs s) <= 5) -> exists p, code_analyze split entry garbage seek depth = Some p.
Proof.
  intros Hr. unfold code_analyze. cbv zeta. generalize (if 30 <? depth then 30 else depth) as d. intros d.
  destruct (nosplit_returns (Z.to_nat (d - 1)) (with_entry entry (program_new None 0 garbage)) seek Hr) as (p & -> & _); [constructor|].
  destruct split; [by apply split_returns|eauto].
Qed.
End code.

(** ** Java code as an example *)
Definition java_aop (a : Z) (bs : list Z) (_ : aop_t) : Z * aop_t := arch_java_aop a bs.
Definition java_code : list Z := [0x03; 0x99; 0x00; 0x00; 0xb1].
Definition java_read (a : Z) : list Z := drop (Z.to_nat (a - 0x10)) java_code.

(** The branch ends a block, behind it there is another one. *)
Example analysis_example :
  (fun p => (fun b => (b_addr b, b_bytes b, b_tnext b, b_fnext b)) <$> blocks p) <$>
    code_analyze java_aop java_read aop_zero false false false 0x10 0 0x10 9
  = Some [(0x10, [0x03; 0x99; 0x00; 0x00], 0, 0x14); (0x14, [0xb1], 0, 0)].
Proof. vm_compute. done. Qed.

Lemma java_sizes a bs s : 0 <= fst (java_aop a bs s) <= 5.
Proof.
  unfold java_aop, arch_java_aop. cbn [fst]. unfold java_size.
  assert (H : Forall (fun op => 0 <= o_size op <= 5) java_ops) by (apply (bool_decide_unpack _); vm_compute; exact I).
  assert (G : forall ops z, Forall (fun op => 0 <= o_size op <= 5) ops -> 0 <= z <= 5 ->
    0 <= foldl (fun sz op => if byte_at bs 0 =? o_byte op then o_size op else sz) z ops <= 5).
  { induction ops as [|op ops IH]; intros z Ho Hz; cbn [foldl]; [done|]. apply Forall_cons in Ho as [Ho Hs].
    apply IH; [done|]. by destruct (_ =? _). }
  apply G; [exact H|lia].
Qed.

Lemma analysis_returns_witness :
  exists p, code_analyze java_aop java_read aop_zero false false true 0x10 0 0x10 9 = Some p.
Proof. apply analysis_returns. exact java_sizes. Defined.

Definition java_program : program_t :=
  default (program_new None 0 0) (code_analyze java_aop java_read aop_zero false false true 0x10 0 0x10 9).

Lemma analysis_closed_witness :
  is_block java_program 0x10 /\
  forall b, b ∈ blocks java_program ->
    (b_tnext b <> 0 -> is_block java_program (b_tnext b)) /\ (b_fnext b <> 0 -> is_block java_program (b_fnext b)).
Proof.
  apply (analysis_closed java_aop java_read aop_zero false false true 0x10 0 0x10 9); vm_compute; reflexivity.
Defined.

Lemma analysis_reads_witness :
  let p := default (program_new None 0 0) (code_analyze java_aop java_read aop_zero false false false 0x10 0 0x10 9) in
  Forall (read_code java_read) (blocks p) /\ NoDup (b_addr <$> blocks p) /\ (length (blocks p) < 2 ^ 8)%nat.
Proof. apply (analysis_reads java_aop java_read aop_zero false false 0x10 0 0x10 9). vm_compute. reflexivity. Defined.

(** An instruction of six bytes at the end of the buffer runs out of it. *)
Example analysis_overflow :
  code_analyze (fun _ bs s => (if bool_decide (length bs = 5)%nat then 6 else 4091, Arch.set_type AOP_TYPE_NOP s)) (fun a => replicate 4096 0) aop_zero
    false false false 0 0 0x10 9 = None.
Proof. vm_compute. done. Qed.

(** ** Reference lines: [code_lines_init]

    [height] is the number of lines of the screen, or -1; [outside] keeps lines that leave the screen. *)
Record refline := Refline { l_from : Z; l_to : Z; l_index : Z }.
Record lines_conf := LinesConf { lc_seek : Z; lc_size : Z; lc_height : Z; lc_outside : bool; lc_calls : bool; lc_cursor : Z }.
(** What the cursor points to: [acursor] and [cursor_ptr]. *)
Record lines_st := LinesSt { ls_list : list refline; ls_target : option (Z * Z) }.

Section lines.
Context (arch_aop : Z -> list Z -> aop_t -> Z * aop_t) (block : list Z) (k : lines_conf) (datas : list data_t).

Definition is_line (seek : Z) (aop : aop_t) : bool :=
  match a_type aop with
  | AOP_TYPE_CALL => lc_calls k
  | AOP_TYPE_CJMP | AOP_TYPE_JMP => true
  | _ => false
  end && (if lc_outside k then negb (a_jump aop =? 0) else a_jump aop <=? u64 (seek + lc_size k)).

Definition add_line (ptr seek : Z) (aop : aop_t) (st : lines_st) : lines_st :=
  LinesSt (ls_list st ++ [Refline seek (a_jump aop) (Z.of_nat (length (ls_list st)))])
          (if ptr <=? lc_cursor k then Some (ptr, a_jump aop) else ls_target st).

(** A record of negative size leads in front of the block. *)
Fixpoint lines_loop (fuel : nat) (lines ptr : Z) (aop : aop_t) (st : lines_st) : option lines_st :=
  match fuel with
  | O => None
  | S fuel' =>
    if negb (ptr <? lc_size k) then Some st
    else
      let lines := if lines =? -1 then lines else lines - 1 in
      if lines =? 0 then Some st
      else
        let seek := u64 (lc_seek k + ptr) in
        let dt := data_type seek datas in
        let skip := if (dt =? DATA_FUN) || (dt =? DATA_CODE) then 0 else data_size seek datas in
        if negb (skip =? 0) then (if ptr + skip <? 0 then None else lines_loop fuel' lines (ptr + skip) aop st)
        else
          let '(sz, aop) := arch_aop seek (drop (Z.to_nat ptr) block) aop in
          if sz <? 1 then lines_loop fuel' lines (ptr + 1) aop st
          else lines_loop fuel' lines (ptr + sz) aop (if is_line seek aop then add_line ptr seek aop st else st)
  end.
Definition code_lines_init (fuel : nat) (aop0 : aop_t) : option lines_st := lines_loop fuel (lc_height k) 0 aop0 (LinesSt [] None).

(** Lines are numbered and start at rising addresses in the block. *)
Definition lines_ok (ptr : Z) (l : list refline) : Prop :=
  forall i x, l !! i = Some x -> l_index x = Z.of_nat i /\ lc_seek k <= l_from x < lc_seek k + ptr /\
    (forall j y, l !! j = Some y -> (i < j)%nat -> l_from x < l_from y).

Lemma lines_ok_mono p q l : p <= q -> lines_ok p l -> lines_ok q l.
Proof. intros H Hl i x Hi. destruct (Hl i x Hi) as (A & B & C). split_and!; [done|lia|lia|done]. Qed.

Lemma add_line_ok ptr seek aop st q :
  seek = lc_seek k + ptr -> 0 <= ptr < q -> lines_ok ptr (ls_list st) -> lines_ok q (ls_list (add_line ptr seek aop st)).
Proof.
  intros -> Hq Hl i x Hi. cbn [add_line ls_list] in *. apply lookup_app_Some in Hi as [Hi|[Hge Hi]].
  - destruct (Hl i x Hi) as (A & B & C). split_and!; [done|lia|lia|]. intros j y Hj Hij.
    apply lookup_app_Some in Hj as [Hj|[_ Hj]]; [by eapply C|]. apply list_lookup_singleton_Some in Hj as [_ <-]. cbn. lia.
  - apply list_lookup_singleton_Some in Hi as [Hi <-]. cbn. split_and!; [lia..|]. intros j y Hj Hij.
    apply lookup_lt_Some in Hj. rewrite length_app in Hj. cbn in Hj. lia.
Qed.

(** When no record of data has a negative size and the addresses of the block do not wrap around, the
    reference lines of the block are found in as many steps as it has bytes, numbered, and in the order of
    the addresses they start at, which lie in the block. *)
Theorem code_lines_total aop0 :
  Forall (fun d => 0 <= s32 (d_size d)) datas -> 0 <= lc_seek k -> 0 <= lc_size k -> lc_seek k + lc_size k < 2^64 ->
  exists st, code_lines_init (S (Z.to_nat (lc_size k))) aop0 = Some st /\ lines_ok (lc_size k) (ls_list st).
Proof.
  intros Hd Hs Hn Hw.
  assert (Hsz : forall a, 0 <= data_size a datas).
  { intros a. unfold data_size. destruct (find_first _ datas) as [[i d]|] eqn:E; [|lia]. apply list_find_Some in E as (E & _).
    rewrite Forall_lookup in Hd. by eapply Hd. }
  assert (G : forall fuel lines ptr aop st, Z.max 0 (lc_size k - ptr) < Z.of_nat fuel -> 0 <= ptr ->
    lines_ok (Z.min ptr (lc_size k)) (ls_list st) ->
    exists st', lines_loop fuel lines ptr aop st = Some st' /\ lines_ok (lc_size k) (ls_list st')).
  { induction fuel as [|fuel IH]; intros lines ptr aop st Hf Hp Hl; [lia|]. cbn [lines_loop].
    destruct (Z.ltb_spec ptr (lc_size k)) as [Hlt|_]; cbn [negb]; [|exists st; split; [done|]; eapply lines_ok_mono; [|exact Hl]; lia].
    rewrite Z.min_l in Hl by lia. cbv zeta.
    assert (M : forall q, ptr < q -> lines_ok (Z.min q (lc_size k)) (ls_list st)) by (intros q Hq; eapply lines_ok_mono; [|exact Hl]; lia).
    destruct ((if lines =? -1 then _ else _) =? 0); [exists st; split; [done|]; eapply lines_ok_mono; [|exact Hl]; lia|].
    rewrite u64_id by (unfold is_u64; lia). specialize (Hsz (lc_seek k + ptr)).
    destruct (_ || _); cbn [Z.eqb negb]; [|destruct (Z.eqb_spec (data_size (lc_seek k + ptr) datas) 0); cbn [negb];
      [|rewrite (proj2 (Z.ltb_ge _ _)) by lia; apply IH; [lia|lia|apply M; lia]]].
    all: destruct (arch_aop _ _ _) as [sz aop1]; destruct (Z.ltb_spec sz 1); [apply IH; [lia|lia|apply M; lia]|].
    all: apply IH; [lia|lia|]; destruct (is_line _ _); [|apply M; lia]; by apply add_line_ok; [|lia|]. }
  apply G; [lia|lia|]. by intros i x.
Qed.
End lines.

Lemma code_lines_total_witness :
  exists st, code_lines_init java_aop java_code (LinesConf 0x10 5 (-1) false true 0) [] 6 aop_zero = Some st /\
    lines_ok (LinesConf 0x10 5 (-1) false true 0) 5 (ls_list st).
Proof. apply (code_lines_total java_aop java_code (LinesConf 0x10 5 (-1) false true 0) [] aop_zero); [constructor|..]; cbn; lia. Defined.

Example code_lines_example :
  code_lines_init java_aop java_code (LinesConf 0x10 5 (-1) false true 2) [] 6 aop_zero = Some (LinesSt [Refline 0x11 0 0] (Some (1, 0))).
Proof. vm_compute. done. Qed.

(** ** Variables of a function *)
Record var_t := Var { v_type : Z; v_delta : Z; v_count : Z }.
Definition VAR_TYPE_NONE : Z := 0.
Definition VAR_TYPE_ARG : Z := 1.
Definition VAR_TYPE_LOCAL : Z := 2.
Definition VAR_MAX : nat := 256.

Definition analyze_var_reset : list var_t := replicate VAR_MAX (Var 0 0 0).

(** The first entry for the variable, and the first free one in front of it. *)
Fixpoint add_var (type delta : Z) (i : nat) (hole : option nat) (pool : list var_t) : option nat * option nat :=
  match pool with
  | [] => (None, hole)
  | v :: pool' =>
    if (v_type v =? type) && (v_delta v =? delta) then (Some i, hole)
    else add_var type delta (S i) (match hole with None => if v_type v =? VAR_TYPE_NONE then Some i else None | _ => hole end) pool'
  end.
Definition analyze_var_add (type delta : Z) (pool : list var_t) : list var_t * Z :=
  match add_var type delta 0 None pool with
  | (Some i, _) => (alter (fun v => Var (v_type v) (v_delta v) (s32 (v_count v + 1))) i pool, 0)
  | (None, Some h) => (alter (fun v => Var type delta (v_count v)) h pool, 1)
  | (None, None) => (pool, -1)
  end.
Definition analyze_var_get (type : Z) (pool : list var_t) : Z :=
  Z.of_nat (length (filter (fun v => v_type v = type) pool)).

Definition add_all (ops : list (Z * Z)) (pool : list var_t) : list var_t :=
  foldl (fun pool op => fst (analyze_var_add op.1 op.2 pool)) pool ops.

Definition key (v : var_t) : Z * Z := (v_type v, v_delta v).
(** The variables [l] in front, the rest free. *)
Definition pool_ok (l : list (Z * Z)) (pool : list var_t) : Prop :=
  exists used, pool = (used ++ replicate (VAR_MAX - length l) (Var 0 0 0))%list /\ key <$> used = l.

Lemma add_var_free t d i hole n :
  t <> 0 -> add_var t d i hole (replicate n (Var 0 0 0)) = (None, match hole with Some h => Some h | None => if (0 <? n)%nat then Some i else None end).
Proof.
  intros Ht. revert i hole. induction n as [|n IH]; intros i hole; cbn [replicate add_var v_type v_delta].
  - by destruct hole.
  - rewrite (proj2 (Z.eqb_neq _ _)) by done. cbn [andb]. rewrite IH. by destruct hole.
Qed.
Lemma add_var_used t d i used rest :
  Forall (fun v => v_type v <> 0) used ->
  add_var t d i None (used ++ rest) =
    match list_find (fun v => key v = (t, d)) used with
    | Some (j, _) => (Some (i + j)%nat, None)
    | None => add_var t d (i + length used) None rest
    end.
Proof.
  revert i. induction used as [|v used IH]; intros i H; cbn [app add_var length list_find]; [by rewrite Nat.add_0_r|].
  apply Forall_cons in H as [Hv H]. destruct (decide (key v = (t, d))) as [E|E]; unfold key in E.
  - simplify_eq. rewrite !Z.eqb_refl. cbn. by rewrite Nat.add_0_r.
  - destruct (Z.eqb_spec (v_type v) t); cbn [andb]; [destruct (Z.eqb_spec (v_delta v) d); [congruence|]|].
    all: rewrite (proj2 (Z.eqb_neq (v_type v) VAR_TYPE_NONE)) by done; rewrite IH by done.
    all: destruct (list_find _ used) as [[j x]|]; cbn; repeat f_equal; lia.
Qed.

Lemma analyze_var_add_ok t d l pool :
  t <> 0 -> Forall (fun x => x.1 <> 0) l -> pool_ok l pool -> ((t, d) ∈ l \/ (length l < VAR_MAX)%nat) ->
  pool_ok (if decide ((t, d) ∈ l) then l else l ++ [(t, d)]) (fst (analyze_var_add t d pool)).
Proof.
  intros Ht Hl (used & -> & Hu) Hspace. unfold analyze_var_add.
  assert (Hused : Forall (fun v => v_type v <> 0) used) by (rewrite <-Hu, Forall_fmap in Hl; exact Hl).
  assert (Hlen : length used = length l) by (by rewrite <-Hu, length_fmap).
  rewrite add_var_used by done. destruct (list_find _ used) as [[j v]|] eqn:E; cbn [Nat.add].
  - apply list_find_Some in E as (Hj & Hk & _). rewrite decide_True by (rewrite <-Hu, <-Hk; apply list_elem_of_fmap; eauto using list_elem_of_lookup_2).
    eexists (alter _ j used). cbn [fst]. rewrite alter_app_l by (by eapply lookup_lt_Some). split; [reflexivity|].
    rewrite <-Hu. apply list_eq. intros i. rewrite !list_lookup_fmap. destruct (decide (j = i)) as [->|].
    + rewrite list_lookup_alter_eq, Hj. done.
    + by rewrite list_lookup_alter_ne.
  - assert (Hn : (t, d) ∉ l).
    { rewrite <-Hu. intros Hin. apply list_elem_of_fmap in Hin as (v & Ek & Hv). apply list_find_None in E.
      rewrite Forall_forall in E. by eapply E. }
    destruct Hspace as [?|Hspace]; [done|]. rewrite decide_False by done. rewrite add_var_free by done.
    rewrite (proj2 (Nat.ltb_lt _ _)) by lia. cbn [fst]. rewrite <-(Nat.add_0_r (length used)), alter_app_r.
    exists (used ++ [Var t d 0])%list. rewrite fmap_app, Hu, length_app, <-app_assoc. split; [|done].
    destruct (VAR_MAX - length l)%nat as [|n] eqn:En; [lia|]. cbn [length]. replace (VAR_MAX - (length l + 1))%nat with n by lia. done.
Qed.

Lemma add_all_ok ops :
  Forall (fun op => op.1 <> 0) ops -> (size (list_to_set ops : gset (Z * Z)) <= VAR_MAX)%nat ->
  exists l, pool_ok l (add_all ops analyze_var_reset) /\ NoDup l /\ Forall (fun x => x.1 <> 0) l /\
    list_to_set l =@{gset (Z*Z)} list_to_set ops.
Proof.
  induction ops as [|[t d] ops IH] using rev_ind; intros Ho Hs.
  { exists []. split_and!; [|constructor|constructor|done]. by exists []. }
  apply Forall_app in Ho as [Ho Hx]. apply Forall_cons in Hx as [Hx _]. cbn in Hx.
  rewrite list_to_set_app_L in Hs.
  assert (Hle : (size (list_to_set ops : gset (Z * Z)) <= size (list_to_set ops ∪ list_to_set [(t, d)] : gset (Z * Z)))%nat)
    by (apply subseteq_size; set_solver).
  destruct IH as (l & Hp & Hd & Hl & He); [done|lia|].
  unfold add_all. rewrite foldl_app. cbn [foldl fst snd]. fold (add_all ops analyze_var_reset).
  exists (if decide ((t, d) ∈ l) then l else l ++ [(t, d)]). split.
  - apply analyze_var_add_ok; [exact Hx|exact Hl|exact Hp|]. destruct (decide ((t, d) ∈ l)) as [|Hn]; [by left|right].
    rewrite <-He in Hs. rewrite size_union in Hs by set_solver.
    rewrite !size_list_to_set in Hs by (exact Hd || apply NoDup_singleton). cbn [length] in Hs. lia.
  - rewrite list_to_set_app_L. destruct (decide ((t, d) ∈ l)) as [|Hn]; [split_and!; [done..|set_solver]|].
    split_and!; [|by apply Forall_app; split; [|by constructor]|rewrite list_to_set_app_L; set_solver].
    apply NoDup_app. split_and!; [done| |apply NoDup_singleton]. intros x Hx' Hx''. set_solver.
Qed.

Lemma count_keys t used :
  length (filter (fun v => v_type v = t) used) = length (filter (fun op => op.1 = t) (key <$> used)).
Proof.
  induction used as [|v used IH]; [done|]. rewrite fmap_cons, !filter_cons. cbn [key fst].
  destruct (decide (v_type v = t)); cbn [length]; by rewrite IH.
Qed.

(** After variables are added to a fresh pool, it tells how many different ones there are of each kind,
    as long as there are at most 256. *)
Theorem vars_counted ops t :
  Forall (fun op => op.1 <> 0) ops -> t <> 0 -> (size (list_to_set ops : gset (Z * Z)) <= VAR_MAX)%nat ->
  analyze_var_get t (add_all ops analyze_var_reset) =
    Z.of_nat (size (filter (fun op => op.1 = t) (list_to_set ops : gset (Z * Z)))).
Proof.
  intros Ho Ht Hs. destruct (add_all_ok ops Ho Hs) as (l & (used & -> & Hu) & Hd & Hl & He).
  rewrite <-He. unfold analyze_var_get. f_equal. rewrite filter_app, length_app.
  assert (F : filter (fun v => v_type v = t) (replicate (VAR_MAX - length l) (Var 0 0 0)) = []).
  { generalize (VAR_MAX - length l)%nat as n. induction n as [|n IH]; cbn [replicate]; [done|].
    rewrite filter_cons_False by (cbn; lia). done. }
  rewrite F, Nat.add_0_r.
  replace (filter (fun op => op.1 = t) (list_to_set l : gset (Z * Z))) with (list_to_set (filter (fun op => op.1 = t) l) : gset (Z * Z))
    by (apply set_eq; intros x; by rewrite elem_of_list_to_set, list_elem_of_filter, elem_of_filter, elem_of_list_to_set).
  rewrite size_list_to_set by (by apply NoDup_filter). rewrite <-Hu. apply count_keys.
Qed.

Lemma vars_counted_witness :
  analyze_var_get VAR_TYPE_ARG (add_all [(1, 8); (2, 4); (1, 8); (1, 12)] analyze_var_reset) = 2.
Proof.
  rewrite (vars_counted [(1, 8); (2, 4); (1, 8); (1, 12)] VAR_TYPE_ARG);
    [vm_compute; reflexivity|repeat constructor; done|done|vm_compute; lia].
Defined.
