(* ===== verification/Elf.v ===== *)
(** * Files in ELF: [src/rabin/dietelf.c]

    [dietelf.c] is compiled once for files of 32 and once for files of 64 bits, which [is64] tells, on a host
    that is little endian.  A file is the list of its bytes.  Tables of a file are read into memory that is
    taken from the heap, of which only the part that was read is known: [junk] is what lies behind it.  [Fail]
    is an error return; [Wild] is a write outside a buffer, or an offset of [2^64 - 1], which the code takes
    for the error of [lseek] and the other way around. *)
From S2P Require Import Prelude Utils.
#[local] Open Scope string_scope.
#[local] Open Scope Z_scope.

Inductive res (A : Type) := Done (a : A) | Fail | Wild.
Arguments Done {A} a.
Arguments Fail {A}.
Arguments Wild {A}.
Definition res_bind {A B} (m : res A) (f : A -> res B) : res B :=
  match m with Done a => f a | Fail => Fail | Wild => Wild end.
Notation "'let?' x ':=' m 'in' f" := (res_bind m (fun x => f)) (at level 200, x pattern, m at level 100, f at level 200).

(** ** Numbers *)

(** [aux_swap_endian]: the bytes of a number, in place. *)
Definition aux_swap_endian (endian : bool) (value : list Z) : list Z :=
  if endian then
    match length value with 2%nat | 4%nat | 8%nat => reverse value | _ => value end
  else value.
(** A table of numbers of several widths. *)
Fixpoint fields (endian : bool) (ws : list nat) (bytes : list Z) : list Z :=
  match ws with
  | [] => []
  | w :: ws' => le_value (aux_swap_endian endian (take w bytes)) :: fields endian ws' (drop w bytes)
  end.
Definition put (endian : bool) (w : nat) (v : Z) : list Z := aux_swap_endian endian (le_bytes w v).
Fixpoint puts (endian : bool) (ws : list nat) (vs : list Z) : list Z :=
  match ws, vs with w :: ws', v :: vs' => (put endian w v ++ puts endian ws' vs')%list | _, _ => [] end.

(** ** Records *)
Record Ehdr := EhdrOf {
  e_ident : list Z; e_type : Z; e_machine : Z; e_version : Z; e_entry : Z; e_phoff : Z; e_shoff : Z; e_flags : Z;
  e_ehsize : Z; e_phentsize : Z; e_phnum : Z; e_shentsize : Z; e_shnum : Z; e_shstrndx : Z }.
Record Phdr := PhdrOf {
  p_type : Z; p_offset : Z; p_vaddr : Z; p_paddr : Z; p_filesz : Z; p_memsz : Z; p_flags : Z; p_align : Z }.
Record Shdr := ShdrOf {
  sh_name : Z; sh_type : Z; sh_flags : Z; sh_addr : Z; sh_offset : Z; sh_size : Z; sh_link : Z; sh_info : Z;
  sh_addralign : Z; sh_entsize : Z }.
Record Sym := SymOf { st_name : Z; st_value : Z; st_size : Z; st_info : Z; st_other : Z; st_shndx : Z }.
Record Rel := RelOf { r_offset : Z; r_info : Z }.

Definition EI_NIDENT : nat := 16.
Definition EI_CLASS : nat := 4.
Definition EI_DATA : nat := 5.
Definition EI_OSABI : nat := 7.
Definition ELF_NAME_LENGTH : nat := 256.
Definition ELF_STRING_LENGTH : nat := 256.

Definition quote : string := String (chr 34) "".
Definition machine_names : list (Z * string) :=
  [(0, "No machine"); (1, "AT&T WE 32100"); (2, "SUN SPARC"); (3, "Intel 80386");
   (4, "Motorola m68k family"); (5, "Motorola m88k family"); (7, "Intel 80860");
   (8, "MIPS R3000 big-endian"); (9, "IBM System/370"); (10, "MIPS R3000 little-endian"); (15, "HPPA");
   (17, "Fujitsu VPP500"); (18, "Sun's " +:+ quote +:+ "v8plus" +:+ quote); (19, "Intel 80960"); (20, "PowerPC");
   (21, "PowerPC 64-bit"); (22, "IBM S390"); (36, "NEC V800 series"); (37, "Fujitsu FR20");
   (38, "TRW RH-32"); (39, "Motorola RCE"); (40, "ARM"); (41, "Digital Alpha"); (42, "Hitachi SH");
   (43, "SPARC v9 64-bit"); (44, "Siemens Tricore"); (45, "Argonaut RISC Core"); (46, "Hitachi H8/300");
   (47, "Hitachi H8/300H"); (48, "Hitachi H8S"); (49, "Hitachi H8/500"); (50, "Intel Merced");
   (51, "Stanford MIPS-X"); (52, "Motorola Coldfire"); (53, "Motorola M68HC12");
   (54, "Fujitsu MMA Multimedia Accelerator"); (55, "Siemens PCP"); (56, "Sony nCPU embeeded RISC");
   (57, "Denso NDR1 microprocessor"); (58, "Motorola Start*Core processor"); (59, "Toyota ME16 processor");
   (60, "STMicroelectronic ST100 processor"); (61, "Advanced Logic Corp. Tinyj emb.fam");
   (62, "AMD x86-64 architecture"); (63, "Sony DSP Processor"); (66, "Siemens FX66 microcontroller");
   (67, "STMicroelectronics ST9+ 8/16 mc"); (68, "STmicroelectronics ST7 8 bit mc");
   (69, "Motorola MC68HC16 microcontroller"); (70, "Motorola MC68HC11 microcontroller");
   (71, "Motorola MC68HC08 microcontroller"); (72, "Motorola MC68HC05 microcontroller");
   (73, "Silicon Graphics SVx"); (74, "STMicroelectronics ST19 8 bit mc"); (75, "Digital VAX");
   (76, "Axis Communications 32-bit embedded processor");
   (77, "Infineon Technologies 32-bit embedded processor"); (78, "Element 14 64-bit DSP Processor");
   (79, "LSI Logic 16-bit DSP Processor"); (80, "Donald Knuth's educational 64-bit processor");
   (81, "Harvard University machine-independent object files"); (82, "SiTera Prism");
   (83, "Atmel AVR 8-bit microcontroller"); (84, "Fujitsu FR30"); (85, "Mitsubishi D10V");
   (86, "Mitsubishi D30V"); (87, "NEC v850"); (88, "Mitsubishi M32R"); (89, "Matsushita MN10300");
   (90, "Matsushita MN10200"); (91, "picoJava"); (92, "OpenRISC 32-bit embedded processor");
   (93, "ARC Cores Tangent-A5"); (94, "Tensilica Xtensa Architecture")].
Definition osabi_names : list (Z * string) :=
  [(0, "linux"); (1, "hpux"); (2, "netbsd"); (3, "linux"); (6, "solaris"); (7, "aix"); (8, "irix");
   (9, "freebsd"); (10, "trut64"); (11, "modesto"); (12, "openbsd"); (255, "standalone"); (97, "arm")].
Fixpoint name_of (k : Z) (l : list (Z * string)) : option string :=
  match l with [] => None | (k', s) :: l' => if k =? k' then Some s else name_of k l' end.

Section elf.
Context (is64 : bool) (junk : nat -> Z).

(** The width of addresses, offsets and sizes. *)
Definition Addr : nat := if is64 then 8 else 4.
Definition addr_mod (z : Z) : Z := if is64 then u64 z else u32 z.

Definition ehdr_ws : list nat := [2; 2; 4; Addr; Addr; Addr; 4; 2; 2; 2; 2; 2; 2]%nat.
Definition phdr_ws : list nat := if is64 then [4; 4; 8; 8; 8; 8; 8; 8]%nat else [4; 4; 4; 4; 4; 4; 4; 4]%nat.
Definition shdr_ws : list nat := [4; 4; Addr; Addr; Addr; Addr; 4; 4; Addr; Addr]%nat.
Definition sym_ws : list nat := if is64 then [4; 1; 1; 2; 8; 8]%nat else [4; 4; 4; 1; 1; 2]%nat.
Definition size_of (ws : list nat) : nat := sum_list ws.
Definition EHSIZE : nat := EI_NIDENT + size_of ehdr_ws.

Definition ehdr_of (ident : list Z) (l : list Z) : Ehdr :=
  let f i := nth i l 0 in
  EhdrOf ident (f 0%nat) (f 1%nat) (f 2%nat) (f 3%nat) (f 4%nat) (f 5%nat) (f 6%nat) (f 7%nat) (f 8%nat) (f 9%nat) (f 10%nat) (f 11%nat) (f 12%nat).
Definition phdr_of (l : list Z) : Phdr :=
  let f i := nth i l 0 in
  if is64 then PhdrOf (f 0%nat) (f 2%nat) (f 3%nat) (f 4%nat) (f 5%nat) (f 6%nat) (f 1%nat) (f 7%nat)
  else PhdrOf (f 0%nat) (f 1%nat) (f 2%nat) (f 3%nat) (f 4%nat) (f 5%nat) (f 6%nat) (f 7%nat).
Definition shdr_of (l : list Z) : Shdr :=
  let f i := nth i l 0 in
  ShdrOf (f 0%nat) (f 1%nat) (f 2%nat) (f 3%nat) (f 4%nat) (f 5%nat) (f 6%nat) (f 7%nat) (f 8%nat) (f 9%nat).
Definition sym_of (l : list Z) : Sym :=
  let f i := nth i l 0 in
  if is64 then SymOf (f 0%nat) (f 4%nat) (f 5%nat) (f 1%nat) (f 2%nat) (f 3%nat)
  else SymOf (f 0%nat) (f 1%nat) (f 2%nat) (f 3%nat) (f 4%nat) (f 5%nat).

(** ** Memory and the file *)
Definition mem (got : list Z) (i : nat) : Z := match got !! i with Some b => b | None => junk i end.
Definition slice (got : list Z) (off n : nat) : list Z := mem got <$> seq off n.
(** The entry of a table in memory. *)
Definition entry (endian : bool) (ws : list nat) (got : list Z) (i : nat) : list Z :=
  fields endian ws (slice got (i * size_of ws) (size_of ws)).

Context (file : list Z).
Definition fsize : Z := Z.of_nat (length file).
(** As much as there is. *)
Definition read_some (pos n : Z) : list Z := 
  if pos <? fsize then take (Z.to_nat (Z.min n fsize)) (drop (Z.to_nat pos) file) else [].
Definition read_full (pos n : Z) : res (list Z) :=
  if (n =? 0) || (pos + n <=? fsize) then Done (read_some pos n) else Fail.
(** [lseek(fd, off, SEEK_SET) != off], then [read(fd, p, n) != n]. *)
Definition lseek_read (off n : Z) : res (list Z) :=
  if off =? 2^64 - 1 then Wild else if off <? 2^63 then read_full off n else Fail.

(** ** [dietelf_init] *)
Record bin_t := Bin {
  b_endian : bool; b_ehdr : Ehdr; b_phdr : list Phdr; b_shdr : list Shdr; b_string : list Z; b_bss : Z;
  b_base : Z; b_section : list (list Z) }.

Definition SHT_SYMTAB : Z := 2.
Definition SHT_NOBITS : Z := 8.
Definition SHT_DYNSYM : Z := 11.
Definition PT_INTERP : Z := 3.
Definition ET_REL : Z := 1.
Definition ELF_ADDR_MASK : Z := 0xffffffffffff8000.
Definition ELF_GOTOFF_MASK : Z := 0xfffffffffffff000.

Definition do_elf_checks (h : Ehdr) : bool := bool_decide (take 4 (e_ident h) = [127; 69; 76; 70]) && (e_version h =? 1).

Definition set_shnum (n : Z) (h : Ehdr) : Ehdr :=
  EhdrOf (e_ident h) (e_type h) (e_machine h) (e_version h) (e_entry h) (e_phoff h) (e_shoff h) (e_flags h) (e_ehsize h)
    (e_phentsize h) (e_phnum h) (e_shentsize h) n (e_shstrndx h).

Definition load_section (s : Shdr) : res (list Z) :=
  if sh_offset s <? 2^63 then read_full (sh_offset s) (sh_size s) else Fail.
Fixpoint load_sections (i : Z) (bss : Z) (l : list Shdr) : res (Z * list (list Z)) :=
  match l with
  | [] => Done (bss, [])
  | s :: l' =>
    if sh_type s =? SHT_NOBITS then let? r := load_sections (i + 1) i l' in Done (fst r, [] :: snd r)
    else let? d := load_section s in let? r := load_sections (i + 1) bss l' in Done (fst r, d :: snd r)
  end.

(** The header of a section; behind the table, what lies there. *)
Definition shdr_at (shdrs : list Shdr) (i : nat) : Shdr :=
  match shdrs !! i with Some s => s | None => shdr_of (entry false shdr_ws [] i) end.
Definition phdr_at (phdrs : list Phdr) (i : nat) : Phdr :=
  match phdrs !! i with Some p => p | None => phdr_of (entry false phdr_ws [] i) end.

Definition get_base_addr (phdrs : list Phdr) : Z := Z.land (p_vaddr (phdr_at phdrs 0)) ELF_ADDR_MASK.

Definition dietelf_init : res bin_t :=
  let? hd := read_full 0 (Z.of_nat EHSIZE) in
  let ident := take EI_NIDENT hd in
  let endian := nth EI_DATA ident 0 =? 2 in
  let h := ehdr_of ident (fields endian ehdr_ws (drop EI_NIDENT hd)) in
  if negb (do_elf_checks h) then Fail
  else
    let plen := Z.of_nat (size_of phdr_ws) * e_phnum h in
    let pos := if e_phoff h <? 2^63 then e_phoff h else Z.of_nat EHSIZE in
    let pgot := read_some pos plen in
    let phdrs := (fun i => phdr_of (entry endian phdr_ws pgot i)) <$> seq 0 (Z.to_nat (e_phnum h)) in
    let slen := Z.of_nat (size_of shdr_ws) * e_shnum h in
    let lost := negb (e_shoff h <? 2^63) in
    let sgot := read_some (if lost then pos + Z.of_nat (length pgot) else e_shoff h) slen in
    let lost := lost || negb (Z.of_nat (length sgot) =? slen) in
    let h := if lost then set_shnum 0 h else h in
    let shdrs := (fun i => shdr_of (entry endian shdr_ws sgot i)) <$> seq 0 (Z.to_nat (e_shnum h)) in
    let strtab := match shdrs !! Z.to_nat (e_shstrndx h) with
                  | Some s => s
                  | None => shdr_of (entry false shdr_ws sgot (Z.to_nat (e_shstrndx h)))
                  end in
    let? string := lseek_read (sh_offset strtab) (sh_size strtab) in
    let? loaded := load_sections 0 (-1) shdrs in
    Done (Bin endian h phdrs shdrs string (fst loaded) (get_base_addr phdrs) (snd loaded)).

(** ** Questions about the header *)
Definition dietelf_get_arch (b : bin_t) : string :=
  let m := e_machine (b_ehdr b) in
  let any := existsb (Z.eqb m) in
  if any [8; 10; 51] then "mips" else if any [40] then "arm" else if any [2; 18; 43] then "sparc"
  else if any [20; 21] then "ppc" else if any [4] then "m68k" else if any [50; 62] then "intel64" else "intel".
Definition dietelf_get_entry_offset (b : bin_t) : Z := u64 (e_entry (b_ehdr b) - b_base b).
Definition dietelf_get_stripped (b : bin_t) : bool := forallb (fun s => negb (sh_type s =? SHT_SYMTAB)) (b_shdr b).
Definition dietelf_get_static (b : bin_t) : bool := forallb (fun p => negb (p_type p =? PT_INTERP)) (b_phdr b).
Definition ident (b : bin_t) (i : nat) : Z := nth i (e_ident (b_ehdr b)) 0.
Definition dietelf_get_data_encoding (b : bin_t) : string :=
  default ("<unknown: " +:+ fmt_x (ident b EI_DATA) +:+ ">")
    (name_of (ident b EI_DATA) [(0, "none"); (1, "2's complement, little endian"); (2, "2's complement, big endian")]).
Definition dietelf_get_machine_name (b : bin_t) : string :=
  default ("<unknown>: 0x" +:+ fmt_x (e_machine (b_ehdr b))) (name_of (e_machine (b_ehdr b)) machine_names).
Definition dietelf_get_file_type (b : bin_t) : string :=
  let t := e_type (b_ehdr b) in
  match name_of t [(0, "NONE (None)"); (1, "REL (Relocatable file)"); (2, "EXEC (Executable file)");
                   (3, "DYN (Shared object file)"); (4, "CORE (Core file)")] with
  | Some s => s
  | None =>
    if (0xff00 <=? t) && (t <=? 0xffff) then "Processor Specific: (" +:+ fmt_x t +:+ ")"
    else if (0xfe00 <=? t) && (t <=? 0xfeff) then "OS Specific: (" +:+ fmt_x t +:+ ")"
    else "<unknown>: " +:+ fmt_x t
  end.
Definition dietelf_get_elf_class (b : bin_t) : string :=
  default ("<unknown: " +:+ fmt_x (ident b EI_CLASS) +:+ ">") (name_of (ident b EI_CLASS) [(0, "none"); (1, "ELF32"); (2, "ELF64")]).
Definition dietelf_get_osabi_name (b : bin_t) : string :=
  default ("<unknown: " +:+ fmt_x (ident b EI_OSABI) +:+ ">") (name_of (ident b EI_OSABI) osabi_names).
Definition dietelf_is_big_endian (b : bin_t) : bool := ident b EI_DATA =? 2.

(** ** Sections *)

(** [strcmp(&string[off], name) == 0] *)
Fixpoint strcmp_at (string : list Z) (off : nat) (name : String.string) : bool :=
  match name with
  | EmptyString => mem string off =? 0
  | String c name' => (mem string off =? ord c) && strcmp_at string (S off) name'
  end.
Definition is_section (b : bin_t) (name : string) (s : Shdr) : bool := strcmp_at (b_string b) (Z.to_nat (sh_name s)) name.

(** A text of at most [n] characters that is copied out of a table. *)
Fixpoint cstr (n : nat) (string : list Z) (off : nat) : String.string :=
  match n with
  | O => EmptyString
  | S n' => let c := mem string off in if c =? 0 then EmptyString else String (chr c) (cstr n' string (S off))
  end.
Definition name_at (string : list Z) (off : Z) : String.string := cstr (ELF_NAME_LENGTH - 1) string (Z.to_nat off).

Definition find_section (b : bin_t) (name : string) : option (nat * Shdr) := list_find (fun s => is_section b name s = true) (b_shdr b).
Definition dietelf_get_section_index (b : bin_t) (name : string) : Z :=
  match find_section b name with Some (i, _) => Z.of_nat i | None => 2^64 - 1 end.
Definition dietelf_get_section_offset (b : bin_t) (name : string) : Z :=
  match find_section b name with Some (_, s) => sh_offset s | None => 2^64 - 1 end.
Definition dietelf_get_section_size (b : bin_t) (name : string) : Z :=
  match find_section b name with Some (_, s) => s32 (sh_size s) | None => -1 end.

Record dietelf_section := Section_ { s_offset : Z; s_size : Z; s_align : Z; s_flags : Z; s_name : string }.
Definition dietelf_get_sections (b : bin_t) : list dietelf_section :=
  (fun s => Section_ (sh_offset s) (sh_size s) (sh_addralign s) (u32 (sh_flags s)) (name_at (b_string b) (sh_name s))) <$> b_shdr b.
Definition dietelf_get_sections_count (b : bin_t) : Z := e_shnum (b_ehdr b).

(** ** Imports and symbols *)
Record dietelf_symbol := Symbol { y_offset : Z; y_size : Z; y_bind : string; y_type : string; y_name : string }.

Definition ST_BIND (info : Z) : Z := Z.shiftr info 4.
Definition ST_TYPE (info : Z) : Z := Z.land info 0xf.
Definition bind_name (info : Z) : string :=
  default "UNKNOWN" (name_of (ST_BIND info) [(0, "LOCAL"); (1, "GLOBAL"); (3, "NUM"); (10, "LOOS"); (12, "HIOS"); (13, "LOPROC"); (15, "HIPROC")]).
Definition type_name (info : Z) : string :=
  default "UNKNOWN" (name_of (ST_TYPE info) [(0, "NOTYPE"); (1, "OBJECT"); (2, "FUNC"); (3, "SECTION"); (4, "FILE"); (5, "COMMON");
    (6, "TLS"); (7, "NUM"); (10, "LOOS"); (12, "HIOS"); (13, "LOPROC"); (15, "HIPROC")]).

(** The entries of a table of a section; the numbers of one that is cut off are swapped behind the memory. *)
Definition table (endian : bool) (ws : list nat) (size : Z) (got : list Z) : res (list (list Z)) :=
  let w := Z.of_nat (size_of ws) in
  if endian && negb (size mod w =? 0) then Wild
  else Done (entry endian ws got <$> seq 0 (Z.to_nat ((size + w - 1) / w))).
Definition symbols (endian : bool) (s : Shdr) : res (list Sym) :=
  let? got := lseek_read (sh_offset s) (sh_size s) in
  let? l := table endian sym_ws (sh_size s) got in Done (sym_of <$> l).

(** The relocations of the procedure linkage table. *)
Definition rel_ws (rela : bool) : list nat := if rela then [Addr; Addr; Addr] else [Addr; Addr].
Definition R_SYM (info : Z) : Z := if is64 then Z.shiftr info 32 else Z.shiftr info 8.
Definition rel_of (l : list Z) : Rel := RelOf (nth 0 l 0) (nth 1 l 0).
(** The addend is not swapped. *)
Definition relocations (endian rela : bool) (s : Shdr) : res (list Rel) :=
  let? got := lseek_read (sh_offset s) (sh_size s) in
  let? l := table endian (rel_ws rela) (sh_size s) got in Done (rel_of <$> l).

(** The address in the table of offsets is not swapped. *)
Definition plt_address (b : bin_t) (got_addr : Z) (rels : list Rel) (sym : Z) : option (res Z) :=
  let rel0 := match rels with r :: _ => r | [] => rel_of (entry false (rel_ws false) [] 0) end in
  let got_offset := Z.land (u64 (r_offset rel0 - b_base b - got_addr)) ELF_GOTOFF_MASK in
  match list_find (fun r => R_SYM (r_info r) = sym) rels with
  | None => None
  | Some (_, r) =>
    Some match lseek_read (u64 (r_offset r - b_base b - got_offset)) (Z.of_nat Addr) with
         | Done d => Done (addr_mod (le_value d - 6))
         | Fail => Done 0
         | Wild => Wild
         end
  end.
Definition got_addr (b : bin_t) : Z :=
  foldl (fun a s => if is_section b ".got" s then sh_offset s else a) 0 (b_shdr b).
Fixpoint import_addr_loop (b : bin_t) (sym : Z) (l : list Shdr) : res Z :=
  match l with
  | [] => Done 0
  | s :: l' =>
    let go (rela : bool) (failed : Z) :=
      match relocations (b_endian b) rela s with
      | Done rels => match plt_address b (got_addr b) rels sym with Some r => r | None => import_addr_loop b sym l' end
      | Fail => Done failed
      | Wild => Wild
      end in
    if is_section b ".rel.plt" s then go false 0
    else if is_section b ".rela.plt" s then go true (2^64 - 1)
    else import_addr_loop b sym l'
  end.
Definition get_import_addr (b : bin_t) (sym : Z) : res Z := import_addr_loop b sym (b_shdr b).

Definition less_base (b : bin_t) (off : Z) : Z := if b_base b <=? off then off - b_base b else off.

(** The symbols of interest of a table with their numbers; the first one is none. *)
Definition numbered (keep : Sym -> bool) (l : list Sym) : list (Z * Sym) :=
  filter (fun x => keep (snd x) = true) (drop 1 (zip (Z.of_nat <$> seq 0 (length l)) l)).
Definition is_import (s : Sym) : bool := st_shndx s =? 0.
Definition is_symbol (s : Sym) : bool :=
  negb (st_shndx s =? 0) && (negb (ST_TYPE (st_info s) =? 3) && negb (ST_TYPE (st_info s) =? 4)).

Fixpoint imports_of (b : bin_t) (string : list Z) (l : list (Z * Sym)) : res (list dietelf_symbol) :=
  match l with
  | [] => Done []
  | (k, s) :: l' =>
    let? off := (if negb (st_value s =? 0) then Done (st_value s) else get_import_addr b k) in
    let? r := imports_of b string l' in
    Done (Symbol (less_base b off) 0 (bind_name (st_info s)) (type_name (st_info s)) (name_at string (st_name s)) :: r)
  end.
Definition symbol_of (b : bin_t) (sym_offset : Z) (string : list Z) (s : Sym) : dietelf_symbol :=
  Symbol (less_base b (u64 (st_value s + sym_offset))) (st_size s) (bind_name (st_info s)) (type_name (st_info s)) (name_at string (st_name s)).

(** What is written from the start of an array on. *)
Definition overwrite {A} (new old : list A) : list A := (new ++ drop (length new) old)%list.
(** The tables of the kind that is asked for; each one begins at the start of the array again.  With the array
    comes the value returned. *)
Fixpoint over_tables {A} (kind : Z) (read : Shdr -> res (list A)) (l : list Shdr) (out : list A) : res (list A * Z) :=
  match l with
  | [] => Done (out, 0)
  | s :: l' =>
    if sh_type s =? kind then
      match read s with
      | Done new => over_tables kind read l' (overwrite new out)
      | Fail => Done (out, -1)
      | Wild => Wild
      end
    else over_tables kind read l' out
  end.
Fixpoint count_tables (kind : Z) (keep : Sym -> bool) (l : list Shdr) (ctr : Z) : res Z :=
  match l with
  | [] => Done ctr
  | s :: l' =>
    if sh_type s =? kind then
      match symbols false s with
      | Done syms => count_tables kind keep l' (ctr + Z.of_nat (length (numbered keep syms)))
      | Fail => Done (-1)
      | Wild => Wild
      end
    else count_tables kind keep l' ctr
  end.
Definition strings_of (b : bin_t) (s : Shdr) : res (list Z) :=
  let h := shdr_at (b_shdr b) (Z.to_nat (sh_link s)) in lseek_read (sh_offset h) (sh_size h).

Definition import_kind (b : bin_t) : Z := if e_type (b_ehdr b) =? ET_REL then SHT_SYMTAB else SHT_DYNSYM.
Definition read_imports (b : bin_t) (s : Shdr) : res (list dietelf_symbol) :=
  let? string := strings_of b s in
  let? syms := symbols (b_endian b) s in imports_of b string (numbered is_import syms).
Definition dietelf_get_imports (b : bin_t) (import : list dietelf_symbol) : res (list dietelf_symbol * Z) :=
  over_tables (import_kind b) (read_imports b) (b_shdr b) import.
(** The numbers are not swapped here: whether one is zero can be told all the same. *)
Definition dietelf_get_imports_count (b : bin_t) : res Z := count_tables (import_kind b) is_import (b_shdr b) 0.

Definition symbol_kind (b : bin_t) : Z := if dietelf_get_stripped b then SHT_DYNSYM else SHT_SYMTAB.
Definition read_symbols (b : bin_t) (s : Shdr) : res (list dietelf_symbol) :=
  let sym_offset := if e_type (b_ehdr b) =? ET_REL then dietelf_get_section_offset b ".text" else 0 in
  let? string := strings_of b s in
  let? syms := symbols (b_endian b) s in Done ((fun x => symbol_of b sym_offset string (snd x)) <$> numbered is_symbol syms).
Definition dietelf_get_symbols (b : bin_t) (symbol : list dietelf_symbol) : res (list dietelf_symbol * Z) :=
  over_tables (symbol_kind b) (read_symbols b) (b_shdr b) symbol.
Definition dietelf_get_symbols_count (b : bin_t) : res Z := count_tables (symbol_kind b) is_symbol (b_shdr b) 0.

(** ** Fields *)
Record dietelf_field := Field { x_name : string; x_offset : Z; x_vaddr : Z; x_rest : option (Z * Z * Z * Z) }.
(** The headers of the program are taken from three places further on than they are; [x_rest] is the type, the
    flags, the end and the size, which the first three fields are not given. *)
Definition dietelf_get_fields (b : bin_t) : list dietelf_field :=
  let h := b_ehdr b in
  (Field "ehdr" 0 0 None :: Field "shoff" (e_shoff h) (u64 (e_shoff h + b_base b)) None
    :: Field "phoff" (e_phoff h) (u64 (e_phoff h + b_base b)) None
    :: ((fun j => let p := phdr_at (b_phdr b) (j + 3) in
                  Field ("phdr_" +:+ fmt_d (Z.of_nat j)) (p_offset p) (p_vaddr p)
                    (Some (s32 (p_type p), s32 (p_flags p), addr_mod (p_memsz p + (0x1000 - p_memsz p mod 0x1000)), p_memsz p)))
         <$> seq 0 (Z.to_nat (e_phnum h))))%list.
Definition dietelf_get_fields_count (b : bin_t) : Z := 3 + e_phnum (b_ehdr b).

(** ** Strings *)
Record dietelf_string := Str { g_section : string; g_offset : Z; g_type : ascii; g_size : Z; g_string : string }.

Definition text (l : list Z) : string := foldr (fun c s => String (chr c) s) EmptyString l.

(** [aux_stripstr_from_file] looks for plain ASCII: [i] is the place in the file, [rest] what is there, [str] the
    characters that were just seen.  [ctr] is a static variable, which counts from one call to the next. *)
Fixpoint strip_loop (fuel : nat) (min len str_limit i ctr : Z) (rest str : list Z) (filter : option string)
    (section : string) : res (list dietelf_string * Z) :=
  match fuel, rest with
  | S fuel', c :: rest' =>
    if negb ((i <? len) && (ctr <? str_limit)) then Done ([], ctr)
    else if is_printable c then
      if (length str =? ELF_STRING_LENGTH)%nat then Wild
      else strip_loop fuel' min len str_limit (i + 1) ctr rest' (str ++ [c]) filter section
    else
      let n := Z.of_nat (length str) in
      let unicode := negb (n =? 0) && ((mem file (Z.to_nat (i + 2)) =? 0) && (c =? 0) && negb (mem file (Z.to_nat (i + 1)) =? 0)) in
      if min <=? n then
        if (length str =? ELF_STRING_LENGTH)%nat then Wild
        else if (2 <? n) && (match filter with None => true | Some f => contains f (text str) end) then
          let? r := strip_loop fuel' min len str_limit (i + 1) (ctr + 1) rest' [] filter section in
          Done (Str section (u64 (i - n)) (if unicode then "U" else "A")%char n (text str) :: fst r, snd r)
        else strip_loop fuel' min len str_limit (i + 1) ctr rest' [] filter section
      else strip_loop fuel' min len str_limit (i + 1) ctr rest' [] filter section
  | _, _ => Done ([], ctr)
  end.
Definition aux_stripstr_from_file (min seek limit : Z) (filter : option string) (section : string) (str_limit ctr : Z)
    : res (list dietelf_string * Z) :=
  let min := if min <? 1 then 5 else min in
  let len := if negb (limit =? 0) && (limit <? fsize) then limit else fsize in
  if seek <? len then
    strip_loop (length file) min len str_limit seek ctr (drop (Z.to_nat seek) file) [] filter section
  else Done ([], ctr).

Definition SHF_EXECINSTR : Z := 4.
(** The strings go to [strings + ctr], where [ctr] is what the last call returned. *)
Fixpoint strings_loop (wanted : nat -> Shdr -> bool) (filter : option string) (shrink : bool) (b : bin_t) (str_limit : Z) (i : nat)
    (l : list Shdr) (ctr static : Z) (out : list (Z * list dietelf_string)) : res (list (Z * list dietelf_string) * Z * Z) :=
  match l with
  | [] => Done (out, ctr, static)
  | s :: l' =>
    if wanted i s then
      let? r := aux_stripstr_from_file 3 (sh_offset s) (u64 (sh_offset s + sh_size s)) filter
                  (cstr ELF_STRING_LENGTH (b_string b) (Z.to_nat (sh_name s))) (if shrink then str_limit - ctr else str_limit) static in
      strings_loop wanted filter shrink b str_limit (S i) l' (snd r) (snd r) (out ++ [(ctr, fst r)])
    else strings_loop wanted filter shrink b str_limit (S i) l' ctr static out
  end.
(** The pieces that are written, each with its place; the value returned; the static counter. *)
Definition dietelf_get_strings (b : bin_t) (verbose str_limit static : Z) : res (list (Z * list dietelf_string) * Z * Z) :=
  strings_loop (fun i s => negb (i =? 0)%nat && (if verbose <? 2 then is_section b ".rodata" s
                            else (verbose =? 2) && (Z.land (sh_flags s) SHF_EXECINSTR =? 0)))
    None true b str_limit 0 (b_shdr b) 0 static [].
Definition dietelf_get_libs (b : bin_t) (str_limit static : Z) : res (list (Z * list dietelf_string) * Z * Z) :=
  strings_loop (fun i s => is_section b ".dynstr" s) (Some ".so.") false b str_limit 0 (b_shdr b) 0 static [].
End elf.

(** ** Writing a file *)
Section write.
Context (is64 endian : bool).

Definition ehdr_list (h : Ehdr) : list Z :=
  [e_type h; e_machine h; e_version h; e_entry h; e_phoff h; e_shoff h; e_flags h; e_ehsize h; e_phentsize h; e_phnum h;
   e_shentsize h; e_shnum h; e_shstrndx h].
Definition phdr_list (p : Phdr) : list Z :=
  if is64 then [p_type p; p_flags p; p_offset p; p_vaddr p; p_paddr p; p_filesz p; p_memsz p; p_align p]
  else [p_type p; p_offset p; p_vaddr p; p_paddr p; p_filesz p; p_memsz p; p_flags p; p_align p].
Definition shdr_list (s : Shdr) : list Z :=
  [sh_name s; sh_type s; sh_flags s; sh_addr s; sh_offset s; sh_size s; sh_link s; sh_info s; sh_addralign s; sh_entsize s].

Definition put_phdrs (phs : list Phdr) : list Z := concat (puts endian (phdr_ws is64) <$> (phdr_list <$> phs)).
Definition put_shdrs (shs : list Shdr) : list Z := concat (puts endian (shdr_ws is64) <$> (shdr_list <$> shs)).
(** The header, the headers of the program, those of the sections, and the rest. *)
Definition write_elf (h : Ehdr) (phs : list Phdr) (shs : list Shdr) (body : list Z) : list Z :=
  (e_ident h ++ puts endian (ehdr_ws is64) (ehdr_list h) ++ put_phdrs phs ++ put_shdrs shs ++ body)%list.

Definition fits (ws : list nat) (vs : list Z) : Prop := Forall2 (fun w v => 0 <= v < 2 ^ (8 * Z.of_nat w)) ws vs.
Definition in_file (file : list Z) (s : Shdr) : Prop := sh_offset s + sh_size s <= Z.of_nat (length file).

Record elf_ok (h : Ehdr) (phs : list Phdr) (shs : list Shdr) (st : Shdr) (file : list Z) : Prop := {
  ok_ident : length (e_ident h) = EI_NIDENT;
  ok_magic : take 4 (e_ident h) = [127; 69; 76; 70];
  ok_data : (nth EI_DATA (e_ident h) 0 =? 2) = endian;
  ok_version : e_version h = 1;
  ok_ehdr : fits (ehdr_ws is64) (ehdr_list h);
  ok_phdr : Forall (fun p => fits (phdr_ws is64) (phdr_list p)) phs;
  ok_shdr : Forall (fun s => fits (shdr_ws is64) (shdr_list s)) shs;
  ok_phnum : e_phnum h = Z.of_nat (length phs);
  ok_shnum : e_shnum h = Z.of_nat (length shs);
  ok_phoff : e_phoff h = Z.of_nat (EHSIZE is64);
  ok_shoff : e_shoff h = Z.of_nat (EHSIZE is64 + length phs * size_of (phdr_ws is64));
  ok_strtab : shs !! Z.to_nat (e_shstrndx h) = Some st;
  ok_string : in_file file st;
  ok_loaded : Forall (fun s => sh_type s = SHT_NOBITS \/ in_file file s) shs;
  ok_size : Z.of_nat (length file) < 2^63 }.
End write.

Lemma swap_length endian v : length (aux_swap_endian endian v) = length v.
Proof. unfold aux_swap_endian. destruct endian; [|done]. do 9 (destruct v; [done|]). done. Qed.
Lemma swap_swap endian v : aux_swap_endian endian (aux_swap_endian endian v) = v.
Proof.
  destruct endian; [|done]. unfold aux_swap_endian at 1. rewrite swap_length. unfold aux_swap_endian.
  by repeat case_match; rewrite ?reverse_involutive.
Qed.
Lemma put_length endian w v : length (put endian w v) = w.
Proof. unfold put. by rewrite swap_length, le_bytes_length. Qed.
Lemma puts_length endian ws vs : fits ws vs -> length (puts endian ws vs) = size_of ws.
Proof. intros H. induction H; cbn; [done|]. by rewrite length_app, put_length, IHForall2. Qed.

(** What is written in either order comes back. *)
Lemma fields_puts endian ws vs rest : fits ws vs -> fields endian ws (puts endian ws vs ++ rest) = vs.
Proof.
  intros H. induction H as [|w v ws vs Hv H IH]; [done|]. cbn [puts fields].
  rewrite <-app_assoc, take_app_length' by (by rewrite put_length). rewrite drop_app_length' by (by rewrite put_length). rewrite IH.
  f_equal. unfold put. rewrite swap_swap. by apply le_value_bytes.
Qed.

Lemma slice_inside junk got off n : (off + n <= length got)%nat -> slice junk got off n = take n (drop off got).
Proof.
  intros H. apply list_eq. intros i. unfold slice. rewrite list_lookup_fmap. destruct (decide (i < n)%nat).
  - rewrite lookup_seq_lt by done. rewrite lookup_take_lt, lookup_drop by done. cbn. unfold mem.
    destruct (lookup_lt_is_Some_2 got (off + i)) as [x Hx]; [lia|]. by rewrite Hx.
  - rewrite lookup_seq_ge by lia. by rewrite lookup_take_ge by lia.
Qed.

Lemma entry_puts junk endian ws vss i vs :
  Forall (fits ws) vss -> vss !! i = Some vs -> entry junk endian ws (concat (puts endian ws <$> vss)) i = vs.
Proof.
  intros Hf Hi. assert (L : forall l, Forall (fits ws) l -> length (concat (puts endian ws <$> l)) = (length l * size_of ws)%nat).
  { intros l Hl. induction Hl as [|v l Hv Hl IH]; [done|]. cbn. rewrite length_app, puts_length, IH by done. lia. }
  assert (E := take_drop_middle _ _ _ Hi). assert (Hlt := lookup_lt_Some _ _ _ Hi).
  assert (Hv : fits ws vs) by (by eapply Forall_lookup_1).
  assert (Ht : Forall (fits ws) (take i vss)) by (by apply Forall_take).
  unfold entry. rewrite slice_inside by (rewrite L by done; nia).
  rewrite <-E, fmap_app, concat_app, fmap_cons. cbn [concat].
  rewrite drop_app_length' by (rewrite L by done; rewrite length_take_le by lia; done).
  rewrite take_app_length' by (by rewrite puts_length). rewrite <-(app_nil_r (puts _ _ _)). by apply fields_puts.
Qed.

Lemma entries_puts {A} junk endian ws (to : A -> list Z) (back : list Z -> A) l :
  (forall a, back (to a) = a) -> Forall (fun a => fits ws (to a)) l ->
  (fun i => back (entry junk endian ws (concat (puts endian ws <$> (to <$> l))) i)) <$> seq 0 (length l) = l.
Proof.
  intros Ho Hl. apply list_eq. intros i. rewrite list_lookup_fmap. destruct (l !! i) as [a|] eqn:E.
  - assert (Hlt := lookup_lt_Some _ _ _ E). rewrite lookup_seq_lt by done. cbn.
    rewrite (entry_puts _ _ _ _ _ (to a)); [by rewrite Ho|by apply Forall_fmap|]. by rewrite list_lookup_fmap, E.
  - apply lookup_ge_None in E. by rewrite lookup_seq_ge.
Qed.

Section back.
Context (is64 : bool) (junk : nat -> Z) (endian : bool).

Lemma ehdr_back h : ehdr_of (e_ident h) (ehdr_list h) = h.
Proof. by destruct h. Qed.
Lemma phdr_back p : phdr_of is64 (phdr_list is64 p) = p.
Proof. unfold phdr_of, phdr_list. by destruct is64, p. Qed.
Lemma shdr_back s : shdr_of (shdr_list s) = s.
Proof. by destruct s. Qed.

Lemma puts_concat_length ws vss : Forall (fits ws) vss -> length (concat (puts endian ws <$> vss)) = (length vss * size_of ws)%nat.
Proof. intros H. induction H as [|v l Hv H IH]; [done|]. cbn. rewrite length_app, puts_length, IH by done. lia. Qed.

(** Reading what is in the middle of a file. *)
Lemma read_some_mid pre mid post :
  read_some (pre ++ mid ++ post) (Z.of_nat (length pre)) (Z.of_nat (length mid)) = mid.
Proof.
  unfold read_some, fsize. rewrite !length_app. destruct (Z.ltb_spec (Z.of_nat (length pre)) (Z.of_nat (length pre + (length mid + length post)))).
  - rewrite Nat2Z.id, drop_app_length, Z.min_l by lia. rewrite Nat2Z.id. apply take_app_length.
  - symmetry. apply nil_length_inv. lia.
Qed.
Lemma read_full_ok file pos n : 0 <= n -> pos + n <= Z.of_nat (length file) -> read_full file pos n = Done (read_some file pos n).
Proof. intros Hn H. unfold read_full, fsize. rewrite (proj2 (Z.leb_le _ _)) by lia. by rewrite orb_true_r. Qed.

Lemma load_sections_ok file shs i bss :
  Z.of_nat (length file) < 2^63 -> Forall (fun s => 0 <= sh_offset s /\ 0 <= sh_size s) shs ->
  Forall (fun s => sh_type s = SHT_NOBITS \/ in_file file s) shs -> exists r, load_sections file i bss shs = Done r.
Proof.
  intros Hf Hp Hl. revert i bss. induction Hl as [|s l Hs Hl IH]; intros i bss; cbn [load_sections]; [eauto|].
  apply Forall_cons in Hp as [[Ho Hz] Hp]. destruct (Z.eqb_spec (sh_type s) SHT_NOBITS) as [E|E].
  - destruct (IH Hp (i + 1) i) as [r ->]. cbn. eauto.
  - destruct Hs as [|Hs]; [done|]. unfold in_file in Hs. unfold load_section. rewrite (proj2 (Z.ltb_lt _ _)) by lia.
    rewrite read_full_ok by lia. cbn [res_bind]. destruct (IH Hp (i + 1) bss) as [r ->]. cbn. eauto.
Qed.

Lemma shdr_fits_pos s : fits (shdr_ws is64) (shdr_list s) -> 0 <= sh_offset s /\ 0 <= sh_size s.
Proof.
  unfold fits, shdr_ws, shdr_list. intros H. repeat match goal with H : Forall2 _ (_ :: _) _ |- _ => apply Forall2_cons in H as [? H] end. lia.
Qed.

(** C5: a file of either class and order, whose tables are written one behind the other and whose sections lie
    in it, is opened with the headers it was written from, the names of its sections and the base address of
    its first segment. *)
Theorem written_file_opens h phs shs st body :
  elf_ok is64 endian h phs shs st (write_elf is64 endian h phs shs body) ->
  exists bss secs, dietelf_init is64 junk (write_elf is64 endian h phs shs body) =
    Done (Bin endian h phs shs (read_some (write_elf is64 endian h phs shs body) (sh_offset st) (sh_size st)) bss (get_base_addr is64 junk phs) secs).
Proof.
  intros [Hid Hmag Hdat Hver Heh Hph Hsh Hpn Hsn Hpo Hso Hst Hstr Hld Hsz].
  set (file := write_elf is64 endian h phs shs body) in *.
  set (head := (e_ident h ++ puts endian (ehdr_ws is64) (ehdr_list h))%list).
  assert (Hhead : length head = EHSIZE is64) by (unfold head; rewrite length_app, Hid, puts_length; done).
  assert (Hphs : Forall (fits (phdr_ws is64)) (phdr_list is64 <$> phs)) by (by apply Forall_fmap).
  assert (Hshs : Forall (fits (shdr_ws is64)) (shdr_list <$> shs)) by (by apply Forall_fmap).
  assert (Lp : length (put_phdrs is64 endian phs) = (length phs * size_of (phdr_ws is64))%nat)
    by (unfold put_phdrs; by rewrite puts_concat_length, length_fmap).
  assert (Ls : length (put_shdrs is64 endian shs) = (length shs * size_of (shdr_ws is64))%nat)
    by (unfold put_shdrs; by rewrite puts_concat_length, length_fmap).
  assert (F1 : file = ([] ++ head ++ (put_phdrs is64 endian phs ++ put_shdrs is64 endian shs ++ body))%list)
    by (unfold file, write_elf, head; by rewrite <-app_assoc).
  assert (F2 : file = (head ++ put_phdrs is64 endian phs ++ (put_shdrs is64 endian shs ++ body))%list) by exact F1.
  assert (F3 : file = ((head ++ put_phdrs is64 endian phs) ++ put_shdrs is64 endian shs ++ body)%list) by (rewrite F2; by rewrite <-!app_assoc).
  assert (Hlen : Z.of_nat (length file) = Z.of_nat (length head + length (put_phdrs is64 endian phs) + length (put_shdrs is64 endian shs) + length body))
    by (rewrite F3, !length_app; lia).
  assert (R1 : read_full file 0 (Z.of_nat (EHSIZE is64)) = Done head).
  { rewrite read_full_ok by lia. f_equal. rewrite F1, <-Hhead. apply (read_some_mid []). }
  assert (R2 : read_some file (e_phoff h) (Z.of_nat (size_of (phdr_ws is64)) * e_phnum h) = put_phdrs is64 endian phs).
  { rewrite F2, Hpo, Hpn, <-Hhead. replace (Z.of_nat (size_of (phdr_ws is64)) * Z.of_nat (length phs)) with (Z.of_nat (length (put_phdrs is64 endian phs))) by lia.
    apply read_some_mid. }
  assert (R3 : read_some file (e_shoff h) (Z.of_nat (size_of (shdr_ws is64)) * e_shnum h) = put_shdrs is64 endian shs).
  { rewrite F3, Hso, Hsn, <-Hhead, <-Lp, <-length_app.
    replace (Z.of_nat (size_of (shdr_ws is64)) * Z.of_nat (length shs)) with (Z.of_nat (length (put_shdrs is64 endian shs))) by lia.
    apply read_some_mid. }
  assert (T1 : take EI_NIDENT head = e_ident h) by (by apply take_app_length').
  assert (T2 : ehdr_of (e_ident h) (fields endian (ehdr_ws is64) (drop EI_NIDENT head)) = h).
  { unfold head. rewrite drop_app_length' by done. rewrite <-(app_nil_r (puts _ _ _)), fields_puts by done. apply ehdr_back. }
  unfold dietelf_init. rewrite R1. cbn [res_bind]. rewrite !T1, !Hdat, !T2.
  unfold do_elf_checks. rewrite bool_decide_eq_true_2, Hver by done. cbn [negb andb Z.eqb Pos.eqb].
  rewrite !(proj2 (Z.ltb_lt (e_phoff h) _)), !(proj2 (Z.ltb_lt (e_shoff h) _)) by lia. cbn [negb orb]. cbv zeta.
  rewrite R2, R3. rewrite (proj2 (Z.eqb_eq _ _)) by lia. cbn [negb]. rewrite Hpn, Hsn, !Nat2Z.id.
  unfold put_phdrs, put_shdrs. rewrite !entries_puts by (done || apply phdr_back || apply shdr_back).
  rewrite Hst. assert (Hp : Forall (fun s => 0 <= sh_offset s /\ 0 <= sh_size s) shs) by (eapply Forall_impl; [exact Hsh|apply shdr_fits_pos]).
  destruct (Forall_lookup_1 _ _ _ _ Hp Hst) as [Hso' Hsz']. unfold in_file in Hstr.
  unfold lseek_read. rewrite (proj2 (Z.eqb_neq _ _)), (proj2 (Z.ltb_lt _ _)), read_full_ok by lia. cbn [res_bind].
  destruct (load_sections_ok file shs 0 (-1) Hsz Hp Hld) as [r ->]. cbn [res_bind]. eauto.
Qed.
End back.

(** A program of 32 bits, little endian: a segment, the empty section and the table of names. *)
Definition small_ident (data : Z) : list Z := [127; 69; 76; 70; 1; data; 1; 0; 0; 0; 0; 0; 0; 0; 0; 0].
Definition small_ehdr (data : Z) : Ehdr := EhdrOf (small_ident data) 2 3 1 0x8048080 52 84 0 52 32 1 40 2 1.
Definition small_phdr : Phdr := PhdrOf 1 0 0x8048000 0x8048000 164 164 5 0x1000.
Definition null_shdr : Shdr := ShdrOf 0 0 0 0 0 0 0 0 0 0.
Definition small_strtab : Shdr := ShdrOf 1 3 0 0 164 11 0 0 1 0.
(** ".shstrtab" between zeros *)
Definition small_names : list Z := [0; 46; 115; 104; 115; 116; 114; 116; 97; 98; 0].
Definition small_file (data : Z) : list Z :=
  write_elf false (data =? 2) (small_ehdr data) [small_phdr] [null_shdr; small_strtab] small_names.

Lemma written_file_opens_witness :
  exists bss secs, dietelf_init false (fun _ => 0) (small_file 2) =
    Done (Bin true (small_ehdr 2) [small_phdr] [null_shdr; small_strtab]
      (read_some (small_file 2) 164 11) bss (get_base_addr false (fun _ => 0) [small_phdr]) secs).
Proof.
  apply (written_file_opens false (fun _ => 0) true (small_ehdr 2) [small_phdr] [null_shdr; small_strtab] small_strtab small_names).
  split; try reflexivity; unfold fits, in_file; apply (bool_decide_unpack _); vm_compute; exact I.
Defined.

Example small_file_read :
  match dietelf_init false (fun _ => 0) (small_file 1) with
  | Done b => (dietelf_get_arch b, dietelf_get_machine_name b, s_name <$> dietelf_get_sections (fun _ => 0) b, b_base b,
               dietelf_get_section_offset (fun _ => 0) b ".shstrtab", dietelf_get_entry_offset b, dietelf_get_stripped b)
              = ("intel", "Intel 80386", [""; ".shstrtab"], 0x8048000, 164, 0x80, true)
  | _ => False
  end.
Proof. vm_compute. done. Qed.

(** ** Counting symbols *)
Lemma le_value_zero l : Forall (fun c => 0 <= c) l -> le_value l = 0 <-> Forall (fun c => c = 0) l.
Proof.
  intros H. assert (P : forall l, Forall (fun c => 0 <= c) l -> 0 <= le_value l).
  { intros l' H'. induction H'; cbn; lia. }
  induction H as [|c l Hc H IH]; cbn [le_value]; [done|]. rewrite Forall_cons, <-IH. specialize (P l H). lia.
Qed.
Lemma swap_Permutation endian v : aux_swap_endian endian v ≡ₚ v.
Proof. unfold aux_swap_endian. destruct endian; [|done]. by repeat case_match; rewrite ?reverse_Permutation. Qed.
Lemma swapped_zero endian v :
  Forall (fun c => 0 <= c) v -> (le_value (aux_swap_endian endian v) =? 0) = (le_value v =? 0).
Proof.
  intros H. apply eq_iff_eq_true. rewrite !Z.eqb_eq, !le_value_zero; [by rewrite swap_Permutation|done|].
  by rewrite swap_Permutation.
Qed.

Section count.
Context (is64 : bool) (junk : nat -> Z) (file : list Z).
Hypotheses (Hjunk : forall i, 0 <= junk i) (Hfile : Forall (fun c => 0 <= c) file).

Lemma slice_nonneg got off n : Forall (fun c => 0 <= c) got -> Forall (fun c => 0 <= c) (slice junk got off n).
Proof.
  intros H. unfold slice. apply Forall_fmap, Forall_forall. intros i _. cbn. unfold mem.
  destruct (got !! i) eqn:E; [|apply Hjunk]. rewrite Forall_lookup in H. by eapply H.
Qed.

Lemma sym_swapped endian got i :
  Forall (fun c => 0 <= c) got ->
  let s := sym_of is64 (entry junk endian (sym_ws is64) got i) in
  let s' := sym_of is64 (entry junk false (sym_ws is64) got i) in
  (st_shndx s =? 0) = (st_shndx s' =? 0) /\ st_info s = st_info s'.
Proof.
  intros H s s'. subst s s'. unfold entry. assert (Hs := slice_nonneg got (i * size_of (sym_ws is64)) (size_of (sym_ws is64)) H).
  revert Hs. generalize (slice junk got (i * size_of (sym_ws is64)) (size_of (sym_ws is64))) as l. intros l Hs.
  assert (One : forall e (v : list Z), length (take 1 v) = 1%nat -> aux_swap_endian e (take 1 v) = take 1 v).
  { intros e v Hv. unfold aux_swap_endian. rewrite Hv. by destruct e. }
  assert (One' : forall e (v : list Z), aux_swap_endian e (take 1 v) = take 1 v).
  { intros e [|c v]; [by destruct e|by apply One]. }
  assert (Z : forall v : list Z, Forall (fun c => 0 <= c) v -> forall k, Forall (fun c => 0 <= c) (drop k v)) by (intros; by apply Forall_drop).
  unfold sym_of, sym_ws. destruct is64; cbn [fields nth st_shndx st_info]; rewrite ?One';
    (split; [|done]); change (aux_swap_endian false ?v) with v; apply swapped_zero, Forall_take; repeat apply Forall_drop; done.
Qed.

Definition keeps_alike (keep : Sym -> bool) : Prop :=
  forall s s', (st_shndx s =? 0) = (st_shndx s' =? 0) -> st_info s = st_info s' -> keep s = keep s'.
Lemma is_symbol_alike : keeps_alike is_symbol.
Proof. intros s s' H1 H2. unfold is_symbol. by rewrite H1, H2. Qed.
Lemma is_import_alike : keeps_alike is_import.
Proof. intros s s' H1 H2. done. Qed.

Lemma numbered_length keep l : length (numbered keep l) = length (filter (fun s => keep s = true) (drop 1 l)).
Proof.
  unfold numbered. assert (E : forall z : list (Z * Sym), length (filter (fun x => keep (snd x) = true) z) = length (filter (fun s => keep s = true) (snd <$> z))).
  { induction z as [|[k s] z IH]; [done|]. rewrite fmap_cons, !filter_cons. cbn [snd]. destruct (decide (keep s = true)); cbn [length]; by rewrite IH. }
  rewrite E, fmap_drop. do 3 f_equal. apply snd_zip. rewrite length_fmap, length_seq. done.
Qed.

Lemma symbols_alike endian keep s l l' :
  keeps_alike keep -> symbols is64 junk file endian s = Done l -> symbols is64 junk file false s = Done l' ->
  length (numbered keep l) = length (numbered keep l').
Proof.
  intros Hk H H'. unfold symbols in *. destruct (lseek_read file (sh_offset s) (sh_size s)) as [got| |] eqn:R; [|done|done].
  assert (Hg : Forall (fun c => 0 <= c) got).
  { unfold lseek_read, read_full in R. repeat case_match; simplify_eq. unfold read_some. case_match; [|constructor].
    by apply Forall_take, Forall_drop. }
  cbn [res_bind] in *. unfold table in *. cbn [andb] in H'. destruct (endian && _); [done|]. cbn [res_bind] in *. simplify_eq.
  rewrite !numbered_length, <-!fmap_drop. generalize (drop 1 (seq 0 (Z.to_nat ((sh_size s + Z.of_nat (size_of (sym_ws is64)) - 1) / Z.of_nat (size_of (sym_ws is64)))))) as ids.
  intros ids. induction ids as [|i ids IH]; [done|]. rewrite !fmap_cons, !filter_cons.
  destruct (sym_swapped endian got i Hg) as [E1 E2]. rewrite (Hk _ _ E1 E2).
  destruct (decide _); cbn [length]; by rewrite IH.
Qed.

Lemma count_grows kind keep l ctr n :
  0 <= ctr -> count_tables is64 junk file kind keep l ctr = Done n -> n <> -1 -> ctr <= n.
Proof.
  revert ctr. induction l as [|s l IH]; intros ctr Hc H Hn; cbn [count_tables] in H; [simplify_eq; lia|].
  destruct (_ =? kind); [|by apply IH]. destruct (symbols _ _ _ _ _); [|by simplify_eq|done].
  apply IH in H; lia.
Qed.

Lemma over_tables_fit {A} kind keep (read : Shdr -> res (list A)) l ctr n old out r :
  (forall s new, read s = Done new -> forall syms, symbols is64 junk file false s = Done syms -> length new = length (numbered keep syms)) ->
  0 <= ctr -> count_tables is64 junk file kind keep l ctr = Done n -> n <> -1 -> n - ctr <= Z.of_nat (length old) ->
  over_tables kind read l old = Done (out, r) -> length out = length old.
Proof.
  intros Hr. revert ctr old. induction l as [|s l IH]; intros ctr old Hc Hn H1 Hle H; cbn [over_tables count_tables] in *; [by simplify_eq|].
  destruct (_ =? kind); [|by eapply IH]. destruct (symbols _ _ _ _ _) as [syms| |] eqn:E; [|by simplify_eq|done].
  destruct (read s) as [new| |] eqn:R; [|by simplify_eq|done]. specialize (Hr s new R syms E).
  assert (G : ctr + Z.of_nat (length (numbered keep syms)) <= n) by (eapply count_grows; [|exact Hn|done]; lia).
  assert (L : length (overwrite new old) = length old) by (unfold overwrite; rewrite length_app, length_drop; lia).
  rewrite <-L. eapply IH; [|exact Hn|done| |exact H]; lia.
Qed.

(** C29: an array with room for the symbols, or the imports, that are counted is never overrun, though the
    counting does not swap the numbers of files in the other order. *)
Theorem symbols_fit b n old out r :
  Z.of_nat (length old) = n ->
  (dietelf_get_symbols_count is64 junk file b = Done n -> dietelf_get_symbols is64 junk file b old = Done (out, r) -> length out = length old) /\
  (dietelf_get_imports_count is64 junk file b = Done n -> dietelf_get_imports is64 junk file b old = Done (out, r) -> length out = length old).
Proof.
  intros Hn. split; intros Hc H.
  - eapply over_tables_fit; [|reflexivity|exact Hc|lia|lia|exact H]. intros s new Hr syms Hs. unfold read_symbols in Hr.
    destruct (strings_of _ _ _ _ _); [|done|done]. cbn [res_bind] in Hr. destruct (symbols _ _ _ (b_endian b) s) as [l| |] eqn:E; [|done|done].
    cbn [res_bind] in Hr. simplify_eq. rewrite length_fmap. eapply symbols_alike; [apply is_symbol_alike|exact E|exact Hs].
  - eapply over_tables_fit; [|reflexivity|exact Hc|lia|lia|exact H]. intros s new Hr syms Hs. unfold read_imports in Hr.
    destruct (strings_of _ _ _ _ _) as [str| |]; [|done|done]. cbn [res_bind] in Hr. destruct (symbols _ _ _ (b_endian b) s) as [l| |] eqn:E; [|done|done].
    cbn [res_bind] in Hr. rewrite <-(symbols_alike _ _ _ _ _ is_import_alike E Hs).
    revert new Hr. generalize (numbered is_import l) as z. induction z as [|[k x] z IH]; intros new Hr; cbn [imports_of] in Hr; [by simplify_eq|].
    destruct (if negb _ then _ else _); [|done|done]. cbn [res_bind] in Hr.
    destruct (imports_of _ _ _ _ _ z) as [new'| |]; [|done|done]. cbn [res_bind] in Hr. simplify_eq. cbn. by rewrite (IH new').
Qed.
End count.

(** A library of 32 bits, big endian: the empty section, a table of symbols with one import and one symbol, their
    names. *)
Definition lib_names : list Z := [0; 97; 0; 98; 0].
Definition lib_syms : list Z :=
  (puts true (sym_ws false) [0; 0; 0; 0; 0; 0] ++ puts true (sym_ws false) [1; 0; 0; 0x12; 0; 0] ++ puts true (sym_ws false) [3; 0x8048010; 7; 0x21; 0; 1])%list.
Definition lib_sections : list Shdr :=
  [null_shdr; ShdrOf 1 SHT_DYNSYM 0 0 204 48 2 0 4 16; ShdrOf 1 3 0 0 252 5 0 0 1 0].
Definition lib_file : list Z :=
  write_elf false true (EhdrOf (small_ident 2) 3 8 1 0 52 84 0 52 32 1 40 3 2) [small_phdr] lib_sections (lib_syms ++ lib_names).
Definition lib_bin : bin_t :=
  Bin true (EhdrOf (small_ident 2) 3 8 1 0 52 84 0 52 32 1 40 3 2) [small_phdr] lib_sections lib_names (-1) 0x8048000 [[]; lib_syms; lib_names].
Definition no_symbol : dietelf_symbol := Symbol 0 0 "" "" "".

Example lib_opens : dietelf_init false (fun _ => 0) lib_file = Done lib_bin.
Proof. vm_compute. done. Qed.
(** A weak symbol has no name for its binding. *)
Example lib_symbols :
  dietelf_get_symbols_count false (fun _ => 0) lib_file lib_bin = Done 1 /\
  dietelf_get_symbols false (fun _ => 0) lib_file lib_bin [no_symbol] = Done ([Symbol 0x10 7 "UNKNOWN" "OBJECT" "b"], 0) /\
  dietelf_get_imports false (fun _ => 0) lib_file lib_bin [no_symbol] = Done ([Symbol 0 0 "GLOBAL" "FUNC" "a"], 0).
Proof. by vm_compute. Qed.

Lemma symbols_fit_witness :
  length [Symbol 0x10 7 "UNKNOWN" "OBJECT" "b"] = length [no_symbol].
Proof.
  destruct (symbols_fit false (fun _ => 0) lib_file (fun _ => Z.le_refl 0)
    (bool_decide_unpack (Forall (fun c => 0 <= c) lib_file) ltac:(vm_compute; exact I)) lib_bin 1 [no_symbol]
    [Symbol 0x10 7 "UNKNOWN" "OBJECT" "b"] 0 eq_refl) as [H _].
  apply H; vm_compute; reflexivity.
Defined.

(** ** The strings of a section *)
Section strings.
Context (junk : nat -> Z) (file : list Z).

Definition printable_at (i : Z) : Prop := exists c, file !! Z.to_nat i = Some c /\ is_printable c = true.
(** Characters from [off] on, as many as there are, that end in front of [hi]. *)
Definition run (lo hi off n : Z) : Prop :=
  lo <= off /\ 0 <= n /\ off + n < hi /\ (forall i, off <= i < off + n -> printable_at i) /\ ~ printable_at (off + n) /\
  (off = lo \/ ~ printable_at (off - 1)).
Definition is_found (x : dietelf_string) (off n : Z) : Prop :=
  g_offset x = off /\ g_size x = n /\ g_string x = text (take (Z.to_nat n) (drop (Z.to_nat off) file)).
Definition found (out : list dietelf_string) (off n : Z) : Prop := exists x, x ∈ out /\ is_found x off n.

Definition strip_inv (lo i : Z) (str : list Z) : Prop :=
  let off := i - Z.of_nat (length str) in
  lo <= off /\ (forall j, off <= j < i -> printable_at j) /\ (off = lo \/ ~ printable_at (off - 1)) /\
  str = take (length str) (drop (Z.to_nat off) file).

Lemma run_end lo hi off n i :
  run lo hi off n -> (forall j, off <= j < i -> printable_at j) -> off <= i -> ~ printable_at i -> n = i - off.
Proof.
  intros (H1 & H2 & H3 & H4 & H5 & H6) Hj Hi Hn. destruct (Z.lt_trichotomy (off + n) i) as [|[|]]; [|lia|].
  - exfalso. apply H5, Hj. lia.
  - exfalso. apply Hn, H4. lia.
Qed.
Lemma run_start lo hi off n lo' i :
  run lo hi off n -> lo <= lo' -> (forall j, lo' <= j < i -> printable_at j) -> lo' <= off <= i -> off = lo'.
Proof.
  intros (H1 & H2 & H3 & H4 & H5 & H6) Hl Hj Hi. destruct H6 as [|H6]; [lia|]. destruct (decide (off = lo')); [done|].
  exfalso. apply H6, Hj. lia.
Qed.

Lemma found_nil off n : ~ found [] off n.
Proof. intros (x & Hx & _). by apply not_elem_of_nil in Hx. Qed.
Lemma found_cons x out off n : found (x :: out) off n <-> is_found x off n \/ found out off n.
Proof.
  unfold found. split.
  - intros (y & Hy & H). apply elem_of_cons in Hy as [->|Hy]; eauto.
  - intros [H|(y & Hy & H)]; [exists x|exists y]; (split; [|done]); [by left|by right].
Qed.

(** Nothing begins from here on when the end is reached. *)
Lemma strip_end lo len i str off n :
  strip_inv lo i str -> len <= i -> i - Z.of_nat (length str) <= off -> ~ run lo len off n.
Proof. intros (I1 & I2 & I3 & I4) Hi Ho (R1 & R2 & R3 & R4 & R5 & R6). apply R5, I2. lia. Qed.

(** What begins from here on, when a character ends what was seen. *)
Lemma strip_cut lo len min i str off n :
  0 < min -> strip_inv lo i str -> i < len -> ~ printable_at i ->
  run lo len off n /\ min <= n /\ i - Z.of_nat (length str) <= off <->
  (off = i - Z.of_nat (length str) /\ n = Z.of_nat (length str) /\ min <= n) \/ (run lo len off n /\ min <= n /\ i + 1 <= off).
Proof.
  intros Hm (I1 & I2 & I3 & I4) Hi Hp. split.
  - intros (R & Hn & Ho). destruct (Z.le_gt_cases off i) as [Hoi|]; [|right; split_and!; [done|done|lia]]. left.
    assert (off = i - Z.of_nat (length str)) as -> by (eapply run_start; [exact R|done|exact I2|lia]).
    assert (n = i - (i - Z.of_nat (length str))) by (eapply run_end; [exact R|done|lia|done]). lia.
  - intros [(-> & -> & Hn)|(R & Hn & Ho)]; [|split_and!; [done|done|lia]]. split_and!; [|done|lia].
    unfold run. split_and!; [done|lia|lia| | |done]; [intros j Hj; apply I2; lia|].
    by replace (i - Z.of_nat (length str) + Z.of_nat (length str)) with i by lia.
Qed.

Lemma strip_loop_ctr fuel min len str_limit i ctr rest str section out ctr' :
  strip_loop junk file fuel min len str_limit i ctr rest str None section = Done (out, ctr') -> ctr' = ctr + Z.of_nat (length out).
Proof.
  revert i ctr rest str out. induction fuel as [|fuel IH]; intros i ctr rest str out H; cbn [strip_loop] in H.
  { simplify_eq. cbn. lia. }
  destruct rest as [|c rest]; [simplify_eq; cbn; lia|].
  repeat match type of H with (if ?b then _ else _) = _ => destruct b end; simplify_eq; try (by eapply IH); [cbn; lia|].
  destruct (strip_loop _ _ _ _ _ _ _ _ _ _ _ _) as [[r c']| |] eqn:E; [|done|done]. cbn in H. simplify_eq.
  apply IH in E. cbn. lia.
Qed.

Lemma strip_loop_found fuel min lo len str_limit i ctr str section out ctr' :
  3 <= min -> 0 <= lo -> len <= fsize file -> fsize file < 2^63 -> fsize file - i <= Z.of_nat fuel -> strip_inv lo i str ->
  strip_loop junk file fuel min len str_limit i ctr (drop (Z.to_nat i) file) str None section = Done (out, ctr') ->
  ctr' < str_limit ->
  forall off n, found out off n <-> run lo len off n /\ min <= n /\ i - Z.of_nat (length str) <= off.
Proof.
  intros Hm Hlo Hlen Hsz. revert i ctr str out. induction fuel as [|fuel IH]; intros i ctr str out Hf Hinv H Hc off n.
  { cbn in H. simplify_eq. split; [by intros ?%found_nil|]. intros (R & _ & Ho). exfalso. eapply strip_end; [exact Hinv| |exact Ho|exact R]. lia. }
  assert (S : len <= i -> found [] off n <-> run lo len off n /\ min <= n /\ i - Z.of_nat (length str) <= off).
  { intros Hi. split; [by intros ?%found_nil|]. intros (R & _ & Ho). exfalso. by eapply strip_end. }
  cbn [strip_loop] in H. destruct (drop (Z.to_nat i) file) as [|c rest] eqn:E.
  { simplify_eq. apply S. apply (f_equal length) in E. rewrite length_drop in E. cbn in E. unfold fsize in *. destruct Hinv. lia. }
  assert (Hi0 : 0 <= i) by (destruct Hinv; lia).
  assert (E1 : file !! Z.to_nat i = Some c) by (rewrite <-(Nat.add_0_r (Z.to_nat i)), <-lookup_drop, E; done).
  assert (E2 : rest = drop (Z.to_nat (i + 1)) file).
  { replace (Z.to_nat (i + 1)) with (Z.to_nat i + 1)%nat by lia. rewrite <-drop_drop, E. done. }
  destruct (Z.ltb_spec i len); cbn [andb negb] in H; [|simplify_eq; by apply S].
  destruct (Z.ltb_spec ctr str_limit); cbn [negb] in H; [|simplify_eq; lia]. clear S. subst rest.
  destruct (is_printable c) eqn:P.
  - destruct (_ =? _)%nat; [done|]. eapply IH in H; [|lia| |done].
    + rewrite H, length_app. cbn [length]. by replace (i + 1 - Z.of_nat (length str + 1)) with (i - Z.of_nat (length str)) by lia.
    + destruct Hinv as (I1 & I2 & I3 & I4). unfold strip_inv. rewrite length_app. cbn [length].
      replace (i + 1 - Z.of_nat (length str + 1)) with (i - Z.of_nat (length str)) by lia.
      assert (str ++ [c] = take (length str + 1) (drop (Z.to_nat (i - Z.of_nat (length str))) file))%list.
      { rewrite Nat.add_1_r, (take_S_r _ _ c); [by rewrite <-I4|]. rewrite lookup_drop. rewrite <-E1. f_equal. lia. }
      split_and!; [done| |done|done]. intros j Hj. destruct (decide (j = i)) as [->|]; [by exists c|apply I2; lia].
  - assert (Np : ~ printable_at i) by (intros (c' & E' & P'); congruence).
    assert (Hinv' : strip_inv lo (i + 1) []).
    { destruct Hinv. unfold strip_inv. cbn [length take]. split_and!; [lia|intros j Hj; lia|right|done]. by replace (i + 1 - Z.of_nat 0 - 1) with i by lia. }
    rewrite (strip_cut lo len min i str off n) by (done || lia).
    assert (Go : forall ctr out, strip_loop junk file fuel min len str_limit (i + 1) ctr (drop (Z.to_nat (i + 1)) file) [] None section = Done (out, ctr') ->
      found out off n <-> run lo len off n /\ min <= n /\ i + 1 <= off).
    { intros ctr1 out1 Hg. eapply IH in Hg; [|lia|done|done]. rewrite Hg. cbn [length]. by replace (i + 1 - Z.of_nat 0) with (i + 1) by lia. }
    destruct (Z.leb_spec min (Z.of_nat (length str))) as [Hn|Hn].
    + destruct (_ =? _)%nat; [done|]. destruct (Z.ltb_spec 2 (Z.of_nat (length str))); [|lia]. cbn [andb] in H.
      destruct (strip_loop _ _ _ _ _ _ _ _ _ _ _ _) as [[r c']| |] eqn:E3; [|done|done]. cbn [res_bind fst snd] in H. simplify_eq.
      rewrite found_cons, (Go _ _ E3). unfold is_found. cbn [g_offset g_size g_string]. destruct Hinv as (I1 & _ & _ & I4).
      rewrite u64_id by (unfold is_u64; lia).
      assert (T : off = i - Z.of_nat (length str) -> n = Z.of_nat (length str) -> text str = text (take (Z.to_nat n) (drop (Z.to_nat off) file)))
        by (intros -> ->; by rewrite Nat2Z.id, <-I4).
      intuition (done || lia).
    + rewrite (Go _ _ H). intuition lia.
Qed.
(** Unless the limit on their number is reached, the strings that are found in a part of a file are the runs
    of at least [min] characters that are not part of longer ones and are ended by another byte in that part,
    each with its place, its size and its text, and they are counted. *)
Theorem strings_found min seek limit section str_limit ctr out ctr' :
  3 <= min -> 0 <= seek -> fsize file < 2^63 ->
  aux_stripstr_from_file junk file min seek limit None section str_limit ctr = Done (out, ctr') -> ctr' < str_limit ->
  let len := if negb (limit =? 0) && (limit <? fsize file) then limit else fsize file in
  (forall off n, found out off n <-> run seek len off n /\ min <= n) /\ ctr' = ctr + Z.of_nat (length out).
Proof.
  intros Hm Hs Hz H Hc len. unfold aux_stripstr_from_file in H. rewrite (proj2 (Z.ltb_ge min 1)) in H by lia. fold len in H.
  assert (Hlen : len <= fsize file) by (unfold len; destruct (negb _); cbn [andb]; [destruct (Z.ltb_spec limit (fsize file)); lia|lia]).
  destruct (Z.ltb_spec seek len) as [Hlt|Hge].
  - split; [|by eapply strip_loop_ctr]. intros off n. eapply strip_loop_found in H; [|done|exact Hs|done|done| | |done].
    + rewrite H. cbn [length]. split; [by intros (? & ? & _)|]. intros [R Hn]. split_and!; [done|done|]. destruct R. lia.
    + unfold fsize. lia.
    + unfold strip_inv. cbn [length take]. split_and!; [lia|intros j Hj; lia|left; lia|done].
  - simplify_eq. split; [|cbn; lia]. intros off n. split; [by intros ?%found_nil|]. intros [(R1 & R2 & R3 & _) _]. lia.
Qed.
End strings.

Definition some_text : list Z := [0; 104; 101; 108; 108; 111; 0; 97; 98; 0; 120; 121; 122].
Lemma strings_found_witness :
  (forall off n, found some_text [Str ".rodata" 1 "A" 5 "hello"] off n <-> run some_text 0 13 off n /\ 3 <= n) /\ 1 = 0 + 1.
Proof.
  apply (strings_found (fun _ => 0) some_text 3 0 0 ".rodata" 10 0 [Str ".rodata" 1 "A" 5 "hello"] 1);
    vm_compute; (reflexivity || congruence).
Defined.

(** A text of 256 characters is written behind the buffer. *)
Example long_string : aux_stripstr_from_file (fun _ => 0) (replicate 256 65 ++ [0]) 3 0 0 None "" 10 0 = Wild.
Proof. vm_compute. done. Qed.
(** The headers of a program are looked for three places behind the first one. *)
Example fields_off_by_three :
  (x_vaddr <$> dietelf_get_fields false (fun _ => 0) (Bin false (small_ehdr 1) [small_phdr] [] [] (-1) 0x8048000 []))
    = [0; 0x8048054; 0x8048034; 0] /\ p_vaddr small_phdr = 0x8048000.
Proof. by vm_compute. Qed.
