(* ===== verification/Pe.v ===== *)
(** * Files in PE: [src/rabin/dietpe.c]

    Compiled for the two classes like [dietelf.c]; files, memory and results are those of [Elf].  What is read is not
    compared with what was asked for: behind the end of the file a buffer keeps what it held.  [Wild] is also a
    loop that never ends, on a table that the file is too short to close. *)
From S2P Require Import Prelude Utils Elf.
#[local] Open Scope string_scope.
#[local] Open Scope Z_scope.

(** ** Records *)
Record dos_header := Dos { e_magic : list Z; e_lfanew : Z }.
Record nt_headers := Nt {
  n_signature : list Z; n_machine : Z; n_sections : Z; n_characteristics : Z; n_magic : Z; n_entry : Z; n_base : Z;
  n_section_align : Z; n_file_align : Z; n_image_size : Z; n_subsystem : Z; n_dirs : list (Z * Z) }.
Record section_header := Sec {
  c_name : list Z; c_vsize : Z; c_vaddr : Z; c_rawsize : Z; c_rawptr : Z; c_characteristics : Z }.

Definition PE_NAME_LENGTH : nat := 256.
Definition DIR_EXPORT : nat := 0.
Definition DIR_IMPORT : nat := 1.
Definition DIR_DELAY_IMPORT : nat := 13.

Definition arch_names : list (Z * string) :=
  [(0x184, "alpha"); (0x284, "alpha"); (0x1c0, "arm"); (0x1c2, "arm"); (0x268, "m68k"); (0x266, "mips");
   (0x366, "mips"); (0x466, "mips"); (0x169, "mips"); (0x1f0, "ppc"); (0x1f1, "ppc"); (0x8664, "intel64");
   (0x200, "intel64")].
Definition machine_names : list (Z * string) :=
  [(0x184, "Alpha"); (0x284, "Alpha 64"); (0x1d3, "AM33"); (0x8664, "AMD 64"); (0x1c0, "ARM");
   (0xc0ee, "CEE"); (0xcef, "CEF"); (0xebc, "EBC"); (0x14c, "i386"); (0x200, "ia64"); (0x9041, "M32R");
   (0x268, "M68K"); (0x266, "Mips 16"); (0x366, "Mips FPU"); (0x466, "Mips FPU 16"); (0x1f0, "PowerPC");
   (0x1f1, "PowerPC FP"); (0x168, "R10000"); (0x162, "R3000"); (0x166, "R4000"); (0x1a2, "SH3");
   (0x1a3, "SH3DSP"); (0x1a4, "SH3E"); (0x1a6, "SH4"); (0x1a8, "SH5"); (0x1c2, "Thumb");
   (0x520, "Tricore"); (0x169, "WCE Mips V2")].
Definition os_names : list (Z * string) :=
  [(0x1, "native"); (0x2, "windows"); (0x3, "windows"); (0x9, "windows"); (0x7, "posix"); (0xa, "efi");
   (0xb, "efi"); (0xc, "efi"); (0xd, "efi"); (0xe, "xbox")].
Definition subsystem_names : list (Z * string) :=
  [(0x0, "Unknown"); (0x1, "Native"); (0x2, "Windows GUI"); (0x3, "Windows CUI"); (0x7, "POSIX CUI");
   (0x9, "Windows CE GUI"); (0xa, "EFI Application"); (0xb, "EFI Boot Service Driver");
   (0xc, "EFI Runtime Driver"); (0xd, "EFI ROM"); (0xe, "XBOX")].

Section pe.
Context (is64 : bool) (junk : nat -> Z) (file : list Z).

(** The width of [PE_DWord]. *)
Definition DW : nat := if is64 then 8 else 4.
Definition dw (z : Z) : Z := if is64 then u64 z else u32 z.
Definition ILT_MASK1 : Z := if is64 then 0x8000000000000000 else 0x80000000.
Definition ILT_MASK2 : Z := if is64 then 0x7fffffffffffffff else 0x7fffffff.

Definition opt_ws : list nat :=
  if is64 then [2; 1; 1; 4; 4; 4; 4; 4; 8; 4; 4; 2; 2; 2; 2; 2; 2; 4; 4; 4; 4; 2; 2; 8; 8; 8; 8; 4; 4]%nat
  else [2; 1; 1; 4; 4; 4; 4; 4; 4; 4; 4; 4; 2; 2; 2; 2; 2; 2; 4; 4; 4; 4; 2; 2; 4; 4; 4; 4; 4; 4]%nat.
Definition nt_ws : list nat := ([4; 2; 2; 4; 4; 4; 2; 2] ++ opt_ws ++ replicate 32 4)%nat%list.
Definition NTSIZE : nat := size_of nt_ws.

Definition nt_of (bytes : list Z) : nt_headers :=
  let f i := nth i (fields false nt_ws bytes) 0 in
  let b := (if is64 then 16 else 17)%nat in
  let d := (if is64 then 37 else 38)%nat in
  Nt (take 4 bytes) (f 1%nat) (f 2%nat) (f 7%nat) (f 8%nat) (f 14%nat) (f b) (f (b + 1)%nat) (f (b + 2)%nat) (f (b + 10)%nat) (f (b + 13)%nat)
     ((fun i => (f (d + 2 * i)%nat, f (d + 2 * i + 1)%nat)) <$> seq 0 16).
Definition sec_ws : list nat := [8; 4; 4; 4; 4; 4; 4; 2; 2; 4]%nat.
Definition sec_of (bytes : list Z) : section_header :=
  let f i := nth i (fields false sec_ws bytes) 0 in
  Sec (take 8 bytes) (f 1%nat) (f 2%nat) (f 3%nat) (f 4%nat) (f 9%nat).

Record obj := Obj { o_dos : dos_header; o_nt : nt_headers; o_sections : list section_header }.

(** ** [dietpe_init] *)
Definition dietpe_init : res obj :=
  let len := fsize file in
  let d := slice junk (read_some file 0 64) 0 64 in
  let dos := Dos (take 2 d) (le_value (take 4 (drop 60 d))) in
  if len <? e_lfanew dos then Fail
  else
    let nt := nt_of (slice junk (read_some file (e_lfanew dos) (Z.of_nat NTSIZE)) 0 NTSIZE) in
    if negb (bool_decide (e_magic dos = [77; 90])) then Fail
    else if negb (bool_decide (take 2 (n_signature nt) = [80; 69])) then Fail
    else
      let size := Z.of_nat (size_of sec_ws) * n_sections nt in
      if len <? size then Fail
      else
        let got := read_some file (e_lfanew dos + Z.of_nat NTSIZE) size in
        Done (Obj dos nt ((fun i => sec_of (slice junk got (i * size_of sec_ws) (size_of sec_ws))) <$> seq 0 (Z.to_nat (n_sections nt)))).

(** ** Addresses *)
Definition in_virtual (rva : Z) (s : section_header) : bool :=
  (c_vaddr s <=? rva) && (rva <? dw (c_vaddr s + s32 (c_vsize s))).
Definition in_raw (offset : Z) (s : section_header) : bool :=
  (c_rawptr s <=? offset) && (offset <? dw (c_rawptr s + s32 (c_rawsize s))).
Definition rva_to_offset (b : obj) (rva : Z) : Z :=
  match list_find (fun s => in_virtual rva s = true) (o_sections b) with
  | Some (_, s) => dw (c_rawptr s + (rva - c_vaddr s))
  | None => 0
  end.
Definition offset_to_rva (b : obj) (offset : Z) : Z :=
  match list_find (fun s => in_raw offset s = true) (o_sections b) with
  | Some (_, s) => dw (c_vaddr s + (offset - c_rawptr s))
  | None => 0
  end.

(** ** Reading into a buffer *)
Definition read_into (pos n : Z) (old : list Z) : list Z :=
  let got := read_some file pos n in (got ++ drop (length got) old)%list.
Definition stack : list Z := slice junk [] 0 PE_NAME_LENGTH.
(** A name that ends in the buffer or behind it, cut by [snprintf]. *)
Definition name (buf : list Z) : string := cstr junk (PE_NAME_LENGTH - 1) buf 0.
Definition cut (s : string) : string := String.substring 0 (PE_NAME_LENGTH - 1) s.
Definition read_name (pos : Z) (old : list Z) : list Z := read_into pos (Z.of_nat PE_NAME_LENGTH) old.

Definition dir (b : obj) (i : nat) : Z * Z := nth i (n_dirs (o_nt b)) (0, 0).

(** ** Exports *)
Record export_directory := Exports { x_name : Z; x_names : Z; x_functions : Z; x_nametab : Z; x_ordinals : Z }.
Definition export_ws : list nat := [4; 4; 2; 2; 4; 4; 4; 4; 4; 4; 4]%nat.
Definition dietpe_init_exports (b : obj) : option export_directory :=
  let off := rva_to_offset b (fst (dir b DIR_EXPORT)) in
  if off =? 0 then None
  else
    let f i := nth i (fields false export_ws (slice junk (read_some file off 40) 0 40)) 0 in
    Some (Exports (f 4%nat) (f 7%nat) (f 8%nat) (f 9%nat) (f 10%nat)).

Record dietpe_export := Export { t_rva : Z; t_offset : Z; t_ordinal : Z; t_forwarder : string; t_name : string }.
(** The variables on the stack: the address, the ordinal, the address of the name, the names. *)
Record export_st := ExportSt { v_rva : list Z; v_ordinal : list Z; v_name_rva : list Z; v_function : list Z; v_forwarder : list Z }.
Definition text_bytes (s : string) : list Z := (ord <$> list_ascii_of_string s) ++ [0].
Definition store (s : string) (old : list Z) : list Z := (text_bytes s ++ drop (length (text_bytes s)) old)%list.

Definition export_step (b : obj) (x : export_directory) (dll : list Z) (i : Z) (v : export_st) : export_st * dietpe_export :=
  let at_ rva := u32 (rva_to_offset b rva) in
  let v_rva := read_into (at_ (x_functions x) + i * 4) 4 (v_rva v) in
  let v_ord := read_into (at_ (x_ordinals x) + i * 2) 2 (v_ordinal v) in
  let v_nrva := read_into (at_ (x_nametab x) + i * 4) 4 (v_name_rva v) in
  let name_offset := at_ (le_value v_nrva) in
  let function := if negb (name_offset =? 0) then read_name name_offset (v_function v)
                  else store ("Ordinal_" +:+ fmt_d (le_value v_ord)) (v_function v) in
  let rva := le_value v_rva in
  let '(base, size) := dir b DIR_EXPORT in
  let forwarder := if (base <=? rva) && (rva <? u32 (base + size)) then read_name (rva_to_offset b rva) (v_forwarder v)
                   else store "NONE" (v_forwarder v) in
  (ExportSt v_rva v_ord v_nrva function forwarder,
   Export rva (rva_to_offset b rva) (le_value v_ord) (name forwarder) (cut (name dll +:+ "_" +:+ name function))).
Fixpoint export_loop (n : nat) (b : obj) (x : export_directory) (dll : list Z) (i : Z) (v : export_st) : list dietpe_export :=
  match n with
  | O => []
  | S n' => let '(v, e) := export_step b x dll i v in e :: export_loop n' b x dll (i + 1) v
  end.
(** [None] is the error return. *)
Definition dietpe_get_exports (b : obj) : option (list dietpe_export) :=
  match dietpe_init_exports b with
  | None => None
  | Some x =>
    let dll := read_name (rva_to_offset b (x_name x)) stack in
    Some (export_loop (Z.to_nat (x_names x)) b x dll 0 (ExportSt (take 4 stack) (take 2 stack) (take 4 stack) stack stack))
  end.
Definition dietpe_get_exports_count (b : obj) : Z :=
  match dietpe_init_exports b with Some x => s32 (x_names x) | None => 0 end.

(** ** Imports *)

(** The entries of a table up to a zero; [last] is what the variable holds when nothing more can be read. *)
Fixpoint thunks (fuel : nat) (off i last : Z) : res (list Z) :=
  match fuel with
  | O => Wild
  | S fuel' =>
    let v := le_value (read_into (off + i * Z.of_nat DW) (Z.of_nat DW) (le_bytes DW last)) in
    if v =? 0 then Done [] else let? l := thunks fuel' off (i + 1) v in Done (v :: l)
  end.
(** One more than there is room for in the file. *)
Definition thunk_fuel : nat := S (S (length file)).

Definition import_ws : list nat := [4; 4; 4; 4; 4]%nat.
Definition delay_ws : list nat := [4; 4; 4; 4; 4; 4; 4; 4]%nat.
Record import_dir := Import_dir { i_name : Z; i_table : Z; i_thunk : Z }.
Definition import_dir_of (l : list Z) : import_dir := Import_dir (nth 3 l 0) (nth 0 l 0) (nth 4 l 0).
Definition delay_dir_of (l : list Z) : import_dir := Import_dir (nth 1 l 0) (nth 4 l 0) (nth 3 l 0).

(** The two tables: where one is, if it is anywhere, and how many entries it should have. *)
Definition dir_offset (b : obj) (which : nat) : Z := rva_to_offset b (fst (dir b which)).
Definition dirs_at (b : obj) (which : nat) : option (list Z) :=
  let size := s32 (snd (dir b which)) in
  if (dir_offset b which =? 0) || (size <? 0) then None else Some (read_some file (dir_offset b which) size).
Definition dirs_count (b : obj) (which : nat) (ws : list nat) : Z := s32 (snd (dir b which) / Z.of_nat (size_of ws) - 1).
(** A table that is nowhere, or too large for the memory, is read through a null pointer. *)
Definition dirs (b : obj) (which : nat) (ws : list nat) (mk : list Z -> import_dir) : res (list import_dir) :=
  let n := Z.to_nat (dirs_count b which ws) in
  match dirs_at b which with
  | Some got => Done ((fun i => mk (entry junk false ws got i)) <$> seq 0 n)
  | None => if (n =? 0)%nat then Done [] else Wild
  end.
Definition has_imports (b : obj) : bool := negb (dir_offset b DIR_IMPORT =? 0) || negb (dir_offset b DIR_DELAY_IMPORT =? 0).
Definition import_dirs (b : obj) : res (list import_dir) := dirs b DIR_IMPORT import_ws import_dir_of.
Definition delay_dirs (b : obj) : res (list import_dir) := dirs b DIR_DELAY_IMPORT delay_ws delay_dir_of.

Definition table_at (b : obj) (d : import_dir) : Z :=
  let off := rva_to_offset b (i_table d) in if off =? 0 then rva_to_offset b (i_thunk d) else off.

Record dietpe_import := Import { m_name : string; m_rva : Z; m_offset : Z; m_hint : Z; m_ordinal : Z }.

(** The entries of one library; the hint and the name stay on the stack from one to the next. *)
Fixpoint entries (b : obj) (dll : list Z) (thunk i : Z) (hint nm : list Z) (l : list Z) : list dietpe_import :=
  match l with
  | [] => []
  | v :: l' =>
    let rva := thunk + i * Z.of_nat DW in
    let off := rva_to_offset b thunk + i * Z.of_nat DW in
    if negb (Z.land v ILT_MASK1 =? 0) then
      let ordinal := u16 (Z.land v ILT_MASK2) in
      Import (cut (name dll +:+ "_Ordinal_" +:+ fmt_d ordinal)) rva off 0 ordinal :: entries b dll thunk (i + 1) [0; 0] nm l'
    else
      let pos := rva_to_offset b v in
      let got := read_some file pos 2 in
      let hint := read_into pos 2 hint in
      let nm := read_name (pos + Z.of_nat (length got)) nm in
      Import (cut (name dll +:+ "_" +:+ name nm)) rva off (le_value hint) 0 :: entries b dll thunk (i + 1) hint nm l'
  end.
Definition dietpe_parse_imports (b : obj) (dll : list Z) (d : import_dir) : res (list dietpe_import) :=
  let off := table_at b d in
  if off =? 0 then Done []
  else let? l := thunks thunk_fuel off 0 0 in Done (entries b dll (i_thunk d) 0 (take 2 stack) stack l).
(** The libraries up to one without imports. *)
Fixpoint imports_loop (b : obj) (dll : list Z) (l : list import_dir) : res (list dietpe_import * list Z) :=
  match l with
  | [] => Done ([], dll)
  | d :: l' =>
    let dll := read_name (rva_to_offset b (i_name d)) dll in
    let? new := dietpe_parse_imports b dll d in
    match new with
    | [] => Done ([], dll)
    | _ => let? r := imports_loop b dll l' in Done ((new ++ fst r)%list, snd r)
    end
  end.
(** [Fail] is the error return, before anything is written. *)
Definition dietpe_get_imports (b : obj) : res (list dietpe_import) :=
  if negb (has_imports b) then Fail
  else
    let? ds := import_dirs b in
    let? r := imports_loop b stack ds in
    let? ds' := delay_dirs b in
    let? r' := imports_loop b (snd r) ds' in Done (fst r ++ fst r')%list.

Fixpoint count_loop (b : obj) (l : list import_dir) (n : Z) : res Z :=
  match l with
  | [] => Done n
  | d :: l' =>
    let off := table_at b d in
    if off =? 0 then Done n
    else let? t := thunks thunk_fuel off 0 0 in count_loop b l' (n + Z.of_nat (length t))
  end.
Definition dietpe_get_imports_count (b : obj) : res Z :=
  if negb (has_imports b) then Done 0
  else
    let? ds := import_dirs b in
    let? n := count_loop b ds 0 in
    let? ds' := delay_dirs b in count_loop b ds' n.

(** ** Libraries *)
Fixpoint libs_loop (b : obj) (limit ctr : Z) (dll : list Z) (l : list import_dir) : list string * list Z :=
  match l with
  | [] => ([], dll)
  | d :: l' =>
    if ctr <? limit then
      let dll := read_name (rva_to_offset b (i_name d)) dll in
      let '(r, dll') := libs_loop b limit (ctr + 1) dll l' in (name dll :: r, dll')
    else ([], dll)
  end.
Definition dietpe_get_libs (b : obj) (limit : Z) : res (list string) :=
  if negb (has_imports b) then Fail
  else
    let? ds := import_dirs b in
    let '(r, dll) := libs_loop b limit 0 stack ds in
    let ctr := Z.of_nat (length r) in
    if limit <=? ctr then Done r
    else let? ds' := delay_dirs b in Done (r ++ fst (libs_loop b limit ctr dll ds'))%list.

(** ** Sections and strings *)
Record dietpe_section := PeSection { q_name : string; q_size : Z; q_vsize : Z; q_rva : Z; q_offset : Z; q_characteristics : Z }.
Definition dietpe_get_sections (b : obj) : list dietpe_section :=
  (fun s => PeSection (cstr junk 7 (c_name s) 0) (c_rawsize s) (c_vsize s) (c_vaddr s) (c_rawptr s) (c_characteristics s)) <$> o_sections b.
Definition dietpe_get_sections_count (b : obj) : Z := n_sections (o_nt b).

(** The scanner of [Elf] with the address of every string; the limit is the same for every section. *)
Fixpoint pe_strings_loop (b : obj) (str_limit : Z) (l : list section_header) (ctr : Z) (out : list (Z * list (Z * dietelf_string)))
    : res (list (Z * list (Z * dietelf_string)) * Z) :=
  match l with
  | [] => Done (out, ctr)
  | s :: l' =>
    let? r := aux_stripstr_from_file junk file 5 (c_rawptr s) (u32 (c_rawptr s + c_rawsize s)) None
                (cstr junk ELF_STRING_LENGTH (c_name s) 0) str_limit ctr in
    pe_strings_loop b str_limit l' (snd r) (out ++ [(ctr, (fun x => (offset_to_rva b (dw (g_offset x)), x)) <$> fst r)])%list
  end.
Definition dietpe_get_strings (b : obj) (str_limit ctr : Z) := pe_strings_loop b str_limit (o_sections b) ctr [].

(** ** Questions about the header *)
Definition dietpe_get_arch (b : obj) : string := default "intel" (name_of (n_machine (o_nt b)) arch_names).
Definition dietpe_get_machine (b : obj) : string := default "unknown" (name_of (n_machine (o_nt b)) machine_names).
Definition dietpe_get_os (b : obj) : string := default "unknown" (name_of (n_subsystem (o_nt b)) os_names).
(** The text is left as it was when the value has no name. *)
Definition dietpe_get_subsystem (b : obj) : option string := name_of (n_subsystem (o_nt b)) subsystem_names.
Definition dietpe_get_class (b : obj) : option string := name_of (n_magic (o_nt b)) [(0x10b, "PE32"); (0x20b, "PE32+")].
Definition dietpe_get_entrypoint (b : obj) : Z * Z := (n_entry (o_nt b), rva_to_offset b (n_entry (o_nt b))).
Definition dietpe_get_file_alignment (b : obj) : Z := s32 (n_file_align (o_nt b)).
Definition dietpe_get_section_alignment (b : obj) : Z := s32 (n_section_align (o_nt b)).
Definition dietpe_get_image_base (b : obj) : Z := n_base (o_nt b).
Definition dietpe_get_image_size (b : obj) : Z := s32 (n_image_size (o_nt b)).
Definition has_flag (b : obj) (f : Z) : Z := Z.land (n_characteristics (o_nt b)) f.
Definition dietpe_is_dll (b : obj) : Z := has_flag b 0x2000.
Definition dietpe_is_big_endian (b : obj) : Z := has_flag b 0x8000.
Definition dietpe_is_stripped_relocs (b : obj) : Z := has_flag b 0x1.
Definition dietpe_is_stripped_line_nums (b : obj) : Z := has_flag b 0x4.
Definition dietpe_is_stripped_local_syms (b : obj) : Z := has_flag b 0x8.
Definition dietpe_is_stripped_debug (b : obj) : Z := has_flag b 0x200.
End pe.

(** ** Addresses and places *)
Section addresses.
Context (is64 : bool) (b : obj).

(** Sections that do not overlap, in memory or in the file. *)
Definition apart (from size : section_header -> Z) (l : list section_header) : Prop :=
  forall i j s t, l !! i = Some s -> l !! j = Some t -> i <> j -> from s + size s <= from t \/ from t + size t <= from s.
Definition small (s : section_header) : Prop :=
  0 <= c_vaddr s < 2^30 /\ 0 <= c_vsize s < 2^30 /\ 0 <= c_rawptr s < 2^30 /\ 0 <= c_rawsize s < 2^30.

Lemma dw_small z : 0 <= z < 2^31 -> dw is64 z = z.
Proof. intros H. unfold dw. destruct is64; [apply u64_id; unfold is_u64; lia|apply u32_id; unfold is_u32; lia]. Qed.
Lemma in_virtual_small s x : small s -> in_virtual is64 x s = true <-> c_vaddr s <= x < c_vaddr s + c_vsize s.
Proof. intros (A & B & C & D). unfold in_virtual. rewrite s32_id, dw_small by lia. rewrite andb_true_iff, Z.leb_le, Z.ltb_lt. lia. Qed.
Lemma in_raw_small s x : small s -> in_raw is64 x s = true <-> c_rawptr s <= x < c_rawptr s + c_rawsize s.
Proof. intros (A & B & C & D). unfold in_raw. rewrite s32_id, dw_small by lia. rewrite andb_true_iff, Z.leb_le, Z.ltb_lt. lia. Qed.

Lemma find_only {A} (p : A -> bool) l i x :
  l !! i = Some x -> p x = true -> (forall j y, l !! j = Some y -> p y = true -> i = j) ->
  list_find (fun x => p x = true) l = Some (i, x).
Proof.
  intros Hi Hp Hu. apply list_find_Some. split_and!; [done|done|]. intros j y Hj Hlt Hy.
  specialize (Hu j y Hj Hy). lia.
Qed.

(** C31: when sections do not overlap, an address that is backed by bytes of the file leads to a place in it
    and from there back to the address. *)
Theorem rva_roundtrip i s d :
  Forall small (o_sections b) -> apart c_vaddr c_vsize (o_sections b) -> apart c_rawptr c_rawsize (o_sections b) ->
  o_sections b !! i = Some s -> 0 <= d < Z.min (c_vsize s) (c_rawsize s) ->
  rva_to_offset is64 b (c_vaddr s + d) = c_rawptr s + d /\
  offset_to_rva is64 b (rva_to_offset is64 b (c_vaddr s + d)) = c_vaddr s + d.
Proof.
  intros Hs Hv Hr Hi Hd. assert (S := Forall_lookup_1 _ _ _ _ Hs Hi). assert (S' := S). destruct S' as (A & B & C & D).
  assert (E : rva_to_offset is64 b (c_vaddr s + d) = c_rawptr s + d).
  { unfold rva_to_offset. rewrite (find_only _ _ i s); [rewrite dw_small; lia|done|apply in_virtual_small; [done|lia]|].
    intros j t Hj Ht. destruct (decide (i = j)); [done|]. apply in_virtual_small in Ht; [|by eapply Forall_lookup_1].
    destruct (Hv i j s t); [done..| |]; lia. }
  split; [done|]. rewrite E. unfold offset_to_rva.
  rewrite (find_only _ _ i s); [rewrite dw_small; lia|done|apply in_raw_small; [done|lia]|].
  intros j t Hj Ht. destruct (decide (i = j)); [done|]. apply in_raw_small in Ht; [|by eapply Forall_lookup_1].
  destruct (Hr i j s t); [done..| |]; lia.
Qed.
End addresses.

(** ** Counting imports *)
Section count.
Context (is64 : bool) (junk : nat -> Z) (file : list Z).

Lemma entries_length b dll thunk i hint nm l : length (entries is64 junk file b dll thunk i hint nm l) = length l.
Proof. revert i hint nm. induction l as [|v l IH]; intros i hint nm; cbn [entries]; [done|]. destruct (negb _); cbn [length]; by rewrite IH. Qed.

Lemma count_loop_grows b l n m : count_loop is64 file b l n = Done m -> n <= m.
Proof.
  revert n. induction l as [|d l IH]; intros n H; cbn [count_loop] in H; [by simplify_eq|].
  destruct (_ =? 0); [by simplify_eq|]. destruct (thunks _ _ _ _ _ _); [|done|done]. cbn [res_bind] in H. apply IH in H. lia.
Qed.

Lemma imports_counted b l dll out dll' n m :
  imports_loop is64 junk file b dll l = Done (out, dll') -> count_loop is64 file b l n = Done m -> n + Z.of_nat (length out) <= m.
Proof.
  revert dll out n. induction l as [|d l IH]; intros dll out n H Hc; cbn [imports_loop count_loop] in *; [simplify_eq; cbn; lia|].
  unfold dietpe_parse_imports in H. destruct (table_at is64 b d =? 0) eqn:E.
  { cbn [res_bind] in H. simplify_eq. cbn. lia. }
  destruct (thunks _ _ _ _ _ _) as [t| |]; [|done|done]. cbn [res_bind] in *.
  match type of H with context [entries ?a ?b ?c ?d ?e ?f ?g ?h ?i ?j] => assert (L := entries_length d e f g h i j); set (new := entries a b c d e f g h i j) in * end.
  destruct new as [|x rest] eqn:En; [simplify_eq; apply count_loop_grows in Hc; cbn; lia|].
  destruct (imports_loop _ _ _ _ _ l) as [[r dll1]| |] eqn:Ei; [|done|done]. cbn [res_bind fst snd] in H. simplify_eq.
  eapply IH in Ei; [|exact Hc]. cbn [app length] in *. rewrite length_app. lia.
Qed.

(** No more imports are written than are counted. *)
Theorem imports_fit b out n :
  dietpe_get_imports is64 junk file b = Done out -> dietpe_get_imports_count is64 junk file b = Done n ->
  Z.of_nat (length out) <= n.
Proof.
  unfold dietpe_get_imports, dietpe_get_imports_count. destruct (negb _); [done|].
  destruct (import_dirs _ _ _ _) as [ds| |]; [|done|done]. cbn [res_bind].
  destruct (imports_loop _ _ _ _ _ ds) as [[o dll]| |] eqn:E1; [|done|done]. cbn [res_bind fst snd].
  destruct (count_loop _ _ _ ds 0) as [m| |] eqn:E2; [|by destruct (delay_dirs _ _ _ _)|by destruct (delay_dirs _ _ _ _)]. cbn [res_bind].
  destruct (delay_dirs _ _ _ _) as [ds'| |]; [|done|done]. cbn [res_bind].
  destruct (imports_loop _ _ _ _ _ ds') as [[o' dll']| |] eqn:E3; [|done|done]. cbn [res_bind fst snd].
  intros [= <-] E4. eapply imports_counted in E1; [|exact E2]. eapply imports_counted in E3; [|exact E4]. rewrite length_app. lia.
Qed.
End count.

(** A file with one section, which holds the names and tables of an import. *)
Definition pe_word (v : Z) : list Z := le_bytes 4 v.
(** At 0x200 in the file and 0x1000 in memory: the directory, the table, the hint with the name, the library. *)
Definition pe_section : list Z :=
  (concat (pe_word <$> [0x1040; 0; 0; 0x1060; 0x1040; 0; 0; 0; 0; 0; 0; 0; 0; 0; 0; 0])
   ++ concat (pe_word <$> [0x1050; 0x80000007; 0; 0]) ++ [3; 0; 102; 111; 111; 0; 0; 0; 0; 0; 0; 0; 0; 0; 0; 0]
   ++ [107; 51; 50; 0] ++ replicate 300 0)%list.
Definition pe_obj : obj :=
  Obj (Dos [77; 90] 0x40) (Nt [80; 69; 0; 0] 0x14c 1 0 0x10b 0x1000 0x400000 0x1000 0x200 0x2000 3
        ((0, 0) :: (0x1000, 40) :: replicate 14 (0, 0)))
    [Sec [46; 116; 0; 0; 0; 0; 0; 0] 0x1000 0x1000 0x200 0x200 0].
Definition pe_file : list Z := (replicate 0x200 0 ++ pe_section)%list.

Example pe_imports :
  dietpe_get_imports false (fun _ => 0) pe_file pe_obj =
    Done [Import "k32_foo" 0x1040 0x240 3 0; Import "k32_Ordinal_7" 0x1044 0x244 0 7] /\
  dietpe_get_imports_count false (fun _ => 0) pe_file pe_obj = Done 2.
Proof. by vm_compute. Qed.

Lemma imports_fit_witness : 2 <= 2.
Proof.
  apply (imports_fit false (fun _ => 0) pe_file pe_obj
    [Import "k32_foo" 0x1040 0x240 3 0; Import "k32_Ordinal_7" 0x1044 0x244 0 7] 2); vm_compute; reflexivity.
Defined.

Lemma rva_roundtrip_witness :
  rva_to_offset false pe_obj 0x1040 = 0x240 /\ offset_to_rva false pe_obj (rva_to_offset false pe_obj 0x1040) = 0x1040.
Proof.
  apply (rva_roundtrip false pe_obj 0 (Sec [46; 116; 0; 0; 0; 0; 0; 0] 0x1000 0x1000 0x200 0x200 0) 0x40);
    [repeat constructor; done|..|reflexivity|done].
  all: intros i j s t Hi Hj Hij; apply list_lookup_singleton_Some in Hi as [-> _]; by apply list_lookup_singleton_Some in Hj as [-> _].
Defined.

(** A table that is cut off by the end of the file is read for ever. *)
Example pe_no_end : dietpe_get_imports_count false (fun _ => 0) (take 0x248 pe_file) pe_obj = Wild.
Proof. by vm_compute. Qed.
