(* ===== verification/Xrefs.v ===== *)
(** * Calls and jumps to a place in a file: [src/xrefs.c]

    The file is the list of its bytes; the numbers of the options and the offset are arguments.  The host is
    little endian, its pointers have 64 bits and its pages 4096 bytes.  What is searched is the mapping of the file: the
    whole pages of the length that is asked for, with zeros behind the end of the file; [None] is a read outside of it.
    Messages and what [-X] and [-v] print are left out. *)
From S2P Require Import Prelude Utils Rasm.
#[local] Open Scope string_scope.
#[local] Open Scope Z_scope.

Inductive arch_t := ARCH_NULL | ARCH_X86 | ARCH_PPC | ARCH_ARM.
#[export] Instance arch_t_eq_dec : EqDecision arch_t.
Proof. solve_decision. Defined.

(** The settings; [endian] is -1 before it is known. *)
Record conf := Conf { arch : arch_t; endian : Z; gamme : Z; delta : Z; size : Z; range : Z }.
Inductive settings := Again (c : conf) | Ready (c : conf) | Exit.

Definition with_arch (a : arch_t) (e : Z) (c : conf) : conf := Conf a e (gamme c) (delta c) (size c) (range c).
Definition if_unset (e : Z) (c : conf) : Z := if endian c =? -1 then e else endian c.

(** What [mmap] of the first [n] bytes makes readable. *)
Definition pages (n : Z) : Z := (n + 4095) / 4096 * 4096.
Definition mapped (n : Z) (file : list Z) : list Z := take (Z.to_nat (pages n)) (file ++ replicate 4096 0).

Section xrefs.
Context (ma : list Z).

Definition at_bytes (off : nat) (l : list Z) : bool := bool_decide (take (length l) (drop off ma) = l).
Definition byte (i : nat) : option Z := ma !! i.

(** [set_arch_settings]; the place of the header of a PE file is taken for a byte. *)
Definition set_arch_settings (c : conf) : option settings :=
  match arch c with
  | ARCH_PPC => Some (Ready (Conf ARCH_PPC (endian c) 1 1 3 (range c)))
  | ARCH_ARM => Some (Ready (Conf ARCH_ARM (endian c) (u32 (-1)) 1 3 (range c)))
  | ARCH_X86 => Some (Ready (Conf ARCH_X86 (endian c) 1 0 4 (range c)))
  | ARCH_NULL =>
    if at_bytes 0 [0x7f; 0x45; 0x4c; 0x46] then
      match byte 0x12, byte 0x13 with
      | Some a, Some b =>
        let ar := a * 256 + b in
        Some (if ar =? 0x0300 then Again (with_arch ARCH_X86 1 c)
              else if ar =? 0x0014 then Again (with_arch ARCH_PPC (if_unset 0 c) c)
              else if ar =? 0x2800 then Again (with_arch ARCH_ARM (if_unset 1 c) c) else Exit)
      | _, _ => None
      end
    else if at_bytes 0 [0x4d; 0x5a] then
      match byte 0x3c with
      | None => None
      | Some off =>
        let off := Z.to_nat off in
        if at_bytes off [0x50; 0x45; 0; 0] then
          match byte (off + 4), byte (off + 5) with
          | Some a, Some b =>
            let ar := a * 256 + b in
            Some (if ar =? 0x4c01 then Again (with_arch ARCH_X86 1 c)
                  else if ar =? 0xc001 then Again (with_arch ARCH_ARM 1 c) else Ready c)
          | _, _ => None
          end
        else Some (Ready c)
      end
    else Some Exit
  end.
(** The second call always ends the loop. *)
Definition configure (c : conf) : option settings :=
  let ready (c : conf) := Ready (with_arch (arch c) (if_unset 0 c) c) in
  match set_arch_settings c with
  | Some (Again c) => match set_arch_settings c with Some (Ready c) => Some (ready c) | r => r end
  | Some (Ready c) => Some (ready c)
  | r => r
  end.

(** The number that an instruction at [i] would hold, and the bytes it is looked for as. *)
Definition value_at (c : conf) (offset i : Z) : Z := u32 (offset - i + delta c).
Definition operand (c : conf) (value : Z) : Z :=
  match arch c with
  | ARCH_ARM => u32 (value - 8) / 4
  | ARCH_X86 => u32 (value - 5)
  | _ => value
  end.
Definition pattern (c : conf) (value : Z) : list Z :=
  let buf := reverse (le_bytes 4 (operand c value)) in
  let buf := if endian c =? 0 then buf else reverse buf in
  match arch c, buf with
  | ARCH_ARM, [b0; b1; b2; _] => [b0; b0; b1; b2]
  | _, _ => buf
  end.

(** Numbers are not negative, so that a range only lets references forward pass. *)
Definition out_of_range (c : conf) (value : Z) : bool := negb (range c =? 0) && ((0 <? value) && (range c <? value)).

Definition memcmp_at (pos : Z) (l : list Z) : option bool :=
  if pos + Z.of_nat (length l) <=? Z.of_nat (length ma) then Some (at_bytes (Z.to_nat pos) l) else None.

Record match_t := Match { m_value : Z; m_bytes : list Z; m_offset : Z }.
Fixpoint scan (fuel : nat) (c : conf) (offset i : Z) : option (list match_t) :=
  match fuel with
  | O => Some []
  | S fuel' =>
    let value := value_at c offset i in
    if out_of_range c value then scan fuel' c offset (i + 1)
    else if 4 <? size c then None
    else
      let buf := pattern c value in
      let wanted := drop (Z.to_nat (4 - size c)) buf in
      match memcmp_at (i + gamme c) wanted, scan fuel' c offset (i + 1) with
      | Some true, Some r => Some (Match value (take 3 wanted) i :: r)
      | Some false, r => r
      | _, _ => None
      end
  end.

Definition show_match (quite : bool) (m : match_t) : string :=
  if quite then "0x" +:+ fmt_x0 8 (m_offset m) +:+ nl
  else "match value 0x" +:+ fmt_x0 8 (m_value m) +:+ " (" +:+ foldr (fun b s => fmt_x0 2 b +:+ s) EmptyString (m_bytes m)
       +:+ ") at offset 0x" +:+ fmt_x0 8 (u32 (m_offset m)) +:+ nl.
End xrefs.

(** [main] behind the options: [None] also for a file that is too short, or of no known kind.  The length that is mapped
    and searched is the one of the file without the size asked for on the command line. *)
Definition xrefs (file : list Z) (c : conf) (base offset from to : Z) : option (list match_t) :=
  let offset := if base <=? offset then offset - base else offset in
  let sa := u32 (Z.of_nat (length file) - size c) in
  if sa <? 0x50 then None
  else
    let ma := mapped sa file in
    match configure ma c with
    | Some (Ready c) => scan ma (Z.to_nat (Z.min sa to - from)) c offset from
    | _ => None
    end.

(** ** What is found *)

(** The settings for x86: the order is 1 in a file that is recognised or with [-e], and 0 with [-a x86] alone. *)
Definition x86_conf (order reach : Z) : conf := Conf ARCH_X86 order 1 0 4 reach.
(** The four bytes of a number in an order. *)
Definition in_order (order v : Z) : list Z := if order =? 0 then reverse (le_bytes 4 v) else le_bytes 4 v.
(** A place whose next four bytes lead an instruction of five bytes to the target. *)
Definition leads (file : list Z) (order reach target j : Z) : Prop :=
  (reach = 0 \/ u32 (target - j) <= reach) /\ take 4 (drop (Z.to_nat (j + 1)) file) = in_order order (u32 (target - j - 5)).

Lemma x86_value order reach target i : value_at (x86_conf order reach) target i = u32 (target - i).
Proof. unfold value_at. f_equal. cbn. lia. Qed.
Lemma x86_pattern order reach target i :
  pattern (x86_conf order reach) (u32 (target - i)) = in_order order (u32 (target - i - 5)).
Proof.
  unfold pattern, operand, in_order, x86_conf. cbn [arch endian].
  replace (u32 (u32 (target - i) - 5)) with (u32 (target - i - 5)) by (unfold u32; by rewrite Zminus_mod_idemp_l).
  destruct (order =? 0); [done|apply reverse_involutive].
Qed.
Lemma in_order_length order v : length (in_order order v) = 4%nat.
Proof. unfold in_order. destruct (order =? 0); by rewrite ?length_reverse, le_bytes_length. Qed.
Lemma x86_range order reach v : 0 <= reach -> 0 <= v ->
  out_of_range (x86_conf order reach) v = false <-> reach = 0 \/ v <= reach.
Proof.
  intros Hr Hv. unfold out_of_range. cbn [range x86_conf]. rewrite andb_false_iff, negb_false_iff, Z.eqb_eq, andb_false_iff, !Z.ltb_ge. lia.
Qed.

Lemma pages_bounds n : 0 <= n -> n <= pages n <= n + 4095.
Proof. unfold pages. intros. Z.div_mod_to_equations. lia. Qed.
Lemma mapped_length n file : 0 <= n <= Z.of_nat (length file) -> Z.of_nat (length (mapped n file)) = pages n.
Proof.
  intros H. pose proof (pages_bounds n). unfold mapped. rewrite length_take, length_app, length_replicate. lia.
Qed.
(** What is read of the file through the mapping is in the file. *)
Lemma mapped_bytes n file k m : (k + m <= length file)%nat -> Z.of_nat (k + m) <= pages n ->
  take m (drop k (mapped n file)) = take m (drop k file).
Proof.
  intros H1 H2. unfold mapped. rewrite skipn_firstn_comm, take_take, Nat.min_l by lia.
  rewrite drop_app_le by lia. by rewrite take_app_le by (rewrite length_drop; lia).
Qed.

Section exact.
Context (file : list Z) (n order reach target last : Z).
Context (Hr : 0 <= reach) (Hn : 0 <= n) (Hfile : last + 4 <= Z.of_nat (length file)) (Hlen : n <= Z.of_nat (length file)).
Notation scan' := (scan (mapped n file)).

Lemma scan_turn fuel i : 0 <= i < last -> i + 5 <= pages n ->
  scan' (S fuel) (x86_conf order reach) target i =
    (r ← scan' fuel (x86_conf order reach) target (i + 1);
     Some (if bool_decide (leads file order reach target i)
           then Match (u32 (target - i)) (take 3 (in_order order (u32 (target - i - 5)))) i :: r else r)).
Proof.
  intros Hi Hp. cbn [scan]. rewrite x86_value. assert (Hu : 0 <= u32 (target - i)) by (unfold u32; by apply Z.mod_pos_bound).
  pose proof (x86_range order reach (u32 (target - i)) Hr Hu) as Hx.
  destruct (out_of_range _ _) eqn:Er.
  { rewrite bool_decide_eq_false_2; [by destruct (scan' fuel _ _ _)|]. intros [Hin _]. by apply Hx in Hin. }
  pose proof (proj1 Hx eq_refl) as Hin. change (4 <? size (x86_conf order reach)) with false. cbv iota zeta.
  rewrite x86_pattern. change (drop (Z.to_nat (4 - size (x86_conf order reach))) ?l) with l. change (gamme (x86_conf order reach)) with 1.
  unfold memcmp_at. rewrite in_order_length, mapped_length, (proj2 (Z.leb_le _ _)) by lia.
  unfold at_bytes. rewrite in_order_length, mapped_bytes by lia.
  destruct (scan' fuel _ _ _) as [r|]; [cbn [mbind option_bind]|by destruct (bool_decide _)].
  rewrite (bool_decide_ext _ (leads file order reach target i)); [by destruct (bool_decide _)|]. unfold leads. tauto.
Qed.

Lemma scan_spec fuel : forall i, 0 <= i -> (0 < Z.of_nat fuel -> i + Z.of_nat fuel <= last /\ i + Z.of_nat fuel + 4 <= pages n) ->
  exists l, scan' fuel (x86_conf order reach) target i = Some l /\
    forall j, j ∈ (m_offset <$> l) <-> i <= j < i + Z.of_nat fuel /\ leads file order reach target j.
Proof.
  induction fuel as [|fuel IH]; intros i Hi Hp.
  { exists []. split; [done|]. intros j. split; [by intros ?%elem_of_nil|lia]. }
  rewrite scan_turn by lia. destruct (IH (i + 1)) as (l & -> & H); [lia..|]. cbn [mbind option_bind]. eexists. split; [reflexivity|].
  intros j. case_bool_decide as E.
  - rewrite fmap_cons, elem_of_cons, H. cbn [m_offset].
    destruct (decide (j = i)) as [->|]; [split; [intros _; split; [lia|done]|by left]|].
    split; [intros [?|[? ?]]; [done|split; [lia|done]]|intros [? ?]; right; split; [lia|done]].
  - rewrite H. destruct (decide (j = i)) as [->|]; [split; [lia|by intros []]|]. split; intros [? ?]; (split; [lia|done]).
Qed.

(** Nothing is left out of a search that is not limited: reading behind the mapping ends it. *)
Lemma scan_outside fuel : reach = 0 -> forall i, 0 <= i -> i + Z.of_nat fuel <= last -> (0 < fuel)%nat -> pages n < i + Z.of_nat fuel + 4 ->
  scan' fuel (x86_conf order reach) target i = None.
Proof.
  intros H0. induction fuel as [|fuel IH]; intros i Hi Hl Hf Hp; [lia|].
  destruct (decide (i + 5 <= pages n)) as [Hin|Hout].
  - rewrite scan_turn by lia. rewrite IH; [done|lia..].
  - cbn [scan]. rewrite x86_value. assert (0 <= u32 (target - i)) by (unfold u32; by apply Z.mod_pos_bound).
    rewrite (proj2 (x86_range order reach _ Hr H)) by by left.
    change (4 <? size (x86_conf order reach)) with false. cbv iota zeta. rewrite x86_pattern.
    change (drop (Z.to_nat (4 - size (x86_conf order reach))) ?l) with l. change (gamme (x86_conf order reach)) with 1.
    unfold memcmp_at. rewrite in_order_length, mapped_length, (proj2 (Z.leb_gt _ _)) by lia. done.
Qed.
End exact.

Lemma le4_bytes v : le4 v = le_bytes 4 (u32 v).
Proof.
  unfold le4, u8, u32. cbn [le_bytes]. rewrite !Z.shiftr_div_pow2 by lia.
  change (2^8) with 256; change (2^16) with 65536; change (2^24) with 16777216; change (2^32) with 4294967296.
  repeat match goal with |- cons _ _ = cons _ _ => apply (f_equal2 cons) end; [..|done]; Z.div_mod_to_equations; lia.
Qed.
Lemma le_bytes_u64 v : le_bytes 4 (u32 (u64 v)) = le_bytes 4 (u32 v).
Proof. f_equal. unfold u32, u64. apply Z.mod_mod_divide. by exists (2^32). Qed.

(** C35: in a file that has 0x50 bytes to 2 gigabytes besides the size given, four at least, with the settings for x86,
    whichever the order and the range, exactly the places of the part searched are found whose next four bytes, in that
    order, lead an instruction of five bytes to the target and whose distance, as a number without a sign, is in the
    range; the call to the target that the assembler writes is one of them when the order is the one of x86. This needs
    the four bytes behind the last place to be in the whole pages of the part mapped; where they are not (the length
    mapped fills its pages but for less than four bytes) the search without a range reads behind the mapping. *)
Theorem xrefs_exact file base offset from to c order reach :
  let sa := Z.of_nat (length file) - size c in
  let target := if base <=? offset then offset - base else offset in
  let last := Z.min sa to in
  configure (mapped sa file) c = Some (Ready (x86_conf order reach)) ->
  0 <= from -> 4 <= size c -> 0x50 <= sa < 2^31 -> 0 <= reach ->
  (last + 4 <= pages sa \/ last <= from ->
    exists l, xrefs file c base offset from to = Some l /\
      (forall j, j ∈ (m_offset <$> l) <-> from <= j < last /\ leads file order reach target j) /\
      (forall get_math i arg bs, x86_call get_math i arg = Some (5, bs) -> get_math arg = Some target -> order <> 0 ->
        from <= i < last -> reach = 0 \/ u32 (target - i) <= reach -> take 5 (drop (Z.to_nat i) file) = bs -> i ∈ (m_offset <$> l))) /\
  (from < last -> pages sa < last + 4 -> reach = 0 -> xrefs file c base offset from to = None).
Proof.
  intros sa target last Hc Hf Hs Hsa Hr. assert (Ex : xrefs file c base offset from to =
    scan (mapped sa file) (Z.to_nat (last - from)) (x86_conf order reach) target from).
  { unfold xrefs. fold sa. rewrite u32_id by (unfold is_u32; lia). rewrite (proj2 (Z.ltb_ge _ _)) by lia. by rewrite Hc. }
  rewrite Ex. split.
  - intros Hp. destruct (scan_spec file sa order reach target last) with (fuel := Z.to_nat (last - from)) (i := from)
      as (l & E & H); try lia.
    exists l. split; [exact E|].
    assert (R : forall j, j ∈ (m_offset <$> l) <-> from <= j < last /\ leads file order reach target j).
    { intros j. rewrite H. split; intros [? ?]; (split; [lia|done]). }
    split; [exact R|]. intros get_math i arg bs Hx Hg Ho Hi Hreach Hb. apply R. split; [done|]. split; [done|].
    unfold x86_call in Hx. rewrite Hg in Hx. cbn [mbind option_bind] in Hx.
    destruct (target =? 0); [by destruct (reg_code arg); simplify_eq|]. simplify_eq.
    unfold in_order. rewrite (proj2 (Z.eqb_neq order 0)) by done. rewrite <-le_bytes_u64, <-le4_bytes.
    replace (Z.to_nat (i + 1)) with (Z.to_nat i + 1)%nat by lia. rewrite <-drop_drop.
    destruct (drop (Z.to_nat i) file) as [|x rest]; [done|]. apply (f_equal tail) in Hx. symmetry. exact Hx.
  - intros H1 H2 H3. apply (scan_outside file sa order reach target last); lia.
Qed.

Definition some_elf : list Z :=
  ([0x7f; 0x45; 0x4c; 0x46] ++ replicate 14 0 ++ [3; 0] ++ replicate 80 0 ++ [0xe8; 0x97; 0xff; 0xff; 0xff] ++ replicate 3 0)%list.

Example xrefs_example :
  xrefs some_elf (Conf ARCH_NULL (-1) 0 0 4 0) 0 0 1 (2^31 - 1) = Some [Match 0xffffff9c [0x97; 0xff; 0xff] 100].
Proof. by vm_compute. Qed.
Definition call_elf : list Z := (take 101 some_elf ++ [0xe7; 0xff; 0xff; 0xff] ++ replicate 3 0)%list.
Lemma xrefs_exact_witness :
  (exists l, xrefs call_elf (Conf ARCH_NULL (-1) 0 0 4 0) 0x100 0x150 1 (2^31 - 1) = Some l /\ 100 ∈ (m_offset <$> l)) /\
  (exists l, xrefs call_elf (Conf ARCH_X86 (-1) 0 0 4 0x1000) 0x100 0x150 1 (2^31 - 1) = Some l /\ 100 ∉ (m_offset <$> l)).
Proof.
  split.
  - destruct (xrefs_exact call_elf 0x100 0x150 1 (2^31 - 1) (Conf ARCH_NULL (-1) 0 0 4 0) 1 0) as [H _];
      [vm_compute; reflexivity|lia|by vm_compute|by vm_compute|lia|].
    destruct H as (l & E & _ & H); [left; by vm_compute|]. exists l. split; [exact E|].
    apply (H (fun _ => Some 0x50) 100 "0x50" (0xe8 :: le4 (u64 (0x50 - 100 - 5))));
      [vm_compute; reflexivity|reflexivity|discriminate|split; [discriminate|by vm_compute]|by left|vm_compute; reflexivity].
  - destruct (xrefs_exact call_elf 0x100 0x150 1 (2^31 - 1) (Conf ARCH_X86 (-1) 0 0 4 0x1000) 0 0x1000) as [H _];
      [vm_compute; reflexivity|lia|by vm_compute|by vm_compute|lia|].
    destruct H as (l & E & H & _); [left; by vm_compute|]. exists l. split; [exact E|].
    rewrite H. intros [_ [_ Hb]]. vm_compute in Hb. discriminate.
Defined.
(** A file of a page and four bytes: the last places are compared behind the page that is mapped. *)
Example page_outside :
  let file := (take 100 some_elf ++ replicate 4000 0)%list in
  length file = 4100%nat /\ xrefs file (Conf ARCH_NULL (-1) 0 0 4 0) 0 0 1 (2^31 - 1) = None.
Proof. by vm_compute. Qed.

(** Named on the command line, x86 is searched for in the other order. *)
Example x86_option_swaps :
  xrefs some_elf (Conf ARCH_X86 (-1) 0 0 4 0) 0 0 1 (2^31 - 1) = Some [] /\
  m_offset <$> default [] (xrefs some_elf (Conf ARCH_X86 1 0 0 4 0) 0 0 1 (2^31 - 1)) = [100].
Proof. by vm_compute. Qed.
(** A range keeps every reference backward out. *)
Example range_forward : xrefs some_elf (Conf ARCH_NULL (-1) 0 0 4 0x1000) 0 0 1 (2^31 - 1) = Some [].
Proof. by vm_compute. Qed.
(** The step back of ARM is a step of four gigabytes. *)
Example arm_outside : xrefs some_elf (Conf ARCH_ARM (-1) 0 0 4 0) 0 0 1 (2^31 - 1) = None.
Proof. by vm_compute. Qed.
