(* ===== verification/Lsbstego.v ===== *)
(** * Messages in the lowest bits of a file: [src/lsbstego.c]

    The file is the list of its bytes.  A seek in front of the file fails and leaves the position where it was; a
    read behind its end leaves the byte that was read before. *)
From S2P Require Import Prelude.
#[local] Open Scope Z_scope.

(** The position in the file and the last byte. *)
Record st_t := St { pos : Z; sbyte : Z }.

Section process.
Context (file : list Z) (forward downward : bool).
Definition length_ : Z := Z.of_nat (length file).

Definition seek (byte : Z) (s : st_t) : st_t :=
  if forward then St byte (sbyte s)
  else if length_ - (byte + 1) <? 0 then s else St (length_ - (byte + 1)) (sbyte s).
Definition fread (s : st_t) : st_t :=
  match file !! Z.to_nat (pos s) with Some b => St (pos s + 1) b | None => s end.

Fixpoint bits (n : nat) (bit byte dbyte : Z) (s : st_t) : Z * st_t :=
  match n with
  | O => (dbyte, s)
  | S n' =>
    let s := fread (seek byte s) in
    let lsb := Z.land (sbyte s) 1 in
    let dbyte := Z.lor dbyte (Z.shiftl lsb (if downward then 7 - bit else bit)) in
    bits n' (bit + 1) (byte + 1) dbyte s
  end.
Fixpoint bytes (fuel : nat) (byte : Z) (s : st_t) : list Z :=
  match fuel with
  | O => []
  | S fuel' =>
    if byte <? length_ then let '(d, s) := bits 8 0 byte 0 s in d :: bytes fuel' (byte + 8) s else []
  end.
(** A byte of output for eight of the file. *)
Definition process (offset : Z) (s : st_t) : list Z := bytes (length file) offset s.
End process.

(** [-a]: all directions, orders and offsets; a pass begins with a seek that succeeds,
    so that it does not matter where the one before left the file. *)
Definition process_all (file : list Z) : list (list Z) :=
  i ← [false; true]; j ← [false; true]; offset ← seqZ 0 8; [process file i j offset (St 0 0)].

(** ** What comes out *)
Section spec.
Context (file : list Z) (forward downward : bool).

(** The bytes in the order they are looked at. *)
Definition looked_at : list Z := if forward then file else reverse file.

Lemma seek_fread byte s :
  0 <= byte < length_ file -> exists s', fread file (seek file forward byte s) = s' /\ looked_at !! Z.to_nat byte = Some (sbyte s').
Proof.
  intros Hb. unfold length_ in *. unfold looked_at, seek, fread. destruct forward; cbn [pos].
  - destruct (lookup_lt_is_Some_2 file (Z.to_nat byte)) as [b Eb]; [lia|]. rewrite Eb. by eexists.
  - unfold length_. rewrite (proj2 (Z.ltb_ge _ _)) by lia. cbn [pos].
    destruct (lookup_lt_is_Some_2 file (Z.to_nat (Z.of_nat (length file) - (byte + 1)))) as [b Eb]; [lia|]. rewrite Eb.
    eexists. split; [reflexivity|]. cbn. rewrite reverse_lookup by lia. rewrite <-Eb. f_equal. lia.
Qed.

Definition place (bit : Z) : Z := if downward then 7 - bit else bit.

Lemma place_inj a b : place a = place b -> a = b.
Proof. unfold place. destruct downward; lia. Qed.

Lemma testbit_lsb x p k : 0 <= p -> Z.testbit (Z.shiftl (Z.land x 1) p) k = bool_decide (k = p) && Z.odd x.
Proof.
  intros Hp. destruct (decide (k < 0)) as [Hk|Hk].
  { rewrite Z.testbit_neg_r by lia. by rewrite bool_decide_false by lia. }
  rewrite Z.shiftl_spec, Z.land_spec by lia. destruct (decide (k = p)) as [->|Hne].
  - rewrite Z.sub_diag, Z.bit0_odd, bool_decide_true by done. cbn. by rewrite andb_true_r.
  - rewrite bool_decide_false by done. cbn. destruct (decide (k < p)).
    + by rewrite Z.testbit_neg_r by lia.
    + replace (Z.testbit 1 (k - p)) with false; [apply andb_false_r|]. symmetry. change 1 with (2 ^ 0).
      rewrite Z.pow2_bits_eqb by lia. apply Z.eqb_neq. lia.
Qed.

Lemma bits_spec n bit byte dbyte s :
  0 <= bit -> bit + Z.of_nat n <= 8 -> 0 <= byte -> byte + Z.of_nat n <= length_ file ->
  exists d s', bits file forward downward n bit byte dbyte s = (d, s') /\
    (forall k, (forall j, bit <= j < bit + Z.of_nat n -> k <> place j) -> Z.testbit d k = Z.testbit dbyte k) /\
    (forall j, 0 <= j < Z.of_nat n -> exists b, looked_at !! Z.to_nat (byte + j) = Some b /\
      Z.testbit d (place (bit + j)) = Z.testbit dbyte (place (bit + j)) || Z.odd b).
Proof.
  revert bit byte dbyte s. induction n as [|n IH]; intros bit byte dbyte s Hb Hn Hy Hl; cbn [bits].
  { exists dbyte, s. split_and!; [done|done|lia]. }
  destruct (seek_fread byte s) as (s' & -> & Es); [lia|]. cbv zeta. fold (place bit).
  set (d1 := Z.lor dbyte (Z.shiftl (Z.land (sbyte s') 1) (place bit))).
  assert (B : forall k, Z.testbit d1 k = Z.testbit dbyte k || (bool_decide (k = place bit) && Z.odd (sbyte s'))).
  { intros k. unfold d1. rewrite Z.lor_spec, testbit_lsb; [done|]. unfold place. destruct downward; lia. }
  destruct (IH (bit + 1) (byte + 1) d1 s') as (d & s2 & -> & H1 & H2); [lia..|].
  exists d, s2. split_and!; [done| |].
  - intros k Hk. rewrite H1, B by (intros j Hj; apply Hk; lia).
    rewrite bool_decide_false by (apply Hk; lia). apply orb_false_r.
  - intros j Hj. destruct (decide (j = 0)) as [->|].
    + exists (sbyte s'). rewrite !Z.add_0_r. split; [done|].
      rewrite H1 by (intros j Hj' ?%place_inj; lia). by rewrite B, bool_decide_true.
    + destruct (H2 (j - 1)) as (b & E1 & E2); [lia|]. exists b.
      replace (byte + 1 + (j - 1)) with (byte + j) in E1 by lia. replace (bit + 1 + (j - 1)) with (bit + j) in E2 by lia.
      split; [done|]. rewrite E2, B, bool_decide_false, orb_false_r; [done|]. intros ?%place_inj. lia.
Qed.

Lemma bytes_spec fuel byte s k d :
  0 <= byte -> (8 | length_ file - byte) -> bytes file forward downward fuel byte s !! k = Some d ->
  (forall i, ~ 0 <= i < 8 -> Z.testbit d i = false) /\
  forall j, 0 <= j < 8 -> exists b, looked_at !! Z.to_nat (byte + 8 * Z.of_nat k + j) = Some b /\
    Z.testbit d (place j) = Z.odd b.
Proof.
  revert byte s k. induction fuel as [|fuel IH]; intros byte s k Hb Hd; cbn [bytes]; [done|].
  destruct (Z.ltb_spec byte (length_ file)) as [Hl|]; [|done].
  destruct Hd as [q Hq].
  destruct (bits_spec 8 0 byte 0 s) as (d' & s' & -> & H1 & H2); [lia..|]. destruct k as [|k]; cbn [lookup list_lookup].
  - intros [= ->]. split.
    + intros i Hi. rewrite H1, Z.bits_0; [done|]. intros j Hj. unfold place. destruct downward; lia.
    + intros j Hj. destruct (H2 j) as (b & E1 & E2); [lia|]. exists b.
      replace (byte + 8 * Z.of_nat 0 + j) with (byte + j) by lia. split; [done|]. rewrite Z.add_0_l in E2. by rewrite E2, Z.bits_0.
  - intros E. destruct (IH (byte + 8) s' k) as [H3 H4]; [lia|exists (q - 1); lia|done|]. split; [done|].
    intros j Hj. destruct (H4 j Hj) as (b & E1 & E2). exists b. split; [|done]. rewrite <-E1. f_equal. lia.
Qed.

Lemma bytes_length fuel byte s :
  (8 | length_ file - byte) -> length_ file - byte <= 8 * Z.of_nat fuel ->
  Z.of_nat (length (bytes file forward downward fuel byte s)) = Z.max 0 ((length_ file - byte) / 8).
Proof.
  revert byte s. induction fuel as [|fuel IH]; intros byte s [q Hq] Hf; cbn [bytes].
  - rewrite Hq, Z.div_mul by lia. cbn. lia.
  - destruct (Z.ltb_spec byte (length_ file)) as [Hl|].
    + destruct (bits file forward downward 8 0 byte 0 s) as [d s']. cbn [length]. rewrite Nat2Z.inj_succ, IH; [|exists (q - 1); lia|lia].
      replace (length_ file - (byte + 8)) with ((q - 1) * 8) by lia. rewrite Hq, !Z.div_mul by lia. lia.
    + rewrite Hq, Z.div_mul by lia. cbn. lia.
Qed.

(** Where eight bytes of the file belong to every byte of the message, bit [place j] of its byte [k] is the lowest
    bit of the byte number [offset + 8k + j], counted from the side the file is read from, and nothing else is in it;
    where the pass before has left the file does not matter. *)
Theorem message_bits offset s :
  0 <= offset -> (8 | length_ file - offset) ->
  Z.of_nat (length (process file forward downward offset s)) = Z.max 0 ((length_ file - offset) / 8) /\
  forall k d, process file forward downward offset s !! k = Some d ->
    (forall i, ~ 0 <= i < 8 -> Z.testbit d i = false) /\
    forall j, 0 <= j < 8 -> exists b, looked_at !! Z.to_nat (offset + 8 * Z.of_nat k + j) = Some b /\
      Z.testbit d (place j) = Z.odd b.
Proof.
  intros Ho Hd. split; [apply bytes_length; [done|]; unfold length_; lia|]. intros k d E. by apply (bytes_spec (length file) offset s).
Qed.
End spec.

(** Behind the last byte the one read before counts again: the tail of the message is made of copies of one bit. *)
Example tail_repeats : process [0; 0; 1] true true 0 (St 0 0) = [63].
Proof. reflexivity. Qed.

Example message_bits_witness :
  Z.of_nat (length (process [0; 1; 0; 0; 0; 0; 0; 2; 3] false true 1 (St 0 0))) = Z.max 0 ((9 - 1) / 8) /\
  process [0; 1; 0; 0; 0; 0; 0; 2; 3] false true 1 (St 0 0) = [2].
Proof.
  split; [|reflexivity]. apply (message_bits [0; 1; 0; 0; 0; 0; 0; 2; 3] false true 1 (St 0 0)); [lia|by exists 1].
Defined.
