(* ===== verification/Dietline.v ===== *)
(** * The line editor: [src/dietline.c]

    The buffer is the array of [DL_BUFSIZE] characters with its length and its cursor, strings end at the first zero
    like in C, and the input is the list of the characters that are typed.  A character has a sign.  [None] is an
    access outside of an array.  Copies whose source and target overlap go from the front to the back. *)
From S2P Require Import Prelude.
#[local] Open Scope Z_scope.

Definition DL_BUFSIZE : Z := 1024.
Definition DL_HISTSIZE : Z := 256.

(** ** Characters of C *)
Notation str := (list Z).

(** The string that begins an array. *)
Fixpoint cstr (b : list Z) : option str :=
  match b with
  | [] => None
  | c :: b' => if c =? 0 then Some [] else cons c <$> cstr b'
  end.
Definition str_at (b : list Z) (off : Z) : option str :=
  if off <? 0 then None else cstr (drop (Z.to_nat off) b).
Definition peek (b : list Z) (i : Z) : option Z := if i <? 0 then None else b !! Z.to_nat i.

(** [memcpy]; a byte is a copy of one. *)
Definition store (b : list Z) (off : Z) (data : list Z) : option (list Z) :=
  if (0 <=? off) && (off + Z.of_nat (length data) <=? Z.of_nat (length b))
  then Some (patch (Z.to_nat off) data b) else None.
Definition strcpy (b : list Z) (off : Z) (s : str) : option (list Z) := store b off (s ++ [0]).
Definition strncpy (b : list Z) (s : str) (n : Z) : option (list Z) :=
  store b 0 (take (Z.to_nat n) (s ++ replicate (Z.to_nat n) 0)).
(** Whether [strncmp] finds the first [n] characters equal. *)
Definition strncmp_eq (s t : str) (n : Z) : bool := bool_decide (take (Z.to_nat n) s = take (Z.to_nat n) t).

Definition slen (s : str) : Z := Z.of_nat (length s).

(** ** The globals *)
Record dl_t := Dl {
  dl_buffer : list Z;
  dl_buffer_len : Z;
  dl_buffer_idx : Z;
  dl_clipboard : option str;
  dl_history : list (option str);
  dl_histidx : Z }.

Definition with_line (b : list Z) (len idx : Z) (s : dl_t) : dl_t :=
  Dl b len idx (dl_clipboard s) (dl_history s) (dl_histidx s).
Definition with_idx (idx : Z) (s : dl_t) : dl_t := with_line (dl_buffer s) (dl_buffer_len s) idx s.
Definition with_clipboard (c : option str) (s : dl_t) : dl_t :=
  Dl (dl_buffer s) (dl_buffer_len s) (dl_buffer_idx s) c (dl_history s) (dl_histidx s).
Definition with_history (h : list (option str)) (i : Z) (s : dl_t) : dl_t :=
  Dl (dl_buffer s) (dl_buffer_len s) (dl_buffer_idx s) (dl_clipboard s) h i.

Definition dl_histsize (s : dl_t) : Z := Z.of_nat (length (dl_history s)).
Definition hist_get (s : dl_t) (i : Z) : option str :=
  if i <? 0 then None else mjoin (dl_history s !! Z.to_nat i).

(** [dl_init]; the buffer is a static one. *)
Definition dl_init : dl_t := Dl (replicate (Z.to_nat DL_BUFSIZE) 0) 0 0 None (replicate (Z.to_nat DL_HISTSIZE) None) 0.

(** ** The history *)

(** An empty line may still wind the index back. *)
Definition dl_hist_add (line : str) (s : dl_t) : dl_t * Z :=
  let i := if dl_histsize s <=? dl_histidx s then 0 else dl_histidx s in
  match line with
  | [] => (with_history (dl_history s) i s, 0)
  | _ => (with_history (<[Z.to_nat i := Some line]> (dl_history s)) (i + 1) s, 1)
  end.

(** A line of the history into the buffer. *)
Definition recall (line : str) (s : dl_t) : option dl_t :=
  b ← strncpy (dl_buffer s) line (DL_BUFSIZE - 1);
  t ← str_at b 0;
  Some (with_line b (slen t) (slen t) s).

Definition dl_hist_up (s : dl_t) : option (dl_t * Z) :=
  if 0 <? dl_histidx s then
    line ← hist_get s (dl_histidx s - 1);
    s' ← recall line s;
    Some (with_history (dl_history s) (dl_histidx s - 1) s', 1)
  else Some (s, 0).

Definition dl_hist_down (s : dl_t) : option (dl_t * Z) :=
  let s0 := with_idx 0 s in
  if dl_histidx s <? dl_histsize s then
    match hist_get s (dl_histidx s) with
    | None => b ← store (dl_buffer s) 0 [0]; Some (with_line b 0 0 s0, 0)
    | Some line =>
      s' ← recall line s0;
      Some (with_history (dl_history s) (dl_histidx s + 1) s', 1)
    end
  else Some (s0, 0).

Fixpoint until_null (l : list (option str)) : list str :=
  match l with Some x :: l' => x :: until_null l' | _ => [] end.
(** The lines that are listed, and their number. *)
Definition dl_hist_list (s : dl_t) : list str * Z :=
  (until_null (dl_history s), Z.of_nat (length (until_null (dl_history s)))).

Definition dl_hist_free (s : dl_t) : dl_t * Z :=
  (with_history (replicate (length (dl_history s)) None) 0 s, dl_histsize s).

(** Labels are compiled out: nothing is one. *)
Definition is_label (line : str) : Z := 0.
Definition dl_hist_label (label : str) : Z :=
  if bool_decide (head label = Some 46) then (if is_label (drop 1 label) =? 0 then 0 else 1)
  else if (is_label label =? 0) || (is_label label =? 2) then 0 else 1.

(** *** Files *)

(** [fgets] of at most [n] characters: the line, what is left, and whether the end was met. *)
Fixpoint fgets (n : nat) (f : list Z) : str * list Z * bool :=
  match n with
  | O => ([], f, false)
  | S n' =>
    match f with
    | [] => ([], [], true)
    | c :: f' =>
      if c =? 10 then ([10], f', false)
      else let '(l, r, e) := fgets n' f' in (c :: l, r, e)
    end
  end.

Fixpoint load_loop (fuel : nat) (f : list Z) (s : dl_t) : option dl_t :=
  match fuel with
  | O => Some s
  | S fuel' =>
    let '(l, r, eof) := fgets 1022 f in
    if eof : bool then Some s
    else
      l ← cstr (l ++ [0]);
      if slen l =? 0 then None
      else load_loop fuel' r (dl_hist_add (removelast l) s).1
  end.
(** Every line takes a character of the file at least. *)
Definition dl_hist_load (f : list Z) (s : dl_t) : option dl_t := load_loop (S (length f)) f s.

(** The lines below the index. *)
Definition dl_hist_save (s : dl_t) : option (list Z) :=
  (fun ls => concat ls) <$> mapM (fun i => (fun l => l ++ [10]) <$> hist_get s i) (seqZ 0 (dl_histidx s)).

(** ** A key *)

(** [for(i=start;i>low&&p(dl_buffer[i]);i--)] *)
Fixpoint back_while (p : Z -> bool) (low : Z) (n : nat) (b : list Z) (i : Z) : option Z :=
  match n with
  | O => Some i
  | S n' =>
    if low <? i then c ← peek b i; if p c then back_while p low n' b (i - 1) else Some i
    else Some i
  end.
Definition is_space (c : Z) : bool := c =? 32.

(** The place [^W] cuts from. *)
Definition word_start (b : list Z) (idx : Z) : option Z :=
  let n := Z.to_nat idx in
  i ← back_while is_space 0 n b (idx - 1);
  i ← back_while (fun c => negb (is_space c)) 0 n b i;
  i ← back_while is_space 0 n b i;
  if 1 <? i then c ← peek b (i + 1); Some (if is_space c then i + 2 else i) else Some i.

Definition erase_word (s : dl_t) : option dl_t :=
  if 0 <? dl_buffer_idx s then
    i ← word_start (dl_buffer s) (dl_buffer_idx s);
    rest ← str_at (dl_buffer s) (dl_buffer_idx s);
    b ← strcpy (dl_buffer s) i rest;
    t ← str_at b 0;
    Some (with_line b (slen t) i s)
  else Some s.

Definition cut (s : dl_t) : option dl_t :=
  t ← str_at (dl_buffer s) 0;
  b ← store (dl_buffer s) 0 [0];
  Some (with_clipboard (Some t) (with_line b 0 0 s)).

(** The text goes behind the string in the buffer, wherever the cursor is. *)
Definition paste (s : dl_t) : option dl_t :=
  match dl_clipboard s with
  | None => Some s
  | Some c =>
    let len := dl_buffer_len s + slen c in
    if len <? DL_BUFSIZE then
      t ← str_at (dl_buffer s) 0;
      b ← strcpy (dl_buffer s) (slen t) c;
      Some (with_line b len len s)
    else Some s
  end.

Definition left_key (s : dl_t) : dl_t :=
  with_idx (if dl_buffer_idx s =? 0 then 0 else dl_buffer_idx s - 1) s.
Definition right_key (s : dl_t) : dl_t :=
  with_idx (if dl_buffer_idx s <? dl_buffer_len s then dl_buffer_idx s + 1 else dl_buffer_len s) s.

Definition supr (s : dl_t) : option dl_t :=
  if dl_buffer_idx s <? dl_buffer_len s then
    t ← str_at (dl_buffer s) 1;
    b ← strcpy (dl_buffer s) 0 t;
    Some (with_line b (dl_buffer_len s) (dl_buffer_idx s) s)
  else Some s.

Definition backspace (s : dl_t) : option dl_t :=
  let len := dl_buffer_len s in let idx := dl_buffer_idx s in
  if idx <? len then
    if 0 <? idx then
      t ← str_at (dl_buffer s) (idx - 1);
      rest ← (if slen t <=? Z.of_nat (length (dl_buffer s)) - idx
              then Some (take (length t) (drop (Z.to_nat idx) (dl_buffer s))) else None);
      b ← store (dl_buffer s) (idx - 1) rest;
      Some (with_line b len (idx - 1) s)
    else Some s
  else
    let idx := len - 1 in
    let len := if len - 1 <? 0 then 0 else len - 1 in
    b ← store (dl_buffer s) len [0];
    Some (with_line b len (if idx <? 0 then 0 else idx) s).

Definition type_key (c : Z) (s : dl_t) : option dl_t :=
  let len := dl_buffer_len s in let idx := dl_buffer_idx s in
  if idx <? len then
    (* the tail moves up by one, and with it the zero behind it *)
    tail ← (if len <? Z.of_nat (length (dl_buffer s))
            then Some (take (Z.to_nat (len - idx + 1)) (drop (Z.to_nat idx) (dl_buffer s))) else None);
    b ← store (dl_buffer s) idx (c :: tail);
    Some (with_line b (len + 1) (idx + 1) s)
  else
    b ← store (dl_buffer s) len [c];
    let len := if 1000 <? len + 1 then len else len + 1 in
    b ← store b len [0];
    Some (with_line b len (idx + 1) s).

(** Completion; [opt] is what an earlier one has counted.  The words are the arguments behind the first. *)
Definition complete (words : list str) (opt : Z) (s : dl_t) : option (dl_t * Z) :=
  t ← str_at (dl_buffer s) 0;
  let opt := if 0 <? dl_buffer_idx s
             then Z.of_nat (length (filter (fun w => strncmp_eq w t (dl_buffer_idx s) = true) words)) else opt in
  if (0 <? dl_buffer_len s) && (opt =? 1) then
    match filter (fun w => strncmp_eq t w (dl_buffer_len s) = true) words with
    | [] => Some (s, opt)
    | w :: _ =>
      b ← strcpy (dl_buffer s) 0 w;
      t' ← str_at b 0;
      Some (with_line b (slen t') (slen t') s, opt)
    end
  else Some (s, opt).

(** ** Reading a line *)

(** What is read at the end of the input; the character 255 looks like it. *)
Definition readchar (input : list Z) : Z * list Z :=
  match input with [] => (-1, []) | c :: input' => (c, input') end.

Inductive outcome := Going (opt : Z) | Return (line : option str) | Finish.

(** One turn of the loop; [Finish] is the jump behind it. *)
Definition key (words : list str) (opt : Z) (c : Z) (input : list Z) (s : dl_t) : option (outcome * list Z * dl_t) :=
  let go := fmap (fun s => (Going opt, input, s)) in
  if c =? -1 then Some (Return None, input, s)
  else if c =? 0 then go (Some s)
  else if c =? 1 then go (Some (with_idx 0 s))
  else if c =? 5 then go (Some (with_idx (dl_buffer_len s) s))
  else if c =? 3 then (b ← store (dl_buffer s) 0 [0]; Some (Finish, input, with_line b 0 0 s))
  else if c =? 4 then
    (c0 ← peek (dl_buffer s) 0; if c0 =? 0 then Some (Return None, input, s) else go (Some s))
  else if c =? 10 then (t ← str_at (dl_buffer s) 0; Some (Return (Some t), input, s))
  else if c =? 11 then go (Some s)
  else if c =? 19 then go (Some (left_key s))
  else if c =? 12 then go (Some (right_key s))
  else if c =? 21 then go (cut s)
  else if c =? 23 then go (erase_word s)
  else if c =? 25 then go (paste s)
  else if c =? 16 then go (fst <$> dl_hist_up s)
  else if c =? 14 then go (fst <$> dl_hist_down s)
  else if c =? 27 then
    let '(c1, input1) := readchar input in
    let '(c2, input2) := readchar input1 in
    (fun s => (Going opt, input2, s)) <$>
      (if c1 =? 91 then
         if c2 =? 51 then supr s
         else if c2 =? 65 then fst <$> dl_hist_up s
         else if c2 =? 66 then fst <$> dl_hist_down s
         else if c2 =? 67 then Some (right_key s)
         else if c2 =? 68 then Some (left_key s)
         else Some s
       else Some s)
  else if (c =? 8) || (c =? 127) then go (backspace s)
  else if c =? 9 then ('(s, opt) ← complete words opt s; Some (Going opt, input, s))
  else if c =? 18 then go (Some s)
  else if c =? 13 then Some (Finish, input, s)
  else go (type_key c s).

(** What the loop prints of the buffer. *)
Definition redraw (echo : bool) (s : dl_t) : option unit :=
  if echo then
    _ ← str_at (dl_buffer s) 0;
    if dl_buffer_idx s <=? Z.of_nat (length (dl_buffer s)) then Some tt else None
  else Some tt.

(** Behind the loop: a lone exclamation mark lists the history. *)
Definition finish (s : dl_t) : option str :=
  t ← str_at (dl_buffer s) 0; Some (if bool_decide (t = [33]) then [] else t).

Section readline.
Context (words : list str) (echo : bool).

Fixpoint readline_loop (fuel : nat) (opt : Z) (input : list Z) (s : dl_t) : option (option str * list Z * dl_t) :=
  match fuel with
  | O => None
  | S fuel' =>
    b ← store (dl_buffer s) (dl_buffer_len s) [0];
    let s := with_line b (dl_buffer_len s) (dl_buffer_idx s) s in
    let '(c, input) := readchar input in
    '(o, input, s) ← key words opt c input s;
    match o with
    | Return r => Some (r, input, s)
    | Finish => t ← finish s; Some (Some t, input, s)
    | Going opt => _ ← redraw echo s; readline_loop fuel' opt input s
    end
  end.

(** Every turn reads a character; behind the last one the end is read. *)
Definition dl_readline (input : list Z) (s : dl_t) : option (option str * list Z * dl_t) :=
  b ← store (dl_buffer s) 0 [0];
  readline_loop (S (length input)) 0 input (with_line b 0 0 s).
End readline.

(** Without the editor a line of the input is taken as it is, its end included. *)
Definition dl_readline_disabled (input : list Z) (s : dl_t) : option (option str * list Z * dl_t) :=
  b ← store (dl_buffer s) 0 [0];
  let '(l, r, _) := fgets (Z.to_nat (DL_BUFSIZE - 2)) input in
  b ← (match l with [] => Some b | _ => strcpy b 0 l end);
  t ← str_at b 0;
  Some (match t with [] => None | _ => Some t end, r, with_line b 0 0 s).
