(* ===== verification/DietlineSpec.v ===== *)
(** * The line editor against an idealised one: [src/dietline.c]

    The editor of [Dietline] works on an array of characters with a length and a cursor.  Here it is compared with
    one on the text before and behind the cursor, for the keys that do what they are meant to; the others are shown
    by examples. *)
From S2P Require Import Prelude Dietline.
#[local] Open Scope Z_scope.

(** ** The idealised editor *)

(** The text before the cursor is kept backwards. *)
Record line_t := Line {
  rb : str;
  after : str;
  clip : option str;
  hist : list (option str);
  hidx : Z }.
Definition text (l : line_t) : str := reverse (rb l) ++ after l.

Definition put (b a : str) (l : line_t) : line_t := Line b a (clip l) (hist l) (hidx l).

Inductive ekey :=
  | KChar (c : Z) | KLeft (esc : bool) | KRight (esc : bool) | KHome | KEnd | KBack (c : Z)
  | KCut | KPaste | KWord | KUp (esc : bool) | KDown (esc : bool) | KIgnored (c : Z).

Definition codes (k : ekey) : list Z :=
  match k with
  | KChar c | KBack c | KIgnored c => [c]
  | KLeft esc => if esc then [27; 91; 68] else [19]
  | KRight esc => if esc then [27; 91; 67] else [12]
  | KHome => [1]
  | KEnd => [5]
  | KCut => [21]
  | KPaste => [25]
  | KWord => [23]
  | KUp esc => if esc then [27; 91; 65] else [16]
  | KDown esc => if esc then [27; 91; 66] else [14]
  end.

Definition special : list Z := [-1; 0; 1; 3; 4; 5; 8; 9; 10; 11; 12; 13; 14; 16; 18; 19; 21; 23; 25; 27; 127].

Fixpoint skip (p : Z -> bool) (t : str) : str :=
  match t with c :: t' => if p c then skip p t' else t | [] => [] end.
Definition word (c : Z) : bool := negb (is_space c).

(** What is left before the cursor without the last word and the spaces around it. *)
Definition without_word (t : str) : str := skip is_space (skip word (skip is_space t)).

(** [None] where the editor of the program does something else: erasing before the cursor inside of the text, words
    behind a first one of one or two letters, and lines of 1000 characters. *)
Definition edit (k : ekey) (l : line_t) : option line_t :=
  match k with
  | KChar c => if bool_decide (c ∉ special) && (slen (text l) <? 1000) then Some (put (c :: rb l) (after l) l) else None
  | KLeft _ => Some (match rb l with c :: b => put b (c :: after l) l | [] => l end)
  | KRight _ => Some (match after l with c :: a => put (c :: rb l) a l | [] => l end)
  | KHome => Some (put [] (text l) l)
  | KEnd => Some (put (reverse (text l)) [] l)
  | KBack c =>
    if bool_decide (c ∈ [8; 127]) then
      match after l, rb l with [], b => Some (put (tail b) [] l) | _, [] => Some l | _, _ => None end
    else None
  | KCut => Some (Line [] [] (Some (text l)) (hist l) (hidx l))
  | KPaste =>
    Some (match clip l with
          | Some c => if slen (text l) + slen c <? DL_BUFSIZE then put (reverse (text l ++ c)) [] l else l
          | None => l
          end)
  | KWord =>
    match without_word (rb l) with
    | [] => Some (put [] (after l) l)
    | [_] | [_; _] => None
    | b => Some (put (32 :: b) (after l) l)
    end
  | KUp _ =>
    if 0 <? hidx l then
      t ← mjoin (hist l !! Z.to_nat (hidx l - 1));
      Some (Line (reverse t) [] (clip l) (hist l) (hidx l - 1))
    else Some l
  | KDown _ =>
    Some (if hidx l <? Z.of_nat (length (hist l)) then
      match mjoin (hist l !! Z.to_nat (hidx l)) with
      | Some t => Line (reverse t) [] (clip l) (hist l) (hidx l + 1)
      | None => put [] [] l
      end
    else put [] (text l) l)
  | KIgnored c => if bool_decide (c ∈ [0; 11; 18]) then Some l else None
  end.

Fixpoint edits (ks : list ekey) (l : line_t) : option line_t :=
  match ks with [] => Some l | k :: ks' => edit k l ≫= edits ks' end.

(** ** How the array holds a text *)
Definition nz (t : str) : Prop := Forall (fun c => c <> 0) t.

Record holds (b : list Z) (t : str) : Prop := Holds {
  holds_junk : exists junk, b = t ++ 0 :: junk;
  holds_length : Z.of_nat (length b) = DL_BUFSIZE;
  holds_nz : nz t }.

Record related (l : line_t) (s : dl_t) : Prop := Related {
  rel_holds : holds (dl_buffer s) (text l);
  rel_len : dl_buffer_len s = slen (text l);
  rel_idx : dl_buffer_idx s = slen (rb l);
  rel_clip : dl_clipboard s = clip l;
  rel_clip_nz : from_option nz True (clip l);
  rel_hist : dl_history s = hist l;
  rel_hidx : dl_histidx s = hidx l /\ 0 <= hidx l;
  rel_hist_nz : forall i t, hist l !! i = Some (Some t) -> nz t /\ slen t < 1023 }.

Lemma nz_app s t : nz (s ++ t) <-> nz s /\ nz t.
Proof. apply Forall_app. Qed.
Lemma nz_reverse t : nz (reverse t) <-> nz t.
Proof. unfold nz. by rewrite Forall_reverse. Qed.
Lemma slen_app s t : slen (s ++ t) = slen s + slen t.
Proof. unfold slen. rewrite length_app. lia. Qed.
Lemma slen_reverse t : slen (reverse t) = slen t.
Proof. unfold slen. by rewrite length_reverse. Qed.
Lemma slen_nonneg t : 0 <= slen t.
Proof. unfold slen. lia. Qed.
Lemma slen_cons c t : slen (c :: t) = slen t + 1.
Proof. unfold slen. cbn [length]. lia. Qed.
Lemma slen_nil : slen [] = 0.
Proof. done. Qed.
Lemma slen_nat t n : (length t < Z.to_nat n)%nat <-> slen t < n.
Proof. unfold slen. lia. Qed.

(** Lengths of lists by those of their parts. *)
Ltac slens := rewrite ?slen_cons, ?slen_nil, ?slen_app, ?slen_reverse; unfold slen, DL_BUFSIZE in *; try lia.

Lemma text_put b a l : text (put b a l) = reverse b ++ a.
Proof. done. Qed.
Lemma slen_text l : slen (text l) = slen (rb l) + slen (after l).
Proof. unfold text. by rewrite slen_app, slen_reverse. Qed.

Lemma cstr_app t junk : nz t -> cstr (t ++ 0 :: junk) = Some t.
Proof.
  induction 1 as [|c t Hc Ht IH]; [done|]. cbn [app cstr]. rewrite (proj2 (Z.eqb_neq _ _)) by done. by rewrite IH.
Qed.

Section holds.
Context (b : list Z) (t : str) (Hb : holds b t).

Lemma holds_room : slen t < DL_BUFSIZE.
Proof. destruct Hb as [[junk ->] Hl _]. rewrite length_app in Hl. cbn in Hl. unfold slen. lia. Qed.

Lemma holds_str_at (n : nat) : (n <= length t)%nat -> str_at b (Z.of_nat n) = Some (drop n t).
Proof.
  intros Hn. destruct Hb as [[junk ->] _ Hz]. unfold str_at. rewrite (proj2 (Z.ltb_ge _ _)), Nat2Z.id by lia.
  rewrite drop_app_le by done. apply cstr_app. by apply Forall_drop.
Qed.

Lemma holds_str : str_at b 0 = Some t.
Proof. rewrite <-(drop_0 t) at 1. apply (holds_str_at 0). lia. Qed.

Lemma holds_peek (i : nat) c : t !! i = Some c -> peek b (Z.of_nat i) = Some c.
Proof.
  intros Hi. destruct Hb as [[junk ->] _ _]. unfold peek. rewrite (proj2 (Z.ltb_ge _ _)), Nat2Z.id by lia.
  rewrite lookup_app_l by by eapply lookup_lt_Some. done.
Qed.

Lemma store_some off data : (off + length data <= Z.to_nat DL_BUFSIZE)%nat -> store b (Z.of_nat off) data = Some (patch off data b).
Proof.
  intros Ho. destruct Hb as [_ Hl _]. unfold store, DL_BUFSIZE in *.
  rewrite (proj2 (Z.leb_le _ _)), (proj2 (Z.leb_le _ _)), Nat2Z.id by lia. done.
Qed.

(** Writing a text with its end at a place of the old one. *)
Lemma holds_patch off new junk :
  (off <= length t)%nat -> (off + length new < Z.to_nat DL_BUFSIZE)%nat -> nz new ->
  (off + length (new ++ 0%Z :: junk) <= Z.to_nat DL_BUFSIZE)%nat ->
  holds (patch off (new ++ 0 :: junk) b) (take off t ++ new).
Proof.
  intros Ho Hn Hz Hj. destruct Hb as [[old ->] Hl Ht]. unfold DL_BUFSIZE in *. split.
  - unfold patch. rewrite take_app_le by done. 
    exists (junk ++ drop (off + length (new ++ 0%Z :: junk))%nat (t ++ 0 :: old)). by rewrite <-!app_assoc.
  - rewrite patch_length; [done|]. lia.
  - apply nz_app. split; [by apply Forall_take|done].
Qed.

Lemma holds_strcpy off new :
  (off <= length t)%nat -> (off + length new < Z.to_nat DL_BUFSIZE)%nat -> nz new ->
  exists b', strcpy b (Z.of_nat off) new = Some b' /\ holds b' (take off t ++ new).
Proof.
  intros Ho Hn Hz. unfold strcpy. rewrite store_some by (rewrite length_app; cbn; lia).
  eexists. split; [done|]. apply holds_patch; [done..|]. rewrite length_app. cbn. lia.
Qed.

Lemma holds_end : exists b', store b (slen t) [0] = Some b' /\ holds b' t.
Proof.
  pose proof holds_room. unfold slen, DL_BUFSIZE in *.
  rewrite store_some by (cbn; unfold DL_BUFSIZE; lia). eexists. split; [done|].
  rewrite <-(app_nil_r t) at 2. rewrite <-(firstn_all t) at 2. apply (holds_patch (length t) [] []); cbn; unfold DL_BUFSIZE; try lia. constructor.
Qed.

Lemma holds_clear : exists b', store b 0 [0] = Some b' /\ holds b' [].
Proof.
  rewrite (store_some 0) by (cbn; unfold DL_BUFSIZE; lia). eexists. split; [done|].
  apply (holds_patch 0 [] []); cbn; unfold DL_BUFSIZE; try lia. constructor.
Qed.
End holds.

Lemma patch_patch off d1 d2 b :
  (off + length d1 + length d2 <= length b)%nat ->
  patch (off + length d1) d2 (patch off d1 b) = patch off (d1 ++ d2) b.
Proof.
  intros H. apply list_eq. intros i. rewrite !patch_lookup by (rewrite ?patch_length, ?length_app by lia; lia).
  rewrite length_app. repeat case_decide; try lia; try done.
  - rewrite lookup_app_r by lia. f_equal. lia.
  - by rewrite lookup_app_l by lia.
Qed.

(** *** Rebuilding the relation *)
Lemma related_put l s B A b len idx :
  related l s -> holds b (reverse B ++ A) -> len = slen B + slen A -> idx = slen B ->
  related (put B A l) (with_line b len idx s).
Proof.
  intros [] Hb -> ->. split; try done. symmetry. apply (slen_text (put B A l)).
Qed.

Lemma related_idx l s B A :
  related l s -> text l = reverse B ++ A -> related (put B A l) (with_idx (slen B) s).
Proof.
  intros Hr E. unfold with_idx. eapply related_put; [done| |rewrite (rel_len _ _ Hr)|done].
  - rewrite <-E. apply Hr.
  - by rewrite E, slen_app, slen_reverse.
Qed.

Lemma put_same l : put (rb l) (after l) l = l.
Proof. by destruct l. Qed.

Lemma related_end l s : related l s ->
  exists b, store (dl_buffer s) (dl_buffer_len s) [0] = Some b /\ related l (with_line b (dl_buffer_len s) (dl_buffer_idx s) s).
Proof.
  intros Hr. rewrite (rel_len _ _ Hr). destruct (holds_end _ _ (rel_holds _ _ Hr)) as (b & -> & Hb).
  eexists. split; [done|]. rewrite <-(put_same l) at 1. apply related_put; [done..| |apply Hr]. apply slen_text.
Qed.

Section keys.
Context (l : line_t) (s : dl_t) (Hr : related l s).
Let room : slen (text l) < DL_BUFSIZE := holds_room _ _ (rel_holds _ _ Hr).
Let Hh := rel_holds _ _ Hr.

Lemma nz_parts : nz (rb l) /\ nz (after l).
Proof. pose proof (holds_nz _ _ Hh) as H. unfold text in H. rewrite nz_app, nz_reverse in H. done. Qed.

Lemma after_at : str_at (dl_buffer s) (dl_buffer_idx s) = Some (after l).
Proof.
  rewrite (rel_idx _ _ Hr). unfold slen. rewrite (holds_str_at _ _ Hh).
  - unfold text. by rewrite drop_app_length' by (by rewrite length_reverse).
  - unfold text. rewrite length_app, length_reverse. lia.
Qed.

Lemma at_end : (dl_buffer_idx s <? dl_buffer_len s) = match after l with [] => false | _ => true end.
Proof.
  rewrite (rel_idx _ _ Hr), (rel_len _ _ Hr), slen_text. destruct (after l); [apply Z.ltb_ge|apply Z.ltb_lt]; slens.
Qed.

Lemma left_related esc : exists l', edit (KLeft esc) l = Some l' /\ related l' (left_key s).
Proof.
  eexists. split; [done|]. unfold left_key. rewrite (rel_idx _ _ Hr). destruct (rb l) as [|c B] eqn:E.
  - cbn. rewrite <-(put_same l), E. apply (related_idx l s [] (after l)); [done|]. unfold text. by rewrite E.
  - rewrite slen_cons. pose proof (slen_nonneg B). rewrite (proj2 (Z.eqb_neq _ _)) by lia.
    replace (slen B + 1 - 1) with (slen B) by lia. apply related_idx; [done|]. unfold text. rewrite E, reverse_cons. by rewrite <-app_assoc.
Qed.

Lemma right_related esc : exists l', edit (KRight esc) l = Some l' /\ related l' (right_key s).
Proof.
  eexists. split; [done|]. unfold right_key. rewrite at_end. rewrite (rel_idx _ _ Hr), (rel_len _ _ Hr). destruct (after l) as [|c A] eqn:E.
  - rewrite slen_text, E. replace (slen (rb l) + slen []) with (slen (rb l)) by (rewrite slen_nil; lia).
    rewrite <-(put_same l) at 1. apply related_idx; done.
  - rewrite <-slen_cons with (c:=c). apply related_idx; [done|]. unfold text. rewrite E, reverse_cons. by rewrite <-app_assoc.
Qed.

Lemma strcpy_related (off : nat) new B A :
  (off <= length (text l))%nat -> nz new -> take off (text l) ++ new = reverse B ++ A -> slen B + slen A < DL_BUFSIZE ->
  exists b, strcpy (dl_buffer s) (Z.of_nat off) new = Some b /\ holds b (reverse B ++ A) /\
    forall len idx, len = slen B + slen A -> idx = slen B -> related (put B A l) (with_line b len idx s).
Proof.
  intros Ho Hz E Hl. destruct (holds_strcpy _ _ Hh off new) as (b & Eb & Hb); [done| |done|].
  - apply (f_equal length) in E. rewrite !length_app, length_take, length_reverse in E. unfold slen, DL_BUFSIZE in *. lia.
  - rewrite E in Hb. exists b. split_and!; [done..|]. intros len idx -> ->. by apply related_put.
Qed.

Lemma take_rb : take (length (rb l)) (text l) = reverse (rb l).
Proof. unfold text. apply take_app_length'. by rewrite length_reverse. Qed.

Lemma type_related c l' : edit (KChar c) l = Some l' -> exists s', type_key c s = Some s' /\ related l' s'.
Proof.
  cbn [edit]. case_bool_decide as Hc; cbn [andb]; [|done]. destruct (Z.ltb_spec (slen (text l)) 1000) as [Hl|]; [|done].
  intros [= <-]. assert (Hz : c <> 0) by (intros ->; apply Hc; unfold special; set_solver).
  unfold type_key. rewrite at_end. pose proof nz_parts as [_ Ha]. pose proof (slen_text l). destruct (after l) as [|a A] eqn:E.
  - rewrite (rel_len _ _ Hr), (rel_idx _ _ Hr). change (slen (text l)) with (Z.of_nat (length (text l))). rewrite (store_some _ _ Hh) by (unfold slen, DL_BUFSIZE in *; cbn; lia).
    cbn [mbind option_bind]. rewrite (proj2 (Z.ltb_ge _ _)) by slens.
    destruct (strcpy_related (length (text l)) [c] (c :: rb l) []) as (b & Eb & _ & Hb).
    + lia.
    + by constructor.
    + rewrite firstn_all, reverse_cons, app_nil_r. unfold text. by rewrite E, app_nil_r.
    + rewrite slen_nil in H. rewrite slen_cons, slen_nil. unfold DL_BUFSIZE. lia.
    + unfold strcpy in Eb. rewrite (store_some _ _ Hh) in Eb by (unfold slen, DL_BUFSIZE in *; cbn; lia). injection Eb as Eb.
      unfold store. destruct Hh as [_ HL _].
      rewrite patch_length by (unfold slen, DL_BUFSIZE in *; cbn; lia).
      rewrite (proj2 (Z.leb_le _ _)), (proj2 (Z.leb_le _ _)) by (unfold slen, DL_BUFSIZE in *; cbn; lia). cbn [andb mbind option_bind].
      eexists. split; [done|]. replace (Z.to_nat (Z.of_nat (length (text l)) + 1)) with (length (text l) + length [c])%nat by (cbn; lia).
      rewrite patch_patch by (unfold slen, DL_BUFSIZE in *; cbn; lia). cbn [app]. rewrite Eb. rewrite slen_nil in H.
      change (Z.of_nat (length (text l))) with (slen (text l)). apply Hb; rewrite ?slen_cons, ?slen_nil; lia.
  - rewrite (rel_len _ _ Hr), (rel_idx _ _ Hr). destruct Hh as [[junk Eb] HL HZ].
    rewrite (proj2 (Z.ltb_lt _ _)) by lia. cbn [mbind option_bind].
    replace (take _ (drop _ (dl_buffer s))) with ((a :: A) ++ [0]).
    + destruct (strcpy_related (length (rb l)) (c :: a :: A) (c :: rb l) (a :: A)) as (b & Eb' & _ & Hb).
      * unfold text. rewrite length_app, length_reverse. lia.
      * by constructor.
      * rewrite take_rb, reverse_cons. by rewrite <-app_assoc.
      * rewrite slen_cons. unfold DL_BUFSIZE in *. lia.
      * unfold strcpy in Eb'. change (slen (rb l)) with (Z.of_nat (length (rb l))). cbn [app] in *. rewrite Eb'. cbn [mbind option_bind].
        eexists. split; [done|]. apply Hb; [|slens]. rewrite H. slens.
    + rewrite H, Eb. unfold text. rewrite E, <-app_assoc. rewrite drop_app_length' by (rewrite length_reverse; unfold slen; lia).
      replace (Z.to_nat _) with (length ((a :: A) ++ [0])) by (rewrite length_app; unfold slen; cbn [length]; lia).
      change ((a :: A) ++ 0 :: junk) with ((a :: A) ++ ([0] ++ junk)). rewrite app_assoc. by rewrite take_app_length.
Qed.
Lemma back_related c l' : edit (KBack c) l = Some l' -> exists s', backspace s = Some s' /\ related l' s'.
Proof.
  cbn [edit]. case_bool_decide; [|done]. unfold backspace. rewrite at_end. rewrite (rel_idx _ _ Hr). intros E.
  pose proof (slen_text l) as Ht. destruct (after l) as [|a A] eqn:Ea.
  - injection E as <-. rewrite (rel_len _ _ Hr). rewrite slen_nil, Z.add_0_r in Ht. rewrite Ht. destruct (rb l) as [|d B] eqn:Eb.
    + destruct (holds_clear _ _ Hh) as (b & Es & Hb). rewrite slen_nil.
      change (0 - 1 <? 0) with true. cbv iota. rewrite Es. cbn [mbind option_bind]. eexists. split; [done|]. by apply related_put.
    + rewrite slen_cons. pose proof (slen_nonneg B). replace (slen B + 1 - 1) with (slen B) by lia.
      rewrite !(proj2 (Z.ltb_ge _ _)) by lia. destruct (strcpy_related (length B) [] B []) as (b & Es & _ & Hb).
      * unfold text. rewrite Ea, Eb, app_nil_r, length_reverse. cbn. lia.
      * constructor.
      * unfold text. rewrite Ea, Eb, reverse_cons, !app_nil_r. rewrite take_app_length'; [done|by rewrite length_reverse].
      * rewrite slen_cons in Ht. slens.
      * unfold strcpy in Es. cbn [app] in Es. change (slen B) with (Z.of_nat (length B)). rewrite Es. cbn [mbind option_bind tail].
        eexists. split; [done|]. apply Hb; slens.
  - destruct (rb l) as [|d B] eqn:Eb; [|done]. injection E as <-. cbn. by eexists.
Qed.

Lemma cut_related : exists l' s', edit KCut l = Some l' /\ cut s = Some s' /\ related l' s'.
Proof.
  unfold cut. rewrite (holds_str _ _ Hh). cbn [mbind option_bind]. destruct (holds_clear _ _ Hh) as (b & -> & Hb). cbn [mbind option_bind].
  do 2 eexists. split; [done|]. split; [done|]. destruct Hr. split; try done. apply Hh.
Qed.

Lemma paste_related : exists l' s', edit KPaste l = Some l' /\ paste s = Some s' /\ related l' s'.
Proof.
  cbn [edit]. unfold paste. rewrite (rel_clip _ _ Hr), (rel_len _ _ Hr). pose proof (rel_clip_nz _ _ Hr) as Hz.
  destruct (clip l) as [c|]; [|by do 2 eexists]. destruct (Z.ltb_spec (slen (text l) + slen c) DL_BUFSIZE); [|by do 2 eexists].
  rewrite (holds_str _ _ Hh). cbn [mbind option_bind].
  destruct (strcpy_related (length (text l)) c (reverse (text l ++ c)) []) as (b & Es & _ & Hb).
  - lia.
  - done.
  - by rewrite firstn_all, reverse_involutive, app_nil_r.
  - rewrite slen_reverse, slen_app, slen_nil. lia.
  - change (slen (text l)) with (Z.of_nat (length (text l))). rewrite Es. do 2 eexists. split; [done|]. split; [done|].
    apply Hb; rewrite ?slen_reverse, ?slen_app, ?slen_nil; change (Z.of_nat (length (text l))) with (slen (text l)); lia.
Qed.

Lemma recall_related t (i : Z) : nz t -> slen t < 1023 -> 0 <= i ->
  exists s', recall t s = Some s' /\ related (Line (reverse t) [] (clip l) (hist l) i) (with_history (dl_history s) i s').
Proof.
  intros Hz Hl Hi. unfold recall, strncpy.
  replace (take _ (t ++ _)) with (t ++ 0 :: replicate (1022 - length t) 0).
  - rewrite (store_some _ _ Hh 0) by (rewrite length_app; cbn [length]; rewrite length_replicate; unfold slen, DL_BUFSIZE in *; lia).
    cbn [mbind option_bind]. pose proof (holds_patch _ _ Hh 0 t (replicate (1022 - length t) 0)) as Hb. cbn [take] in Hb.
    destruct Hb; [lia|unfold slen, DL_BUFSIZE in *; lia|done|rewrite length_app; cbn [length]; rewrite length_replicate; unfold slen, DL_BUFSIZE in *; lia|].
    match goal with |- context [patch ?o ?d ?b] => assert (Hb : holds (patch o d b) t) by done end.
    rewrite (holds_str _ _ Hb). cbn [mbind option_bind]. eexists. split; [done|].
    destruct Hr. split; cbn [dl_buffer with_history with_line dl_buffer_len dl_buffer_idx dl_clipboard dl_history dl_histidx rb clip hist hidx]; try done.
    + unfold text. cbn [rb after]. by rewrite reverse_involutive, app_nil_r.
    + unfold text. cbn [rb after]. by rewrite reverse_involutive, app_nil_r.
    + by rewrite slen_reverse.
  - replace (Z.to_nat (DL_BUFSIZE - 1)) with (length t + S (1022 - length t))%nat by (unfold slen, DL_BUFSIZE in *; lia).
    rewrite take_app_add. f_equal. rewrite take_replicate.
    change (0 :: replicate (1022 - length t) 0) with (replicate (S (1022 - length t)) 0). f_equal. lia.
Qed.

Lemma up_related esc l' : edit (KUp esc) l = Some l' -> exists s' r, dl_hist_up s = Some (s', r) /\ related l' s'.
Proof.
  cbn [edit]. unfold dl_hist_up. destruct (rel_hidx _ _ Hr) as [-> Hi]. destruct (Z.ltb_spec 0 (hidx l)).
  - unfold hist_get. rewrite (proj2 (Z.ltb_ge _ _)), (rel_hist _ _ Hr) by lia.
    destruct (hist l !! Z.to_nat (hidx l - 1)) as [[t|]|] eqn:E; cbn [mjoin option_join mbind option_bind]; [|done..].
    intros [= <-]. destruct (rel_hist_nz _ _ Hr _ _ E). destruct (recall_related t (hidx l - 1)) as (s' & -> & Hs); [done|done|lia|].
    cbn [mbind option_bind]. do 2 eexists. rewrite (rel_hist _ _ Hr) in Hs. by split.
  - intros [= <-]. by do 2 eexists.
Qed.

Lemma down_related esc : exists l' s' r, edit (KDown esc) l = Some l' /\ dl_hist_down s = Some (s', r) /\ related l' s'.
Proof.
  cbn [edit]. unfold dl_hist_down. destruct (rel_hidx _ _ Hr) as [-> Hi]. unfold dl_histsize, hist_get.
  rewrite (proj2 (Z.ltb_ge (hidx l) 0)), (rel_hist _ _ Hr) by lia.
  destruct (Z.ltb_spec (hidx l) (Z.of_nat (length (hist l)))).
  - destruct (hist l !! Z.to_nat (hidx l)) as [[t|]|] eqn:E; cbn [mjoin option_join mbind option_bind].
    + destruct (rel_hist_nz _ _ Hr _ _ E). destruct (recall_related t (hidx l + 1)) as (s' & Es & Hs); [done|done|lia|].
      unfold recall in *. cbn [dl_buffer with_idx with_line].
      destruct (strncpy (dl_buffer s) t (DL_BUFSIZE - 1)) as [b|]; cbn [mbind option_bind] in *; [|done].
      destruct (str_at b 0); cbn [mbind option_bind] in *; [|done]. injection Es as <-.
      rewrite (rel_hist _ _ Hr) in Hs. by do 3 eexists.
    + destruct (holds_clear _ _ Hh) as (b & Eb & Hb). cbn [dl_buffer with_idx with_line]. rewrite Eb. do 3 eexists. split_and!; [done..|].
      unfold with_idx, with_line. cbn. by apply related_put.
    + destruct (holds_clear _ _ Hh) as (b & Eb & Hb). cbn [dl_buffer with_idx with_line]. rewrite Eb. do 3 eexists. split_and!; [done..|].
      unfold with_idx, with_line. cbn. by apply related_put.
  - do 3 eexists. split_and!; [done..|]. by apply (related_idx l s [] (text l)).
Qed.
End keys.

(** *** Erasing a word *)
Lemma skip_split p t : exists pre, t = pre ++ skip p t /\ Forall (fun c => p c = true) pre.
Proof.
  induction t as [|c t (pre & E & Hp)]; [by exists []|]. cbn. destruct (p c) eqn:Ec.
  - exists (c :: pre). split; [by rewrite E at 1|by constructor].
  - by exists [].
Qed.

Lemma skip_head p t c t' : skip p t = c :: t' -> p c = false.
Proof.
  induction t as [|d t IH]; cbn; [done|]. destruct (p d) eqn:E; [done|]. by intros [= <- <-].
Qed.

(** The last character of the text that begins with [reverse B]. *)
Lemma back_while_skip b p B A n :
  holds b (reverse B ++ A) -> (length B <= n)%nat ->
  back_while p 0 n b (Z.max 0 (slen B - 1)) = Some (Z.max 0 (slen (skip p B) - 1)).
Proof.
  revert A n. induction B as [|c B IH]; intros A n Hb Hn.
  - destruct n; cbn; by rewrite ?slen_nil.
  - cbn [length] in Hn. destruct n as [|n]; [lia|]. rewrite slen_cons. pose proof (slen_nonneg B).
    replace (Z.max 0 (slen B + 1 - 1)) with (slen B) by lia. cbn [back_while].
    destruct (Z.ltb_spec 0 (slen B)).
    + rewrite reverse_cons, <-app_assoc in Hb. change (slen B) with (Z.of_nat (length B)). rewrite (holds_peek _ _ Hb _ c).
      2: { rewrite lookup_app_r by (by rewrite length_reverse). by rewrite length_reverse, Nat.sub_diag. }
      cbn [mbind option_bind skip]. destruct (p c).
      * replace (Z.of_nat (length B) - 1) with (Z.max 0 (slen B - 1)) by slens. apply (IH ([c] ++ A)); [done|lia].
      * rewrite slen_cons. f_equal. slens.
    + assert (B = []) as -> by (destruct B; [done|rewrite slen_cons in *; pose proof (slen_nonneg B); lia]).
      cbn [skip]. by destruct (p c).
Qed.

Lemma skip_length p t : (length (skip p t) <= length t)%nat.
Proof. induction t as [|c t IH]; cbn; [lia|]. destruct (p c); cbn; lia. Qed.

Lemma holds_split b B A p : holds b (reverse B ++ A) -> exists A', holds b (reverse (skip p B) ++ A').
Proof.
  intros Hb. destruct (skip_split p B) as (pre & E & _). rewrite E, reverse_app, <-app_assoc in Hb. by eexists.
Qed.

Lemma word_start_spec b B A :
  holds b (reverse B ++ A) -> B <> [] -> (length (without_word B) = 0 \/ 3 <= length (without_word B))%nat ->
  exists i, word_start b (slen B) = Some (Z.of_nat i) /\ (i <= length B)%nat /\
    take i (reverse B) = reverse (match without_word B with [] => [] | W => 32 :: W end).
Proof.
  intros Hb Hne Hw. unfold word_start. pose proof (slen_nonneg B).
  assert (0 < slen B) by (destruct B; [done|rewrite slen_cons; pose proof (slen_nonneg B); lia]).
  assert (Hn : (length B <= Z.to_nat (slen B))%nat) by (unfold slen; lia).
  replace (slen B - 1) with (Z.max 0 (slen B - 1)) by lia. rewrite (back_while_skip b is_space B A) by done. cbn [mbind option_bind].
  destruct (holds_split _ _ _ is_space Hb) as [A1 Hb1]. pose proof (skip_length is_space B). set (B1 := skip is_space B) in *.
  change (fun c => negb (is_space c)) with word.
  rewrite (back_while_skip b word B1 A1) by (done || lia). cbn [mbind option_bind].
  destruct (holds_split _ _ _ word Hb1) as [A2 Hb2]. pose proof (skip_length word B1). set (B2 := skip word B1) in *.
  rewrite (back_while_skip b is_space B2 A2) by (done || lia). cbn [mbind option_bind].
  pose proof (skip_length is_space B2). change (skip is_space B2) with (without_word B) in *. remember (without_word B) as W eqn:EW.
  destruct W as [|w W]; [|rewrite slen_cons; pose proof (slen_nonneg W)].
  - exists 0%nat. split_and!; [done|lia|done].
  - destruct Hw as [|Hw]; [done|]. rewrite (proj2 (Z.ltb_lt 1 _)) by (unfold slen; cbn [length] in Hw; lia).
    destruct (skip_split is_space B2) as (pre & E2 & Hp). change (skip is_space B2) with (without_word B) in E2. rewrite <-EW in E2.
    assert (Hskip : B2 <> w :: W).
    { intros EB2. assert (is_space w = false) by (apply (skip_head is_space B2 w W); by rewrite EW).
      assert (word w = false) as Hc by (apply (skip_head word B1 w W); by rewrite <-EB2). unfold word in Hc. by destruct (is_space w). }
    assert (Hpre : exists pre', pre = pre' ++ [32]).
    { clearbody B2. assert (pre <> []) as Hpre by (intros ->; cbn in E2; apply Hskip with (1 := E2)).
      destruct pre as [|x pre _] using rev_ind; [done|]. exists pre. apply Forall_app in Hp as [_ Hp]. inversion Hp. unfold is_space in *. do 2 f_equal. lia. }
    destruct Hpre as [pre' ->].
    destruct (skip_split is_space B) as (p1 & E0 & _). destruct (skip_split word B1) as (p2 & E1 & _). fold B1 in E0. fold B2 in E1.
    assert (EB : B = (p1 ++ p2 ++ pre') ++ 32 :: w :: W).
    { rewrite E0, E1, E2 at 1. by rewrite <-!app_assoc. }
    assert (Hlk : reverse B ++ A = reverse (w :: W) ++ 32 :: (reverse (p1 ++ p2 ++ pre') ++ A)).
    { rewrite EB, reverse_app, (reverse_cons (w :: W) 32), <-!app_assoc. done. }
    replace (Z.max 0 (slen W + 1 - 1) + 1) with (Z.of_nat (length (w :: W))) by (unfold slen; cbn [length]; lia).
    rewrite Hlk in Hb. rewrite (holds_peek _ _ Hb _ 32).
    2: { rewrite lookup_app_r by (rewrite length_reverse; lia). by rewrite length_reverse, Nat.sub_diag. }
    cbn [mbind option_bind]. exists (S (length (w :: W))). split_and!.
    + change (is_space 32) with true. cbv iota. f_equal. unfold slen. cbn [length]. lia.
    + rewrite EB, length_app. cbn [length]. lia.
    + rewrite EB, reverse_app. rewrite take_app_length'; [done|]. by rewrite length_reverse.
Qed.

Lemma word_related l s l' : related l s -> edit KWord l = Some l' -> exists s', erase_word s = Some s' /\ related l' s'.
Proof.
  intros Hr E. pose proof (rel_holds _ _ Hr) as Hh. unfold erase_word. rewrite (after_at _ _ Hr). rewrite (rel_idx _ _ Hr).
  destruct (rb l) as [|c B] eqn:Eb.
  { cbn in E. rewrite Eb in E. cbn in E. injection E as <-. eexists. split; [done|]. rewrite <-Eb. by rewrite put_same. }
  rewrite (proj2 (Z.ltb_lt _ _)) by (rewrite slen_cons; pose proof (slen_nonneg B); lia). rewrite <-Eb.
  cbn [edit] in E. remember (without_word (rb l)) as W eqn:EW.
  destruct (word_start_spec (dl_buffer s) (rb l) (after l)) as (i & -> & Hi & Et); [done|by rewrite Eb|rewrite <-EW; destruct W as [|? [|? [|? ?]]]; cbn; (done || lia)|].
  rewrite <-EW in Et. cbn [mbind option_bind]. set (W' := match W with [] => [] | _ => 32 :: W end) in *.
  assert (E' : l' = put W' (after l) l).
  { subst W'. destruct W as [|? [|? [|? ?]]]; congruence. }
  assert (Hl : take i (text l) = reverse W') by (unfold text; rewrite take_app_le by (by rewrite length_reverse); rewrite Et; subst W'; by destruct W).
  pose proof (holds_room _ _ Hh) as Hroom. destruct (nz_parts _ _ Hr) as [_ Hz].
  assert (length W' = i) as HW by (rewrite <-(length_reverse W'), <-Hl; rewrite length_take; unfold text; rewrite length_app, length_reverse; lia).
  destruct (strcpy_related l s Hr i (after l) W' (after l)) as (b & Es & Hb & Hrel).
  - unfold text. rewrite length_app, length_reverse. lia.
  - done.
  - by rewrite Hl.
  - rewrite slen_text in Hroom. unfold slen in *. lia.
  - rewrite Es. cbn [mbind option_bind]. rewrite (holds_str _ _ Hb). cbn [mbind option_bind]. eexists. split; [done|]. rewrite E'.
    apply Hrel; [by rewrite slen_app, slen_reverse|]. unfold slen. by rewrite HW.
Qed.

(** ** Every key *)
Lemma key_char words opt c input s :
  c ∉ special -> key words opt c input s = (fun s => (Going opt, input, s)) <$> type_key c s.
Proof.
  intros Hc. unfold special in Hc. rewrite !not_elem_of_cons in Hc. destruct_and! Hc. unfold key.
  repeat (rewrite (proj2 (Z.eqb_neq c _)) by done). done.
Qed.

Lemma key_related words opt k rest l l' s : related l s -> edit k l = Some l' ->
  exists c cs s', codes k = c :: cs /\ key words opt c (cs ++ rest) s = Some (Going opt, rest, s') /\ related l' s'.
Proof.
  intros Hr E. destruct k as [c|esc|esc| | |c| | | |esc|esc|c]; cbn [codes].
  - destruct (type_related _ _ Hr _ _ E) as (s' & Es & Hs). exists c, [], s'. split; [done|]. cbn [edit] in E.
    case_bool_decide; [|done]. by rewrite key_char, Es.
  - destruct (left_related _ _ Hr esc) as (? & E' & Hs). assert (x = l') as -> by congruence. destruct esc; by do 3 eexists.
  - destruct (right_related _ _ Hr esc) as (? & E' & Hs). assert (x = l') as -> by congruence. destruct esc; by do 3 eexists.
  - injection E as <-. do 3 eexists. split_and!; [done..|]. by apply (related_idx l s [] (text l)).
  - injection E as <-. do 3 eexists. split_and!; [done..|]. rewrite (rel_len _ _ Hr).
    rewrite <-(slen_reverse (text l)). apply (related_idx l s _ []); [done|]. by rewrite reverse_involutive, app_nil_r.
  - destruct (back_related _ _ Hr _ _ E) as (s' & Es & Hs). exists c, [], s'. split; [done|]. cbn [edit] in E.
    case_bool_decide as Hc; [|done].
    assert (key words opt c ([] ++ rest) s = (fun s => (Going opt, rest, s)) <$> backspace s) as -> by
      (assert (c = 8 \/ c = 127) as [-> | ->] by set_solver; done). by rewrite Es.
  - destruct (cut_related _ _ Hr) as (? & s' & E' & Es & Hs). assert (x = l') as -> by congruence.
    do 3 eexists. split; [done|].
    change (key words opt 21 ([] ++ rest) s) with ((fun s => (Going opt, rest, s)) <$> cut s). by rewrite Es.
  - destruct (paste_related _ _ Hr) as (? & s' & E' & Es & Hs). assert (x = l') as -> by congruence.
    do 3 eexists. split; [done|].
    change (key words opt 25 ([] ++ rest) s) with ((fun s => (Going opt, rest, s)) <$> paste s). by rewrite Es.
  - destruct (word_related _ _ _ Hr E) as (s' & Es & Hs). do 3 eexists. split; [done|].
    change (key words opt 23 ([] ++ rest) s) with ((fun s => (Going opt, rest, s)) <$> erase_word s). by rewrite Es.
  - destruct (up_related _ _ Hr _ _ E) as (s' & r & Es & Hs). exists (if esc then 27 else 16), (if esc then [91; 65] else []), s'. split; [by destruct esc|].
    assert (key words opt (if esc then 27 else 16) ((if esc then [91; 65] else []) ++ rest) s =
      (fun s => (Going opt, rest, s)) <$> (fst <$> dl_hist_up s)) as -> by by destruct esc. by rewrite Es.
  - destruct (down_related _ _ Hr esc) as (? & s' & r & E' & Es & Hs). assert (x = l') as -> by congruence.
    exists (if esc then 27 else 14), (if esc then [91; 66] else []), s'. split; [by destruct esc|].
    assert (key words opt (if esc then 27 else 14) ((if esc then [91; 66] else []) ++ rest) s =
      (fun s => (Going opt, rest, s)) <$> (fst <$> dl_hist_down s)) as -> by by destruct esc. by rewrite Es.
  - cbn [edit] in E. case_bool_decide as Hc; [|done]. injection E as <-. exists c, [], s. split; [done|].
    assert (c = 0 \/ c = 11 \/ c = 18) as [-> | [-> | ->]] by set_solver; done.
Qed.

Lemma redraw_related echo l s : related l s -> redraw echo s = Some tt.
Proof.
  intros Hr. destruct echo; [|done]. unfold redraw. rewrite (holds_str _ _ (rel_holds _ _ Hr)). cbn [mbind option_bind].
  rewrite (proj2 (Z.leb_le _ _)); [done|]. rewrite (rel_idx _ _ Hr). pose proof (holds_room _ _ (rel_holds _ _ Hr)) as H.
  rewrite slen_text in H. pose proof (slen_nonneg (after l)). destruct (rel_holds _ _ Hr) as [_ HL _]. lia.
Qed.

Lemma loop_related words echo ks : forall n opt rest l l' s, related l s -> edits ks l = Some l' ->
  exists s', related l' s' /\
    readline_loop words echo (length ks + n) opt ((ks ≫= codes) ++ rest) s = readline_loop words echo n opt rest s'.
Proof.
  induction ks as [|k ks IH]; intros n opt rest l l' s Hr E; cbn [edits] in E.
  - injection E as <-. by exists s.
  - destruct (edit k l) as [l1|] eqn:Ek; cbn [mbind option_bind] in E; [|done].
    destruct (related_end _ _ Hr) as (b & Eb & Hr1).
    destruct (key_related words opt k ((ks ≫= codes) ++ rest) _ _ _ Hr1 Ek) as (c & cs & s1 & Ec & Es & Hs).
    destruct (IH n opt rest l1 l' s1 Hs E) as (s' & Hr' & E'). exists s'. split; [done|].
    cbn [length Nat.add readline_loop]. rewrite Eb. cbn [mbind option_bind]. rewrite bind_cons, Ec, <-!app_comm_cons, <-app_assoc.
    cbn [readchar]. rewrite Es. cbn [mbind option_bind]. by rewrite (redraw_related _ _ _ Hs).
Qed.

(** ** The theorems *)

(** What a line is read into: the buffer may hold anything. *)
Record sane (s : dl_t) : Prop := Sane {
  sane_length : Z.of_nat (length (dl_buffer s)) = DL_BUFSIZE;
  sane_clip : from_option nz True (dl_clipboard s);
  sane_idx : 0 <= dl_histidx s;
  sane_hist : forall i t, dl_history s !! i = Some (Some t) -> nz t /\ slen t < 1023 }.
Definition blank (s : dl_t) : line_t := Line [] [] (dl_clipboard s) (dl_history s) (dl_histidx s).

Lemma related_sane l s : related l s -> sane s.
Proof.
  intros Hr. destruct (rel_holds _ _ Hr), (rel_hidx _ _ Hr) as [Ei ?]. split; [done| |lia|].
  - rewrite (rel_clip _ _ Hr). apply Hr.
  - rewrite (rel_hist _ _ Hr). apply Hr.
Qed.

Lemma blank_related s : sane s -> exists b, store (dl_buffer s) 0 [0] = Some b /\ related (blank s) (with_line b 0 0 s).
Proof.
  intros [Hl Hc Hi Hh]. unfold store. rewrite (proj2 (Z.leb_le _ _)), (proj2 (Z.leb_le _ _)) by (rewrite ?Hl; cbn; unfold DL_BUFSIZE; lia).
  eexists. split; [done|]. split; try done. split.
  - by eexists.
  - cbn [dl_buffer with_line]. rewrite patch_length; [done|]. cbn. unfold DL_BUFSIZE in *. lia.
  - constructor.
Qed.

(** C9: For every line typed with keys that do what they are meant to, the editor on the array returns the text of the
    idealised editor, stays inside of its array, and leaves clipboard and history as that one has them. *)
Theorem editor_refines words echo ks rest s l' :
  sane s -> edits ks (blank s) = Some l' ->
  exists s', dl_readline words echo ((ks ≫= codes) ++ 13 :: rest) s =
      Some (Some (if bool_decide (text l' = [33]) then [] else text l'), rest, s') /\
    sane s' /\ clip l' = dl_clipboard s' /\ hist l' = dl_history s' /\ hidx l' = dl_histidx s'.
Proof.
  intros Hs E. destruct (blank_related s Hs) as (b & Eb & Hr). unfold dl_readline. rewrite Eb. cbn [mbind option_bind].
  assert (Hn : exists n, S (length ((ks ≫= codes) ++ 13 :: rest)) = (length ks + S n)%nat).
  { clear. rewrite length_app. exists (length (ks ≫= codes) - length ks + S (length rest))%nat. cbn [length].
    assert (length ks <= length (ks ≫= codes))%nat; [|lia]. induction ks as [|k ks IH]; [done|].
    rewrite bind_cons, length_app. destruct k as [| [] | [] | | | | | | | [] | [] |]; cbn [codes length]; lia. }
  destruct Hn as [n ->]. destruct (loop_related words echo ks (S n) 0 (13 :: rest) _ _ _ Hr E) as (s1 & Hr1 & ->).
  cbn [readline_loop]. destruct (related_end _ _ Hr1) as (b' & -> & Hr2). cbn [mbind option_bind readchar].
  match goal with |- context [key words 0 13 rest ?x] => change (key words 0 13 rest x) with (Some (Finish, rest, x)) end. cbn [mbind option_bind].
  unfold finish. rewrite (holds_str _ _ (rel_holds _ _ Hr2)). cbn [mbind option_bind].
  eexists. split; [done|]. split; [by eapply related_sane|]. destruct Hr2 as [_ _ _ Hc _ Hh [Hi _] _]. done.
Qed.

(** *** The history *)
Definition adds (ls : list str) (s : dl_t) : dl_t := foldl (fun s l => (dl_hist_add l s).1) s ls.

(** A line that is a line of a file. *)
Record file_line (l : str) : Prop := FileLine { fl_nz : nz l; fl_nl : 10 ∉ l; fl_ne : l <> []; fl_len : slen l < 1022 }.

Lemma hist_add_sane l s : sane s -> nz l -> slen l < 1023 -> sane (dl_hist_add l s).1.
Proof.
  intros [Hl Hc Hi Hh] Hz Hn. unfold dl_hist_add. set (i := if _ <=? _ then 0 else _).
  assert (0 <= i) by (unfold i; zcase; lia). destruct l as [|c l]; cbn [fst]; [by split|]. split; cbn [dl_histidx with_history]; [done|done|lia|].
  intros j t. cbn [dl_history with_history]. intros [(_ & [= <-] & _)|[_ H']]%list_lookup_insert_Some; [done|by apply (Hh j)].
Qed.

Lemma adds_history pre ls s :
  (length pre + length ls <= Z.to_nat DL_HISTSIZE)%nat -> Forall (fun l => l <> []) ls ->
  dl_history s = (Some <$> pre) ++ replicate (Z.to_nat DL_HISTSIZE - length pre) None -> dl_histidx s = Z.of_nat (length pre) ->
  dl_history (adds ls s) = (Some <$> pre ++ ls) ++ replicate (Z.to_nat DL_HISTSIZE - length (pre ++ ls)) None /\
  dl_histidx (adds ls s) = Z.of_nat (length (pre ++ ls)).
Proof.
  revert pre s. induction ls as [|l ls IH]; intros pre s Hl Hne Hh Hi; [by rewrite app_nil_r|].
  inversion Hne as [|? ? Hl0 Hls]; subst. cbn [length] in Hl. replace (pre ++ l :: ls) with ((pre ++ [l]) ++ ls) by by rewrite <-app_assoc.
  assert (Hs : dl_histsize s = DL_HISTSIZE).
  { unfold dl_histsize. rewrite Hh, length_app, length_fmap, length_replicate. unfold DL_HISTSIZE in *. lia. }
  cbn [adds foldl]. apply IH; rewrite ?length_app; cbn [length]; [lia|done| |]; unfold dl_hist_add; rewrite Hs, Hi;
    rewrite (proj2 (Z.leb_gt _ _)) by (unfold DL_HISTSIZE in *; lia); destruct l as [|c l]; try done; cbn [fst dl_history dl_histidx with_history].
  - rewrite Hh, Nat2Z.id. rewrite insert_app_r_alt by (by rewrite length_fmap). rewrite length_fmap, Nat.sub_diag, fmap_app, <-app_assoc.
    f_equal. replace (Z.to_nat DL_HISTSIZE - length pre)%nat with (S (Z.to_nat DL_HISTSIZE - (length pre + 1))) by (unfold DL_HISTSIZE in *; lia). done.
  - lia.
Qed.

Lemma save_lines s ls k :
  (forall j x, ls !! j = Some x -> hist_get s (Z.of_nat (k + j)) = Some x) ->
  mapM (fun i => (fun l => l ++ [10]) <$> hist_get s i) (seqZ (Z.of_nat k) (Z.of_nat (length ls))) = Some ((fun l => l ++ [10]) <$> ls).
Proof.
  revert k. induction ls as [|l ls IH]; intros k H; [done|]. cbn [length]. rewrite Nat2Z.inj_succ, seqZ_cons by lia.
  cbn [mapM]. replace k with (k + 0)%nat at 1 by lia. rewrite (H 0%nat l) by done. cbn [fmap option_fmap option_map mbind option_bind].
  replace (Z.succ (Z.of_nat k)) with (Z.of_nat (S k)) by lia. replace (Z.pred _) with (Z.of_nat (length ls)) by lia. rewrite IH; [done|].
  intros j x Hj. replace (S k + j)%nat with (k + S j)%nat by lia. by apply H.
Qed.

Lemma fgets_line n l rest : 10 ∉ l -> (length l < n)%nat -> fgets n (l ++ 10 :: rest) = (l ++ [10], rest, false).
Proof.
  revert n. induction l as [|c l IH]; intros n Hl Hn; (destruct n; [cbn in Hn; lia|]); [done|].
  rewrite not_elem_of_cons in Hl. destruct Hl as [Hc Hl]. cbn. rewrite (proj2 (Z.eqb_neq _ _)) by done. rewrite IH; [done..|cbn in Hn; lia].
Qed.

Lemma load_lines ls : forall fuel s, Forall file_line ls -> (length ls < fuel)%nat ->
  load_loop fuel (concat ((fun l => l ++ [10]) <$> ls)) s = Some (adds ls s).
Proof.
  induction ls as [|l ls IH]; intros fuel s Hls Hf; (destruct fuel as [|fuel]; [cbn in Hf; lia|]); [done|].
  inversion Hls as [|? ? [Hz Hn Hne Hl] Hls']; subst. cbn [fmap list_fmap concat load_loop].
  rewrite <-app_assoc. cbn [app]. rewrite fgets_line by (done || (unfold slen in *; lia)).
  rewrite cstr_app by (apply nz_app; split; [done|by repeat constructor]). cbn [mbind option_bind].
  rewrite slen_app. pose proof (slen_nonneg l). change (slen [10]) with 1. rewrite (proj2 (Z.eqb_neq _ _)) by lia.
  rewrite removelast_last. rewrite IH; [done..|cbn in Hf; lia].
Qed.

(** A history that is saved is loaded as it was. *)
Theorem history_roundtrip ls :
  (length ls <= Z.to_nat DL_HISTSIZE)%nat -> Forall file_line ls ->
  dl_hist_save (adds ls dl_init) ≫= (fun f => dl_hist_load f dl_init) = Some (adds ls dl_init).
Proof.
  intros Hl Hls. destruct (adds_history [] ls dl_init) as [Hh Hi]; [done| |done..|].
  { eapply Forall_impl; [done|]. intros l []. done. }
  cbn [app] in *. unfold dl_hist_save. rewrite Hi. rewrite (save_lines _ _ 0).
  - cbn [fmap option_fmap option_map mbind option_bind]. unfold dl_hist_load. rewrite load_lines; [done|done|].
    clear -Hls. induction Hls as [|l ls [_ _ Hne _] _ IH]; cbn [fmap list_fmap concat length] in *; [lia|].
    rewrite !length_app. cbn [length]. lia.
  - intros j x Hj. unfold hist_get. cbn [Nat.add]. rewrite (proj2 (Z.ltb_ge _ _)), Hh, Nat2Z.id by lia.
    rewrite lookup_app_l by (rewrite length_fmap; by eapply lookup_lt_Some). by rewrite list_lookup_fmap, Hj.
Qed.

(** Going up shows the lines that were added, the last one first. *)
Theorem up_shows ls k t l esc :
  (length ls <= Z.to_nat DL_HISTSIZE)%nat -> Forall (fun l => l <> []) ls -> reverse ls !! k = Some t ->
  hist l = dl_history (adds ls dl_init) -> hidx l = dl_histidx (adds ls dl_init) ->
  exists l', edits (replicate (S k) (KUp esc)) l = Some l' /\ text l' = t /\ hist l' = hist l /\ hidx l' = hidx l - Z.of_nat (S k).
Proof.
  intros Hl Hne Hk El Ei. destruct (adds_history [] ls dl_init) as [Hh Hi]; [done..|]. cbn [app] in *.
  rewrite Hh in El. rewrite Hi in Ei. clear Hh Hi. revert t Hk. induction k as [|k IH]; intros t Hk.
  - apply lookup_lt_Some in Hk as Hlt. rewrite length_reverse in Hlt. rewrite reverse_lookup in Hk by done.
    cbn [replicate edits edit]. rewrite Ei, El. rewrite (proj2 (Z.ltb_lt _ _)) by lia.
    rewrite lookup_app_l by (rewrite length_fmap; lia). rewrite list_lookup_fmap.
    replace (Z.to_nat (Z.of_nat (length ls) - 1)) with (length ls - 1)%nat by lia. rewrite Hk. cbn [mjoin option_join mbind option_bind fmap option_fmap option_map].
    eexists. split; [done|]. unfold text. cbn [rb after hist hidx]. rewrite reverse_involutive, app_nil_r. split_and!; [done|by rewrite ?El|lia].
  - apply lookup_lt_Some in Hk as Hlt. rewrite length_reverse in Hlt.
    destruct (reverse ls !! k) as [t'|] eqn:Ek; [|apply lookup_ge_None in Ek; rewrite length_reverse in Ek; lia].
    destruct (IH t' eq_refl) as (l1 & E1 & _ & Eh & Ex).
    rewrite reverse_lookup in Hk by done. rewrite Ei in Ex |- *.
    replace (S (S k)) with (S k + 1)%nat by lia. rewrite replicate_add.
    assert (edits_app : forall a b l, edits (a ++ b) l = edits a l ≫= edits b).
    { induction a as [|x a IHa]; intros b' l0; [done|]. cbn [app edits]. destruct (edit x l0); cbn; [apply IHa|done]. }
    rewrite edits_app, E1. cbn [mbind option_bind replicate edits edit]. rewrite Eh, El, Ex.
    rewrite (proj2 (Z.ltb_lt _ _)) by lia. rewrite lookup_app_l by (rewrite length_fmap; lia). rewrite list_lookup_fmap.
    replace (Z.to_nat (Z.of_nat (length ls) - Z.of_nat (S k) - 1)) with (length ls - S (S k))%nat by lia. rewrite Hk. cbn [mjoin option_join mbind option_bind fmap option_fmap option_map].
    eexists. split; [done|]. unfold text. cbn [rb after hist hidx]. rewrite reverse_involutive, app_nil_r. split_and!; [done|by rewrite ?El|lia].
Qed.

(** ** Examples *)
Definition typed (words : list str) (input : list Z) (s : dl_t) : option (option str * Z * Z) :=
  '(r, _, s') ← dl_readline words true input s; Some (r, dl_buffer_len s', dl_buffer_idx s').

(** Erasing before the cursor inside of the text keeps the old length: what is then typed at the end stands behind a
    zero and is lost. *)
Example erased_inside_loses_typed : typed [] [97; 98; 19; 8; 5; 120; 13] dl_init = Some (Some [98], 3, 3).
Proof. vm_compute. reflexivity. Qed.

(** Behind a first word of two letters erasing a word takes a letter of the first one, too. *)
Example short_word_erased : typed [] [97; 98; 32; 99; 99; 23; 13] dl_init = Some (Some [97], 1, 1).
Proof. vm_compute. reflexivity. Qed.

(** The key that should erase under the cursor erases the first character, and the last byte of its code is typed. *)
Example supr_takes_first : typed [] [97; 98; 99; 19; 27; 91; 51; 126; 13] dl_init = Some (Some [98; 99; 126], 4, 3).
Proof. vm_compute. reflexivity. Qed.

(** Text that is typed in front of other text is not counted against the buffer. *)
Example inserting_overflows : typed [] (replicate 900 97 ++ [1] ++ replicate 130 98 ++ [13]) dl_init = None.
Proof. vm_compute. reflexivity. Qed.

(** At the end the text stops growing at 1000 characters, but the cursor does not stop. *)
Example cursor_runs_away :
  ('(r, len, idx) ← typed [] (replicate 1020 97 ++ [13]) dl_init; Some (option_map length r, len, idx)) =
    Some (Some 1000%nat, 1000, 1020) /\
  typed [] (replicate 1030 97 ++ [13]) dl_init = None.
Proof. vm_compute. done. Qed.

(** The character 255 is the end of the input. *)
Example char_255_ends : typed [] [97; -1; 98; 13] dl_init = Some (None, 1, 1).
Proof. vm_compute. reflexivity. Qed.

(** A line that is added after going up takes the place of a later one. *)
Example history_overwritten :
  let s := adds [[97]; [98]; [99]] dl_init in
  (fun s' => (dl_hist_list (adds [[100]] s'.1)).1) <$> (dl_hist_up s ≫= fun r => dl_hist_up r.1) = Some [[97]; [100]; [99]].
Proof. vm_compute. reflexivity. Qed.

(** Completion takes the only word that begins like the text. *)
Example completes : typed [[111; 112]; [97]] [111; 9; 13] dl_init = Some (Some [111; 112], 2, 2).
Proof. vm_compute. reflexivity. Qed.

Lemma dl_init_sane : sane dl_init.
Proof.
  split; [done..|]. intros i t H. exfalso. cbn in H. apply lookup_replicate in H as [? _]. done.
Qed.

Example editor_refines_witness :
  exists s', dl_readline [] true (([KChar 97; KChar 32; KLeft true; KChar 98; KHome; KChar 99; KEnd; KBack 8; KUp false; KChar 33] ≫= codes) ++ 13 :: [7])
      (adds [[100; 101]] dl_init) = Some (Some [100; 101; 33], [7], s').
Proof.
  destruct (editor_refines [] true
      [KChar 97; KChar 32; KLeft true; KChar 98; KHome; KChar 99; KEnd; KBack 8; KUp false; KChar 33] [7] (adds [[100; 101]] dl_init)
      (Line [33; 101; 100] [] None (dl_history (adds [[100; 101]] dl_init)) 0)) as (s' & E & _).
  - apply hist_add_sane; [apply dl_init_sane| |done]. by repeat constructor.
  - vm_compute. reflexivity.
  - exists s'. rewrite E. vm_compute. reflexivity.
Defined.

Example history_roundtrip_witness :
  dl_hist_save (adds [[97; 98]; [99]] dl_init) ≫= (fun f => dl_hist_load f dl_init) = Some (adds [[97; 98]; [99]] dl_init).
Proof.
  apply (history_roundtrip [[97; 98]; [99]]); [vm_compute; lia|].
  repeat constructor; try done; set_solver.
Defined.
