(* ===== verification/Remote.v ===== *)
(** * Another radare as a plugin: [src/plug/io/remote.c]

    The plugin sends requests over a connection; a radare that listens answers them from its own state, the one of
    [Rio].  A peer's message is delivered whole and in order, and the peer that reads nothing waits.  [None] is
    undefined behaviour of either side; the zero byte that is set behind a buffer of exactly the size of its text is
    left out of account. *)
From S2P Require Import Prelude StateM Sections Io Rio Utils.
#[local] Open Scope Z_scope.

Definition RMT_OPEN : Z := 0x01.
Definition RMT_READ : Z := 0x02.
Definition RMT_WRITE : Z := 0x03.
Definition RMT_SEEK : Z := 0x04.
Definition RMT_CLOSE : Z := 0x05.
Definition RMT_SYSTEM : Z := 0x06.
Definition RMT_CMD : Z := 0x07.
Definition RMT_REPLY : Z := 0x80.

(** ** Numbers on the wire

    [endian_memcpy] of a number of [n] bytes; [e] is the variable [cfg.bigendian] of the side that calls it. *)
Definition put_num (e : bool) (n : nat) (v : Z) : list Z := default [] (endian_memcpy_e (le_bytes n v) n e).
Definition get_num (e : bool) (n : nat) (bytes : list Z) : Z := le_value (default [] (endian_memcpy_e bytes n e)).

(** ** The side that listens *)

(** Its state, the array [buf] and the variable [x] of the function. *)
Record server (W : Type) := Server { rst : radare_st W; buf : list Z; x : Z }.
Arguments Server {W}. Arguments rst {W}. Arguments buf {W}. Arguments x {W}.

Inductive turn (W : Type) :=
  | Next (s : server W) (input output : list Z)  (* the request is answered *)
  | Blocked                                      (* more of it is awaited *)
  | Left.                                        (* the connection is closed *)
Arguments Next {W}. Arguments Blocked {W}. Arguments Left {W}.

(** [read] of [n] bytes into a buffer; [None] when nothing has come. *)
Definition recv (n : nat) (input into : list Z) : option (list Z * list Z) :=
  match n, input with
  | S _, [] => None
  | _, _ => Some (fill (take n input) into, drop n input)
  end.

Section server.
Context {W : Type} (plugins : list (plugin_t W)) (os_pread : Z -> Z -> Z -> option (list Z)) (fresh : nat -> list Z).
(** [radare_open] with a new name, the interpreter, and what the operating system does: [close], the output of a
    command with the name of the file it went through, and [write] to the terminal. *)
Context (open_file : list Z -> radare_st W -> option (radare_st W))
  (cmd_str : list Z -> radare_st W -> option (radare_st W * option (list Z)))
  (os_close : Z -> Z) (os_system : list Z -> option (list Z * list Z)) (os_print : list Z -> Z).
(** The variable [cfg.bigendian] of the side that listens. *)
Context (e : bool).

Definition with_rst (st : radare_st W) (s : server W) : server W := Server st (buf s) (x s).
Definition with_buf (b : list Z) (s : server W) : server W := Server (rst s) b (x s).

Definition handle_open (input : list Z) (s : server W) : option (turn W) :=
  match recv 1 input [0] with
  | None => Some Blocked
  | Some (_, input) =>
    match recv 1 input [RMT_OPEN] with
    | None => Some Blocked
    | Some (b, input) =>
      let len := Z.to_nat (nth 0 b 0) in
      match recv len input (fresh len) with
      | None => Some Blocked
      | Some (name, input) =>
        st ← open_file (take len name) (rst s);
        let out := (Z.lor RMT_OPEN RMT_REPLY) :: put_num e 4 (u32 (fd (conf st))) in
        Some (Next (Server st (fill out (buf s)) (x s)) input out)
      end
    end
  end.

Definition handle_read (input : list Z) (s : server W) : option (turn W) :=
  match recv 4 input (buf s) with
  | None => Some Blocked
  | Some (b, input) =>
    let i := s32 (get_num e 4 b) in
    if i <? 0 then None
    else
      '(_, st) ← radare_read plugins os_pread false (rst s);
      let bs := block_size (conf st) in
      let i := if bs <? i then bs else i in
      if (i <? 0) || (Z.of_nat (length (block (conf st))) <? bs) then None
      else Some (Next (Server st b (x s)) input
                   ((Z.lor RMT_READ RMT_REPLY) :: put_num e 4 i ++ take (Z.to_nat i) (block (conf st))))
  end.

(** The size is looked for a byte too late, and is only the lower half of [x]; nothing is answered. *)
Definition handle_write (input : list Z) (s : server W) : option (turn W) :=
  match recv 5 input (buf s) with
  | None => Some Blocked
  | Some (b, input) =>
    let x := x s / 2 ^ 32 * 2 ^ 32 + get_num e 4 (drop 1 b) in
    match recv (Z.to_nat x) input (fresh (Z.to_nat x)) with
    | None => Some Blocked
    | Some (data, input) =>
      '(_, st) ← radare_write_at plugins os_pread fresh (seek (conf (rst s))) data (rst s);
      Some (Next (Server st b x) input [])
    end
  end.

(** The new position is answered as an [int]. *)
Definition handle_seek (input : list Z) (s : server W) : option (turn W) :=
  match recv 9 input (buf s) with
  | None => Some Blocked
  | Some (b, input) =>
    let off := get_num e 8 (drop 1 b) in
    let st := rst s in
    '(d, r) ← io_lseek plugins (conf st) (fd (conf st)) off (nth 0 b 0) (dev st);
    let x := u64 (s32 r) in
    let out := (Z.lor RMT_SEEK RMT_REPLY) :: put_num e 8 x in
    Some (Next (Server (with_conf (set_seek r (conf st)) (with_dev (write_last st) d st)) (fill out b) x) input out)
  end.

Definition handle_close (input : list Z) (s : server W) : option (turn W) :=
  match recv 4 input (buf s) with
  | None => Some Blocked
  | Some (b, input) =>
    let out := (Z.lor RMT_CLOSE RMT_REPLY) :: put_num e 4 (u32 (os_close (s32 (get_num e 4 b)))) in
    Some (Next (with_buf (fill out b) s) input out)
  end.

(** The command is run in a shell; when its output cannot be read, the answer is written through a freed pointer. *)
Definition handle_system (input : list Z) (s : server W) : option (turn W) :=
  match recv 4 input (buf s) with
  | None => Some Blocked
  | Some (b, input) =>
    let i := s32 (get_num e 4 b) in
    if i <? 0 then None
    else
      match recv (Z.to_nat i) input (fresh (Z.to_nat i)) with
      | None => Some Blocked
      | Some (cmd, input) =>
        '(text, name) ← os_system (33 :: cmd);
        Some (Next (with_buf (fill name b) s) input
                ((Z.lor RMT_SYSTEM RMT_REPLY) :: put_num e 4 (Z.of_nat (length text)) ++ text))
      end
  end.

(** A length below one is not answered. *)
Definition handle_cmd (input : list Z) (s : server W) : option (turn W) :=
  match recv 4 input [0; 0; 0; 0] with
  | None => Some Blocked
  | Some (b, input) =>
    let i := s32 (get_num e 4 b) in
    if i <? 1 then Some (Next s input [])
    else
      match recv (Z.to_nat i) input (fresh (Z.to_nat i)) with
      | None => Some Blocked
      | Some (cmd, input) =>
        '(st, out) ← cmd_str cmd (rst s);
        let out := match out with Some text => text ++ [0] | None => [] end in
        Some (Next (with_rst st s) input
                ((Z.lor RMT_CMD RMT_REPLY) :: put_num e 4 (Z.of_nat (length out)) ++ out))
      end
  end.

Definition handle (cmd : Z) (input : list Z) (s : server W) : option (turn W) :=
  if cmd =? RMT_OPEN then handle_open input s
  else if cmd =? RMT_READ then handle_read input s
  else if cmd =? RMT_CMD then handle_cmd input s
  else if cmd =? RMT_WRITE then handle_write input s
  else if cmd =? RMT_SEEK then handle_seek input s
  else if cmd =? RMT_CLOSE then handle_close input s
  else if cmd =? RMT_SYSTEM then handle_system input s
  else Some Left.

(** ** The connection *)
Inductive conn_t := Open | Stuck | Closed.
Record link := Link { srv : server W; c2s : list Z; s2c : list Z; conn : conn_t }.

(** The server answers until nothing is left. *)
Fixpoint serve (fuel : nat) (l : link) : option link :=
  match fuel with
  | O => Some l
  | S fuel' =>
    match c2s l with
    | [] => Some l
    | cmd :: input =>
      t ← handle cmd input (srv l);
      match t with
      | Next s input out => serve fuel' (Link s input (s2c l ++ out) (conn l))
      | Blocked => Some (Link (srv l) (c2s l) (s2c l) Stuck)
      | Left => Some (Link (srv l) [] (s2c l) Closed)
      end
    end
  end.
(** A message goes out; every turn takes a byte of what is there. *)
Definition send (msg : list Z) (l : link) : option link :=
  match conn l with
  | Open => serve (S (length (c2s l ++ msg))) (Link (srv l) (c2s l ++ msg) (s2c l) Open)
  | _ => Some l
  end.

(** What a call of the client comes back with; [Hang] is a wait that does not end. *)
Inductive answer (A : Type) := Hang | Answer (a : A) (l : link).
Arguments Hang {A}. Arguments Answer {A}.

(** [read] of the client. *)
Definition cread (n : nat) (into : list Z) (l : link) : option (list Z * link) :=
  match n, s2c l with
  | S _, [] => match conn l with Closed => Some (into, l) | _ => None end
  | _, _ => Some (fill (take n (s2c l)) into, Link (srv l) (c2s l) (drop n (s2c l)) (conn l))
  end.

(** ** The plugin *)
(** The variable [cfg.bigendian] of this side. *)
Context (e' : bool).

(** The result is what [write] says of the whole message, whatever the answer. *)
Definition remote_write (data : list Z) (l : link) : option (answer Z) :=
  let msg := RMT_WRITE :: put_num e' 4 (u32 (Z.of_nat (length data))) ++ data in
  l ← send msg l;
  match cread 5 msg l with
  | None => Some Hang
  | Some (_, l) => Some (Answer (Z.of_nat (length data) + 5) l)
  end.

(** At most [count] bytes are asked for; how many come is up to the answer, and the buffer has to hold them. *)
Definition remote_read (count : Z) (into : list Z) (l : link) : option (answer (Z * list Z)) :=
  let msg := RMT_READ :: put_num e' 4 (u32 count) in
  l ← send msg l;
  match cread 5 msg l with
  | None => Some Hang
  | Some (tmp, l) =>
    if negb (nth 0 tmp 0 =? Z.lor RMT_READ RMT_REPLY) then Some (Answer (-1, into) l)
    else
      let i := s32 (get_num e' 4 (drop 1 tmp)) in
      if (i <? 0) || (Z.of_nat (length into) <? i) then None
      else
        match cread (Z.to_nat i) into l with
        | None => Some Hang
        | Some (into, l) => Some (Answer (i, into) l)
        end
  end.

Definition remote_lseek (offset whence : Z) (l : link) : option (answer Z) :=
  let msg := RMT_SEEK :: u8 whence :: put_num e' 8 offset in
  l ← send msg l;
  match cread 9 msg l with
  | None => Some Hang
  | Some (tmp, l) =>
    if negb (nth 0 tmp 0 =? Z.lor RMT_SEEK RMT_REPLY) then Some (Answer (2 ^ 64 - 1) l)
    else Some (Answer (get_num e' 8 (drop 1 tmp)) l)
  end.

(** A command behind an exclamation mark is run by this side. *)
Definition remote_system (local_system : list Z -> Z) (command : list Z) (l : link) : option (answer Z) :=
  if nth 0 command 0 =? 33 then Some (Answer (local_system (drop 1 command)) l)
  else if 1024 <? 5 + Z.of_nat (length command) then None
  else
    let msg := RMT_SYSTEM :: put_num e' 4 (Z.of_nat (length command)) ++ command in
    l ← send msg l;
    match cread 5 msg l with
    | None => Some Hang
    | Some (tmp, l) =>
      if negb (nth 0 tmp 0 =? Z.lor RMT_SYSTEM RMT_REPLY) then Some (Answer (-1) l)
      else
        let i := s32 (get_num e' 4 (drop 1 tmp)) in
        if i =? -1 then Some (Answer (-1) l)
        else if i <? 0 then None
        else
          match cread (Z.to_nat i) (fresh (Z.to_nat i)) l with
          | None => Some Hang
          | Some (text, l) => Some (Answer (i - os_print text) l)
          end
    end.

(** The request of [remote_open]: [file] begins with its slash.  The length is a [char], and the copy fails when it is
    negative; whether the other side could open the file is printed only. *)
Definition remote_connect (fd flags : Z) (file : list Z) (l : link) : option (answer Z) :=
  let len := u8 (Z.of_nat (length file) - 1) in
  if s8 len <? 0 then None
  else
    let msg := RMT_OPEN :: u8 flags :: len :: take (Z.to_nat len) (drop 1 file) in
    l ← send msg l;
    match cread 5 msg l with
    | None => Some Hang
    | Some (tmp, l) =>
      if negb (nth 0 tmp 0 =? Z.lor RMT_OPEN RMT_REPLY) then Some (Answer (-1) l) else Some (Answer fd l)
    end.
End server.
Arguments Link {W}. Arguments srv {W}. Arguments c2s {W}. Arguments s2c {W}. Arguments conn {W}.
Arguments Hang {W A}. Arguments Answer {W A}.

(** ** Names *)
Definition remote_handle_open (file : string) : bool :=
  starts_with "rap://" file || starts_with "connect://" file || starts_with "listen://" file.

Inductive target := Connect (host : string) (port : Z) (file : string) | Listen (port : Z) | Nowhere.

Fixpoint before (c : ascii) (s : string) : string :=
  match s with
  | EmptyString => EmptyString
  | String d s' => if Ascii.eqb d c then EmptyString else String d (before c s')
  end.

(** A name of [rap://] is turned into one of the others.  The slash of the file is looked for behind the first twelve
    characters. *)
Definition remote_target (pathname : string) : option target :=
  let buf := String.substring 0 1000 pathname in
  let buf :=
    if starts_with "rap://" buf then
      match strchr (str_drop 6 buf) ":" with
      | None => None
      | Some rest =>
        let port := fmt_d (atoi (str_drop 1 rest)) in
        Some (match before ":" (str_drop 6 buf) with
              | EmptyString => String.substring 0 1022 ("listen://:" +:+ port)
              | _ => String.substring 0 1022 ("connect://" +:+ str_drop 6 pathname +:+ ":" +:+ port)
              end)
      end
    else Some buf in
  match buf with
  | None => Some Nowhere
  | Some buf =>
    if starts_with "connect://" buf then
      match strchr (str_drop 10 buf) ":" with
      | None => Some Nowhere
      | Some port =>
        if (String.length pathname <? 12)%nat then None
        else
          match strchr (str_drop 12 pathname) "/" with
          | None => Some Nowhere
          | Some file => Some (Connect (before ":" (str_drop 10 buf)) (atoi (str_drop 1 port)) file)
          end
      end
    else if starts_with "listen://" buf then
      match strchr (str_drop 9 buf) ":" with
      | None => Some Nowhere
      | Some port => Some (if atoi (str_drop 1 port) <=? 0 then Nowhere else Listen (atoi (str_drop 1 port)))
      end
    else Some Nowhere
  end.

Example target_rap : remote_target "rap://host:9999//bin/ls" = Some (Connect "host" 9999 "//bin/ls").
Proof. vm_compute. reflexivity. Qed.
Example target_listen : remote_target "rap://:9999" = Some (Listen 9999).
Proof. vm_compute. reflexivity. Qed.
(** With a short host the slash is missed. *)
Example target_short : remote_target "rap://a:9/x" = None /\ remote_target "rap://a:9/tmp/x" = Some (Connect "a" 9 "/x").
Proof. vm_compute. done. Qed.
