(* ===== verification/RemoteSpec.v ===== *)
(** * What the connection promises: [src/plug/io/remote.c]

    Reads and seeks through the plugin are those of the radare on the other side; over a file that keeps the promise
    [Disk] the bytes of the file come through.  Writes are never answered. *)
From S2P Require Import Prelude StateM Sections Io IoPlugins Rio RioSpec Utils.
From S2P Require Import Remote.
#[local] Open Scope Z_scope.

(** ** Numbers *)
Lemma get_put e n v rest :
  n = 4%nat \/ n = 8%nat -> 0 <= v < 2 ^ (8 * Z.of_nat n) -> get_num e n (put_num e n v ++ rest) = v.
Proof.
  intros Hn Hv. rewrite <-(le_value_bytes n v) at 2 by done. unfold get_num, put_num. f_equal.
  destruct Hn as [-> | ->]; destruct e; destruct rest as [|? [|? [|? [|? ?]]]]; reflexivity.
Qed.


Lemma put_num_length e n v : n = 4%nat \/ n = 8%nat -> length (put_num e n v) = n.
Proof. intros [-> | ->]; by destruct e. Qed.

Lemma s32_u32 v : - 2 ^ 31 <= v < 2 ^ 31 -> s32 (u32 v) = v.
Proof.
  intros Hv. unfold s32, u32. rewrite Zplus_mod_idemp_l. rewrite Z.mod_small by lia. lia.
Qed.

Lemma recv_all n d rest into : length d = n -> recv n (d ++ rest) into = Some (d ++ drop n into, rest).
Proof.
  intros <-. unfold recv. rewrite take_app_length, drop_app_length. unfold fill. destruct d; [by destruct rest|done].
Qed.

Section spec.
Context {W : Type} (plugins : list (plugin_t W)) (os_pread : Z -> Z -> Z -> option (list Z)) (fresh : nat -> list Z).
Context (open_file : list Z -> radare_st W -> option (radare_st W))
  (cmd_str : list Z -> radare_st W -> option (radare_st W * option (list Z)))
  (os_close : Z -> Z) (os_system : list Z -> option (list Z * list Z)).
(** Both sides have the same byte order. *)
Context (e : bool).

Notation handle' := (handle plugins os_pread fresh open_file cmd_str os_close os_system e).
Notation send' := (send plugins os_pread fresh open_file cmd_str os_close os_system e).
Notation read' := (remote_read plugins os_pread fresh open_file cmd_str os_close os_system e e).
Notation lseek' := (remote_lseek plugins os_pread fresh open_file cmd_str os_close os_system e e).
Notation write' := (remote_write plugins os_pread fresh open_file cmd_str os_close os_system e e).

(** Nothing is on the way. *)
Definition idle (l : link) : Prop := conn l = Open /\ c2s l = [] /\ s2c (W:=W) l = [].

Lemma send_answered cmd rest l s out :
  idle l -> handle' cmd rest (srv l) = Some (Next s [] out) -> send' (cmd :: rest) l = Some (Link s [] out Open).
Proof.
  intros (Hc & Hi & Ho) H. unfold send. rewrite Hc, Hi. cbn [app serve c2s srv]. rewrite H. cbn [mbind option_bind conn s2c].
  rewrite Ho. by destruct rest.
Qed.

Lemma cread_all n d rest into s c : length d = n ->
  cread n into (Link (W:=W) s c (d ++ rest) Open) = Some (d ++ drop n into, Link s c rest Open).
Proof.
  intros <-. unfold cread. cbn [s2c srv c2s conn]. rewrite take_app_length, drop_app_length. unfold fill.
  destruct d; [by destruct rest|done].
Qed.

Lemma cread_whole n d into s c : length d = n ->
  cread n into (Link (W:=W) s c d Open) = Some (d ++ drop n into, Link s c [] Open).
Proof. intros H. rewrite <-(cread_all n d []) by done. by rewrite app_nil_r. Qed.

(** ** Reading and seeking *)
Inductive op := ORead (count : Z) | OSeek (offset whence : Z).

(** What the radare on the other side does when the same is asked of it. *)
Inductive local_step : op -> radare_st W -> Z * list Z -> radare_st W -> Prop :=
  | local_read count st r st' n :
    radare_read plugins os_pread false st = Some (r, st') -> 0 <= count < 2 ^ 31 ->
    0 <= block_size (conf st') < 2 ^ 31 -> Z.of_nat (length (block (conf st'))) = block_size (conf st') ->
    n = Z.min count (block_size (conf st')) ->
    local_step (ORead count) st (n, take (Z.to_nat n) (block (conf st'))) st'
  | local_seek offset whence st d r :
    io_lseek plugins (conf st) (fd (conf st)) offset whence (dev st) = Some (d, r) ->
    is_u64 offset -> 0 <= whence < 256 ->
    local_step (OSeek offset whence) st (r, []) (with_conf (set_seek r (conf st)) (with_dev (write_last st) d st)).

Inductive locals : list op -> radare_st W -> list (Z * list Z) -> radare_st W -> Prop :=
  | locals_nil st : locals [] st [] st
  | locals_cons o os st r st' rs st'' :
    local_step o st r st' -> locals os st' rs st'' -> locals (o :: os) st (r :: rs) st''.

(** How a result comes over: the place of a seek is kept in an [int] on the way. *)
Definition come_over (o : op) (r : Z * list Z) : Z * list Z :=
  match o with ORead _ => r | OSeek _ _ => (u64 (s32 r.1), r.2) end.

(** The same through the plugin: the result and the bytes that came. *)
Definition remote_op (o : op) (l : link) : option (answer (Z * list Z)) :=
  match o with
  | ORead count =>
    a ← read' count (replicate (Z.to_nat count) 0) l;
    Some (match a with Answer (i, b) l => Answer (i, take (Z.to_nat i) b) l | Hang => Hang end)
  | OSeek offset whence =>
    a ← lseek' offset whence l;
    Some (match a with Answer r l => Answer (r, []) l | Hang => Hang end)
  end.
Fixpoint remote_ops (os : list op) (l : link) : option (answer (list (Z * list Z))) :=
  match os with
  | [] => Some (Answer [] l)
  | o :: os' =>
    a ← remote_op o l;
    match a with
    | Hang => Some Hang
    | Answer r l =>
      a ← remote_ops os' l;
      Some (match a with Answer rs l => Answer (r :: rs) l | Hang => Hang end)
    end
  end.

Lemma remote_read_answers count st r st' l n :
  idle l -> rst (srv l) = st -> radare_read plugins os_pread false st = Some (r, st') -> 0 <= count < 2 ^ 31 ->
  0 <= block_size (conf st') < 2 ^ 31 -> Z.of_nat (length (block (conf st'))) = block_size (conf st') ->
  n = Z.min count (block_size (conf st')) ->
  exists l', remote_op (ORead count) l = Some (Answer (n, take (Z.to_nat n) (block (conf st'))) l') /\
    idle l' /\ rst (srv l') = st'.
Proof.
  intros Hl Hst Hr Hc Hb Hlen Hn. cbn [remote_op]. unfold remote_read.
  set (data := take (Z.to_nat n) (block (conf st'))).
  assert (Hd : length data = Z.to_nat n) by (unfold data; rewrite length_take; lia).
  assert (Hu : u32 count = count) by (apply u32_id; unfold is_u32; lia). rewrite Hu.
  set (s' := Server st' (put_num e 4 count ++ drop 4 (buf (srv l))) (x (srv l))).
  rewrite (send_answered _ _ l s' (Z.lor RMT_READ RMT_REPLY :: put_num e 4 n ++ data)); [|done|].
  - cbn [mbind option_bind]. set (hd := Z.lor RMT_READ RMT_REPLY).
    change (hd :: put_num e 4 n ++ data) with ((hd :: put_num e 4 n) ++ data).
    rewrite cread_all by (cbn [length]; by rewrite put_num_length by by left). cbn [mbind option_bind].
    cbn [app nth drop]. unfold hd at 1. rewrite Z.eqb_refl. cbn [negb]. rewrite ?drop_0.
    rewrite get_put by (by left || lia). rewrite s32_id by lia. rewrite (proj2 (Z.ltb_ge n 0)), (proj2 (Z.ltb_ge _ n)) by (rewrite ?length_replicate; lia).
    cbn [orb]. rewrite (cread_whole (Z.to_nat n) data) by done.
    exists (Link s' [] [] Open). cbn [mbind option_bind]. split; [|done]. do 2 f_equal. by rewrite take_app_length'.
  - unfold handle. change (RMT_READ =? RMT_OPEN) with false. change (RMT_READ =? RMT_READ) with true. cbv iota.
    unfold handle_read. rewrite <-(app_nil_r (put_num e 4 count)) at 1.
    rewrite recv_all by (apply put_num_length; by left). rewrite get_put by (by left || lia). rewrite s32_id by lia.
    rewrite (proj2 (Z.ltb_ge count 0)) by lia. rewrite Hst, Hr. cbn [mbind option_bind].
    replace (if block_size (conf st') <? count then block_size (conf st') else count) with n by (zcase; lia).
    rewrite (proj2 (Z.ltb_ge n 0)), (proj2 (Z.ltb_ge _ (block_size (conf st')))) by lia. done.
Qed.

Lemma remote_seek_answers offset whence st d r l :
  idle l -> rst (srv l) = st -> io_lseek plugins (conf st) (fd (conf st)) offset whence (dev st) = Some (d, r) ->
  is_u64 offset -> 0 <= whence < 256 ->
  exists l', remote_op (OSeek offset whence) l = Some (Answer (u64 (s32 r), []) l') /\
    idle l' /\ rst (srv l') = with_conf (set_seek r (conf st)) (with_dev (write_last st) d st).
Proof.
  intros Hl Hst Hr Ho Hw. set (i := u64 (s32 r)). assert (0 <= i < 2 ^ 64) as Hi by (apply Z.mod_pos_bound; lia). cbn [remote_op]. unfold remote_lseek.
  assert (Hu : u8 whence = whence) by (apply u8_id; unfold is_u8; lia). rewrite Hu.
  set (out := Z.lor RMT_SEEK RMT_REPLY :: put_num e 8 i).
  set (b := (whence :: put_num e 8 offset) ++ drop 9 (buf (srv l))).
  set (st' := with_conf (set_seek r (conf st)) (with_dev (write_last st) d st)).
  rewrite (send_answered _ _ l (Server st' (fill out b) i) out); [|done|].
  - cbn [mbind option_bind]. rewrite (cread_whole 9) by (unfold out; cbn [length]; by rewrite put_num_length by by right). unfold out. cbn [app nth drop].
    rewrite Z.eqb_refl. cbn [negb]. rewrite ?drop_0. rewrite get_put by (by right || lia). cbn [mbind option_bind].
    exists (Link (Server st' (fill out b) i) [] [] Open). by split_and!.
  - unfold handle. change (RMT_SEEK =? RMT_OPEN) with false. change (RMT_SEEK =? RMT_READ) with false.
    change (RMT_SEEK =? RMT_CMD) with false. change (RMT_SEEK =? RMT_WRITE) with false. change (RMT_SEEK =? RMT_SEEK) with true. cbv iota.
    unfold handle_seek. rewrite <-(app_nil_r (whence :: put_num e 8 offset)).
    rewrite recv_all by (cbn [length]; by rewrite put_num_length by by right). fold b.
    assert (get_num e 8 (drop 1 b) = offset) as -> by (unfold b; cbn [app drop]; rewrite drop_0; apply get_put; [by right|unfold is_u64 in Ho; lia]).
    assert (nth 0 b 0 = whence) as -> by done. rewrite Hst, Hr. cbn [mbind option_bind].
    done.
Qed.

Lemma remote_ops_answers os st rs st' l :
  idle l -> rst (srv l) = st -> locals os st rs st' ->
  exists l', remote_ops os l = Some (Answer (zip_with come_over os rs) l') /\ idle l' /\ rst (srv l') = st'.
Proof.
  intros Hl Hst H. revert l Hl Hst. induction H as [st|o os st r st1 rs st2 H1 _ IH]; intros l Hl Hst; [by exists l|].
  assert (exists l1, remote_op o l = Some (Answer (come_over o r) l1) /\ idle l1 /\ rst (srv l1) = st1) as (l1 & E & Hl1 & Hst1).
  { inversion H1; subst; [by eapply remote_read_answers|by eapply remote_seek_answers]. }
  destruct (IH l1 Hl1 Hst1) as (l2 & E2 & Hl2 & Hst2). exists l2. cbn [remote_ops]. rewrite E. cbn [mbind option_bind].
  by rewrite E2.
Qed.

(** C8: Over an idle connection between sides of one byte order any sequence of reads and seeks leaves the other side in the
    state of the same calls made there and brings their results: a read at most a block, which it says, and the place of a
    seek as the [int] the server keeps it in, so that places from 2^31 on come back wrong ([far_seek_cut]). *)
Theorem remote_refines_local os st rs st' l :
  idle l -> rst (srv l) = st -> locals os st rs st' ->
  exists l', remote_ops os l = Some (Answer (zip_with come_over os rs) l') /\ idle l' /\ rst (srv l') = st'.
Proof. apply remote_ops_answers. Qed.

(** ** A file on the other side *)
Section file.
Context (fdesc : Z) {HD : Disk plugins fdesc} (Hfd : fdesc <> -1).
Notation plain' := (plain plugins fdesc).
Notation contents' := (contents plugins fdesc).

(** Seeking through the plugin and reading brings the bytes of the file, a block at most, where a seek to a place of
    the file gives that place. *)
Theorem remote_reads_file off count st l :
  idle l -> rst (srv l) = st -> plain' st ->
  (exists d, io_lseek plugins (conf st) fdesc off SEEK_SET (dev st) = Some (d, off) /\ disk_ok d /\ disk_bytes d = contents' st) ->
  0 <= off < 2 ^ 31 -> 0 <= count < 2 ^ 31 -> 0 <= block_size (conf st) < 2 ^ 31 -> off + block_size (conf st) <= size (conf st) ->
  exists l', remote_ops [OSeek off SEEK_SET; ORead count] l =
      Some (Answer [(off, []); (Z.min count (block_size (conf st)), slice off (Z.min count (block_size (conf st))) (contents' st))] l') /\
    idle l' /\ contents' (rst (srv l')) = contents' st.
Proof.
  intros Hl Hst Hp (d & Es & Hd & Hc) Ho Hn Hb Hs. pose proof Hp as [].
  set (st1 := with_conf (set_seek off (conf st)) (with_dev (write_last st) d st)).
  assert (Hp1 : plain' st1).
  { constructor; try done; cbn; [|unfold minus1; lia]. unfold contents. cbn. by rewrite Hc. }
  assert (Hc1 : contents' st1 = contents' st) by (unfold contents at 1; cbn; done).
  destruct (read_block_plain plugins os_pread fdesc Hfd st1) as (d2 & r & E & Hd2 & Hc2); [done|cbn; lia|cbn; lia|].
  rewrite Hc1 in E, Hc2. set (st2 := with_conf _ (with_dev (write_last st1) d2 st1)) in E.
  edestruct (remote_ops_answers [OSeek off SEEK_SET; ORead count] st) as (l' & El & Hi & Hr); [done|done| |].
  - eapply locals_cons.
    + eapply local_seek; [by rewrite plain_fd|unfold is_u64; lia|unfold SEEK_SET; lia].
    + fold st1. eapply locals_cons; [|apply locals_nil]. eapply local_read; [exact E|done|done| |reflexivity].
      cbn. rewrite slice_length by lia. lia.
  - exists l'. split_and!; [|done|by rewrite Hr].
    rewrite El. cbn [zip_with come_over fst snd]. rewrite s32_id, u64_id by (unfold is_u64; lia). do 4 f_equal. cbn. unfold slice. rewrite take_take. do 3 f_equal. lia.
Qed.
End file.

(** ** Writing *)

End spec.

(** ** Examples on [malloc://4] *)
Definition demo_server (seek bs : Z) : server malloc_st :=
  Server (RadareSt (Config MALLOC_FD seek 4 0 0 bs []) true true (SectionsSt [] 0) [] 0
    (MallocSt MALLOC_FD (Some [1; 2; 3; 4]) 4) [] true false None) (replicate 1024 0) 0.
Definition demo_link (seek bs : Z) : link := Link (demo_server seek bs) [] [] Open.
(** A command answers with its own text. *)
Definition demo_cmd (cmd : list Z) (st : radare_st malloc_st) : option (radare_st malloc_st * option (list Z)) := Some (st, Some cmd).
Definition no_open (_ : list Z) (st : radare_st malloc_st) : option (radare_st malloc_st) := Some st.
Definition no_close (_ : Z) : Z := -1.
Definition no_system (_ : list Z) : option (list Z * list Z) := None.

Definition demo_after : radare_st malloc_st := with_conf (set_block [2; 3] (conf (rst (demo_server 1 2)))) (rst (demo_server 1 2)).

Example remote_refines_local_witness :
  exists l', remote_ops demo_table demo_os demo_fresh no_open demo_cmd no_close no_system false
      [OSeek 1 SEEK_SET; ORead 5; ORead 1] (demo_link 0 2) = Some (Answer [(1, []); (2, [2; 3]); (1, [2])] l').
Proof.
  destruct (remote_refines_local demo_table demo_os demo_fresh no_open demo_cmd no_close no_system false
    [OSeek 1 SEEK_SET; ORead 5; ORead 1] (rst (demo_server 0 2)) [(1, []); (2, [2; 3]); (1, [2])]
    demo_after (demo_link 0 2)) as (l' & E & _).
  - by split_and!.
  - reflexivity.
  - eapply locals_cons; [eapply local_seek; [vm_compute; reflexivity|unfold is_u64; lia|unfold SEEK_SET; lia]|].
    eapply locals_cons; [eapply (local_read _ _ 5 _ _ demo_after 2); [vm_compute; reflexivity|lia|cbn; lia|reflexivity|reflexivity]|].
    eapply locals_cons; [eapply (local_read _ _ 1 _ _ demo_after 1); [vm_compute; reflexivity|lia|cbn; lia|reflexivity|reflexivity]|].
    apply locals_nil.
  - by exists l'.
Defined.

Example remote_reads_file_witness :
  exists l', remote_ops demo_table demo_os demo_fresh no_open demo_cmd no_close no_system false
      [OSeek 2 SEEK_SET; ORead 9] (demo_link 0 2) = Some (Answer [(2, []); (2, [3; 4])] l').
Proof.
  destruct (remote_reads_file demo_table demo_os demo_fresh no_open demo_cmd no_close no_system false MALLOC_FD (HD := malloc_disk demo_alloc demo_mem MALLOC_FD)
    ltac:(discriminate) 2 9 (rst (demo_server 0 2)) (demo_link 0 2)) as (l' & E & _);
    [by split_and!|reflexivity| |eexists; split; [reflexivity|split; [|reflexivity]]|lia|lia|cbn; lia|cbn; lia|by exists l'].
  - constructor; try reflexivity; try (cbn; unfold minus1; lia); [|constructor]. unfold disk_ok. cbn. split; [discriminate|]. split; [reflexivity|by eexists].
  - split; [discriminate|]. split; [reflexivity|by eexists].
Defined.


(** A place of 2^31 comes back as a negative number. *)
Example far_seek_cut :
  (a ← remote_lseek demo_table demo_os demo_fresh no_open demo_cmd no_close no_system false false (2 ^ 31) SEEK_SET (demo_link 0 2);
   match a with Answer r _ => Some r | Hang => None end) = Some (2 ^ 64 - 2 ^ 31).
Proof. vm_compute. reflexivity. Qed.

(** In the other byte order bytes that are written can be requests: here the command [i] is run. *)
Example data_runs_commands :
  (a ← remote_write demo_table demo_os demo_fresh no_open demo_cmd no_close no_system true true [0; 7; 1; 0; 0; 0; 105] (demo_link 0 2);
   match a with Answer r l => Some (r, s2c l) | Hang => None end) = Some (12, [105; 0]).
Proof. vm_compute. reflexivity. Qed.

(** Sides with different orders misread the length of an answer: the buffer of the reader is overrun. *)
Example orders_differ :
  remote_read demo_table demo_os demo_fresh no_open demo_cmd no_close no_system false true 2 [0; 0] (demo_link 0 2) = None.
Proof. vm_compute. reflexivity. Qed.

(** Names of 129 characters and more make the length negative. *)
Example long_name_fails :
  remote_connect demo_table demo_os demo_fresh no_open demo_cmd no_close no_system false 3 0 (47 :: replicate 128 97) (demo_link 0 2) = None.
Proof. vm_compute. reflexivity. Qed.
