(* ===== verification/Write.v ===== *)
(** * The write commands: [radare_write], [radare_write_op] and the mask of [src/rio.c]

    A text is turned into bytes and written at the seek, or the block that was read last is combined with a key and
    written back.  Settings of the configuration are arguments, [get_math] too. *)
From S2P Require Import Prelude StateM Sections Io Rio Utils.
#[local] Open Scope Z_scope.

Inductive wmode := WMODE_CHAR | WMODE_STRING | WMODE_HEX | WMODE_WSTRING.

(** ** Combining a block with a key *)

(** A byte of the key is a [char] with a sign; shifts by a negative number or by the width of an [int] are undefined,
    and so is the division by zero. *)
Definition apply_op (op : ascii) (b k : Z) : option Z :=
  let k := s8 k in
  if Ascii.eqb op "x" then Some (u8 (Z.lxor b k))
  else if Ascii.eqb op "a" then Some (u8 (b + k))
  else if Ascii.eqb op "s" then Some (u8 (b - k))
  else if Ascii.eqb op "m" then Some (u8 (b * k))
  else if Ascii.eqb op "d" then (if k =? 0 then None else Some (u8 (Z.quot b k)))
  else if Ascii.eqb op "r" then (if (k <? 0) || (32 <=? k) then None else Some (u8 (Z.shiftr b k)))
  else if Ascii.eqb op "l" then (if (k <? 0) || (32 <=? k) then None else Some (u8 (Z.shiftl b k)))
  else if Ascii.eqb op "o" then Some (u8 (Z.lor b k))
  else if Ascii.eqb op "A" then Some (u8 (Z.land b k))
  else Some b.

(** The key is used over and over; [j] is the place in it. *)
Fixpoint op_loop (op : ascii) (key : list Z) (j : nat) (block : list Z) : option (list Z) :=
  match block with
  | [] => Some []
  | b :: block' =>
    k ← key !! j;
    b ← apply_op op b k;
    cons b <$> op_loop op key (if (S j <? length key)%nat then S j else 0%nat) block'
  end.

(** Swapping the ends of four bytes, every [step] bytes, and for [step = 4] the ones between; the block may end inside of them. *)
Fixpoint swap_loop (fuel : nat) (step : nat) (block : list Z) : option (list Z) :=
  match fuel with
  | O => None
  | S fuel' =>
    match block with
    | [] => Some []
    | a :: b :: c :: d :: rest =>
      if (step =? 4)%nat then app [d; c; b; a] <$> swap_loop fuel' step rest
      else app [d; b] <$> swap_loop fuel' step (c :: a :: rest)
    | _ => None
    end
  end.

Definition op_block (op : ascii) (key block : list Z) : option (list Z) :=
  if Ascii.eqb op "2" then swap_loop (S (length block)) 2 block
  else if Ascii.eqb op "4" then swap_loop (S (length block)) 4 block
  else op_loop op key 0 block.

Section write.
Context {W : Type} (plugins : list (plugin_t W)) (os_pread : Z -> Z -> Z -> option (list Z)) (fresh : nat -> list Z).
Context (get_math : string -> Z).

Notation st_t := (radare_st W).
Notation M := (StateM.M st_t).

(** The bytes of a hexadecimal text and the length the program takes it for; the buffer is as long as the text. *)
Definition hex_bytes (arg : string) (room : Z) : option (list Z * Z) :=
  '(bytes, len) ← hexstr2binstr get_math arg;
  if room <? Z.of_nat (length bytes) then None else Some (bytes, len).

(** The same with the text itself as the buffer: what is written may be read again.  [m] is the text with its end,
    [ptr] the place that is read and [len] the one that is written. *)
Fixpoint str_of (m : list Z) : string :=
  match m with [] => EmptyString | a :: m' => if a =? 0 then EmptyString else String (chr a) (str_of m') end.
Fixpoint skip_digits (fuel : nat) (m : list Z) (ptr : nat) : option nat :=
  match fuel with
  | O => None
  | S fuel' =>
    a ← m !! ptr;
    if (a =? 0) || (a =? 32) || (a =? 9) then Some ptr else skip_digits fuel' m (S ptr)
  end.
Fixpoint hex_in_place (fuel : nat) (m : list Z) (ptr j : nat) (c : Z) (len : nat) : option (list Z * Z) :=
  match fuel with
  | O => None
  | S fuel' =>
    a ← m !! ptr;
    if hex_blank (chr a) then hex_in_place fuel' m (S ptr) j c len
    else
      let full := (j =? 2)%nat in
      let '(m, c, j, len) := if full then (<[len := c]> m, 0, 0%nat, S len) else (m, c, j, len) in
      a ← m !! ptr;
      if full && (a =? 32) then hex_in_place fuel' m (S ptr) j c len
      else if a =? 0 then Some (take len m, Z.of_nat len)
      else if (a =? 48) && bool_decide (m !! S ptr = Some 120) then
        let addr := u32 (get_math (str_of (drop ptr m))) in
        if (length m <? len + 4)%nat then None
        else
          let m := patch len (le_bytes 4 addr) m in
          ptr ← skip_digits (length m) m ptr;
          hex_in_place fuel' m (S ptr) 0 c (len + 4)
      else
        let '(c', err) := hex2int c (chr a) in
        if err then Some (take len m, 0)
        else
          let c' := Z.lor c' c in
          hex_in_place fuel' m (S ptr) (S j) (if (j =? 0)%nat then u8 (Z.shiftl c' 4) else c') len
  end.
Definition hex_text_bytes (arg : string) : option (list Z * Z) :=
  let m := (ord <$> list_ascii_of_string arg) ++ [0] in hex_in_place (S (length m)) m 0 0 0 0.

(** A text that is no number has length 0, and the first byte of the key is still used. *)
Definition radare_write_op (arg : string) (op : ascii) : M ssize_t :=
  do c <- get conf ;;
  do r <- lift (hex_bytes arg (Z.of_nat (String.length arg))) ;;
  let key := if r.2 <=? 0 then take 1 r.1 else r.1 in
  let bs := block_size c in
  do _ <- lift (if Z.of_nat (length (block c)) <? bs then None else Some tt) ;;
  do buf <- lift (op_block op key (take (Z.to_nat bs) (block c))) ;;
  radare_write_at plugins os_pread fresh (seek c) buf.

(** Without a text the mask is printed. *)
Definition radare_write_mask_str (str : string) : M Z :=
  match str with
  | EmptyString => ret 0
  | String c _ =>
    if Ascii.eqb c "?" then ret 0
    else if Ascii.eqb c "-" then radare_write_mask None
    else
      do r <- lift (hex_bytes str 1024) ;;
      if r.2 =? -1 then ret 0 else radare_write_mask (Some (take (Z.to_nat r.2) r.1))
  end.

(** ** Writing a text *)

(** A zero behind every character. *)
Definition widen (l : list Z) : list Z := l ≫= fun b => [b; 0].

(** The bytes of a text; [arg[len]] is then set to zero in a copy of it. *)
Definition text_bytes (mode : wmode) (arg : string) : option (list Z) :=
  let mode := if starts_with "0x" arg then WMODE_HEX else mode in
  let room := Z.of_nat (String.length arg) in
  '(bytes, len) ← (match mode with
    | WMODE_CHAR => Some ([], 0)
    | WMODE_WSTRING => let '(l, n) := escape_buffer arg in Some (widen (take (Z.to_nat n) l), 2 * n)
    | WMODE_STRING => let '(l, n) := escape_buffer arg in Some (take (Z.to_nat n) l, n)
    | WMODE_HEX => '(l, n) ← hex_text_bytes arg; Some (take (Z.to_nat n) l, n)
    end);
  if (len <? 0) || (room <? len) then None else Some bytes.

(** The variables [cfg.count], [file.insert], [file.insertblock], and whether a debugger or a file without size is open. *)
Record wconf := WConf { cfg_count : Z; file_insert : bool; file_insertblock : bool; debug : bool; unksize : bool }.
(** [radare_open(1)]. *)
Context (o : wconf) (reopen : M unit).

Definition set_size (n : Z) (c : config_t) : config_t :=
  Config (fd c) (seek c) n (vaddr c) (paddr c) (block_size c) (block c).

Definition lseek_m (off : Z) : M unit := fun st =>
  match io_lseek plugins (conf st) (fd (conf st)) off SEEK_SET (dev st) with
  | Some (d, _) => Some (tt, with_dev (write_last st) d st)
  | None => None
  end.

(** What lies behind the seek moves back to make room. *)
Definition insert (sk len times : Z) : M unit :=
  do c <- get conf ;;
  if negb (file_insert o) || (size c =? minus1) || file_insertblock o then ret tt
  else
    let rest := u64 (size c - sk) in
    if rest =? 0 then ret tt
    else if 2 ^ 63 <=? rest then crash
    else
      do r <- io_read_m plugins os_pread (fresh (Z.to_nat rest)) rest ;;
      do _ <- lseek_m (u64 (sk + len * times)) ;;
      do _ <- modify (fun s => with_conf (set_size (u64 (size (conf s) + len * times)) (conf s)) s) ;;
      do _ <- io_write_m plugins r.2 ;;
      lseek_m sk.

(** Every turn writes where the one before ended, but is recorded at the first place. *)
Fixpoint write_loop (times : nat) (sk : Z) (data : list Z) : M unit :=
  match times with
  | O => ret tt
  | S times' =>
    do mask <- get write_mask ;;
    do masked <- (match mask with
                  | None => ret data
                  | Some m =>
                    do cur <- get (fun s => seek (conf s)) ;;
                    do _ <- radare_read_at plugins os_pread cur (fresh (length data)) ;;
                    lift (apply_mask m data)
                  end) ;;
    do _ <- undo_write_new plugins os_pread fresh sk masked ;;
    do _ <- io_write_m plugins masked ;;
    do _ <- modify (fun s => with_conf (set_seek (u64 (seek (conf s) + Z.of_nat (length data))) (conf s)) s) ;;
    write_loop times' sk data
  end.

Definition radare_write (arg : string) (mode : wmode) : M Z :=
  do st <- get (fun s => s) ;;
  let sk := seek (conf st) in
  let times := if cfg_count o <=? 0 then 1 else cfg_count o in
  if negb (file_write st) then ret 0
  else
    do data <- lift (text_bytes mode arg) ;;
    match data with
    | [] => ret 0
    | _ =>
      let len := Z.of_nat (length data) in
      do _ <- radare_seek plugins sk SEEK_SET ;;
      do _ <- insert sk len times ;;
      do _ <- write_loop (Z.to_nat times) sk data ;;
      do n <- get (fun s => size (conf s)) ;;
      do _ <- (if negb (debug o) && negb (unksize o) && (n <? u64 (sk + len)) then reopen else ret tt) ;;
      do _ <- radare_seek plugins sk SEEK_SET ;;
      do _ <- radare_read plugins os_pread false ;;
      ret 1
    end.
End write.
