(* ===== verification/WriteSpec.v ===== *)
(** * What the write commands promise: [radare_write], [radare_write_op] of [src/rio.c]

    Over a file that keeps the promise [Disk]: combining a block with a key by an operation and, when the block is read
    again in between, by its inverse restores the file, and a plain text is written at the seek as it stands. *)
From S2P Require Import Prelude StateM Sections Io IoPlugins Rio RioSpec Utils.
From S2P Require Import Write.
#[local] Open Scope Z_scope.

(** ** Keys *)

Lemma u8_range z : is_u8 (u8 z).
Proof. unfold is_u8, u8. apply Z.mod_pos_bound. lia. Qed.

Lemma u8_testbit z i : Z.testbit (u8 z) i = (i <? 8) && Z.testbit z i.
Proof.
  unfold u8. destruct (decide (i < 0)); [rewrite !Z.testbit_neg_r by done; by rewrite andb_false_r|].
  destruct (Z.ltb_spec i 8); [by rewrite Z.mod_pow2_bits_low by lia|by rewrite Z.mod_pow2_bits_high by lia].
Qed.

(** What undoes an operation. *)
Definition inverse (op : ascii) : option ascii :=
  if Ascii.eqb op "x" then Some "x"%char
  else if Ascii.eqb op "a" then Some "s"%char
  else if Ascii.eqb op "s" then Some "a"%char
  else None.

(** A byte combined with a byte of the key, both without a sign, for the operations that can be undone. *)
Definition combined (op : ascii) (b k : Z) : Z :=
  if Ascii.eqb op "x" then Z.lxor b k else if Ascii.eqb op "a" then (b + k) mod 256 else (b - k) mod 256.
(** A block combined with a key that starts over at its end; [j] is the place in the key. *)
Definition keyed_from (j : nat) (op : ascii) (key block : list Z) : list Z :=
  imap (fun i b => combined op b (nth ((j + i) mod length key) key 0)) block.
Notation keyed := (keyed_from 0).

Lemma s8_mod k : s8 k mod 256 = k mod 256.
Proof. unfold s8. rewrite Zminus_mod_idemp_l. f_equal. lia. Qed.

Lemma apply_op_combined op inv b k : inverse op = Some inv -> is_u8 b -> is_u8 k -> apply_op op b k = Some (combined op b k).
Proof.
  unfold inverse, combined. intros Hi Hb Hk. destruct (Ascii.eqb_spec op "x") as [->|]; [|destruct (Ascii.eqb_spec op "a") as [->|];
    [|destruct (Ascii.eqb_spec op "s") as [->|]; [|done]]]; cbn; f_equal; unfold u8; change (2 ^ 8) with 256.
  - apply Z.bits_inj'. intros i Hi'. change 256 with (2 ^ 8). rewrite Z.lxor_spec. destruct (Z.ltb_spec i 8).
    + rewrite Z.mod_pow2_bits_low, Z.lxor_spec by lia. f_equal. rewrite <-(Z.mod_pow2_bits_low (s8 k) 8), <-(Z.mod_pow2_bits_low k 8) by lia.
      f_equal. apply s8_mod.
    + rewrite Z.mod_pow2_bits_high by lia. assert (H8 : forall z, is_u8 z -> Z.testbit z i = false).
      { intros z Hz. rewrite <-(u8_id z Hz), u8_testbit. by rewrite (proj2 (Z.ltb_ge i 8)) by lia. }
      by rewrite !H8 by done.
  - by rewrite <-Zplus_mod_idemp_r, s8_mod, Zplus_mod_idemp_r.
  - by rewrite <-Zminus_mod_idemp_r, s8_mod, Zminus_mod_idemp_r.
Qed.

Lemma combined_inverse op inv b k : inverse op = Some inv -> is_u8 b -> is_u8 k ->
  combined inv (combined op b k) k = b /\ is_u8 (combined op b k).
Proof.
  unfold inverse, combined. intros Hi Hb Hk. destruct (Ascii.eqb_spec op "x") as [->|]; [|destruct (Ascii.eqb_spec op "a") as [->|];
    [|destruct (Ascii.eqb_spec op "s") as [->|]; [|done]]]; injection Hi as <-; cbn.
  - split; [by rewrite Z.lxor_assoc, Z.lxor_nilpotent, Z.lxor_0_r|]. assert (Z.lxor b k = u8 (Z.lxor b k)) as ->; [|apply u8_range].
    apply Z.bits_inj'. intros i _. rewrite u8_testbit. rewrite Z.lxor_spec. rewrite <-(u8_id b Hb), <-(u8_id k Hk), !u8_testbit.
    by destruct (i <? 8).
  - split; [|apply u8_range]. rewrite Zminus_mod_idemp_l, Z.add_simpl_r. by apply Z.mod_small.
  - split; [|apply u8_range]. rewrite Zplus_mod_idemp_l, Z.sub_simpl_r. by apply Z.mod_small.
Qed.

Lemma nth_u8 key i : Forall is_u8 key -> is_u8 (nth i key 0).
Proof.
  intros H. destruct (decide (i < length key)%nat); [|by rewrite nth_overflow by lia].
  rewrite Forall_forall in H. apply H, list_elem_of_In, nth_In. done.
Qed.

Lemma op_loop_keyed op inv key : inverse op = Some inv -> key <> [] -> Forall is_u8 key -> forall block j,
  Forall is_u8 block -> (j < length key)%nat -> op_loop op key j block = Some (keyed_from j op key block).
Proof.
  intros Hi Hk Hu. induction block as [|b block IH]; intros j Hb Hj; [done|]. apply Forall_cons in Hb as [Hb Hbs].
  cbn [op_loop].
  destruct (nth_lookup_or_length key j 0) as [->|]; [|lia]. cbn [mbind option_bind].
  rewrite (apply_op_combined op inv) by (done || by apply nth_u8). cbn [mbind option_bind]. rewrite IH; [|done|destruct (Nat.ltb_spec (S j) (length key)); lia].
  cbn [fmap option_fmap option_map]. unfold keyed_from. rewrite imap_cons. f_equal. f_equal; [by rewrite Nat.add_0_r, Nat.mod_small by done|].
  apply imap_ext. intros i x _. unfold compose. rewrite Nat.add_succ_r, <-Nat.add_succ_l. do 2 f_equal.
  destruct (Nat.ltb_spec (S j) (length key)); [done|]. replace (S j) with (length key) by lia.
  by rewrite Nat.add_0_l, <-Nat.Div0.add_mod_idemp_l, Nat.Div0.mod_same.
Qed.

Lemma keyed_length j op key block : length (keyed_from j op key block) = length block.
Proof. apply length_imap. Qed.
Lemma keyed_inverse op inv j key block : inverse op = Some inv -> Forall is_u8 key -> Forall is_u8 block ->
  keyed_from j inv key (keyed_from j op key block) = block /\ Forall is_u8 (keyed_from j op key block).
Proof.
  intros Hi Hk Hb. unfold keyed_from. split.
  - apply list_eq. intros i. rewrite !list_lookup_imap. destruct (block !! i) as [b|] eqn:E; [cbn|done]. f_equal.
    apply (combined_inverse op inv); [done|by eapply Forall_lookup_1|by apply nth_u8].
  - apply Forall_lookup. intros i x. rewrite list_lookup_imap. destruct (block !! i) as [b|] eqn:E; [cbn|done]. intros [= <-].
    apply (combined_inverse op inv); [done|by eapply Forall_lookup_1|by apply nth_u8].
Qed.

Lemma inverse_other op inv : inverse op = Some inv -> forall key block, op_block op key block = op_loop op key 0 block.
Proof.
  unfold inverse, op_block. intros Hi key block. destruct (Ascii.eqb_spec op "2") as [->|]; [done|]. destruct (Ascii.eqb_spec op "4") as [->|]; [done|]. done.
Qed.
Lemma inverse_inverse op inv : inverse op = Some inv -> inverse inv = Some op.
Proof.
  unfold inverse. destruct (Ascii.eqb_spec op "x") as [->|]; [by intros [= <-]|]. destruct (Ascii.eqb_spec op "a") as [->|]; [by intros [= <-]|].
  destruct (Ascii.eqb_spec op "s") as [->|]; [by intros [= <-]|done].
Qed.

(** ** Swapping bytes *)

(** Swapping in pairs looks four bytes ahead: it always ends behind the block. *)
Theorem swap_two_fails n block : block <> [] -> swap_loop n 2 block = None.
Proof.
  revert block. induction n as [|n IH]; intros block Hb; [done|]. destruct block as [|a [|b [|c [|d rest]]]]; try done.
  cbn [swap_loop]. change (2 =? 4)%nat with false. cbv iota. by rewrite IH.
Qed.

Theorem swap_four_twice n q block :
  length block = (4 * q)%nat -> (q < n)%nat ->
  exists block', swap_loop n 4 block = Some block' /\ swap_loop n 4 block' = Some block.
Proof.
  revert n block. induction q as [|q IH]; intros n block Hl Hn; (destruct n as [|n]; [lia|]).
  - destruct block; [|done]. by exists [].
  - destruct block as [|a [|b [|c [|d rest]]]]; cbn [length] in Hl; try lia.
    destruct (IH n rest) as (rest' & E1 & E2); [lia|lia|]. exists ([d; c; b; a] ++ rest'). cbn [swap_loop app].
    change (4 =? 4)%nat with true. cbv iota. rewrite E1, E2. done.
Qed.

Section spec.
Context {W : Type} (plugins : list (plugin_t W)) (os_pread : Z -> Z -> Z -> option (list Z))
  (fresh : nat -> list Z) (fdesc : Z) {HD : Disk plugins fdesc} (Hfd : fdesc <> -1).
Hypothesis fresh_length : forall n, length (fresh n) = n.
Context (get_math : string -> Z).

Notation plain' := (plain plugins fdesc).
Notation contents' := (contents plugins fdesc).
Notation write_op := (radare_write_op plugins os_pread fresh get_math).
Notation read_block := (radare_read plugins os_pread false).

Lemma plain_with_block st b d : plain' st -> disk_ok d -> disk_bytes d = contents' st ->
  plain' (with_conf (set_block b (conf st)) (with_dev (write_last st) d st)).
Proof. intros [] Hd Hb. constructor; try done. cbn. unfold contents. cbn. by rewrite Hb. Qed.

(** The block is as it was when it was read last. *)
Definition block_read (st : radare_st W) : Prop := block (conf st) = slice (seek (conf st)) (block_size (conf st)) (contents' st).

(** An operation works on the block, whatever it was read from, writes it at the seek and leaves the block as it is. *)
Lemma write_op_plain st op inv key :
  plain' st -> 0 <= block_size (conf st) -> seek (conf st) + block_size (conf st) <= size (conf st) ->
  length (block (conf st)) = Z.to_nat (block_size (conf st)) -> Forall is_u8 (block (conf st)) ->
  Forall is_u8 key -> key <> [] -> inverse op = Some inv ->
  exists r st', write_op (hex_text "" key) op st = Some (r, st') /\ plain' st' /\
    contents' st' = patch (Z.to_nat (seek (conf st))) (keyed op key (block (conf st))) (contents' st) /\ conf st' = conf st.
Proof.
  intros Hp Hbs Hs Hlb Hub Hk Hne Hi. pose proof (plain_seek _ _ _ Hp) as Hseek. pose proof (plain_size _ _ _ Hp) as Hsz.
  assert (Hx : hexstr2binstr get_math (hex_text "" key) = Some (key, Z.of_nat (length key))) by (apply hexstr_roundtrip; auto).
  assert (Hlen : (length key <= String.length (hex_text "" key))%nat).
  { clear -Hk. induction Hk as [|b bs Hb _ IH]; [done|]. cbn [hex_text String.append]. rewrite str_length_app, fmt_x0_byte_length by done. cbn [length]. lia. }
  unfold radare_write_op. rewrite bind_get. unfold hex_bytes. rewrite Hx. cbn [mbind option_bind].
  rewrite (proj2 (Z.ltb_ge _ _)) by lia.
  assert (Ek : (if Z.of_nat (length key) <=? 0 then take 1 key else key) = key) by (destruct key; [done|by rewrite (proj2 (Z.leb_gt _ _)) by (cbn; lia)]).
  erewrite bind_Some by reflexivity. cbn [fst snd]. rewrite Ek, Hlb, Z2Nat.id, (proj2 (Z.ltb_ge _ _)) by lia.
  erewrite bind_Some by reflexivity. rewrite firstn_all2 by lia. rewrite (inverse_other op inv Hi), (op_loop_keyed op inv) by (done || (destruct key; [done|cbn; lia])).
  erewrite bind_Some by reflexivity. set (buf := keyed op key _).
  assert (Hl : length buf = Z.to_nat (block_size (conf st))) by (unfold buf; by rewrite keyed_length).
  destruct (write_at_plain plugins os_pread fresh fdesc fresh_length st (seek (conf st)) buf Hp) as (l & d2 & r & E & Hd2 & Hb2); [lia|lia|].
  eexists r, _. split; [exact E|]. split; [|split; [exact Hb2|done]].
  apply plain_with_undo, plain_with_dev; [done|done|]. rewrite Hb2, patch_length; [done|lia].
Qed.

Lemma slice_u8 i n l : Forall is_u8 l -> Forall is_u8 (slice i n l).
Proof. intros H. unfold slice. by apply Forall_take, Forall_drop. Qed.

(** C25: Combining the block as it was read last with a key by [x], [a] or [s] writes at the seek every byte of it combined
    with the byte of the key at its place, the key starting over at its end, and nothing else of the file changes.  When
    the block is read again, the inverse operation with the same key restores the file.  The operation itself does
    not read it (the call in [radare_write_at] is commented out): a second operation right behind the first works on the
    bytes the first one worked on, and leaves the original block combined with the key by the second operation alone. *)
Theorem op_then_inverse st op inv key :
  plain' st -> Forall is_u8 (contents' st) -> 0 <= block_size (conf st) ->
  seek (conf st) + block_size (conf st) <= size (conf st) -> block_read st ->
  Forall is_u8 key -> key <> [] -> inverse op = Some inv ->
  exists r st1, write_op (hex_text "" key) op st = Some (r, st1) /\ conf st1 = conf st /\
    contents' st1 = patch (Z.to_nat (seek (conf st))) (keyed op key (block (conf st))) (contents' st) /\
    (exists r2 st2, bind read_block (fun _ => write_op (hex_text "" key) inv) st1 = Some (r2, st2) /\ contents' st2 = contents' st) /\
    (exists r3 st3, write_op (hex_text "" key) inv st1 = Some (r3, st3) /\
      contents' st3 = patch (Z.to_nat (seek (conf st))) (keyed inv key (block (conf st))) (contents' st)).
Proof.
  intros Hp Hu Hbs Hs Hb Hk Hne Hi. pose proof (plain_size _ _ _ Hp) as Hsz. pose proof (plain_seek _ _ _ Hp) as Hseek.
  unfold block_read in Hb. set (blk := slice _ _ _) in Hb.
  assert (Hlb : length blk = Z.to_nat (block_size (conf st))) by (unfold blk; apply slice_length; lia).
  assert (Hub : Forall is_u8 blk) by by apply slice_u8. destruct (keyed_inverse op inv 0 key blk Hi Hk Hub) as [Hback Hub'].
  destruct (write_op_plain st op inv key) as (r & st1 & E1 & Hp1 & Hc1 & Hcf); rewrite ?Hb; try done.
  assert (Hs1 : slice (seek (conf st1)) (block_size (conf st1)) (contents' st1) = keyed op key blk).
  { rewrite Hcf, Hc1, Hb. replace (block_size (conf st)) with (Z.of_nat (length (keyed op key blk))) by (rewrite keyed_length; lia).
    apply slice_patch; rewrite ?keyed_length; lia. }
  assert (Hback2 : forall d, length d = length blk -> patch (Z.to_nat (seek (conf st))) d (contents' st1) = patch (Z.to_nat (seek (conf st))) d (contents' st)).
  { intros d Hd. rewrite Hc1, Hb. apply list_eq. intros i. rewrite !patch_lookup; rewrite ?patch_length; rewrite ?keyed_length; try lia.
    rewrite Hd. by case_decide. }
  exists r, st1. split_and!; [done|done|by rewrite Hc1, Hb| |].
  - destruct (read_block_plain plugins os_pread fdesc Hfd st1) as (d & r0 & Er & Hd & Hbd); [done|by rewrite Hcf|by rewrite Hcf|].
    rewrite (bind_Some _ _ _ _ _ Er). rewrite Hs1. set (st1' := with_conf _ _).
    assert (Hc' : contents' st1' = contents' st1) by (unfold contents at 1; by cbn).
    destruct (write_op_plain st1' inv op key) as (r2 & st2 & E2 & _ & Hc2 & _); try done.
    { by apply plain_with_block. } { cbn. by rewrite Hcf. } { cbn. by rewrite Hcf. } { cbn. rewrite Hcf, keyed_length. done. }
    { by apply (inverse_inverse op). }
    exists r2, st2. split; [exact E2|]. rewrite Hc2, Hc'. cbn [st1' conf with_conf with_dev set_block seek block]. rewrite Hcf, Hback, Hback2 by done.
    apply list_eq. intros i. rewrite patch_lookup by lia. case_decide as Hin; [|done]. unfold blk. rewrite slice_lookup, decide_True by lia. f_equal. lia.
  - destruct (write_op_plain st1 inv op key) as (r3 & st3 & E3 & _ & Hc3 & _); rewrite ?Hcf, ?Hb; try done.
    { by apply (inverse_inverse op). }
    exists r3, st3. split; [exact E3|]. rewrite Hc3, Hcf, Hb. apply Hback2. apply keyed_length.
Qed.

(** ** Plain texts *)
Context (o : wconf) (reopen : StateM.M (radare_st W) unit).

Definition plain_char (c : ascii) : bool := negb (Ascii.eqb c "\").
Definition bytes_of (s : string) : list Z := ord <$> list_ascii_of_string s.

Lemma escape_plain s : all_chars plain_char s = true -> escape_buffer s = (bytes_of s, Z.of_nat (String.length s)).
Proof.
  intros H. unfold escape_buffer. assert (escape_loop s = (bytes_of s, false)) as ->.
  { induction s as [|c s IH]; [done|]. cbn [all_chars] in H. apply andb_prop in H as [Hc Hs]. cbn [escape_loop].
    unfold plain_char in Hc. destruct (Ascii.eqb c "\"); [done|]. by rewrite IH. }
  f_equal. unfold bytes_of. rewrite length_fmap. f_equal. clear H. induction s as [|c s IH]; [done|]. cbn. by rewrite IH.
Qed.

Lemma length_bytes_of s : length (bytes_of s) = String.length s.
Proof. unfold bytes_of. rewrite length_fmap. induction s as [|c s IH]; [done|]. cbn. by rewrite IH. Qed.

Lemma text_bytes_plain arg : all_chars plain_char arg = true -> starts_with "0x" arg = false ->
  text_bytes get_math WMODE_STRING arg = Some (bytes_of arg).
Proof.
  intros H H0. unfold text_bytes. rewrite H0, (escape_plain arg H). cbn [mbind option_bind].
  rewrite (proj2 (Z.ltb_ge _ _)), (proj2 (Z.ltb_ge _ _)) by lia. cbn [orb]. by rewrite take_ge by (rewrite length_bytes_of; lia).
Qed.

Lemma set_seek_same c : set_seek (seek c) c = c.
Proof. by destruct c. Qed.

(** One turn of the loop at the seek. *)
Lemma write_once st data :
  plain' st -> positioned plugins fdesc (seek (conf st)) (dev st) -> seek (conf st) + Z.of_nat (length data) <= size (conf st) ->
  exists l d i h, write_loop plugins os_pread fresh 1 (seek (conf st)) data st =
      Some (tt, with_conf (set_seek (seek (conf st) + Z.of_nat (length data)) (conf st)) (with_undo h i (undo_w_lock st) (with_dev l d st))) /\
    disk_ok d /\ disk_bytes d = patch (Z.to_nat (seek (conf st))) data (contents' st).
Proof.
  intros Hp Hpos Hlen. pose proof (plain_seek _ _ _ Hp). pose proof (plain_small _ _ _ Hp). pose proof (plain_size _ _ _ Hp) as Hsz.
  cbn [write_loop]. rewrite bind_get, (plain_mask _ _ _ Hp), bind_ret.
  destruct (undo_write_new_plain plugins os_pread fresh fdesc fresh_length st (seek (conf st)) data) as (d & E & Hd & Hb & Hat); [done|lia|done|lia|done|].
  rewrite (bind_Some _ _ _ _ _ E). set (st1 := with_undo _ _ _ _).
  destruct (disk_write (write_last st) (conf st1) d data (seek (conf st))) as (l & d2 & r & E2 & Hd2 & Hb2);
    [done|by apply Hat|lia|rewrite Hb; lia|].
  assert (io_write_m plugins data st1 = Some (r, with_dev l d2 st1)) as E3.
  { unfold io_write_m. change (dev st1) with d. change (write_last st1) with (write_last st).
    change (file_write st1) with (file_write st). change (fd (conf st1)) with (fd (conf st)).
    rewrite (plain_write _ _ _ Hp), (plain_fd _ _ _ Hp). by rewrite E2. }
  rewrite (bind_Some _ _ _ _ _ E3). erewrite bind_Some by reflexivity.
  exists l, d2, (undo_w_init st || records st), (new_history plugins fdesc (seek (conf st)) data st).
  split; [|split; [done|by rewrite Hb2, Hb]].
  unfold ret, with_conf, with_undo, with_dev, st1. cbn [conf seek set_seek]. do 3 f_equal.
  change (seek (conf (with_undo _ _ _ _))) with (seek (conf st)). rewrite u64_id; [done|]. unfold is_u64. lia.
Qed.

(** A text without escapes that fits the file is written at the seek; the bytes around it and the seek stay as they
    were, and the block is read again. *)
Theorem write_text st arg :
  plain' st -> cfg_count o <= 1 -> file_insert o = false ->
  all_chars plain_char arg = true -> starts_with "0x" arg = false -> arg <> EmptyString ->
  seek (conf st) + Z.of_nat (String.length arg) <= size (conf st) ->
  0 <= block_size (conf st) -> seek (conf st) + block_size (conf st) <= size (conf st) ->
  exists st', radare_write plugins os_pread fresh get_math o reopen arg WMODE_STRING st = Some (1, st') /\
    contents' st' = patch (Z.to_nat (seek (conf st))) (bytes_of arg) (contents' st) /\
    seek (conf st') = seek (conf st) /\ block (conf st') = slice (seek (conf st)) (block_size (conf st)) (contents' st').
Proof.
  intros Hp Hn Hi Hc H0 Hne Hlen Hb Hs. pose proof (plain_seek _ _ _ Hp). pose proof (plain_small _ _ _ Hp).
  pose proof (plain_size _ _ _ Hp) as Hsz. rewrite <-length_bytes_of in Hlen.
  unfold radare_write. rewrite bind_get, (plain_write _ _ _ Hp). cbn [negb].
  rewrite (text_bytes_plain arg Hc H0). erewrite bind_Some by reflexivity.
  destruct (bytes_of arg) as [|b0 bs] eqn:Ed; [by destruct arg|]. rewrite <-Ed in Hlen |- *. set (data := bytes_of arg) in *.
  destruct (seek_set plugins fdesc st (seek (conf st))) as (d1 & E1 & Hd1 & Hb1 & Hat1); [apply Hp|apply Hp|apply Hp|lia|].
  rewrite (bind_Some _ _ _ _ _ E1). rewrite set_seek_same. set (st1 := with_conf _ (with_dev _ d1 st)).
  assert (Hp1 : plain' st1) by (destruct Hp; constructor; try done; cbn; unfold contents; cbn; by rewrite Hb1).
  assert (Hc1 : contents' st1 = contents' st) by (unfold contents at 1; cbn; done).
  unfold insert. rewrite bind_bind, bind_get. rewrite Hi. cbn [negb orb]. rewrite bind_ret.
  replace (Z.to_nat (if cfg_count o <=? 0 then 1 else cfg_count o)) with 1%nat by (zcase; lia).
  destruct (write_once st1 data) as (l & d2 & i & h & E2 & Hd2 & Hb2); [done|apply Hat1; lia|done|].
  change (seek (conf st1)) with (seek (conf st)) in *. rewrite (bind_Some _ _ _ _ _ E2). rewrite Hc1 in Hb2.
  set (st2 := with_conf _ (with_undo _ _ _ _)). rewrite bind_get.
  change (size (conf st2)) with (size (conf st)). rewrite u64_id by (unfold is_u64; lia).
  rewrite (proj2 (Z.ltb_ge (size (conf st)) _)), andb_false_r by lia. rewrite bind_ret.
  assert (Hl2 : length (disk_bytes d2) = length (contents' st)) by (rewrite Hb2; apply patch_length; lia).
  destruct (seek_set plugins fdesc st2 (seek (conf st))) as (d3 & E3 & Hd3 & Hb3 & _); [done|apply Hp|apply Hp|lia|].
  rewrite (bind_Some _ _ _ _ _ E3). set (st3 := with_conf _ (with_dev _ d3 st2)).
  assert (Hc3 : contents' st3 = patch (Z.to_nat (seek (conf st))) data (contents' st)).
  { unfold contents at 1. cbn. rewrite Hb3. unfold contents at 1. cbn. done. }
  assert (Hp3 : plain' st3).
  { destruct Hp; constructor; try done. rewrite Hc3, patch_length by lia. done. }
  destruct (read_block_plain plugins os_pread fdesc Hfd st3) as (d4 & r & E4 & Hd4 & Hb4); [done|done|done|].
  rewrite (bind_Some _ _ _ _ _ E4). eexists. split; [reflexivity|].
  match goal with |- contents _ _ ?s = _ /\ _ => assert (Hc4 : contents' s = contents' st3) by (unfold contents at 1; cbn; exact Hb4) end.
  rewrite Hc4. split_and!; [done|done|done].
Qed.
End spec.

(** ** Witnesses and examples on [malloc://6] *)
Definition demo_file (seek bs : Z) (bytes : list Z) : radare_st malloc_st :=
  RadareSt (Config MALLOC_FD seek (Z.of_nat (length bytes)) 0 0 bs []) true true (SectionsSt [] 0) [] 0
    (MallocSt MALLOC_FD (Some bytes) (Z.of_nat (length bytes))) [] true false None.
Definition no_math (_ : string) : Z := 0.
Definition one_time : wconf := WConf 1 false false false false.

Lemma demo_file_plain seek bs bytes : 0 <= seek < minus1 -> Z.of_nat (length bytes) < 2 ^ 63 ->
  plain demo_table MALLOC_FD (HD := malloc_disk demo_alloc demo_mem MALLOC_FD) (demo_file seek bs bytes).
Proof.
  intros Hs Hl. constructor; try reflexivity; try done. split; [discriminate|]. split; [reflexivity|by eexists].
Qed.

Definition demo_read : radare_st malloc_st :=
  with_conf (set_block [2; 3; 4] (conf (demo_file 1 3 [1; 2; 3; 4; 5; 6]))) (demo_file 1 3 [1; 2; 3; 4; 5; 6]).

Example op_then_inverse_witness :
  exists r st1, radare_write_op demo_table demo_os demo_fresh no_math "ff01" "a" demo_read = Some (r, st1) /\
    malloc_buf (dev st1) = Some [1; 1; 4; 3; 5; 6] /\
    (exists r2 st2, bind (radare_read demo_table demo_os false)
        (fun _ => radare_write_op demo_table demo_os demo_fresh no_math "ff01" "s") st1 = Some (r2, st2) /\
      malloc_buf (dev st2) = Some [1; 2; 3; 4; 5; 6]) /\
    (exists r3 st3, radare_write_op demo_table demo_os demo_fresh no_math "ff01" "s" st1 = Some (r3, st3) /\
      malloc_buf (dev st3) = Some [1; 3; 2; 5; 5; 6]).
Proof.
  destruct (op_then_inverse demo_table demo_os demo_fresh MALLOC_FD (HD := malloc_disk demo_alloc demo_mem MALLOC_FD) ltac:(discriminate) fresh_len no_math
    demo_read "a" "s" [255; 1]) as (r & st1 & E1 & _ & _ & (r2 & st2 & E2 & _) & (r3 & st3 & E3 & _)).
  - constructor; try reflexivity; try done; try (cbn; unfold minus1; lia). split; [discriminate|]. split; [reflexivity|by eexists].
  - repeat constructor; unfold is_u8; lia.
  - cbn. lia.
  - cbn. lia.
  - reflexivity.
  - repeat constructor; unfold is_u8; lia.
  - discriminate.
  - reflexivity.
  - exists r, st1. split; [exact E1|]. vm_compute in E1. injection E1 as <- <-. split; [reflexivity|]. split.
    + exists r2, st2. split; [exact E2|]. vm_compute in E2. injection E2 as <- <-. reflexivity.
    + exists r3, st3. split; [exact E3|]. vm_compute in E3. injection E3 as <- <-. reflexivity.
Defined.

Example write_text_witness :
  exists st', radare_write demo_table demo_os demo_fresh no_math one_time (ret tt) "hi" WMODE_STRING (demo_file 1 3 [1; 2; 3; 4; 5; 6]) = Some (1, st') /\
    malloc_buf (dev st') = Some [1; 104; 105; 4; 5; 6].
Proof.
  destruct (write_text demo_table demo_os demo_fresh MALLOC_FD (HD := malloc_disk demo_alloc demo_mem MALLOC_FD) ltac:(discriminate) fresh_len no_math
    one_time (ret tt) (demo_file 1 3 [1; 2; 3; 4; 5; 6]) "hi") as (st' & E & _);
    [apply demo_file_plain; [unfold minus1; lia|cbn; lia]|cbn; lia|reflexivity|reflexivity|reflexivity|discriminate|cbn; lia|cbn; lia|cbn; lia|].
  exists st'. split; [exact E|]. vm_compute in E. injection E as <-. reflexivity.
Defined.

(** A text that is written twice is recorded once: undoing everything leaves the second copy. *)
Example repeated_write_undone :
  fst <$> (do _ <- radare_write demo_table demo_os demo_fresh no_math (WConf 2 false false false false) (ret tt) "hi" WMODE_STRING ;;
   do _ <- undo_write_set_all demo_table demo_os demo_fresh false ;;
   get (fun s => malloc_buf (dev s))) (demo_file 1 3 [1; 2; 3; 4; 5; 6]) = Some (Some [1; 2; 3; 104; 105; 6]).
Proof. vm_compute. reflexivity. Qed.

(** The end of a wide text is set behind the copy it is set in. *)
Example wide_text_overflows : text_bytes no_math WMODE_WSTRING "ab" = None.
Proof. reflexivity. Qed.

(** A number is turned into bytes in its own text: its first byte ends it, the next ones are read as digits, and nothing
    is written; in a buffer of its own it is four bytes, and the next one follows. *)
Example number_in_place :
  text_bytes (fun _ => 0x100) WMODE_HEX "0x100 ff" = Some [] /\ hexstr2binstr (fun _ => 0x100) "0x100 ff" = Some ([0; 1; 0; 0; 255], 5).
Proof. split; vm_compute; reflexivity. Qed.

(** A key that is no number but begins like one is used with its first byte. *)
Example broken_key_used :
  fst <$> (do _ <- radare_write_op demo_table demo_os demo_fresh no_math "ff0g" "x" ;; get (fun s => malloc_buf (dev s)))
    (with_conf (set_block [1; 2] (conf (demo_file 0 2 [1; 2; 3]))) (demo_file 0 2 [1; 2; 3])) = Some (Some [254; 253; 3]).
Proof. vm_compute. reflexivity. Qed.
