(* ===== verification/Cmds.v ===== *)
(** * Commands on the seek and on the file: [src/cmds.c], with what they call in [src/radare.c], [src/rio.c] and
    [src/code.c]

    The handlers of the table for seeking, aligning, moving, resizing, the block size, the sections and the write
    history.  The state is the one of [Rio] with the history of seeks of [Seeks] and the limit; what is printed for the
    reader only is left out. *)
From S2P Require Import Prelude StateM Sections Io Rio Seeks Utils Math Arch Flags Data Write.
#[local] Open Scope string_scope.
#[local] Open Scope Z_scope.

Record cmds_st (W : Type) := CmdsSt {
  rio : radare_st W;
  hist : seeks_st;
  limit : Z;
  cfg_bsize : Z  (* eval cfg.bsize *) }.
Arguments CmdsSt {W}. Arguments rio {W}. Arguments hist {W}. Arguments limit {W}. Arguments cfg_bsize {W}.

(** What the commands read of the other parts: the cursor, the flags, the references, the places of the calls on
    the screen, and the settings of the searches. *)
Record around := Around {
  unksize : bool; bigendian : bool; cursor : Z; (* 0 when the cursor is off *)
  the_flags : flags_st; the_xrefs : list xrefs_t; jumps : list Z;
  search_from : Z; search_to : Z; search_limit : Z }.

(** The number of times [c] stands in front. *)
Fixpoint count_front (c : ascii) (s : string) : nat :=
  match s with String a s' => if Ascii.eqb a c then S (count_front c s') else O | EmptyString => O end.

(** [input + n]: behind the end there is nothing to read. *)
Definition after (n : nat) (s : string) : option string :=
  if (n <=? String.length s)%nat then Some (str_drop n s) else None.

Definition bytes_of_string (s : string) : list Z := ord <$> list_ascii_of_string s.

Definition set_size_c (n : Z) (c : config_t) : config_t :=
  Config (fd c) (seek c) n (vaddr c) (paddr c) (block_size c) (block c).
Definition set_vaddr_c (v : Z) (c : config_t) : config_t :=
  Config (fd c) (seek c) (size c) v (paddr c) (block_size c) (block c).
Definition set_block_size_c (n : Z) (b : list Z) (c : config_t) : config_t :=
  Config (fd c) (seek c) (size c) (vaddr c) (paddr c) n b.

Section cmds.
Context {W : Type} (plugins : list (plugin_t W)) (os_pread : Z -> Z -> Z -> option (list Z)) (fresh : nat -> list Z).
(** The word in front of the history of seeks, and whether the C library's [malloc] succeeds. *)
Context (before : Z) (malloc_ok : Z -> bool).
Context (get_math : cmds_st W -> string -> Z) (a : around).
(** The analysis of the architecture that is set. *)
Context (arch_aop : Z -> list Z -> aop_t).

Notation st_t := (cmds_st W).
Notation M := (StateM.M st_t).

Definition with_rio (r : radare_st W) (st : st_t) : st_t := CmdsSt r (hist st) (limit st) (cfg_bsize st).
Definition with_limit (l : Z) (st : st_t) : st_t := CmdsSt (rio st) (hist st) l (cfg_bsize st).
Definition with_cfg_bsize (b : Z) (st : st_t) : st_t := CmdsSt (rio st) (hist st) (limit st) b.

(** A computation of [Rio]. *)
Definition on_rio {A} (m : StateM.M (radare_st W) A) : M A := fun st =>
  match m (rio st) with Some (x, r) => Some (x, with_rio r st) | None => None end.

Definition config (st : st_t) : config_t := conf (rio st).
Definition set_config (f : config_t -> config_t) : M unit :=
  modify (fun st => with_rio (with_conf (f (config st)) (rio st)) st).
Definition set_seek_m (s : Z) : M unit := set_config (set_seek s).

(** An operation on the history of seeks: the current seek is [config.seek]. *)
Definition with_cur (s : Z) (h : seeks_st) : seeks_st := SeeksSt (undos h) (undos_idx h) (undos_lim h) s.
Definition on_seeks (f : seeks_st -> seeks_st) : M unit := modify (fun st =>
  let h := f (with_cur (seek (config st)) (hist st)) in
  CmdsSt (with_conf (set_seek (cur h) (config st)) (rio st)) h (limit st) (cfg_bsize st)).

Definition math (s : string) : M Z := get (fun st => get_math st s).

Notation seek_to off := (on_rio (radare_seek plugins off SEEK_SET)).
Notation read_block next := (on_rio (radare_read plugins os_pread next)).

(** ** Next and previous block *)

Definition clamp_to_limit : M unit :=
  do st <- get (fun st => st) ;;
  if negb (limit st =? 0) && (limit st <? seek (config st)) then set_seek_m (limit st) else ret tt.

Definition step_of (input : string) : M Z :=
  match input with EmptyString => get (fun st => u64 (block_size (config st))) | _ => math input end.

Definition seek_here : M Z := do s <- get (fun st => seek (config st)) ;; seek_to s.

Definition cmd_prev (input : string) : M Z :=
  do off <- step_of input ;;
  do s <- get (fun st => seek (config st)) ;;
  do _ <- set_seek_m (if s <? off then 0 else s - off) ;;
  do _ <- clamp_to_limit ;;
  do _ <- seek_here ;;
  ret 0.

Definition cmd_next (input : string) : M Z :=
  do off <- step_of input ;;
  do s <- get (fun st => seek (config st)) ;;
  do _ <- set_seek_m (u64 (s + off)) ;;
  do _ <- clamp_to_limit ;;
  do _ <- seek_here ;;
  ret 0.

(** ** Aligning to the block size *)

Fixpoint next_align_loop (times : nat) : M unit :=
  match times with
  | O => ret tt
  | S times' =>
    do c <- get config ;;
    if negb (unksize a) && (size c <? seek c) then set_seek_m (size c)
    else
      let bs := u64 (block_size c) in
      if bs =? 0 then crash
      else do _ <- set_seek_m (u64 (seek c + u64 (bs - seek c mod bs))) ;; next_align_loop times'
  end.
Definition cmd_next_align (input : string) : M Z :=
  do _ <- next_align_loop (S (count_front ">" input)) ;;
  do _ <- on_seeks (undo_push before) ;;
  ret 0.

(** The seek has no sign: it is never below zero. *)
Fixpoint prev_align_loop (times : nat) : M unit :=
  match times with
  | O => ret tt
  | S times' =>
    do c <- get config ;;
    let bs := u64 (block_size c) in
    do _ <- set_seek_m (u64 (seek c - bs)) ;;
    do s <- get (fun st => seek (config st)) ;;
    if bs =? 0 then crash
    else
      do _ <- (if negb (s mod bs =? 0) then cmd_next_align "" else ret 0) ;;
      prev_align_loop times'
  end.
Definition cmd_prev_align (input : string) : M Z :=
  do _ <- prev_align_loop (S (count_front "<" input)) ;;
  do _ <- on_seeks (undo_push before) ;;
  ret 0.

(** ** The block size *)

(** The default size is taken when there is no memory for another; the program ends when there is none for that either. *)
Definition DEFAULT_BLOCK_SIZE : Z := 512.
Definition radare_set_block_size_i (sz : Z) : M ssize_t :=
  let sz := if sz <? 1 then 1 else sz in
  let resize n :=
    do _ <- set_config (set_block_size_c n (fresh (Z.to_nat n))) ;;
    read_block false in
  if malloc_ok (sz + 32) then resize sz
  else if (sz =? DEFAULT_BLOCK_SIZE) || negb (malloc_ok (DEFAULT_BLOCK_SIZE + 32)) then crash
  else do _ <- resize DEFAULT_BLOCK_SIZE ;; read_block false.

(** The callback of the variable sets the block size once more. *)
Definition radare_set_block_size (arg : string) : M unit :=
  match drop_while iswhitespace (drop_while (fun c => negb (iswhitespace c)) arg) with
  | EmptyString => ret tt
  | t =>
    do n <- math t ;;
    do bs <- get (fun st => block_size (config st)) ;;
    let n := if n <? 1 then 1 else n in
    let n := if starts_with "+" t then u64 (n + bs) else if starts_with "-" t then u64 (bs - n) else n in
    do _ <- radare_set_block_size_i (s32 n) ;;
    do bs <- get (fun st => block_size (config st)) ;;
    do _ <- modify (with_cfg_bsize (u64 bs)) ;;
    if bs =? 0 then ret tt else do _ <- radare_set_block_size_i (s32 bs) ;; ret tt
  end.

Definition cmd_blocksize (input : string) : M Z :=
  match input with
  | EmptyString => ret 0
  | String c _ =>
    if Ascii.eqb c "t" || Ascii.eqb c "f" then
      do name <- lift (after 2 input) ;;
      match flag_get name (the_flags a) with
      | Some f =>
        do s <- get (fun st => seek (config st)) ;;
        do _ <- radare_set_block_size_i (s32 (if Ascii.eqb c "t" then f_offset f - s else f_length f)) ;;
        ret 0
      | None => ret 0
      end
    else if Ascii.eqb c "?" then ret 0
    else do _ <- radare_set_block_size input ;; ret 0
  end.

(** ** The limit and the virtual address *)

Definition cmd_limit (input : string) : M Z :=
  match drop_while iswhitespace (drop_while (fun c => negb (iswhitespace c)) input) with
  | EmptyString => ret 0
  | t => do l <- math t ;; do _ <- modify (with_limit l) ;; ret 0
  end.

Definition cmd_vaddr (input : string) : M Z :=
  match split_at " " input with
  | Some (_, t) => do v <- math t ;; do _ <- set_config (set_vaddr_c v) ;; ret 0
  | None => ret 0
  end.

(** ** The history of writes *)

(** The lists are only printed. *)
Definition cmd_undowrite (input : string) : M Z :=
  match input with
  | EmptyString => ret 0
  | String c t =>
    if Ascii.eqb c "-" then do _ <- on_rio undo_write_clear ;; ret 0
    else if Ascii.eqb c "a" then do _ <- on_rio (undo_write_set_all plugins os_pread fresh false) ;; ret 0
    else if Ascii.eqb c "r" then do _ <- on_rio (undo_write_set_all plugins os_pread fresh true) ;; ret 0
    else if Ascii.eqb c " " then
      do _ <- on_rio (if starts_with "-" t then undo_write_set plugins os_pread fresh (atoi (str_drop 1 t)) true
                      else undo_write_set plugins os_pread fresh (atoi t) false) ;;
      ret 0
    else ret 0
  end.

(** ** Searching for a place to seek to *)

(** The keyword: a text behind a blank or hexadecimal digits behind an [x], in a buffer of 1024 bytes that a text of
    1023 leaves without an end. *)
Definition seek_keyword (str : string) : M (option (list Z)) :=
  match str with
  | EmptyString => ret None
  | String c t =>
    if Ascii.eqb c " " then
      if (1023 <=? String.length t)%nat then crash
      else ret (match t with EmptyString => None | _ => Some (bytes_of_string t) end)
    else if Ascii.eqb c "x" then
      do st <- get (fun st => st) ;;
      do r <- lift (hex_bytes (get_math st) t 1024) ;;
      ret (if r.2 =? 0 then None else Some (take (Z.to_nat r.2) r.1))
    else ret None
  end.

(** One block against the keyword; [k] bytes of it were met before.  The byte after a mismatch starts anew, the one that
    did not match is not looked at again. *)
Fixpoint match_block (kw : list Z) (k i : nat) (block : list Z) : nat + nat :=
  match block with
  | [] => inr k
  | b :: block' =>
    if bool_decide (kw !! k = Some b) then
      if (S k =? length kw)%nat then inl i else match_block kw (S k) (S i) block'
    else match_block kw 0 (S i) block'
  end.

Definition whole_block : M (list Z) :=
  do c <- get config ;;
  if Z.of_nat (length (block c)) <? block_size c then crash else ret (take (Z.to_nat (block_size c)) (block c)).

(** [None] without fuel; [bytes] is what was searched. *)
Fixpoint seek_search_loop (fuel : nat) (kw : list Z) (eseek k bytes : Z) : M Z :=
  match fuel with
  | O => crash
  | S fuel' =>
    do s <- get (fun st => seek (config st)) ;;
    if eseek <=? s then ret 1
    else
      do b <- whole_block ;;
      match match_block kw (Z.to_nat k) 0 b with
      | inl i => do _ <- seek_to (u64 (s + Z.of_nat i - Z.of_nat (length kw) + 1)) ;; ret 0
      | inr k =>
        do _ <- read_block true ;;
        do bs <- get (fun st => block_size (config st)) ;;
        let bytes := u64 (bytes + bs) in
        if negb (search_limit a =? 0) && (search_limit a <? bytes) then ret 1
        else seek_search_loop fuel' kw eseek (Z.of_nat k) bytes
      end
  end.

(** Every turn moves a block on: that many turns reach the end. *)
Definition search_turns (c : config_t) (eseek : Z) : nat := Z.to_nat (Z.max 0 (eseek - seek c) / Z.max 1 (block_size c) + 2).

Definition radare_seek_search (str : string) : M Z :=
  do oseek <- get (fun st => seek (config st)) ;;
  do n <- get (fun st => size (config st)) ;;
  let eseek := if search_to a =? 0 then n else search_to a in
  do kw <- seek_keyword str ;;
  match kw with
  | None => ret 1
  | Some kw =>
    do _ <- set_seek_m (u64 (oseek + 1)) ;;
    do _ <- read_block false ;;
    do c <- get config ;;
    do r <- seek_search_loop (search_turns c eseek) kw eseek 0 0 ;;
    if r =? 0 then ret 0 else do _ <- seek_to oseek ;; ret 0
  end.

(** Backwards a block is walked from its end, against the keyword reversed; the next block ends with the byte the last
    one began with. *)
Fixpoint seek_back_loop (fuel : nat) (kw : list Z) (eseek k bytes : Z) : M Z :=
  match fuel with
  | O => crash
  | S fuel' =>
    do s <- get (fun st => seek (config st)) ;;
    if s <=? eseek then ret 1
    else
      do b <- whole_block ;;
      match match_block kw (Z.to_nat k) 0 (reverse b) with
      | inl i => do _ <- seek_to (u64 (s + Z.of_nat (length b - 1 - i))) ;; ret 0
      | inr k =>
        do bs <- get (fun st => block_size (config st)) ;;
        do _ <- set_seek_m (u64 (s - (bs - 1))) ;;
        do _ <- read_block false ;;
        let bytes := u64 (bytes + bs) in
        if negb (search_limit a =? 0) && (search_limit a <? bytes) then ret 1
        else seek_back_loop fuel' kw eseek (Z.of_nat k) bytes
      end
  end.

Definition back_turns (c : config_t) (eseek : Z) : nat := Z.to_nat (Z.max 0 (seek c - eseek) / Z.max 1 (block_size c - 1) + 2).

Definition radare_seek_search_backward (str : string) : M Z :=
  do oseek <- get (fun st => seek (config st)) ;;
  do kw <- seek_keyword str ;;
  match kw with
  | None => ret 1
  | Some kw =>
    do bs <- get (fun st => block_size (config st)) ;;
    do _ <- set_seek_m (u64 (oseek - (bs - 1))) ;;
    do _ <- read_block false ;;
    do c <- get config ;;
    do r <- seek_back_loop (back_turns c (search_from a)) (reverse kw) (search_from a) 0 0 ;;
    if r =? 0 then ret 0 else do _ <- seek_to oseek ;; ret 0
  end.

(** ** Seeking *)

(** To the call number [n] of the listing, which has ten. *)
Definition udis_jump (n : Z) : M unit :=
  if n <? Z.of_nat (length (jumps a)) then
    do j <- lift (if n <? 0 then None else jumps a !! Z.to_nat n) ;;
    do _ <- seek_to j ;;
    do _ <- set_seek_m j ;;
    do _ <- read_block false ;;
    on_seeks (undo_push before)
  else ret tt.

(** [new_off] with its sign, relative to the seek when [rel] holds; 0 stands for none, and the text is evaluated. *)
Definition seek_there (new_off : Z) (text : string) (rel : bool) (sign : Z) : M Z :=
  do off <- (if new_off =? 0 then math text else ret new_off) ;;
  do s <- get (fun st => seek (config st)) ;;
  do _ <- seek_to (if rel then u64 (u64 (off * sign) + s) else off) ;;
  do _ <- on_seeks (undo_push before) ;;
  do _ <- read_block false ;;
  ret 0.

(** A sign without a number walks the history of seeks. *)
Definition seek_history (sign : Z) : M Z :=
  do _ <- (if sign =? 1 then on_seeks (undo_redo before)
           else if sign =? -1 then on_seeks (undo_seek before)
           else if sign =? -2 then on_seeks undo_reset
           else ret tt) ;;
  ret 0.

Definition seek_signed (text : string) (rel : bool) (sign : Z) : M Z :=
  match text with EmptyString => seek_history sign | _ => seek_there 0 text rel sign end.

Definition cmd_seek (input : string) : M Z :=
  if bool_decide (is_Some (strchr input "?")) then ret 0
  else
    match input with
    | EmptyString => ret 0
    | _ =>
      match drop_while (fun c => Ascii.eqb c " ") input with
      | EmptyString => seek_history 1
      | String c t as text =>
        if Ascii.eqb c "\" then do _ <- radare_seek_search_backward t ;; ret 0
        else if Ascii.eqb c "/" then do _ <- radare_seek_search t ;; ret 0
        else if Ascii.eqb c "x" || Ascii.eqb c "X" then
          do s <- get (fun st => seek (config st)) ;;
          seek_there (data_seek_to s (if Ascii.eqb c "x" then 0 else 1) (atoi t) (the_xrefs a)) text false 1
        else if Ascii.eqb c "S" then
          do s <- get (fun st => section_get_i (atoi t) (sects (rio st))) ;;
          do _ <- (match s with Some s => do _ <- seek_to (from s) ;; ret tt | None => ret tt end) ;;
          seek_there 0 text false 1
        else if Ascii.eqb c "c" then
          do _ <- (if 0 <? atoi t then udis_jump (atoi t - 1) else ret tt) ;; ret 0
        else if Ascii.eqb c "n" || Ascii.eqb c "b" then
          do _ <- read_block false ;;
          do cf <- get config ;;
          let op := arch_aop (seek cf) (block cf) in
          seek_there (if Ascii.eqb c "n" then u64 (seek cf + a_length op) else a_jump op) text false 1
        else if Ascii.eqb c "!" then seek_signed t false (-2)
        else if Ascii.eqb c "*" then seek_signed t false 0
        else if Ascii.eqb c "-" then seek_signed t true (-1)
        else if Ascii.eqb c "+" then seek_signed t true 1
        else seek_there 0 text false 1
      end
    end.

(** ** Sections *)

Definition on_sections (f : sections_st -> sections_st) : M unit :=
  modify (fun st => with_rio (with_sects (f (sects (rio st))) (rio st)) st).

(** The length, the place on disk and the comment; with more words than three none of them counts. *)
Definition new_section (text : string) : M unit :=
  do c <- get config ;;
  do ws <- lift (set0word text) ;;
  let n := length (filter (fun w => w <> EmptyString) ws) in
  let word i := lift (get0word ws i) in
  do comment <- (if (n =? 3)%nat then do w <- word 2%nat ;; ret (Some w) else ret None) ;;
  do ondisk <- (if (n =? 3)%nat || (n =? 2)%nat then do w <- word 1%nat ;; math w else ret 0) ;;
  do to <- (if (n =? 3)%nat || (n =? 2)%nat || (n =? 1)%nat then
              do w <- word 0%nat ;; do l <- math w ;; ret (u64 (seek c + l))
            else ret (u64 (seek c + block_size c))) ;;
  on_sections (section_add (seek c) to (Io.vaddr c) ondisk 7 comment).

Definition cmd_sections (input : string) : M Z :=
  do here <- get (fun st => seek (config st)) ;;
  do _ <- (match input with
    | EmptyString => ret tt
    | String c t =>
      if Ascii.eqb c " " then
        if starts_with "-" t then on_sections (fun x => fst (section_rm (atoi t) x)) else new_section t
      else if Ascii.eqb c "d" then do v <- math t ;; on_sections (section_set here minus1 minus1 v (-1) None)
      else if Ascii.eqb c "c" then
        on_sections (section_set here minus1 minus1 minus1 (-1) (Some (if starts_with " " t then str_drop 1 t else t)))
      else if Ascii.eqb c "b" then do v <- math t ;; on_sections (section_set here minus1 v minus1 (-1) None)
      else if Ascii.eqb c "t" then do v <- math t ;; on_sections (section_set here v minus1 minus1 (-1) None)
      else if Ascii.eqb c "p" then on_sections (section_set here minus1 minus1 minus1 (atoi t) None)
      else ret tt
    end) ;;
  ret 0.

(** ** Moving bytes and resizing the file *)

Definition skip_blanks (s : string) : string := drop_while (fun c => Ascii.eqb c " ") s.

(** The length goes through an [int] on its way to the write; memory for it is supposed to be there. *)
Definition radare_move (arg : string) : M Z :=
  match split_at " " (skip_blanks arg) with
  | None => ret 1
  | Some (w, t) =>
    do src <- get (fun st => seek (config st)) ;;
    do len <- math w ;;
    do pos <- math t ;;
    if (pos =? minus1) || (len =? 0) then ret 1
    else
      do wr <- get (fun st => file_write (rio st)) ;;
      if negb wr then ret 1
      else if 2 ^ 31 <=? len then crash
      else
        do r <- on_rio (radare_read_at plugins os_pread src (fresh (Z.to_nat len))) ;;
        do _ <- on_rio (radare_write_at plugins os_pread fresh pos r.2) ;;
        do _ <- set_seek_m src ;;
        do _ <- read_block false ;;
        ret 0
  end.

(** What the operating system does to the file itself, and [radare_open(1)]. *)
Context (os_truncate : Z -> Z -> W -> W) (os_close : Z -> W -> W) (os_write : Z -> list Z -> W -> W) (reopen : M unit).

Definition on_dev (f : config_t -> W -> W) : M unit :=
  modify (fun st => with_rio (with_dev (write_last (rio st)) (f (config st) (dev (rio st))) (rio st)) st).

(** [rest] bytes are read at one place and written at another, and the file is left at [back]. *)
Definition shift_rest (source target rest back : Z) : StateM.M (radare_st W) unit :=
  do _ <- lseek_m plugins source ;;
  do r <- io_read_m plugins os_pread (fresh (Z.to_nat rest)) rest ;;
  do _ <- lseek_m plugins target ;;
  do _ <- io_write_m plugins r.2 ;;
  lseek_m plugins back.

(** The bytes behind the seek, or behind those that go, are moved. *)
Definition resize_at_seek (remove : bool) (n : Z) : M unit :=
  do c <- get config ;;
  if remove && (u64 (size c - seek c) <? n) then ret tt
  else
    let cut := if remove then n else 0 in
    let rest := u64 (size c - seek c - cut) in
    do _ <- (if 0 <? rest then
        if 2 ^ 63 <=? rest then crash
        else on_rio (shift_rest (u64 (seek c + cut)) (u64 (seek c + (if remove then 0 else n))) rest (seek c))
      else ret tt) ;;
    let size' := u64 (size c + (if remove then - n else n)) in
    do _ <- set_config (set_size_c size') ;;
    do _ <- on_dev (fun c => os_truncate (fd c) size') ;;
    modify (with_limit size').

(** A size that is read by [sscanf] when it starts like a hexadecimal number. *)
Definition new_size (n : Z) (arg : string) : Z :=
  match String.get 1 arg with
  | Some c => if Ascii.eqb c "x" then default n (scan_unsigned 16 arg) else n
  | None => n
  end.

Definition radare_resize (arg : string) : M unit :=
  match arg with
  | EmptyString => ret tt
  | String ch t =>
    do n <- math arg ;;
    do c <- get config ;;
    do wr <- get (fun st => file_write (rio st)) ;;
    if Ascii.eqb ch "?" || negb wr || (size c =? minus1) then ret tt
    else if Ascii.eqb ch "-" || Ascii.eqb ch "+" then
      do n <- math t ;; resize_at_seek (Ascii.eqb ch "-") n
    else
      let n := new_size n arg in
      do _ <- (if n <? size c then
          do _ <- on_dev (fun c => os_truncate (fd c) n) ;;
          do _ <- on_dev (fun c => os_close (fd c)) ;;
          do _ <- modify (fun st => if negb (limit st =? 0) && (n <? limit st) then with_limit n st else st) ;;
          set_config (set_size_c n)
        else ret tt) ;;
      do c <- get config ;;
      do _ <- (if size c <? n then
          do _ <- seek_to n ;;
          do _ <- on_dev (fun c => os_write (fd c) [0]) ;;
          do _ <- on_dev (fun c => os_close (fd c)) ;;
          do _ <- modify (with_limit n) ;;
          set_config (set_size_c n)
        else ret tt) ;;
      reopen
  end.

Definition cmd_resize (input : string) : M Z :=
  if bool_decide (is_Some (strchr input "*")) then ret 0
  else
    do _ <- radare_resize (drop_while iswhitespace (drop_while (fun c => negb (iswhitespace c)) input)) ;;
    ret 0.

(** ** Comparing *)

(** The lines: place, number, and the two bytes; the result counts them. *)
Fixpoint compare_loop (i : Z) (f d : list Z) : list (Z * Z * Z) :=
  match f, d with
  | x :: f', y :: d' => if x =? y then compare_loop (i + 1) f' d' else (i, x, y) :: compare_loop (i + 1) f' d'
  | _, _ => []
  end.
(** [None] when [d] is shorter than what is compared. *)
Definition radare_compare (f d : list Z) : option (list (Z * Z * Z) * Z) :=
  if (length f <=? length d)%nat then let l := compare_loop 0 f d in Some (l, Z.of_nat (length l)) else None.

(** Two rows of sixteen bytes, those that differ in inverse video, after every sixteen bytes and at the end. *)
Definition hex_cell (mark : bool) (b : Z) : string :=
  if mark then String (chr 27) "[7m" +:+ fmt_x0 2 b +:+ String (chr 27) "[0m" else fmt_x0 2 b.
Fixpoint compare_hex_loop (addr i : Z) (s0 s1 : string) (f d : list Z) : list string :=
  match f, d with
  | x :: f', y :: d' =>
    let flush := (0 <? i) && (i mod 16 =? 0) in
    let line := "0x" +:+ fmt_x0 8 (u64 (addr + i)) +:+ " " +:+ s0 +:+ " | " +:+ s1 +:+ nl in
    let '(s0, s1) := if flush then ("", "") else (s0, s1) in
    let rest := compare_hex_loop addr (i + 1) (s0 +:+ hex_cell (negb (x =? y)) x) (s1 +:+ hex_cell (negb (x =? y)) y) f' d' in
    if flush then line :: rest else rest
  | _, _ => ["0x" +:+ fmt_x0 8 (u64 (addr + i)) +:+ " " +:+ s0 +:+ " | " +:+ s1 +:+ nl]
  end.
Definition radare_compare_hex (addr : Z) (f d : list Z) : option (list string * Z) :=
  if (length f <=? length d)%nat then Some (compare_hex_loop addr 0 "" "" f d, Z.of_nat (length (compare_loop 0 f d))) else None.

(** What a command shows of a comparison: the lines of the bytes that differ, or rows. *)
Inductive shown := Bytes (l : list (Z * Z * Z)) | Rows (l : list string) | Nothing.

(** [other] does the comparisons that run programs ([cc], [cD]); [file] is what a file holds, behind what the new memory held. *)
Definition cmd_compare (file : string -> option (list Z)) (other : string -> M unit) (input : string) : M shown :=
  do _ <- read_block false ;;
  do c <- get config ;;
  let show := fun f d => lift ((fun r => Bytes r.1) <$> radare_compare f d) in
  match input with
  | EmptyString => ret Nothing
  | String ch t =>
    if Ascii.eqb ch "c" || Ascii.eqb ch "D" then do _ <- other input ;; ret Nothing
    else if Ascii.eqb ch "d" then do v <- math t ;; show (le_bytes 4 (u32 v)) (block c)
    else if Ascii.eqb ch "f" then
      if negb (starts_with " " t) then ret Nothing
      else
        match file (str_drop 1 t) with
        | None => ret Nothing
        | Some l => show (fill (take (Z.to_nat (block_size c)) l) (fresh (Z.to_nat (block_size c)))) (block c)
        end
    else if Ascii.eqb ch "x" then
      if negb (starts_with " " t) then ret Nothing
      else
        do st <- get (fun st => st) ;;
        do r <- lift (hex_bytes (get_math st) (str_drop 1 t) (Z.of_nat (String.length (str_drop 1 t)))) ;;
        show (take (Z.to_nat r.2) r.1) (block c)
    else if Ascii.eqb ch "X" then
      do off <- math t ;;
      do r <- on_rio (radare_read_at plugins os_pread off (fresh (Z.to_nat (block_size c)))) ;;
      do c <- get config ;;
      lift ((fun x => Rows x.1) <$> radare_compare_hex (u64 (seek c + Io.vaddr c)) r.2 (block c))
    else if Ascii.eqb ch " " then show (app (bytes_of_string t) [0]) (block c)
    else ret Nothing
  end.

(** ** Poking a file and dumping the block *)

(** A number of bytes; an error and an address are none a block has. *)
Definition count_of (r : ssize_t) : option Z := match r with Num n => if n <? 0 then None else Some n | Addr => None end.

Definition open_m (path : string) (flags mode : Z) : M Z := fun st =>
  match io_open plugins path flags mode (dev (rio st)) with
  | Some (d, x) => Some (x, with_rio (with_dev (write_last (rio st)) d (rio st)) st)
  | None => None
  end.
Definition close_m (x : Z) : M unit := fun st =>
  match io_close plugins x (dev (rio st)) with
  | Some (d, _) => Some (tt, with_rio (with_dev (write_last (rio st)) d (rio st)) st)
  | None => None
  end.
(** From another descriptor than the one of the file. *)
Definition read_fd (x : Z) (buf : list Z) : M (ssize_t * list Z) := fun st =>
  match io_read plugins os_pread (config st) (maps (rio st)) x buf (Z.of_nat (length buf)) (dev (rio st)) with
  | Some (d, buf', r) => Some ((r, buf'), with_rio (with_dev (write_last (rio st)) d (rio st)) st)
  | None => None
  end.
Definition write_fd (x : Z) (data : list Z) : M ssize_t := fun st =>
  match io_write plugins (file_write (rio st)) (write_last (rio st)) (config st) x data (dev (rio st)) with
  | Some (l, d, r) => Some (r, with_rio (with_dev l d (rio st)) st)
  | None => None
  end.

Fixpoint poke_loop (times : nat) (data : list Z) : M unit :=
  match times with
  | O => ret tt
  | S times' =>
    do s <- get (fun st => seek (config st)) ;;
    do _ <- on_rio (undo_write_new plugins os_pread fresh s data) ;;
    do _ <- on_rio (io_write_m plugins data) ;;
    poke_loop times' data
  end.

(** [times] is [cfg.count] and [yes] the answer, which nobody is asked for when the program is quiet. *)
Definition poke_data (n times : Z) (data : list Z) : M unit :=
  do c <- get config ;;
  do _ <- set_config (set_block (fill data (block c))) ;;
  do _ <- on_rio (undo_write_new plugins os_pread fresh (seek c) data) ;;
  do _ <- seek_here ;;
  do _ <- poke_loop (Z.to_nat times) data ;;
  do c <- get config ;;
  let end_ := u64 (seek c + n * times) in
  do _ <- (if size c <? end_ then
      do _ <- modify (fun st => if limit st =? size c then with_limit end_ st else st) ;;
      set_config (set_size_c end_)
    else ret tt) ;;
  do _ <- seek_here ;;
  do _ <- set_config (fun c => if negb (size c =? minus1) && (size c <? n) then set_size_c n c else c) ;;
  do _ <- read_block false ;;
  ret tt.

Definition radare_poke (cfg_count : Z) (yes : bool) (arg : string) : M unit :=
  let times := if cfg_count <? 1 then 1 else cfg_count in
  do wr <- get (fun st => file_write (rio st)) ;;
  match arg with
  | EmptyString => ret tt
  | _ =>
    if negb wr then ret tt
    else
      do x <- open_m arg 0 420 ;;
      if x <=? -1 then ret tt
      else
        do bs <- get (fun st => block_size (config st)) ;;
        do r <- read_fd x (fresh (Z.to_nat bs)) ;;
        do _ <- (if yes then
            do n <- lift (count_of r.1) ;;
            if bs <? n then crash else poke_data n times (take (Z.to_nat n) r.2)
          else ret tt) ;;
        close_m x
  end.

(** [open] creates the file; what is dumped is recorded as a write. *)
Definition radare_dump (os_creat : string -> W -> W * Z) (arg : string) (n : Z) : M Z :=
  do bs <- get (fun st => block_size (config st)) ;;
  match arg with
  | EmptyString => ret 1
  | _ =>
    do x <- (fun st => let '(d, x) := os_creat arg (dev (rio st)) in
               Some (x, with_rio (with_dev (write_last (rio st)) d (rio st)) st)) ;;
    if x <? 0 then ret 0
    else
      do _ <- radare_set_block_size_i n ;;
      do _ <- read_block false ;;
      do c <- get config ;;
      if (n <? 0) || (Z.of_nat (length (block c)) <? n) then crash
      else
        let data := take (Z.to_nat n) (block c) in
        do _ <- on_rio (undo_write_new plugins os_pread fresh (seek c) data) ;;
        do _ <- write_fd x data ;;
        do _ <- close_m x ;;
        do _ <- radare_set_block_size_i bs ;;
        ret 1
  end.

(** ** Writing *)

(** The key over and over. *)
Definition memcpy_loop (orig : list Z) (dsize : nat) : option (list Z) :=
  if (dsize =? 0)%nat then Some []
  else match orig with [] => None | _ => Some (take dsize (concat (replicate dsize orig))) end.

(** The bytes of a value, of which the upper four count when they are not zero, on a machine that stores the lowest first. *)
Definition value_bytes (off : Z) : option (list Z) :=
  if Z.land off 0xFFFFFFFF00000000 =? 0 then
    b ← endian_memcpy_e (le_bytes 4 off) 4 false; endian_memcpy_e b 4 (bigendian a)
  else endian_memcpy_e (le_bytes 8 off) 8 (bigendian a).

Definition write_here (data : list Z) : M unit :=
  do s <- get (fun st => seek (config st)) ;;
  do _ <- on_rio (undo_write_new plugins os_pread fresh s data) ;;
  do _ <- on_rio (io_write_m plugins data) ;;
  ret tt.

(** The instructions between semicolons, one behind the other; one that is not assembled is passed over.  [assemble] is
    [rasm_asm] for [asm.arch]: what it returns, the place it is told next, which only it moves, and what it wrote into
    [data]. *)
Fixpoint write_asm (assemble : Z -> string -> option (Z * Z * list Z)) (pc delta : Z) (data : list Z) (l : list string) : M unit :=
  match l with
  | [] => ret tt
  | s :: l' =>
    do r <- lift (assemble pc s) ;;
    let '(n, pc, w) := r in
    let data := fill w data in
    if n <? 1 then write_asm assemble pc delta data l'
    else if Z.of_nat (length data) <? n then crash
    else
      do c <- get config ;;
      let at_ := u64 (seek c + delta) in
      do _ <- on_rio (undo_write_new plugins os_pread fresh at_ (take (Z.to_nat n) data)) ;;
      do _ <- on_rio (radare_write_at plugins os_pread fresh at_ (take (Z.to_nat n) data)) ;;
      write_asm assemble pc (delta + n) data l'
  end.
Fixpoint pieces (fuel : nat) (s : string) : list string :=
  match fuel with
  | O => []
  | S fuel' => match split_at ";" s with Some (p, r) => p :: pieces fuel' r | None => [s] end
  end.

Definition is_op (c : ascii) : bool := bool_decide (c ∈ ["a"; "s"; "A"; "x"; "r"; "l"; "m"; "d"; "o"]%char).

(** [wo] and its operations; the text is three characters on, also where there are only two. *)
Definition write_op_cmd (input : string) : M bool :=
  match str_drop 1 input with
  | EmptyString => ret true
  | String op t =>
    do st <- get (fun st => st) ;;
    if is_op op && negb (starts_with " " t) then ret false
    else if is_op op || Ascii.eqb op "2" || Ascii.eqb op "4" then
      do arg <- lift (after 3 input) ;;
      do _ <- on_rio (radare_write_op plugins os_pread fresh (get_math st) arg op) ;; ret true
    else if Ascii.eqb op "n" then
      do _ <- on_rio (radare_write_op plugins os_pread fresh (get_math st) "ff" "x") ;; ret true
    else ret true
  end.

(** The settings of [radare_write] and its [radare_open(1)]. *)
Context (o : wconf) (reopen_rio : StateM.M (radare_st W) unit).
Definition write_text_cmd (arg : string) (mode : wmode) : M unit :=
  do st <- get (fun st => st) ;;
  do _ <- on_rio (radare_write plugins os_pread fresh (get_math st) o reopen_rio arg mode) ;;
  ret tt.

(** [yes] is the answer [radare_poke] gets; [other] are the commands on files ([wF], [wt], [wT]) and the one that runs a
    program ([wA]).  A usage message returns without restoring the seek. *)
Definition cmd_write (yes : bool) (assemble : Z -> string -> option (Z * Z * list Z)) (other : string -> M bool) (input : string) : M Z :=
  do back <- get (fun st => seek (config st)) ;;
  do _ <- seek_to (u64 (back + cursor a)) ;;
  do fine <- (match input with
    | EmptyString => ret false
    | String ch t =>
      if Ascii.eqb ch "v" then
        do off <- math t ;;
        do data <- lift (value_bytes off) ;;
        do _ <- write_here data ;; ret true
      else if Ascii.eqb ch "b" then
        do st <- get (fun st => st) ;;
        do r <- lift (hex_bytes (get_math st) t 9999) ;;
        if r.2 <=? 0 then ret true
        else
          do data <- lift (memcpy_loop (take (Z.to_nat r.2) r.1) (Z.to_nat (block_size (config st)))) ;;
          do _ <- write_here data ;; ret true
      else if Ascii.eqb ch "f" then
        if starts_with " " t then do _ <- radare_poke (cfg_count o) yes (str_drop 1 t) ;; ret true else ret false
      else if Ascii.eqb ch "a" then
        do text <- lift (after 2 input) ;;
        do c <- get config ;;
        do _ <- write_asm assemble (u64 (seek c + Io.vaddr c)) 0 (fresh 256) (pieces (S (String.length text)) text) ;; ret true
      else if Ascii.eqb ch "x" then
        if starts_with " " t then do _ <- write_text_cmd (str_drop 1 t) WMODE_HEX ;; ret true else ret false
      else if Ascii.eqb ch "w" then
        if starts_with " " t then do _ <- write_text_cmd (str_drop 1 t) WMODE_WSTRING ;; ret true else ret false
      else if Ascii.eqb ch "o" then write_op_cmd input
      else if Ascii.eqb ch "m" then
        do st <- get (fun st => st) ;;
        do _ <- on_rio (radare_write_mask_str (get_math st) t) ;; ret true
      else if Ascii.eqb ch " " then do _ <- write_text_cmd t WMODE_STRING ;; ret true
      else if bool_decide (ch ∈ ["F"; "t"; "T"; "A"]%char) then other input
      else ret false
    end) ;;
  do _ <- (if fine : bool then do _ <- seek_to back ;; ret tt else ret tt) ;;
  ret 0.
End cmds.
