(* ===== verification/CmdsSpec.v ===== *)
(** * What the commands of [Cmds] promise

    Over a file that keeps the promise [Disk]: a seek can be undone and redone, aligning forth and back is aligned,
    moved bytes are the ones that were there, stripped bytes are gone and a search stops only at its keyword. *)
From S2P Require Import Prelude StateM Utils Math Arch Rasm RasmSpec Flags Data Seeks Sections Io IoPlugins Rio RioSpec Write.
From S2P Require Import Cmds.
#[local] Open Scope string_scope.
#[local] Open Scope Z_scope.

Lemma undo_push_cur b h : cur (undo_push b h) = cur h.
Proof. unfold undo_push. destruct (_ =? _); [done|]. by destruct (undos_idx h =? _). Qed.

Lemma on_rio_Some {W A} (m : StateM.M (radare_st W) A) (st : cmds_st W) x r :
  m (rio st) = Some (x, r) -> on_rio m st = Some (x, with_rio r st).
Proof. intros H. unfold on_rio. by rewrite H. Qed.

(** Runs a step of a computation whose result is known. *)
Ltac step_with E := rewrite (bind_Some _ _ _ _ _ E).
Ltac step := erewrite bind_Some by reflexivity.

(** ** Aligning *)
Section align.
Context {W : Type} (before : Z) (a : around).
Notation next_align := (cmd_next_align (W := W) before a).
Notation prev_align := (cmd_prev_align (W := W) before a).
Notation place st := (seek (config st)).

Definition moved_to (s : Z) (st : cmds_st W) : cmds_st W := with_rio (with_conf (set_seek s (config st)) (rio st)) st.

(** The file does not end before [s]. *)
Definition inside (st : cmds_st W) (s : Z) : Prop := unksize a = true \/ s <= size (config st).

Lemma inside_goes_on st s : inside st s -> negb (unksize a) && (size (config st) <? s) = false.
Proof. intros [-> |H]; [done|]. rewrite (proj2 (Z.ltb_ge _ _)) by done. by destruct (unksize a). Qed.

Lemma moved_moved s t st : moved_to s (moved_to t st) = moved_to s st.
Proof. done. Qed.

(** The places behind aligned blocks. *)
Lemma next_align_loop_blocks n : forall st k bs,
  block_size (config st) = bs -> 0 < bs < 2^31 -> 0 <= place st -> place st / bs = k ->
  (k + Z.of_nat n) * bs < 2^64 ->
  (n <> 0%nat -> inside st (place st) /\ inside st ((k + Z.of_nat n - 1) * bs)) ->
  next_align_loop a n st = Some (tt, moved_to (if (n =? 0)%nat then place st else (k + Z.of_nat n) * bs) st).
Proof.
  induction n as [|n IH]; intros st k bs Hbs Hb Hs Hk Hmax Hin.
  { cbn [Nat.eqb next_align_loop ret]. unfold ret, moved_to. do 2 f_equal. by destruct st as [[[]]]. }
  destruct (Hin ltac:(done)) as [Hin1 Hin2]. cbn [next_align_loop Nat.eqb]. rewrite bind_get. cbv zeta.
  rewrite (inside_goes_on st _ Hin1), Hbs. rewrite u64_id by (unfold is_u64; lia). rewrite (proj2 (Z.eqb_neq bs 0)) by lia.
  pose proof (Z.mod_pos_bound (place st) bs ltac:(lia)) as Hm. pose proof (Z.div_mod (place st) bs ltac:(lia)) as Hd. rewrite Hk in Hd.
  rewrite (u64_id (bs - _)) by (unfold is_u64; lia). rewrite (u64_id (_ + _)) by (unfold is_u64; nia).
  replace (place st + (bs - place st mod bs)) with ((k + 1) * bs) by nia. step.
  change (with_rio _ _) with (moved_to ((k + 1) * bs) st).
  rewrite (IH _ (k + 1) bs); [|done|done|cbn; nia|cbn; apply Z.div_mul; lia|nia|].
  - rewrite moved_moved. do 3 f_equal. destruct n; cbn [Nat.eqb]; [cbn; nia|]. nia.
  - intros Hn. cbn. split; [|replace (k + 1 + Z.of_nat n - 1) with (k + Z.of_nat (S n) - 1) by lia; exact Hin2].
    destruct Hin2 as [|Hin2]; [by left|right]. cbn. nia.
Qed.

Lemma on_seeks_push (st : cmds_st W) : exists h, on_seeks (undo_push before) st = Some (tt, CmdsSt (rio st) h (limit st) (cfg_bsize st)) .
Proof.
  unfold on_seeks, modify. rewrite undo_push_cur. eexists. cbn. do 3 f_equal. by destruct st as [[[]]].
Qed.

(** From a place to the end of its block and on by whole blocks. *)
Theorem next_align_blocks st input bs :
  let n := Z.of_nat (S (count_front ">" input)) in let k := place st / bs in
  block_size (config st) = bs -> 0 < bs < 2^31 -> 0 <= place st -> (k + n) * bs < 2^64 ->
  inside st (place st) -> inside st ((k + n - 1) * bs) ->
  exists st', next_align input st = Some (0, st') /\ config st' = set_seek ((k + n) * bs) (config st).
Proof.
  intros n k Hbs Hb Hs Hmax H1 H2. unfold cmd_next_align.
  rewrite (bind_Some _ _ _ _ _ (next_align_loop_blocks (S (count_front ">" input)) st k bs Hbs Hb Hs eq_refl Hmax (fun _ => conj H1 H2))).
  cbn [Nat.eqb]. fold n. edestruct on_seeks_push as [h E]. rewrite (bind_Some _ _ _ _ _ E). eexists. by split.
Qed.

Lemma prev_align_loop_aligned n : forall st k bs,
  block_size (config st) = bs -> 0 < bs < 2^31 -> place st = k * bs -> Z.of_nat n <= k -> k * bs < 2^64 ->
  prev_align_loop before a n st = Some (tt, moved_to ((k - Z.of_nat n) * bs) st).
Proof.
  induction n as [|n IH]; intros st k bs Hbs Hb Hs Hn Hmax.
  { cbn [prev_align_loop]. unfold ret, moved_to. do 2 f_equal. rewrite Z.sub_0_r, <-Hs. by destruct st as [[[]]]. }
  cbn [prev_align_loop]. rewrite bind_get. cbv zeta. rewrite Hbs, Hs. rewrite (u64_id bs) by (unfold is_u64; lia).
  rewrite (u64_id (_ - _)) by (unfold is_u64; nia). replace (k * bs - bs) with ((k - 1) * bs) by lia. step.
  rewrite bind_get. change (with_rio _ _) with (moved_to ((k - 1) * bs) st). cbn [config conf rio with_rio moved_to with_conf seek set_seek].
  rewrite (proj2 (Z.eqb_neq bs 0)), Z.mod_mul by lia. cbn [negb Z.eqb]. rewrite bind_ret.
  change (with_rio _ _) with (moved_to ((k - 1) * bs) st). rewrite (IH _ (k - 1) bs); [|done|done|done|lia|nia].
  rewrite moved_moved. do 3 f_equal. lia.
Qed.

(** Going [n] blocks on from the start of a block and as many back leads to the same place. *)
Theorem align_and_back st forth back bs k :
  block_size (config st) = bs -> 0 < bs < 2^31 -> place st = k * bs -> 0 <= k ->
  count_front ">" forth = count_front "<" back ->
  let n := Z.of_nat (S (count_front ">" forth)) in
  (k + n) * bs < 2^64 -> inside st ((k + n - 1) * bs) ->
  exists st1 st2, next_align forth st = Some (0, st1) /\ place st1 = (k + n) * bs /\
    prev_align back st1 = Some (0, st2) /\ config st2 = config st.
Proof.
  intros Hbs Hb Hs Hk Hc n Hmax Hin.
  assert (Hd : place st / bs = k) by (rewrite Hs; apply Z.div_mul; lia).
  destruct (next_align_blocks st forth bs) as (st1 & E1 & H1); try done; rewrite ?Hd; try done; try nia.
  { destruct Hin as [|Hin]; [by left|right]. nia. }
  rewrite Hd in H1. exists st1. unfold cmd_prev_align. rewrite <-Hc.
  rewrite (bind_Some _ _ _ _ _ (prev_align_loop_aligned (S (count_front ">" forth)) st1 (k + n) bs
    ltac:(by rewrite H1) Hb ltac:(by rewrite H1) ltac:(lia) Hmax)).
  edestruct on_seeks_push as [h E]. rewrite (bind_Some _ _ _ _ _ E). eexists. split; [done|]. split; [by rewrite H1|].
  split; [reflexivity|]. change (set_seek ((k + n - n) * bs) (config st1) = config st). rewrite H1.
  replace (k + n - n) with k by lia. rewrite <-Hs. by destruct (config st).
Qed.
End align.

(** ** Seeking *)
Section spec.
Context {W : Type} (plugins : list (plugin_t W)) (os_pread : Z -> Z -> Z -> option (list Z))
  (fresh : nat -> list Z) (fdesc : Z) {HD : Disk plugins fdesc} (Hfd : fdesc <> -1).
Hypothesis fresh_length : forall n, length (fresh n) = n.
Context (before : Z) (get_math : cmds_st W -> string -> Z) (a : around) (arch_aop : Z -> list Z -> aop_t).

Notation plain' := (plain plugins fdesc).
Notation contents' := (contents plugins fdesc).
Notation place st := (seek (config st)).
Notation bytes st := (contents' (rio st)).
Notation seek_cmd := (cmd_seek plugins os_pread before get_math a arch_aop).

(** A state the commands can work on, with a block that fits at [s]. *)
Definition ready (st : cmds_st W) : Prop := plain' (rio st) /\ 0 <= block_size (config st).
Definition fits_at (s : Z) (st : cmds_st W) : Prop := 0 <= s /\ s + block_size (config st) <= size (config st).

Lemma plain_with_conf_seek s r : plain' r -> 0 <= s < minus1 -> plain' (with_conf (set_seek s (conf r)) r).
Proof. intros [] ?. by constructor. Qed.

Lemma seek_to_plain s st : ready st -> 0 <= s < minus1 ->
  exists st', on_rio (radare_seek plugins s SEEK_SET) st = Some (s, st') /\ ready st' /\
    config st' = set_seek s (config st) /\ bytes st' = bytes st /\ hist st' = hist st /\ limit st' = limit st.
Proof.
  intros [Hp Hb] Hs. destruct (seek_set plugins fdesc (rio st) s) as (d & E & Hd & Hbd & _); [apply Hp|apply Hp|apply Hp|done|].
  eexists. split; [by apply on_rio_Some|]. split; [|done]. split; [|done]. cbn. apply plain_with_conf_seek with (r := with_dev _ _ _); [|done].
  apply plain_with_dev; [done|done|by rewrite Hbd].
Qed.

(** The block after a read. *)
Definition block_at (s : Z) (st : cmds_st W) : list Z := slice s (block_size (config st)) (bytes st).

Lemma read_block_ready st : ready st -> fits_at (place st) st ->
  exists r st', on_rio (radare_read plugins os_pread false) st = Some (r, st') /\ ready st' /\
    config st' = set_block (block_at (place st) st) (config st) /\ bytes st' = bytes st /\ hist st' = hist st /\ limit st' = limit st.
Proof.
  intros [Hp Hb] [Hs Hl]. destruct (read_block_plain plugins os_pread fdesc Hfd (rio st) Hp Hb Hl) as (d & r & E & Hd & Hbd).
  eexists r, _. split; [by apply on_rio_Some|]. split; [|done]. split; [|done].
  destruct Hp. constructor; try done. cbn. unfold contents in *. cbn. by rewrite Hbd.
Qed.

(** What a command that seeks to [s] leaves. *)
Record arrived (s : Z) (st st' : cmds_st W) : Prop := {
  arr_ready : ready st';
  arr_conf : config st' = set_block (block_at s st) (set_seek s (config st));
  arr_bytes : bytes st' = bytes st;
  arr_hist : hist st' = undo_push before (with_cur s (hist st));
  arr_limit : limit st' = limit st }.

Lemma seek_there_arrives st off text rel sign s :
  ready st -> (off = 0 -> get_math st text = s) -> (off <> 0 -> off = s) -> rel = false -> fits_at s st ->
  exists st', seek_there plugins os_pread before get_math off text rel sign st = Some (0, st') /\ arrived s st st'.
Proof.
  intros Hr H0 H1 -> [Hs Hf]. pose proof (proj2 Hr) as Hb. pose proof (plain_small _ _ _ (proj1 Hr)) as Hsm. unfold config in Hf, Hb.
  unfold seek_there.
  assert ((if off =? 0 then math get_math text else ret off) st = Some (s, st)) as E.
  { destruct (Z.eqb_spec off 0); [by unfold math, get; rewrite H0|by unfold ret; rewrite H1]. }
  step_with E. rewrite bind_get. cbv iota beta.
  destruct (seek_to_plain s st Hr) as (st1 & E1 & Hr1 & Hc1 & Hb1 & Hh1 & Hl1); [unfold minus1; lia|]. step_with E1.
  step. set (h := undo_push before _). set (st2 := CmdsSt _ h _ _).
  assert (Hh : h = undo_push before (with_cur s (hist st))) by (unfold h; by rewrite Hc1, Hh1).
  assert (Hcur : cur h = s) by (rewrite Hh; by rewrite undo_push_cur).
  assert (Hc2 : config st2 = set_seek s (config st)) by (unfold st2; rewrite Hcur, Hc1; done).
  assert (Hr2 : ready st2).
  { split; [|by rewrite Hc2]. unfold st2. cbn [rio]. apply plain_with_conf_seek; [apply Hr1|]. rewrite Hcur. unfold minus1. lia. }
  destruct (read_block_ready st2 Hr2) as (r & st3 & E3 & Hr3 & Hc3 & Hb3 & Hh3 & Hl3); [unfold fits_at; rewrite Hc2; exact (conj Hs Hf)|]. step_with E3.
  assert (bytes st2 = bytes st) as Hb2 by (rewrite <-Hb1; done).
  exists st3. split; [done|]. constructor; [done| |by rewrite Hb3| |].
  - rewrite Hc3. unfold block_at. by rewrite Hb2, Hc2.
  - by rewrite Hh3.
  - by rewrite Hl3, <-Hl1.
Qed.

(** A text that starts with a digit is a place. *)
Definition is_number (text : string) : Prop :=
  match text with String c _ => 48 <= ord c <= 57 | EmptyString => False end /\ strchr text "?" = None.

Lemma ord_eqb_false c d : ord c <> ord d -> Ascii.eqb c d = false.
Proof. intros H. destruct (Ascii.eqb_spec c d) as [->|]; [by destruct H|done]. Qed.

Lemma cmd_seek_number text st : is_number text -> seek_cmd text st = seek_there plugins os_pread before get_math 0 text false 1 st.
Proof.
  intros [Hc Hq]. destruct text as [|c t]; [done|]. unfold cmd_seek. rewrite Hq.
  rewrite bool_decide_eq_false_2 by (by intros []). cbn [drop_while].
  assert (forall d, (48 <=? ord d) && (ord d <=? 57) = false -> Ascii.eqb c d = false) as Hd.
  { intros d Hd. apply ord_eqb_false. intros E. rewrite <-E in Hd. zcase; cbn in Hd; lia || done. }
  by rewrite !Hd by reflexivity.
Qed.

Lemma cmd_seek_undo st :
  seek_cmd "-" st = (do _ <- on_seeks (Seeks.undo_seek before) ;; ret 0) st.
Proof. reflexivity. Qed.
Lemma cmd_seek_redo st :
  seek_cmd "+" st = (do _ <- on_seeks (Seeks.undo_redo before) ;; ret 0) st.
Proof. reflexivity. Qed.

(** The history knows the place the program is at. *)
Definition tracked (st : cmds_st W) : Prop := 1 <= undos_idx (hist st) /\ last_entry before (hist st) = place st.

(** C11: A seek to a place in the file, other than the last one of the history, reads the block there and leaves the history
    knowing it, so that the next seek can be undone.  Undone it leads to the former last place of the history, which is
    where it came from when the history knew that one -- but before the first seek of all the history is empty and undo leads
    to the word in front of its array -- and redone to the place again, also when the history is full.  The file stays as
    it is. *)
Theorem seek_and_back st text :
  ready st -> Seeks.inv (hist st) -> is_number text -> fits_at (get_math st text) st ->
  get_math st text <> last_entry before (hist st) ->
  exists st1 st2 st3, seek_cmd text st = Some (0, st1) /\ place st1 = get_math st text /\ tracked st1 /\
    block (config st1) = block_at (place st1) st /\
    seek_cmd "-" st1 = Some (0, st2) /\ place st2 = last_entry before (hist st) /\ (tracked st -> place st2 = place st) /\
    seek_cmd "+" st2 = Some (0, st3) /\ place st3 = place st1 /\ tracked st3 /\ bytes st3 = bytes st.
Proof.
  intros Hr Hi Hn Hf Hne. set (s := get_math st text) in *.
  destruct (seek_there_arrives st 0 text false 1 s Hr) as (st1 & E1 & [Hr1 Hc1 Hb1 Hh1 _]); [done|done|done|done|].
  rewrite <-(cmd_seek_number text st Hn) in E1.
  destruct (push_undo_redo before (hist st) s Hi Hne) as ([Hx Hla] & Hu & Hre).
  change (SeeksSt _ _ _ s) with (with_cur s (hist st)) in Hx, Hla, Hu, Hre. rewrite <-Hh1 in Hx, Hla, Hu, Hre.
  assert (Hpl : place st1 = s) by (by rewrite Hc1).
  assert (Hcur : with_cur (place st1) (hist st1) = hist st1).
  { rewrite Hpl, Hh1. pose proof (undo_push_cur before (with_cur s (hist st))) as E. cbn in E. rewrite <-E at 1. by destruct (undo_push _ _). }
  eexists st1, _, _. split; [exact E1|]. split; [exact Hpl|]. split; [by split; [|by rewrite Hla, Hpl]|]. split; [by rewrite Hc1|].
  rewrite cmd_seek_undo. split; [reflexivity|]. cbn [config rio hist conf with_conf seek set_seek]. rewrite Hcur, Hu.
  split; [done|]. split; [by intros [_ ?]|].
  rewrite cmd_seek_redo. split; [reflexivity|]. cbn [config rio hist conf with_conf seek set_seek].
  replace (with_cur (last_entry before (hist st)) (Seeks.undo_seek before (hist st1))) with (Seeks.undo_seek before (hist st1))
    by (rewrite <-Hu; by destruct (Seeks.undo_seek _ _)).
  rewrite Hre. assert (Hch : cur (hist st1) = s) by (by rewrite Hh1, undo_push_cur).
  split; [by rewrite Hch|]. split; [split; [exact Hx|cbn; by rewrite Hla, Hch]|by rewrite <-Hb1].
Qed.

(** ** Next and previous block *)
Definition clamped (l s : Z) : Z := if negb (l =? 0) && (l <? s) then l else s.
Definition step_size (input : string) (st : cmds_st W) : Z :=
  match input with EmptyString => u64 (block_size (config st)) | _ => get_math st input end.

Lemma step_of_size input st : step_of get_math input st = Some (step_size input st, st).
Proof. by destruct input. Qed.

Lemma ready_at s st : ready st -> 0 <= s < minus1 -> ready (moved_to s st).
Proof. intros [Hp Hb] Hs. split; [by apply plain_with_conf_seek|done]. Qed.

Lemma clamp_and_seek s st : ready st -> 0 <= clamped (limit st) s < minus1 ->
  exists st', (do _ <- set_seek_m s ;; do _ <- clamp_to_limit ;; do _ <- seek_here plugins ;; ret 0) st = Some (0, st') /\
    ready st' /\ config st' = set_seek (clamped (limit st) s) (config st) /\ bytes st' = bytes st.
Proof.
  intros Hr Hc. step. change (with_rio _ st) with (moved_to s st).
  assert (clamp_to_limit (moved_to s st) = Some (tt, moved_to (clamped (limit st) s) st)) as E.
  { unfold clamp_to_limit. rewrite bind_get. unfold clamped. cbn. by destruct (_ && _). }
  step_with E. unfold seek_here. rewrite bind_bind, bind_get. cbn [config conf rio with_rio moved_to with_conf seek set_seek].
  destruct (seek_to_plain (clamped (limit st) s) (moved_to (clamped (limit st) s) st)) as (st1 & E1 & Hr1 & Hc1 & Hb1 & _);
    [by apply ready_at|done|]. step_with E1. exists st1. split; [done|]. split; [done|]. split; [by rewrite Hc1|by rewrite Hb1].
Qed.

(** The next block starts at the limit at most and the previous one at 0 at least. *)
Theorem step_clamped st input :
  ready st -> 0 <= limit st < minus1 -> 0 <= step_size input st -> place st + step_size input st < minus1 ->
  (exists st', cmd_next plugins get_math input st = Some (0, st') /\ bytes st' = bytes st /\
     place st' = clamped (limit st) (place st + step_size input st)) /\
  (exists st', cmd_prev plugins get_math input st = Some (0, st') /\ bytes st' = bytes st /\
     place st' = clamped (limit st) (Z.max 0 (place st - step_size input st))).
Proof.
  intros Hr Hl Ho Hm. pose proof (plain_seek _ _ _ (proj1 Hr)) as Hs. unfold config in Hm.
  assert (forall s, 0 <= s < minus1 -> 0 <= clamped (limit st) s < minus1) as Hcl.
  { intros s H. unfold clamped. destruct (_ && _); lia. }
  split.
  - unfold cmd_next. step_with (step_of_size input st). rewrite bind_get. unfold config. rewrite u64_id by (unfold is_u64, minus1 in *; lia).
    destruct (clamp_and_seek (seek (conf (rio st)) + step_size input st) st Hr) as (st' & E & _ & Hc & Hb); [apply Hcl; lia|].
    exists st'. split; [exact E|]. split; [done|]. change (conf (rio st')) with (config st'). by rewrite Hc.
  - unfold cmd_prev. step_with (step_of_size input st). rewrite bind_get. unfold config.
    replace (if seek (conf (rio st)) <? step_size input st then 0 else seek (conf (rio st)) - step_size input st)
      with (Z.max 0 (seek (conf (rio st)) - step_size input st)) by (zcase; lia).
    destruct (clamp_and_seek (Z.max 0 (seek (conf (rio st)) - step_size input st)) st Hr) as (st' & E & _ & Hc & Hb); [apply Hcl; lia|].
    exists st'. split; [exact E|]. split; [done|]. change (conf (rio st')) with (config st'). by rewrite Hc.
Qed.

(** ** Moving bytes *)

(** C27: [yt len dst] copies bytes from the seek to the place, as they were before, wherever the two overlap; nothing else
    of the file changes and the seek stays. *)
Theorem move_copies st arg w t len pos :
  ready st -> split_at " " (Cmds.skip_blanks arg) = Some (w, t) -> get_math st w = len -> get_math st t = pos ->
  0 < len < 2^31 -> 0 <= pos -> pos + len <= size (config st) -> place st + len <= size (config st) -> fits_at (place st) st ->
  exists st', radare_move plugins os_pread fresh get_math arg st = Some (0, st') /\ ready st' /\ place st' = place st /\
    bytes st' = patch (Z.to_nat pos) (slice (place st) len (bytes st)) (bytes st).
Proof.
  intros Hr Ha Hw Ht Hlen Hpos Hp1 Hp2 Hf. pose proof (proj1 Hr) as Hp. pose proof (plain_seek _ _ _ Hp) as Hs.
  pose proof (plain_small _ _ _ Hp) as Hsm. pose proof (plain_size _ _ _ Hp) as Hsz. unfold config in *.
  unfold radare_move. rewrite Ha, bind_get. unfold math. rewrite !bind_get, Hw, Ht.
  rewrite (proj2 (Z.eqb_neq _ minus1)) by (unfold minus1; lia). rewrite (proj2 (Z.eqb_neq len 0)) by lia. cbn [orb].
  rewrite bind_get, (plain_write _ _ _ Hp). cbn [negb]. rewrite (proj2 (Z.leb_gt _ _)) by lia.
  unfold config. rewrite <-(Z2Nat.id len) in Hlen, Hp1, Hp2 |- * by lia. set (n := Z.to_nat len) in *. rewrite Nat2Z.id.
  destruct (read_at_plain plugins os_pread fdesc (rio st) (seek (conf (rio st))) (fresh n) Hp) as (d1 & r1 & E1 & Hd1 & Hb1 & _);
    [lia|rewrite fresh_length; lia|]. rewrite fresh_length in E1.
  set (st1 := with_dev _ d1 _) in E1. assert (Hp' : plain' st1) by (apply plain_with_dev; [done|done|by rewrite Hb1]).
  assert (Hc1 : contents' st1 = bytes st) by exact Hb1.
  step_with (on_rio_Some _ _ _ _ E1). cbn [snd].
  assert (Hl : length (slice (seek (conf (rio st))) (Z.of_nat n) (bytes st)) = n) by (rewrite slice_length; lia).
  destruct (write_at_plain plugins os_pread fresh fdesc fresh_length st1 pos (slice (seek (conf (rio st))) (Z.of_nat n) (bytes st)) Hp')
    as (l & d2 & r2 & E2 & Hd2 & Hb2); [done|rewrite Hl; exact Hp1|]. rewrite Hc1 in Hb2.
  set (st2 := with_undo _ _ _ _) in E2.
  assert (Hp2' : plain' st2) by (apply plain_with_undo, plain_with_dev; [done|done|rewrite Hb2, patch_length by lia; by rewrite Hc1]).
  step_with (on_rio_Some (radare_write_at plugins os_pread fresh pos (slice (seek (conf (rio st))) (Z.of_nat n) (bytes st))) (with_rio st1 st) _ _ E2).
  step. set (st3 := with_rio _ _).
  assert (Hc3 : config st3 = conf (rio st)) by (unfold st3; cbn; by destruct (conf (rio st))).
  assert (Hr3 : ready st3).
  { split; [|rewrite Hc3; apply Hr]. unfold st3. cbn [rio with_rio]. by apply plain_with_conf_seek. }
  destruct (read_block_ready st3 Hr3) as (r & st4 & E4 & Hr4 & Hc4 & Hb4 & _); [unfold fits_at; rewrite Hc3; exact Hf|].
  step_with E4. exists st4. split; [done|]. split; [done|]. change (conf (rio st4)) with (config st4).
  split; [by rewrite Hc4, Hc3|]. rewrite Hb4. exact Hb2.
Qed.

(** ** Stripping bytes

    A file whose position is kept by the descriptor alone, and that can be cut. *)
Class Resizable (os_truncate : Z -> Z -> W -> W) := {
  position_kept c c' w off : disk_at c w off -> disk_at c' w off;
  truncated w n : disk_ok w -> 0 <= n <= Z.of_nat (length (disk_bytes w)) ->
    disk_ok (os_truncate fdesc n w) /\ disk_bytes (os_truncate fdesc n w) = take (Z.to_nat n) (disk_bytes w) }.

Lemma lseek_anywhere r off : plain' r -> 0 <= off <= size (conf r) -> off < 2^63 ->
  exists d, lseek_m plugins off r = Some (tt, with_dev (write_last r) d r) /\ disk_ok d /\ disk_bytes d = contents' r /\
    (forall c', seek c' = off -> disk_at c' d off).
Proof.
  intros Hp Ho H63. destruct (disk_lseek (conf r) (dev r) off (plain_ok _ _ _ Hp)) as (d & x & E & Hd & Hb & Hat).
  exists d. unfold lseek_m. rewrite (plain_fd _ _ _ Hp), E. split; [done|]. split; [done|]. split; [done|].
  intros c' Hc'. apply Hat; [|done|done]. pose proof (plain_size _ _ _ Hp) as Hz. unfold contents in Hz. lia.
Qed.

Lemma shift_rest_plain {os_truncate} {HR : Resizable os_truncate} r source target rest :
  plain' r -> 0 <= source -> 0 <= target <= source -> 0 <= rest -> source + rest <= size (conf r) -> target <= size (conf r) ->
  exists l d, shift_rest plugins os_pread fresh source target rest target r = Some (tt, with_dev l d r) /\ disk_ok d /\
    disk_bytes d = patch (Z.to_nat target) (slice source rest (contents' r)) (contents' r).
Proof.
  intros Hp Hs Ht Hr Hsr Htz. pose proof (plain_small _ _ _ Hp) as Hsm. pose proof (plain_size _ _ _ Hp) as Hsz. unfold shift_rest.
  destruct (lseek_anywhere r source Hp) as (d1 & E1 & Hd1 & Hb1 & Hat1); [lia|lia|]. step_with E1. set (r1 := with_dev _ d1 _).
  assert (Hp1 : plain' r1) by (apply plain_with_dev; [done|done|by rewrite Hb1]).
  destruct (disk_read (conf r1) d1 (fresh (Z.to_nat rest)) rest source Hd1) as (d2 & x2 & E2 & Hd2 & Hb2);
    [apply (position_kept (set_seek source (conf r1))), Hat1; done|rewrite Hb1; exact Hsz|lia|lia|exact Hsr|done|].
  assert (Hl : length (slice source rest (contents' r)) = Z.to_nat rest) by (rewrite slice_length; lia).
  assert (io_read_m plugins os_pread (fresh (Z.to_nat rest)) rest r1 = Some ((x2, slice source rest (contents' r)), with_dev (write_last r1) d2 r1)) as F2.
  { unfold io_read_m. rewrite (plain_fd _ _ _ Hp1), (plain_maps _ _ _ Hp1), (io_read_unmapped plugins os_pread) by constructor.
    change (dev r1) with d1. rewrite E2, Hb1. fold (slice source rest (contents' r)). by rewrite fill_all by (by rewrite fresh_length). }
  step_with F2. cbn [snd]. set (r2 := with_dev _ d2 r1).
  assert (Hp2 : plain' r2) by (apply plain_with_dev; [done|done|by rewrite Hb2]).
  destruct (lseek_anywhere r2 target Hp2) as (d3 & E3 & Hd3 & Hb3 & Hat3); [exact (conj (proj1 Ht) Htz)|lia|].
  step_with E3. set (r3 := with_dev _ d3 r2).
  assert (Hc : disk_bytes d3 = contents' r) by (rewrite Hb3; unfold contents at 1; cbn; by rewrite Hb2, Hb1).
  destruct (disk_write (write_last r3) (conf r3) d3 (slice source rest (contents' r)) target Hd3) as (l4 & d4 & x4 & E4 & Hd4 & Hb4);
    [by apply (position_kept (set_seek target (conf r3))), Hat3|lia|rewrite Hl, Hc; lia|].
  assert (io_write_m plugins (slice source rest (contents' r)) r3 = Some (x4, with_dev l4 d4 r3)) as F4.
  { unfold io_write_m. change (dev r3) with d3. change (file_write r3) with (file_write r). change (fd (conf r3)) with (fd (conf r)).
    by rewrite (plain_write _ _ _ Hp), (plain_fd _ _ _ Hp), E4. }
  step_with F4. set (r4 := with_dev _ d4 r3).
  assert (Hp4 : plain' r4).
  { apply plain_with_dev; [apply plain_with_dev; [done|done|by rewrite Hb3]|done|]. unfold contents at 1. cbn. rewrite Hb4, Hc, patch_length; [done|rewrite Hl; lia]. }
  destruct (lseek_anywhere r4 target Hp4) as (d5 & E5 & Hd5 & Hb5 & _); [exact (conj (proj1 Ht) Htz)|lia|].
  exists l4, d5. split; [exact E5|]. split; [done|]. rewrite Hb5. unfold contents at 1. cbn. by rewrite Hb4, Hc.
Qed.

(** Removing [n] bytes at the seek leaves what was in front of it followed by what was behind them; the size and the
    limit follow, and the seek stays. *)
Theorem strip_removes {os_truncate} {HR : Resizable os_truncate} st n :
  ready st -> 0 <= n -> place st + n <= size (config st) ->
  exists st', resize_at_seek plugins os_pread fresh os_truncate true n st = Some (tt, st') /\ ready st' /\ place st' = place st /\
    bytes st' = (take (Z.to_nat (place st)) (bytes st) ++ drop (Z.to_nat (place st + n)) (bytes st))%list /\
    size (config st') = size (config st) - n /\ limit st' = size (config st').
Proof.
  intros Hr Hn Hf. pose proof (proj1 Hr) as Hp. pose proof (plain_seek _ _ _ Hp) as Hs.
  pose proof (plain_small _ _ _ Hp) as Hsm. pose proof (plain_size _ _ _ Hp) as Hsz. unfold config in *.
  set (s := seek (conf (rio st))) in *. set (z := size (conf (rio st))) in *.
  unfold resize_at_seek. rewrite bind_get. unfold config. fold s z. cbv zeta. cbn [andb].
  rewrite (u64_id (z - s)) by (unfold is_u64; lia). rewrite (proj2 (Z.ltb_ge _ _)) by lia.
  rewrite (u64_id (z - s - n)), !u64_id by (unfold is_u64; lia). rewrite Z.add_0_r. set (rest := z - s - n).
  assert (exists l d, (if 0 <? rest then if 2 ^ 63 <=? rest then crash else on_rio (shift_rest plugins os_pread fresh (s + n) s rest s)
      else ret tt) st = Some (tt, with_rio (with_dev l d (rio st)) st) /\ disk_ok d /\
      disk_bytes d = patch (Z.to_nat s) (slice (s + n) rest (bytes st)) (bytes st)) as (l & d & E & Hd & Hb).
  { destruct (Z.ltb_spec 0 rest) as [Hrest|Hrest].
    - rewrite (proj2 (Z.leb_gt _ _)) by lia.
      destruct (shift_rest_plain (rio st) (s + n) s rest Hp) as (l & d & E & H); [lia|lia|lia|unfold rest; fold z; lia|fold z; lia|].
      exists l, d. split; [exact (on_rio_Some _ _ _ _ E)|done].
    - exists (write_last (rio st)), (dev (rio st)). split; [by destruct st as [[]]|]. split; [apply Hp|].
      assert (slice (s + n) rest (bytes st) = []) as -> by (unfold slice; by replace (Z.to_nat rest) with 0%nat by lia).
      unfold patch, contents. cbn [length app]. rewrite Nat.add_0_r. by rewrite take_drop. }
  step_with E. do 2 step. eexists. split; [reflexivity|].
  assert (Hlen : length (disk_bytes d) = length (bytes st)) by (rewrite Hb; apply patch_length; rewrite slice_length; unfold rest; lia).
  destruct (truncated d (z + - n) Hd) as [Ht1 Ht2]; [lia|].
  assert (Hbytes : disk_bytes (os_truncate fdesc (z + - n) d) = (take (Z.to_nat s) (bytes st) ++ drop (Z.to_nat (s + n)) (bytes st))%list).
  { rewrite Ht2, Hb. unfold patch, slice. rewrite take_ge with (n := Z.to_nat rest) by (rewrite length_drop; unfold rest; lia).
    rewrite app_assoc, take_app_le by (rewrite length_app, length_take, length_drop; lia).
    apply take_ge. rewrite length_app, length_take, length_drop. lia. }
  cbn. rewrite (plain_fd _ _ _ Hp). split; [|split; [done|split; [exact Hbytes|split; [lia|done]]]].
  split; [|apply Hr]. destruct Hp. constructor; try done; cbn; try done; try lia.
  unfold contents. cbn. rewrite Hbytes, length_app, length_take, length_drop. unfold contents in *. lia.
Qed.

(** ** Searching

    Reads that cross the end of the file: some of the bytes asked for come, from the front. *)
Class ShortReads := short_read : forall c w (buf : list Z) (count off : Z),
  disk_ok w -> size c = Z.of_nat (length (disk_bytes w)) -> 0 <= seek c -> seek c + count < 2^63 -> 0 <= count ->
  exists w' data r, io_read plugins (fun _ _ _ => None) c [] fdesc buf count w = Some (w', fill data buf, r) /\
    disk_ok w' /\ disk_bytes w' = disk_bytes w /\ (length data <= Z.to_nat count)%nat /\
    (disk_at c w off -> 0 <= off <= size c -> data `prefix_of` slice off count (disk_bytes w)).

(** A block read at [s]: what is not there is [0xff]. *)
Definition seen_at (bs : list Z) (s : Z) (l : list Z) : Prop :=
  forall i v, l !! i = Some v -> v = 255 \/ bs !! (Z.to_nat s + i)%nat = Some v.

Lemma read_block_short {HS : ShortReads} (next : bool) st s :
  ready st -> s = place st + (if next then block_size (config st) else 0) -> place st < 2^62 -> block_size (config st) < 2^31 ->
  exists r st' b, on_rio (radare_read plugins os_pread next) st = Some (r, st') /\ ready st' /\ config st' = set_block b (set_seek s (config st)) /\
    bytes st' = bytes st /\ length b = Z.to_nat (block_size (config st)) /\
    (s <= size (config st) -> seen_at (bytes st) s b).
Proof.
  intros [Hp Hb] -> H62 H31. pose proof (plain_seek _ _ _ Hp) as Hs. pose proof (plain_size _ _ _ Hp) as Hsz.
  pose proof (plain_small _ _ _ Hp) as Hsm. unfold config in *. set (bs := block_size (conf (rio st))) in *.
  set (s := seek (conf (rio st)) + (if next then bs else 0)). assert (0 <= s < 2^63) as Hs' by (unfold s; destruct next; lia).
  destruct (seek_set plugins fdesc (rio st) s) as (d1 & E1 & Hd1 & Hb1 & Hat1); [apply Hp|apply Hp|apply Hp|unfold minus1; lia|].
  set (r1 := with_conf _ (with_dev _ d1 _)) in E1.
  destruct (short_read (conf r1) d1 (replicate (Z.to_nat bs) 255) bs s Hd1) as (d2 & data & x & E2 & Hd2 & Hb2 & Hl & Hpre);
    [rewrite Hb1; exact Hsz|cbn; lia|cbn; unfold s; destruct next; lia|done|].
  assert (io_read_m plugins os_pread (replicate (Z.to_nat bs) 255) (u64 bs) r1 = Some ((x, fill data (replicate (Z.to_nat bs) 255)), with_dev (write_last r1) d2 r1)) as F2.
  { unfold io_read_m. change (fd (conf r1)) with (fd (conf (rio st))). change (maps r1) with (maps (rio st)). rewrite (plain_fd _ _ _ Hp), (plain_maps _ _ _ Hp).
    rewrite (io_read_unmapped plugins os_pread) by constructor. rewrite u64_id by (unfold is_u64; lia). change (dev r1) with d1. by rewrite E2. }
  assert (exists r', radare_read plugins os_pread next (rio st) = Some (x, r') /\
    r' = with_conf (set_block (fill data (replicate (Z.to_nat bs) 255)) (set_seek s (conf (rio st)))) (with_dev (write_last (rio st)) d2 (rio st))) as (r' & E & ->).
  { unfold radare_read. rewrite (plain_fd _ _ _ Hp), (proj2 (Z.eqb_neq fdesc (-1))) by done. rewrite (proj2 (Z.eqb_neq _ minus1)) by lia.
    fold bs. replace (if next then u64 (seek (conf (rio st)) + bs) else seek (conf (rio st))) with s
      by (unfold s; destruct next; [symmetry; apply u64_id; unfold is_u64; lia|lia]).
    step_with E1. step_with F2. eexists. split; reflexivity. }
  eexists x, _, _. split; [exact (on_rio_Some _ _ _ _ E)|].
  assert (disk_bytes d2 = bytes st) as Hb12 by (rewrite Hb2; exact Hb1).
  split; [|split; [reflexivity|split; [exact Hb12|split; [rewrite fill_length; rewrite length_replicate; lia|]]]].
  - split; [|exact Hb]. cbn. destruct Hp. constructor; try done; cbn; [|unfold minus1; lia]. unfold contents in *. cbn. by rewrite Hb12.
  - intros Hsz' i v Hi. unfold fill in Hi. destruct (decide (i < length data)%nat) as [Hi'|Hi'].
    + right. rewrite lookup_app_l in Hi by done. assert (data `prefix_of` slice s bs (bytes st)) as Hpre'.
      { rewrite Hb1 in Hpre. apply Hpre; [|cbn; lia]. apply Hat1; [unfold contents in *; lia|lia|done]. }
      rewrite (prefix_lookup_lt _ _ _ Hi' Hpre') in Hi. rewrite slice_lookup in Hi. by case_decide.
    + left. rewrite lookup_app_r in Hi by lia. rewrite lookup_drop in Hi. by apply lookup_replicate in Hi as [-> _].
Qed.

(** What was walked ends with the part of the keyword that is met. *)
Lemma match_block_sound kw block : kw <> [] -> forall k i seen,
  (k < length kw)%nat -> take k kw `suffix_of` seen ->
  match match_block kw k i block with
  | inl j => (i <= j < i + length block)%nat /\ kw `suffix_of` (seen ++ take (S (j - i)) block)%list
  | inr k' => (k' < length kw)%nat /\ take k' kw `suffix_of` (seen ++ block)%list
  end.
Proof.
  intros Hne. induction block as [|b block IH]; intros k i seen Hk Hs; cbn [match_block]; [by rewrite app_nil_r|].
  assert (Hcons : forall m, (seen ++ b :: take m block = (seen ++ [b]) ++ take m block)%list) by (intros m; by rewrite <-app_assoc).
  case_bool_decide as Hb.
  - assert (take (S k) kw `suffix_of` (seen ++ [b])%list) as Hs1.
    { rewrite (take_S_r _ _ _ Hb). destruct Hs as [p ->]. exists p. by rewrite <-app_assoc. }
    destruct (Nat.eqb_spec (S k) (length kw)) as [E|E].
    + split; [cbn; lia|]. replace (i - i)%nat with 0%nat by lia. cbn [take]. rewrite <-(take_ge kw (S k)) by lia. by destruct block.
    + specialize (IH (S k) (S i) (seen ++ [b])%list ltac:(lia) Hs1). destruct (match_block kw (S k) (S i) block) as [j|k'].
      * destruct IH as [Hj IH]. split; [cbn; lia|]. replace (S (j - i)) with (S (S (j - S i))) by lia. by rewrite firstn_cons, Hcons.
      * by rewrite <-app_assoc in IH.
  - specialize (IH 0%nat (S i) (seen ++ [b])%list ltac:(destruct kw; [done|cbn; lia]) (suffix_nil _)).
    destruct (match_block kw 0 (S i) block) as [j|k'].
    + destruct IH as [Hj IH]. split; [cbn; lia|]. replace (S (j - i)) with (S (S (j - S i))) by lia. by rewrite firstn_cons, Hcons.
    + by rewrite <-app_assoc in IH.
Qed.

Lemma seen_at_app bs s l1 l2 : 0 <= s -> seen_at bs s l1 -> seen_at bs (s + Z.of_nat (length l1)) l2 -> seen_at bs s (l1 ++ l2)%list.
Proof.
  intros Hs H1 H2 i v Hi. destruct (decide (i < length l1)%nat).
  - rewrite lookup_app_l in Hi by done. by apply H1.
  - rewrite lookup_app_r in Hi by lia. destruct (H2 _ _ Hi) as [|E]; [by left|right]. rewrite <-E. f_equal. lia.
Qed.
Lemma seen_at_take bs s l n : seen_at bs s l -> seen_at bs s (take n l).
Proof. intros H i v Hi. apply lookup_take_Some in Hi as [Hi _]. by apply H. Qed.

(** A keyword without [0xff] that ends what was seen is in the file. *)
Lemma seen_suffix bs s l kw : 0 <= s -> seen_at bs s l -> kw `suffix_of` l -> Forall (fun b => b <> 255) kw ->
  slice (s + Z.of_nat (length l) - Z.of_nat (length kw)) (Z.of_nat (length kw)) bs = kw.
Proof.
  intros Hs Hl [p ->] Hkw. rewrite length_app. apply list_eq. intros i. rewrite slice_lookup.
  destruct (decide (i < Z.to_nat (Z.of_nat (length kw)))%nat) as [Hi|Hi]; [|by rewrite lookup_ge_None_2 by lia].
  destruct (lookup_lt_is_Some_2 kw i) as [v Hv]; [lia|]. rewrite Hv.
  destruct (Hl (length p + i)%nat v) as [->|E].
  - rewrite lookup_app_r by lia. by replace (length p + i - length p)%nat with i by lia.
  - rewrite Forall_lookup in Hkw. by destruct (Hkw _ _ Hv).
  - rewrite <-E. f_equal. lia.
Qed.

(** What the loop of the search relies on, [base] being where it began. *)
Record searching (kw : list Z) (eseek base : Z) (bs : list Z) (k : Z) (st : cmds_st W) : Prop := {
  se_ready : ready st;
  se_bytes : bytes st = bs;
  se_base : 0 <= base <= place st;
  se_small : place st < eseek + block_size (config st) \/ place st = base;
  se_block : length (block (config st)) = Z.to_nat (block_size (config st));
  se_k : 0 <= k < Z.of_nat (length kw);
  se_seen : place st <= size (config st) -> seen_at bs (place st) (block (config st)) /\
    exists seen, base + Z.of_nat (length seen) = place st /\ seen_at bs base seen /\ take (Z.to_nat k) kw `suffix_of` seen }.

Lemma seek_search_loop_sound {HS : ShortReads} kw eseek base bs n : forall k count st,
  kw <> [] -> Forall (fun b => b <> 255) kw -> searching kw eseek base bs k st ->
  0 < block_size (config st) < 2^31 -> eseek <= size (config st) -> base <= size (config st) -> size (config st) < 2^61 ->
  eseek - place st < (Z.of_nat n - 1) * block_size (config st) -> (0 < n)%nat ->
  exists r st', seek_search_loop plugins os_pread a n kw eseek k count st = Some (r, st') /\ ready st' /\ bytes st' = bs /\
    (r = 1 \/ r = 0 /\ base <= place st' /\ slice (place st') (Z.of_nat (length kw)) bs = kw).
Proof.
  induction n as [|n IH]; intros k count st Hne Hkw [Hr Hby Hbase Hsm Hbl Hk Hseen] Hbs Hes Hbz Hz Hn Hpos; [lia|].
  cbn [seek_search_loop]. rewrite bind_get. destruct (Z.leb_spec eseek (place st)) as [He|He].
  { eexists _, st. split; [reflexivity|]. split_and!; [done|done|by left]. }
  destruct Hseen as (Hsb & seen & Hls & Hss & Hsuf); [lia|].
  assert (whole_block st = Some (block (config st), st)) as Ew.
  { unfold whole_block. rewrite bind_get, (proj2 (Z.ltb_ge _ _)) by lia. unfold ret. by rewrite take_ge by lia. }
  step_with Ew. pose proof (match_block_sound kw (block (config st)) Hne (Z.to_nat k) 0 seen ltac:(lia) Hsuf) as Hm.
  destruct (match_block _ _ _ _) as [j|k'].
  - destruct Hm as [Hj Hm]. rewrite Nat.sub_0_r in Hm. set (hit := place st + Z.of_nat j - Z.of_nat (length kw) + 1).
    assert (Hlen : length (seen ++ take (S j) (block (config st)))%list = (length seen + S j)%nat) by (rewrite length_app, length_take; lia).
    assert (length kw <= length seen + S j)%nat as Hlk by (rewrite <-Hlen; by apply suffix_length).
    rewrite u64_id by (unfold is_u64; lia).
    destruct (seek_to_plain hit st Hr) as (st' & E & Hr' & Hc' & Hb' & _); [unfold hit, minus1; lia|]. fold hit.
    exists 0, st'. step_with E. split; [reflexivity|]. split; [done|]. split; [by rewrite Hb'|]. right. split; [done|].
    rewrite Hc'. cbn [seek set_seek]. split; [unfold hit; lia|].
    pose proof (seen_suffix bs base _ kw (proj1 Hbase) (seen_at_app bs base seen _ (proj1 Hbase) Hss ltac:(rewrite Hls; by apply seen_at_take)) Hm Hkw) as H.
    rewrite Hlen in H. rewrite <-H at 2. f_equal. unfold hit. lia.
  - destruct Hm as [Hk' Hm].
    destruct (read_block_short true st (place st + block_size (config st)) Hr eq_refl) as (x & st1 & b & E & Hr1 & Hc1 & Hb1 & Hl1 & Hs1); [lia|lia|].
    step_with E. rewrite bind_get, Hc1. cbn [block_size set_block set_seek]. cbv zeta.
    destruct (_ && _); [eexists _, st1; split; [reflexivity|]; split_and!; [done|by rewrite Hb1|by left]|].
    apply (IH (Z.of_nat k') _ st1 Hne Hkw); try (rewrite Hc1; cbn; lia).
    + constructor; rewrite ?Hb1; rewrite ?Hc1; cbn; try done; try lia. intros Hsz. split; [rewrite <-Hby; by apply Hs1|].
      exists (seen ++ block (config st))%list. rewrite length_app. split; [lia|]. rewrite Nat2Z.id. split; [|done].
      apply seen_at_app; [lia|done|by rewrite Hls].
    + destruct n; [|lia]. exfalso. nia.
Qed.

Lemma seek_keyword_text st t : t <> "" -> (String.length t < 1023)%nat ->
  seek_keyword get_math (" " +:+ t) st = Some (Some (bytes_of_string t), st).
Proof.
  intros Ht Hl. unfold seek_keyword. cbn [String.append Ascii.eqb Bool.eqb]. rewrite (proj2 (Nat.leb_gt _ _)) by done. by destruct t.
Qed.

(** C33: A search for a text ends; it stays where it was, or stops behind at a place where the text is.  A text with a byte
    [0xff] is excluded: what is behind the end of the file reads like that. *)
Theorem seek_search_sound {HS : ShortReads} st t :
  ready st -> 0 < block_size (config st) < 2^31 -> place st < size (config st) < 2^61 -> 0 <= search_to a <= size (config st) ->
  t <> "" -> (String.length t < 1023)%nat -> Forall (fun b => b <> 255) (bytes_of_string t) ->
  exists st', radare_seek_search plugins os_pread get_math a (" " +:+ t) st = Some (0, st') /\ bytes st' = bytes st /\
    (place st' = place st \/
     place st < place st' /\ slice (place st') (Z.of_nat (String.length t)) (bytes st) = bytes_of_string t).
Proof.
  intros Hr Hbs Hz Hto Hne Hlen Hkw. pose proof (plain_seek _ _ _ (proj1 Hr)) as Hs. change (conf (rio st)) with (config st) in Hs.
  unfold radare_seek_search. rewrite !bind_get. cbv zeta. step_with (seek_keyword_text st t Hne Hlen).
  set (kw := bytes_of_string t) in *. set (eseek := if search_to a =? 0 then _ else _).
  assert (Hlkw : length kw = String.length t) by (unfold kw, bytes_of_string; rewrite length_fmap; clear; by induction t; cbn; f_equal).
  step. rewrite u64_id by (unfold is_u64; lia). change (with_rio _ st) with (moved_to (place st + 1) st).
  set (st1 := moved_to _ st). assert (Hr1 : ready st1) by (apply ready_at; [done|unfold minus1; lia]).
  destruct (read_block_short false st1 (place st + 1) Hr1) as (x & st2 & b & E & Hr2 & Hc2 & Hb2 & Hl2 & Hs2); [cbn; lia|cbn; lia|exact (proj2 Hbs)|].
  step_with E. rewrite bind_get. change (bytes st1) with (bytes st) in *. change (config st1) with (set_seek (place st + 1) (config st)) in *.
  assert (Hkw0 : kw <> []) by (intros E0; rewrite E0 in Hlkw; by destruct t).
  assert (eseek <= size (config st)) as Hes by (unfold eseek; zcase; lia).
  destruct (seek_search_loop_sound kw eseek (place st + 1) (bytes st) (search_turns (config st2) eseek) 0 0 st2) as (r & st3 & E3 & Hr3 & Hb3 & Hres);
    try (rewrite Hc2; cbn; lia); try done.
  - constructor; try done; try (rewrite Hc2; cbn; lia); try (destruct kw; [done|cbn; lia]); try (right; by rewrite Hc2); try by rewrite Hc2.
    intros Hsz. rewrite Hc2 in *. cbn in *. split; [by apply Hs2|]. exists []. split; [cbn; lia|]. split; [by intros ? ? ?|done].
  - rewrite Hc2. unfold search_turns. cbn [seek block_size set_block set_seek]. replace (Z.max 1 (block_size (config st))) with (block_size (config st)) by lia.
    pose proof (Z.div_mod (Z.max 0 (eseek - (place st + 1))) (block_size (config st)) ltac:(lia)).
    pose proof (Z.mod_pos_bound (Z.max 0 (eseek - (place st + 1))) (block_size (config st)) ltac:(lia)).
    pose proof (Z.div_pos (Z.max 0 (eseek - (place st + 1))) (block_size (config st)) ltac:(lia) ltac:(lia)). nia.
  - unfold search_turns. pose proof (Z.div_pos (Z.max 0 (eseek - seek (config st2))) (Z.max 1 (block_size (config st2))) ltac:(lia) ltac:(lia)). lia.
  - step_with E3. rewrite <-Hlkw. destruct Hres as [->|(-> & Hp & Hk)].
    + change (1 =? 0) with false. cbv iota. destruct (seek_to_plain (place st) st3 Hr3 Hs) as (st4 & E4 & _ & Hc4 & Hb4 & _).
      step_with E4. exists st4. split; [done|]. split; [by rewrite Hb4, Hb3|]. left. by rewrite Hc4.
    + exists st3. split; [done|]. split; [done|]. right. split; [lia|done].
Qed.
End spec.

(** ** A file as the operating system has it: bytes and a position *)
Module OneFile.
Definition t : Type := list Z * Z.
Definition os_open (_ : string) (_ _ : Z) (w : t) : t * Z := (w, 3).
Definition os_close (_ : Z) (w : t) : t * Z := (w, 0).
Definition os_lseek (_ off whence : Z) (w : t) : t * Z :=
  if (whence =? SEEK_SET) && (0 <=? off) then ((w.1, off), off) else (w, -1).
Definition os_read (_ n : Z) (w : t) : t * option (list Z) := ((w.1, w.2 + Z.of_nat (length (slice w.2 n w.1))), Some (slice w.2 n w.1)).
Definition os_write (_ : Z) (data : list Z) (w : t) : t * Z :=
  ((patch (Z.to_nat w.2) data w.1, w.2 + Z.of_nat (length data)), Z.of_nat (length data)).
Definition os_truncate (_ n : Z) (w : t) : t := (take (Z.to_nat n) w.1, w.2).

#[export] Instance regular : RegularFile os_lseek os_read os_write 3.
Proof.
  refine {| file_bytes := fst; file_pos := snd |}.
  - intros w off. unfold os_lseek. split; [by destruct (_ && _)|]. intros H. by rewrite (proj2 (Z.leb_le _ _)).
  - by intros w n.
  - by intros w data.
Defined.

Definition table : list (plugin_t t) := [posix_plugin os_open os_close os_lseek os_read os_write].
#[export] Instance disk : Disk table 3 := posix_disk os_open os_close os_lseek os_read os_write 3 ltac:(discriminate).

Definition no_maps (_ _ _ : Z) : option (list Z) := None.
Definition fresh (n : nat) : list Z := replicate n 0.
Lemma zeros_length n : length (fresh n) = n.
Proof. apply length_replicate. Qed.

#[export] Instance resizable : Resizable table 3 os_truncate.
Proof. constructor; [done|]. by intros w n _ _. Qed.

#[export] Instance short : ShortReads table 3.
Proof.
  intros c w buf count off _ _ _ _ Hc. unfold io_read, find_fd. cbn.
  eexists _, _, _. split; [reflexivity|]. split; [done|]. split; [done|]. split.
  - cbn. unfold slice. rewrite length_take. lia.
  - by intros <- _.
Qed.

Definition math (_ : cmds_st t) (s : string) : Z := atoi s.
Definition nothing_around : around :=
  Around false false 0 (FlagsSt [] [] 0 0) [] [] 0 0 0.
Definition two_bytes (_ : Z) (_ : list Z) : aop_t := set_length 2 aop_zero.

(** A file at [seek] with blocks of [bs] bytes; the history knows the place. *)
Definition start (seek bs : Z) (bytes : list Z) : cmds_st t :=
  CmdsSt (RadareSt (Config 3 seek (Z.of_nat (length bytes)) 0 0 bs []) true true (SectionsSt [] 0) [] 0 (bytes, 0) [] true false None)
    (SeeksSt (<[0%nat := seek]> (replicate 64 0)) 1 1 seek) 0 bs.

Lemma start_ready seek bs bytes : 0 <= seek < minus1 -> 0 <= bs -> Z.of_nat (length bytes) < 2^63 -> ready table 3 (start seek bs bytes).
Proof. intros Hs Hb Hl. split; [|done]. by constructor. Qed.

Definition seek_cmd := cmd_seek table no_maps 0 math nothing_around two_bytes.
Definition place (st : cmds_st t) : Z := seek (config st).
Definition bytes (st : cmds_st t) : list Z := (dev (rio st)).1.
Definition then_ {A} (m : StateM.M (cmds_st t) Z) (f : cmds_st t -> A) (st : cmds_st t) : option A := f <$> (snd <$> m st).
End OneFile.
Import OneFile.

Lemma seek_and_back_witness :
  exists st1 st2 st3, seek_cmd "4" (start 1 2 [1; 2; 3; 4; 5; 6]) = Some (0, st1) /\ place st1 = 4 /\ block (config st1) = [5; 6] /\
    seek_cmd "-" st1 = Some (0, st2) /\ place st2 = 1 /\ seek_cmd "+" st2 = Some (0, st3) /\ place st3 = 4.
Proof.
  destruct (seek_and_back table no_maps 3 ltac:(discriminate) 0 math nothing_around two_bytes (start 1 2 [1; 2; 3; 4; 5; 6]) "4")
    as (st1 & st2 & st3 & E1 & H1 & _ & H2 & E2 & H3 & _ & E3 & H4 & _);
    [apply start_ready; [unfold minus1; lia|lia|cbn; lia]|constructor; vm_compute; (done || split; discriminate)
    |split; [vm_compute; split; discriminate|reflexivity]|vm_compute; split; discriminate|discriminate|].
  exists st1, st2, st3. split; [exact E1|]. split; [exact H1|]. split; [rewrite H2, H1; reflexivity|]. split; [exact E2|].
  split; [exact H3|]. split; [exact E3|]. unfold place. by rewrite H4, H1.
Defined.

Lemma align_and_back_witness :
  exists st1 st2, cmd_next_align 0 nothing_around ">" (start 4 4 (replicate 20 7)) = Some (0, st1) /\ place st1 = 12 /\
    cmd_prev_align 0 nothing_around "<" st1 = Some (0, st2) /\ place st2 = 4.
Proof.
  destruct (align_and_back 0 nothing_around (start 4 4 (replicate 20 7)) ">" "<" 4 1) as (st1 & st2 & E1 & H1 & E2 & H2);
    [reflexivity|lia|reflexivity|lia|reflexivity|cbn; lia|right; cbn; lia|].
  exists st1, st2. split; [exact E1|]. split; [exact H1|]. split; [exact E2|]. unfold place. by rewrite H2.
Defined.

Lemma move_copies_witness :
  exists st', radare_move table no_maps fresh math " 3 2" (start 1 2 [1; 2; 3; 4; 5; 6]) = Some (0, st') /\
    bytes st' = [1; 2; 2; 3; 4; 6].
Proof.
  destruct (move_copies table no_maps fresh 3 ltac:(discriminate) zeros_length math (start 1 2 [1; 2; 3; 4; 5; 6]) " 3 2" "3" "2" 3 2)
    as (st' & E & _ & _ & Hb);
    [apply start_ready; [unfold minus1; lia|lia|cbn; lia]|reflexivity|reflexivity|reflexivity|lia|lia|cbn; lia|cbn; lia|split; cbn; lia|].
  exists st'. split; [exact E|]. exact Hb.
Defined.

Lemma strip_removes_witness :
  exists st', resize_at_seek table no_maps fresh os_truncate true 2 (start 1 2 [1; 2; 3; 4; 5; 6]) = Some (tt, st') /\
    bytes st' = [1; 4; 5; 6] /\ limit st' = 4.
Proof.
  destruct (strip_removes table no_maps fresh 3 zeros_length (os_truncate := os_truncate) (start 1 2 [1; 2; 3; 4; 5; 6]) 2)
    as (st' & E & _ & _ & Hb & Hz & Hl); [apply start_ready; [unfold minus1; lia|lia|cbn; lia]|lia|cbn; lia|].
  exists st'. split; [exact E|]. split; [exact Hb|]. rewrite Hl, Hz. reflexivity.
Defined.

Lemma seek_search_sound_witness :
  exists st', radare_seek_search table no_maps math nothing_around " hi" (start 1 4 [104; 105; 0; 0; 104; 105]) = Some (0, st') /\ place st' = 4.
Proof.
  destruct (seek_search_sound table no_maps 3 ltac:(discriminate) math nothing_around (start 1 4 [104; 105; 0; 0; 104; 105]) "hi")
    as (st' & E & _);
    [apply start_ready; [unfold minus1; lia|lia|cbn; lia]|cbn; lia|cbn; lia|cbn; lia|discriminate|cbn; lia|repeat constructor; discriminate|].
  exists st'. split; [exact E|]. vm_compute in E. by injection E as <-.
Defined.

Lemma step_clamped_witness :
  exists st', cmd_next table math "4" (with_limit 5 (start 3 2 [1; 2; 3; 4; 5; 6])) = Some (0, st') /\ place st' = 5.
Proof.
  destruct (step_clamped table 3 math (with_limit 5 (start 3 2 [1; 2; 3; 4; 5; 6])) "4") as [(st' & E & _ & H) _];
    [apply start_ready; [unfold minus1; lia|lia|cbn; lia]|vm_compute; split; done|vm_compute; done|vm_compute; done|].
  exists st'. split; [exact E|exact H].
Defined.

Lemma next_align_blocks_witness :
  exists st', cmd_next_align 0 nothing_around ">" (start 5 4 (replicate 20 7)) = Some (0, st') /\
    config st' = set_seek 12 (config (start 5 4 (replicate 20 7))).
Proof. apply (next_align_blocks 0 nothing_around (start 5 4 (replicate 20 7)) ">" 4); try reflexivity; try (by vm_compute); right; by vm_compute. Defined.

(** ** What goes wrong *)

(** Aligning backwards inside of the first block leads to the end of the file: the seek has no sign. *)
Example prev_align_wraps : then_ (cmd_prev_align 0 nothing_around "") place (start 1 4 (replicate 20 7)) = Some 20.
Proof. by vm_compute. Qed.

(** A blank behind [s] redoes a seek; [sS] goes to the section and from there to what its own text is worth. *)
Example blank_redoes :
  then_ (seek_cmd "4") place (start 1 2 [1; 2; 3; 4; 5; 6]) = Some 4 /\
  (do _ <- seek_cmd "4" ;; do _ <- seek_cmd "-" ;; do _ <- seek_cmd " " ;; get place) (start 1 2 [1; 2; 3; 4; 5; 6]) =
  (do _ <- seek_cmd "4" ;; do _ <- seek_cmd "-" ;; do _ <- seek_cmd "+" ;; get place) (start 1 2 [1; 2; 3; 4; 5; 6]).
Proof. split; by vm_compute. Qed.
Example section_seek_lost :
  then_ (fun st => (do _ <- cmd_sections math " 2 0 text" ;; do _ <- seek_cmd "0" ;; seek_cmd "S0") st) place
    (start 3 2 [1; 2; 3; 4; 5; 6]) = Some 0.
Proof. by vm_compute. Qed.

(** A section is removed by its number with a sign: only number 0 can be, by any text that is no number; a fourth word
    makes the command forget the other three. *)
Example section_removal :
  let some := start 3 2 [1; 2; 3; 4; 5; 6] in let added := cmd_sections math " 2 0 text" in
  let ends st := from <$> sections (sects (rio st)) in
  then_ (fun st => (do _ <- added ;; cmd_sections math " -0x300") st) ends some = Some [] /\
  then_ (fun st => (do _ <- added ;; do _ <- added ;; cmd_sections math " -1") st) ends some = Some [3; 3].
Proof. split; by vm_compute. Qed.
Example section_four_words :
  then_ (cmd_sections math " 4096 5 rwx text") (fun st => (fun s => (to s, Sections.paddr s, comment s)) <$> sections (sects (rio st)))
    (start 1 2 [1; 2; 3; 4; 5; 6]) = Some [(3, 0, "")].
Proof. by vm_compute. Qed.

(** Searching backwards meets the last byte of a block twice; searching forth misses a keyword behind a false start. *)
Example back_search_false_hit :
  then_ (radare_seek_search_backward table no_maps math nothing_around " aa") place
    (start 10 4 [0; 0; 0; 0; 0; 0; 0; 97; 0; 0; 0; 0]) = Some 7.
Proof. by vm_compute. Qed.
Example search_misses :
  then_ (radare_seek_search table no_maps math nothing_around " aab") place (start 0 4 [0; 97; 97; 97; 98; 0; 0; 0]) = Some 0 /\
  slice 2 3 [0; 97; 97; 97; 98; 0; 0; 0] = bytes_of_string "aab".
Proof. split; by vm_compute. Qed.

(** Four bytes of a value are little endian when that is set and eight are not. *)
Example value_bytes_turned :
  value_bytes nothing_around 2 = Some [2; 0; 0; 0] /\ value_bytes nothing_around 0x100000002 = Some [0; 0; 0; 1; 0; 0; 0; 2].
Proof. split; by vm_compute. Qed.

Definition x86_asm (pc : Z) (s : string) : option (Z * Z * list Z) :=
  Rasm.rasm_asm Math.tool_math Math.tool_offset RasmSpec.no_rsc RasmSpec.no_others 256 "x86" pc s.
Definition write_cmd (a : around) : string -> StateM.M (cmds_st t) Z :=
  cmd_write table no_maps fresh math a (WConf 1 false false false false) (ret tt) true x86_asm (fun _ => ret true).

(** Two jumps to one place are assembled as if both were at the seek. *)
Example assembled_in_place :
  then_ (write_cmd nothing_around "a jmp 0x2000;jmp 0x2000") bytes (start 0 4 (replicate 12 0)) =
    Some [0xe9; 0xfb; 0x1f; 0; 0; 0xe9; 0xfb; 0x1f; 0; 0; 0; 0].
Proof. by vm_compute. Qed.

(** A usage message leaves the seek at the cursor, and an operation without a text reads one behind its end. *)
Example usage_moves_seek :
  then_ (write_cmd (Around false false 2 (FlagsSt [] [] 0 0) [] [] 0 0 0) "x90") place (start 1 4 (replicate 12 0)) = Some 3.
Proof. by vm_compute. Qed.
Example operation_without_text : write_cmd nothing_around "o4" (start 1 4 (replicate 12 0)) = None.
Proof. by vm_compute. Qed.
