(* ===== verification/Digest.v ===== *)
(** * Message digests: [src/rahash/md5c.c] and [md4.c]

    A message is the list of its bytes, a word an integer kept at 32 bits.  A context takes a message in pieces; the
    reference definition pads the whole message and folds the compression function over its blocks. *)
From S2P Require Import Prelude.
#[local] Open Scope Z_scope.

(** ** Words *)
Definition not32 (x : Z) : Z := 2^32 - 1 - x.
Definition rotl32 (x n : Z) : Z := u32 (Z.lor (Z.shiftl x n) (Z.shiftr x (32 - n))).
Definition be_bytes (n : nat) (v : Z) : list Z := rev (le_bytes n v).
Definition be_value (l : list Z) : Z := le_value (rev l).
(** [n] words of [k] bytes. *)
Fixpoint words (value : list Z -> Z) (k n : nat) (l : list Z) : list Z :=
  match n with O => [] | S n' => value (take k l) :: words value k n' (drop k l) end.

Lemma take_patch_at (k : nat) (data buf : list Z) : (k <= length buf)%nat -> take (k + length data) (patch k data buf) = (take k buf ++ data)%list.
Proof. intros H. unfold patch. rewrite app_assoc, take_app_length'; [done|]. rewrite length_app, length_take. lia. Qed.

Lemma nth_words value k n l i : (i < n)%nat -> nth i (words value k n l) 0 = value (take k (drop (k * i) l)).
Proof.
  revert l i. induction n as [|n IH]; intros l i Hi; [lia|]. destruct i as [|i]; cbn [words nth]; [by rewrite Nat.mul_0_r|].
  rewrite IH by lia. rewrite drop_drop. do 3 f_equal. lia.
Qed.
Lemma words_length value k n l : length (words value k n l) = n.
Proof. revert l. induction n as [|n IH]; intros l; [done|]. cbn. by rewrite IH. Qed.
Lemma words_ext (f g : list Z -> Z) (P : Z -> Prop) k n l : (0 < k)%nat -> (forall b, Forall P b -> length b = k -> f b = g b) ->
  Forall P l -> length l = (k * n)%nat -> words f k n l = words g k n l.
Proof.
  intros Hk H. revert l. induction n as [|n IH]; intros l Hl Hn; [done|]. rewrite Nat.mul_succ_r in Hn. cbn [words]. f_equal.
  - apply H; [by apply Forall_take|rewrite length_take; lia].
  - apply IH; [by apply Forall_drop|rewrite length_drop; lia].
Qed.
Lemma foldl_ext_elem {A E : Type} (f g : A -> E -> A) l : (forall a x, x ∈ l -> f a x = g a x) -> forall a, foldl f a l = foldl g a l.
Proof.
  induction l as [|x l IH]; intros H a; [done|]. cbn [foldl]. rewrite H by left. apply IH. intros a' y Hy. apply H. by right.
Qed.
Lemma length_concat_map (f : Z -> list Z) k l : (forall x, length (f x) = k) -> length (concat (f <$> l)) = (k * length l)%nat.
Proof. intros H. induction l as [|x l IH]; [cbn; by rewrite Nat.mul_0_r|]. rewrite fmap_cons. cbn [concat length]. rewrite length_app, H, IH, Nat.mul_succ_r. lia. Qed.

Lemma patch_all (data buf : list Z) : length data = length buf -> patch 0 data buf = data.
Proof. intros H. unfold patch. rewrite take_0, drop_ge by lia. by rewrite app_nil_l, app_nil_r. Qed.

(** ** Blocks *)
Section blocks.
Context {S : Type} (compress : S -> list Z -> S) (n : nat).

Fixpoint feed (q : nat) (st : S) (l : list Z) : S * list Z :=
  match q with O => (st, l) | Datatypes.S q' => feed q' (compress st (take n l)) (drop n l) end.
(** All the blocks a text has; what is left is shorter than one. *)
Definition absorb (st : S) (l : list Z) : S * list Z := feed (length l / n) st l.

Context (Hn : (0 < n)%nat).

Lemma absorb_short st l : (length l < n)%nat -> absorb st l = (st, l).
Proof. intros H. unfold absorb. by rewrite Nat.div_small. Qed.

Lemma absorb_block st l : (n <= length l)%nat -> absorb st l = absorb (compress st (take n l)) (drop n l).
Proof.
  intros H. unfold absorb. rewrite length_drop.
  replace (length l) with ((length l - n) + 1 * n)%nat at 1 by lia. rewrite Nat.div_add by lia.
  by rewrite Nat.add_1_r.
Qed.

Lemma absorb_cons st b l : length b = n -> absorb st (b ++ l) = absorb (compress st b) l.
Proof. intros H. rewrite absorb_block by (rewrite length_app; lia). by rewrite take_app_length', drop_app_length' by done. Qed.

(** In two pieces as in one. *)
Lemma absorb_app st l1 l2 : absorb st (l1 ++ l2) = absorb (absorb st l1).1 ((absorb st l1).2 ++ l2).
Proof.
  remember (length l1) as k eqn:Hk. revert st l1 Hk. induction (lt_wf k) as [k _ IH]. intros st l1 ->.
  destruct (decide (length l1 < n)%nat); [by rewrite (absorb_short st l1)|].
  rewrite (absorb_block st l1) by lia. rewrite absorb_block by (rewrite length_app; lia).
  rewrite take_app_le, drop_app_le by lia. apply (IH (length (drop n l1))); [rewrite length_drop; lia|done].
Qed.

Lemma absorb_rest st l : length (absorb st l).2 = (length l mod n)%nat.
Proof.
  remember (length l) as k eqn:Hk. revert st l Hk. induction (lt_wf k) as [k _ IH]. intros st l ->.
  destruct (decide (length l < n)%nat); [by rewrite absorb_short, Nat.mod_small|]. rewrite absorb_block by lia.
  rewrite (IH (length (drop n l))); [|rewrite length_drop; lia|done]. rewrite length_drop.
  replace (length l) with ((length l - n) + 1 * n)%nat at 2 by lia. by rewrite Nat.Div0.mod_add.
Qed.

(** A context that keeps the state [st] of the blocks it has taken and the bytes that wait at the front of its buffer. *)
Definition buffered (st0 : S) (msg : list Z) (st : S) (buf : list Z) : Prop :=
  length buf = n /\ absorb st0 msg = (st, take (length msg mod n) buf).

Lemma buffered_nil st buf : length buf = n -> buffered st [] st buf.
Proof. split; [done|]. rewrite absorb_short by done. by rewrite Nat.Div0.mod_0_l. Qed.

(** The blocks of a text and the rest of it at the front of any buffer. *)
Lemma buffered_rest st0 msg buf : length buf = n -> buffered st0 msg (absorb st0 msg).1 (patch 0 (absorb st0 msg).2 buf).
Proof.
  intros Hb. pose proof (absorb_rest st0 msg) as Hr. pose proof (Nat.mod_upper_bound (length msg) n ltac:(lia)) as Hm.
  split; [rewrite patch_length; lia|]. rewrite <-Hr. unfold patch. rewrite take_0, app_nil_l, take_app_length. by destruct (absorb st0 msg).
Qed.

(** The buffer is not full with the new bytes. *)
Lemma buffered_keep st0 msg st buf data : let k := (length msg mod n)%nat in
  buffered st0 msg st buf -> (length data < n - k)%nat -> buffered st0 (msg ++ data) st (patch k data buf).
Proof.
  intros k [Hb Hs] Hd. fold k in Hs. pose proof (Nat.mod_upper_bound (length msg) n ltac:(lia)) as Hk. fold k in Hk.
  split; [rewrite patch_length; lia|]. rewrite absorb_app, Hs. cbn [fst snd].
  rewrite length_app, <-Nat.Div0.add_mod_idemp_l. fold k. rewrite (Nat.mod_small (k + _)) by lia.
  rewrite take_patch_at by lia. apply absorb_short. rewrite length_app, length_take. lia.
Qed.

(** It is full: its block is taken, and then the rest of the bytes. *)
Lemma buffered_fill st0 msg st buf data : let k := (length msg mod n)%nat in
  buffered st0 msg st buf -> (n - k <= length data)%nat ->
  absorb st0 (msg ++ data) = absorb (compress st (patch k (take (n - k) data) buf)) (drop (n - k) data).
Proof.
  intros k [Hb Hs] Hd. fold k in Hs. pose proof (Nat.mod_upper_bound (length msg) n ltac:(lia)) as Hk. fold k in Hk.
  assert (length (patch k (take (n - k) data) buf) = n) as Hl by (rewrite patch_length; [done|rewrite length_take; lia]).
  assert (patch k (take (n - k) data) buf = (take k buf ++ take (n - k) data)%list) as Hblk.
  { rewrite <-take_patch_at by lia. rewrite length_take, Nat.min_l by lia. symmetry. apply take_ge. lia. }
  rewrite absorb_app, Hs. cbn [fst snd]. rewrite <-(take_drop (n - k) data) at 1.
  by rewrite (app_assoc (take k _)), <-Hblk, absorb_cons.
Qed.

Lemma buffered_absorb st0 msg buf st rest : absorb st0 msg = (st, rest) -> length buf = n -> buffered st0 msg st (patch 0 rest buf).
Proof. intros E Hb. pose proof (buffered_rest st0 msg buf Hb) as H. by rewrite E in H. Qed.

(** It is full to the byte; what it holds afterwards does not matter. *)
Lemma buffered_exact st0 msg st buf buf' data : let k := (length msg mod n)%nat in
  buffered st0 msg st buf -> length data = (n - k)%nat -> length buf' = n ->
  buffered st0 (msg ++ data) (compress st (patch k data buf)) buf'.
Proof.
  intros k H Hd Hb. pose proof (buffered_fill _ _ _ _ data H ltac:(lia)) as E. fold k in E.
  pose proof (Nat.mod_upper_bound (length msg) n ltac:(lia)) as Hk. fold k in Hk.
  rewrite take_ge, drop_ge, (absorb_short _ []) in E by (cbn; lia). split; [done|]. rewrite E, length_app, <-Nat.Div0.add_mod_idemp_l. fold k.
  replace (k + length data)%nat with (1 * n)%nat by lia. by rewrite Nat.Div0.mod_mul.
Qed.
End blocks.

Lemma absorb_ext {S : Type} (f g : S -> list Z -> S) (P : Z -> Prop) n st l : (0 < n)%nat ->
  (forall st b, Forall P b -> length b = n -> f st b = g st b) -> Forall P l -> absorb f n st l = absorb g n st l.
Proof.
  intros Hn H. remember (length l) as k eqn:Hk. revert st l Hk. induction (lt_wf k) as [k _ IH]. intros st l -> Hl.
  destruct (decide (length l < n)%nat); [by rewrite !absorb_short|]. rewrite (absorb_block f n Hn), (absorb_block g n Hn) by lia.
  rewrite H; [|by apply Forall_take|rewrite length_take; lia].
  apply (IH (length (drop n l)) ltac:(rewrite length_drop; lia) _ (drop n l)); [done|by apply Forall_drop].
Qed.

Definition bytes (l : list Z) : Prop := Forall (fun b => 0 <= b < 256) l.

(** ** What a digest promises: taken in pieces it is the reference of the whole message *)
Class Digest {C : Type} (init : C) (update : C -> list Z -> C) (final : C -> list Z) (limit : Z)
    (reference : list Z -> list Z) := {
  fed : C -> list Z -> Prop;
  fed_init : fed init [];
  fed_update c msg data : fed c msg -> bytes data -> Z.of_nat (length data) < limit -> fed (update c data) (msg ++ data);
  fed_final c msg : fed c msg -> final c = reference msg }.

Lemma digest_pieces `{Digest C init update final limit reference} (pieces : list (list Z)) :
  Forall (fun p => bytes p /\ Z.of_nat (length p) < limit) pieces ->
  final (foldl update init pieces) = reference (concat pieces).
Proof.
  intros Hp. apply fed_final.
  assert (forall c msg, fed c msg -> fed (foldl update c pieces) (msg ++ concat pieces)) as Hall; [|apply (Hall init []), fed_init].
  induction Hp as [|p pieces [Hb Hl] _ IH]; intros c msg Hc; [by rewrite app_nil_r|].
  cbn [foldl concat]. rewrite app_assoc. by apply IH, fed_update.
Qed.

(** The bytes behind a message: a one, zeros, and the length in bits, up to the end of a block. *)
Definition padding (block tail : nat) (len : list Z) (m : nat) : list Z :=
  0x80 :: replicate ((2 * block - 1 - tail - m mod block) mod block) 0 ++ len.

Lemma padding_length block tail len m : (tail < block)%nat -> length len = tail -> ((m + length (padding block tail len m)) mod block = 0)%nat.
Proof.
  intros Ht Hl. unfold padding. cbn [length]. rewrite length_app, length_replicate, Hl.
  pose proof (Nat.mod_upper_bound m block ltac:(lia)) as Hm. set (r := (m mod block)%nat) in *.
  replace (m + S ((2 * block - 1 - tail - r) mod block + tail))%nat with (m + (2 * block - 1 - tail - r) mod block + S tail)%nat by lia.
  rewrite <-Nat.Div0.add_mod_idemp_l, Nat.Div0.add_mod_idemp_r, <-(Nat.Div0.add_mod_idemp_l m). fold r.
  rewrite Nat.Div0.add_mod_idemp_l. replace (r + (2 * block - 1 - tail - r) + S tail)%nat with (2 * block)%nat by lia. apply Nat.Div0.mod_mul.
Qed.

(** ** [md5c.c] *)

Definition state4 : Type := Z * Z * Z * Z.

(** The place in the block, the rotation and the constant of each step; after a step the four words change their parts,
    and after sixteen they have their own again. *)
Definition md5_round1 : list (nat * Z * Z) :=
  [(0%nat, 7, 0xD76AA478); (1%nat, 12, 0xE8C7B756); (2%nat, 17, 0x242070DB); (3%nat, 22, 0xC1BDCEEE);
   (4%nat, 7, 0xF57C0FAF); (5%nat, 12, 0x4787C62A); (6%nat, 17, 0xA8304613); (7%nat, 22, 0xFD469501);
   (8%nat, 7, 0x698098D8); (9%nat, 12, 0x8B44F7AF); (10%nat, 17, 0xFFFF5BB1); (11%nat, 22, 0x895CD7BE);
   (12%nat, 7, 0x6B901122); (13%nat, 12, 0xFD987193); (14%nat, 17, 0xA679438E); (15%nat, 22, 0x49B40821)].
Definition md5_round2 : list (nat * Z * Z) :=
  [(1%nat, 5, 0xF61E2562); (6%nat, 9, 0xC040B340); (11%nat, 14, 0x265E5A51); (0%nat, 20, 0xE9B6C7AA);
   (5%nat, 5, 0xD62F105D); (10%nat, 9, 0x2441453); (15%nat, 14, 0xD8A1E681); (4%nat, 20, 0xE7D3FBC8);
   (9%nat, 5, 0x21E1CDE6); (14%nat, 9, 0xC33707D6); (3%nat, 14, 0xF4D50D87); (8%nat, 20, 0x455A14ED);
   (13%nat, 5, 0xA9E3E905); (2%nat, 9, 0xFCEFA3F8); (7%nat, 14, 0x676F02D9); (12%nat, 20, 0x8D2A4C8A)].
Definition md5_round3 : list (nat * Z * Z) :=
  [(5%nat, 4, 0xFFFA3942); (8%nat, 11, 0x8771F681); (11%nat, 16, 0x6D9D6122); (14%nat, 23, 0xFDE5380C);
   (1%nat, 4, 0xA4BEEA44); (4%nat, 11, 0x4BDECFA9); (7%nat, 16, 0xF6BB4B60); (10%nat, 23, 0xBEBFBC70);
   (13%nat, 4, 0x289B7EC6); (0%nat, 11, 0xEAA127FA); (3%nat, 16, 0xD4EF3085); (6%nat, 23, 0x4881D05);
   (9%nat, 4, 0xD9D4D039); (12%nat, 11, 0xE6DB99E5); (15%nat, 16, 0x1FA27CF8); (2%nat, 23, 0xC4AC5665)].
Definition md5_round4 : list (nat * Z * Z) :=
  [(0%nat, 6, 0xF4292244); (7%nat, 10, 0x432AFF97); (14%nat, 15, 0xAB9423A7); (5%nat, 21, 0xFC93A039);
   (12%nat, 6, 0x655B59C3); (3%nat, 10, 0x8F0CCC92); (10%nat, 15, 0xFFEFF47D); (1%nat, 21, 0x85845DD1);
   (8%nat, 6, 0x6FA87E4F); (15%nat, 10, 0xFE2CE6E0); (6%nat, 15, 0xA3014314); (13%nat, 21, 0x4E0811A1);
   (4%nat, 6, 0xF7537E82); (11%nat, 10, 0xBD3AF235); (2%nat, 15, 0x2AD7D2BB); (9%nat, 21, 0xEB86D391)].


Definition Decode (l : list Z) : list Z := words le_value 4 16 l.
Definition Encode (s : state4) : list Z := let '(a, b, c, d) := s in le_bytes 4 a ++ le_bytes 4 b ++ le_bytes 4 c ++ le_bytes 4 d.

(** Behind the bytes that wait the buffer holds what was there before. *)
Record MD5_CTX := Md5 { m_state : state4; m_count0 : Z; m_count1 : Z; m_buffer : list Z }.

Definition md5_start : state4 := (0x67452301, 0xefcdab89, 0x98badcfe, 0x10325476).
Definition MD5Init (buffer : list Z) : MD5_CTX := Md5 md5_start 0 0 buffer.
Definition md5_zeros : MD5_CTX := Md5 (0, 0, 0, 0) 0 0 (replicate 64 0).
Definition PADDING : list Z := 0x80 :: replicate 63 0.

(** The words are [UINT4], an [unsigned long]: [w] is 32 where a long has 32 bits, and 64 where it has 64. *)
Section md5.
Context (w : Z).
Definition wide (x : Z) : Z := x mod 2^w.
Definition md5_not (x : Z) : Z := 2^w - 1 - x.
Definition ROTATE_LEFT (x n : Z) : Z := wide (Z.lor (Z.shiftl x n) (Z.shiftr x (32 - n))).
Definition md5_F (x y z : Z) : Z := Z.lor (Z.land x y) (Z.land (md5_not x) z).
Definition md5_G (x y z : Z) : Z := Z.lor (Z.land x z) (Z.land y (md5_not z)).
Definition md5_H (x y z : Z) : Z := Z.lxor (Z.lxor x y) z.
Definition md5_I (x y z : Z) : Z := Z.lxor y (Z.lor x (md5_not z)).
Definition add4 (s t : state4) : state4 :=
  let '(a, b, c, d) := s in let '(a', b', c', d') := t in (wide (a + a'), wide (b + b'), wide (c + c'), wide (d + d')).

Definition md5_step (f : Z -> Z -> Z -> Z) (x : list Z) (s : state4) (r : nat * Z * Z) : state4 :=
  let '(a, b, c, d) := s in let '(k, n, ac) := r in
  let a := wide (a + f b c d + nth k x 0 + ac) in
  (d, wide (ROTATE_LEFT a n + b), b, c).

Definition MD5Transform (state : state4) (block : list Z) : state4 :=
  let x := Decode block in
  let s := foldl (md5_step md5_F x) state md5_round1 in
  let s := foldl (md5_step md5_G x) s md5_round2 in
  let s := foldl (md5_step md5_H x) s md5_round3 in
  let s := foldl (md5_step md5_I x) s md5_round4 in
  add4 state s.

(** A piece of less than [2^32 - 63] bytes. *)
Definition MD5Update (c : MD5_CTX) (input : list Z) : MD5_CTX :=
  let len := Z.of_nat (length input) in
  let index := Z.to_nat (Z.land (Z.shiftr (m_count0 c) 3) 0x3F) in
  let bits := wide (Z.shiftl len 3) in
  let c0 := wide (m_count0 c + bits) in
  let c1 := wide ((if c0 <? bits then m_count1 c + 1 else m_count1 c) + Z.shiftr len 29) in
  let partLen := (64 - index)%nat in
  if (partLen <=? length input)%nat then
    let buffer := patch index (take partLen input) (m_buffer c) in
    let '(state, rest) := absorb MD5Transform 64 (MD5Transform (m_state c) buffer) (drop partLen input) in
    Md5 state c0 c1 (patch 0 rest buffer)
  else Md5 (m_state c) c0 c1 (patch index input (m_buffer c)).

(** The digest, and the context, which is zeros afterwards. *)
Definition MD5Final (c : MD5_CTX) : list Z * MD5_CTX :=
  let bits := le_bytes 4 (m_count0 c) ++ le_bytes 4 (m_count1 c) in
  let index := Z.to_nat (Z.land (Z.shiftr (m_count0 c) 3) 0x3f) in
  let padLen := (if (index <? 56)%nat then 56 - index else 120 - index)%nat in
  (Encode (m_state (MD5Update (MD5Update c (take padLen PADDING)) bits)), md5_zeros).
End md5.

(** The reference, for words of 32 bits: the padded message, block by block. *)
Definition md5_reference (msg : list Z) : list Z :=
  Encode (absorb (MD5Transform 32) 64 md5_start
    (msg ++ padding 64 8 (le_bytes 8 (8 * Z.of_nat (length msg))) (length msg))).1.

(** ** [md4.c] *)
Definition md4_F (x y z : Z) : Z := Z.lor (Z.land x y) (Z.land (not32 x) z).
Definition md4_G (x y z : Z) : Z := Z.lor (Z.lor (Z.land x y) (Z.land x z)) (Z.land y z).
Definition md4_H (x y z : Z) : Z := Z.lxor (Z.lxor x y) z.

Definition md4_round1 : list (nat * Z) :=
  [(0%nat, 3); (1%nat, 7); (2%nat, 11); (3%nat, 19); (4%nat, 3); (5%nat, 7); (6%nat, 11); (7%nat, 19);
   (8%nat, 3); (9%nat, 7); (10%nat, 11); (11%nat, 19); (12%nat, 3); (13%nat, 7); (14%nat, 11); (15%nat, 19)].
Definition md4_round2 : list (nat * Z) :=
  [(0%nat, 3); (4%nat, 5); (8%nat, 9); (12%nat, 13); (1%nat, 3); (5%nat, 5); (9%nat, 9); (13%nat, 13);
   (2%nat, 3); (6%nat, 5); (10%nat, 9); (14%nat, 13); (3%nat, 3); (7%nat, 5); (11%nat, 9); (15%nat, 13)].
Definition md4_round3 : list (nat * Z) :=
  [(0%nat, 3); (8%nat, 9); (4%nat, 11); (12%nat, 15); (2%nat, 3); (10%nat, 9); (6%nat, 11); (14%nat, 15);
   (1%nat, 3); (9%nat, 9); (5%nat, 11); (13%nat, 15); (3%nat, 3); (11%nat, 9); (7%nat, 11); (15%nat, 15)].

Definition lshift (x s : Z) : Z := rotl32 x s.
Definition md4_step (f : Z -> Z -> Z -> Z) (add : Z) (x : list Z) (s : state4) (r : nat * Z) : state4 :=
  let '(a, b, c, d) := s in let '(k, n) := r in (d, lshift (u32 (a + f b c d + nth k x 0 + add)) n, b, c).

Definition copy64 (l : list Z) : list Z := words le_value 4 16 l.
Definition mdfour64 (state : state4) (block : list Z) : state4 :=
  let x := copy64 block in
  let s := foldl (md4_step md4_F 0 x) state md4_round1 in
  let s := foldl (md4_step md4_G 0x5A827999 x) s md4_round2 in
  let s := foldl (md4_step md4_H 0x6ED9EBA1 x) s md4_round3 in
  add4 32 state s.

(** While more than one block is left. *)
Fixpoint mdfour_loop (fuel : nat) (st : state4) (l : list Z) : state4 * list Z :=
  match fuel with
  | O => (st, l)
  | S fuel' => if (64 <? length l)%nat then mdfour_loop fuel' (mdfour64 st (take 64 l)) (drop 64 l) else (st, l)
  end.

(** The length in bits is 32 bits wide. *)
Definition mdfour (l : list Z) : list Z :=
  let b := le_bytes 4 (u32 (8 * Z.of_nat (length l))) in
  let '(st, rest) := mdfour_loop (length l) md5_start l in
  let n := length rest in
  let buf := <[n := 0x80]> (patch 0 rest (replicate 128 0)) in
  if (n <=? 55)%nat then Encode (mdfour64 st (take 64 (patch 56 b buf)))
  else
    let buf := patch 120 b buf in
    Encode (mdfour64 (mdfour64 st (take 64 buf)) (drop 64 buf)).

Definition md4_reference (msg : list Z) : list Z :=
  Encode (absorb mdfour64 64 md5_start
    (msg ++ padding 64 8 (le_bytes 8 (8 * Z.of_nat (length msg))) (length msg))).1.

(** *** Test vectors *)
Definition text_bytes (s : string) : list Z := ord <$> list_ascii_of_string s.
Definition hex_of (l : list Z) : string := String.concat "" (fmt_x0 2 <$> l).

Example md5_vectors :
  hex_of (MD5Final 32 (MD5Update 32 (MD5Init (replicate 64 0)) (text_bytes "abc"))).1 = "900150983cd24fb0d6963f7d28e17f72"%string /\
  hex_of (md5_reference []) = "d41d8cd98f00b204e9800998ecf8427e"%string.
Proof. by vm_compute. Qed.
(** Where a long has 64 bits the digest is another one. *)
Example md5_of_long : (MD5Final 64 (MD5Update 64 (MD5Init (replicate 64 0)) (text_bytes "abc"))).1 <> md5_reference (text_bytes "abc").
Proof. by vm_compute. Qed.
Example md4_vectors :
  hex_of (mdfour (text_bytes "abc")) = "a448017aaf21d8525fc10ae87aa6729d"%string /\
  hex_of (mdfour []) = "31d6cfe0d16ae931b73c59d7e0c089c0"%string.
Proof. by vm_compute. Qed.

(** ** MD5 in pieces *)
Record md5_fed (c : MD5_CTX) (msg : list Z) : Prop := {
  md5_fed_state : buffered (MD5Transform 32) 64 md5_start msg (m_state c) (m_buffer c);
  md5_fed_count0 : m_count0 c = wide 32 (8 * Z.of_nat (length msg));
  md5_fed_count1 : m_count1 c = wide 32 (8 * Z.of_nat (length msg) / 2^32) }.

Lemma mod_nat_Z a b : Z.of_nat (a mod b) = Z.of_nat a mod Z.of_nat b.
Proof. apply Nat2Z.inj_mod. Qed.

Lemma md5_index c msg : md5_fed c msg -> Z.to_nat (Z.land (Z.shiftr (m_count0 c) 3) 0x3F) = (length msg mod 64)%nat.
Proof.
  intros [_ -> _]. change 0x3F with (Z.ones 6). rewrite Z.land_ones, Z.shiftr_div_pow2 by lia. change (2^3) with 8. change (2^6) with 64.
  apply Nat2Z.inj. rewrite Z2Nat.id by (apply Z.mod_pos_bound; lia). rewrite mod_nat_Z. change (Z.of_nat 64) with 64.
  unfold wide. set (m := Z.of_nat _). assert (8 * m mod 2^32 / 8 = m mod 2^29) as -> by (change (2^32) with (8 * 2^29); rewrite Z.mul_mod_distr_l, Z.mul_comm, Z.div_mul by lia; done).
  symmetry. apply Znumtheory.Zmod_div_mod; [lia|lia|]. by exists (2^23).
Qed.

(** The carry between the two words of the length. *)
Lemma count_carry m l : 0 <= m -> 0 <= l < 2^32 ->
  let bits := wide 32 (Z.shiftl l 3) in let c0 := wide 32 (wide 32 (8 * m) + bits) in
  c0 = wide 32 (8 * (m + l)) /\
  wide 32 ((if c0 <? bits then wide 32 (8 * m / 2^32) + 1 else wide 32 (8 * m / 2^32)) + Z.shiftr l 29) = wide 32 (8 * (m + l) / 2^32).
Proof.
  intros Hm Hl. cbv zeta. rewrite Z.shiftl_mul_pow2, Z.shiftr_div_pow2 by lia. change (2^3) with 8. unfold wide.
  split; [rewrite <-Zplus_mod; f_equal; lia|]. set (M := 2^32) in *. assert (M = 8 * 2^29) as EM by reflexivity. rewrite (Z.mul_comm l 8).
  assert (l / 2^29 = 8 * l / M) as -> by (rewrite EM, Z.div_mul_cancel_l by lia; done).
  assert (0 < M) by (unfold M; lia). replace (8 * (m + l)) with (8 * m + 8 * l) by lia.
  generalize (8 * m) as A, (8 * l) as B. intros A B.
  assert ((if (A mod M + B mod M) mod M <? B mod M then (A / M) mod M + 1 else (A / M) mod M) = (A / M) mod M + (A mod M + B mod M) / M) as ->.
  { pose proof (Z.mod_pos_bound A M ltac:(lia)). pose proof (Z.mod_pos_bound B M ltac:(lia)).
    destruct (Z.ltb_spec (A mod M + B mod M) M).
    - rewrite (Z.mod_small (_ + _)), (Z.div_small (_ + _)) by lia. rewrite (proj2 (Z.ltb_ge _ _)) by lia. lia.
    - assert ((A mod M + B mod M) / M = 1) as Hq by (symmetry; apply (Z.div_unique _ _ _ (A mod M + B mod M - M)); lia).
      rewrite Hq. assert ((A mod M + B mod M) mod M = A mod M + B mod M - M) as -> by (rewrite Z.mod_eq, Hq; lia).
      rewrite (proj2 (Z.ltb_lt _ _)) by lia. lia. }
  rewrite <-Z.add_assoc, Zplus_mod_idemp_l. f_equal.
  rewrite (Z.div_mod A M) at 3 by lia. rewrite (Z.div_mod B M) at 3 by lia.
  replace (M * (A / M) + A mod M + (M * (B / M) + B mod M)) with ((A / M + B / M) * M + (A mod M + B mod M)) by lia.
  rewrite Z.div_add_l by lia. lia.
Qed.

Lemma md5_update_fed c msg data : md5_fed c msg -> Z.of_nat (length data) < 2^32 -> md5_fed (MD5Update 32 c data) (msg ++ data).
Proof.
  intros H Hd. pose proof (md5_index c msg H) as Hi. destruct H as [Hs H0 H1]. unfold MD5Update. rewrite Hi.
  destruct (count_carry (Z.of_nat (length msg)) (Z.of_nat (length data)) ltac:(lia) ltac:(lia)) as [E0 E1].
  rewrite <-H0 in E0, E1. rewrite <-H1 in E1. rewrite <-Nat2Z.inj_add, <-length_app in E0, E1.
  destruct (Nat.leb_spec (64 - length msg mod 64) (length data)) as [Hle|Hle].
  - pose proof (buffered_fill (MD5Transform 32) 64 ltac:(lia) _ _ _ _ data Hs Hle) as Ef.
    destruct (absorb _ 64 (MD5Transform _ _ _) _) as [st rest]. constructor; [|exact E0|exact E1].
    apply buffered_absorb; [lia|exact Ef|]. pose proof (Nat.mod_upper_bound (length msg) 64 ltac:(lia)). destruct Hs as [Hb _].
    rewrite patch_length; [exact Hb|rewrite length_take; lia].
  - constructor; [|exact E0|exact E1]. by apply buffered_keep; [lia| |].
Qed.

Lemma le_bytes_app n k v : 0 <= v -> le_bytes (n + k) v = (le_bytes n v ++ le_bytes k (v / 256 ^ Z.of_nat n))%list.
Proof.
  revert v. induction n as [|n IH]; intros v Hv; [by rewrite Z.div_1_r|]. cbn [Nat.add le_bytes app]. f_equal.
  rewrite IH by (apply Z.div_pos; lia). f_equal. f_equal. rewrite Nat2Z.inj_succ, Z.pow_succ_r, Z.div_div by lia. done.
Qed.
Lemma le_bytes_mod n v : le_bytes n (v mod 256 ^ Z.of_nat n) = le_bytes n v.
Proof.
  revert v. induction n as [|n IH]; intros v; [done|]. cbn [le_bytes]. rewrite Nat2Z.inj_succ, Z.pow_succ_r by lia.
  set (P := 256 ^ Z.of_nat n) in *. assert (0 < P) by (unfold P; lia). f_equal.
  - symmetry. apply Znumtheory.Zmod_div_mod; [lia|lia|by exists P; lia].
  - rewrite <-(IH (v / 256)). f_equal. rewrite Z.rem_mul_r by lia. rewrite Z.mul_comm, Z.div_add by lia.
    rewrite (Z.div_small (v mod 256)) by (apply Z.mod_pos_bound; lia). done.
Qed.

Lemma le_bytes_bytes n v : bytes (le_bytes n v).
Proof. revert v. induction n as [|n IH]; intros v; constructor; [apply Z.mod_pos_bound; lia|apply IH]. Qed.
Lemma be_bytes_bytes n v : bytes (be_bytes n v).
Proof. apply Forall_rev, le_bytes_bytes. Qed.
Lemma be_bytes_mod n v : be_bytes n (v mod 256 ^ Z.of_nat n) = be_bytes n v.
Proof. unfold be_bytes. by rewrite le_bytes_mod. Qed.
Lemma be_bytes_app n k v : 0 <= v -> be_bytes (n + k) v = (be_bytes k (v / 256 ^ Z.of_nat n) ++ be_bytes n v)%list.
Proof. intros Hv. unfold be_bytes. by rewrite le_bytes_app, rev_app_distr. Qed.

Lemma md5_bits c msg : md5_fed c msg -> (le_bytes 4 (m_count0 c) ++ le_bytes 4 (m_count1 c))%list = le_bytes 8 (8 * Z.of_nat (length msg)).
Proof.
  intros [_ -> ->]. unfold wide. change (2^32) with (256 ^ Z.of_nat 4). rewrite !le_bytes_mod. symmetry.
  apply (le_bytes_app 4 4). lia.
Qed.

Lemma padding_md5 k : (k < 64)%nat ->
  take (if (k <? 56)%nat then 56 - k else 120 - k) PADDING = 0x80 :: replicate ((119 - k) mod 64) 0.
Proof.
  intros Hk. unfold PADDING. destruct (Nat.ltb_spec k 56).
  - replace (119 - k)%nat with (55 - k + 1 * 64)%nat by lia. rewrite Nat.Div0.mod_add, Nat.mod_small by lia.
    replace (56 - k)%nat with (S (55 - k)) by lia. cbn [take]. by rewrite take_replicate, Nat.min_l by lia.
  - rewrite Nat.mod_small by lia. replace (120 - k)%nat with (S (119 - k)) by lia. cbn [take]. by rewrite take_replicate, Nat.min_l by lia.
Qed.

#[export] Instance md5_digest buffer : length buffer = 64%nat -> Digest (MD5Init buffer) (MD5Update 32) (fun c => (MD5Final 32 c).1) (2^32 - 63) md5_reference.
Proof.
  intros Hl. refine {| fed := md5_fed |}.
  - constructor; [by apply buffered_nil; [lia|]|done|done].
  - intros c msg data H _ Hd. apply md5_update_fed; [done|lia].
  - intros c msg H. unfold MD5Final, md5_reference. rewrite (md5_bits c msg H), (md5_index c msg H).
    rewrite padding_md5 by (apply Nat.mod_upper_bound; lia). set (k := ((119 - length msg mod 64) mod 64)%nat).
    pose proof (Nat.mod_upper_bound (119 - length msg mod 64) 64 ltac:(lia)) as Hk. fold k in Hk.
    pose proof (md5_update_fed c msg (0x80 :: replicate k 0) H ltac:(cbn [length]; rewrite length_replicate; lia)) as H1.
    pose proof (md5_update_fed _ _ (le_bytes 8 (8 * Z.of_nat (length msg))) H1 ltac:(rewrite le_bytes_length; lia)) as [[_ H2] _ _].
    rewrite <-app_assoc in H2. unfold padding. change ((0x80 :: replicate k 0) ++ ?l)%list with (0x80 :: replicate k 0 ++ l)%list in H2.
    change (2 * 64 - 1 - 8 - length msg mod 64)%nat with (119 - length msg mod 64)%nat. fold k. by rewrite H2.
Qed.

(** A message that is taken in pieces of less than [2^32 - 63] bytes, whatever the buffer holds at the start, has the
    MD5 digest of the whole padded message. *)
Theorem md5_in_pieces buffer pieces :
  length buffer = 64%nat -> Forall (fun p => bytes p /\ Z.of_nat (length p) < 2^32 - 63) pieces ->
  (MD5Final 32 (foldl (MD5Update 32) (MD5Init buffer) pieces)).1 = md5_reference (concat pieces).
Proof. intros Hb Hp. by apply (digest_pieces (H := md5_digest buffer Hb)). Qed.
Lemma md5_in_pieces_witness : Forall (fun p => bytes p /\ Z.of_nat (length p) < 2^32 - 63) [[104; 101]; []; [108; 108; 111]] /\
  (MD5Final 32 (foldl (MD5Update 32) (MD5Init (replicate 64 7)) [[104; 101]; []; [108; 108; 111]])).1 = md5_reference [104; 101; 108; 108; 111].
Proof.
  assert (Forall (fun p => bytes p /\ Z.of_nat (length p) < 2^32 - 63) [[104; 101]; []; [108; 108; 111]]) as H
    by (repeat constructor; lia).
  split; [exact H|]. exact (md5_in_pieces (replicate 64 7) _ eq_refl H).
Defined.

(** ** MD4 in one piece *)
Lemma mdfour_loop_spec fuel st l pad : (length l <= fuel)%nat ->
  let '(st', rest) := mdfour_loop fuel st l in
  absorb mdfour64 64 st (l ++ pad) = absorb mdfour64 64 st' (rest ++ pad) /\ (length rest <= 64)%nat /\
  (length rest mod 64 = length l mod 64)%nat.
Proof.
  revert st l. induction fuel as [|fuel IH]; intros st l Hl; cbn [mdfour_loop]; [split_and!; [done|lia|done]|].
  destruct (Nat.ltb_spec 64 (length l)); [|split_and!; [done|lia|done]].
  specialize (IH (mdfour64 st (take 64 l)) (drop 64 l)). rewrite length_drop in IH. specialize (IH ltac:(lia)).
  destruct (mdfour_loop fuel _ _) as [st' rest]. destruct IH as (Ha & Hr & Hm). split_and!; [|done|].
  - rewrite <-Ha, absorb_block by (rewrite ?length_app; lia). by rewrite take_app_le, drop_app_le by lia.
  - rewrite Hm. replace (length l) with (length l - 64 + 1 * 64)%nat at 2 by lia. by rewrite Nat.Div0.mod_add.
Qed.

(** The last bytes, a one, zeros and the length. *)
Lemma mdfour_buf rest b j : (length rest < j)%nat -> (j + length b <= 128)%nat ->
  patch j b (<[length rest := 0x80]> (patch 0 rest (replicate 128 0)))
  = (rest ++ 0x80 :: replicate (j - 1 - length rest) 0 ++ b ++ replicate (128 - j - length b) 0)%list.
Proof.
  intros Hj Hb. assert (<[length rest := 0x80]> (patch 0 rest (replicate 128 0)) = rest ++ 0x80 :: replicate (127 - length rest) 0)%list as ->.
  { unfold patch. rewrite take_0, app_nil_l, drop_replicate. cbn [Nat.add].
    rewrite insert_app_r_alt by lia. rewrite Nat.sub_diag. by replace (128 - length rest)%nat with (S (127 - length rest)) by lia. }
  unfold patch. rewrite take_app_ge, drop_app_ge by lia.
  replace (j - length rest)%nat with (S (j - 1 - length rest)) by lia. cbn [take].
  replace (j + length b - length rest)%nat with (S (j - 1 - length rest + length b)) by lia. cbn [drop].
  rewrite take_replicate, drop_replicate, Nat.min_l by lia.
  replace (127 - length rest - (j - 1 - length rest + length b))%nat with (128 - j - length b)%nat by lia.
  by rewrite <-app_assoc.
Qed.

Lemma md4_length v : 0 <= v < 2^32 -> (le_bytes 4 (u32 v) ++ replicate 4 0)%list = le_bytes 8 v.
Proof.
  intros Hv. change (le_bytes 8 v) with (le_bytes (4 + 4) v). rewrite le_bytes_app by lia. unfold u32. rewrite Z.mod_small by lia.
  by rewrite Z.div_small by (change (256 ^ Z.of_nat 4) with (2^32); lia).
Qed.

(** The MD4 digest of a text of less than [2^29] bytes is the one of the padded text, whichever way the last block
    is filled. *)
Theorem mdfour_is_md4 l : 8 * Z.of_nat (length l) < 2^32 -> mdfour l = md4_reference l.
Proof.
  intros Hl. unfold mdfour, md4_reference, padding. pose proof (md4_length (8 * Z.of_nat (length l)) ltac:(lia)) as <-.
  set (b := le_bytes 4 _). assert (length b = 4%nat) as Hb by apply le_bytes_length.
  set (pad := 0x80 :: _). pose proof (mdfour_loop_spec (length l) md5_start l pad ltac:(lia)) as H.
  destruct (mdfour_loop _ _ _) as [st rest]. destruct H as (-> & Hr & Hm). unfold pad. clear pad. rewrite <-Hm.
  change (2 * 64 - 1 - 8)%nat with 119%nat.
  destruct (Nat.leb_spec (length rest) 55) as [Hn|Hn].
  - rewrite mdfour_buf by lia. rewrite Hb. f_equal. change (128 - 56 - 4)%nat with (4 + 64)%nat. rewrite replicate_add.
    rewrite (Nat.mod_small (length rest)) by lia. replace ((119 - length rest) mod 64)%nat with (56 - 1 - length rest)%nat
      by (replace (119 - length rest)%nat with (56 - 1 - length rest + 1 * 64)%nat by lia; rewrite Nat.Div0.mod_add, Nat.mod_small by lia; done).
    set (z := replicate _ _). assert (length z = 56 - 1 - length rest)%nat as Hz by apply length_replicate.
    replace (rest ++ 0x80 :: z ++ b ++ replicate 4 0 ++ replicate 64 0)%list
      with ((rest ++ 0x80 :: z ++ b ++ replicate 4 0) ++ replicate 64 0)%list by (by rewrite <-!app_assoc; cbn [app]; rewrite <-!app_assoc).
    assert (length (rest ++ 0x80 :: z ++ b ++ replicate 4 0) = 64%nat) as H64
      by (rewrite length_app; cbn [length]; rewrite !length_app, length_replicate; lia).
    rewrite take_app_length' by done. rewrite absorb_block by lia. rewrite absorb_short by (rewrite ?length_drop; lia). by rewrite take_ge by lia.
  - rewrite mdfour_buf by lia. rewrite Hb. change (128 - 120 - 4)%nat with 4%nat.
    replace ((119 - length rest mod 64) mod 64)%nat with (120 - 1 - length rest)%nat.
    2: { destruct (decide (length rest = 64%nat)) as [->|]; [done|]. rewrite (Nat.mod_small (length rest)) by lia. rewrite Nat.mod_small by lia. lia. }
    set (buf := (rest ++ _)%list). assert (length buf = 128%nat) as H128
      by (unfold buf; rewrite length_app; cbn [length]; rewrite !length_app, !length_replicate; lia).
    rewrite absorb_block by lia. rewrite absorb_block by (rewrite ?length_drop; lia). rewrite absorb_short by (rewrite ?length_drop; lia).
    f_equal. cbn [fst]. f_equal. symmetry. apply take_ge. rewrite length_drop. lia.
Qed.
Lemma mdfour_is_md4_witness : 8 * Z.of_nat (length (replicate 60 65)) < 2^32 /\ mdfour (replicate 60 65) = md4_reference (replicate 60 65).
Proof. split; [done|]. by apply (mdfour_is_md4 (replicate 60 65)). Defined.
