(* ===== verification/Sha1.v ===== *)
(** * SHA-1: [src/rahash/sha1.c]

    The context takes one byte at a time: it shifts it into the word of [W] it belongs to, and hashes the block when the
    sixteenth word is full.  What an earlier block left in a word is shifted out of it. *)
From S2P Require Import Digest.
From S2P Require Import Prelude.
#[local] Open Scope Z_scope.

Definition state5 : Type := Z * Z * Z * Z * Z.
Record SHA_CTX := Sha { H : state5; W : list Z; lenW : nat; sizeHi : Z; sizeLo : Z }.

Definition sha1_start : state5 := (0x67452301, 0xEFCDAB89, 0x98BADCFE, 0x10325476, 0xC3D2E1F0).
Definition SHA1_Init : SHA_CTX := Sha sha1_start (replicate 80 0) 0 0 0.

Definition SHA_ROT (X n : Z) : Z := rotl32 X n.
Definition sha1_word (W : list Z) (t : nat) : Z := nth t W 0.
Definition sha1_extend (W : list Z) (t : nat) : list Z :=
  <[t := SHA_ROT (Z.lxor (Z.lxor (Z.lxor (sha1_word W (t - 3)) (sha1_word W (t - 8))) (sha1_word W (t - 14))) (sha1_word W (t - 16))) 1]> W.

Definition sha1_f0 (B C D : Z) : Z := Z.lxor (Z.land (Z.lxor C D) B) D.
Definition sha1_f1 (B C D : Z) : Z := Z.lxor (Z.lxor B C) D.
Definition sha1_f2 (B C D : Z) : Z := Z.lor (Z.land B C) (Z.land D (Z.lor B C)).
Definition sha1_round (f : Z -> Z -> Z -> Z) (k : Z) (W : list Z) (s : state5) (t : nat) : state5 :=
  let '(A, B, C, D, E) := s in
  let TEMP := u32 (SHA_ROT A 5 + f B C D + E + sha1_word W t + k) in
  (TEMP, A, SHA_ROT B 30, C, D).
Definition add5 (s t : state5) : state5 :=
  let '(a, b, c, d, e) := s in let '(a', b', c', d', e') := t in (u32 (a + a'), u32 (b + b'), u32 (c + c'), u32 (d + d'), u32 (e + e')).

Definition shaHashBlock (H : state5) (W : list Z) : state5 * list Z :=
  let W := foldl sha1_extend W (seq 16 64) in
  let s := foldl (sha1_round sha1_f0 0x5A827999 W) H (seq 0 20) in
  let s := foldl (sha1_round sha1_f1 0x6ED9EBA1 W) s (seq 20 20) in
  let s := foldl (sha1_round sha1_f2 0x8F1BBCDC W) s (seq 40 20) in
  let s := foldl (sha1_round sha1_f1 0xCA62C1D6 W) s (seq 60 20) in
  (add5 H s, W).

(** The body of the loop of [SHA1_Update]. *)
Definition sha1_byte (c : SHA_CTX) (b : Z) : SHA_CTX :=
  let W := alter (fun x => Z.lor (u32 (Z.shiftl x 8)) b) (lenW c / 4)%nat (W c) in
  let lenW := S (lenW c) in
  let sizeLo := u32 (sizeLo c + 8) in
  let sizeHi := u32 (sizeHi c + (if sizeLo <? 8 then 1 else 0)) in
  if decide (lenW mod 64 = 0)%nat then let '(H, W) := shaHashBlock (H c) W in Sha H W 0 sizeHi sizeLo
  else Sha (H c) W lenW sizeHi sizeLo.
Definition SHA1_Update (c : SHA_CTX) (data : list Z) : SHA_CTX := foldl sha1_byte c data.

(** Bytes from the front of a word, which is shifted. *)
Fixpoint sha1_out (n : nat) (h : Z) : list Z :=
  match n with O => [] | S n' => Z.shiftr h 24 mod 256 :: sha1_out n' (u32 (Z.shiftl h 8)) end.

(** Zeros until 56 bytes are in [W]: at most 63. *)
Fixpoint sha1_zeros (fuel : nat) (c : SHA_CTX) : SHA_CTX :=
  match fuel with
  | O => c
  | S fuel' => if decide (lenW c = 56%nat) then c else sha1_zeros fuel' (SHA1_Update c [0])
  end.

(** The digest, and the context, which is a new one. *)
Definition SHA1_Final (c : SHA_CTX) : list Z * SHA_CTX :=
  let be x := Z.land (Z.shiftr x 24) 255 :: Z.land (Z.shiftr x 16) 255 :: Z.land (Z.shiftr x 8) 255 :: [Z.land x 255] in
  let padlen := (be (sizeHi c) ++ be (sizeLo c))%list in
  let c := SHA1_Update (sha1_zeros 64 (SHA1_Update c [0x80])) padlen in
  let '(h0, h1, h2, h3, h4) := H c in
  ((sha1_out 4 h0 ++ sha1_out 4 h1 ++ sha1_out 4 h2 ++ sha1_out 4 h3 ++ sha1_out 4 h4)%list, SHA1_Init).

(** The reference: the padded text, block by block, each from its own sixteen words. *)
Definition sha1_compress (H : state5) (block : list Z) : state5 :=
  (shaHashBlock H (words be_value 4 16 block ++ replicate 64 0)).1.
Definition sha1_reference (msg : list Z) : list Z :=
  let '(h0, h1, h2, h3, h4) :=
    (absorb sha1_compress 64 sha1_start (msg ++ padding 64 8 (be_bytes 8 (8 * Z.of_nat (length msg))) (length msg))).1 in
  (be_bytes 4 h0 ++ be_bytes 4 h1 ++ be_bytes 4 h2 ++ be_bytes 4 h3 ++ be_bytes 4 h4)%list.

Example sha1_vectors :
  hex_of (SHA1_Final (SHA1_Update SHA1_Init (text_bytes "abc"))).1 = "a9993e364706816aba3e25717850c26c9cd0d89d"%string /\
  hex_of (sha1_reference (text_bytes "abcdbcdecdefdefgefghfghighijhijkijkljklmklmnlmnomnopnopq")) = "84983e441c3bd26ebaae4aa1f95129e5e54670f1"%string.
Proof. by vm_compute. Qed.

(** ** The words of a block *)
Definition slice (r : list Z) (i : nat) : list Z := take 4 (drop (4 * i) r).

Lemma slice_snoc r b i : slice (r ++ [b]) i = if decide (i = length r / 4)%nat then (slice r i ++ [b])%list else slice r i.
Proof.
  unfold slice. pose proof (Nat.div_mod_eq (length r) 4). pose proof (Nat.mod_upper_bound (length r) 4 ltac:(lia)).
  destruct (decide _) as [->|].
  - rewrite drop_app_le by lia. rewrite !take_ge; [done| |]; rewrite ?length_app, ?length_drop; cbn [length]; lia.
  - destruct (decide (i < length r / 4)%nat); [rewrite drop_app_le, take_app_le by (rewrite ?length_drop; lia); done|].
    by rewrite !drop_ge by (rewrite ?length_app; cbn [length]; lia).
Qed.
Lemma sha1_slice_length r i : (length r < 64)%nat -> i = (length r / 4)%nat -> length (slice r i) = (length r mod 4)%nat.
Proof. intros H ->. unfold slice. rewrite length_take, length_drop. pose proof (Nat.div_mod_eq (length r) 4). pose proof (Nat.mod_upper_bound (length r) 4 ltac:(lia)). lia. Qed.

Lemma be_value_snoc s b : be_value (s ++ [b]) = 256 * be_value s + b.
Proof. unfold be_value. rewrite rev_app_distr. cbn [rev app le_value]. lia. Qed.


Definition word (x : Z) : Prop := 0 <= x < 2^32.
(** The words of [W] hold the bytes that wait, behind what is left of an earlier block. *)
Record holds (W : list Z) (r : list Z) : Prop := {
  holds_length : length W = 80%nat;
  holds_words : Forall word W;
  holds_slice i : (i < 16)%nat -> sha1_word W i mod 256 ^ Z.of_nat (length (slice r i)) = be_value (slice r i) }.

Lemma word_shift x b : word x -> 0 <= b < 256 -> word (Z.lor (u32 (Z.shiftl x 8)) b).
Proof.
  unfold word, u32. intros Hx Hb. rewrite Z.shiftl_mul_pow2 by lia. change (2^32) with (2^24 * 2^8). rewrite Z.mul_mod_distr_r by lia.
  rewrite lor_add by lia. pose proof (Z.mod_pos_bound x (2^24) ltac:(lia)). lia.
Qed.
(** One more byte at the end of a word. *)
Lemma shift_value x b k : (k < 4)%nat -> 0 <= b < 256 ->
  Z.lor (u32 (Z.shiftl x 8)) b mod 256 ^ Z.of_nat (S k) = 256 * (x mod 256 ^ Z.of_nat k) + b.
Proof.
  intros Hk Hb. unfold u32. rewrite Z.shiftl_mul_pow2 by lia. change (2^32) with (2^24 * 2^8). rewrite Z.mul_mod_distr_r, lor_add by lia.
  change (2^8) with 256. rewrite Nat2Z.inj_succ, Z.pow_succ_r by lia.
  assert (x mod 2^24 mod 256 ^ Z.of_nat k = x mod 256 ^ Z.of_nat k) as E.
  { symmetry. apply Znumtheory.Zmod_div_mod; [lia|lia|]. exists (256 ^ (3 - Z.of_nat k)). rewrite <-Z.pow_add_r by lia.
    replace (3 - Z.of_nat k + Z.of_nat k) with 3 by lia. done. }
  rewrite <-E. set (y := x mod 2^24). rewrite Z.rem_mul_r by lia. rewrite Z.div_add_l, Z.div_small by lia.
  rewrite Z.add_0_r, (Z.add_comm (y * 256)), Z.mod_add, (Z.mod_small b) by lia. lia.
Qed.

Lemma holds_byte W r b : holds W r -> (length r < 64)%nat -> 0 <= b < 256 ->
  holds (alter (fun x => Z.lor (u32 (Z.shiftl x 8)) b) (length r / 4)%nat W) (r ++ [b]).
Proof.
  intros [Hl Hw Hs] Hr Hb. pose proof (Nat.div_lt_upper_bound (length r) 4 16 ltac:(lia) ltac:(lia)) as Hi.
  destruct (lookup_lt_is_Some_2 W (length r / 4)%nat ltac:(lia)) as [x Hx].
  assert (word x) as Hxw by (by eapply Forall_lookup_1). constructor; [by rewrite length_alter| |].
  - apply Forall_alter; [done|]. intros y Hy _. rewrite Hx in Hy. simplify_eq. by apply word_shift.
  - intros i Hi16. unfold sha1_word. rewrite slice_snoc, nth_lookup. specialize (Hs i Hi16). unfold sha1_word in Hs. rewrite nth_lookup in Hs.
    destruct (decide _) as [->|Hne]; [|by rewrite list_lookup_alter_ne by done].
    rewrite list_lookup_alter, Hx, decide_True by done. rewrite Hx in Hs. cbn [fmap option_fmap option_map from_option default id] in *. unfold id in *.
    pose proof (sha1_slice_length r _ Hr eq_refl) as Hk. pose proof (Nat.mod_upper_bound (length r) 4 ltac:(lia)).
    rewrite length_app, be_value_snoc, <-Hs. cbn [length]. rewrite Nat.add_1_r. apply shift_value; [lia|done].
Qed.

(** When the block is full the sixteen words are its words. *)
Lemma holds_block W r i : holds W r -> length r = 64%nat -> (i < 16)%nat ->
  sha1_word W i = sha1_word (words be_value 4 16 r ++ replicate 64 0) i.
Proof.
  intros [Hl Hw Hs] Hr Hi. unfold sha1_word. rewrite app_nth1 by (rewrite words_length; lia). rewrite nth_words by lia.
  specialize (Hs i Hi). unfold sha1_word in Hs.
  assert (length (slice r i) = 4%nat) as E by (unfold slice; rewrite length_take, length_drop; lia). rewrite E in Hs.
  fold (slice r i). rewrite <-Hs. rewrite Forall_forall in Hw. symmetry. apply Z.mod_small. apply Hw. apply list_elem_of_In, nth_In. lia.
Qed.

(** What a block makes of the words depends on the first sixteen only. *)
Lemma extend_agree W1 W2 n : length W1 = 80%nat -> length W2 = 80%nat -> (n <= 64)%nat ->
  (forall i, (i < 16)%nat -> sha1_word W1 i = sha1_word W2 i) ->
  let V1 := foldl sha1_extend W1 (seq 16 n) in let V2 := foldl sha1_extend W2 (seq 16 n) in
  length V1 = 80%nat /\ length V2 = 80%nat /\ forall i, (i < 16 + n)%nat -> sha1_word V1 i = sha1_word V2 i.
Proof.
  intros L1 L2 Hn H. induction n as [|n IH]; [cbn [seq foldl]; split_and!; [done|done|]; intros; apply H; lia|].
  rewrite seq_S, !foldl_app. destruct (IH ltac:(lia)) as (K1 & K2 & Hv). cbn [foldl]. cbv zeta in Hv.
  set (V1 := foldl _ W1 _) in *. set (V2 := foldl _ W2 _) in *.
  assert (forall V t v i, (t < length V)%nat -> sha1_word (<[t := v]> V) i = if decide (i = t) then v else sha1_word V i) as Hins.
  { intros V t v i Ht. unfold sha1_word. rewrite !nth_lookup. destruct (decide _) as [->|]; [by rewrite list_lookup_insert_eq|by rewrite list_lookup_insert_ne]. }
  unfold sha1_extend. rewrite !length_insert. split_and!; [done|done|]. intros i Hi. rewrite !Hins by lia.
  destruct (decide _); [by rewrite !Hv by lia|apply Hv; lia].
Qed.

Lemma hash_agree H W1 W2 : length W1 = 80%nat -> length W2 = 80%nat ->
  (forall i, (i < 16)%nat -> sha1_word W1 i = sha1_word W2 i) -> shaHashBlock H W1 = shaHashBlock H W2.
Proof.
  intros L1 L2 E. destruct (extend_agree W1 W2 64 L1 L2 ltac:(lia) E) as (K1 & K2 & Hv).
  unfold shaHashBlock. revert K1 K2 Hv. generalize (foldl sha1_extend W1 (seq 16 64)), (foldl sha1_extend W2 (seq 16 64)).
  intros V1 V2 K1 K2 Hv. assert (V1 = V2) as ->; [|done].
  apply (nth_ext _ _ 0 0); [lia|]. intros i Hi. apply Hv. lia.
Qed.
Lemma hash_words H W : length W = 80%nat -> Forall word W ->
  length (shaHashBlock H W).2 = 80%nat /\ Forall word (shaHashBlock H W).2.
Proof.
  intros Hl Hw. cbn [shaHashBlock snd]. generalize (seq 16 64) as l. intros l. revert W Hl Hw.
  induction l as [|t l IH]; intros W Hl Hw; [done|]. cbn [foldl]. apply IH; [by unfold sha1_extend; rewrite length_insert|].
  apply Forall_insert; [done|]. unfold SHA_ROT, rotl32, word, u32. apply Z.mod_pos_bound. lia.
Qed.

(** ** SHA-1 in pieces *)
Record sha1_fed (c : SHA_CTX) (msg : list Z) : Prop := {
  sha1_fed_state r : (absorb sha1_compress 64 sha1_start msg).2 = r -> length r = lenW c /\ holds (W c) r;
  sha1_fed_H : (absorb sha1_compress 64 sha1_start msg).1 = H c;
  sha1_fed_lo : sizeLo c = u32 (8 * Z.of_nat (length msg));
  sha1_fed_hi : sizeHi c = u32 (8 * Z.of_nat (length msg) / 2^32) }.

Lemma sha1_fed_init : sha1_fed SHA1_Init [].
Proof.
  assert (absorb sha1_compress 64 sha1_start [] = (sha1_start, [])) as E by (apply absorb_short; cbn; lia).
  constructor; rewrite ?E; cbn [fst snd]; [|done..]. intros r <-. split; [done|]. constructor; [done|by apply Forall_replicate|].
  intros i _. unfold slice. rewrite drop_nil. cbn. apply Z.mod_1_r.
Qed.

Lemma sha1_byte_fed c msg b : sha1_fed c msg -> 0 <= b < 256 -> sha1_fed (sha1_byte c b) (msg ++ [b]).
Proof.
  intros [Hst HH Hlo Hhi] Hb. pose proof (absorb_app sha1_compress 64 ltac:(lia) sha1_start msg [b]) as Ea.
  pose proof (absorb_rest sha1_compress 64 ltac:(lia) sha1_start msg) as Hr. pose proof (Nat.mod_upper_bound (length msg) 64 ltac:(lia)).
  destruct (Hst _ eq_refl) as [Hl Hh]. rewrite HH in Ea. set (r := (absorb _ _ _ msg).2) in *.
  pose proof (holds_byte (W c) r b Hh ltac:(lia) Hb) as Hh'. rewrite Hl in Hh'.
  assert (length (r ++ [b]) = S (lenW c)) as Hl' by (rewrite length_app; cbn; lia).
  destruct (count_carry (Z.of_nat (length msg)) 1 ltac:(lia) ltac:(lia)) as [E0 E1].
  change (wide 32) with u32 in *. change (u32 (1 ≪ 3)) with 8 in *. change (1 ≫ 29) with 0 in *. rewrite <-Hlo in *. rewrite <-Hhi in *.
  assert (Z.of_nat (length (msg ++ [b])) = Z.of_nat (length msg) + 1) as Hlen by (rewrite length_app; cbn [length]; lia). rewrite <-Hlen in *.
  assert (u32 (sizeHi c + (if u32 (sizeLo c + 8) <? 8 then 1 else 0)) = u32 (8 * Z.of_nat (length (msg ++ [b])) / 2^32)) as E2
    by (rewrite <-E1; destruct (_ <? 8); f_equal; lia).
  unfold sha1_byte. set (W' := alter _ _ _) in *. destruct (decide _) as [Hd|Hd].
  - assert (S (lenW c) = 64%nat) as H64.
    { destruct (decide (S (lenW c) = 64%nat)) as [|Hne]; [done|]. rewrite Nat.mod_small in Hd by lia. lia. }
    rewrite (absorb_block sha1_compress 64 ltac:(lia) (H c)) in Ea by lia. rewrite take_ge, drop_ge in Ea by lia.
    rewrite (absorb_short sha1_compress 64 (sha1_compress _ _) []) in Ea by (cbn; lia).
    assert (shaHashBlock (H c) W' = shaHashBlock (H c) (words be_value 4 16 (r ++ [b]) ++ replicate 64 0)) as Eh.
    { apply hash_agree; [apply Hh'|rewrite length_app, words_length, length_replicate; done|]. intros i Hi. apply holds_block; [done|lia|done]. }
    pose proof (hash_words (H c) W' (holds_length _ _ Hh') (holds_words _ _ Hh')) as [K1 K2].
    assert (sha1_compress (H c) (r ++ [b]) = (shaHashBlock (H c) W').1) as Ec by (unfold sha1_compress; by rewrite <-Eh).
    rewrite Ec in Ea. destruct (shaHashBlock _ W') as [H' W''].
    constructor; rewrite ?Ea; cbn [fst snd]; [|done|done|done]. intros r' <-. split; [done|]. constructor; [done|done|].
    intros i _. unfold slice. rewrite drop_nil. cbn. apply Z.mod_1_r.
  - assert (S (lenW c) < 64)%nat as H64.
    { destruct (decide (S (lenW c) = 64%nat)) as [E|]; [by rewrite E in Hd|lia]. }
    rewrite (absorb_short sha1_compress 64 (H c)) in Ea by lia. constructor; rewrite ?Ea; cbn [fst snd]; [|done|done|done]. by intros r' <-.
Qed.

Lemma sha1_update_fed data c msg : sha1_fed c msg -> bytes data -> sha1_fed (SHA1_Update c data) (msg ++ data).
Proof.
  revert c msg. induction data as [|b data IH]; intros c msg Hc Hd; [by rewrite app_nil_r|]. apply Forall_cons in Hd as [Hb Hd].
  cbn [SHA1_Update foldl]. change (b :: data) with ([b] ++ data)%list. rewrite app_assoc. apply IH; [by apply sha1_byte_fed|done].
Qed.
Lemma sha1_lenW c msg : sha1_fed c msg -> lenW c = (length msg mod 64)%nat.
Proof. intros [Hst _ _ _]. destruct (Hst _ eq_refl) as [<- _]. apply absorb_rest. lia. Qed.

(** The bytes of a word, the highest first. *)
Lemma out_byte h (j : Z) : 0 <= j < 4 -> Z.shiftr (u32 (Z.shiftl h (8 * j))) 24 mod 256 = h / 256 ^ (3 - j) mod 256.
Proof.
  intros Hj. unfold u32. change 256 with (2^8) at 1 3. replace (256 ^ (3 - j)) with (2 ^ (24 - 8 * j)) by (change 256 with (2^8); rewrite <-Z.pow_mul_r by lia; f_equal; lia).
  rewrite <-Z.shiftr_div_pow2 by lia. apply Z.bits_inj'. intros n Hn. rewrite !Z.testbit_mod_pow2 by lia. destruct (Z.ltb_spec n 8); [|done].
  rewrite !Z.shiftr_spec, Z.testbit_mod_pow2 by lia. rewrite (proj2 (Z.ltb_lt _ _)) by lia. rewrite !andb_true_l, Z.shiftl_spec by lia. f_equal. lia.
Qed.
Lemma out_shift h j : 0 <= j -> u32 (Z.shiftl (u32 (Z.shiftl h (8 * j))) 8) = u32 (Z.shiftl h (8 * (j + 1))).
Proof.
  intros Hj. unfold u32. rewrite !Z.shiftl_mul_pow2 by lia. rewrite Zmult_mod_idemp_l, <-Z.mul_assoc, <-Z.pow_add_r by lia. do 3 f_equal. lia.
Qed.
Lemma sha1_out_be h : sha1_out 4 h = be_bytes 4 h.
Proof.
  assert (sha1_out 4 h = [Z.shiftr h 24 mod 256; Z.shiftr (u32 (Z.shiftl h (8 * 1))) 24 mod 256;
    Z.shiftr (u32 (Z.shiftl h (8 * 2))) 24 mod 256; Z.shiftr (u32 (Z.shiftl h (8 * 3))) 24 mod 256]) as ->.
  { cbn [sha1_out]. change 8 with (8 * 1) at 1 2 4. rewrite !out_shift by lia. done. }
  rewrite !out_byte by lia. unfold be_bytes. cbn [le_bytes rev app]. rewrite Z.shiftr_div_pow2, !Z.div_div by lia.
  change (2^24) with (256 * (256 * 256)). change (256 ^ (3 - 1)) with (256 * 256). change (256 ^ (3 - 2)) with 256. change (256 ^ (3 - 3)) with 1.
  rewrite Z.div_1_r. done.
Qed.
Lemma be4_bytes x : [Z.land (Z.shiftr x 24) 255; Z.land (Z.shiftr x 16) 255; Z.land (Z.shiftr x 8) 255; Z.land x 255] = be_bytes 4 x.
Proof.
  change 255 with (Z.ones 8). rewrite !Z.land_ones, !Z.shiftr_div_pow2 by lia. unfold be_bytes. cbn [le_bytes rev app].
  rewrite !Z.div_div by lia. done.
Qed.

Lemma sha1_zeros_fed fuel c msg : let k := ((120 - length msg mod 64) mod 64)%nat in
  sha1_fed c msg -> (k <= fuel)%nat -> sha1_fed (sha1_zeros fuel c) (msg ++ replicate k 0).
Proof.
  revert c msg. induction fuel as [|fuel IH]; intros c msg k Hc Hk.
  - replace k with 0%nat by lia. by rewrite app_nil_r.
  - cbn [sha1_zeros]. pose proof (sha1_lenW c msg Hc) as Hl. pose proof (Nat.mod_upper_bound (length msg) 64 ltac:(lia)).
    destruct (decide _) as [Hd|Hd].
    + unfold k. rewrite <-Hl, Hd. by rewrite app_nil_r.
    + assert (k = S ((120 - length (msg ++ [0]) mod 64) mod 64)) as Ek.
      { unfold k. rewrite length_app, <-Nat.Div0.add_mod_idemp_l. cbn [length]. set (m := (length msg mod 64)%nat) in *. rewrite Hl in Hd.
        clearbody m. clear -H0 Hd. revert Hd. by do 64 (destruct m as [|m]; [try (intros; reflexivity); intros; lia|]); lia. }
      rewrite Ek in *. cbn [replicate]. change (0 :: ?l) with ([0] ++ l)%list. rewrite app_assoc. apply IH; [|lia].
      apply sha1_update_fed; [done|]. repeat constructor; lia.
Qed.

Lemma sha1_pad m : ((119 - m mod 64) mod 64 = (120 - (m + 1) mod 64) mod 64)%nat.
Proof.
  rewrite <-(Nat.Div0.add_mod_idemp_l m). pose proof (Nat.mod_upper_bound m 64 ltac:(lia)) as H. set (r := (m mod 64)%nat) in *. clearbody r.
  destruct (decide (r = 63%nat)) as [->|]; [done|]. rewrite (Nat.mod_small (r + 1)) by lia. f_equal. lia.
Qed.

Lemma sha1_final c msg : sha1_fed c msg -> (SHA1_Final c).1 = sha1_reference msg.
Proof.
  intros Hc. unfold SHA1_Final, sha1_reference. rewrite !be4_bytes.
  assert ((be_bytes 4 (sizeHi c) ++ be_bytes 4 (sizeLo c))%list = be_bytes 8 (8 * Z.of_nat (length msg))) as ->.
  { rewrite (sha1_fed_hi c msg Hc), (sha1_fed_lo c msg Hc). unfold u32. change (2^32) with (256 ^ Z.of_nat 4). rewrite !be_bytes_mod.
    symmetry. apply (be_bytes_app 4 4). lia. }
  assert (sha1_fed (SHA1_Update (sha1_zeros 64 (SHA1_Update c [0x80])) (be_bytes 8 (8 * Z.of_nat (length msg))))
    (msg ++ padding 64 8 (be_bytes 8 (8 * Z.of_nat (length msg))) (length msg))) as [_ HH _ _].
  { assert (sha1_fed (SHA1_Update c [0x80]) (msg ++ [0x80])) as H1 by (apply sha1_update_fed; [done|]; repeat constructor; lia).
    pose proof (sha1_zeros_fed 64 _ _ H1) as H2. rewrite length_app in H2. cbn [length] in H2. rewrite <-sha1_pad in H2.
    specialize (H2 ltac:(pose proof (Nat.mod_upper_bound (119 - length msg mod 64) 64 ltac:(lia)); lia)).
    unfold padding. change (2 * 64 - 1 - 8)%nat with 119%nat. change (0x80 :: ?l) with ([0x80] ++ l)%list. rewrite !app_assoc.
    apply sha1_update_fed; [exact H2|apply be_bytes_bytes]. }
  rewrite HH. destruct (H _) as [[[[h0 h1] h2] h3] h4]. cbn [fst]. by rewrite !sha1_out_be.
Qed.

Lemma SHA1_Final_init c : (SHA1_Final c).2 = SHA1_Init.
Proof. unfold SHA1_Final. by destruct (H _) as [[[[? ?] ?] ?] ?]. Qed.

#[export] Instance sha1_digest : Digest SHA1_Init SHA1_Update (fun c => (SHA1_Final c).1) (2^31) sha1_reference.
Proof.
  refine {| fed := sha1_fed |}.
  - exact sha1_fed_init.
  - intros c msg data Hc Hd _. by apply sha1_update_fed.
  - exact sha1_final.
Qed.

(** Bytes that are taken in pieces have the SHA-1 digest of the whole padded text. *)
Theorem sha1_in_pieces pieces : Forall (fun p => bytes p /\ Z.of_nat (length p) < 2^31) pieces ->
  (SHA1_Final (foldl SHA1_Update SHA1_Init pieces)).1 = sha1_reference (concat pieces).
Proof. apply (digest_pieces (H := sha1_digest)). Qed.
Lemma sha1_in_pieces_witness : Forall (fun p => bytes p /\ Z.of_nat (length p) < 2^31) [[97]; [98; 99]] /\
  (SHA1_Final (foldl SHA1_Update SHA1_Init [[97]; [98; 99]])).1 = sha1_reference [97; 98; 99].
Proof.
  assert (Forall (fun p => bytes p /\ Z.of_nat (length p) < 2^31) [[97]; [98; 99]]) as Hp by (repeat constructor; lia).
  split; [exact Hp|]. exact (sha1_in_pieces _ Hp).
Defined.
