(* ===== verification/Sha2.v ===== *)
(** * SHA-256, SHA-384 and SHA-512: [src/rahash/sha2.c]

    The three share their text but for the width of a word, the constants and the counter of the bits.  The transform
    keeps the words of the block in the buffer of the context, sixteen at a time, in the order of a host that stores the
    lowest byte first; the buffer holds them afterwards. *)
From S2P Require Import Digest.
From S2P Require Import Prelude.
#[local] Open Scope Z_scope.

(** ** Words of either width *)
Definition R (b x : Z) : Z := Z.shiftr x b.
Definition S32 (b x : Z) : Z := u32 (Z.lor (Z.shiftr x b) (Z.shiftl x (32 - b))).
Definition S64 (b x : Z) : Z := u64 (Z.lor (Z.shiftr x b) (Z.shiftl x (64 - b))).
Definition Sigma0_256 (x : Z) : Z := Z.lxor (Z.lxor (S32 2 x) (S32 13 x)) (S32 22 x).
Definition Sigma1_256 (x : Z) : Z := Z.lxor (Z.lxor (S32 6 x) (S32 11 x)) (S32 25 x).
Definition sigma0_256 (x : Z) : Z := Z.lxor (Z.lxor (S32 7 x) (S32 18 x)) (R 3 x).
Definition sigma1_256 (x : Z) : Z := Z.lxor (Z.lxor (S32 17 x) (S32 19 x)) (R 10 x).
Definition Sigma0_512 (x : Z) : Z := Z.lxor (Z.lxor (S64 28 x) (S64 34 x)) (S64 39 x).
Definition Sigma1_512 (x : Z) : Z := Z.lxor (Z.lxor (S64 14 x) (S64 18 x)) (S64 41 x).
Definition sigma0_512 (x : Z) : Z := Z.lxor (Z.lxor (S64 1 x) (S64 8 x)) (R 7 x).
Definition sigma1_512 (x : Z) : Z := Z.lxor (Z.lxor (S64 19 x) (S64 61 x)) (R 6 x).

Definition REVERSE32 (w : Z) : Z :=
  let tmp := u32 (Z.lor (Z.shiftr w 16) (Z.shiftl w 16)) in
  Z.lor (Z.shiftr (Z.land tmp 0xff00ff00) 8) (Z.shiftl (Z.land tmp 0x00ff00ff) 8).
Definition REVERSE64 (w : Z) : Z :=
  let tmp := u64 (Z.lor (Z.shiftr w 32) (Z.shiftl w 32)) in
  let tmp := Z.lor (Z.shiftr (Z.land tmp 0xff00ff00ff00ff00) 8) (Z.shiftl (Z.land tmp 0x00ff00ff00ff00ff) 8) in
  Z.lor (Z.shiftr (Z.land tmp 0xffff0000ffff0000) 16) (Z.shiftl (Z.land tmp 0x0000ffff0000ffff) 16).

(** ** Constants *)
Definition K256 : list Z :=
  [0x428A2F98; 0x71374491; 0xB5C0FBCF; 0xE9B5DBA5; 0x3956C25B; 0x59F111F1;
   0x923F82A4; 0xAB1C5ED5; 0xD807AA98; 0x12835B01; 0x243185BE; 0x550C7DC3;
   0x72BE5D74; 0x80DEB1FE; 0x9BDC06A7; 0xC19BF174; 0xE49B69C1; 0xEFBE4786;
   0x0FC19DC6; 0x240CA1CC; 0x2DE92C6F; 0x4A7484AA; 0x5CB0A9DC; 0x76F988DA;
   0x983E5152; 0xA831C66D; 0xB00327C8; 0xBF597FC7; 0xC6E00BF3; 0xD5A79147;
   0x06CA6351; 0x14292967; 0x27B70A85; 0x2E1B2138; 0x4D2C6DFC; 0x53380D13;
   0x650A7354; 0x766A0ABB; 0x81C2C92E; 0x92722C85; 0xA2BFE8A1; 0xA81A664B;
   0xC24B8B70; 0xC76C51A3; 0xD192E819; 0xD6990624; 0xF40E3585; 0x106AA070;
   0x19A4C116; 0x1E376C08; 0x2748774C; 0x34B0BCB5; 0x391C0CB3; 0x4ED8AA4A;
   0x5B9CCA4F; 0x682E6FF3; 0x748F82EE; 0x78A5636F; 0x84C87814; 0x8CC70208;
   0x90BEFFFA; 0xA4506CEB; 0xBEF9A3F7; 0xC67178F2].
Definition sha256_initial_hash_value : list Z :=
  [0x6A09E667; 0xBB67AE85; 0x3C6EF372; 0xA54FF53A;
   0x510E527F; 0x9B05688C; 0x1F83D9AB; 0x5BE0CD19].
Definition K512 : list Z :=
  [0x428A2F98D728AE22; 0x7137449123EF65CD; 0xB5C0FBCFEC4D3B2F; 0xE9B5DBA58189DBBC;
   0x3956C25BF348B538; 0x59F111F1B605D019; 0x923F82A4AF194F9B; 0xAB1C5ED5DA6D8118;
   0xD807AA98A3030242; 0x12835B0145706FBE; 0x243185BE4EE4B28C; 0x550C7DC3D5FFB4E2;
   0x72BE5D74F27B896F; 0x80DEB1FE3B1696B1; 0x9BDC06A725C71235; 0xC19BF174CF692694;
   0xE49B69C19EF14AD2; 0xEFBE4786384F25E3; 0x0FC19DC68B8CD5B5; 0x240CA1CC77AC9C65;
   0x2DE92C6F592B0275; 0x4A7484AA6EA6E483; 0x5CB0A9DCBD41FBD4; 0x76F988DA831153B5;
   0x983E5152EE66DFAB; 0xA831C66D2DB43210; 0xB00327C898FB213F; 0xBF597FC7BEEF0EE4;
   0xC6E00BF33DA88FC2; 0xD5A79147930AA725; 0x06CA6351E003826F; 0x142929670A0E6E70;
   0x27B70A8546D22FFC; 0x2E1B21385C26C926; 0x4D2C6DFC5AC42AED; 0x53380D139D95B3DF;
   0x650A73548BAF63DE; 0x766A0ABB3C77B2A8; 0x81C2C92E47EDAEE6; 0x92722C851482353B;
   0xA2BFE8A14CF10364; 0xA81A664BBC423001; 0xC24B8B70D0F89791; 0xC76C51A30654BE30;
   0xD192E819D6EF5218; 0xD69906245565A910; 0xF40E35855771202A; 0x106AA07032BBD1B8;
   0x19A4C116B8D2D0C8; 0x1E376C085141AB53; 0x2748774CDF8EEB99; 0x34B0BCB5E19B48A8;
   0x391C0CB3C5C95A63; 0x4ED8AA4AE3418ACB; 0x5B9CCA4F7763E373; 0x682E6FF3D6B2B8A3;
   0x748F82EE5DEFB2FC; 0x78A5636F43172F60; 0x84C87814A1F0AB72; 0x8CC702081A6439EC;
   0x90BEFFFA23631E28; 0xA4506CEBDE82BDE9; 0xBEF9A3F7B2C67915; 0xC67178F2E372532B;
   0xCA273ECEEA26619C; 0xD186B8C721C0C207; 0xEADA7DD6CDE0EB1E; 0xF57D4F7FEE6ED178;
   0x06F067AA72176FBA; 0x0A637DC5A2C898A6; 0x113F9804BEF90DAE; 0x1B710B35131C471B;
   0x28DB77F523047D84; 0x32CAAB7B40C72493; 0x3C9EBE0A15C9BEBC; 0x431D67C49C100D4C;
   0x4CC5D4BECB3E42B6; 0x597F299CFC657E2A; 0x5FCB6FAB3AD6FAEC; 0x6C44198C4A475817].
Definition sha384_initial_hash_value : list Z :=
  [0xCBBB9D5DC1059ED8; 0x629A292A367CD507; 0x9159015A3070DD17; 0x152FECD8F70E5939;
   0x67332667FFC00B31; 0x8EB44A8768581511; 0xDB0C2E0D64F98FA7; 0x47B5481DBEFA4FA4].
Definition sha512_initial_hash_value : list Z :=
  [0x6A09E667F3BCC908; 0xBB67AE8584CAA73B; 0x3C6EF372FE94F82B; 0xA54FF53A5F1D36F1;
   0x510E527FADE682D1; 0x9B05688C2B3E6C1F; 0x1F83D9ABFB41BD6B; 0x5BE0CD19137E2179].

Definition state8 : Type := Z * Z * Z * Z * Z * Z * Z * Z.
Definition list8 (s : state8) : list Z := let '(a, b, c, d, e, f, g, h) := s in [a; b; c; d; e; f; g; h].
Definition of_list8 (l : list Z) : state8 :=
  (nth 0 l 0, nth 1 l 0, nth 2 l 0, nth 3 l 0, nth 4 l 0, nth 5 l 0, nth 6 l 0, nth 7 l 0).

(** ** The text the three share *)
Section sha2.
(** Bytes in a word, rounds, the constants and the functions, the counter of the bits. *)
Context (B rounds : nat) (K : list Z) (Sigma0 Sigma1 sigma0 sigma1 REVERSE : Z -> Z).
Context {C : Type} (add : C -> Z -> C) (low : C -> Z) (reverse : C -> C) (store : C -> list Z).

Definition trunc (x : Z) : Z := x mod 2 ^ (8 * Z.of_nat B).
Definition Ch (x y z : Z) : Z := Z.lxor (Z.land x y) (Z.land (2 ^ (8 * Z.of_nat B) - 1 - x) z).
Definition Maj (x y z : Z) : Z := Z.lxor (Z.lxor (Z.land x y) (Z.land x z)) (Z.land y z).

Definition sha2_round (s : state8) (k w : Z) : state8 :=
  let '(a, b, c, d, e, f, g, h) := s in
  let T1 := trunc (h + Sigma1 e + Ch e f g + k + w) in
  let T2 := trunc (Sigma0 a + Maj a b c) in
  (trunc (T1 + T2), a, b, c, trunc (d + T1), e, f, g).
Definition add8 (s t : state8) : state8 :=
  let '(a, b, c, d, e, f, g, h) := s in let '(a', b', c', d', e', f', g', h') := t in
  (trunc (a + a'), trunc (b + b'), trunc (c + c'), trunc (d + d'), trunc (e + e'), trunc (f + f'), trunc (g + g'), trunc (h + h')).

(** The first sixteen rounds copy the words of the block; each of the others renews one of the sixteen words. *)
Definition sha2_expand (sW : state8 * list Z) (j : nat) : state8 * list Z :=
  let '(s, W) := sW in
  let s0 := sigma0 (nth ((j + 1) mod 16) W 0) in
  let s1 := sigma1 (nth ((j + 14) mod 16) W 0) in
  let W := <[(j mod 16)%nat := trunc (nth (j mod 16) W 0 + s1 + nth ((j + 9) mod 16) W 0 + s0)]> W in
  (sha2_round s (nth j K 0) (nth (j mod 16) W 0), W).
Definition sha2_transform (state : state8) (data : list Z) : state8 * list Z :=
  let W := words (fun l => REVERSE (le_value l)) B 16 data in
  let s := foldl (fun s j => sha2_round s (nth j K 0) (nth j W 0)) state (seq 0 16) in
  let '(s, W) := foldl sha2_expand (s, W) (seq 16 (rounds - 16)) in
  (add8 state s, concat (le_bytes B <$> W)).

Record sha2_ctx := Sha2 { s_state : state8; s_bitcount : C; s_buffer : list Z }.
Notation block := (16 * B)%nat.

(** All the blocks that are there, and what is left over. *)
Fixpoint sha2_blocks (fuel : nat) (c : sha2_ctx) (data : list Z) : sha2_ctx :=
  match fuel with
  | S fuel' =>
    if (block <=? length data)%nat then
      let '(st, buf) := sha2_transform (s_state c) (take block data) in
      sha2_blocks fuel' (Sha2 st (add (s_bitcount c) (8 * Z.of_nat block)) buf) (drop block data)
    else if (0 <? length data)%nat then
      Sha2 (s_state c) (add (s_bitcount c) (8 * Z.of_nat (length data))) (patch 0 data (s_buffer c))
    else c
  | O => c
  end.

Definition sha2_used (c : sha2_ctx) : nat := Z.to_nat (Z.shiftr (low (s_bitcount c)) 3 mod Z.of_nat block).
Definition sha2_update (c : sha2_ctx) (data : list Z) : sha2_ctx :=
  let len := length data in
  if (len =? 0)%nat then c
  else
    let usedspace := sha2_used c in
    if (0 <? usedspace)%nat then
      let freespace := (block - usedspace)%nat in
      if (freespace <=? len)%nat then
        let buf := patch usedspace (take freespace data) (s_buffer c) in
        let '(st, buf) := sha2_transform (s_state c) buf in
        sha2_blocks (S len) (Sha2 st (add (s_bitcount c) (8 * Z.of_nat freespace)) buf) (drop freespace data)
      else Sha2 (s_state c) (add (s_bitcount c) (8 * Z.of_nat len)) (patch usedspace data (s_buffer c))
    else sha2_blocks (S len) c data.

(** [short] bytes of a block come before the length; [z] of them are zeroed for the second of two last blocks. *)
Definition sha2_last (short z : nat) (c : sha2_ctx) : sha2_ctx :=
  let usedspace := sha2_used c in
  let bitcount := reverse (s_bitcount c) in
  let '(st, buf) :=
    if (0 <? usedspace)%nat then
      let buf := <[usedspace := 0x80]> (s_buffer c) in
      let usedspace := S usedspace in
      if (usedspace <=? short)%nat then (s_state c, patch usedspace (replicate (short - usedspace) 0) buf)
      else
        let buf := if (usedspace <? block)%nat then patch usedspace (replicate (block - usedspace) 0) buf else buf in
        let '(st, buf) := sha2_transform (s_state c) buf in
        (st, patch 0 (replicate z 0) buf)
    else (s_state c, <[0%nat := 0x80]> (patch 0 (replicate short 0) (s_buffer c))) in
  let '(st, buf) := sha2_transform st (patch short (store bitcount) buf) in
  Sha2 st bitcount buf.

(** The digest is [k] words of the state.  Only the pointer is zeroed afterwards: the context keeps the state, with the
    bytes of those words reversed, the counter, with its bytes reversed, and the words of the last block. *)
Definition sha2_final (short z k : nat) (c : sha2_ctx) : list Z * sha2_ctx :=
  let c := sha2_last short z c in
  let st := of_list8 ((REVERSE <$> take k (list8 (s_state c))) ++ drop k (list8 (s_state c))) in
  (concat (le_bytes B <$> take k (list8 st)), Sha2 st (s_bitcount c) (s_buffer c)).

(** *** The reference: the words of a block are big-endian, and all the rounds have a word of their own *)
Fixpoint sha2_schedule (n : nat) (w : list Z) : list Z :=
  match n with
  | O => w
  | S n' =>
    let w := sha2_schedule n' w in let t := length w in
    (w ++ [trunc (nth (t - 16) w 0 + sigma1 (nth (t - 2) w 0) + nth (t - 7) w 0 + sigma0 (nth (t - 15) w 0))])%list
  end.
Definition sha2_compress (state : state8) (data : list Z) : state8 :=
  let w := sha2_schedule (rounds - 16) (words be_value B 16 data) in
  add8 state (foldl (fun s j => sha2_round s (nth j K 0) (nth j w 0)) state (seq 0 rounds)).
Definition sha2_reference (init : state8) (short k : nat) (msg : list Z) : list Z :=
  let tail := (block - short)%nat in
  concat (be_bytes B <$> take k (list8 (absorb sha2_compress block init
    (msg ++ padding block tail (be_bytes tail (8 * Z.of_nat (length msg))) (length msg))).1)).
End sha2.
Arguments Sha2 {C}. Arguments s_state {C}. Arguments s_bitcount {C}. Arguments s_buffer {C}.

(** ** SHA-256: one word counts the bits *)
Definition SHA256_CTX : Type := sha2_ctx (C := Z).
Definition add64 (c n : Z) : Z := u64 (c + n).
Definition SHA256_Init : SHA256_CTX := Sha2 (of_list8 sha256_initial_hash_value) 0 (replicate 64 0).
Definition SHA256_Transform : state8 -> list Z -> state8 * list Z :=
  sha2_transform 4 64 K256 Sigma0_256 Sigma1_256 sigma0_256 sigma1_256 REVERSE32.
Definition SHA256_Update : SHA256_CTX -> list Z -> SHA256_CTX :=
  sha2_update 4 64 K256 Sigma0_256 Sigma1_256 sigma0_256 sigma1_256 REVERSE32 add64 id.
Definition SHA256_Final : SHA256_CTX -> list Z * SHA256_CTX :=
  sha2_final 4 64 K256 Sigma0_256 Sigma1_256 sigma0_256 sigma1_256 REVERSE32 id REVERSE64 (le_bytes 8) 56 56 8.
Definition sha256_reference : list Z -> list Z :=
  sha2_reference 4 64 K256 Sigma0_256 Sigma1_256 sigma0_256 sigma1_256 (of_list8 sha256_initial_hash_value) 56 8.

(** ** SHA-512 and SHA-384: two words count the bits *)
Definition SHA512_CTX : Type := sha2_ctx (C := Z * Z).
Definition ADDINC128 (w : Z * Z) (n : Z) : Z * Z :=
  let w0 := u64 (w.1 + n) in (w0, if w0 <? n then u64 (w.2 + 1) else w.2).
Definition reverse128 (w : Z * Z) : Z * Z := (REVERSE64 w.1, REVERSE64 w.2).
Definition store128 (w : Z * Z) : list Z := (le_bytes 8 w.2 ++ le_bytes 8 w.1)%list.
Definition SHA512_Init : SHA512_CTX := Sha2 (of_list8 sha512_initial_hash_value) (0, 0) (replicate 128 0).
Definition SHA384_Init : SHA512_CTX := Sha2 (of_list8 sha384_initial_hash_value) (0, 0) (replicate 128 0).
Definition SHA512_Transform : state8 -> list Z -> state8 * list Z :=
  sha2_transform 8 80 K512 Sigma0_512 Sigma1_512 sigma0_512 sigma1_512 REVERSE64.
Definition SHA512_Update : SHA512_CTX -> list Z -> SHA512_CTX :=
  sha2_update 8 80 K512 Sigma0_512 Sigma1_512 sigma0_512 sigma1_512 REVERSE64 ADDINC128 fst.
Definition SHA512_Last : SHA512_CTX -> SHA512_CTX :=
  sha2_last 8 80 K512 Sigma0_512 Sigma1_512 sigma0_512 sigma1_512 REVERSE64 fst reverse128 store128 112 126.
Definition SHA512_Final : SHA512_CTX -> list Z * SHA512_CTX :=
  sha2_final 8 80 K512 Sigma0_512 Sigma1_512 sigma0_512 sigma1_512 REVERSE64 fst reverse128 store128 112 126 8.
Definition SHA384_Update : SHA512_CTX -> list Z -> SHA512_CTX := SHA512_Update.
Definition SHA384_Final : SHA512_CTX -> list Z * SHA512_CTX :=
  sha2_final 8 80 K512 Sigma0_512 Sigma1_512 sigma0_512 sigma1_512 REVERSE64 fst reverse128 store128 112 126 6.
Definition sha512_reference : list Z -> list Z :=
  sha2_reference 8 80 K512 Sigma0_512 Sigma1_512 sigma0_512 sigma1_512 (of_list8 sha512_initial_hash_value) 112 8.
Definition sha384_reference : list Z -> list Z :=
  sha2_reference 8 80 K512 Sigma0_512 Sigma1_512 sigma0_512 sigma1_512 (of_list8 sha384_initial_hash_value) 112 6.

(** The digits of a digest, and the address the function returns: the one of the terminator, behind them. *)
Definition sha2_End (final : list Z) (buffer : Z) : string * Z := (hex_of final, buffer + 2 * Z.of_nat (length final)).

Example sha256_vectors :
  hex_of (SHA256_Final (SHA256_Update SHA256_Init (text_bytes "abc"))).1
    = "ba7816bf8f01cfea414140de5dae2223b00361a396177a9cb410ff61f20015ad"%string /\
  hex_of (sha256_reference (text_bytes "abcdbcdecdefdefgefghfghighijhijkijkljklmklmnlmnomnopnopq"))
    = "248d6a61d20638b8e5c026930c3e6039a33ce45964ff2167f6ecedd419db06c1"%string.
Proof. by vm_compute. Qed.
Example sha512_vectors :
  hex_of (SHA512_Final (SHA512_Update SHA512_Init (text_bytes "abc"))).1
    = "ddaf35a193617abacc417349ae20413112e6fa4e89a97ea20a9eeee64b55d39a2192992a274fc1a836ba3c23a3feebbd454d4423643ce80e2a9ac94fa54ca49f"%string /\
  hex_of (sha384_reference (text_bytes "abc"))
    = "cb00753f45a35e8bb5a03d699ac65007272c32ab0eded1631a8b605a43ff5bed8086072ba1e7cc2358baeca134c825a7"%string.
Proof. by vm_compute. Qed.

(** ** Reversed words *)
Lemma le_bytes_value (l : list Z) : bytes l -> le_bytes (length l) (le_value l) = l.
Proof.
  induction 1 as [|b l Hb _ IH]; [done|]. cbn [length le_bytes le_value]. rewrite (Z.mul_comm 256), Z.mod_add, Z.div_add by lia.
  rewrite Z.mod_small, Z.div_small by lia. by rewrite Z.add_0_l, IH.
Qed.
Lemma le_value_range l : bytes l -> 0 <= le_value l < 256 ^ Z.of_nat (length l).
Proof.
  induction 1 as [|b l Hb _ IH]; [done|]. cbn [length le_value]. rewrite Nat2Z.inj_succ, Z.pow_succ_r by lia. lia.
Qed.
Lemma bytes_rev l : bytes l -> bytes (rev l).
Proof. apply Forall_rev. Qed.

(** What the macros promise: a word of as many bytes, whose bytes are the ones of the other in the other order. *)
Definition reverses (B : nat) (f : Z -> Z) : Prop :=
  forall x, 0 <= x < 256 ^ Z.of_nat B -> 0 <= f x < 256 ^ Z.of_nat B /\ le_bytes B (f x) = be_bytes B x.

Lemma reverses_value B f l : reverses B f -> bytes l -> length l = B -> f (le_value l) = be_value l.
Proof.
  intros Hf Hl <-. destruct (Hf (le_value l) (le_value_range l Hl)) as [Hr E].
  rewrite <-(le_value_bytes (length l) (f _)) by (rewrite Z.pow_mul_r by lia; exact Hr).
  rewrite E. unfold be_bytes. by rewrite le_bytes_value.
Qed.

Lemma byte_bits x y i j : 0 <= i -> 0 <= j -> (forall n, 0 <= n < 8 -> Z.testbit x (n + 8 * i) = Z.testbit y (n + 8 * j)) ->
  x / 2 ^ (8 * i) mod 256 = y / 2 ^ (8 * j) mod 256.
Proof.
  intros Hi Hj H. change 256 with (2^8). rewrite <-!Z.shiftr_div_pow2 by lia. apply Z.bits_inj'. intros n Hn.
  rewrite !Z.testbit_mod_pow2 by lia. destruct (Z.ltb_spec n 8); [|done]. rewrite !Z.shiftr_spec by lia. by rewrite H by lia.
Qed.
Lemma range_bits x n : 0 <= n -> 0 <= x -> (forall m, n <= m -> Z.testbit x m = false) -> x < 2^n.
Proof.
  intros Hn Hx H. assert (x = x mod 2^n) as ->; [|apply Z.mod_pos_bound; lia].
  apply Z.bits_inj'. intros m Hm. rewrite Z.testbit_mod_pow2 by lia. destruct (Z.ltb_spec m n); [done|]. by rewrite H.
Qed.

(** One bit of a word that is made with masks and shifts, wherever it is. *)
Lemma shiftr_bit x k n : Z.testbit (Z.shiftr x k) n = (0 <=? n) && Z.testbit x (n + k).
Proof. destruct (Z.leb_spec 0 n); [by rewrite Z.shiftr_spec by lia|by rewrite Z.testbit_neg_r]. Qed.
Lemma shiftl_bit x k n : Z.testbit (Z.shiftl x k) n = (0 <=? n) && Z.testbit x (n - k).
Proof. destruct (Z.leb_spec 0 n); [by rewrite Z.shiftl_spec by lia|by rewrite Z.testbit_neg_r]. Qed.
Lemma mod_bit x k n : 0 <= k -> Z.testbit (x mod 2^k) n = (n <? k) && Z.testbit x n.
Proof. intros Hk. destruct (Z.leb_spec 0 n); [by apply Z.testbit_mod_pow2|rewrite !Z.testbit_neg_r by lia; by rewrite andb_false_r]. Qed.

Lemma bits_outside x n : 0 <= n -> 0 <= x < 2^n -> (forall k, n <= k -> Z.testbit x k = false) /\ (forall k, k < 0 -> Z.testbit x k = false).
Proof.
  intros Hn Hx. split; intros k Hk; [|by apply Z.testbit_neg_r]. rewrite <-(Z.mod_small x (2^n)) by lia. by apply Z.mod_pow2_bits_high.
Qed.
Lemma below (n : nat) (P : Z -> Prop) : Forall P (Z.of_nat <$> seq 0 n) -> forall m, 0 <= m < Z.of_nat n -> P m.
Proof.
  intros H m Hm. rewrite Forall_forall in H. apply H. apply list_elem_of_fmap. exists (Z.to_nat m). split; [lia|]. apply elem_of_seq. lia.
Qed.

(** The bits of a word of [n] bits that is made of [x] so. *)
Ltac bits_of n x :=
  let m := fresh in let Hm := fresh in let tb := fresh "tb" in intros m Hm;
  repeat first [rewrite Z.lor_spec | rewrite Z.land_spec | rewrite shiftr_bit | rewrite shiftl_bit | rewrite mod_bit by lia];
  set (tb := Z.testbit x) in *; clearbody tb; revert m Hm; apply (below n);
  repeat constructor; vm_compute;
  lazymatch goal with Hh : forall k, _ -> tb k = false, Hl : forall k, k < 0 -> tb k = false |- _ =>
    repeat match goal with |- context [tb ?k] => first [rewrite (Hh k) by (vm_compute; discriminate) | rewrite (Hl k) by reflexivity] end
  end;
  by repeat match goal with |- context [tb ?k] => destruct (tb k) end.

Lemma REVERSE32_bit x : 0 <= x < 2^32 -> forall m, 0 <= m < 32 -> Z.testbit (REVERSE32 x) m = Z.testbit x (m mod 8 + 8 * (3 - m / 8)).
Proof. intros Hx. destruct (bits_outside x 32 ltac:(lia) Hx) as [Hh Hl]. unfold REVERSE32, u32. bits_of 32%nat x. Qed.
Lemma REVERSE64_bit x : 0 <= x < 2^64 -> forall m, 0 <= m < 64 -> Z.testbit (REVERSE64 x) m = Z.testbit x (m mod 8 + 8 * (7 - m / 8)).
Proof. intros Hx. destruct (bits_outside x 64 ltac:(lia) Hx) as [Hh Hl]. unfold REVERSE64, u64. bits_of 64%nat x. Qed.

Lemma REVERSE_range x n c1 c2 k (tmp : Z) : 0 <= k -> k <= n -> 0 <= tmp < 2^n -> 0 <= c1 -> 0 <= c2 < 2^(n - k) ->
  x = Z.lor (Z.shiftr (Z.land tmp c1) k) (Z.shiftl (Z.land tmp c2) k) -> 0 <= x < 2^n.
Proof.
  intros Hk Hkn Ht H1 H2 ->. destruct (bits_outside tmp n ltac:(lia) Ht) as [Ht1 _]. destruct (bits_outside c2 (n - k) ltac:(lia) H2) as [Hc _].
  assert (0 <= Z.lor (Z.shiftr (Z.land tmp c1) k) (Z.shiftl (Z.land tmp c2) k)) as H0
    by (apply Z.lor_nonneg; split; [apply Z.shiftr_nonneg|apply Z.shiftl_nonneg]; apply Z.land_nonneg; lia).
  split; [exact H0|]. apply range_bits; [lia|done|]. intros m Hm.
  by rewrite Z.lor_spec, shiftr_bit, shiftl_bit, !Z.land_spec, (Ht1 (m + k)), (Hc (m - k)), !andb_false_r by lia.
Qed.

Lemma bytes_of_bits (B : nat) x y : (forall m, 0 <= m < 8 * Z.of_nat B -> Z.testbit y m = Z.testbit x (m mod 8 + 8 * (Z.of_nat B - 1 - m / 8))) ->
  forall i, 0 <= i < Z.of_nat B -> y / 2 ^ (8 * i) mod 256 = x / 2 ^ (8 * (Z.of_nat B - 1 - i)) mod 256.
Proof.
  intros H i Hi. apply byte_bits; [lia|lia|]. intros n Hn. rewrite H by lia. f_equal.
  rewrite (Z.mul_comm 8 i), Z.mod_add, Z.div_add, Z.mod_small, (Z.div_small n) by lia. lia.
Qed.

Lemma reverses_32 : reverses 4 REVERSE32.
Proof.
  intros x Hx. change (256 ^ Z.of_nat 4) with (2^32) in *. split.
  - apply (REVERSE_range (REVERSE32 x) 32 0xff00ff00 0x00ff00ff 8 (u32 (Z.lor (Z.shiftr x 16) (Z.shiftl x 16)))); [lia|lia|apply Z.mod_pos_bound; lia|lia|lia|done].
  - pose proof (bytes_of_bits 4 x (REVERSE32 x) (REVERSE32_bit x Hx)) as H.
    assert (forall z, le_bytes 4 z = [z / 2 ^ (8 * 0) mod 256; z / 2 ^ (8 * 1) mod 256; z / 2 ^ (8 * 2) mod 256; z / 2 ^ (8 * 3) mod 256]) as E
      by (intros z; cbn [le_bytes]; rewrite !Z.div_div by lia; by rewrite Z.div_1_r).
    unfold be_bytes. rewrite !E, !H by lia. done.
Qed.
Lemma reverses_64 : reverses 8 REVERSE64.
Proof.
  intros x Hx. change (256 ^ Z.of_nat 8) with (2^64) in *. split.
  - unfold REVERSE64. set (t := u64 _). assert (0 <= t < 2^64) as Ht by (apply Z.mod_pos_bound; lia). clearbody t. cbv zeta.
    set (t' := Z.lor (Z.shiftr _ 8) _). assert (0 <= t' < 2^64) as Ht' by (apply (REVERSE_range t' 64 0xff00ff00ff00ff00 0x00ff00ff00ff00ff 8 t); [lia|lia|exact Ht|lia|lia|done]).
    clearbody t'. apply (REVERSE_range _ 64 0xffff0000ffff0000 0x0000ffff0000ffff 16 t'); [lia|lia|exact Ht'|lia|lia|done].
  - pose proof (bytes_of_bits 8 x (REVERSE64 x) (REVERSE64_bit x Hx)) as H.
    assert (forall z, le_bytes 8 z = [z / 2 ^ (8 * 0) mod 256; z / 2 ^ (8 * 1) mod 256; z / 2 ^ (8 * 2) mod 256; z / 2 ^ (8 * 3) mod 256;
      z / 2 ^ (8 * 4) mod 256; z / 2 ^ (8 * 5) mod 256; z / 2 ^ (8 * 6) mod 256; z / 2 ^ (8 * 7) mod 256]) as E
      by (intros z; cbn [le_bytes]; rewrite !Z.div_div by lia; by rewrite Z.div_1_r).
    unfold be_bytes. rewrite !E, !H by lia. done.
Qed.

(** ** Sixteen words in a circle are the schedule *)
Section transform.
Context (B rounds : nat) (K : list Z) (Sigma0 Sigma1 sigma0 sigma1 REVERSE : Z -> Z).
Context (HB : (0 < B)%nat) (Hrounds : (16 <= rounds)%nat) (Hrev : reverses B REVERSE).
Notation schedule := (sha2_schedule B sigma0 sigma1).
Notation round := (sha2_round B Sigma0 Sigma1).
Notation expand := (sha2_expand B K Sigma0 Sigma1 sigma0 sigma1).
Notation transform := (sha2_transform B rounds K Sigma0 Sigma1 sigma0 sigma1 REVERSE).
Notation compress := (sha2_compress B rounds K Sigma0 Sigma1 sigma0 sigma1).

Lemma schedule_length n w : length (schedule n w) = (length w + n)%nat.
Proof. induction n as [|n IH]; cbn [sha2_schedule]; [lia|]. rewrite length_app, IH. cbn [length]. lia. Qed.
Lemma schedule_nth n m w t : (n <= m)%nat -> (t < length w + n)%nat -> nth t (schedule m w) 0 = nth t (schedule n w) 0.
Proof.
  intros Hnm Ht. induction m as [|m IH]; [by replace n with 0%nat by lia|]. destruct (decide (n = S m)) as [->|]; [done|].
  cbn [sha2_schedule]. rewrite app_nth1 by (rewrite schedule_length; lia). apply IH. lia.
Qed.

Lemma mod16 a b : (a = b + 16)%nat -> (a mod 16 = b mod 16)%nat.
Proof. intros ->. replace (b + 16)%nat with (b + 1 * 16)%nat by lia. apply Nat.Div0.mod_add. Qed.

(** The words of the circle are the last sixteen of the schedule. *)
Lemma expand_schedule w n s N : length w = 16%nat -> (n <= N)%nat ->
  let '(s', W) := foldl expand (s, w) (seq 16 n) in
  s' = foldl (fun s j => round s (nth j K 0) (nth j (schedule N w) 0)) s (seq 16 n) /\ length W = 16%nat /\
  forall t, (n <= t < n + 16)%nat -> nth (t mod 16) W 0 = nth t (schedule n w) 0.
Proof.
  intros Hw HN. induction n as [|n IH]; [split_and!; [done|done|]; intros t Ht; by rewrite Nat.mod_small by lia|].
  rewrite seq_S, !foldl_app. specialize (IH ltac:(lia)). destruct (foldl expand _ _) as [s' W]. destruct IH as (Hs & Hl & Hc).
  cbn [foldl]. unfold sha2_expand. rewrite (mod16 (16 + n + 1) (n + 1)), (mod16 (16 + n + 14) (n + 14)), (mod16 (16 + n + 9) (n + 9)), (mod16 (16 + n) n) by lia.
  rewrite !Hc by lia. set (v := trunc _ _). assert (nth (16 + n) (schedule (S n) w) 0 = v) as Hv.
  { cbn [sha2_schedule]. rewrite app_nth2, schedule_length, Hw, Nat.sub_diag by (rewrite schedule_length; lia). cbn [nth]. unfold v.
    by replace (16 + n - 16)%nat with n by lia; replace (16 + n - 2)%nat with (n + 14)%nat by lia;
       replace (16 + n - 7)%nat with (n + 9)%nat by lia; replace (16 + n - 15)%nat with (n + 1)%nat by lia. }
  pose proof (Nat.mod_upper_bound n 16 ltac:(lia)) as Hn.
  split_and!.
  - rewrite <-Hs. f_equal. rewrite nth_lookup, list_lookup_insert_eq by lia. cbn [default from_option]. unfold id.
    by rewrite (schedule_nth (S n)) by lia.
  - by rewrite length_insert.
  - intros t Ht. rewrite nth_lookup. destruct (decide (t = 16 + n)%nat) as [->|].
    + by rewrite (mod16 (16 + n) n), list_lookup_insert_eq, Hv by lia.
    + assert (t mod 16 <> n mod 16)%nat as Hne.
      { intros E. pose proof (Nat.div_mod_eq t 16). pose proof (Nat.div_mod_eq n 16). lia. }
      rewrite list_lookup_insert_ne by congruence. rewrite <-nth_lookup, Hc by lia. symmetry. apply schedule_nth; lia.
Qed.

(** The buffer is as long as the block. *)
Lemma transform_length st b : length (transform st b).2 = (16 * B)%nat.
Proof.
  unfold sha2_transform. set (w := words _ B 16 b). assert (length w = 16%nat) as Hw by apply words_length.
  set (s0 := foldl _ st (seq 0 16)).
  pose proof (expand_schedule w (rounds - 16) s0 (rounds - 16) Hw ltac:(lia)) as H.
  destruct (foldl expand _ _) as [s' W]. destruct H as (_ & HW & _). cbn [snd].
  rewrite (length_concat_map _ B), HW by apply le_bytes_length. lia.
Qed.

(** The transform of a block is the reference of it. *)
Lemma transform_compress st b : bytes b -> length b = (16 * B)%nat -> (transform st b).1 = compress st b.
Proof.
  intros Hb Hl. unfold sha2_transform, sha2_compress.
  rewrite (words_ext _ be_value (fun x => 0 <= x < 256) B 16 b HB) by (done || lia || (intros; by apply (reverses_value B))).
  set (w := words be_value B 16 b). assert (length w = 16%nat) as Hw by apply words_length.
  set (s0 := foldl _ st (seq 0 16)).
  pose proof (expand_schedule w (rounds - 16) s0 (rounds - 16) Hw ltac:(lia)) as H.
  destruct (foldl expand _ _) as [s' W]. destruct H as (-> & _ & _). cbn [fst].
  f_equal. replace (seq 0 rounds) with (seq 0 16 ++ seq 16 (rounds - 16))%list by (rewrite <-seq_app; f_equal; lia).
  rewrite foldl_app. f_equal. unfold s0. apply foldl_ext_elem. intros a j Hj. apply elem_of_seq in Hj.
  by rewrite (schedule_nth 0 (rounds - 16) w j) by lia.
Qed.
End transform.

(** ** A message in pieces *)
Section pieces.
Context (B rounds : nat) (K : list Z) (Sigma0 Sigma1 sigma0 sigma1 REVERSE : Z -> Z).
Context (HB : (0 < B)%nat) (Hrounds : (16 <= rounds)%nat) (Hrev : reverses B REVERSE).
(** What the counter of the bits does, up to one that is as wide as the end of a block. *)
Context {C : Type} (add : C -> Z -> C) (low : C -> Z) (reverse : C -> C) (store : C -> list Z) (counts : C -> Z -> Prop) (short : nat).
Notation block := (16 * B)%nat.
Notation tail := (block - short)%nat.
Context (Hadd : forall c n m, counts c n -> 0 <= n -> 0 <= m < 2^64 -> counts (add c m) (n + m)).
Context (Hlow : forall c n, counts c n -> low c = u64 n).
Context (Hstore : forall c n, counts c n -> 0 <= n -> store (reverse c) = be_bytes tail n).
Context (Hshort : (0 < short < block)%nat) (Hblock : exists q, 2^61 = Z.of_nat block * q).
Notation transform := (sha2_transform B rounds K Sigma0 Sigma1 sigma0 sigma1 REVERSE).
Notation compress := (sha2_compress B rounds K Sigma0 Sigma1 sigma0 sigma1).
Notation blocks := (sha2_blocks B rounds K Sigma0 Sigma1 sigma0 sigma1 REVERSE add).
Notation update := (sha2_update B rounds K Sigma0 Sigma1 sigma0 sigma1 REVERSE add low).
Notation last := (sha2_last B rounds K Sigma0 Sigma1 sigma0 sigma1 REVERSE low reverse store).
Notation final := (sha2_final B rounds K Sigma0 Sigma1 sigma0 sigma1 REVERSE low reverse store).
Context (init : state8).

Definition step (st : state8) (b : list Z) : state8 := (transform st b).1.
Record sha2_fed (c : sha2_ctx (C := C)) (msg : list Z) : Prop := {
  sha2_fed_state : buffered step block init msg (s_state c) (s_buffer c);
  sha2_fed_count : counts (s_bitcount c) (8 * Z.of_nat (length msg));
  sha2_fed_bytes : bytes msg }.

Lemma used_fed c msg : sha2_fed c msg -> sha2_used B low c = (length msg mod block)%nat.
Proof.
  intros [_ Hc _]. unfold sha2_used. rewrite (Hlow _ _ Hc). apply Nat2Z.inj. rewrite Z2Nat.id by (apply Z.mod_pos_bound; lia).
  rewrite mod_nat_Z. rewrite Z.shiftr_div_pow2 by lia. change (2^3) with 8. unfold u64. set (m := Z.of_nat (length msg)).
  assert (8 * m mod 2^64 / 8 = m mod 2^61) as -> by (change (2^64) with (8 * 2^61); rewrite Z.mul_mod_distr_l, Z.mul_comm, Z.div_mul by lia; done).
  symmetry. destruct Hblock as [q Hq]. apply Znumtheory.Zmod_div_mod; [lia|lia|]. exists q. lia.
Qed.

(** The loop over the blocks that are whole. *)
Lemma blocks_fed fuel c msg data : (length data < fuel)%nat -> 8 * Z.of_nat (length data) < 2^64 -> bytes data ->
  sha2_fed c msg -> (length msg mod block = 0)%nat -> sha2_fed (blocks fuel c data) (msg ++ data).
Proof.
  revert c msg data. induction fuel as [|fuel IH]; intros c msg data Hf Hd Hb Hc Hm; [lia|]. destruct Hc as [Hs Hn Hmsg].
  cbn [sha2_blocks]. destruct (Nat.leb_spec block (length data)) as [Hle|Hlt].
  - assert (length (take block data) = block) as Ht by (rewrite length_take; lia).
    pose proof (transform_length B rounds K Sigma0 Sigma1 sigma0 sigma1 REVERSE HB Hrounds (s_state c) (take block data)) as Hl.
    pose proof (buffered_exact step block ltac:(lia) _ _ _ _ (transform (s_state c) (take block data)).2 (take block data) Hs ltac:(lia) Hl) as Hx.
    rewrite Hm, patch_all in Hx by (destruct Hs as [Hs _]; lia). unfold step in Hx at 2.
    destruct (transform _ _) as [st buf]. cbn [fst snd] in *. rewrite <-(take_drop block data) at 2. rewrite app_assoc.
    apply IH; [rewrite length_drop; lia|rewrite length_drop; lia|by apply Forall_drop| |].
    + constructor; cbn [s_state s_bitcount s_buffer]; [exact Hx| |by apply Forall_app_2; [|apply Forall_take]].
      rewrite length_app, Ht, Nat2Z.inj_add, Z.mul_add_distr_l. apply Hadd; [done|lia|lia].
    + rewrite length_app, Ht. replace (length msg + block)%nat with (length msg + 1 * block)%nat by lia. by rewrite Nat.Div0.mod_add.
  - destruct (Nat.ltb_spec 0 (length data)) as [H0|H0].
    + constructor; cbn [s_state s_bitcount s_buffer]; [|rewrite length_app, Nat2Z.inj_add, Z.mul_add_distr_l; apply Hadd; [done|lia|lia]|by apply Forall_app_2].
      pose proof (buffered_keep step block ltac:(lia) _ _ _ _ data Hs ltac:(lia)) as Hx. by rewrite Hm in Hx.
    + destruct data; [|cbn in H0; lia]. rewrite app_nil_r. by constructor.
Qed.

Lemma update_fed c msg data : 8 * Z.of_nat (length data) < 2^64 -> bytes data -> sha2_fed c msg -> sha2_fed (update c data) (msg ++ data).
Proof.
  intros Hd Hb Hc. unfold sha2_update. rewrite (used_fed c msg Hc). set (k := (length msg mod block)%nat).
  pose proof (Nat.mod_upper_bound (length msg) block ltac:(lia)) as Hk. fold k in Hk.
  destruct (Nat.eqb_spec (length data) 0) as [H0|H0]; [destruct data; [by rewrite app_nil_r|done]|].
  destruct (Nat.ltb_spec 0 k) as [Hk0|Hk0]; [|apply blocks_fed; [lia|done|done|done|unfold k in Hk0; lia]].
  pose proof Hc as [Hs Hn Hmsg]. destruct (Nat.leb_spec (block - k) (length data)) as [Hle|Hlt].
  - assert (length (take (block - k) data) = (block - k)%nat) as Ht by (rewrite length_take; lia).
    set (buf := patch k _ _). pose proof (transform_length B rounds K Sigma0 Sigma1 sigma0 sigma1 REVERSE HB Hrounds (s_state c) buf) as Hl.
    pose proof (buffered_exact step block ltac:(lia) _ _ _ _ (transform (s_state c) buf).2 (take (block - k) data) Hs Ht Hl) as Hx.
    fold k buf in Hx. unfold step in Hx at 2.
    destruct (transform _ _) as [st buf']. cbn [fst snd] in *. rewrite <-(take_drop (block - k) data) at 3. rewrite app_assoc.
    apply blocks_fed; [rewrite length_drop; lia|rewrite length_drop; lia|by apply Forall_drop| |].
    + constructor; cbn [s_state s_bitcount s_buffer]; [exact Hx| |by apply Forall_app_2; [|apply Forall_take]].
      rewrite length_app, Ht, Nat2Z.inj_add, Z.mul_add_distr_l. apply Hadd; [done|lia|lia].
    + rewrite length_app, Ht, <-Nat.Div0.add_mod_idemp_l. fold k. replace (k + (block - k))%nat with (1 * block)%nat by lia. apply Nat.Div0.mod_mul.
  - constructor; cbn [s_state s_bitcount s_buffer]; [|rewrite length_app, Nat2Z.inj_add, Z.mul_add_distr_l; apply Hadd; [done|lia|lia]|by apply Forall_app_2].
    apply (buffered_keep step block ltac:(lia) _ _ _ _ data Hs). fold k. lia.
Qed.

(** A one and zeros behind the bytes that wait. *)
Lemma marked (buf : list Z) k j : (k < j <= length buf)%nat ->
  take j (patch (S k) (replicate (j - S k) 0) (<[k:=0x80]> buf)) = (take k buf ++ 0x80 :: replicate (j - S k) 0)%list.
Proof.
  intros H. pose proof (take_patch_at (S k) (replicate (j - S k) 0) (<[k:=0x80]> buf) ltac:(rewrite length_insert; lia)) as E.
  rewrite length_replicate in E. replace (S k + (j - S k))%nat with j in E by lia. rewrite E.
  rewrite (take_S_r _ _ 0x80) by (by apply list_lookup_insert_eq; lia). rewrite take_insert_ge by lia. by rewrite <-app_assoc.
Qed.
Lemma patch_end (data buf : list Z) k : (k + length data)%nat = length buf -> patch k data buf = (take k buf ++ data)%list.
Proof. intros H. unfold patch. rewrite drop_ge by lia. by rewrite app_nil_r. Qed.

Definition word8 (s : state8) : Prop := Forall (fun x => 0 <= x < 256 ^ Z.of_nat B) (list8 s).
Lemma step_word8 st b : word8 (step st b).
Proof.
  unfold step, sha2_transform. destruct (foldl _ _ _) as [s W]. cbn [fst]. destruct st as [[[[[[[a1 a2] a3] a4] a5] a6] a7] a8].
  destruct s as [[[[[[[b1 b2] b3] b4] b5] b6] b7] b8]. unfold word8, add8, list8, trunc. rewrite Z.pow_mul_r by lia. change (2^8) with 256.
  repeat apply Forall_cons_2; try apply Forall_nil_2; apply Z.mod_pos_bound; lia.
Qed.

Lemma pad_zeros k : (k < block)%nat ->
  ((2 * block - 1 - tail - k) mod block = if (k <? short)%nat then short - S k else block - S k + short)%nat.
Proof.
  intros Hk. destruct (Nat.ltb_spec k short).
  - replace (2 * block - 1 - tail - k)%nat with (short - S k + 1 * block)%nat by lia. rewrite Nat.Div0.mod_add. apply Nat.mod_small. lia.
  - rewrite Nat.mod_small; lia.
Qed.

(** The last blocks: what waits, and the padding. *)
Lemma last_fed z c msg : (short <= z <= block)%nat -> sha2_fed c msg ->
  exists b, s_state (last short z c) = step b.1 b.2 /\
  (absorb step block init (msg ++ padding block tail (be_bytes tail (8 * Z.of_nat (length msg))) (length msg))).1 = step b.1 b.2.
Proof.
  intros Hz Hc. unfold sha2_last. rewrite (used_fed c msg Hc). destruct Hc as [[Hb Hs] Hn Hmsg].
  set (k := (length msg mod block)%nat) in *. pose proof (Nat.mod_upper_bound (length msg) block ltac:(lia)) as Hk. fold k in Hk.
  rewrite (Hstore _ _ Hn) by lia. set (len := be_bytes _ _). assert (length len = tail) as Hlen by (unfold len, be_bytes; by rewrite length_rev, le_bytes_length).
  rewrite absorb_app by lia. rewrite Hs. cbn [fst snd]. unfold padding. fold k. rewrite pad_zeros by lia.
  assert (forall st x buf, length x = short -> length buf = block -> take short buf = x ->
    (absorb step block st (x ++ len)).1 = step st (patch short len buf)) as Hone.
  { intros st x buf Hx Hbuf <-. rewrite patch_end by lia. rewrite absorb_block by (rewrite ?length_app; lia).
    rewrite absorb_short by (rewrite length_drop, length_app; lia). rewrite take_ge by (rewrite length_app; lia). done. }
  destruct (Nat.ltb_spec 0 k) as [H0|H0].
  - destruct (Nat.leb_spec (S k) short) as [Hle|Hlt].
    + set (buf := patch (S k) _ _). exists (s_state c, patch short len buf). cbn [fst snd].
      split; [unfold step; by destruct (transform _ _)|]. rewrite (proj2 (Nat.ltb_lt _ _)) by lia.
      replace (take k (s_buffer c) ++ 0x80 :: replicate (short - S k) 0 ++ len)%list
        with ((take k (s_buffer c) ++ 0x80 :: replicate (short - S k) 0) ++ len)%list by (by rewrite <-app_assoc).
      rewrite <-marked by lia. apply Hone; [|unfold buf; rewrite patch_length, ?length_insert; [lia|rewrite length_replicate, length_insert; lia]|done].
      rewrite length_take, patch_length; rewrite ?length_insert, ?length_replicate; lia.
    + assert ((if (S k <? block)%nat then patch (S k) (replicate (block - S k) 0) (<[k:=0x80]> (s_buffer c)) else <[k:=0x80]> (s_buffer c))
        = (take k (s_buffer c) ++ 0x80 :: replicate (block - S k) 0)%list) as ->.
      { rewrite <-(marked (s_buffer c) k block) by lia. rewrite take_ge by (rewrite patch_length; rewrite ?length_insert, ?length_replicate; lia).
        destruct (Nat.ltb_spec (S k) block); [done|]. replace (block - S k)%nat with 0%nat by lia. unfold patch. cbn [replicate length app].
        by rewrite Nat.add_0_r, take_drop. }
      set (full := (take k _ ++ _)%list). assert (length full = block) as Hfull by (unfold full; rewrite length_app, length_take; cbn [length]; rewrite length_replicate; lia).
      pose proof (transform_length B rounds K Sigma0 Sigma1 sigma0 sigma1 REVERSE HB Hrounds (s_state c) full) as HW.
      rewrite (proj2 (Nat.ltb_ge _ _)) by lia. rewrite replicate_add.
      replace (take k (s_buffer c) ++ 0x80 :: (replicate (block - S k) 0 ++ replicate short 0) ++ len)%list
        with (full ++ replicate short 0 ++ len)%list by (unfold full; rewrite <-!app_assoc; done).
      rewrite absorb_cons by (done || lia). unfold step at 3. destruct (transform _ full) as [st W]. cbn [fst snd] in *.
      exists (st, patch short len (patch 0 (replicate z 0) W)). cbn [fst snd]. split; [unfold step; by destruct (transform _ _)|].
      apply Hone; [apply length_replicate|rewrite patch_length; rewrite ?length_replicate; lia|].
      unfold patch. rewrite take_0, app_nil_l, take_app_le, take_replicate, Nat.min_l by (rewrite ?length_replicate; lia). done.
  - replace k with 0%nat by lia. rewrite (proj2 (Nat.ltb_lt _ _)) by lia. cbn [take app].
    exists (s_state c, patch short len (<[0%nat:=0x80]> (patch 0 (replicate short 0) (s_buffer c)))). cbn [fst snd].
    split; [unfold step; by destruct (transform _ _)|]. change (0x80 :: ?l ++ len)%list with ((0x80 :: l) ++ len)%list.
    assert (<[0%nat:=0x80]> (patch 0 (replicate short 0) (s_buffer c)) = (0x80 :: replicate (short - 1) 0) ++ drop short (s_buffer c))%list as E.
    { unfold patch. rewrite take_0, app_nil_l, length_replicate. by replace short with (S (short - 1)) at 1 by lia. }
    apply Hone; [cbn [length]; rewrite length_replicate; lia|rewrite E, length_app, length_drop; cbn [length]; rewrite length_replicate; lia|].
    rewrite E, take_app_le, take_ge by (cbn [length]; rewrite length_replicate; lia). done.
Qed.

Lemma list8_of l : length l = 8%nat -> list8 (of_list8 l) = l.
Proof. intros H. do 9 (destruct l as [|? l]; try discriminate H). done. Qed.
Lemma list8_length s : length (list8 s) = 8%nat.
Proof. by destruct s as [[[[[[[? ?] ?] ?] ?] ?] ?] ?]. Qed.

Lemma final_fed z k c msg : (short <= z <= block)%nat -> (k <= 8)%nat -> sha2_fed c msg ->
  (final short z k c).1 = sha2_reference B rounds K Sigma0 Sigma1 sigma0 sigma1 init short k msg.
Proof.
  intros Hz Hk Hc. unfold sha2_final, sha2_reference. destruct (last_fed z c msg Hz Hc) as ([st b] & -> & E). cbn [fst snd] in *.
  rewrite <-(absorb_ext step compress (fun x => 0 <= x < 256)), E; [|lia| |].
  2: { intros st' b' Hb' Hl'. by apply (transform_compress B rounds K Sigma0 Sigma1 sigma0 sigma1 REVERSE HB Hrounds Hrev). }
  2: { apply Forall_app_2; [apply (sha2_fed_bytes _ _ Hc)|]. apply Forall_cons_2; [lia|]. apply Forall_app_2; [apply Forall_replicate; lia|apply be_bytes_bytes]. }
  pose proof (step_word8 st b) as Hw. unfold word8 in Hw. set (L := list8 (step st b)) in *. assert (length L = 8%nat) as HL by apply list8_length.
  cbn [fst]. rewrite list8_of by (rewrite length_app, length_fmap, length_take, length_drop; lia).
  rewrite take_app_le, take_ge by (rewrite ?length_fmap, ?length_take; lia). f_equal. rewrite <-list_fmap_compose.
  apply list_fmap_ext. intros i x Hx. cbn. apply Hrev. rewrite Forall_forall in Hw. apply Hw.
  apply lookup_take_Some in Hx as [Hx _]. by eapply list_elem_of_lookup_2.
Qed.

Lemma sha2_digest buffer c0 : length buffer = block -> counts c0 0 -> forall z k, (short <= z <= block)%nat -> (k <= 8)%nat ->
  Digest (Sha2 init c0 buffer) update (fun c => (final short z k c).1) (2^61) (sha2_reference B rounds K Sigma0 Sigma1 sigma0 sigma1 init short k).
Proof.
  intros Hb Hc0 z k Hz Hk. refine {| fed := sha2_fed |}.
  - constructor; cbn [s_state s_bitcount s_buffer length]; [by apply buffered_nil; [lia|]|exact Hc0|constructor].
  - intros c msg data Hc Hd Hl. apply update_fed; [lia|done|done].
  - intros c msg Hc. by apply final_fed.
Qed.
End pieces.

(** ** The three *)
#[export] Instance sha256_digest : Digest SHA256_Init SHA256_Update (fun c => (SHA256_Final c).1) (2^61) sha256_reference.
Proof.
  apply (sha2_digest 4 64 K256 Sigma0_256 Sigma1_256 sigma0_256 sigma1_256 REVERSE32 ltac:(lia) ltac:(lia) reverses_32 add64 id REVERSE64 (le_bytes 8)
    (fun c n => c = u64 n) 56); try lia; try done.
  - intros c n m -> Hn Hm. unfold add64, u64. by rewrite Zplus_mod_idemp_l.
  - intros c n -> Hn. destruct (reverses_64 (u64 n)) as [_ ->]; [apply Z.mod_pos_bound; lia|]. apply (be_bytes_mod 8).
  - by exists (2^55).
Qed.

Definition counts128 (w : Z * Z) (n : Z) : Prop := w.1 = u64 n /\ w.2 = u64 (n / 2^64).
Lemma counts128_add c n m : counts128 c n -> 0 <= n -> 0 <= m < 2^64 -> counts128 (ADDINC128 c m) (n + m).
Proof.
  intros [H1 H2] Hn Hm. unfold counts128, ADDINC128. rewrite H1, H2. cbn [fst snd]. unfold u64. rewrite Zplus_mod_idemp_l. split; [done|].
  set (M := 2^64) in *. assert (0 < M) by (unfold M; lia). pose proof (Z.mod_pos_bound n M ltac:(lia)) as Hr.
  assert (n = n / M * M + n mod M) as E by (rewrite Z.mul_comm; apply Z.div_mod; lia). set (q := n / M) in *. set (r := n mod M) in *. clearbody q r.
  assert ((n + m) / M = q + (r + m) / M) as -> by (rewrite E, <-Z.add_assoc, Z.div_add_l by lia; done).
  assert ((n + m) mod M = (r + m) mod M) as -> by (rewrite E; replace (q * M + r + m) with (r + m + q * M) by lia; by rewrite Z.mod_add by lia).
  destruct (decide (r + m < M)).
  - rewrite Z.mod_small, (Z.div_small (r + m)), Z.add_0_r by lia. by rewrite (proj2 (Z.ltb_ge _ _)) by lia.
  - assert ((r + m) / M = 1) as Hq by (symmetry; apply (Z.div_unique _ _ _ (r + m - M)); lia).
    assert ((r + m) mod M = r + m - M) as -> by (rewrite Z.mod_eq, Hq; lia). rewrite (proj2 (Z.ltb_lt _ _)), Hq by lia. apply Zplus_mod_idemp_l.
Qed.
Lemma counts128_store c n : counts128 c n -> 0 <= n -> store128 (reverse128 c) = be_bytes 16 n.
Proof.
  intros [H1 H2] Hn. unfold store128, reverse128. cbn [fst snd]. rewrite H1, H2.
  destruct (reverses_64 (u64 n)) as [_ ->]; [apply Z.mod_pos_bound; lia|].
  destruct (reverses_64 (u64 (n / 2^64))) as [_ ->]; [apply Z.mod_pos_bound; lia|].
  unfold u64. change (2^64) with (256 ^ Z.of_nat 8). rewrite !be_bytes_mod. symmetry. by apply (be_bytes_app 8 8).
Qed.
#[export] Instance sha512_digest : Digest SHA512_Init SHA512_Update (fun c => (SHA512_Final c).1) (2^61) sha512_reference.
Proof.
  apply (sha2_digest 8 80 K512 Sigma0_512 Sigma1_512 sigma0_512 sigma1_512 REVERSE64 ltac:(lia) ltac:(lia) reverses_64 ADDINC128 fst reverse128 store128
    counts128 112); try lia; try done.
  - apply counts128_add.
  - by intros c n [-> _].
  - apply counts128_store.
  - by exists (2^54).
Qed.
#[export] Instance sha384_digest : Digest SHA384_Init SHA384_Update (fun c => (SHA384_Final c).1) (2^61) sha384_reference.
Proof.
  apply (sha2_digest 8 80 K512 Sigma0_512 Sigma1_512 sigma0_512 sigma1_512 REVERSE64 ltac:(lia) ltac:(lia) reverses_64 ADDINC128 fst reverse128 store128
    counts128 112); try lia; try done.
  - apply counts128_add.
  - by intros c n [-> _].
  - apply counts128_store.
  - by exists (2^54).
Qed.

(** C3: Bytes that are taken in pieces, whatever their sizes, have the SHA-256, SHA-384 and SHA-512 digests of the whole
    padded text, with a word of its own for each round. *)
Theorem sha2_in_pieces pieces : Forall (fun p => bytes p /\ Z.of_nat (length p) < 2^61) pieces ->
  (SHA256_Final (foldl SHA256_Update SHA256_Init pieces)).1 = sha256_reference (concat pieces) /\
  (SHA384_Final (foldl SHA384_Update SHA384_Init pieces)).1 = sha384_reference (concat pieces) /\
  (SHA512_Final (foldl SHA512_Update SHA512_Init pieces)).1 = sha512_reference (concat pieces).
Proof.
  intros Hp. split_and!; [exact (digest_pieces (H := sha256_digest) pieces Hp)|exact (digest_pieces (H := sha384_digest) pieces Hp)|].
  exact (digest_pieces (H := sha512_digest) pieces Hp).
Qed.
Lemma sha2_in_pieces_witness : Forall (fun p => bytes p /\ Z.of_nat (length p) < 2^61) [[97]; [98; 99]] /\
  (SHA256_Final (foldl SHA256_Update SHA256_Init [[97]; [98; 99]])).1 = sha256_reference [97; 98; 99].
Proof.
  assert (Forall (fun p => bytes p /\ Z.of_nat (length p) < 2^61) [[97]; [98; 99]]) as Hp by (repeat constructor; lia).
  split; [exact Hp|]. exact (proj1 (sha2_in_pieces _ Hp)).
Defined.

(** A context that has made a digest does not make the same digest of the same bytes again. *)
Example sha256_not_twice : let c := SHA256_Update SHA256_Init (text_bytes "abc") in
  (SHA256_Final (SHA256_Update (SHA256_Final c).2 (text_bytes "abc"))).1 <> sha256_reference (text_bytes "abc").
Proof. by vm_compute. Qed.
