(* ===== verification/Rahash.v ===== *)
(** * The [rahash] program: [src/rahash/rahash.c]

    What [-S], [-E] and [-L] make of the range, and the loop of [radare_hash_generate] that reads a file in blocks and
    makes a digest of each.  The contexts of the digests are set up once, before the loop. *)
From S2P Require Import Digest Sha1 Sha2.
From S2P Require Import Prelude Hash.
#[local] Open Scope Z_scope.

Inductive ALGO :=
| ALGO_MD4 | ALGO_MD5 | ALGO_CRC16 | ALGO_CRC32 | ALGO_SHA1 | ALGO_SHA256 | ALGO_SHA384 | ALGO_SHA512
| ALGO_PAR | ALGO_XOR | ALGO_XORPAIR | ALGO_HAMDIST | ALGO_ENTROPY | ALGO_MOD255.
#[global] Instance ALGO_eq_dec : EqDecision ALGO.
Proof. solve_decision. Defined.

Definition algorithms : list (string * nat * ALGO) :=
  [("md4", 16%nat, ALGO_MD4); ("md5", 16%nat, ALGO_MD5); ("crc16", 2%nat, ALGO_CRC16); ("crc32", 4%nat, ALGO_CRC32);
   ("sha1", 20%nat, ALGO_SHA1); ("sha256", 32%nat, ALGO_SHA256); ("sha384", 48%nat, ALGO_SHA384); ("sha512", 64%nat, ALGO_SHA512);
   ("par", 1%nat, ALGO_PAR); ("xor", 1%nat, ALGO_XOR); ("xorpair", 4%nat, ALGO_XORPAIR); ("hamdist", 1%nat, ALGO_HAMDIST);
   ("entropy", 4%nat, ALGO_ENTROPY); ("mod255", 1%nat, ALGO_MOD255)]%string.
Definition algo_size (a : ALGO) : nat :=
  match a with
  | ALGO_MD4 | ALGO_MD5 => 16 | ALGO_CRC16 => 2 | ALGO_CRC32 => 4 | ALGO_SHA1 => 20 | ALGO_SHA256 => 32 | ALGO_SHA384 => 48
  | ALGO_SHA512 => 64 | ALGO_PAR | ALGO_XOR | ALGO_HAMDIST | ALGO_MOD255 => 1 | ALGO_XORPAIR | ALGO_ENTROPY => 4
  end.
(** [-a]: the entry of that name. *)
Definition algo_of (optarg : string) : option ALGO :=
  snd <$> find (fun e => String.eqb optarg e.1.1) algorithms.

(** ** The range *)
Record header_t := Header { file_size : Z; from : Z; to : Z; hlength : Z; block_size : Z }.

(** Up to [print_header]; no result: an error message and 1.  [stdin]: the file is the standard input. *)
Definition hash_range (stdin : bool) (h : header_t) : option header_t :=
  let to_ := if hlength h =? 0 then to h else u64 (from h + hlength h) in
  if negb (from h =? 0) && (file_size h <? from h) then None
  else
    let len := u64 (file_size h - from h) in
    let '(to_, len) :=
      if to_ =? 0 then (file_size h, len)
      else let to_ := if file_size h <? to_ then file_size h else to_ in (to_, u64 (to_ - from h)) in
    if negb (from h =? 0) && (to_ <=? from h) then None
    else
      let all := 2^64 - 1 in
      let '(fs, to_, len) := if stdin then (all, all, all) else (file_size h, to_, len) in
      Some (Header (if fs =? 0 then all else fs) (from h) to_ len (block_size h)).

(** ** One block *)
Record contexts := Contexts { x_md5 : MD5_CTX; x_sha1 : SHA_CTX; x_sha256 : SHA256_CTX; x_sha384 : SHA512_CTX; x_sha512 : SHA512_CTX }.

(** The [switch] of the algorithm: the digest keeps the bytes that are not written, and the context is what [Final] leaves.
    [w]: the bits of a long. *)
Definition hash_block (w : Z) (a : ALGO) (x : contexts) (digest : list Z) (data : list Z) : option (list Z * contexts) :=
  let put (d : list Z) := patch 0 (take (algo_size a) d) digest in
  match a with
  | ALGO_PAR => Some (put [hash_par data], x)
  | ALGO_XOR => Some (put [hash_xor data], x)
  | ALGO_XORPAIR => Some (put (le_bytes 2 (hash_xorpair data)), x)
  | ALGO_MD5 =>
    let '(d, c) := MD5Final w (MD5Update w (x_md5 x) data) in
    Some (put d, Contexts c (x_sha1 x) (x_sha256 x) (x_sha384 x) (x_sha512 x))
  | ALGO_MD4 => Some (put (mdfour data), x)
  | ALGO_CRC16 => Some (put (be_bytes 2 (crc16 0 data) ++ [0; 0]), x)
  | ALGO_CRC32 => Some (put (be_bytes 4 (crc32 data)), x)
  | ALGO_SHA1 =>
    let '(d, c) := SHA1_Final (SHA1_Update (x_sha1 x) data) in
    Some (put d, Contexts (x_md5 x) c (x_sha256 x) (x_sha384 x) (x_sha512 x))
  | ALGO_SHA256 =>
    let '(d, c) := SHA256_Final (SHA256_Update (x_sha256 x) data) in
    Some (put d, Contexts (x_md5 x) (x_sha1 x) c (x_sha384 x) (x_sha512 x))
  | ALGO_SHA384 =>
    let '(d, c) := SHA384_Final (SHA384_Update (x_sha384 x) data) in
    Some (put d, Contexts (x_md5 x) (x_sha1 x) (x_sha256 x) c (x_sha512 x))
  | ALGO_SHA512 =>
    let '(d, c) := SHA512_Final (SHA512_Update (x_sha512 x) data) in
    Some (put d, Contexts (x_md5 x) (x_sha1 x) (x_sha256 x) (x_sha384 x) c)
  | ALGO_HAMDIST => h ← hash_hamdist data; Some (put [h], x)
  | ALGO_ENTROPY => Some (digest, x)
  | ALGO_MOD255 => Some (put [hash_mod255 data mod 256], x)
  end.

(** ** The loop *)
Section generate.
Context (w : Z) (a : ALGO) (h : header_t).

(** [rest] is what the file has left to read, [buffer] the memory behind the address [malloc] gave: the bytes of a block
    begin at [from] in it.  No result: memory that is not there is read.  The digests are written or printed in turn. *)
Fixpoint generate_loop (fuel : nat) (rest : list Z) (ptr : Z) (buffer digest : list Z) (x : contexts) : option (list (list Z)) :=
  match fuel with
  | O => None
  | S fuel' =>
    if (file_size h =? 2^64 - 1) || (ptr <? to h) then
      let data := take (Z.to_nat (block_size h)) rest in
      if decide (data = []) then Some []
      else
        let buffer := patch 0 data buffer in
        let len := if negb (hlength h =? 2^64 - 1) && (hlength h <? block_size h) then Z.to_nat (hlength h) else length data in
        let bytes := take len (drop (Z.to_nat (from h)) buffer) in
        if decide (length bytes = len) then
          '(digest, x) ← hash_block w a x digest bytes;
          ds ← generate_loop fuel' (drop (Z.to_nat (block_size h)) rest) (u64 (ptr + block_size h)) buffer digest x;
          Some (digest :: ds)
        else None
    else Some []
  end.

(** [main] sets the contexts up; the buffer of the MD5 one is what the program starts with, zeros. *)
Definition start_contexts : contexts := Contexts (MD5Init (replicate 64 0)) SHA1_Init SHA256_Init SHA384_Init SHA512_Init.
Definition generate (file buffer : list Z) : option (list (list Z)) :=
  generate_loop (S (S (length file))) file (from h) buffer (replicate (algo_size a) 0) start_contexts.
End generate.

(** The header is written in network order and turned back: [htonl] keeps 32 bits of each number. *)
Definition endian_and_back (h : header_t) : header_t :=
  Header (u32 (file_size h)) (u32 (from h)) (u32 (to h)) (u32 (hlength h)) (u32 (block_size h)).

(** [dst]: there is a hash file. *)
Definition radare_hash_generate (w : Z) (a : ALGO) (dst : bool) (h : header_t) (file buffer : list Z) : option (list (list Z)) :=
  h ← hash_range false h; generate w a (if dst then endian_and_back h else h) file buffer.

(** [-f]: one block, the file. *)
Definition whole (h : header_t) (file : list Z) : header_t :=
  let n := Z.of_nat (length file) in Header n (from h) (to h) (hlength h) n.

(** ** What the digests are *)
(** The digest of some bytes; the one of the entropy, which [entropy.c] computes in floating point, has no definition here. *)
Definition digest_of (a : ALGO) (data : list Z) : option (list Z) :=
  match a with
  | ALGO_MD4 => Some (md4_reference data)
  | ALGO_MD5 => Some (md5_reference data)
  | ALGO_CRC16 => Some (be_bytes 2 (crc16 0 data))
  | ALGO_CRC32 => Some (be_bytes 4 (crc32 data))
  | ALGO_SHA1 => Some (sha1_reference data)
  | ALGO_SHA256 => Some (sha256_reference data)
  | ALGO_SHA384 => Some (sha384_reference data)
  | ALGO_SHA512 => Some (sha512_reference data)
  | ALGO_PAR => Some [hash_par data]
  | ALGO_XOR => Some [hash_xor data]
  | ALGO_XORPAIR => Some (le_bytes 2 (hash_xorpair data) ++ [0; 0])%list
  | ALGO_HAMDIST => (fun v => [v]) <$> hash_hamdist data
  | ALGO_ENTROPY => None
  | ALGO_MOD255 => Some [hash_mod255 data mod 256]
  end.
(** The digests that do not use a context, or one that [Final] sets up again. *)
Definition per_block (a : ALGO) : bool :=
  match a with ALGO_MD5 | ALGO_SHA256 | ALGO_SHA384 | ALGO_SHA512 => false | _ => true end.

Example sizes : Forall (fun e => algo_size e.2 = e.1.2 /\ algo_of e.1.1 = Some e.2) algorithms.
Proof. repeat constructor. Qed.

Lemma be_bytes_length n v : length (be_bytes n v) = n.
Proof. unfold be_bytes. by rewrite length_rev, le_bytes_length. Qed.
Lemma Encode_length s : length (Encode s) = 16%nat.
Proof. by destruct s as [[[? ?] ?] ?]. Qed.
Lemma sha2_reference_length B rounds K f1 f2 f3 f4 init short k msg : (k <= 8)%nat ->
  length (sha2_reference B rounds K f1 f2 f3 f4 init short k msg) = (B * k)%nat.
Proof. intros Hk. unfold sha2_reference. rewrite (length_concat_map _ B) by apply be_bytes_length. rewrite length_take, list8_length, Nat.min_l by lia. done. Qed.
Lemma digest_of_length a data d : digest_of a data = Some d -> length d = algo_size a.
Proof.
  destruct a; cbn [digest_of algo_size]; try (intros [= <-]; try apply Encode_length; try apply be_bytes_length; done).
  - intros [= <-]. unfold sha1_reference. destruct (_.1) as [[[[? ?] ?] ?] ?]. rewrite !length_app, !be_bytes_length. done.
  - intros [= <-]. apply (sha2_reference_length 4). lia.
  - intros [= <-]. apply (sha2_reference_length 8). lia.
  - intros [= <-]. apply (sha2_reference_length 8). lia.
  - destruct (hash_hamdist data); cbn; [|done]. by intros [= <-].
Qed.

(** The bytes of the digest that no block writes. *)
Definition digest_kept (a : ALGO) (digest : list Z) : Prop :=
  length digest = algo_size a /\ match a with ALGO_XORPAIR => drop 2 digest = [0; 0] | _ => True end.

Lemma put_all a d digest : length digest = algo_size a -> length d = algo_size a -> patch 0 (take (algo_size a) d) digest = d.
Proof. intros Hd H. rewrite take_ge by lia. apply patch_all. lia. Qed.

Lemma put_front a d digest k : length digest = algo_size a -> length d = algo_size a -> (k <= algo_size a)%nat -> drop k digest = drop k d ->
  patch 0 (take (algo_size a) (take k d)) digest = d.
Proof.
  intros Hd H Hk E. rewrite (take_ge (take k d)) by (rewrite length_take; lia). unfold patch.
  rewrite take_0, app_nil_l, length_take, Nat.min_l by lia. cbn [Nat.add]. by rewrite E, take_drop.
Qed.
Lemma digest_kept_of a data d : digest_of a data = Some d -> digest_kept a d.
Proof. intros H. split; [by eapply digest_of_length|]. destruct a; try done. by injection H as <-. Qed.
Lemma digest_kept_start a : digest_kept a (replicate (algo_size a) 0).
Proof. split; [apply length_replicate|]. by destruct a. Qed.
Lemma hash_hamdist_total data : exists v, hash_hamdist data = Some v.
Proof.
  unfold hash_hamdist. enough (forall x, exists v, foldl (fun x b => x ← x; hamdist x (s8 b)) (Some x) data = Some v) as H
    by (destruct (H 0) as [v ->]; by eexists).
  induction data as [|b data IH]; intros x; [by eexists|]. cbn [foldl mbind option_bind]. rewrite (proj1 (hamdist_counts _ _)). apply IH.
Qed.

(** One piece, with a context that is new. *)
Lemma digest_once `{HD : Digest C init update final limit reference} data : bytes data -> Z.of_nat (length data) < limit ->
  final (update init data) = reference data.
Proof. intros Hb Hl. apply fed_final. apply (fed_update init []); [apply fed_init|done|done]. Qed.

Lemma hash_block_digest w a x digest data : bytes data -> 8 * Z.of_nat (length data) < 2^32 -> x_sha1 x = SHA1_Init ->
  (a = ALGO_MD5 -> w = 32) -> a <> ALGO_ENTROPY -> (per_block a = true \/ x = start_contexts) -> digest_kept a digest ->
  exists d x', hash_block w a x digest data = Some (d, x') /\ digest_of a data = Some d /\ x_sha1 x' = SHA1_Init.
Proof.
  intros Hb Hl Hs Hw He Hx [Hlen Hk].
  assert (forall d, digest_of a data = Some d -> patch 0 (take (algo_size a) d) digest = d) as Hp.
  { intros d Hd. apply put_all; [done|by eapply digest_of_length]. }
  destruct a; cbn [hash_block per_block digest_of digest_kept] in *; try (destruct Hx as [|Hx]; [discriminate|]; subst x);
    cbn [start_contexts x_md5 x_sha256 x_sha384 x_sha512].
  - do 2 eexists. by rewrite mdfour_is_md4, Hp.
  - rewrite Hw by done. pose proof (digest_once (HD := md5_digest (replicate 64 0) eq_refl) data Hb ltac:(lia)) as E. cbv beta in E.
    destruct (MD5Final _ _) as [d c]. cbn [fst] in E. subst d. do 2 eexists. by rewrite Hp.
  - do 2 eexists. split; [|by split]. rewrite take_app_length' by (by rewrite be_bytes_length). by rewrite (patch_all (be_bytes 2 _)) by (rewrite be_bytes_length; done).
  - do 2 eexists. by rewrite Hp.
  - pose proof (digest_once (HD := sha1_digest) data Hb ltac:(lia)) as E. cbv beta in E. rewrite Hs.
    pose proof (SHA1_Final_init (SHA1_Update SHA1_Init data)) as Ei.
    destruct (SHA1_Final _) as [d c]. cbn [fst snd] in E, Ei. subst d. do 2 eexists. rewrite Hp by done. split; [done|split; [done|exact Ei]].
  - pose proof (digest_once (HD := sha256_digest) data Hb ltac:(lia)) as E. cbv beta in E. destruct (SHA256_Final _) as [d c]. cbn [fst] in E. subst d. do 2 eexists. by rewrite Hp.
  - pose proof (digest_once (HD := sha384_digest) data Hb ltac:(lia)) as E. cbv beta in E. destruct (SHA384_Final _) as [d c]. cbn [fst] in E. subst d. do 2 eexists. by rewrite Hp.
  - pose proof (digest_once (HD := sha512_digest) data Hb ltac:(lia)) as E. cbv beta in E. destruct (SHA512_Final _) as [d c]. cbn [fst] in E. subst d. do 2 eexists. by rewrite Hp.
  - do 2 eexists. by rewrite Hp.
  - do 2 eexists. by rewrite Hp.
  - do 2 eexists. split; [|by split]. do 2 f_equal. apply (put_front ALGO_XORPAIR (le_bytes 2 (hash_xorpair data) ++ [0; 0]) digest 2); [done|done|cbn; lia|by rewrite Hk].
  - destruct (hash_hamdist_total data) as [v E]. rewrite E in *. cbn [mbind option_bind]. do 2 eexists. split; [|by split]. by rewrite Hp.
  - done.
  - do 2 eexists. by rewrite Hp.
Qed.

(** ** The range, and the blocks of it *)
(** The range is inside the file, and as long as it says. *)
Theorem range_inside h h' : 0 <= from h -> 0 <= to h < 2^64 -> 0 < file_size h < 2^64 - 1 -> hash_range false h = Some h' ->
  from h' = from h /\ from h <= to h' <= file_size h /\ hlength h' = to h' - from h /\ file_size h' = file_size h /\ block_size h' = block_size h.
Proof.
  intros Hf Ht Hs. unfold hash_range. set (t := if hlength h =? 0 then _ else _).
  assert (0 <= t < 2^64) as Htt by (unfold t; destruct (_ =? _); [done|apply Z.mod_pos_bound; lia]). clearbody t.
  destruct (negb (from h =? 0) && (file_size h <? from h)) eqn:E1; [discriminate|].
  assert (from h <= file_size h) as Hle.
  { destruct (Z.eqb_spec (from h) 0); [lia|]. cbn in E1. apply Z.ltb_ge in E1. lia. }
  rewrite !(proj2 (Z.eqb_neq (file_size h) 0)) by lia.
  destruct (Z.eqb_spec t 0) as [->|Ht0].
  - clear E1. destruct (negb (from h =? 0) && (file_size h <=? from h)); [discriminate|]. intros E. injection E as <-. cbn [from to hlength file_size block_size]. unfold u64. rewrite Z.mod_small by lia. lia.
  - set (t' := if file_size h <? t then _ else _). assert (0 < t' <= file_size h) as Ht' by (unfold t'; destruct (Z.ltb_spec (file_size h) t); lia).
    destruct (negb (from h =? 0) && (t' <=? from h)) eqn:E2; [discriminate|]. intros E. injection E as <-. cbn [from to hlength file_size block_size].
    assert (from h <= t').
    { destruct (Z.eqb_spec (from h) 0); [lia|]. cbn in E2. apply Z.leb_gt in E2. lia. }
    unfold u64. rewrite Z.mod_small by lia. lia.
Qed.

(** [k] blocks of [bs] bytes, [m] of which are hashed, or as many as there are. *)
Fixpoint blocks (k m bs : nat) (l : list Z) : list (list Z) :=
  match k with O => [] | S k' => take m l :: blocks k' m bs (drop bs l) end.

Section blocks.
Context (w : Z) (a : ALGO) (h : header_t) (n : Z).
Context (Hw : a = ALGO_MD5 -> w = 32) (Ha : a <> ALGO_ENTROPY).
Context (Hfrom : from h = 0) (Hto : to h = n) (Hlen : hlength h = n) (Hbs : 0 < block_size h)
  (Hn : 0 <= n < 2^64 - 1) (Hwrap : n + block_size h < 2^64).
Notation bs := (Z.to_nat (block_size h)).

(** What the loop takes of the buffer. *)
Lemma block_bytes rest buffer : bytes rest -> rest <> [] -> (n < block_size h -> n <= Z.of_nat (length rest)) ->
  let data := take bs rest in
  let len := if negb (hlength h =? 2^64 - 1) && (hlength h <? block_size h) then Z.to_nat (hlength h) else length data in
  take len (drop (Z.to_nat (from h)) (patch 0 data buffer)) = take (Z.to_nat (Z.min (block_size h) n)) rest /\
  length (take (Z.to_nat (Z.min (block_size h) n)) rest) = len.
Proof.
  intros Hb Hr Hnr data len. rewrite Hfrom. change (Z.to_nat 0) with 0%nat. rewrite drop_0.
  unfold patch. rewrite take_0, app_nil_l. assert (length data = Nat.min bs (length rest)) as Hdl by apply length_take.
  unfold len. rewrite Hlen, (proj2 (Z.eqb_neq n (2^64 - 1))) by lia. cbn [negb andb].
  destruct (Z.ltb_spec n (block_size h)).
  - rewrite Z.min_r by lia. rewrite take_app_le by (rewrite Hdl; lia). unfold data. rewrite take_take, length_take.
    rewrite !Nat.min_l by lia. done.
  - rewrite Z.min_l by lia. by rewrite take_app_length.
Qed.

Lemma generate_blocks fuel k rest ptr buffer digest x :
  (length rest < fuel)%nat -> n - ptr <= Z.of_nat (length rest) -> (Z.of_nat k - 1) * block_size h < n - ptr \/ k = 0%nat ->
  n - ptr <= Z.of_nat k * block_size h -> (file_size h = 2^64 - 1 -> rest = []) -> (ptr = 0 \/ n <= ptr \/ block_size h <= n) -> 0 <= ptr ->
  bytes rest -> 8 * Z.min (Z.of_nat (length rest)) (block_size h) < 2^32 -> digest_kept a digest -> x_sha1 x = SHA1_Init ->
  (per_block a = true \/ (x = start_contexts /\ (k <= 1)%nat) \/ k = 0%nat) ->
  generate_loop w a h fuel rest ptr buffer digest x = mapM (digest_of a) (blocks k (Z.to_nat (Z.min (block_size h) n)) bs rest).
Proof.
  revert k rest ptr buffer digest x. induction fuel as [|fuel IH]; intros k rest ptr buffer digest x Hf Hr Hk1 Hk2 Hfs Hp Hp0 Hb Hsz Hd Hs Hx; [lia|].
  cbn [generate_loop]. rewrite Hto. destruct k as [|k].
  { rewrite (proj2 (Z.ltb_ge ptr n)), orb_false_r by lia. destruct (Z.eqb_spec (file_size h) (2^64 - 1)) as [E|]; [|done].
    rewrite (Hfs E), take_nil, decide_True by done. done. }
  assert (ptr < n) as Hpn by (destruct Hk1; nia). assert (rest <> []) as Hne by (intros ->; cbn in Hr; lia).
  rewrite (proj2 (Z.ltb_lt ptr n)), orb_true_r by lia.
  rewrite decide_False by (intros E; apply (f_equal length) in E; rewrite length_take in E; destruct rest; [done|cbn in E; lia]).
  destruct (block_bytes rest buffer Hb Hne ltac:(lia)) as [E1 E2]. cbv zeta in E1, E2. cbn [blocks mapM].
  rewrite E1, decide_True by exact E2.
  set (data := take (Z.to_nat (Z.min (block_size h) n)) rest) in *.
  destruct (hash_block_digest w a x digest data) as (d & x' & -> & Hdg & Hs');
    [by apply Forall_take|unfold data; rewrite length_take; lia|done..|destruct Hx as [|[[? _]|]]; [by left|by right|done]|done|].
  rewrite Hdg. cbn [mbind option_bind].
  assert (u64 (ptr + block_size h) = ptr + block_size h) as -> by (apply Z.mod_small; lia).
  rewrite (IH k); [done|rewrite length_drop; destruct rest; [done|cbn [length] in *; lia]|rewrite length_drop; lia| |lia| |lia|lia| |rewrite length_drop; lia|by eapply digest_kept_of|done|].
  - destruct k; [by right|left; lia].
  - intros E. by rewrite (Hfs E), drop_nil.
  - by apply Forall_drop.
  - destruct Hx as [|[[_ ?]|]]; [by left|right; right; lia|done].
Qed.
End blocks.

(** What the header becomes when the range begins at 0: it ends at [n]. *)
Lemma range_from_start N t l bs : 0 <= N < 2^64 - 1 -> 0 <= t < 2^64 -> 0 <= l < 2^64 ->
  let e := if l =? 0 then t else l in let n := if e =? 0 then N else Z.min e N in
  hash_range false (Header N 0 t l bs) = Some (Header (if N =? 0 then 2^64 - 1 else N) 0 n n bs).
Proof.
  intros HN Ht Hl e n. unfold hash_range. cbn [hlength from to file_size block_size Z.eqb negb andb].
  rewrite Z.add_0_l, Z.sub_0_r. assert (u64 l = l) as -> by (apply Z.mod_small; lia). fold e.
  assert (u64 N = N) as -> by (apply Z.mod_small; lia). assert (0 <= e < 2^64) as He by (unfold e; destruct (l =? 0); lia).
  unfold n. destruct (e =? 0); [done|]. rewrite Z.sub_0_r.
  assert (e `min` N = if N <? e then N else e) as <- by (destruct (Z.ltb_spec N e); lia).
  by assert (u64 (e `min` N) = e `min` N) as -> by (apply Z.mod_small; lia).
Qed.

(** C6: [rahash] of a file of less than 4 gigabytes in blocks of less than 512 megabytes, with a hash file or without,
    for every algorithm but the entropy ([entropy_is_not_stored]) and whatever [-E] or [-L] say, when the range begins
    at 0 ([from_is_not_sought]): the digests it writes are, in turn, those of the blocks that begin before the end of
    the range -- all of a block, even where the range ends inside it ([last_block_whole]), or the range when it is
    shorter than a block. MD5 is computed where a long has 32 bits ([Digest.md5_of_long]); it and SHA-2, whose context
    is not set up again ([second_block_md5], [second_block_sha256]), when the range is one block. *)
Theorem rahash_digests w a dst t l bs file buffer : let N := Z.of_nat (length file) in
  let e := if l =? 0 then t else l in let n := if e =? 0 then N else Z.min e N in
  a <> ALGO_ENTROPY -> (a = ALGO_MD5 -> w = 32) -> (per_block a = true \/ n <= bs) ->
  0 <= t < 2^64 -> 0 <= l < 2^64 -> 0 < bs < 2^32 -> bytes file -> N < 2^32 -> 8 * Z.min N bs < 2^32 ->
  radare_hash_generate w a dst (Header N 0 t l bs) file buffer =
    mapM (digest_of a) (blocks (Z.to_nat ((n + bs - 1) / bs)) (Z.to_nat (Z.min bs n)) (Z.to_nat bs) file).
Proof.
  intros N e n Ha Hw Hx Ht Hl Hbs Hb HN Hsz. unfold radare_hash_generate. rewrite range_from_start by lia. fold e n. cbn [mbind option_bind].
  assert (0 <= e) as He by (unfold e; destruct (l =? 0); lia). clearbody e.
  assert (0 <= n <= N) as Hn by (unfold n; destruct (e =? 0); lia). clearbody n.
  set (fs := if N =? 0 then _ else N).
  assert (exists fs', (if dst then endian_and_back (Header fs 0 n n bs) else Header fs 0 n n bs) = Header fs' 0 n n bs /\ (fs' = 2^64 - 1 -> file = [])) as (fs' & -> & Hfs).
  { assert (fs = 2^64 - 1 -> file = []) as Hfs.
    { unfold fs. destruct (Z.eqb_spec N 0); [|lia]. intros _. apply nil_length_inv. lia. }
    destruct dst; [|by eexists]. unfold endian_and_back. cbn [hlength from to file_size block_size]. unfold u32.
    rewrite (Z.mod_small n), (Z.mod_small bs) by lia. eexists. split; [done|]. intros E. pose proof (Z.mod_pos_bound fs (2^32)). lia. }
  pose proof (Z.div_mod (n + bs - 1) bs ltac:(lia)) as Hdm. pose proof (Z.mod_pos_bound (n + bs - 1) bs ltac:(lia)) as Hmb.
  assert (0 <= (n + bs - 1) / bs) as Hq by (apply Z.div_pos; lia).
  unfold generate. apply (generate_blocks w a (Header fs' 0 n n bs) n); cbn [hlength from to file_size block_size]; try done; try lia.
  - apply digest_kept_start.
  - destruct Hx as [|Hx]; [by left|right; left; split; [done|]]. nia.
Qed.
Lemma rahash_digests_witness :
  radare_hash_generate 32 ALGO_MD5 true (Header 3 0 0 2 4) [97; 98; 99] [0; 0; 0; 0] = Some [md5_reference [97; 98]].
Proof.
  refine (rahash_digests 32 ALGO_MD5 true 0 2 4 [97; 98; 99] [0; 0; 0; 0] _ _ _ _ _ _ _ _ _);
    [done|done|right; cbn; lia|lia|lia|lia|repeat constructor; lia|cbn; lia|cbn; lia].
Defined.

(** The range ends inside the second block, all of which is hashed. *)
Example last_block_whole : radare_hash_generate 64 ALGO_XOR false (Header 6 0 3 0 2) [1; 2; 4; 8; 16; 32] [0; 0] = Some [[3]; [12]].
Proof. by vm_compute. Qed.

(** The second block of a file has not its MD5 digest, nor its SHA-256 digest. *)
Example second_block_md5 : radare_hash_generate 32 ALGO_MD5 false (Header 3 0 0 0 2) [97; 98; 99] [0; 0] <> Some [md5_reference [97; 98]; md5_reference [99]].
Proof. by vm_compute. Qed.
Example second_block_sha256 :
  radare_hash_generate 32 ALGO_SHA256 false (Header 3 0 0 0 2) [97; 98; 99] [0; 0] <> Some [sha256_reference [97; 98]; sha256_reference [99]].
Proof. by vm_compute. Qed.
(** With [-S 1] the file is read from its start all the same, and what is taken begins one byte later in the buffer.  When
    a block holds the file that is the range; when it does not, the last byte is the one behind what was read. *)
Example from_is_not_sought :
  radare_hash_generate 32 ALGO_XOR false (Header 3 1 0 0 4) [1; 2; 4] [0; 0; 0; 8] = Some [[6]] /\
  radare_hash_generate 32 ALGO_XOR false (Header 3 1 0 0 2) [1; 2; 4] [0; 0; 8; 8] = Some [[10]] /\
  radare_hash_generate 32 ALGO_XOR false (Header 3 1 0 0 2) [1; 2; 4] [0; 0] = None.
Proof. by vm_compute. Qed.
(** The digest of an entropy is never written. *)
Example entropy_is_not_stored : radare_hash_generate 32 ALGO_ENTROPY false (Header 2 0 0 0 2) [1; 2] [0; 0] = Some [[0; 0; 0; 0]].
Proof. by vm_compute. Qed.
(** The whole file in one block. *)
Example whole_sha256 : let h := whole (Header 0 0 0 0 32768) [97; 98; 99] in
  radare_hash_generate 32 ALGO_SHA256 false h [97; 98; 99] [0; 0; 0] = Some [sha256_reference [97; 98; 99]].
Proof. by vm_compute. Qed.
