(* ===== verification/Search.v ===== *)
(** * Searches: [src/search.c] and [src/aes-find.c]

    The list of keywords a search is for, what a hit of the token searcher is worth, searching and replacing, the
    comparison of blocks and the search for keys of AES. *)
From S2P Require Import Prelude Binparse.
#[local] Open Scope Z_scope.

(** ** The keywords of [/r 0,2-10] *)

(** The numbers from [num] to [num2]. *)
Definition span (num num2 : Z) : list Z := (fun k => num + Z.of_nat k) <$> seq 0 (Z.to_nat (num2 - num + 1)).

(** The end of a number [str]: the keywords that are added, or a syntax error.  No result: the loop to the greatest
    integer does not end. *)
Definition range_number (str : string) (num : Z) (f0 : bool) : option (option (list Z)) :=
  let num2 := atoi str in
  if f0 then if num =? -1 then Some None else if num2 =? 2^31 - 1 then None else Some (Some (span num num2))
  else Some (Some [num2]).

(** The loop of [search_range] over the text: [str] has 128 bytes. *)
Fixpoint range_loop (range str : string) (num : Z) (f0 : bool) : option (list Z) :=
  match range with
  | EmptyString => Some []
  | String c rest =>
    let str := str +:+ String c "" in
    if (127 <? String.length str)%nat then None
    else
      match rest with
      | EmptyString => r ← range_number str num f0; Some (default [] r)
      | String d rest' =>
        if Ascii.eqb d "-" then range_loop rest' "" (atoi str) true
        else if Ascii.eqb d "," then
          r ← range_number str num f0;
          match r with
          | Some l => l' ← range_loop rest' "" num false; Some (l ++ l')%list
          | None => range_loop rest str num false
          end
        else range_loop rest str num f0
      end
  end.
Definition search_keywords (range : string) : option (list Z) := range_loop range "" (-1) false.

(** ** A hit *)

(** [search.align] and [cfg.count]: the answer 1 is no hit; the answer 0 counts one. *)
Definition radare_tsearch_callback (align count nhit where_ : Z) : Z * Z :=
  if negb (align =? 0) && negb (where_ mod (align mod 2^64) =? 0) then (1, nhit)
  else if negb (count =? 0) && (count <=? nhit) then (1, nhit)
  else (0, nhit + 1).

(** The number of the hit [/n] goes to, and the next one: [found] tells if there is a flag of that number. *)
Definition radare_search_seek_hit (found : Z -> bool) (idx hit_idx : Z) : option Z * Z :=
  let '(goto, h) := if found hit_idx then (Some hit_idx, hit_idx) else (None, if 0 <? idx then hit_idx - idx else hit_idx) in
  let h := h + idx in (goto, if h <? 1 then 1 else h).

(** ** Searching and replacing *)

(** What [cmd.hit] is while the search runs, and the search; the first separator of the first kind there is.  The texts fit
    in the buffers of 1024 bytes. *)
Definition radare_search_replace (input : string) (hex : bool) : option (string * string) :=
  let cut c := (fun p => (String.substring 0 (String.length input - String.length p) input, str_drop 1 p)) <$> strchr input c in
  let at_ := match cut "," with
             | Some x => Some x
             | None => match cut "/" with
                       | Some x => Some x
                       | None => match cut " " with Some x => Some x | None => cut "=" end
                       end
             end%char in
  (fun x => if hex then ("wx " +:+ x.2, "/x " +:+ x.1) else ("w " +:+ x.2, "/ " +:+ x.1)) <$> at_.

(** ** Similar blocks *)
Fixpoint memcmpdiff (a b : list Z) : Z :=
  match a, b with
  | x :: a', y :: b' => (if x =? y then 0 else 1) + memcmpdiff a' b'
  | _, _ => 0
  end.

(** [block] is the block to compare with and [at_] reads one; the seeks that are printed, with the equal bytes. *)
Fixpoint similar_loop (fuel : nat) (at_ : Z -> list Z) (block : list Z) (size seek count : Z) : list (Z * Z) :=
  match fuel with
  | O => []
  | S fuel' =>
    if size <=? seek then []
    else
      let bs := Z.of_nat (length block) in
      let b := at_ seek in
      let equal := bs - memcmpdiff (b ++ replicate (length block - length b) 255) block in
      if count <=? equal then (seek, equal) :: similar_loop fuel' at_ block size (seek + bs) count
      else if Z.of_nat (length (at_ (seek + 1))) <? bs then []
      else similar_loop fuel' at_ block size (seek + 1) count
  end.

(** ** Keys of AES *)
Definition table_sbox : list Z :=
  [0x63; 0x7C; 0x77; 0x7B; 0xF2; 0x6B; 0x6F; 0xC5; 0x30; 0x01; 0x67; 0x2B; 0xFE; 0xD7; 0xAB; 0x76;
   0xCA; 0x82; 0xC9; 0x7D; 0xFA; 0x59; 0x47; 0xF0; 0xAD; 0xD4; 0xA2; 0xAF; 0x9C; 0xA4; 0x72; 0xC0;
   0xB7; 0xFD; 0x93; 0x26; 0x36; 0x3F; 0xF7; 0xCC; 0x34; 0xA5; 0xE5; 0xF1; 0x71; 0xD8; 0x31; 0x15;
   0x04; 0xC7; 0x23; 0xC3; 0x18; 0x96; 0x05; 0x9A; 0x07; 0x12; 0x80; 0xE2; 0xEB; 0x27; 0xB2; 0x75;
   0x09; 0x83; 0x2C; 0x1A; 0x1B; 0x6E; 0x5A; 0xA0; 0x52; 0x3B; 0xD6; 0xB3; 0x29; 0xE3; 0x2F; 0x84;
   0x53; 0xD1; 0x00; 0xED; 0x20; 0xFC; 0xB1; 0x5B; 0x6A; 0xCB; 0xBE; 0x39; 0x4A; 0x4C; 0x58; 0xCF;
   0xD0; 0xEF; 0xAA; 0xFB; 0x43; 0x4D; 0x33; 0x85; 0x45; 0xF9; 0x02; 0x7F; 0x50; 0x3C; 0x9F; 0xA8;
   0x51; 0xA3; 0x40; 0x8F; 0x92; 0x9D; 0x38; 0xF5; 0xBC; 0xB6; 0xDA; 0x21; 0x10; 0xFF; 0xF3; 0xD2;
   0xCD; 0x0C; 0x13; 0xEC; 0x5F; 0x97; 0x44; 0x17; 0xC4; 0xA7; 0x7E; 0x3D; 0x64; 0x5D; 0x19; 0x73;
   0x60; 0x81; 0x4F; 0xDC; 0x22; 0x2A; 0x90; 0x88; 0x46; 0xEE; 0xB8; 0x14; 0xDE; 0x5E; 0x0B; 0xDB;
   0xE0; 0x32; 0x3A; 0x0A; 0x49; 0x06; 0x24; 0x5C; 0xC2; 0xD3; 0xAC; 0x62; 0x91; 0x95; 0xE4; 0x79;
   0xE7; 0xC8; 0x37; 0x6D; 0x8D; 0xD5; 0x4E; 0xA9; 0x6C; 0x56; 0xF4; 0xEA; 0x65; 0x7A; 0xAE; 0x08;
   0xBA; 0x78; 0x25; 0x2E; 0x1C; 0xA6; 0xB4; 0xC6; 0xE8; 0xDD; 0x74; 0x1F; 0x4B; 0xBD; 0x8B; 0x8A;
   0x70; 0x3E; 0xB5; 0x66; 0x48; 0x03; 0xF6; 0x0E; 0x61; 0x35; 0x57; 0xB9; 0x86; 0xC1; 0x1D; 0x9E;
   0xE1; 0xF8; 0x98; 0x11; 0x69; 0xD9; 0x8E; 0x94; 0x9B; 0x1E; 0x87; 0xE9; 0xCE; 0x55; 0x28; 0xDF;
   0x8C; 0xA1; 0x89; 0x0D; 0xBF; 0xE6; 0x42; 0x68; 0x41; 0x99; 0x2D; 0x0F; 0xB0; 0x54; 0xBB; 0x16].
Definition sbox (b : Z) : Z := nth (Z.to_nat b) table_sbox 0.
Definition aes_key_test (buf : list Z) : bool :=
  let at_ i := nth i buf 0 in
  (at_ 28%nat =? sbox (at_ 15%nat)) && (at_ 29%nat =? sbox (at_ 12%nat)) && (at_ 30%nat =? sbox (at_ 13%nat)) &&
  (at_ 31%nat =? Z.lxor (sbox (at_ 14%nat)) 1).

(** ** What the text of the keywords means *)
Inductive keywords := One (n : Z) | Span (a b : Z).
Definition show_keywords (k : keywords) : string := match k with One n => fmt_d n | Span a b => fmt_d a +:+ "-" +:+ fmt_d b end.
Definition meant (k : keywords) : list Z := match k with One n => [n] | Span a b => span a b end.
Definition small (k : keywords) : Prop := match k with One n => 0 <= n < 2^31 - 1 | Span a b => 0 <= a < 2^31 - 1 /\ 0 <= b < 2^31 - 1 end.
Fixpoint show_list (l : list keywords) : string :=
  match l with [] => "" | [k] => show_keywords k | k :: l' => show_keywords k +:+ "," +:+ show_list l' end.

Lemma isdigit_digit d : 0 <= d < 10 -> isdigit (digit d) = true.
Proof. intros Hd. assert (d = 0 \/ d = 1 \/ d = 2 \/ d = 3 \/ d = 4 \/ d = 5 \/ d = 6 \/ d = 7 \/ d = 8 \/ d = 9) as H by lia. by repeat destruct H as [->|H]; [..|subst]. Qed.
Lemma ord_digit d : 0 <= d < 10 -> ord (digit d) - 48 = d.
Proof. intros Hd. assert (d = 0 \/ d = 1 \/ d = 2 \/ d = 3 \/ d = 4 \/ d = 5 \/ d = 6 \/ d = 7 \/ d = 8 \/ d = 9) as H by lia. by repeat destruct H as [->|H]; [..|subst]. Qed.

Lemma atoi_digits_digits fuel z s : 0 <= z < 10 ^ Z.of_nat fuel -> atoi_digits 0 (digits 10 fuel z s) = atoi_digits z s.
Proof.
  revert z s. induction fuel as [|fuel IH]; intros z s Hz; cbn [digits]; [f_equal; change (10 ^ Z.of_nat 0) with 1 in Hz; lia|].
  pose proof (Z.mod_pos_bound z 10 ltac:(lia)) as Hm. rewrite Nat2Z.inj_succ, Z.pow_succ_r in Hz by lia.
  destruct (Z.ltb_spec z 10).
  - cbn [atoi_digits]. rewrite isdigit_digit, ord_digit by lia. rewrite Z.mod_small by lia. f_equal.
  - rewrite IH by (split; [apply Z.div_pos; lia|apply Z.div_lt_upper_bound; lia]). cbn [atoi_digits]. rewrite isdigit_digit, ord_digit by lia.
    f_equal. symmetry. apply Z.div_mod. lia.
Qed.
Lemma fmt_d_digits n : 0 <= n -> all_chars isdigit (fmt_d n) = true /\ fmt_d n <> ""%string /\ (String.length (fmt_d n) <= 64)%nat.
Proof.
  intros Hn. unfold fmt_d. rewrite (proj2 (Z.ltb_ge _ _)) by lia. split_and!.
  - apply digits_chars; [lia|exact isdigit_digit|done].
  - destruct (digits_cons 10 63 n "") as (c & s & E). rewrite E. discriminate.
  - pose proof (length_digits 10 64 n ""). cbn [String.length] in *. lia.
Qed.
Lemma atoi_fmt_d n : 0 <= n < 2^31 -> atoi (fmt_d n) = n.
Proof.
  intros Hn. destruct (fmt_d_digits n ltac:(lia)) as (Hd & Hne & _). unfold fmt_d in *. rewrite (proj2 (Z.ltb_ge n 0)) in * by lia.
  pose proof (atoi_digits_digits 64 n "" ltac:(change (10 ^ Z.of_nat 64) with (10^64); lia)) as E.
  destruct (digits 10 64 n "") as [|c s] eqn:Es; [done|]. cbn [all_chars] in Hd. apply andb_prop in Hd as [Hc _].
  assert (isspace c = false /\ Ascii.eqb c "-" = false /\ Ascii.eqb c "+" = false) as (H1 & H2 & H3).
  { pose proof Hc as Hc'. unfold isdigit in Hc'. apply andb_prop in Hc' as [Hc1 Hc2]. apply Z.leb_le in Hc1, Hc2. split_and!.
    - unfold isspace. apply orb_false_iff. split; [apply Z.eqb_neq; lia|]. apply andb_false_iff. right. apply Z.leb_gt. lia.
    - apply Ascii.eqb_neq. by intros ->.
    - apply Ascii.eqb_neq. by intros ->. }
  unfold atoi. cbn [skip_spaces]. rewrite H1, H2, H3, E. cbn [atoi_digits]. unfold s32. rewrite Z.mod_small by lia. lia.
Qed.

(** What the loop does when a number ends. *)
Definition range_stop (str rest : string) (num : Z) (f0 : bool) : option (list Z) :=
  match rest with
  | EmptyString => r ← range_number str num f0; Some (default [] r)
  | String d rest' =>
    if Ascii.eqb d "-" then range_loop rest' "" (atoi str) true
    else
      r ← range_number str num f0;
      match r with
      | Some l => l' ← range_loop rest' "" num false; Some (l ++ l')%list
      | None => range_loop rest str num false
      end
  end.
Definition ends_number (rest : string) : Prop := match rest with EmptyString => True | String d _ => d = "-"%char \/ d = ","%char end.

Lemma range_loop_number s str rest num f0 : all_chars isdigit s = true -> s <> ""%string -> ends_number rest ->
  (String.length str + String.length s <= 127)%nat -> range_loop (s +:+ rest) str num f0 = range_stop (str +:+ s) rest num f0.
Proof.
  revert str. induction s as [|c s IH]; intros str Hd Hne Hr Hl; [done|]. cbn [all_chars] in Hd. apply andb_prop in Hd as [Hc Hd].
  cbn [String.append range_loop]. rewrite str_length_app. cbn [String.length] in Hl |- *. rewrite (proj2 (Nat.ltb_ge _ _)) by lia.
  destruct s as [|c' s].
  - cbn [String.append]. destruct rest as [|d rest]; [done|]. cbn [range_stop]. destruct Hr as [->| ->]; done.
  - cbn [String.append]. pose proof Hd as Hc'. cbn [all_chars] in Hc'. apply andb_prop in Hc' as [Hc' _].
    assert (Ascii.eqb c' "-" = false) as -> by (apply Ascii.eqb_neq; by intros ->).
    assert (Ascii.eqb c' "," = false) as -> by (apply Ascii.eqb_neq; by intros ->).
    change (String c' (s +:+ rest)) with (String c' s +:+ rest). rewrite IH; [|done|done|done|rewrite str_length_app; cbn [String.length] in *; lia].
    by rewrite append_assoc.
Qed.

Lemma range_loop_keywords k rest num : small k -> rest = ""%string \/ (exists r, rest = String "," r) ->
  exists num', range_loop (show_keywords k +:+ rest) "" num false =
    match rest with EmptyString => Some (meant k) | String _ r => l ← range_loop r "" num' false; Some (meant k ++ l)%list end.
Proof.
  intros Hk Hr. assert (ends_number rest) as He by (destruct Hr as [->|[r ->]]; cbn; auto). destruct k as [n|a b]; cbn [show_keywords meant small] in *.
  - destruct (fmt_d_digits n ltac:(lia)) as (Hd & Hne & Hl). exists num. rewrite range_loop_number by (done || cbn; lia). cbn [String.append].
    unfold range_stop, range_number. rewrite atoi_fmt_d by lia. destruct Hr as [->|[r ->]]; done.
  - destruct Hk as [Ha Hb]. destruct (fmt_d_digits a ltac:(lia)) as (Hd & Hne & Hl). destruct (fmt_d_digits b ltac:(lia)) as (Hd' & Hne' & Hl').
    exists a. rewrite append_assoc. rewrite range_loop_number by (done || (by left) || (cbn; lia)). cbn [String.append range_stop]. cbn [Ascii.eqb Bool.eqb].
    rewrite atoi_fmt_d by lia. rewrite range_loop_number by (done || cbn; lia). cbn [String.append]. unfold range_stop, range_number.
    rewrite atoi_fmt_d by lia. rewrite (proj2 (Z.eqb_neq a (-1))), (proj2 (Z.eqb_neq b (2^31 - 1))) by lia. destruct Hr as [->|[r ->]]; done.
Qed.

(** The text of numbers and spans stands for their keywords, in order. *)
Theorem keywords_meant l : l <> [] -> Forall small l -> search_keywords (show_list l) = Some (concat (meant <$> l)).
Proof.
  unfold search_keywords. generalize (-1). intros num Hne Hl. revert num. induction Hl as [|k l Hk Hl IH]; intros num; [done|].
  destruct l as [|k' l].
  - destruct (range_loop_keywords k "" num Hk) as [num' E]; [by left|]. rewrite append_empty in E. cbn [show_list]. rewrite E. cbn. by rewrite app_nil_r.
  - change (show_list (k :: k' :: l)) with (show_keywords k +:+ (String "," (show_list (k' :: l)))).
    destruct (range_loop_keywords k (String "," (show_list (k' :: l))) num Hk) as [num' E]; [right; by eexists|]. rewrite E, IH by done. done.
Qed.
Example keywords_of_help : search_keywords "0,2-10" = Some [0; 2; 3; 4; 5; 6; 7; 8; 9; 10].
Proof. by vm_compute. Qed.

(** ** Hits *)
Fixpoint hits_of (align count nhit : Z) (l : list Z) : list Z * Z :=
  match l with
  | [] => ([], nhit)
  | w :: l' =>
    let '(r, nhit) := radare_tsearch_callback align count nhit w in
    let '(hs, n) := hits_of align count nhit l' in ((if r =? 0 then w :: hs else hs), n)
  end.
(** The hits that count are the first aligned ones, as many as are asked for. *)
Theorem hits_first_aligned align count nhit l : 0 <= nhit -> 0 <= count -> (count = 0 \/ nhit <= count) ->
  (hits_of align count nhit l).1 =
    let aligned := filter (fun w => align = 0 \/ w mod (align mod 2^64) = 0) l in if count =? 0 then aligned else take (Z.to_nat (count - nhit)) aligned.
Proof.
  intros Hn Hc. revert nhit Hn. induction l as [|w l IH]; intros nhit Hn Hnc; [cbv zeta; rewrite filter_nil, take_nil; by destruct (count =? 0)|].
  cbn [hits_of]. unfold radare_tsearch_callback. rewrite filter_cons.
  destruct (Z.eqb_spec align 0) as [Ea|Ea]; cbn [negb andb].
  1: rewrite decide_True by (by left).
  2: destruct (Z.eqb_spec (w mod (align mod 2^64)) 0) as [Em|Em]; cbn [negb].
  2: rewrite decide_True by (by right).
  3: { rewrite decide_False by (intros [|]; done). specialize (IH nhit Hn Hnc). by destruct (hits_of align count nhit l). }
  all: destruct (Z.eqb_spec count 0) as [Ec|Ec]; cbn [negb andb].
  all: try (specialize (IH (nhit + 1) ltac:(lia) ltac:(lia)); destruct (hits_of align count (nhit + 1) l); cbn [fst] in *; by rewrite IH).
  all: destruct (Z.leb_spec count nhit).
  all: try (specialize (IH nhit Hn Hnc); destruct (hits_of align count nhit l); cbn [fst] in *; rewrite IH;
    by replace (Z.to_nat (count - nhit)) with 0%nat by lia).
  all: specialize (IH (nhit + 1) ltac:(lia) ltac:(lia)); destruct (hits_of align count (nhit + 1) l); cbn [fst] in *; rewrite IH;
    by replace (Z.to_nat (count - nhit)) with (S (Z.to_nat (count - (nhit + 1)))) by lia.
Qed.

(** ** Blocks *)
Lemma memcmpdiff_bounds a b : 0 <= memcmpdiff a b <= Z.of_nat (length a).
Proof. revert b. induction a as [|x a IH]; intros [|y b]; cbn [memcmpdiff length]; try lia. specialize (IH b). destruct (x =? y); lia. Qed.
Lemma memcmpdiff_zero a b : length a = length b -> memcmpdiff a b = 0 <-> a = b.
Proof.
  revert b. induction a as [|x a IH]; intros [|y b] Hl; cbn [memcmpdiff]; try done. cbn in Hl. pose proof (memcmpdiff_bounds a b).
  destruct (Z.eqb_spec x y) as [->|]; [rewrite Z.add_0_l, IH by lia; split; [by intros ->|by intros [= ->]]|]. split; [lia|by intros [= ->]].
Qed.
(** Every place that is printed has as many equal bytes as it says, and enough of them. *)
Lemma similar_sound fuel at_ block size seek count s e : (s, e) ∈ similar_loop fuel at_ block size seek count ->
  seek <= s < size /\ count <= e /\ e = Z.of_nat (length block) - memcmpdiff (at_ s ++ replicate (length block - length (at_ s)) 255) block.
Proof.
  revert seek. induction fuel as [|fuel IH]; intros seek; cbn [similar_loop]; [by intros ?%elem_of_nil|].
  destruct (Z.leb_spec size seek); [by intros ?%elem_of_nil|]. destruct (Z.leb_spec count (Z.of_nat (length block) - memcmpdiff (at_ seek ++ replicate (length block - length (at_ seek)) 255) block)).
  - intros [[= -> ->]|Hs]%elem_of_cons; [split_and!; [lia|lia|done|done]|]. specialize (IH _ Hs). destruct IH as (? & ? & ?). split_and!; [lia|lia|done|done].
  - destruct (_ <? _); [by intros ?%elem_of_nil|]. intros Hs. specialize (IH _ Hs). destruct IH as (? & ? & ?). split_and!; [lia|lia|done|done].
Qed.

(** ** Keys of AES *)

(** The first eight words of the schedule of a key of 128 bits, in the memory of a host that stores the lowest byte first. *)
Definition aes_f (w : list Z) : list Z := [sbox (nth 3 w 0); sbox (nth 0 w 0); sbox (nth 1 w 0); Z.lxor (sbox (nth 2 w 0)) 1].
Definition xor_words : list Z -> list Z -> list Z := zip_with Z.lxor.
Definition aes_schedule (w0 w1 w2 w3 : list Z) : list Z :=
  let w4 := xor_words w0 (aes_f w3) in let w5 := xor_words w1 w4 in let w6 := xor_words w2 w5 in let w7 := xor_words w3 w6 in
  w0 ++ w1 ++ w2 ++ w3 ++ w4 ++ w5 ++ w6 ++ w7.

Lemma xor_eqb k0 k4 k8 k12 s : (Z.lxor k12 (Z.lxor k8 (Z.lxor k4 (Z.lxor k0 s))) =? s) = (Z.lxor (Z.lxor k0 k4) (Z.lxor k8 k12) =? 0).
Proof.
  replace (Z.lxor k12 (Z.lxor k8 (Z.lxor k4 (Z.lxor k0 s)))) with (Z.lxor (Z.lxor (Z.lxor k0 k4) (Z.lxor k8 k12)) s).
  - set (x := Z.lxor (Z.lxor k0 k4) _). apply eq_bool_prop_intro. rewrite !Is_true_true, !Z.eqb_eq. split; [|by intros ->].
    intros E. pose proof (Z.lxor_assoc x s s) as A. rewrite Z.lxor_nilpotent, Z.lxor_0_r, E in A. by rewrite <-A, Z.lxor_nilpotent.
  - apply Z.bits_inj'. intros n _. rewrite !Z.lxor_spec. by destruct (Z.testbit k0 n), (Z.testbit k4 n), (Z.testbit k8 n), (Z.testbit k12 n), (Z.testbit s n).
Qed.
(** A key that is expanded is found exactly when its four words cancel each other out. *)
Theorem aes_key_found k0 k1 k2 k3 k4 k5 k6 k7 k8 k9 k10 k11 k12 k13 k14 k15 :
  aes_key_test (aes_schedule [k0; k1; k2; k3] [k4; k5; k6; k7] [k8; k9; k10; k11] [k12; k13; k14; k15]) = true <->
  xor_words (xor_words [k0; k1; k2; k3] [k4; k5; k6; k7]) (xor_words [k8; k9; k10; k11] [k12; k13; k14; k15]) = [0; 0; 0; 0].
Proof.
  unfold aes_key_test, aes_schedule, xor_words, aes_f. cbn [zip_with nth app]. rewrite !xor_eqb, !andb_true_iff, !Z.eqb_eq.
  split; [by intros [[[-> ->] ->] ->]|by intros [= -> -> -> ->]].
Qed.
(** The key of the standard's example is not found. *)
Example aes_key_missed :
  aes_key_test (aes_schedule [0x16; 0x15; 0x7e; 0x2b] [0xa6; 0xd2; 0xae; 0x28] [0x88; 0x15; 0xf7; 0xab] [0x3c; 0x4f; 0xcf; 0x09]) = false /\
  drop 16 (take 20 (aes_schedule [0x16; 0x15; 0x7e; 0x2b] [0xa6; 0xd2; 0xae; 0x28] [0x88; 0x15; 0xf7; 0xab] [0x3c; 0x4f; 0xcf; 0x09]))
    = [0x17; 0xfe; 0xfa; 0xa0].
Proof. by vm_compute. Qed.

Lemma keywords_meant_witness : Forall small [One 0; Span 2 4] /\ search_keywords "0,2-4" = Some [0; 2; 3; 4].
Proof. split; [repeat constructor; lia|]. apply (keywords_meant [One 0; Span 2 4]); [done|repeat constructor; lia]. Defined.
Lemma hits_first_aligned_witness : (hits_of 4 1 0 [1; 8; 12]).1 = [8].
Proof. apply (hits_first_aligned 4 1 0 [1; 8; 12]); [lia|lia|right; lia]. Defined.

(** With a separator in the text it is taken for the one between the two. *)
Example replace_comma : radare_search_replace "a b,c" false = Some ("w c", "/ a b")%string.
Proof. by vm_compute. Qed.
(** No hit of that number: the number goes on all the same, backwards. *)
Example seek_hit_missing : radare_search_seek_hit (fun h => h <? 3) (-1) 3 = (None, 2) /\ radare_search_seek_hit (fun h => h <? 3) 1 3 = (None, 3).
Proof. by vm_compute. Qed.

(** A hit that counts makes the searcher leave its loop before the keyword starts over: the next byte meets the token behind
    the last one of the keyword. *)
Example hit_then_behind :
  tokenize false (Some (fun _ w => negb ((radare_tsearch_callback 0 0 0 w).1 =? 0))) [keyword "ab" [97; 98]] [97; 98; 99] 0 = None /\
  exists t, tokenize false (Some (fun _ w => negb ((radare_tsearch_callback 0 0 0 w).1 =? 0))) [keyword "ab" [97; 98]] [97; 98] 0 = Some (t, [(0%nat, 0)]).
Proof. split; [by vm_compute|]. by eexists. Qed.
