(* ===== verification/Rdbdiff.v ===== *)
(** * Differences of programs: [src/radiff/rdbdiff.c]

    Blocks of two programs are paired by their checksums and then by their names, and what is paired is marked; the lists
    are walked from their ends. *)
From S2P Require Import Prelude Rdb.
#[local] Open Scope Z_scope.

(** One block against the others: it is not looked at again whether it is marked by now, so it can meet several. *)
Fixpoint diff_inner (cond : block_t -> block_t -> bool) (b0 : block_t) (lb : list block_t) : list block_t * list (block_t * block_t) :=
  match lb with
  | [] => ([], [])
  | b1 :: lb' =>
    let '(l, ps) := diff_inner cond b0 lb' in
    if negb (b_ignored b1) && cond b0 b1 then (set_ignored true b1 :: l, (b0, b1) :: ps) else (b1 :: l, ps)
  end.
Fixpoint diff_pass (cond : block_t -> block_t -> bool) (la lb : list block_t) : list block_t * list block_t * list (block_t * block_t) :=
  match la with
  | [] => ([], lb, [])
  | b0 :: la' =>
    if b_ignored b0 then let '(la', lb, ps) := diff_pass cond la' lb in (b0 :: la', lb, ps)
    else
      let '(lb, ps) := diff_inner cond b0 lb in
      let '(la', lb, ps') := diff_pass cond la' lb in
      ((match ps with [] => b0 | _ => set_ignored true b0 end) :: la', lb, (ps ++ ps')%list)
  end.

Definition same_checksum (b0 b1 : block_t) : bool := negb (b_checksum b1 =? 0) && (b_checksum b0 =? b_checksum b1).
Definition same_name (b0 b1 : block_t) : bool :=
  match b_name b0, b_name b1 with Some n0, Some n1 => negb (b_checksum b1 =? 0) && String.eqb n0 n1 | _, _ => false end.

(** What is printed of two blocks with one name. *)
Inductive difference := Framesize (x y : Z) | Length (x y : Z) | Byte (i : nat) (x y : Z).
Definition rdb_diff_block (a b : block_t) : list difference :=
  (if b_framesize a =? b_framesize b then [] else [Framesize (b_framesize a) (b_framesize b)]) ++
  (if negb (b_n a =? b_n b) then [Length (b_n a) (b_n b)]
   else omap (fun '(i, (x, y)) => if x =? y then None else Some (Byte i x y)) (imap (fun i xy => (i, xy)) (zip (b_bytes a) (b_bytes b)))).

(** The function the first loop stops at, or ends with: it goes over the functions of the same program. *)
Definition other_function (f0 : nat) (l : list function_t) : option nat :=
  match l !! f0 with
  | None => None
  | Some f =>
    match last_index (fun '(i, g) => negb (Nat.eqb i f0) && (f_addr g =? f_addr f)) (imap (fun i g => (i, g)) l) with
    | Some i => Some i
    | None => Some 0%nat
    end
  end.
(** The functions from number [n - 1] down: the programs, the names that differ and how many blocks were marked. *)
Fixpoint diff_functions (n : nat) (a b : program_t) : program_t * program_t * list string * Z :=
  match n with
  | O => (a, b, [], 0)
  | S i =>
    match functions a !! i, f1 ← other_function i (functions a); functions a !! f1 with
    | Some f0, Some f1 =>
      if f_frame f0 =? f_frame f1 then
        match program_block_get a (f_addr f0) with
        | Some k =>
          let b' := match program_block_get b (f_addr f0) with Some m => upd_block m (set_ignored true) b | None => b end in
          let '(a, b, l, c) := diff_functions i (upd_block k (set_ignored true) a) b' in (a, b, l, c + 1)
        | None => diff_functions i a b
        end
      else let '(a, b, l, c) := diff_functions i a b in (a, b, f_name f0 :: l, c)
    | _, _ => diff_functions i a b
    end
  end.

Record rdbdiff := Rdbdiff {
  d_a : program_t; d_b : program_t;
  d_same : list (block_t * block_t);   (** [ignored by checksum] *)
  d_differ : list (block_t * block_t * list difference);   (** [Function '%s' differs] *)
  d_functions : list string;   (** [Function differs] *)
  d_count : Z }.

Definition rdb_diff (a b : program_t) : rdbdiff :=
  let '(la, lb, same) := diff_pass same_checksum (rev (blocks a)) (rev (blocks b)) in
  let '(la, lb, names) := diff_pass same_name la lb in
  let a := with_blocks (n_blocks a) (rev la) a in let b := with_blocks (n_blocks b) (rev lb) b in
  let '(a, b, fs, c) := diff_functions (length (functions a)) a b in
  Rdbdiff a b same ((fun p => (p, rdb_diff_block p.1 p.2)) <$> names) fs (Z.of_nat (length names) + c).

(** What is left to be looked at. *)
Definition not_processed (p : program_t) : list block_t := filter (fun b => b_ignored b = false) (rev (blocks p)).

(** ** A pass pairs what it is meant to, and all of it *)
Section pass.
Context (cond : block_t -> block_t -> bool).

Lemma diff_inner_spec b0 lb l ps : diff_inner cond b0 lb = (l, ps) ->
  (forall p, p ∈ ps -> p.1 = b0 /\ p.2 ∈ lb /\ b_ignored p.2 = false /\ cond b0 p.2 = true) /\
  (forall b1, b1 ∈ l -> b_ignored b1 = false -> b1 ∈ lb /\ cond b0 b1 = false).
Proof.
  revert l ps. induction lb as [|b1 lb IH]; intros l ps; cbn [diff_inner]; [intros [= <- <-]; split; by intros ? ?%elem_of_nil|].
  destruct (diff_inner cond b0 lb) as [l' ps']. destruct (IH l' ps' eq_refl) as [Hp Hl].
  assert (forall b, b ∈ l' -> b_ignored b = false -> b ∈ b1 :: lb /\ cond b0 b = false) as Hl' by (intros b Hb Hi; destruct (Hl b Hb Hi); split; [by right|done]).
  assert (forall p, p ∈ ps' -> p.1 = b0 /\ p.2 ∈ b1 :: lb /\ b_ignored p.2 = false /\ cond b0 p.2 = true) as Hp'
    by (intros p H; destruct (Hp p H) as (? & ? & ? & ?); split_and!; [done|by right|done|done]).
  destruct (negb (b_ignored b1) && cond b0 b1) eqn:E; intros [= <- <-]; (split; [intros p Hin|intros b Hin Hi]).
  - apply elem_of_cons in Hin as [->|Hin]; [|by apply Hp']. apply andb_prop in E as [E1 E2]. apply negb_true_iff in E1.
    split_and!; [done|by left|done|done].
  - apply elem_of_cons in Hin as [->|Hin]; [done|by apply Hl'].
  - by apply Hp'.
  - apply elem_of_cons in Hin as [->|Hin]; [|by apply Hl']. rewrite Hi in E. split; [by left|done].
Qed.

Lemma diff_pass_spec la lb la' lb' ps : diff_pass cond la lb = (la', lb', ps) ->
  (forall p, p ∈ ps -> p.1 ∈ la /\ p.2 ∈ lb /\ b_ignored p.1 = false /\ b_ignored p.2 = false /\ cond p.1 p.2 = true) /\
  (forall b0, b0 ∈ la' -> b_ignored b0 = false -> b0 ∈ la) /\ (forall b1, b1 ∈ lb' -> b_ignored b1 = false -> b1 ∈ lb) /\
  (forall b0 b1, b0 ∈ la' -> b1 ∈ lb' -> b_ignored b0 = false -> b_ignored b1 = false -> cond b0 b1 = false).
Proof.
  revert lb la' lb' ps. induction la as [|b0 la IH]; intros lb la' lb' ps; cbn [diff_pass].
  { intros [= <- <- <-]. split_and!; [by intros ? ?%elem_of_nil|by intros ? ?%elem_of_nil|done|by intros ? ? ?%elem_of_nil]. }
  destruct (b_ignored b0) eqn:Ei.
  - destruct (diff_pass cond la lb) as [[la1 lb1] ps1] eqn:E. destruct (IH _ _ _ _ E) as (H1 & H2 & H3 & H4). intros [= <- <- <-]. split_and!; [| |done|].
    + intros p Hp. destruct (H1 p Hp) as (? & ? & ? & ? & ?). split_and!; try done. by right.
    + intros b [->|Hb]%elem_of_cons Hi; [congruence|]. right. by apply H2.
    + intros b b' [->|Hb]%elem_of_cons; [congruence|]. by apply H4.
  - destruct (diff_inner cond b0 lb) as [lb0 ps0] eqn:E0. destruct (diff_inner_spec _ _ _ _ E0) as [I1 I2].
    destruct (diff_pass cond la lb0) as [[la1 lb1] ps1] eqn:E. destruct (IH _ _ _ _ E) as (H1 & H2 & H3 & H4). intros [= <- <- <-].
    assert (forall b, b = match ps0 with [] => b0 | _ :: _ => set_ignored true b0 end -> b_ignored b = false -> b = b0) as Hb0
      by (intros b -> Hi; by destruct ps0).
    assert (forall b1, b1 ∈ lb0 -> b_ignored b1 = false -> b1 ∈ lb) as Hlb by (intros b1 Hb Hi; by destruct (I2 b1 Hb Hi)).
    split_and!.
    + intros p [Hp|Hp]%elem_of_app; [destruct (I1 p Hp) as (-> & ? & ? & ?); split_and!; try done; by left|].
      destruct (H1 p Hp) as (? & ? & ? & ? & ?). split_and!; try done; [by right|by apply Hlb].
    + intros b [Hb|Hb]%elem_of_cons Hi; [rewrite (Hb0 b Hb Hi); by left|right; by apply H2].
    + intros b Hb Hi. apply Hlb; [by apply H3|done].
    + intros b b' [Hb|Hb]%elem_of_cons Hb' Hi Hi'; [|by apply H4]. rewrite (Hb0 b Hb Hi). by apply I2; [apply H3|].
Qed.

(** Nothing is lost: what was not marked is left, or is in a pair. *)
Lemma diff_inner_kept b0 lb l ps : diff_inner cond b0 lb = (l, ps) ->
  forall b1, b1 ∈ lb -> b_ignored b1 = false -> b1 ∈ l \/ exists p, p ∈ ps /\ p.2 = b1.
Proof.
  revert l ps. induction lb as [|b lb IH]; intros l ps; cbn [diff_inner]; [by intros _ ? ?%elem_of_nil|].
  destruct (diff_inner cond b0 lb) as [l' ps']. specialize (IH l' ps' eq_refl).
  destruct (negb (b_ignored b) && cond b0 b); intros [= <- <-] b1 [->|Hb]%elem_of_cons Hi.
  - right. exists (b0, b). by split; [left|].
  - destruct (IH b1 Hb Hi) as [|(p & ? & ?)]; [left; by right|right; exists p; split; [by right|done]].
  - left. by left.
  - destruct (IH b1 Hb Hi) as [|?]; [left; by right|by right].
Qed.

Lemma diff_pass_kept la lb la' lb' ps : diff_pass cond la lb = (la', lb', ps) ->
  (forall b0, b0 ∈ la -> b_ignored b0 = false -> b0 ∈ la' \/ exists p, p ∈ ps /\ p.1 = b0) /\
  (forall b1, b1 ∈ lb -> b_ignored b1 = false -> b1 ∈ lb' \/ exists p, p ∈ ps /\ p.2 = b1).
Proof.
  revert lb la' lb' ps. induction la as [|b la IH]; intros lb la' lb' ps; cbn [diff_pass].
  { intros [= <- <- <-]. split; [by intros ? ?%elem_of_nil|by left]. }
  destruct (b_ignored b) eqn:Ei.
  - destruct (diff_pass cond la lb) as [[la1 lb1] ps1] eqn:E. destruct (IH _ _ _ _ E) as [Ha Hb]. intros [= <- <- <-].
    split; [|done]. intros b0 [->|Hin]%elem_of_cons Hi; [congruence|]. destruct (Ha b0 Hin Hi) as [|?]; [left; by right|by right].
  - destruct (diff_inner cond b lb) as [lb0 ps0] eqn:E0. pose proof (diff_inner_kept _ _ _ _ E0) as K.
    destruct (diff_inner_spec _ _ _ _ E0) as [I1 _].
    destruct (diff_pass cond la lb0) as [[la1 lb1] ps1] eqn:E. destruct (IH _ _ _ _ E) as [Ha Hb]. intros [= <- <- <-].
    split; intros x Hin Hi.
    + apply elem_of_cons in Hin as [->|Hin].
      * destruct ps0 as [|p ps0]; [left; by left|]. right. exists p. split; [by left|]. by apply (I1 p); left.
      * destruct (Ha x Hin Hi) as [|(p & ? & ?)]; [left; by right|right; exists p; split; [by apply elem_of_app; right|done]].
    + destruct (K x Hin Hi) as [H|(p & ? & ?)]; [|right; exists p; split; [by apply elem_of_app; left|done]].
      destruct (Hb x H Hi) as [|(p & ? & ?)]; [by left|right; exists p; split; [by apply elem_of_app; right|done]].
Qed.
End pass.

Lemma upd_block_left i p b : b ∈ blocks (upd_block i (set_ignored true) p) -> b_ignored b = false -> b ∈ blocks p.
Proof.
  unfold upd_block. cbn [blocks with_blocks]. intros (k & Hk)%list_elem_of_lookup Hi. rewrite list_lookup_alter in Hk. destruct (decide _) as [->|].
  - destruct (blocks p !! _) as [x|]; [|done]. cbn in Hk. by simplify_eq.
  - by eapply list_elem_of_lookup_2.
Qed.
Lemma diff_functions_left n a b : let '(a', b', _, _) := diff_functions n a b in
  (forall x, x ∈ blocks a' -> b_ignored x = false -> x ∈ blocks a) /\ (forall x, x ∈ blocks b' -> b_ignored x = false -> x ∈ blocks b).
Proof.
  revert a b. induction n as [|n IH]; intros a b; cbn [diff_functions]; [done|].
  destruct (functions a !! n) as [f0|]; [|apply IH]. destruct (f1 ← other_function n (functions a); functions a !! f1) as [f1|]; [|apply IH].
  destruct (f_frame f0 =? f_frame f1); [|specialize (IH a b); by destruct (diff_functions n a b) as [[[? ?] ?] ?]].
  destruct (program_block_get a (f_addr f0)) as [k|]; [|apply IH].
  set (b' := match program_block_get b (f_addr f0) with Some _ => _ | None => _ end).
  specialize (IH (upd_block k (set_ignored true) a) b'). destruct (diff_functions n _ b') as [[[a2 b2] ?] ?]. destruct IH as [Ha Hb].
  split; intros x Hx Hi; [by eapply upd_block_left; [apply Ha|]|]. specialize (Hb x Hx Hi). unfold b' in Hb.
  destruct (program_block_get b (f_addr f0)); [by eapply upd_block_left|done].
Qed.

Lemma upd_block_kept i p b : b ∈ blocks p -> b ∈ blocks (upd_block i (set_ignored true) p) \/ blocks p !! i = Some b.
Proof.
  intros (k & Hk)%list_elem_of_lookup. destruct (decide (k = i)) as [->|]; [by right|]. left. apply list_elem_of_lookup. exists k.
  unfold upd_block. cbn [blocks with_blocks]. by rewrite list_lookup_alter_ne.
Qed.
Lemma marked_kept p x addr i : program_block_get p addr = Some i -> x ∈ blocks p ->
  x ∈ blocks (upd_block i (set_ignored true) p) \/ b_addr x = addr.
Proof.
  intros Hi Hx. destruct (upd_block_kept i p x Hx) as [|E]; [by left|]. right. apply last_index_Some in Hi as (y & Hy & Ea).
  rewrite E in Hy. injection Hy as ->. by apply Z.eqb_eq.
Qed.
(** Only blocks that begin where a function of the first program begins are marked for the functions. *)
Lemma diff_functions_kept n a b : let '(a', b', _, _) := diff_functions n a b in
  (forall x, x ∈ blocks a -> x ∈ blocks a' \/ exists f, f ∈ functions a /\ f_addr f = b_addr x) /\
  (forall x, x ∈ blocks b -> x ∈ blocks b' \/ exists f, f ∈ functions a /\ f_addr f = b_addr x).
Proof.
  revert a b. induction n as [|n IH]; intros a b; cbn [diff_functions]; [split; by left|].
  destruct (functions a !! n) as [f0|] eqn:Ef; [|apply IH]. destruct (f1 ← other_function n (functions a); functions a !! f1) as [f1|]; [|apply IH].
  destruct (f_frame f0 =? f_frame f1); [|specialize (IH a b); by destruct (diff_functions n a b) as [[[? ?] ?] ?]].
  destruct (program_block_get a (f_addr f0)) as [k|] eqn:Ek; [|apply IH].
  set (b' := match program_block_get b (f_addr f0) with Some _ => _ | None => _ end).
  specialize (IH (upd_block k (set_ignored true) a) b'). destruct (diff_functions n _ b') as [[[a2 b2] ?] ?]. destruct IH as [Ha Hb].
  change (functions (upd_block k (set_ignored true) a)) with (functions a) in *.
  assert (Hf : f0 ∈ functions a) by by eapply list_elem_of_lookup_2.
  split; intros x Hx.
  - destruct (marked_kept _ _ _ _ Ek Hx) as [H|H]; [by apply Ha|right; by exists f0].
  - unfold b' in Hb. destruct (program_block_get b (f_addr f0)) as [m|] eqn:Em; [|by apply Hb].
    destruct (marked_kept _ _ _ _ Em Hx) as [H|H]; [by apply Hb|right; by exists f0].
Qed.

Lemma same_checksum_true b0 b1 : same_checksum b0 b1 = true <-> b_checksum b0 = b_checksum b1 /\ b_checksum b1 <> 0.
Proof. unfold same_checksum. rewrite andb_true_iff, negb_true_iff, Z.eqb_eq, Z.eqb_neq. tauto. Qed.
Lemma same_name_true b0 b1 :
  same_name b0 b1 = true <-> (exists n, b_name b0 = Some n /\ b_name b1 = Some n) /\ b_checksum b1 <> 0.
Proof.
  unfold same_name. destruct (b_name b0) as [n|], (b_name b1) as [m|]; try (split; [done|by intros [(? & ? & ?) ?]]).
  rewrite andb_true_iff, negb_true_iff, Z.eqb_neq, String.eqb_eq. split; [intros [? ->]; eauto|]. intros [(k & [= ->] & [= ->]) ?]. done.
Qed.
Lemma differing_bytes a b i x y : Byte i x y ∈ rdb_diff_block a b <->
  b_n a = b_n b /\ b_bytes a !! i = Some x /\ b_bytes b !! i = Some y /\ x <> y.
Proof.
  unfold rdb_diff_block. rewrite elem_of_app. transitivity (Byte i x y ∈
    (if negb (b_n a =? b_n b) then [Length (b_n a) (b_n b)]
     else omap (fun '(i, (x, y)) => if x =? y then None else Some (Byte i x y)) (imap (fun i xy => (i, xy)) (zip (b_bytes a) (b_bytes b))))).
  { split; [|by right]. intros [H|]; [|done]. destruct (_ =? _); [by apply elem_of_nil in H|by apply list_elem_of_singleton in H]. }
  destruct (Z.eqb_spec (b_n a) (b_n b)) as [E|E]; cbn [negb]; [|rewrite list_elem_of_singleton; split; [done|by intros []]].
  rewrite list_elem_of_omap. split.
  - intros ((j & u & v) & Hin & H). destruct (Z.eqb_spec u v) as [|Hne]; [done|]. injection H as <- <- <-. split; [done|].
    apply list_elem_of_lookup in Hin as (k & Hk). rewrite list_lookup_imap in Hk. destruct (zip _ _ !! k) as [uv|] eqn:Hz; [|done].
    injection Hk as <- ->. apply lookup_zip_with_Some in Hz as (u' & v' & [= -> ->] & Hu & Hv). done.
  - intros (_ & Hx & Hy & Hne). exists (i, (x, y)). rewrite (proj2 (Z.eqb_neq x y)) by done. split; [|done].
    apply list_elem_of_lookup. exists i. rewrite list_lookup_imap. replace (zip (b_bytes a) (b_bytes b) !! i) with (Some (x, y)); [done|].
    symmetry. apply lookup_zip_with_Some. by exists x, y.
Qed.

(** C28: Two blocks are said to be the same only when they have one checksum, and it is not zero; two are said to differ
    only when they have one name and different checksums, the one of the second not being zero, and, when they are as
    long as each other, exactly the places with different bytes are printed, with both bytes. Of two blocks that are
    left to be looked at, unless the checksum of the second is zero (the program takes those for blocks without one),
    the checksums differ and the names do too, or one has no name. And no block that was not marked is lost: it is in
    one of the pairs, is left over, or begins where a function of the first program does. *)
Theorem rdb_diff_exact a b : let d := rdb_diff a b in
  (forall p, p ∈ d_same d -> p.1 ∈ blocks a /\ p.2 ∈ blocks b /\ b_checksum p.1 = b_checksum p.2 /\ b_checksum p.2 <> 0) /\
  (forall b0 b1 ds, (b0, b1, ds) ∈ d_differ d -> b0 ∈ blocks a /\ b1 ∈ blocks b /\
    (exists n, b_name b0 = Some n /\ b_name b1 = Some n) /\ b_checksum b0 <> b_checksum b1 /\ b_checksum b1 <> 0 /\
    (forall i x y, Byte i x y ∈ ds <-> b_n b0 = b_n b1 /\ b_bytes b0 !! i = Some x /\ b_bytes b1 !! i = Some y /\ x <> y)) /\
  (forall b0 b1, b0 ∈ not_processed (d_a d) -> b1 ∈ not_processed (d_b d) -> b_checksum b1 <> 0 ->
    b_checksum b0 <> b_checksum b1 /\ forall n, b_name b0 = Some n -> b_name b1 <> Some n) /\
  (forall b0, b0 ∈ blocks a -> b_ignored b0 = false -> (exists p, p ∈ d_same d /\ p.1 = b0) \/ (exists p, p ∈ d_differ d /\ p.1.1 = b0) \/
    b0 ∈ not_processed (d_a d) \/ exists f, f ∈ functions a /\ f_addr f = b_addr b0) /\
  (forall b1, b1 ∈ blocks b -> b_ignored b1 = false -> (exists p, p ∈ d_same d /\ p.2 = b1) \/ (exists p, p ∈ d_differ d /\ p.1.2 = b1) \/
    b1 ∈ not_processed (d_b d) \/ exists f, f ∈ functions a /\ f_addr f = b_addr b1).
Proof.
  unfold rdb_diff. destruct (diff_pass same_checksum _ _) as [[la lb] same] eqn:E1. destruct (diff_pass same_name la lb) as [[la' lb'] names] eqn:E2.
  destruct (diff_pass_spec _ _ _ _ _ _ E1) as (P1 & P2 & P3 & P4). destruct (diff_pass_spec _ _ _ _ _ _ E2) as (Q1 & Q2 & Q3 & Q4).
  destruct (diff_pass_kept _ _ _ _ _ _ E1) as [K1 K2]. destruct (diff_pass_kept _ _ _ _ _ _ E2) as [L1 L2].
  cbn [functions with_blocks]. set (pa := with_blocks _ (rev la') a). set (pb := with_blocks _ (rev lb') b).
  pose proof (diff_functions_left (length (functions a)) pa pb) as HF. pose proof (diff_functions_kept (length (functions a)) pa pb) as HK.
  destruct (diff_functions _ pa pb) as [[[a2 b2] fs] c]. destruct HF as [Fa Fb], HK as [Ga Gb].
  assert (forall x (l : list block_t), x ∈ rev l <-> x ∈ l) as Hrev by (intros; by rewrite !list_elem_of_In, <-in_rev).
  cbn [d_same d_differ d_a d_b blocks functions with_blocks pa pb] in *. unfold not_processed. split_and!.
  - intros p Hp. destruct (P1 p Hp) as (Ha & Hb & _ & _ & Hc). apply same_checksum_true in Hc as []. by rewrite !Hrev in *.
  - intros b0 b1 ds (q & [= <- ->] & Hq)%list_elem_of_fmap. destruct (Q1 _ Hq) as (Ha & Hb & Hia & Hib & Hc). cbn [fst snd] in *.
    pose proof (P4 _ _ Ha Hb Hia Hib) as Hs. pose proof (P2 _ Ha Hia). pose proof (P3 _ Hb Hib). rewrite !Hrev in *.
    apply same_name_true in Hc as [Hn Hc]. split_and!; try done; [|apply differing_bytes].
    intros Heq. by rewrite (proj2 (same_checksum_true b0 b1)) in Hs.
  - intros b0 b1 [H0 Hin0]%list_elem_of_filter [H1 Hin1]%list_elem_of_filter Hc. rewrite Hrev in Hin0, Hin1.
    pose proof (Fa _ Hin0 H0) as Ka. pose proof (Fb _ Hin1 H1) as Kb. rewrite Hrev in Ka, Kb.
    pose proof (Q4 _ _ Ka Kb H0 H1) as Hname. pose proof (P4 _ _ (Q2 _ Ka H0) (Q3 _ Kb H1) H0 H1) as Hsum.
    split; [intros Heq; by rewrite (proj2 (same_checksum_true b0 b1)) in Hsum|].
    intros n Hn Hn'. rewrite (proj2 (same_name_true b0 b1)) in Hname; [done|]. split; [by exists n|done].
  - intros x Hx Hi. destruct (K1 x) as [Hl|]; [by rewrite Hrev|done| |by left]. right. destruct (L1 x Hl Hi) as [Hl'|(p & Hp & <-)].
    + right. destruct (Ga x) as [H|]; [by rewrite Hrev| |by right]. left. apply list_elem_of_filter. by rewrite Hrev.
    + left. exists (p, rdb_diff_block p.1 p.2). split; [|done]. apply list_elem_of_fmap. by exists p.
  - intros x Hx Hi. destruct (K2 x) as [Hl|]; [by rewrite Hrev|done| |by left]. right. destruct (L2 x Hl Hi) as [Hl'|(p & Hp & <-)].
    + right. destruct (Gb x) as [H|]; [by rewrite Hrev| |by right]. left. apply list_elem_of_filter. by rewrite Hrev.
    + left. exists (p, rdb_diff_block p.1 p.2). split; [|done]. apply list_elem_of_fmap. by exists p.
Qed.

(** ** What goes wrong *)
Definition diff_program (name : string) (f : list function_t) (l : list block_t) : program_t :=
  Program (Some name) 0 (Z.of_nat (length l)) l (Z.of_nat (length f)) f.
Definition diff_block (addr sum : Z) (name : string) : block_t := Block addr BLK_TYPE_HEAD false 0 [] sum [] [] 0 0 (Some name) None.

(** A function is compared with the functions of its own program: alone it is equal to itself, and its block is counted as
    looked at, whatever the other program has. *)
Example function_meets_itself :
  let d := rdb_diff (diff_program "a" [Fun "main" 16 0 0 4 8 []] [diff_block 16 1 "main"]) (diff_program "b" [Fun "other" 32 0 0 4 12 []] [diff_block 32 2 "other"]) in
  not_processed (d_a d) = [] /\ d_count d = 1 /\ d_functions d = [].
Proof. by vm_compute. Qed.
(** A block stands for all the blocks of the other program with its checksum: two there, and one more than there are here. *)
Example one_meets_two :
  let d := rdb_diff (diff_program "a" [] [diff_block 16 1 "x"]) (diff_program "b" [] [diff_block 16 1 "x"; diff_block 32 1 "y"]) in
  length (d_same d) = 2%nat /\ not_processed (d_b d) = [].
Proof. by vm_compute. Qed.
